(* ===== verification/_CoqProject ===== *)
-Q . S2P
Prelude.v
Zdp.v
ZdprReceiver.v
ZdprSender.v
ZdprOrder.v
Dispatch.v
ZdprSession.v
Utf8.v
Tlv.v
NetDefs.v
IpHeaders.v
PacketBuf.v
Compress.v
Classifier.v
Tc.v
TxnMgr.v
Slab.v
AdapterTables.v
VisaTable.v
Node.v
NodeInv.v
NodeSafe.v
AddressPool.v
Link.v
LinkInv.v
LinkSafe.v
Messages.v
Wire.v
Intake.v
Transport.v
Queues.v
PacketKeep.v
FastPath.v
FastPathSafe.v
FastPathAuth.v
FastPathFlow.v
BatchIo.v
MgmtQueues.v
FastPathIo.v
FastPathIoSafe.v
Steering.v
KmNoise.v
KmSafe.v
Km.v
KmMux.v
VsConn.v
VsWorker.v
SendHandles.v
Evidence.v
Config.v
PeerTable.v
VssWorker.v
