(* ===== verification/Prelude.v ===== *)
(** * The ZPR packet handler

    The packet handler ([src/adapter/ph/src]) carries IP packets between the
    hosts of a ZPR network.  An _adapter_ stands before a host, a _node_
    between adapters; they talk over _links_.  On a link run management messages,
    delivered reliably by the ZDPR protocol, and the packets of flows, compressed
    to what the two ends do not know of them, and protected with keys that a
    key manager agrees on.  A flow is bound before its packets pass: the adapter
    asks its node, the node asks the visa service for a visa, then the next hop
    for a stream, and installs a route.  From then on the packets of the flow go
    through the fast path of adapters and node alone.

    ** Parts, files and sources

    Foundations:
    - [Prelude]: machine integers with their wrap-around, [outcome] (a value or a
      panic), big-endian fields, shared tactics and lemmas.
    - [Zdp] ([zdp.rs]): packet types, codes and header structs with their layouts, over
      an interface of packed structs ([PackedLaws]).
    - [Utf8], [Tlv] ([tlv.rs]): typed fields and their parser.
    - [NetDefs] ([defs.rs]): five-tuples, and the interface to the [zpr] crates.
    - [Slab] ([forwarding_tables.rs]): per-peer routes over the [cslab] interface.

    Reliable messages:
    - [ZdprReceiver], [ZdprSender] ([zdpr.rs]): the reliable protocol, the receiver's
      sliding-window bitsets and the sender's window, queues and retries;
      [ZdprOrder]: the fate of every packet that was enqueued.
    - [Dispatch] ([mgmt/dispatch.rs], [zdpr_worker.rs], [counters.rs]): management
      packets parsed and handed to the peer's sender and receiver.
    - [ZdprSession]: two ends and a substrate that loses, duplicates and reorders.
    - [SendHandles] ([mgmt/core.rs]): the futures that senders of messages hold.
    - [Messages] ([mgmt/requests.rs], [mgmt/core.rs], [mgmt_processor_worker.rs],
      [mgmt/handlers.rs]): the management messages, as they are built, routed and
      decoded; [Wire]: senders and receivers agree; [Intake]: arbitrary bytes.

    Data path:
    - [IpHeaders], [PacketBuf] ([packet.rs]), [Compress] ([compress.rs]), [Classifier]
      ([classifier.rs]), [Tc] ([tc.rs]): packets, header compression,
      classification and traffic classifiers; [PacketKeep]: what all of them keep.
    - [Transport] ([km.rs], [fastpath.rs]): security associations, and how a
      packet is protected by them.
    - [Queues] ([packet_queue.rs], [two_way_queue.rs], [sys/posix/notify.rs],
      [flow_control.rs]) and [MgmtQueues] ([queues.rs]): the queues to and from the fast
      path, the former also as interleaved accesses to shared state.
    - [FastPath] ([fastpath.rs]): what a worker does with a packet; [FastPathSafe]:
      buffers; [FastPathAuth]: what is accepted; [FastPathFlow]: from actor to actor.
    - [BatchIo] ([batch_io.rs]), [FastPathIo] ([fastpath_io.rs], [fastpath_worker.rs]),
      [FastPathIoSafe]: the loop of a worker around the operating system's results.
    - [Steering] ([packet_steering.rs]): the BPF program that selects a worker.

    Keys:
    - [KmNoise] ([km_noise.rs], [km_cert_exchange.rs]): the Noise handshake with
      certificates; [KmSafe]: its theorems.
    - [Km] ([km.rs]): the key manager of a link, over any state machine;
      [KmMux] ([km_multiplexor.rs], [peer_table.rs]): the managers of all links.

    Flows, links and actors:
    - [TxnMgr] ([mgmt/txn_mgr.rs]): transaction identifiers, reference counts, wake-ups.
    - [AdapterTables] ([adapter_tables.rs], [mgmt/adapter.rs],
      [adapter_manager_worker.rs]): the adapter's side of binding.
    - [VisaTable] ([visa_table.rs]): visas, the routes linked to them, expiry.
    - [Node], [NodeInv], [NodeSafe] ([mgmt/node.rs], parts of [mgmt/handlers.rs],
      [visa_mgmt.rs], [vss_worker.rs], [assembly.rs], [peer_table.rs]): the node's side
      of binding; the model, its invariant, and the theorems over runs.
    - [AddressPool] ([address_pool.rs], [sample_ring.rs]): authentication addresses
      and latency samples.
    - [Link], [LinkInv], [LinkSafe] ([link_state.rs], [actor_auth.rs]): the state machine
      of a link and the authorization of the actor behind it; the model, its
      invariant, and the theorems over runs.
    - [Evidence] ([auth.rs], [visa_mgmt.rs]): what authorizes an actor; an instance of
      the interface that [Link] is written against.
    - [PeerTable] ([peer_table.rs], [assembly.rs]): peers, their addresses and special names,
      and how the link of a new peer is started, on the links of [Link].

    Visa service and start-up:
    - [VsConn] ([src/libnode2/src/vsconn.rs]): the connection to the visa service;
      [VsWorker] ([vs_worker.rs]): how a node stays registered over it, and the two together;
      [VssWorker] ([vss_worker.rs]): what the visa service asks of the node.
    - [Config] ([config.rs], [main_argparse.rs], [main_args.rs], [logging.rs]): the
      configuration and where its settings come from.

    A component's state is a record with the fields of its struct; an operation
    is a function of the same name, which returns the new state and, where the
    code can fail or panic, an error or [Panic].  Asynchronous tasks are values in
    a list: a run picks which one goes on, and with what result, so theorems over
    runs hold in every interleaving of whole handlers.  Remote calls are effects of a
    small language of programs ([VsConn]), which the world answers as it likes.
    Code outside the repository is a type class ([NetDefs], [Slab], [VsApi], [A2aKeys],
    [TlvExternals], [WireTypes], [Blake3], [Snow], [Pki], [VsTypes], [EvidenceLib],
    [ConfigWorld]) with the laws that its documentation gives; so are the interfaces between
    components ([AuthApi], [KeyManagerStateMachine]).  Instances at the ends of the files show
    that the laws can hold, and let the examples compute.

    ** What is shown

    - Reliable messages: each is handed up at most once and unchanged, what the
      sender believes of the receiver is true, every packet is sent in its turn,
      waits or was canceled ([sender_fifo]), every
      retransmission is answered; the bitset receiver refines a set of
      accepted numbers; the sender's invariant holds over every run of calls that
      respect their contract, a sent packet moves as the state diagram's events say, and
      the queue is bounded by the handles held for it.
    - Wire formats: round trips of headers, TLV fields, classifiers and
      packets; the TLV parser accepts exactly the well-formed inputs.
    - Messages: every management message that is built, but for reports, is routed and
      decoded to what the sender put in ([messages_understood]), and on arbitrary bytes the
      handlers return, but for the packets that [receive_panics_exactly] names.
    - Data path: compression followed by expansion is the identity on classified
      packets without options; a classification is sound; buffers refine three
      byte strings.  An IPv6 packet of a bound flow arrives as it was sent
      ([ipv6_end_to_end]); a frame has an effect only if its protection verified,
      apart from key management on links without keys and from unknown addresses
      ([ingress_verified]); no buffer is lost or duplicated, whatever the
      system reports ([worker_turn_keeps_buffers]); no notification is lost in any
      interleaving ([no_lost_wakeup]).
    - Keys: ends that satisfy each other agree ([handshake_agrees]), an end that
      insists on a verified certificate gets one ([transport_authenticated]), the
      signals of a manager determine the association that is installed, and a
      link that failed is tried again.
    - Binding: over every run the adapter's tables, transactions and tasks
      agree, and a flow is active only by a grant that covers it; the node's bind
      states, transactions, visas and routes agree;
      routes go with their visas, and nothing panics as long as the named
      conditions on the inputs hold.
    - Links: readiness is exact, the pool reserves exactly the addresses of the
      links, an actor keeps addresses only while its link is open, and each
      registration at the visa service is held or was reported as ended, as long as the
      named conditions hold.  The peer table's index is exact.  Evidence
      is accepted exactly for its own challenge and for its time.
    - Visa service: every command is answered once, a handle is used only in the
      connection that gave it out.
    - Configuration: the source of every setting, and what is accepted.
    - Theorems named for failures ([node_unsafe_inputs], [node_route_leaks],
      [link_address_leaks], [canceled_after_answer_panics],
      [forget_stalls_blocked_packets], [late_cancel_reported_acked],
      [receiver_window_64_loses_packet], [options_not_restored], [reports_are_lost],
      [ipv4_never_arrives], [remote_adapter_panics], [steering_ignores_stream],
      [dropped_link_keeps_association], [stop_lost_if_service_is],
      [refused_registration_wedges], [file_overrides_command_line],
      [special_name_outlives_link], [forgotten_stays_in_window] and others) are runs in
      which the code loses, leaks or panics, or departs from its documentation; they
      are what the conditions of the positive theorems exclude.

    ** Bounds and fuel

    Loops that the code writes with [while] take a number of steps as fuel, and a
    theorem shows that it is enough: the size of the queue for [unblock_loop]
    ([unblock_loop_complete]), one more than the active identifiers for [free_id]
    ([aaa_alloc_release], which also says when no number of steps is), the length of the buffer for the TLV, option and UTF-8 loops.
    For [bpf_run] it is the length of the program, whose jumps only go forward.
    Counters of 64 bits that must not come round bound the length of a
    run by 2^64 steps.

    ** Not modelled

    - Sockets, the TUN device, signals, the system calls of the batch engines and the
      start-up in [main.rs] are I/O or glue; what they report is an input.
    - Cryptography (Noise, BLAKE3, RSA, certificates), TLS, HTTP, Cap'n Proto, TOML and the
      reading of the command line (clap with its value parsers) are third-party, and
      parameters where they meet the model.
    - Locks and RCU publication: a handler is one step.  The exception is [Queues],
      where senders and receiver race access by access.
    - The retry timer of [zdpr_worker.rs], the RPC server of the visa support service
      ([src/libnode2/src/vss.rs]), and the administration interface and its tools, which
      only display and forward. *)
From Stdlib Require Export ZArith Lia Bool.
From stdpp Require Export base tactics list gmap numbers.

Export ListNotations.
#[export] Set Warnings "-clear-no-such-hyp".
Global Open Scope Z_scope.

(** ** Machine integers

    A [w]-bit unsigned integer is a [Z] in [[0, 2^w)].  The release profile
    of the crate leaves overflow checks off, so [+], [-], unary [-] and [<<]
    wrap; the wrap-around is always written out. *)

Abbreviation U8_MOD := 256.
Abbreviation U16_MOD := 65536.
Abbreviation U32_MOD := 4294967296.
Abbreviation I64_MOD := 9223372036854775808.
Abbreviation U64_MOD := 18446744073709551616.

Definition wrap8 (z : Z) : Z := z mod U8_MOD.
Definition wrap16 (z : Z) : Z := z mod U16_MOD.
Definition wrap32 (z : Z) : Z := z mod U32_MOD.
Definition wrap64 (z : Z) : Z := z mod U64_MOD.

(** [x as i64] (and the result of every [i64] operation). *)
Definition as_i64 (z : Z) : Z := (z + I64_MOD) mod U64_MOD - I64_MOD.

#[global] Arguments wrap8 : simpl never.
#[global] Arguments wrap16 : simpl never.
#[global] Arguments wrap32 : simpl never.
#[global] Arguments wrap64 : simpl never.
#[global] Arguments as_i64 : simpl never.

Definition is_u8 (z : Z) : Prop := 0 <= z < U8_MOD.
Definition is_u16 (z : Z) : Prop := 0 <= z < U16_MOD.
Definition is_u32 (z : Z) : Prop := 0 <= z < U32_MOD.
Definition is_u64 (z : Z) : Prop := 0 <= z < U64_MOD.

Definition in_u8 (z : Z) : bool := (0 <=? z) && (z <? U8_MOD).
Definition in_u16 (z : Z) : bool := (0 <=? z) && (z <? U16_MOD).

(** ** Panics

    A Rust operation that may panic returns an [outcome]. *)
Inductive outcome (A : Type) : Type :=
| Ret (a : A)
| Panic.
Arguments Ret {A} _.
Arguments Panic {A}.

#[global] Instance outcome_ret : MRet outcome := @Ret.
#[global] Instance outcome_bind : MBind outcome :=
  λ A B f m, match m with Ret a => f a | Panic => Panic end.

Lemma outcome_bind_Ret {A B} (m : outcome A) (f : A → outcome B) b :
  (m ≫= f) = Ret b → ∃ a, m = Ret a ∧ f a = Ret b.
Proof. destruct m; [eauto|done]. Qed.

Definition is_ret {A} (m : outcome A) : bool := match m with Ret _ => true | Panic => false end.

(** [assert!(b); k] *)
Definition assertb {A} (b : bool) (k : outcome A) : outcome A :=
  if b then k else Panic.

(** Indexing a [Vec]/[VecDeque]/slice with a [usize] panics out of range. *)
Definition index {A} (l : list A) (i : Z) : outcome A :=
  match l !! Z.to_nat i with
  | Some x => if i <? 0 then Panic else Ret x
  | None => Panic
  end.

(** Writing through [&mut v[i]]: [f] gives the new element and a result. *)
Definition update_at {A B} (l : list A) (i : Z) (f : A → B * A) : outcome (list A * B) :=
  x ← index l i;
  let '(b, x') := f x in Ret (<[Z.to_nat i := x']> l, b).

Definition zlen {A} (l : list A) : Z := Z.of_nat (length l).

(** [Iterator::filter_map]. *)
Fixpoint filter_map {A B} (f : A → option B) (l : list A) : list B :=
  match l with
  | [] => []
  | x :: l => match f x with Some y => y :: filter_map f l | None => filter_map f l end
  end.

(** [iter().enumerate()] from a first index. *)
Fixpoint enumerate_from {A} (i : Z) (l : list A) : list (Z * A) :=
  match l with
  | [] => []
  | x :: l => (i, x) :: enumerate_from (i + 1) l
  end.

(** The prefix loop [while let Some(x) = q.front() && p(x) { q.pop_front() }]. *)
Fixpoint drop_while {A} (p : A → bool) (l : list A) : list A :=
  match l with
  | [] => []
  | x :: l' => if p x then drop_while p l' else l
  end.

(** ** Tactics *)

(** Linear arithmetic with [mod]/[/] by constants. *)
Ltac zmod := unfold wrap8, wrap16, wrap32, wrap64, as_i64, is_u8, is_u16, is_u32, is_u64, zlen in *;
  Z.div_mod_to_equations; lia.

(** Turn boolean comparisons in the context and goal into propositions. *)
Ltac bprop :=
  repeat match goal with
  | H : context [Z.leb ?a ?b] |- _ => destruct (Z.leb_spec a b)
  | H : context [Z.ltb ?a ?b] |- _ => destruct (Z.ltb_spec a b)
  | H : context [Z.eqb ?a ?b] |- _ => destruct (Z.eqb_spec a b)
  | |- context [Z.leb ?a ?b] => destruct (Z.leb_spec a b)
  | |- context [Z.ltb ?a ?b] => destruct (Z.ltb_spec a b)
  | |- context [Z.eqb ?a ?b] => destruct (Z.eqb_spec a b)
  end; simpl in *.


Create HintDb zpr.

(** ** Wrap-around *)

Section wrap.
Lemma wrap64_range z : is_u64 (wrap64 z).
Proof. zmod. Qed.

Lemma wrap64_small z : is_u64 z → wrap64 z = z.
Proof. zmod. Qed.

Lemma as_i64_small z : - I64_MOD <= z < I64_MOD → as_i64 z = z.
Proof. zmod. Qed.

Lemma as_i64_range z : - I64_MOD <= as_i64 z < I64_MOD.
Proof. zmod. Qed.

Lemma as_i64_wrap64 z : as_i64 (wrap64 z) = as_i64 z.
Proof. zmod. Qed.

(** [a.wrapping_sub(b) as i64] recovers the true distance of two ideal
      (unbounded) counters from their wrapped images. *)
Lemma wrapping_distance a b :
    - I64_MOD <= a - b < I64_MOD →
    as_i64 (wrap64 (wrap64 a - wrap64 b)) = a - b.
Proof. zmod. Qed.

Lemma wrap64_idem_l a b : wrap64 (wrap64 a + b) = wrap64 (a + b).
Proof. zmod. Qed.

Lemma wrap64_idem_sub a b : wrap64 (wrap64 a - b) = wrap64 (a - b).
Proof. zmod. Qed.
End wrap.
#[export] Hint Resolve wrap64_range : zpr.

(** ** Lists *)

Section lists.
Context {A : Type}.
Implicit Types l : list A.

Lemma zlen_nonneg l : 0 <= zlen l.
Proof. unfold zlen. lia. Qed.

Lemma zlen_nil : zlen ([] : list A) = 0.
Proof. done. Qed.

Lemma zlen_cons x l : zlen (x :: l) = zlen l + 1.
Proof. unfold zlen. rewrite length_cons. lia. Qed.

Lemma zlen_app l l' : zlen (l ++ l') = zlen l + zlen l'.
Proof. unfold zlen. rewrite length_app. lia. Qed.

Lemma zlen_insert i x l : zlen (<[i := x]> l) = zlen l.
Proof. unfold zlen. by rewrite length_insert. Qed.

Lemma index_Ret l i x : index l i = Ret x ↔ 0 <= i ∧ l !! Z.to_nat i = Some x.
Proof.
    unfold index. destruct (l !! Z.to_nat i) eqn:E; [|naive_solver].
    destruct (Z.ltb_spec i 0); split.
    - done.
    - lia.
    - naive_solver.
    - intros [??]. naive_solver.
  Qed.

Lemma index_in_range l i : 0 <= i < zlen l → ∃ x, index l i = Ret x ∧ l !! Z.to_nat i = Some x.
Proof.
    intros Hi. unfold zlen in Hi.
    destruct (lookup_lt_is_Some_2 l (Z.to_nat i)) as [x Hx]; [lia|].
    exists x. split; [|done]. apply index_Ret. split; [lia|done].
  Qed.

Lemma index_out_of_range l i : zlen l <= i → index l i = Panic.
Proof.
    intros Hi. unfold index, zlen in *. rewrite (proj2 (lookup_ge_None l _)); [done|lia].
  Qed.

Lemma drop_while_suffix (p : A → bool) l :
    ∃ n, drop_while p l = drop n l ∧ Forall (λ x, p x = true) (take n l) ∧ (n <= length l)%nat.
Proof.
    induction l as [|x l IH]; simpl; [exists 0%nat; simpl; auto|].
    destruct (p x) eqn:E.
    - destruct IH as (n & -> & Hf & ?). exists (S n). simpl. auto with lia.
    - exists 0%nat. simpl. auto with lia.
  Qed.

Lemma drop_while_head (p : A → bool) l x l' :
    drop_while p l = x :: l' → p x = false.
Proof.
    induction l as [|y l IH]; simpl; [done|].
    destruct (p y) eqn:E; [auto|congruence].
  Qed.

Lemma drop_while_app (p : A → bool) l l' :
    Forall (λ x, p x = true) l → drop_while p (l ++ l') = drop_while p l'.
Proof. induction 1 as [|x l Hx _ IH]; simpl; [done|]. by rewrite Hx. Qed.

Lemma filter_map_app {B} (f : A → option B) l l' :
    filter_map f (l ++ l') = filter_map f l ++ filter_map f l'.
Proof. induction l as [|x l IH]; simpl; [done|]. destruct (f x); simpl; by rewrite IH. Qed.

Lemma filter_map_take_drop {B} (f : A → option B) n l :
    filter_map f (take n l) ++ filter_map f (drop n l) = filter_map f l.
Proof. by rewrite <- filter_map_app, take_drop. Qed.

Lemma filter_map_none {B} (f : A → option B) l :
    Forall (λ x, f x = None) l → filter_map f l = [].
Proof. induction 1 as [|x l Hx _ IH]; simpl; [done|]. by rewrite Hx. Qed.

Lemma filter_map_insert {B} (f : A → option B) l i x y :
    l !! i = Some x → f y = f x → filter_map f (<[i := y]> l) = filter_map f l.
Proof.
    revert i. induction l as [|z l IH]; intros [|i] Hl Hf; simplify_eq/=; [by rewrite Hf|].
    by rewrite (IH _ Hl Hf).
  Qed.

(** Changing one entry, related to the old one by a reflexive relation. *)
Lemma Forall2_insert_one (R : A → A → Prop) `{!Reflexive R} l i x y :
    l !! i = Some x → R x y → Forall2 R l (<[i := y]> l).
Proof.
    revert i. induction l as [|z l IH]; intros [|i] Hl Hxy; simplify_eq/=; constructor; auto;
      reflexivity.
  Qed.
End lists.
Create Rewrite HintDb zlen.
#[export] Hint Rewrite @zlen_cons @zlen_app @zlen_insert @zlen_nil : zlen.
