(* ===== verification/Zdp.v ===== *)
(** The ZDP wire formats of [src/adapter/ph/src/zdp.rs]: packet types, status
    codes and the packed header structs, with the reading and writing of a
    packed struct that the [zerocopy] derives provide ([read_from_prefix],
    [as_bytes]): fields in declaration order, integers in network byte order.

    A byte is a [Z] in [[0, 256)]. *)
From S2P Require Import Prelude.

Abbreviation bytes := (list Z) (only parsing).

(** ** Network-order integers *)

Fixpoint be_put (n : nat) (z : Z) : bytes :=
  match n with
  | O => []
  | S n => (z / 2 ^ (8 * Z.of_nat n)) mod 256 :: be_put n z
  end.

Definition be_get (l : bytes) : Z := fold_left (λ acc b, acc * 256 + b) l 0.

(** ** Packed structs

    What [FromBytes]/[IntoBytes] promise of a struct: its size, its bytes, its
    value from exactly that many bytes, and which field values are in range. *)
Record packed (A : Type) : Type := mk_packed {
  size_of : nat;
  as_bytes : A → bytes;
  from_bytes : bytes → A;
  in_range : A → Prop;
}.
Arguments mk_packed {A} _ _ _ _.
Arguments size_of {A} _.
Arguments as_bytes {A} _ _.
Arguments from_bytes {A} _ _.
Arguments in_range {A} _ _.

Class PackedLaws {A} (c : packed A) : Prop := {
  packed_length a : in_range c a → length (as_bytes c a) = size_of c;
  packed_bytes a : in_range c a → Forall is_u8 (as_bytes c a);
  packed_from_as a : in_range c a → from_bytes c (as_bytes c a) = a;
  packed_as_from l : length l = size_of c → Forall is_u8 l → as_bytes c (from_bytes c l) = l;
  packed_range l : length l = size_of c → Forall is_u8 l → in_range c (from_bytes c l);
}.

(** [FromBytes::read_from_prefix] (and [read_from_buf], which also advances). *)
Definition read_from_prefix {A} (c : packed A) (l : bytes) : option (A * bytes) :=
  if (length l <? size_of c)%nat then None
  else Some (from_bytes c (take (size_of c) l), drop (size_of c) l).

Definition uint (n : nat) : packed Z := {|
  size_of := n;
  as_bytes := be_put n;
  from_bytes := be_get;
  in_range z := 0 <= z < 2 ^ (8 * Z.of_nat n);
|}.

Definition u8 : packed Z := uint 1.
Definition U16 : packed Z := uint 2.
Definition U32 : packed Z := uint 4.
Definition U64 : packed Z := uint 8.

(** [[u8; n]] *)
Definition byte_array (n : nat) : packed bytes := {|
  size_of := n;
  as_bytes l := l;
  from_bytes l := l;
  in_range l := length l = n ∧ Forall is_u8 l;
|}.

Definition packed_pair {A B} (c : packed A) (d : packed B) : packed (A * B) := {|
  size_of := size_of c + size_of d;
  as_bytes p := as_bytes c p.1 ++ as_bytes d p.2;
  from_bytes l := (from_bytes c (take (size_of c) l), from_bytes d (drop (size_of c) l));
  in_range p := in_range c p.1 ∧ in_range d p.2;
|}.

(** A struct is laid out as the tuple of its fields. *)
Definition packed_struct {A B} (c : packed A) (mk : A → B) (fields : B → A) : packed B := {|
  size_of := size_of c;
  as_bytes b := as_bytes c (fields b);
  from_bytes l := mk (from_bytes c l);
  in_range b := in_range c (fields b);
|}.
Infix "×" := packed_pair (at level 40, left associativity).

(** ** Laws *)

Lemma be_put_length n z : length (be_put n z) = n.
Proof. induction n; simpl; congruence. Qed.

Lemma be_put_bytes n z : Forall is_u8 (be_put n z).
Proof.
  induction n as [|n IH]; simpl; [constructor|]. constructor; [|done].
  apply Z.mod_pos_bound. lia.
Qed.

Lemma be_get_acc l acc :
  fold_left (λ acc b, acc * 256 + b) l acc = acc * 2 ^ (8 * zlen l) + be_get l.
Proof.
  unfold be_get. revert acc. induction l as [|b l IH]; intros acc; [simpl; unfold zlen; simpl; lia|].
  cbn [fold_left]. rewrite IH, (IH (0 * 256 + b)), zlen_cons.
  pose proof (zlen_nonneg l). rewrite Z.mul_add_distr_l, Z.pow_add_r by lia. change (2 ^ (8 * 1)) with 256. lia.
Qed.

Lemma be_get_cons b l : be_get (b :: l) = b * 2 ^ (8 * zlen l) + be_get l.
Proof. unfold be_get at 1. cbn [fold_left]. rewrite be_get_acc. lia. Qed.

Lemma be_get_range l : Forall is_u8 l → 0 <= be_get l < 2 ^ (8 * zlen l).
Proof.
  induction 1 as [|b l Hb _ IH]; [unfold be_get; simpl; unfold zlen; simpl; lia|].
  rewrite be_get_cons, zlen_cons. unfold is_u8 in Hb. pose proof (zlen_nonneg l).
  rewrite Z.mul_add_distr_l, Z.pow_add_r by lia. change (2 ^ (8 * 1)) with 256. nia.
Qed.

Lemma be_put_mod n z : be_put n (z mod 2 ^ (8 * Z.of_nat n)) = be_put n z.
Proof.
  assert (∀ m k, (m <= k)%nat → be_put m (z mod 2 ^ (8 * Z.of_nat k)) = be_put m z) as H; [|by apply H].
  induction m as [|m IH]; intros k Hk; [done|]. cbn [be_put]. rewrite IH by lia. f_equal.
  apply Z.bits_inj'. intros i Hi. change 256 with (2 ^ 8).
  rewrite <- !Z.shiftr_div_pow2 by lia. rewrite <- !Z.land_ones by lia.
  rewrite !Z.land_spec, !Z.shiftr_spec, Z.land_spec by lia.
  destruct (Z.lt_ge_cases i 8); [|rewrite (Z.ones_spec_high 8 i) by lia; by rewrite !andb_false_r].
  rewrite !Z.ones_spec_low by lia. by rewrite !andb_true_r.
Qed.

Lemma be_get_put n z : 0 <= z < 2 ^ (8 * Z.of_nat n) → be_get (be_put n z) = z.
Proof.
  revert z. induction n as [|n IH]; intros z Hz; [unfold be_get; simpl in *; lia|].
  cbn [be_put]. rewrite be_get_cons. unfold zlen. rewrite be_put_length.
  rewrite <- (be_put_mod n z), IH by (apply Z.mod_pos_bound; lia).
  rewrite Nat2Z.inj_succ, Z.mul_succ_r, Z.pow_add_r in Hz by lia. change (2 ^ 8) with 256 in Hz.
  rewrite Z.mod_small with (b := 256); [pose proof (Z.div_mod z (2 ^ (8 * Z.of_nat n))); lia|].
  split; [apply Z.div_pos; lia|apply Z.div_lt_upper_bound; lia].
Qed.

Lemma be_put_get l : Forall is_u8 l → be_put (length l) (be_get l) = l.
Proof.
  induction 1 as [|b l Hb Hl IH]; [done|]. cbn [length be_put]. rewrite be_get_cons.
  pose proof (be_get_range l Hl) as Hr. unfold zlen in *. unfold is_u8 in Hb. f_equal.
  - rewrite Z.div_add_l by lia. rewrite (Z.div_small (be_get l)) by lia. rewrite Z.add_0_r.
    apply Z.mod_small. lia.
  - rewrite <- (be_put_mod (length l)), Z.add_comm, Z_mod_plus_full, be_put_mod. done.
Qed.

#[global] Instance uint_laws n : PackedLaws (uint n).
Proof.
  split; simpl.
  - intros. apply be_put_length.
  - intros. apply be_put_bytes.
  - apply be_get_put.
  - intros l <- Hl. by apply be_put_get.
  - intros l <- Hl. by apply be_get_range.
Qed.

#[global] Instance byte_array_laws n : PackedLaws (byte_array n).
Proof. split; simpl; tauto. Qed.

#[global] Instance packed_pair_laws {A B} (c : packed A) (d : packed B) :
  PackedLaws c → PackedLaws d → PackedLaws (c × d).
Proof.
  intros Hc Hd. split; simpl.
  - intros [a b] [Ha Hb]. by rewrite length_app, !packed_length.
  - intros [a b] [Ha Hb]. apply Forall_app. by split; apply packed_bytes.
  - intros [a b] [Ha Hb]. simpl in *.
    rewrite take_app_length', drop_app_length' by (by rewrite packed_length). by rewrite !packed_from_as.
  - intros l Hl Hb. rewrite !packed_as_from; [apply take_drop|..];
      rewrite ?length_take, ?length_drop; try lia; by apply Forall_take || by apply Forall_drop.
  - intros l Hl Hb. split; apply packed_range;
      rewrite ?length_take, ?length_drop; try lia; by apply Forall_take || by apply Forall_drop.
Qed.

Lemma packed_struct_laws {A B} (c : packed A) (mk : A → B) (fields : B → A) :
  PackedLaws c → (∀ b, mk (fields b) = b) → (∀ a, fields (mk a) = a) →
  PackedLaws (packed_struct c mk fields).
Proof.
  intros Hc Hmf Hfm. split; simpl; intros.
  - by apply packed_length.
  - by apply packed_bytes.
  - by rewrite packed_from_as.
  - rewrite Hfm. by apply packed_as_from.
  - rewrite Hfm. by apply packed_range.
Qed.

Ltac packed_struct := apply packed_struct_laws; [apply _|by intros []|intros; by repeat match goal with
  a : _ * _ |- _ => destruct a | a : unit |- _ => destruct a end].

(** ** Packet types and status codes

    The open enums are their [u8] discriminant: any byte is a value. *)

Definition ZdpPacketType : Type := Z.
Definition ResponseCode : Type := Z.
Definition AuthenticationStatus : Type := Z.
Definition TerminateReason : Type := Z.

Inductive ZdpPacketTypeName : Type :=
| TransitPacket
| DestinationUnreachable
| SetPathMtu
| StreamIdRequest
| StreamIdResponse
| StreamIdWithdrawal
| BindActorAddressRequest
| BindActorAddressResponse
| BindEgressStreamRequest
| BindEgressStreamResponse
| UnbindEgressStreamIndication
| ZprArp
| KeyManagement
| Discard
| Echo
| Report
| TerminateLinkOrDockingSession
| HelloRequest
| HelloResponse
| ConfigurationRequest
| ConfigurationResponse
| AcquireZprAddress
| GrantZprAddress
| RevokeZprAddress
| InitAuthenticationRequest
| StartAuthentication
| AbandonAuthenticationAttempt
| Canceled
| Cancel
| Acknowledgement
| Reserved255.

Definition packet_type (n : ZdpPacketTypeName) : ZdpPacketType :=
  match n with
  | TransitPacket => 0
  | DestinationUnreachable => 1
  | SetPathMtu => 2
  | StreamIdRequest => 3
  | StreamIdResponse => 4
  | StreamIdWithdrawal => 5
  | BindActorAddressRequest => 6
  | BindActorAddressResponse => 7
  | BindEgressStreamRequest => 8
  | BindEgressStreamResponse => 9
  | UnbindEgressStreamIndication => 13
  | ZprArp => 128
  | KeyManagement => 129
  | Discard => 130
  | Echo => 131
  | Report => 132
  | TerminateLinkOrDockingSession => 133
  | HelloRequest => 134
  | HelloResponse => 135
  | ConfigurationRequest => 136
  | ConfigurationResponse => 137
  | AcquireZprAddress => 138
  | GrantZprAddress => 139
  | RevokeZprAddress => 140
  | InitAuthenticationRequest => 141
  | StartAuthentication => 142
  | AbandonAuthenticationAttempt => 143
  | Canceled => 252
  | Cancel => 253
  | Acknowledgement => 254
  | Reserved255 => 255
  end.

Inductive ResponseCodeName : Type :=
| ResponseSuccess | ResponseOther | UnsupportedProtocol | TemporarilyUnavailable.

Definition response_code (n : ResponseCodeName) : ResponseCode :=
  match n with
  | ResponseSuccess => 0
  | ResponseOther => 1
  | UnsupportedProtocol => 2
  | TemporarilyUnavailable => 3
  end.

Inductive AuthenticationStatusName : Type :=
| AuthSuccess | AuthRejected | AuthRetryable.

Definition authentication_status (n : AuthenticationStatusName) : AuthenticationStatus :=
  match n with
  | AuthSuccess => 0
  | AuthRejected => 1
  | AuthRetryable => 2
  end.

Inductive TerminateReasonName : Type :=
| TerminateOther | Unused1 | RequestTimedOut | TerminateReset | Shutdown.

Definition terminate_reason (n : TerminateReasonName) : TerminateReason :=
  match n with
  | TerminateOther => 0
  | Unused1 => 1
  | RequestTimedOut => 2
  | TerminateReset => 3
  | Shutdown => 4
  end.

Definition ZDP_PACKET_TYPE_NON_FLOW_FLAG : Z := 0x80.

Definition is_per_flow (t : ZdpPacketType) : bool :=
  Z.land t ZDP_PACKET_TYPE_NON_FLOW_FLAG =? 0.

Definition is_mgmt (t : ZdpPacketType) : bool :=
  negb ((t =? packet_type TransitPacket) || (t =? packet_type ZprArp) || (t =? packet_type KeyManagement)).

Definition BOOTSTRAP_SUPPORT : Z := 0x01.
Definition DESTINATION_PORT_PRESENT : Z := 0x01.
Definition SOURCE_PORT_PRESENT : Z := 0x02.
Definition IPV4 : Z := 0x04.

(** ** Header structs *)

Record ZdpZpiHeader : Type := mk_ZdpZpiHeader { zpi : Z }.

Definition zdpZpiHeader : packed ZdpZpiHeader :=
  packed_struct (u8) (λ x0, mk_ZdpZpiHeader x0) (λ h, (zpi h)).

#[global] Instance zdpZpiHeader_laws : PackedLaws zdpZpiHeader.
Proof. packed_struct. Qed.

Record ZdpBaseHeader : Type := mk_ZdpBaseHeader { base_packet_type : ZdpPacketType; excess_length : Z }.

Definition zdpBaseHeader : packed ZdpBaseHeader :=
  packed_struct (u8 × u8) (λ '(x0, x1), mk_ZdpBaseHeader x0 x1) (λ h, (base_packet_type h, excess_length h)).

#[global] Instance zdpBaseHeader_laws : PackedLaws zdpBaseHeader.
Proof. packed_struct. Qed.

Record ZdpMgmtHeader : Type := mk_ZdpMgmtHeader { sequence_number : Z }.

Definition zdpMgmtHeader : packed ZdpMgmtHeader :=
  packed_struct (U64) (λ x0, mk_ZdpMgmtHeader x0) (λ h, (sequence_number h)).

#[global] Instance zdpMgmtHeader_laws : PackedLaws zdpMgmtHeader.
Proof. packed_struct. Qed.

Record ZdpPerFlowHeader : Type := mk_ZdpPerFlowHeader { stream_id : Z }.

Definition zdpPerFlowHeader : packed ZdpPerFlowHeader :=
  packed_struct (U32) (λ x0, mk_ZdpPerFlowHeader x0) (λ h, (stream_id h)).

#[global] Instance zdpPerFlowHeader_laws : PackedLaws zdpPerFlowHeader.
Proof. packed_struct. Qed.

Record ZdpTransactionHeader : Type := mk_ZdpTransactionHeader { transaction_id : Z }.

Definition zdpTransactionHeader : packed ZdpTransactionHeader :=
  packed_struct (U16) (λ x0, mk_ZdpTransactionHeader x0) (λ h, (transaction_id h)).

#[global] Instance zdpTransactionHeader_laws : PackedLaws zdpTransactionHeader.
Proof. packed_struct. Qed.

Record ZdpEchoHeader : Type := mk_ZdpEchoHeader { additional_length : Z }.

Definition zdpEchoHeader : packed ZdpEchoHeader :=
  packed_struct (U16) (λ x0, mk_ZdpEchoHeader x0) (λ h, (additional_length h)).

#[global] Instance zdpEchoHeader_laws : PackedLaws zdpEchoHeader.
Proof. packed_struct. Qed.

Record ZdpReportHeader : Type := mk_ZdpReportHeader { report_data_length : Z }.

Definition zdpReportHeader : packed ZdpReportHeader :=
  packed_struct (U16) (λ x0, mk_ZdpReportHeader x0) (λ h, (report_data_length h)).

#[global] Instance zdpReportHeader_laws : PackedLaws zdpReportHeader.
Proof. packed_struct. Qed.

Record ZdpHelloResponseHeader : Type := mk_ZdpHelloResponseHeader { hello_status : ResponseCode }.

Definition zdpHelloResponseHeader : packed ZdpHelloResponseHeader :=
  packed_struct (u8) (λ x0, mk_ZdpHelloResponseHeader x0) (λ h, (hello_status h)).

#[global] Instance zdpHelloResponseHeader_laws : PackedLaws zdpHelloResponseHeader.
Proof. packed_struct. Qed.

Record ZdpInitAuthenticationRequestHeader : Type := mk_ZdpInitAuthenticationRequestHeader { auth_status : AuthenticationStatus; auth_flags : Z; auth_data_len : Z }.

Definition zdpInitAuthenticationRequestHeader : packed ZdpInitAuthenticationRequestHeader :=
  packed_struct (u8 × u8 × U16) (λ '(x0, x1, x2), mk_ZdpInitAuthenticationRequestHeader x0 x1 x2) (λ h, (auth_status h, auth_flags h, auth_data_len h)).

#[global] Instance zdpInitAuthenticationRequestHeader_laws : PackedLaws zdpInitAuthenticationRequestHeader.
Proof. packed_struct. Qed.

Record ZdpTerminateLinkOrDockingSessionHeader : Type := mk_ZdpTerminateLinkOrDockingSessionHeader { reason_code : TerminateReason; term_data_len : Z }.

Definition zdpTerminateLinkOrDockingSessionHeader : packed ZdpTerminateLinkOrDockingSessionHeader :=
  packed_struct (u8 × u8) (λ '(x0, x1), mk_ZdpTerminateLinkOrDockingSessionHeader x0 x1) (λ h, (reason_code h, term_data_len h)).

#[global] Instance zdpTerminateLinkOrDockingSessionHeader_laws : PackedLaws zdpTerminateLinkOrDockingSessionHeader.
Proof. packed_struct. Qed.

Record ZdpStreamIdRequest : Type := mk_ZdpStreamIdRequest { req_visa_id : Z }.

Definition zdpStreamIdRequest : packed ZdpStreamIdRequest :=
  packed_struct (U64) (λ x0, mk_ZdpStreamIdRequest x0) (λ h, (req_visa_id h)).

#[global] Instance zdpStreamIdRequest_laws : PackedLaws zdpStreamIdRequest.
Proof. packed_struct. Qed.

Record ZdpStreamIdResponseHeader : Type := mk_ZdpStreamIdResponseHeader { stream_status_code : ResponseCode; stream_info_len : Z }.

Definition zdpStreamIdResponseHeader : packed ZdpStreamIdResponseHeader :=
  packed_struct (u8 × u8) (λ '(x0, x1), mk_ZdpStreamIdResponseHeader x0 x1) (λ h, (stream_status_code h, stream_info_len h)).

#[global] Instance zdpStreamIdResponseHeader_laws : PackedLaws zdpStreamIdResponseHeader.
Proof. packed_struct. Qed.

Record ZdpBindActorAddressResponseHeader : Type := mk_ZdpBindActorAddressResponseHeader { bind_status_code : ResponseCode; bind_info_len : Z }.

Definition zdpBindActorAddressResponseHeader : packed ZdpBindActorAddressResponseHeader :=
  packed_struct (u8 × u8) (λ '(x0, x1), mk_ZdpBindActorAddressResponseHeader x0 x1) (λ h, (bind_status_code h, bind_info_len h)).

#[global] Instance zdpBindActorAddressResponseHeader_laws : PackedLaws zdpBindActorAddressResponseHeader.
Proof. packed_struct. Qed.

Record ZdpBindEgressStreamResponseHeader : Type := mk_ZdpBindEgressStreamResponseHeader { egress_status_code : ResponseCode; egress_info_len : Z }.

Definition zdpBindEgressStreamResponseHeader : packed ZdpBindEgressStreamResponseHeader :=
  packed_struct (u8 × u8) (λ '(x0, x1), mk_ZdpBindEgressStreamResponseHeader x0 x1) (λ h, (egress_status_code h, egress_info_len h)).

#[global] Instance zdpBindEgressStreamResponseHeader_laws : PackedLaws zdpBindEgressStreamResponseHeader.
Proof. packed_struct. Qed.

Record ZdpKeyManagementHeader : Type := mk_ZdpKeyManagementHeader { message_type : Z; message_length : Z }.

Definition zdpKeyManagementHeader : packed ZdpKeyManagementHeader :=
  packed_struct (U16 × U16) (λ '(x0, x1), mk_ZdpKeyManagementHeader x0 x1) (λ h, (message_type h, message_length h)).

#[global] Instance zdpKeyManagementHeader_laws : PackedLaws zdpKeyManagementHeader.
Proof. packed_struct. Qed.

Record ZdpTrafficClassifierHeader : Type := mk_ZdpTrafficClassifierHeader { tc_flags : Z; ip_protocol : Z }.

Definition zdpTrafficClassifierHeader : packed ZdpTrafficClassifierHeader :=
  packed_struct (u8 × u8) (λ '(x0, x1), mk_ZdpTrafficClassifierHeader x0 x1) (λ h, (tc_flags h, ip_protocol h)).

#[global] Instance zdpTrafficClassifierHeader_laws : PackedLaws zdpTrafficClassifierHeader.
Proof. packed_struct. Qed.

(** *** Headers with fields of types of the [zpr] crate *)
Section zpr_fields.
Context {L3Type Tcst A2aSaid : Type}
  (l3Type : packed L3Type) (tcst_ : packed Tcst) (a2aSaid : packed A2aSaid).
Context `{!PackedLaws l3Type, !PackedLaws tcst_, !PackedLaws a2aSaid}.

Record ZdpAcquireZprAddressHeader : Type := mk_ZdpAcquireZprAddressHeader { blob_len : Z; acq_ip_version : L3Type; acq_addr_count : Z }.

Definition zdpAcquireZprAddressHeader : packed ZdpAcquireZprAddressHeader :=
  packed_struct (U16 × l3Type × u8) (λ '(x0, x1, x2), mk_ZdpAcquireZprAddressHeader x0 x1 x2) (λ h, (blob_len h, acq_ip_version h, acq_addr_count h)).

#[global] Instance zdpAcquireZprAddressHeader_laws : PackedLaws zdpAcquireZprAddressHeader.
Proof using Type*. packed_struct. Qed.

Record ZdpGrantZprAddressHeader : Type := mk_ZdpGrantZprAddressHeader { grant_status_code : AuthenticationStatus; grant_ip_version : L3Type; grant_addr_count : Z }.

Definition zdpGrantZprAddressHeader : packed ZdpGrantZprAddressHeader :=
  packed_struct (u8 × l3Type × u8) (λ '(x0, x1, x2), mk_ZdpGrantZprAddressHeader x0 x1 x2) (λ h, (grant_status_code h, grant_ip_version h, grant_addr_count h)).

#[global] Instance zdpGrantZprAddressHeader_laws : PackedLaws zdpGrantZprAddressHeader.
Proof using Type*. packed_struct. Qed.

Record ZdpBindActorAddressRequestHeader : Type := mk_ZdpBindActorAddressRequestHeader { l3_type : L3Type; endpoint_packet_length : Z }.

Definition zdpBindActorAddressRequestHeader : packed ZdpBindActorAddressRequestHeader :=
  packed_struct (l3Type × U16) (λ '(x0, x1), mk_ZdpBindActorAddressRequestHeader x0 x1) (λ h, (l3_type h, endpoint_packet_length h)).

#[global] Instance zdpBindActorAddressRequestHeader_laws : PackedLaws zdpBindActorAddressRequestHeader.
Proof using Type*. packed_struct. Qed.

Record ZdpBindEgressStreamRequestHeader : Type := mk_ZdpBindEgressStreamRequestHeader { egress_tcst : Tcst }.

Definition zdpBindEgressStreamRequestHeader : packed ZdpBindEgressStreamRequestHeader :=
  packed_struct (tcst_) (λ x0, mk_ZdpBindEgressStreamRequestHeader x0) (λ h, (egress_tcst h)).

#[global] Instance zdpBindEgressStreamRequestHeader_laws : PackedLaws zdpBindEgressStreamRequestHeader.
Proof using Type*. packed_struct. Qed.

Record ZdpA2aHeader : Type := mk_ZdpA2aHeader { a2a_said : A2aSaid }.

Definition zdpA2aHeader : packed ZdpA2aHeader :=
  packed_struct (a2aSaid) (λ x0, mk_ZdpA2aHeader x0) (λ h, (a2a_said h)).

#[global] Instance zdpA2aHeader_laws : PackedLaws zdpA2aHeader.
Proof using Type*. packed_struct. Qed.

End zpr_fields.

(** Offsets computed from the sizes of the structs. *)
Definition ZDP_BASE_HEADER_OFFSET : nat := size_of zdpZpiHeader.
Definition ZDP_NON_PER_FLOW_MGMT_HEADER_OFFSET : nat := ZDP_BASE_HEADER_OFFSET + size_of zdpBaseHeader.
Definition ZDP_A2A_MAC_SIZE : nat := 8.
Definition ZDP_PACKET_MAC_SIZE : nat := 8.

(** The three compile-time size assertions at the end of the file. *)
Lemma header_sizes :
  size_of zdpBaseHeader = 2%nat ∧ size_of zdpMgmtHeader = 8%nat ∧ size_of zdpPerFlowHeader = 4%nat.
Proof. done. Qed.

(** ** Key-management message kinds

    The [KM_ID_*] constants belong to the [zpr] crate. *)
Section km_header.
Context (KM_ID_NOISE KM_ID_IKEV2 KM_ID_EXPERIMENTAL KM_ID_NULL : Z).

Definition is_noise (h : ZdpKeyManagementHeader) : bool := message_type h =? KM_ID_NOISE.
Definition is_ikev2 (h : ZdpKeyManagementHeader) : bool := message_type h =? KM_ID_IKEV2.
Definition is_experiment (h : ZdpKeyManagementHeader) : bool := message_type h =? KM_ID_EXPERIMENTAL.
Definition is_null (h : ZdpKeyManagementHeader) : bool := message_type h =? KM_ID_NULL.
End km_header.

(** ** Reading *)

Lemma read_as_bytes {A} (c : packed A) `{!PackedLaws c} a rest :
  in_range c a → read_from_prefix c (as_bytes c a ++ rest) = Some (a, rest).
Proof.
  intros Ha. unfold read_from_prefix. rewrite length_app, packed_length by done.
  destruct (Nat.ltb_spec (size_of c + length rest) (size_of c)); [lia|].
  rewrite take_app_length', drop_app_length' by (by rewrite packed_length).
  by rewrite packed_from_as.
Qed.

Lemma read_Some {A} (c : packed A) `{!PackedLaws c} l a rest :
  Forall is_u8 l → read_from_prefix c l = Some (a, rest) →
  l = as_bytes c a ++ rest ∧ in_range c a ∧ Forall is_u8 rest.
Proof.
  intros Hl. unfold read_from_prefix. destruct (Nat.ltb_spec (length l) (size_of c)); [done|].
  intros [= <- <-]. rewrite packed_as_from, take_drop by (rewrite ?length_take; auto using Forall_take; lia).
  split; [done|]. split; [|by apply Forall_drop].
  apply packed_range; [rewrite length_take; lia|by apply Forall_take].
Qed.

Lemma read_None {A} (c : packed A) l : read_from_prefix c l = None ↔ (length l < size_of c)%nat.
Proof. unfold read_from_prefix. destruct (Nat.ltb_spec (length l) (size_of c)); split; (done || lia). Qed.

(** What reading and writing a packed struct promise each other. *)
Definition roundtrips {A} (c : packed A) : Prop :=
  (∀ a rest, in_range c a → read_from_prefix c (as_bytes c a ++ rest) = Some (a, rest)) ∧
  (∀ l, Forall is_u8 l →
     match read_from_prefix c l with
     | Some (a, rest) => in_range c a ∧ l = as_bytes c a ++ rest
     | None => (length l < size_of c)%nat
     end).

Lemma packed_roundtrips {A} (c : packed A) `{!PackedLaws c} : roundtrips c.
Proof.
  split; [intros a rest; apply (read_as_bytes c)|]. intros l Hl.
  destruct (read_from_prefix c l) as [[a rest]|] eqn:E; [|by apply read_None].
  by apply (read_Some c) in E as (? & ? & _).
Qed.

(** every ZDP header struct can be written and read back: reading the
    bytes of a header whose fields are in range returns that header and leaves
    the rest of the packet, and whatever is read is exactly what writing the
    header gives; reading fails only on too few bytes. *)
Theorem zdp_headers_roundtrip :
  roundtrips zdpZpiHeader ∧ roundtrips zdpBaseHeader ∧ roundtrips zdpMgmtHeader ∧
  roundtrips zdpPerFlowHeader ∧ roundtrips zdpTransactionHeader ∧ roundtrips zdpEchoHeader ∧
  roundtrips zdpReportHeader ∧ roundtrips zdpHelloResponseHeader ∧
  roundtrips zdpInitAuthenticationRequestHeader ∧
  roundtrips zdpTerminateLinkOrDockingSessionHeader ∧ roundtrips zdpStreamIdRequest ∧
  roundtrips zdpStreamIdResponseHeader ∧ roundtrips zdpBindActorAddressResponseHeader ∧
  roundtrips zdpBindEgressStreamResponseHeader ∧ roundtrips zdpKeyManagementHeader ∧
  roundtrips zdpTrafficClassifierHeader.
Proof. split_and!; apply packed_roundtrips, _. Qed.
