(* ===== verification/ZdprReceiver.v ===== *)
(** Reliable ZDP, receiving side: [Disposition], [ReceiverStat] and [Receiver]
    of [src/adapter/ph/src/zdpr.rs].

    The sliding window is a 64-bit set anchored at the highest accepted
    sequence number, which itself wraps at 2^64.  The second half of the file
    states what the receiver promises in terms of unbounded sequence numbers
    and sets ([Spec], [spec_step]) and proves that the bit-level code is a
    refinement of it, for every window of 1 to 63 packets. *)
From S2P Require Import Prelude.

(** ** The code *)

Inductive Disposition : Type :=
| AckAndProcess
| AckDoNotProcess
| AckCancelDoNotProcess
| Ignore.

Definition should_ack (d : Disposition) : bool :=
  match d with
  | AckAndProcess | AckDoNotProcess | AckCancelDoNotProcess => true
  | Ignore => false
  end.

Definition ack_is_canceled (d : Disposition) : bool :=
  match d with AckCancelDoNotProcess => true | _ => false end.

Definition should_process (d : Disposition) : bool :=
  match d with AckAndProcess => true | _ => false end.

Inductive ReceiverStat : Type := TooOld | Duplicate | TooNew | OutOfOrder.

#[global] Instance ReceiverStat_eq_dec : EqDecision ReceiverStat.
Proof. solve_decision. Defined.

Definition recv_is_protocol_error (st : ReceiverStat) : bool :=
  match st with TooNew => true | _ => false end.

(** [EnumMap<ReceiverStat, u64>] *)
Definition ReceiverStats : Type := ReceiverStat → Z.

Definition recv_stat_incr (m : ReceiverStats) (st : ReceiverStat) : ReceiverStats :=
  λ st', if decide (st' = st) then wrap64 (m st' + 1) else m st'.

(** [type WindowBitset = u64] *)
Definition BITS : Z := 64.
Definition BITSET_MAX : Z := U64_MOD - 1.

(** [<<] and [>>] on [u64]: with overflow checks off the amount is taken
    modulo the width. *)
Definition shl64 (x n : Z) : Z := wrap64 (Z.shiftl x (n mod 64)).
Definition shr64 (x n : Z) : Z := Z.shiftr x (n mod 64).

(** [u64::leading_ones]. *)
Fixpoint leading_ones_below (n : nat) (x : Z) : Z :=
  match n with
  | O => 0
  | S n' => if Z.testbit x (Z.of_nat n') then 1 + leading_ones_below n' x else 0
  end.
Definition leading_ones (x : Z) : Z := leading_ones_below 64 x.

Record Receiver : Type := mk_receiver {
  r_window_size : Z;
  highest_seen : Z;
  recvd : Z;
  canceled : Z;
  r_stats : ReceiverStats;
}.

Definition RECEIVER_MAX_WINDOW_SIZE : Z := BITS.

(** [Receiver::new]; both assertions panic. *)
Definition receiver_new (window_size : Z) : outcome Receiver :=
  assertb (1 <=? window_size) (
  assertb (window_size <=? RECEIVER_MAX_WINDOW_SIZE) (
  Ret {| r_window_size := window_size;
         highest_seen := U64_MOD - 1;
         recvd := BITSET_MAX;
         canceled := BITSET_MAX;
         r_stats := λ _, 0 |})).

Definition oldest_unrecvd_offset (r : Receiver) : Z :=
  - BITS + leading_ones (recvd r) + 1.

Definition recv_count (r : Receiver) (st : ReceiverStat) : Receiver :=
  {| r_window_size := r_window_size r; highest_seen := highest_seen r;
     recvd := recvd r; canceled := canceled r;
     r_stats := recv_stat_incr (r_stats r) st |}.

Definition process_packet_or_cancel (r : Receiver) (sn : Z) (is_cancel : bool)
    : Receiver * Disposition :=
  let offset := as_i64 (wrap64 (sn - highest_seen r)) in
  if offset <=? - r_window_size r then (recv_count r TooOld, Ignore)
  else if oldest_unrecvd_offset r + r_window_size r <=? offset then (recv_count r TooNew, Ignore)
  else if 0 <? offset then
    let r' := {| r_window_size := r_window_size r;
                 highest_seen := wrap64 (highest_seen r + offset);
                 recvd := Z.lor (shl64 (recvd r) offset) 1;
                 canceled := if is_cancel then Z.lor (shl64 (canceled r) offset) 1
                             else shl64 (canceled r) offset;
                 r_stats := r_stats r |} in
    (r', if is_cancel then AckCancelDoNotProcess else AckAndProcess)
  else if Z.land (shr64 (recvd r) (- offset)) 1 =? 0 then
    let r' := {| r_window_size := r_window_size r;
                 highest_seen := highest_seen r;
                 recvd := Z.lor (recvd r) (shl64 1 (- offset));
                 canceled := if is_cancel then Z.lor (canceled r) (shl64 1 (- offset))
                             else canceled r;
                 r_stats := recv_stat_incr (r_stats r) OutOfOrder |} in
    (r', if is_cancel then AckCancelDoNotProcess else AckAndProcess)
  else
    let r' := recv_count r Duplicate in
    (r', if Z.land (shr64 (canceled r) (- offset)) 1 =? 0 then AckDoNotProcess
         else AckCancelDoNotProcess).

Definition process_packet (r : Receiver) (sn : Z) : Receiver * Disposition :=
  process_packet_or_cancel r sn false.

Definition process_cancel (r : Receiver) (sn : Z) : Receiver * Disposition :=
  process_packet_or_cancel r sn true.

Definition should_process_packet (r : Receiver) (sn : Z) : bool :=
  let offset := as_i64 (wrap64 (sn - highest_seen r)) in
  if offset <=? - r_window_size r then false
  else if oldest_unrecvd_offset r + r_window_size r <=? offset then false
  else if 0 <? offset then true
  else if Z.land (shr64 (recvd r) (- offset)) 1 =? 0 then true
  else false.

(** [fetch_reset_stat]: take the counter and leave the default. *)
Definition recv_fetch_reset_stat (r : Receiver) (st : ReceiverStat) : Receiver * Z :=
  ({| r_window_size := r_window_size r; highest_seen := highest_seen r;
      recvd := recvd r; canceled := canceled r;
      r_stats := λ st', if decide (st' = st) then 0 else r_stats r st' |},
   r_stats r st).

Definition window_size (r : Receiver) : Z := r_window_size r.

(** ** What the receiver promises

    Sequence numbers are unbounded here; everything below 0 predates the
    session and counts as already accepted (and canceled). *)

Record Spec : Type := mk_spec {
  high : Z;            (* highest sequence number accepted so far, -1 initially *)
  acc : gset Z;        (* sequence numbers accepted in this session *)
  can : gset Z;        (* those accepted as cancellations *)
}.

Definition spec_init : Spec := {| high := -1; acc := ∅; can := ∅ |}.

Definition accepted (s : Spec) (k : Z) : Prop := k < 0 ∨ k ∈ acc s.
Definition was_canceled (s : Spec) (k : Z) : Prop := k < 0 ∨ k ∈ can s.

#[global] Instance accepted_dec s k : Decision (accepted s k).
Proof. apply _. Defined.
#[global] Instance was_canceled_dec s k : Decision (was_canceled s k).
Proof. apply _. Defined.

Definition spec_accept (s : Spec) (k : Z) (is_cancel : bool) : Spec :=
  {| high := Z.max (high s) k;
     acc := {[k]} ∪ acc s;
     can := if is_cancel then {[k]} ∪ can s else can s |}.

(** One received packet ([is_cancel = false]) or cancellation request. *)
Inductive spec_step (w : Z) (s : Spec) (k : Z) (is_cancel : bool) : Spec → Disposition → Prop :=
| spec_too_old :
    k <= high s - w → accepted s k →
    spec_step w s k is_cancel s Ignore
| spec_too_new j :
    ¬ accepted s j → j + w <= k →
    spec_step w s k is_cancel s Ignore
| spec_new :
    high s - w < k → (∀ j, ¬ accepted s j → k < j + w) → ¬ accepted s k →
    spec_step w s k is_cancel (spec_accept s k is_cancel)
      (if is_cancel then AckCancelDoNotProcess else AckAndProcess)
| spec_duplicate :
    high s - w < k → accepted s k →
    spec_step w s k is_cancel s
      (if decide (was_canceled s k) then AckCancelDoNotProcess else AckDoNotProcess).

(** Well-formed specification states for a window of [w]. *)
Record spec_wf (w : Z) (s : Spec) : Prop := {
  wf_high : -1 <= high s;
  wf_acc_le k : accepted s k → k <= high s;
  wf_nonneg k : k ∈ acc s → 0 <= k;
  wf_can k : k ∈ can s → k ∈ acc s;
  wf_window k : k <= high s - w → accepted s k;
}.

(** The simulation relation between the bit-level state and the specification. *)
Record refines (w : Z) (r : Receiver) (s : Spec) : Prop := {
  rf_wf : spec_wf w s;
  rf_w : r_window_size r = w;
  rf_high : highest_seen r = wrap64 (high s);
  rf_recvd_range : is_u64 (recvd r);
  rf_canceled_range : is_u64 (canceled r);
  rf_recvd i : 0 <= i < 64 → Z.testbit (recvd r) i = true ↔ accepted s (high s - i);
  rf_canceled i : 0 <= i < 64 → Z.testbit (canceled r) i = true ↔ was_canceled s (high s - i);
}.

(** ** Bit lemmas *)

Section bits.
Lemma wrap64_testbit x i : 0 <= i < 64 → Z.testbit (wrap64 x) i = Z.testbit x i.
Proof.
    intros Hi. unfold wrap64. change U64_MOD with (2 ^ 64).
    by rewrite Z.mod_pow2_bits_low by lia.
Qed.

Lemma shl64_testbit x n i :
    0 <= n < 64 → 0 <= i < 64 →
    Z.testbit (shl64 x n) i = (n <=? i) && Z.testbit x (i - n).
Proof.
    intros Hn Hi. unfold shl64. rewrite wrap64_testbit by done.
    rewrite Z.mod_small by lia. rewrite Z.shiftl_spec by lia.
    destruct (Z.leb_spec n i); [done|]. by rewrite Z.testbit_neg_r by lia.
Qed.

Lemma shl64_one_testbit n i :
    0 <= n < 64 → 0 <= i < 64 → Z.testbit (shl64 1 n) i = (i =? n).
Proof.
    intros Hn Hi. rewrite shl64_testbit by done.
    destruct (Z.leb_spec n i), (Z.eqb_spec i n); simpl; try done; try lia; subst.
    - by rewrite Z.sub_diag.
    - apply Z.bits_above_log2; simpl; lia.
Qed.

Lemma one_testbit i : 0 <= i → Z.testbit 1 i = (i =? 0).
Proof.
    intros Hi. destruct (Z.eqb_spec i 0) as [->|]; [done|].
    apply Z.bits_above_log2; simpl; lia.
Qed.

Lemma shr64_bit_clear x n :
    0 <= n < 64 → (Z.land (shr64 x n) 1 =? 0) = negb (Z.testbit x n).
Proof.
    intros Hn. unfold shr64. rewrite Z.mod_small by lia.
    change 1 with (Z.ones 1) at 1. rewrite Z.land_ones by lia.
    replace (Z.testbit x n) with (Z.testbit (Z.shiftr x n) 0)
      by (rewrite Z.shiftr_spec by lia; f_equal; lia).
    rewrite Z.bit0_odd, Zodd_mod. change (2 ^ 1) with 2.
    pose proof (Z.mod_pos_bound (Z.shiftr x n) 2 ltac:(lia)).
    destruct (Z.eqb_spec (Z.shiftr x n mod 2) 0) as [->|]; [done|].
    by replace (Z.shiftr x n mod 2) with 1 by lia.
Qed.

Lemma lor_u64 x y : is_u64 x → is_u64 y → is_u64 (Z.lor x y).
Proof.
    intros Hx Hy. unfold is_u64 in *. rewrite Z.lor_nonneg. split; [lia|].
    destruct (Z.eq_dec (Z.lor x y) 0) as [->|Hne]; [lia|].
    change U64_MOD with (2 ^ 64). apply Z.log2_lt_pow2.
    - assert (0 <= Z.lor x y) by (apply Z.lor_nonneg; lia). lia.
    - rewrite Z.log2_lor by lia. apply Z.max_lub_lt.
      + destruct (Z.eq_dec x 0) as [->|]; [done|]. apply Z.log2_lt_pow2; lia.
      + destruct (Z.eq_dec y 0) as [->|]; [done|]. apply Z.log2_lt_pow2; lia.
Qed.

Lemma shl64_u64 x n : is_u64 (shl64 x n).
Proof. apply wrap64_range. Qed.

Lemma leading_ones_below_spec n x :
    let c := leading_ones_below n x in
    0 <= c <= Z.of_nat n ∧
    (∀ i, Z.of_nat n - c <= i < Z.of_nat n → Z.testbit x i = true) ∧
    (c < Z.of_nat n → Z.testbit x (Z.of_nat n - c - 1) = false).
Proof.
    induction n as [|n IH]; simpl leading_ones_below; cbv zeta in *.
    - split_and!; intros; lia.
    - destruct IH as (Hc & Hones & Hzero).
      destruct (Z.testbit x (Z.of_nat n)) eqn:E.
      + split; [lia|split].
        * intros i Hi. destruct (Z.eq_dec i (Z.of_nat n)) as [->|]; [done|]. apply Hones. lia.
        * intros Hlt. replace (Z.of_nat (S n) - (1 + leading_ones_below n x) - 1)
            with (Z.of_nat n - leading_ones_below n x - 1) by lia. apply Hzero. lia.
      + split; [lia|split; [intros; lia|]]. intros _.
        by replace (Z.of_nat (S n) - 0 - 1) with (Z.of_nat n) by lia.
Qed.
End bits.
#[export] Hint Resolve lor_u64 shl64_u64 : zpr.

(** ** Refinement *)

Section refinement.
Context (w : Z) (Hw : 1 <= w <= 63).
Implicit Types (r : Receiver) (s : Spec) (k : Z).

Lemma receiver_new_refines :
    ∃ r, receiver_new w = Ret r ∧ refines w r spec_init.
Proof.
    unfold receiver_new, assertb, RECEIVER_MAX_WINDOW_SIZE, BITS.
    destruct (Z.leb_spec 1 w), (Z.leb_spec w 64); try lia.
    eexists; split; [done|]. split; simpl; try done.
    - split; simpl; unfold accepted; simpl; intros; try set_solver by lia; lia.
    - intros i Hi. unfold BITSET_MAX. change (U64_MOD - 1) with (Z.ones 64).
      rewrite Z.ones_spec_low by lia. unfold accepted. simpl. split; [lia|done].
    - intros i Hi. unfold BITSET_MAX. change (U64_MOD - 1) with (Z.ones 64).
      rewrite Z.ones_spec_low by lia. unfold was_canceled. simpl. split; [lia|done].
Qed.

(** [oldest_unrecvd_offset] finds the oldest sequence number never accepted. *)
Lemma oldest_unrecvd_spec r s :
    refines w r s →
    -63 <= oldest_unrecvd_offset r <= 1 ∧
    ¬ accepted s (high s + oldest_unrecvd_offset r) ∧
    (∀ j, j < high s + oldest_unrecvd_offset r → accepted s j).
Proof.
    intros Hr. unfold oldest_unrecvd_offset, leading_ones, BITS.
    destruct (leading_ones_below_spec 64 (recvd r)) as (Hc & Hones & Hzero).
    set (c := leading_ones_below 64 (recvd r)) in *. change (Z.of_nat 64) with 64 in *.
    split_and!; try lia.
    - destruct (decide (c = 64)) as [->|Hne].
      + intros Ha%(wf_acc_le w s (rf_wf _ _ _ Hr)). lia.
      + specialize (Hzero ltac:(lia)).
        assert (high s + (- (64) + c + 1) = high s - (64 - c - 1)) as -> by lia.
        intros Ha%(rf_recvd _ _ _ Hr); [congruence|lia].
    - intros j Hj. destruct (Z.le_gt_cases j (high s - w)).
      + by apply (wf_window w s (rf_wf _ _ _ Hr)).
      + destruct (Z.le_gt_cases j (high s)).
        * replace j with (high s - (high s - j)) by lia.
          apply (rf_recvd _ _ _ Hr); [lia|]. apply Hones. lia.
        * assert (c = 64) as Hc64 by lia. lia.
Qed.

Lemma spec_accept_wf s k c :
    spec_wf w s → 0 <= k → (∀ j, ¬ accepted s j → k < j + w) → spec_wf w (spec_accept s k c).
Proof.
    intros Hs Hk Hnew. destruct Hs. split; simpl.
    - lia.
    - intros k' [?|?]; [lia|]. simpl in *. assert (k' = k ∨ k' ∈ acc s) as [->|Hin] by set_solver; [lia|].
      specialize (wf_acc_le0 k' (or_intror Hin)). lia.
    - intros k'. rewrite elem_of_union, elem_of_singleton. intros [->|?]; auto.
    - intros k'. destruct c; set_solver.
    - intros k' Hle. destruct (decide (accepted s k')) as [[?|?]|Hn].
      + by left.
      + right. simpl. set_solver.
      + specialize (Hnew _ Hn). destruct (Z.le_gt_cases k' (high s - w)).
        * by destruct Hn; apply wf_window0.
        * lia.
Qed.

Lemma was_canceled_accepted s k : spec_wf w s → was_canceled s k → accepted s k.
Proof. intros Hs [?|?%(wf_can _ _ Hs)]; [by left|by right]. Qed.

Lemma refines_count r s st : refines w r s → refines w (recv_count r st) s.
Proof. intros []. by split. Qed.

(** The shift of the window keeps both bit sets aligned with the new anchor. *)
Lemma shifted_bits x (P : Z → Prop) h off (b : bool) i :
    0 < off < 64 → 0 <= i < 64 →
    (∀ i, 0 <= i < 64 → Z.testbit x i = true ↔ P (h - i)) →
    (∀ k, h < k → ¬ P k) →
    Z.testbit (if b then Z.lor (shl64 x off) 1 else shl64 x off) i = true ↔
      P (h + off - i) ∨ (b = true ∧ i = 0).
Proof.
    intros Hoff Hi HP Hbig.
    assert (Z.testbit (shl64 x off) i = true ↔ P (h + off - i)) as Hshl.
    { rewrite shl64_testbit by lia. destruct (Z.leb_spec off i); simpl.
      - rewrite HP by lia. by replace (h - (i - off)) with (h + off - i) by lia.
      - split; [done|]. intros HPk. exfalso. apply (Hbig (h + off - i)); [lia|done]. }
    destruct b; [|rewrite Hshl; naive_solver].
    rewrite Z.lor_spec, one_testbit, orb_true_iff, Hshl, Z.eqb_eq by lia. naive_solver.
Qed.

Lemma accept_above r s off (c : bool) :
    refines w r s → 0 < off < 64 →
    (∀ j, ¬ accepted s j → high s + off < j + w) →
    refines w {| r_window_size := r_window_size r;
                 highest_seen := wrap64 (highest_seen r + off);
                 recvd := Z.lor (shl64 (recvd r) off) 1;
                 canceled := if c then Z.lor (shl64 (canceled r) off) 1
                             else shl64 (canceled r) off;
                 r_stats := r_stats r |}
              (spec_accept s (high s + off) c).
Proof.
    intros Hr Hoff Hnew. pose proof (rf_wf _ _ _ Hr) as Hs. pose proof (wf_high _ _ Hs).
    assert (∀ k, high s < k → ¬ accepted s k) as Habove
      by (intros k ? Ha%(wf_acc_le _ _ Hs); lia).
    assert (∀ i, high s + off - i = high s + off ↔ i = 0) as Heq by lia.
    split; simpl.
    - apply spec_accept_wf; [done|lia|done].
    - apply (rf_w _ _ _ Hr).
    - rewrite (rf_high _ _ _ Hr), wrap64_idem_l, Z.max_r by lia. done.
    - apply lor_u64; [apply shl64_u64|done].
    - destruct c; [apply lor_u64; [apply shl64_u64|done]|apply shl64_u64].
    - intros i Hi. rewrite Z.max_r by lia.
      rewrite (shifted_bits (recvd r) (accepted s) (high s) off true i Hoff Hi
        (rf_recvd _ _ _ Hr) Habove).
      unfold accepted; simpl. rewrite elem_of_union, elem_of_singleton, Heq. tauto.
    - intros i Hi. rewrite Z.max_r by lia.
      rewrite (shifted_bits (canceled r) (was_canceled s) (high s) off c i Hoff Hi
        (rf_canceled _ _ _ Hr)) 
        by (intros k Hk Hc; apply (Habove k Hk); by apply was_canceled_accepted).
      unfold was_canceled; simpl. destruct c; [|naive_solver].
      rewrite elem_of_union, elem_of_singleton, Heq. tauto.
Qed.

Lemma accept_inside r s i (c : bool) (st : ReceiverStats) :
    refines w r s → 0 <= i < 64 → 0 <= high s - i → i < w →
    refines w {| r_window_size := r_window_size r;
                 highest_seen := highest_seen r;
                 recvd := Z.lor (recvd r) (shl64 1 i);
                 canceled := if c then Z.lor (canceled r) (shl64 1 i) else canceled r;
                 r_stats := st |}
              (spec_accept s (high s - i) c).
Proof.
    intros Hr Hi Hnn Hiw. pose proof (rf_wf _ _ _ Hr) as Hs. pose proof (wf_high _ _ Hs).
    assert (∀ k, high s - k = high s - i ↔ k = i) as Heq by lia.
    split; simpl.
    - apply spec_accept_wf; [done|lia|].
      intros j Hj. destruct (Z.le_gt_cases j (high s - w)) as [Hle|]; [|lia].
      by destruct Hj; apply (wf_window _ _ Hs).
    - apply (rf_w _ _ _ Hr).
    - by rewrite (rf_high _ _ _ Hr), Z.max_l by lia.
    - apply lor_u64; [apply (rf_recvd_range _ _ _ Hr)|apply shl64_u64].
    - pose proof (rf_canceled_range _ _ _ Hr). destruct c; auto with zpr.
    - intros j Hj. rewrite Z.max_l by lia.
      rewrite Z.lor_spec, orb_true_iff, shl64_one_testbit, (rf_recvd _ _ _ Hr), Z.eqb_eq by lia.
      unfold accepted; simpl. rewrite elem_of_union, elem_of_singleton, Heq. tauto.
    - intros j Hj. rewrite Z.max_l by lia. unfold was_canceled; simpl. destruct c.
      + rewrite Z.lor_spec, orb_true_iff, shl64_one_testbit, (rf_canceled _ _ _ Hr), Z.eqb_eq by lia.
        unfold was_canceled. rewrite elem_of_union, elem_of_singleton, Heq. tauto.
      + by apply (rf_canceled _ _ _ Hr).
Qed.

(** The bit-level code takes exactly the specified step. *)
Lemma process_refines r s k c :
    refines w r s → - I64_MOD <= k - high s < I64_MOD →
    ∃ s', spec_step w s k c s' (process_packet_or_cancel r (wrap64 k) c).2 ∧
          refines w (process_packet_or_cancel r (wrap64 k) c).1 s'.
Proof.
    intros Hr Hk. pose proof (rf_wf _ _ _ Hr) as Hs.
    pose proof (oldest_unrecvd_spec r s Hr) as (Ho & Hno & Hold).
    set (o := oldest_unrecvd_offset r) in *.
    assert (∀ j, ¬ accepted s j → high s + o <= j) as Hleast.
    { intros j Hj. destruct (Z.le_gt_cases (high s + o) j); [done|]. by destruct Hj; apply Hold. }
    unfold process_packet_or_cancel.
    rewrite (rf_high _ _ _ Hr), wrapping_distance, (rf_w _ _ _ Hr) by lia.
    fold o. remember (k - high s) as off eqn:Hoff.
    assert (k = high s + off) as Hke by lia. clear Hoff.
    destruct (Z.leb_spec off (- w)) as [Hle|Hle]; simpl.
    { exists s. split; [|by apply refines_count].
      apply spec_too_old; [lia|]. apply (wf_window _ _ Hs). lia. }
    destruct (Z.leb_spec (o + w) off) as [Hge|Hlt]; simpl.
    { exists s. split; [|by apply refines_count]. apply spec_too_new with (high s + o); [done|lia]. }
    assert (∀ j, ¬ accepted s j → k < j + w) as Hnew by (intros j Hj%Hleast; lia).
    destruct (Z.ltb_spec 0 off) as [Hpos|Hnpos]; simpl.
    { exists (spec_accept s k c). split.
      - apply spec_new; [lia|done|]. intros Ha%(wf_acc_le _ _ Hs). lia.
      - subst k. rewrite <- (rf_high _ _ _ Hr). rewrite <- (rf_w _ _ _ Hr) at 2.
        apply accept_above; [done|lia|done]. }
    rewrite !shr64_bit_clear by lia.
    pose proof (rf_recvd _ _ _ Hr (- off) ltac:(lia)) as Hrec.
    pose proof (rf_canceled _ _ _ Hr (- off) ltac:(lia)) as Hcan.
    replace (high s - - off) with k in Hrec, Hcan by lia.
    destruct (Z.testbit (recvd r) (- off)); simpl.
    - exists s. split; [|by apply refines_count].
      assert (accepted s k) as Ha by (by apply Hrec).
      pose proof (spec_duplicate w s k c ltac:(lia) Ha) as Hd.
      destruct (Z.testbit (canceled r) (- off)), (decide (was_canceled s k)) as [Hx|Hx]; simpl in *;
        try done; [by destruct Hx; apply Hcan|by apply Hcan in Hx].
    - assert (¬ accepted s k) as Hna by (intros Ha; by apply Hrec in Ha).
      exists (spec_accept s k c). split; [by apply spec_new; [lia| |]|].
      rewrite <- (rf_high _ _ _ Hr). rewrite <- (rf_w _ _ _ Hr) at 2.
      replace k with (high s - - off) by lia. apply accept_inside; [done|lia| |lia].
      destruct (Z.le_gt_cases 0 (high s - - off)); [done|]. destruct Hna. left. lia.
Qed.
End refinement.

(** ** Runs of a session *)

(** Feed a list of received packets and cancellation requests, identified by
    their unbounded sequence numbers, to the receiver. *)
Fixpoint recv_run (r : Receiver) (evs : list (Z * bool)) : Receiver * list (Z * Disposition) :=
  match evs with
  | [] => (r, [])
  | (k, c) :: evs =>
      let '(r', d) := process_packet_or_cancel r (wrap64 k) c in
      let '(r'', ds) := recv_run r' evs in
      (r'', (k, d) :: ds)
  end.

(** A session of less than 2^63 packets. *)
Definition in_session (ev : Z * bool) : Prop := 0 <= ev.1 < I64_MOD - 1.

(** How often sequence number [k] was handed to the upper layer. *)
Fixpoint times_processed (k : Z) (ds : list (Z * Disposition)) : nat :=
  match ds with
  | [] => O
  | (k', d) :: ds =>
      ((if (k' =? k)%Z && should_process d then 1 else 0) + times_processed k ds)%nat
  end.

Section runs.
Context (w : Z) (Hw : 1 <= w <= 63).

Lemma spec_step_accepted s k c s' d j :
    spec_step w s k c s' d → accepted s j → accepted s' j.
Proof.
    destruct 1; try done. intros [?|?]; [by left|right]. simpl. set_solver.
Qed.

Lemma spec_step_canceled s k c s' d j :
    spec_step w s k c s' d → accepted s j → was_canceled s' j → was_canceled s j.
Proof.
    destruct 1 as [| |? ? Hna|]; try done. intros Ha [?|Hin]; [by left|]. simpl in *.
    destruct c; [|by right]. assert (j = k ∨ j ∈ can s) as [->|] by set_solver; [done|by right].
Qed.

Lemma spec_step_high s k c s' d :
    spec_step w s k c s' d → high s' = high s ∨ high s' = Z.max (high s) k.
Proof. destruct 1; auto. Qed.

Lemma spec_step_process s k c s' d :
    spec_step w s k c s' d → should_process d = true → ¬ accepted s k ∧ accepted s' k ∧ c = false.
Proof.
    destruct 1; try done.
    - destruct c; [done|]. intros _. split_and!; [done| |done]. right. simpl. set_solver.
    - by destruct (decide _).
Qed.

Lemma spec_step_ack_canceled s k c s' d :
    spec_wf w s → spec_step w s k c s' d → ack_is_canceled d = true → was_canceled s' k.
Proof.
    intros Hs. destruct 1; try done.
    - destruct c; [|done]. intros _. right. simpl. set_solver.
    - by destruct (decide _).
Qed.

(** Once accepted, a sequence number is never handed up again. *)
Lemma accepted_never_processed k evs : ∀ r s,
    refines w r s → high s < I64_MOD - 1 → Forall in_session evs → accepted s k →
    times_processed k (recv_run r evs).2 = O.
Proof.
    induction evs as [|[k' c] evs IH]; intros r s Hr Hh Hev Ha; [done|].
    apply Forall_cons_iff in Hev as [Hk Hev]. unfold in_session in Hk. simpl in *.
    pose proof (wf_high _ _ (rf_wf _ _ _ Hr)).
    destruct (process_refines w Hw r s k' c Hr ltac:(lia)) as (s' & Hst & Hr').
    destruct (process_packet_or_cancel r (wrap64 k') c) as [r' d]. simpl in *.
    specialize (IH r' s' Hr' ltac:(destruct (spec_step_high _ _ _ _ _ Hst); lia) Hev
                  (spec_step_accepted _ _ _ _ _ _ Hst Ha)).
    destruct (recv_run r' evs) as [r'' ds]. simpl in *. rewrite IH.
    destruct (Z.eqb_spec k' k) as [->|]; [|done]. simpl.
    destruct (should_process d) eqn:Hd; [|done].
    by destruct (spec_step_process _ _ _ _ _ Hst Hd).
Qed.

Lemma run_at_most_once k evs : ∀ r s,
    refines w r s → high s < I64_MOD - 1 → Forall in_session evs →
    (times_processed k (recv_run r evs).2 <= 1)%nat.
Proof.
    induction evs as [|[k' c] evs IH]; intros r s Hr Hh Hev; [simpl; lia|].
    apply Forall_cons_iff in Hev as [Hk Hev]. unfold in_session in Hk. simpl in *.
    pose proof (wf_high _ _ (rf_wf _ _ _ Hr)).
    destruct (process_refines w Hw r s k' c Hr ltac:(lia)) as (s' & Hst & Hr').
    destruct (process_packet_or_cancel r (wrap64 k') c) as [r' d]. simpl in *.
    assert (high s' < I64_MOD - 1) as Hh' by (destruct (spec_step_high _ _ _ _ _ Hst); lia).
    specialize (IH r' s' Hr' Hh' Hev).
    pose proof (accepted_never_processed k evs r' s' Hr' Hh' Hev) as Hnever.
    destruct (recv_run r' evs) as [r'' ds]. simpl in *.
    destruct (Z.eqb_spec k' k) as [->|]; [|done]. simpl.
    destruct (should_process d) eqn:Hd; [|done].
    destruct (spec_step_process _ _ _ _ _ Hst Hd) as (? & ? & ?). rewrite Hnever by done. lia.
Qed.
End runs.

Lemma should_process_eq r sn : should_process_packet r sn = should_process (process_packet r sn).2.
Proof.
  unfold should_process_packet, process_packet, process_packet_or_cancel.
  repeat case_match; done.
Qed.

(** ** Properties *)

(** C3: one call of [process_packet_or_cancel] is exactly one step of the
    specification over unbounded sequence numbers and sets, for every window
    of 1 to 63 packets, however often the 64-bit sequence number has wrapped:
    the returned disposition and the new bit sets are those of [spec_step]. *)
Theorem receiver_refines_spec (w : Z) (r : Receiver) (s : Spec) (k : Z) (is_cancel : bool) :
  1 <= w <= 63 → refines w r s → - I64_MOD <= k - high s < I64_MOD →
  ∃ r' s' d, process_packet_or_cancel r (wrap64 k) is_cancel = (r', d) ∧
    spec_step w s k is_cancel s' d ∧ refines w r' s'.
Proof.
  intros Hw Hr Hk. destruct (process_refines w Hw r s k is_cancel Hr Hk) as (s' & Hst & Hr').
  destruct (process_packet_or_cancel r (wrap64 k) is_cancel) as [r' d]. by exists r', s', d.
Qed.

Lemma receiver_refines_spec_witness :
  ∃ r, receiver_new 32 = Ret r ∧
  ∃ r' s' d, process_packet_or_cancel r (wrap64 5) false = (r', d) ∧
    spec_step 32 spec_init 5 false s' d ∧ refines 32 r' s'.
Proof.
  destruct (receiver_new_refines 32 ltac:(lia)) as (r & Hr & Href). exists r. split; [done|].
  apply (receiver_refines_spec 32 r spec_init 5 false); [lia|done|simpl; lia].
Defined.

(** exactly-once delivery, receiving half: in a session of fewer than 2^63
    packets, over any sequence of arrivals (reordered, duplicated, mixed with
    cancellation requests), no sequence number is handed to the upper layer
    twice. *)
Theorem receiver_at_most_once (w : Z) (evs : list (Z * bool)) (k : Z) :
  1 <= w <= 63 → Forall in_session evs →
  ∃ r, receiver_new w = Ret r ∧ (times_processed k (recv_run r evs).2 <= 1)%nat.
Proof.
  intros Hw Hev. destruct (receiver_new_refines w Hw) as (r & Hr & Href).
  exists r. split; [done|]. apply (run_at_most_once w Hw k evs r spec_init); [done|simpl; lia|done].
Qed.

Lemma receiver_at_most_once_witness :
  ∃ r, receiver_new 3 = Ret r ∧
    Nat.le (times_processed 1 (recv_run r [(1, false); (0, true); (1, false); (2, false)]).2) 1.
Proof.
  apply (receiver_at_most_once 3 [(1, false); (0, true); (1, false); (2, false)] 1); [lia|].
  repeat constructor; simpl; lia.
Defined.

(** No packet inside the window is turned away: a sequence number that has
    not been accepted and is less than [w] beyond every missing one is accepted
    now, is acknowledged (as processed, or as canceled when the request was a
    cancellation), and [process_packet] then hands it up. *)
Theorem receiver_accepts_window (w : Z) (r : Receiver) (s : Spec) (k : Z) (is_cancel : bool) :
  1 <= w <= 63 → refines w r s → - I64_MOD <= k - high s < I64_MOD →
  ¬ accepted s k → (∀ j, ¬ accepted s j → k < j + w) →
  ∃ r', process_packet_or_cancel r (wrap64 k) is_cancel =
          (r', if is_cancel then AckCancelDoNotProcess else AckAndProcess) ∧
        refines w r' (spec_accept s k is_cancel).
Proof.
  intros Hw Hr Hk Hna Hnew. destruct (process_refines w Hw r s k is_cancel Hr Hk) as (s' & Hst & Hr').
  destruct (process_packet_or_cancel r (wrap64 k) is_cancel) as [r' d]. simpl in *. exists r'.
  destruct Hst as [? ?|j Hj ?| |? ?]; try done. by specialize (Hnew j Hj); lia.
Qed.

Lemma receiver_accepts_window_witness :
  ∃ r, receiver_new 32 = Ret r ∧
  ∃ r', process_packet_or_cancel r (wrap64 31) false = (r', AckAndProcess) ∧
        refines 32 r' (spec_accept spec_init 31 false).
Proof.
  destruct (receiver_new_refines 32 ltac:(lia)) as (r & Hr & Href). exists r. split; [done|].
  assert (∀ j, ¬ accepted spec_init j → 0 <= j) as Hj.
  { intros j Hj. destruct (Z.le_gt_cases 0 j); [done|]. by destruct Hj; left. }
  apply (receiver_accepts_window 32 r spec_init 31 false); [lia|done|simpl; lia| |].
  - intros [?|?]; [lia|set_solver].
  - intros j ?%Hj. lia.
Defined.

(** [should_process_packet] announces exactly what [process_packet] will
    then decide, and [process_cancel] never hands a packet up, in every state. *)
Theorem should_process_agrees (r : Receiver) (sn : Z) :
  should_process_packet r sn = should_process (process_packet r sn).2 ∧
  should_process (process_cancel r sn).2 = false.
Proof.
  split; [apply should_process_eq|]. unfold process_cancel, process_packet_or_cancel.
  repeat case_match; done.
Qed.

(** [Receiver::new] also admits a window of 64, and there the window shift
    overflows the 64-bit set: after packet 63 arrives first, packet 0 (never
    received, still inside the window) is answered as already canceled and is
    lost. *)
Theorem receiver_window_64_loses_packet :
  ∃ r r', receiver_new 64 = Ret r ∧
    process_packet r 63 = (r', AckAndProcess) ∧
    (process_packet r' 0).2 = AckCancelDoNotProcess.
Proof. eexists _, _. split; [reflexivity|]. split; reflexivity. Qed.
