(* ===== verification/ZdprSender.v ===== *)
(** Reliable ZDP, sending side: [SenderStat], [UnackedState], [BlockedState]
    and [Sender] of [src/adapter/ph/src/zdpr.rs].

    Every method is a function on the [Sender] record.  A method that may
    panic returns an [outcome]; a method that wakes tasks also returns the
    wakers it wakes, in order.  Sequence numbers and packet identifiers are
    [u64]s that wrap; the arithmetic on window offsets is the code's [i64]
    arithmetic, wrap-around included. *)
From S2P Require Import Prelude.

(** [std::task::Waker]: the no-op waker, or the waker of some task. *)
Inductive Waker : Type :=
| NoopWaker
| TaskWaker (task : N).

(** [std::task::Poll]. *)
Inductive Poll (A : Type) : Type :=
| Ready (a : A)
| Pending.
Arguments Ready {A} _.
Arguments Pending {A}.

(** [std::mem::size_of]: the compiler chooses the layout of a type. *)
Class SizeOf (A : Type) := type_size : Z.
#[global] Arguments type_size A {_}.

Inductive SenderStat : Type := InvalidAck | TooOldAck | DuplicateAck | TooNewAck.

#[global] Instance SenderStat_eq_dec : EqDecision SenderStat.
Proof. solve_decision. Defined.

Definition send_is_protocol_error (st : SenderStat) : bool :=
  match st with InvalidAck | TooNewAck => true | _ => false end.

(** [EnumMap<SenderStat, u64>] *)
Definition SenderStats : Type := SenderStat → Z.

Definition send_stat_incr (m : SenderStats) (st : SenderStat) : SenderStats :=
  λ st', if decide (st' = st) then wrap64 (m st' + 1) else m st'.

Definition U8_MAX : Z := 255.

(** [SeqNum] and [QueuedPacketId] are both [u64]. *)
Definition seq_offset (sn last : Z) : Z := as_i64 (wrap64 (sn - last)).
Definition i64_neg (x : Z) : Z := as_i64 (- x).
(** [(len as i64 + offset - 1) as usize] *)
Definition offset_idx (len offset : Z) : Z := wrap64 (as_i64 (as_i64 (len + offset) - 1)).

#[global] Arguments seq_offset : simpl never.
#[global] Arguments i64_neg : simpl never.
#[global] Arguments offset_idx : simpl never.

Section Sender.
Context {Pkt : Type}.

Inductive UnackedState : Type :=
| Unacked (packet : Pkt) (waker : Waker) (retry_limit : option Z) (retry_count : Z) (forgotten : bool)
| CancelRequested (waker : Waker) (forgotten : bool)
| Acked
| CancelAcked.

Definition unacked_is_acked (s : UnackedState) : bool :=
  match s with Acked | CancelAcked => true | _ => false end.

Definition unacked_cancel (s : UnackedState) : option Pkt * UnackedState :=
  match s with
  | Unacked packet waker _ _ forgotten => (Some packet, CancelRequested waker forgotten)
  | s => (None, s)
  end.

Definition min_limit (limit : Z) (retry_limit : option Z) : option Z :=
  Some (Z.min limit (default U8_MAX retry_limit)).

Definition unacked_limit_retries (limit : Z) (s : UnackedState) : UnackedState :=
  match s with
  | Unacked packet waker retry_limit retry_count forgotten =>
      Unacked packet waker (min_limit limit retry_limit) retry_count forgotten
  | s => s
  end.

Definition unacked_forget (s : UnackedState) : UnackedState :=
  match s with
  | Unacked packet waker (Some l) retry_count _ => Unacked packet waker (Some l) retry_count true
  | CancelRequested waker _ => CancelRequested waker true
  | CancelAcked => Acked
  | s => s
  end.

Definition unacked_age_retries (s : UnackedState) : option Pkt * UnackedState :=
  match s with
  | Unacked packet waker retry_limit retry_count forgotten =>
      let age := (None, Unacked packet waker retry_limit (Z.min U8_MAX (retry_count + 1)) forgotten) in
      match retry_limit with
      | Some limit => if limit <=? retry_count then unacked_cancel s else age
      | None => age
      end
  | s => (None, s)
  end.

Definition unacked_destruct (s : UnackedState) : option Pkt * list Waker :=
  match s with
  | Unacked packet waker _ _ _ => (Some packet, [waker])
  | CancelRequested waker _ => (None, [waker])
  | Acked | CancelAcked => (None, [])
  end.

Inductive BlockedState : Type :=
| Blocked (packet : Pkt) (waker : Waker) (retry_limit : option Z)
| Canceled.

Definition blocked_cancel (s : BlockedState) : option (Pkt * Waker) * BlockedState :=
  match s with
  | Blocked packet waker _ => (Some (packet, waker), Canceled)
  | s => (None, s)
  end.

Definition blocked_limit_retries (limit : Z) (s : BlockedState) : BlockedState :=
  match s with
  | Blocked packet waker retry_limit => Blocked packet waker (min_limit limit retry_limit)
  | s => s
  end.

Definition blocked_destruct (s : BlockedState) : option Pkt * list Waker :=
  match s with
  | Blocked packet waker _ => (Some packet, [waker])
  | Canceled => (None, [])
  end.

Record Sender : Type := mk_sender {
  s_window_size : Z;
  last_sent : Z;
  unacked : list UnackedState;
  last_enqueued : Z;
  blocked : list BlockedState;
  sent : list (option Z);
  s_stats : SenderStats;
}.

Definition set_unacked (s : Sender) (u : list UnackedState) : Sender :=
  {| s_window_size := s_window_size s; last_sent := last_sent s; unacked := u;
     last_enqueued := last_enqueued s; blocked := blocked s; sent := sent s; s_stats := s_stats s |}.
Definition set_blocked (s : Sender) (b : list BlockedState) : Sender :=
  {| s_window_size := s_window_size s; last_sent := last_sent s; unacked := unacked s;
     last_enqueued := last_enqueued s; blocked := b; sent := sent s; s_stats := s_stats s |}.
Definition set_sent (s : Sender) (q : list (option Z)) : Sender :=
  {| s_window_size := s_window_size s; last_sent := last_sent s; unacked := unacked s;
     last_enqueued := last_enqueued s; blocked := blocked s; sent := q; s_stats := s_stats s |}.
Definition send_count (s : Sender) (st : SenderStat) : Sender :=
  {| s_window_size := s_window_size s; last_sent := last_sent s; unacked := unacked s;
     last_enqueued := last_enqueued s; blocked := blocked s; sent := sent s;
     s_stats := send_stat_incr (s_stats s) st |}.

Inductive EnqueueResult : Type :=
| Sent (sn : Z) (pkt : Pkt)
| Queued (id : Z).

Definition SENDER_MAX_WINDOW_SIZE : Z := U64_MOD - 1.

Definition sender_new : Sender :=
  {| s_window_size := 1;
     last_sent := U64_MOD - 1;
     unacked := [];
     last_enqueued := U64_MOD - 1;
     blocked := [];
     sent := [];
     s_stats := λ _, 0 |}.

(** [reserve_exact] panics with a capacity overflow when the entries of the
    window would take more than [isize::MAX] bytes; otherwise it has no effect on
    the queue's contents. *)
Definition adjust_window_size `{!SizeOf UnackedState} (s : Sender) (window_size : Z) : outcome Sender :=
  assertb (1 <=? window_size) (
  let window_size := Z.min SENDER_MAX_WINDOW_SIZE window_size in
  assertb (negb ((zlen (unacked s) <=? window_size) && (I64_MOD - 1 <? window_size * type_size UnackedState))) (
  Ret {| s_window_size := window_size; last_sent := last_sent s; unacked := unacked s;
         last_enqueued := last_enqueued s; blocked := blocked s; sent := sent s;
         s_stats := s_stats s |})).

Definition is_blocked (s : Sender) : bool := s_window_size s <=? zlen (unacked s).

Definition has_blocked_packets (s : Sender) : bool :=
  match blocked s with [] => false | _ => true end.

Definition is_sent (s : Sender) (id : Z) : bool :=
  let offset := seq_offset id (last_enqueued s) in
  zlen (blocked s) <=? i64_neg offset.

Definition is_acked (s : Sender) (sn : Z) : outcome bool :=
  let offset := seq_offset sn (last_sent s) in
  if 0 <? offset then Ret false
  else if zlen (unacked s) <=? i64_neg offset then Ret true
  else
    st ← index (unacked s) (offset_idx (zlen (unacked s)) offset);
    Ret (unacked_is_acked st).

Definition is_cancel_acked (s : Sender) (sn : Z) : outcome bool :=
  let offset := seq_offset sn (last_sent s) in
  if 0 <? offset then Panic
  else if zlen (unacked s) <=? i64_neg offset then Ret false
  else
    st ← index (unacked s) (offset_idx (zlen (unacked s)) offset);
    match st with
    | Unacked _ _ _ _ _ | CancelRequested _ _ => Panic
    | CancelAcked => Ret true
    | Acked => Ret false
    end.

Definition lookup_seq_num (s : Sender) (id : Z) : outcome (option Z) :=
  let offset := as_i64 (seq_offset id (last_enqueued s) + zlen (blocked s)) in
  assertb (offset <=? 0) (
  if zlen (sent s) <=? i64_neg offset then Ret None
  else index (sent s) (offset_idx (zlen (sent s)) offset)).

Definition poll_send (s : Sender) (cx : Waker) (id : Z) : outcome (Sender * Poll (option Z)) :=
  let offset := seq_offset id (last_enqueued s) in
  assertb (offset <=? 0) (
  if zlen (blocked s) <=? i64_neg offset then
    sn ← lookup_seq_num s id; Ret (s, Ready sn)
  else
    let idx := offset_idx (zlen (blocked s)) offset in
    st ← index (blocked s) idx;
    match st with
    | Canceled => Panic
    | Blocked packet _ retry_limit =>
        Ret (set_blocked s (<[Z.to_nat idx := Blocked packet cx retry_limit]> (blocked s)), Pending)
    end).

Definition poll_ack (s : Sender) (cx : Waker) (sn : Z) : outcome (Sender * Poll unit) :=
  let offset := seq_offset sn (last_sent s) in
  assertb (offset <=? 0) (
  if zlen (unacked s) <=? i64_neg offset then Ret (s, Ready tt)
  else
    let idx := offset_idx (zlen (unacked s)) offset in
    st ← index (unacked s) idx;
    match st with
    | Acked | CancelAcked => Ret (s, Ready tt)
    | Unacked packet _ l c f =>
        Ret (set_unacked s (<[Z.to_nat idx := Unacked packet cx l c f]> (unacked s)), Pending)
    | CancelRequested _ f =>
        Ret (set_unacked s (<[Z.to_nat idx := CancelRequested cx f]> (unacked s)), Pending)
    end).

Definition poll_send_and_ack (s : Sender) (cx : Waker) (id : Z) : outcome (Sender * Poll unit) :=
  p ← poll_send s cx id;
  match p with
  | (s, Pending) => Ret (s, Pending)
  | (s, Ready (Some sn)) => poll_ack s cx sn
  | (s, Ready None) => Ret (s, Ready tt)
  end.

Definition enqueue_packet (s : Sender) (packet : Pkt) : Sender * EnqueueResult :=
  if is_blocked s || has_blocked_packets s then
    let id := wrap64 (last_enqueued s + 1) in
    ({| s_window_size := s_window_size s; last_sent := last_sent s; unacked := unacked s;
        last_enqueued := id; blocked := blocked s ++ [Blocked packet NoopWaker None];
        sent := sent s; s_stats := s_stats s |}, Queued id)
  else
    let sn := wrap64 (last_sent s + 1) in
    ({| s_window_size := s_window_size s; last_sent := sn;
        unacked := unacked s ++ [Unacked packet NoopWaker None 0 false];
        last_enqueued := last_enqueued s; blocked := blocked s; sent := sent s;
        s_stats := s_stats s |}, Sent sn packet).

(** [clean_blocked_queue]: canceled entries at the front of [blocked] move to
    the end of [sent] as placeholders. *)
Fixpoint clean_blocked_loop (b : list BlockedState) (q : list (option Z))
    : list BlockedState * list (option Z) :=
  match b with
  | Canceled :: b' => clean_blocked_loop b' (q ++ [None])
  | _ => (b, q)
  end.

Definition clean_blocked_queue (s : Sender) : Sender :=
  let '(b, q) := clean_blocked_loop (blocked s) (sent s) in set_sent (set_blocked s b) q.

Definition is_acked_state (s : UnackedState) : bool :=
  match s with Acked => true | _ => false end.

Definition clean_unacked_queue (s : Sender) : Sender :=
  set_unacked s (drop_while is_acked_state (unacked s)).

Fixpoint clean_sent_loop (s : Sender) (q : list (option Z)) : outcome (list (option Z)) :=
  match q with
  | [] => Ret []
  | Some sn :: q' =>
      a ← is_acked s sn;
      if negb a then Ret (Some sn :: q') else clean_sent_loop s q'
  | None :: q' => clean_sent_loop s q'
  end.

Definition clean_sent_queue (s : Sender) : outcome Sender :=
  q ← clean_sent_loop s (sent s); Ret (set_sent s q).

Definition cancel_queued_packet (s : Sender) (id : Z)
    : outcome (Sender * option Pkt * list Waker) :=
  let offset := seq_offset id (last_enqueued s) in
  assertb (offset <=? 0) (
  if zlen (blocked s) <=? i64_neg offset then Ret (s, None, [])
  else
    let idx := offset_idx (zlen (blocked s)) offset in
    bc ← update_at (blocked s) idx blocked_cancel;
    let '(b, c) := bc in
    match c with
    | None => Ret (set_blocked s b, None, [])
    | Some (pkt, waker) =>
        let s := set_blocked s b in
        let s := if idx =? 0 then clean_blocked_queue s else s in
        Ret (s, Some pkt, [waker])
    end).

Definition cancel_sent_packet (s : Sender) (sn : Z) : outcome (Sender * option Pkt) :=
  let offset := seq_offset sn (last_sent s) in
  if (0 <? offset) || (zlen (unacked s) <=? i64_neg offset) then Ret (s, None)
  else
    uc ← update_at (unacked s) (offset_idx (zlen (unacked s)) offset) unacked_cancel;
    let '(u, pkt) := uc in Ret (set_unacked s u, pkt).

Definition limit_retries_by_seq_num (s : Sender) (sn retry_limit : Z) : outcome Sender :=
  let offset := seq_offset sn (last_sent s) in
  if (0 <? offset) || (zlen (unacked s) <=? i64_neg offset) then Ret s
  else
    u ← update_at (unacked s) (offset_idx (zlen (unacked s)) offset)
          (λ st, (tt, unacked_limit_retries retry_limit st));
    Ret (set_unacked s u.1).

Definition limit_retries_by_id (s : Sender) (id retry_limit : Z) : outcome Sender :=
  let offset := seq_offset id (last_enqueued s) in
  assertb (offset <=? 0) (
  if zlen (blocked s) <=? i64_neg offset then
    sn ← lookup_seq_num s id;
    match sn with
    | Some sn => limit_retries_by_seq_num s sn retry_limit
    | None => Ret s
    end
  else
    b ← update_at (blocked s) (offset_idx (zlen (blocked s)) offset)
          (λ st, (tt, blocked_limit_retries retry_limit st));
    Ret (set_blocked s b.1)).

Definition forget_canceled_packet (s : Sender) (sn : Z) : outcome Sender :=
  let offset := seq_offset sn (last_sent s) in
  if (0 <? offset) || (zlen (unacked s) <=? i64_neg offset) then Ret s
  else
    let idx := offset_idx (zlen (unacked s)) offset in
    u ← update_at (unacked s) idx (λ st, (tt, unacked_forget st));
    let s := set_unacked s u.1 in
    let s := if idx =? 0 then clean_unacked_queue s else s in
    clean_sent_queue s.

(** [lookup_ack_index] counts the acknowledgements outside the window. *)
Definition lookup_ack_index (s : Sender) (sn : Z) : Sender * option Z :=
  let offset := seq_offset sn (last_sent s) in
  if 0 <? offset then (send_count s TooNewAck, None)
  else if zlen (unacked s) <=? i64_neg offset then (send_count s TooOldAck, None)
  else (s, Some (offset_idx (zlen (unacked s)) offset)).

Definition process_ack (s : Sender) (sn : Z) : outcome (Sender * option Pkt * list Waker) :=
  match lookup_ack_index s sn with
  | (s, None) => Ret (s, None, [])
  | (s, Some idx) =>
      st ← index (unacked s) idx;
      match st with
      | Acked => Ret (send_count s DuplicateAck, None, [])
      | CancelAcked => Ret (send_count s InvalidAck, None, [])
      | Unacked _ waker _ _ _ | CancelRequested waker _ =>
          let pkt := match st with Unacked packet _ _ _ _ => Some packet | _ => None end in
          let s := set_unacked s (<[Z.to_nat idx := Acked]> (unacked s)) in
          let s := if idx =? 0 then clean_unacked_queue s else s in
          s ← clean_sent_queue s;
          Ret (s, pkt, [waker])
      end
  end.

Definition process_canceled (s : Sender) (sn : Z) : outcome (Sender * list Waker) :=
  match lookup_ack_index s sn with
  | (s, None) => Ret (s, [])
  | (s, Some idx) =>
      st ← index (unacked s) idx;
      match st with
      | CancelRequested waker forgotten =>
          let s := set_unacked s
            (<[Z.to_nat idx := if forgotten then Acked else CancelAcked]> (unacked s)) in
          let s := if idx =? 0 then clean_unacked_queue s else s in
          s ← clean_sent_queue s;
          Ret (s, [waker])
      | Unacked _ _ _ _ _ | Acked => Ret (send_count s InvalidAck, [])
      | CancelAcked => Ret (send_count s DuplicateAck, [])
      end
  end.

Definition unblock_needed (s : Sender) : bool :=
  negb (is_blocked s) && has_blocked_packets s.

Definition enqueue_next_blocked_packet (s : Sender) : outcome (Sender * (Z * Pkt) * list Waker) :=
  assertb (negb (is_blocked s)) (
  match blocked s with
  | [] => Panic
  | Canceled :: _ => Panic
  | Blocked packet waker retry_limit :: b =>
      let sn := wrap64 (last_sent s + 1) in
      let s' := {| s_window_size := s_window_size s; last_sent := sn;
                   unacked := unacked s ++ [Unacked packet NoopWaker retry_limit 0 false];
                   last_enqueued := last_enqueued s; blocked := b;
                   sent := sent s ++ [Some sn]; s_stats := s_stats s |} in
      Ret (clean_blocked_queue s', (sn, packet), [waker])
  end).

Definition retry_needed (s : Sender) : bool :=
  existsb (λ st, negb (unacked_is_acked st)) (unacked s).

(** [age_retries], with its iterator consumed: the aged queue and the
    canceled packets. *)
Definition age_retries (s : Sender) : Sender * list Pkt :=
  (set_unacked s (map (λ st, (unacked_age_retries st).2) (unacked s)),
   filter_map (λ st, (unacked_age_retries st).1) (unacked s)).

Definition sn_base (s : Sender) : Z :=
  wrap64 (wrap64 (last_sent s - zlen (unacked s)) + 1).

Definition retry_packets (s : Sender) : list (Z * Pkt) :=
  filter_map (λ '(offset, st),
    match st with
    | Unacked packet _ _ _ _ => Some (wrap64 (sn_base s + offset), packet)
    | _ => None
    end) (enumerate_from 0 (unacked s)).

Definition retry_cancels (s : Sender) : list Z :=
  filter_map (λ '(offset, st),
    match st with
    | CancelRequested _ _ => Some (wrap64 (sn_base s + offset))
    | _ => None
    end) (enumerate_from 0 (unacked s)).

(** [destruct]/[destruct_internal], with the iterator consumed. *)
Definition destruct_internal (s : Sender) : Sender * list Pkt * list Waker :=
  (set_blocked (set_unacked s []) [],
   filter_map (λ st, (unacked_destruct st).1) (unacked s) ++
   filter_map (λ st, (blocked_destruct st).1) (blocked s),
   concat (map (λ st, (unacked_destruct st).2) (unacked s)) ++
   concat (map (λ st, (blocked_destruct st).2) (blocked s))).

Definition send_fetch_reset_stat (s : Sender) (st : SenderStat) : Sender * Z :=
  ({| s_window_size := s_window_size s; last_sent := last_sent s; unacked := unacked s;
      last_enqueued := last_enqueued s; blocked := blocked s; sent := sent s;
      s_stats := λ st', if decide (st' = st) then 0 else s_stats s st' |},
   s_stats s st).

End Sender.
Arguments UnackedState : clear implicits.
Arguments BlockedState : clear implicits.
Arguments Sender : clear implicits.
Arguments EnqueueResult : clear implicits.

#[global] Arguments clean_sent_queue : simpl never.
#[global] Arguments clean_blocked_queue : simpl never.
#[global] Arguments clean_unacked_queue : simpl never.

(** ** Window arithmetic *)

(** The three cases of the code's window lookup, for an offset other than
    [i64::MIN]: in the future, already out of the queue, or an entry of it. *)
Inductive window_lookup {A} (l : list A) (o : Z) : Prop :=
| wl_future : 0 < o → (0 <? o) = true → (o <=? 0) = false → window_lookup l o
| wl_past : o <= - zlen l → (0 <? o) = false → (o <=? 0) = true →
    (zlen l <=? i64_neg o) = true → window_lookup l o
| wl_in x : - zlen l < o <= 0 → (0 <? o) = false → (o <=? 0) = true →
    (zlen l <=? i64_neg o) = false →
    offset_idx (zlen l) o = zlen l + o - 1 →
    index l (zlen l + o - 1) = Ret x → l !! Z.to_nat (zlen l + o - 1) = Some x →
    window_lookup l o.

Section window.
Lemma i64_neg_small o : - I64_MOD < o < I64_MOD → i64_neg o = - o.
Proof. unfold i64_neg. zmod. Qed.

Lemma offset_idx_in len o :
    0 <= len < I64_MOD → - len < o <= 0 → offset_idx len o = len + o - 1.
Proof. unfold offset_idx. zmod. Qed.

Lemma window_cases {A} (l : list A) o :
    zlen l < I64_MOD → - I64_MOD < o < I64_MOD → window_lookup l o.
Proof.
    intros Hl Ho. pose proof (zlen_nonneg l). pose proof (i64_neg_small o Ho) as Hneg.
    destruct (Z.ltb_spec 0 o) as [Hpos|Hnpos].
    - apply wl_future; [done|apply Z.ltb_lt; lia|apply Z.leb_gt; lia].
    - destruct (Z.le_gt_cases o (- zlen l)).
      + apply wl_past; [done|apply Z.ltb_ge; lia|apply Z.leb_le; lia|]. apply Z.leb_le. lia.
      + destruct (index_in_range l (zlen l + o - 1) ltac:(lia)) as (x & Hx & Hlk).
        apply wl_in with x; try done; [apply Z.ltb_ge; lia|apply Z.leb_le; lia|apply Z.leb_gt; lia|].
        apply offset_idx_in; lia.
Qed.

Lemma seq_offset_ideal k S :
    - I64_MOD <= k - S < I64_MOD → seq_offset (wrap64 k) (wrap64 S) = k - S.
Proof. apply wrapping_distance. Qed.
End window.

(** ** The states of a packet *)

(** States of a packet that has been sent, as the source's state diagram names
    them; [FORGOTTEN] packets have left the window. *)
Inductive PktState : Type := UNACKED | CANCEL_REQUESTED | ACKED | CANCEL_ACKED | FORGOTTEN.

#[global] Instance PktState_eq_dec : EqDecision PktState.
Proof. solve_decision. Defined.

Definition abs_state {Pkt} (st : UnackedState Pkt) : PktState :=
  match st with
  | Unacked _ _ _ _ _ => UNACKED
  | CancelRequested _ _ => CANCEL_REQUESTED
  | Acked => ACKED
  | CancelAcked => CANCEL_ACKED
  end.

(** The events of the diagram that concern sent packets, less [AGED], by which an
    [ACKED] packet is [FORGOTTEN] when no older packet is left in the window. *)
Inductive PktEvent : Type := CANCEL | ACK | CANCEL_ACK | FORGET.

(** What an event does.  The source's diagram takes a packet whose cancellation
    is forgotten from [CANCEL_ACKED] to [FORGOTTEN] at once; in the code it is an
    [ACKED] packet until it is aged like those. *)
Definition diagram (x : PktState) (e : PktEvent) : PktState :=
  match e, x with
  | CANCEL, UNACKED => CANCEL_REQUESTED
  | ACK, (UNACKED | CANCEL_REQUESTED) => ACKED
  | CANCEL_ACK, CANCEL_REQUESTED => CANCEL_ACKED
  | FORGET, CANCEL_ACKED => ACKED
  | _, x => x
  end.

(** ** Well-formedness

    [S] and [Q] are the unbounded counterparts of [last_sent] and
    [last_enqueued]: the number of packets sent, respectively queued, so far
    minus one. *)

Section wf.
Context {Pkt : Type}.
Implicit Types (s : Sender Pkt) (k i S Q B : Z).

Definition not_acked_head (u : list (UnackedState Pkt)) : Prop :=
  match u with Acked :: _ => False | _ => True end.

Definition not_canceled_head (b : list (BlockedState Pkt)) : Prop :=
  match b with Canceled :: _ => False | _ => True end.

(** The ideal counterpart [q] of the [sent] queue: increasing sequence numbers
    of the current window [[B, S]]. *)
Inductive sent_ok (S : Z) : Z → list (option Z) → Prop :=
| sent_ok_nil B : sent_ok S B []
| sent_ok_none B q : sent_ok S B q → sent_ok S B (None :: q)
| sent_ok_some B k q : B <= k <= S → sent_ok S (k + 1) q → sent_ok S B (Some k :: q).

Record sender_wf_at S Q B s : Prop := {
  wf_S : -1 <= S;
  wf_Q : -1 <= Q;
  wf_last_sent : last_sent s = wrap64 S;
  wf_last_enqueued : last_enqueued s = wrap64 Q;
  wf_window_size : 1 <= s_window_size s;
  wf_unacked_len : zlen (unacked s) < I64_MOD;
  wf_unacked_sent : zlen (unacked s) <= S + 1;
  wf_queue_len : zlen (blocked s) + zlen (sent s) < I64_MOD;
  wf_queue_enqueued : zlen (blocked s) + zlen (sent s) <= Q + 1;
  wf_unacked_head : not_acked_head (unacked s);
  wf_blocked_head : not_canceled_head (blocked s);
  wf_B : S - I64_MOD < B;
  wf_sent : ∃ q, sent s = map (option_map wrap64) q ∧ sent_ok S B q;
}.

(** The oldest sequence number of the window. *)
Definition win_base S s : Z := S + 1 - zlen (unacked s).

Definition sender_wf S Q s : Prop := sender_wf_at S Q (win_base S s) s.

Lemma sent_ok_weaken S B B' q : B' <= B → sent_ok S B q → sent_ok S B' q.
Proof.
  intros HB Hq. revert B' HB. induction Hq as [|B q Hq IH|B k q Hk Hq IH]; intros B' HB; constructor; auto; lia.
Qed.

Lemma sent_ok_S S S' B q : S <= S' → sent_ok S B q → sent_ok S' B q.
Proof. intros HS Hq. induction Hq; constructor; auto; lia. Qed.

Lemma sent_ok_app_none S B q : sent_ok S B q → sent_ok S B (q ++ [None]).
Proof. induction 1; simpl; auto using sent_ok. Qed.

Lemma sent_ok_app_some S B q : B <= S + 1 → sent_ok S B q → sent_ok (S + 1) B (q ++ [Some (S + 1)]).
Proof.
  intros HB Hq. revert HB. induction Hq as [|B q Hq IH|B k q Hk Hq IH]; intros HB; simpl.
  - apply sent_ok_some; [lia|constructor].
  - constructor; auto.
  - apply sent_ok_some; [lia|]. apply IH. lia.
Qed.

Lemma sent_ok_in S B q k : sent_ok S B q → Some k ∈ q → B <= k <= S.
Proof.
  induction 1 as [|B q Hq IH|B k' q Hk Hq IH]; intros Hin.
  - by apply not_elem_of_nil in Hin.
  - apply elem_of_cons in Hin as [?|?]; [done|auto].
  - apply elem_of_cons in Hin as [?|Hin]; [naive_solver|]. specialize (IH Hin). lia.
Qed.

Lemma drop_while_not_acked (u : list (UnackedState Pkt)) : not_acked_head (drop_while is_acked_state u).
Proof.
  destruct (drop_while is_acked_state u) as [|x u'] eqn:E; [done|].
  apply drop_while_head in E. by destruct x.
Qed.

Lemma drop_while_zlen {A} (p : A → bool) l : zlen (drop_while p l) <= zlen l.
Proof.
  destruct (drop_while_suffix p l) as (n & -> & _ & ?). unfold zlen. rewrite length_drop. lia.
Qed.

Lemma clean_blocked_loop_spec (b : list (BlockedState Pkt)) q :
  ∃ n, clean_blocked_loop b q = (drop n b, q ++ replicate n None) ∧
       take n b = replicate n Canceled ∧ (n <= length b)%nat ∧ not_canceled_head (drop n b).
Proof.
  revert q. induction b as [|[p wk l|] b IH]; intros q; simpl.
  - exists 0%nat. simpl. rewrite app_nil_r. auto.
  - exists 0%nat. simpl. rewrite app_nil_r. auto with lia.
  - destruct (IH (q ++ [None])) as (n & -> & Ht & Hn & Hh). exists (Datatypes.S n). simpl.
    rewrite <- app_assoc, Ht. simpl. auto with lia.
Qed.

Lemma clean_blocked_sent_ok S B q n : sent_ok S B q → sent_ok S B (q ++ replicate n None).
Proof.
  induction n in q |- *; intros Hq; simpl; [by rewrite app_nil_r|].
  replace (q ++ None :: replicate n None) with ((q ++ [None]) ++ replicate n None)
    by (by rewrite <- app_assoc).
  apply IHn. by apply sent_ok_app_none.
Qed.

(** [is_acked] in a well-formed sender. *)
Lemma is_acked_Ret S s k :
  last_sent s = wrap64 S → zlen (unacked s) < I64_MOD → - I64_MOD < k - S < I64_MOD →
  ∃ b, is_acked s (wrap64 k) = Ret b ∧ (b = false → win_base S s <= k).
Proof.
  intros Hlast Hlen Hk. unfold is_acked, win_base. rewrite Hlast, seq_offset_ideal by lia.
  pose proof (zlen_nonneg (unacked s)).
  destruct (window_cases (unacked s) (k - S) Hlen Hk)
    as [Hf -> _|Hp -> _ ->|x Hi -> _ -> -> Hx Hl].
  - eexists; split; [done|lia].
  - eexists; split; [done|]. intros; done.
  - rewrite Hx. simpl. eexists; split; [done|]. lia.
Qed.

Lemma clean_sent_loop_ok S B s q :
  last_sent s = wrap64 S → zlen (unacked s) < I64_MOD → S - I64_MOD < B → sent_ok S B q →
  ∃ q', clean_sent_loop s (map (option_map wrap64) q) = Ret (map (option_map wrap64) q') ∧
        sent_ok S (win_base S s) q' ∧ q' `suffix_of` q.
Proof.
  intros Hlast Hlen HB Hq. induction Hq as [B|B q Hq IH|B k q Hk Hq IH]; simpl.
  - exists []. repeat constructor. by exists [].
  - destruct (IH HB) as (q' & ? & ? & ?). exists q'. auto using suffix_cons_r.
  - destruct (is_acked_Ret S s k Hlast Hlen ltac:(lia)) as ([|] & -> & Hf); simpl.
    + destruct (IH ltac:(lia)) as (q' & ? & ? & ?). exists q'. auto using suffix_cons_r.
    + exists (Some k :: q). split_and!; [done| |done]. apply sent_ok_some; [|done].
      specialize (Hf eq_refl). lia.
Qed.

Lemma clean_sent_queue_wf S Q B s :
  sender_wf_at S Q B s →
  ∃ s', clean_sent_queue s = Ret s' ∧ sender_wf S Q s' ∧ s' = set_sent s (sent s').
Proof.
  intros Hs. destruct (wf_sent _ _ _ _ Hs) as (q & Hq & Hok).
  destruct (clean_sent_loop_ok S B s q) as (q' & Hrun & Hok' & Hsuf);
    [apply Hs|apply Hs|apply Hs|done|].
  unfold clean_sent_queue. rewrite Hq, Hrun. simpl. eexists; split; [done|]. split; [|done].
  pose proof (wf_queue_len _ _ _ _ Hs) as Hl. pose proof (wf_queue_enqueued _ _ _ _ Hs) as Hl'.
  rewrite Hq in Hl, Hl'. apply suffix_length in Hsuf. unfold zlen in Hl, Hl'.
  rewrite length_map in Hl, Hl'. pose proof (wf_unacked_len _ _ _ _ Hs).
  destruct Hs. split; simpl; try done; unfold zlen; rewrite ?length_map; try lia.
  - unfold win_base. simpl. lia.
  - exists q'. split; [done|]. done.
Qed.

(** Replacing one entry of the window and cleaning up, the common tail of
    [process_ack], [process_canceled] and [forget_canceled_packet]. *)
Definition replace_entry s (idx : Z) (st : UnackedState Pkt) : Sender Pkt :=
  let s := set_unacked s (<[Z.to_nat idx := st]> (unacked s)) in
  if idx =? 0 then clean_unacked_queue s else s.

Lemma replace_entry_wf S Q s idx st :
  sender_wf S Q s → 0 <= idx < zlen (unacked s) →
  ∃ s', clean_sent_queue (replace_entry s idx st) = Ret s' ∧ sender_wf S Q s' ∧
        s' = set_sent (replace_entry s idx st) (sent s').
Proof.
  intros Hs Hidx. apply (clean_sent_queue_wf S Q (win_base S s)).
  assert (zlen (unacked (replace_entry s idx st)) <= zlen (unacked s)) as Hle.
  { unfold replace_entry. destruct (idx =? 0); simpl.
    - etrans; [apply drop_while_zlen|]. by rewrite zlen_insert.
    - by rewrite zlen_insert. }
  assert (not_acked_head (unacked (replace_entry s idx st))) as Hhead.
  { unfold replace_entry. destruct (Z.eqb_spec idx 0) as [->|Hne]; simpl.
    - apply drop_while_not_acked.
    - pose proof (wf_unacked_head _ _ _ _ Hs) as Hh. destruct (unacked s) as [|x u]; [done|].
      by replace (Z.to_nat idx) with (Datatypes.S (Z.to_nat (idx - 1))) by lia. }
  destruct Hs. unfold replace_entry in *.
  destruct (idx =? 0); split; simpl in *; try done; lia.
Qed.

(** Replacing an entry that is not cleaned up afterwards. *)
Lemma set_unacked_wf S Q s u :
  sender_wf S Q s → zlen u = zlen (unacked s) → not_acked_head u → sender_wf S Q (set_unacked s u).
Proof.
  intros Hs Hlen Hh. unfold sender_wf, win_base. simpl. rewrite Hlen.
  destruct Hs. split; simpl; rewrite ?Hlen; done.
Qed.

Lemma set_blocked_wf S Q s b :
  sender_wf S Q s → zlen b = zlen (blocked s) → not_canceled_head b → sender_wf S Q (set_blocked s b).
Proof.
  intros Hs Hlen Hh. unfold sender_wf, win_base. simpl. destruct Hs.
  split; simpl; rewrite ?Hlen; done.
Qed.

Lemma send_count_wf S Q s st : sender_wf S Q s → sender_wf S Q (send_count s st).
Proof. intros []. by split. Qed.

Lemma insert_not_acked_head (u : list (UnackedState Pkt)) (n : nat) (st : UnackedState Pkt) :
  not_acked_head u → st ≠ Acked → not_acked_head (<[n := st]> u).
Proof. destruct u as [|x u], n; simpl; destruct st; done. Qed.

Lemma insert_not_canceled_head (b : list (BlockedState Pkt)) (n : nat) (st : BlockedState Pkt) :
  not_canceled_head b → st ≠ Canceled → not_canceled_head (<[n := st]> b).
Proof. destruct b as [|x b], n; simpl; destruct st; done. Qed.

(** The [blocked] queue after a cleanup whose front may be canceled. *)
Lemma clean_blocked_wf S Q s b q :
  sender_wf S Q (set_sent (set_blocked s []) []) →
  sent s = map (option_map wrap64) q → sent_ok S (win_base S s) q →
  blocked s = b → zlen b + zlen (sent s) < I64_MOD → zlen b + zlen (sent s) <= Q + 1 →
  sender_wf S Q (clean_blocked_queue s).
Proof.
  intros Hs Hq Hok Hb Hl1 Hl2. unfold clean_blocked_queue. rewrite Hb.
  destruct (clean_blocked_loop_spec b (sent s)) as (n & -> & Ht & Hn & Hh).
  assert (zlen (drop n b) + zlen (sent s ++ replicate n None) = zlen b + zlen (sent s)) as Hsum.
  { unfold zlen. rewrite length_drop, length_app, length_replicate. lia. }
  destruct Hs. unfold win_base in *. split; simpl in *; rewrite ?Hsum; try done.
  exists (q ++ replicate n None). split; [|by apply clean_blocked_sent_ok].
  rewrite Hq, map_app. f_equal. symmetry. apply (fmap_replicate (option_map wrap64) n None).
Qed.

(** ** Each operation, from a well-formed state *)

Definition near k S : Prop := - I64_MOD < k - S < I64_MOD.

Lemma sent_window S Q s k :
  sender_wf S Q s → near k S → window_lookup (unacked s) (seq_offset (wrap64 k) (last_sent s)) ∧
  seq_offset (wrap64 k) (last_sent s) = k - S.
Proof.
  intros Hs Hk. unfold near in Hk. rewrite (wf_last_sent _ _ _ _ Hs), seq_offset_ideal by lia.
  split; [|done]. apply window_cases; [apply Hs|done].
Qed.

Lemma queued_window S Q s i :
  sender_wf S Q s → near i Q → window_lookup (blocked s) (seq_offset (wrap64 i) (last_enqueued s)) ∧
  seq_offset (wrap64 i) (last_enqueued s) = i - Q.
Proof.
  intros Hs Hi. unfold near in Hi. rewrite (wf_last_enqueued _ _ _ _ Hs), seq_offset_ideal by lia.
  split; [|done]. apply window_cases; [|done].
  pose proof (wf_queue_len _ _ _ _ Hs). pose proof (zlen_nonneg (sent s)). lia.
Qed.

Lemma enqueue_packet_wf S Q s p :
  sender_wf S Q s → zlen (unacked s) < I64_MOD - 1 → zlen (blocked s) + zlen (sent s) < I64_MOD - 1 →
  if is_blocked s || has_blocked_packets s then sender_wf S (Q + 1) (enqueue_packet s p).1
  else sender_wf (S + 1) Q (enqueue_packet s p).1.
Proof.
  intros Hs Hl1 Hl2. unfold enqueue_packet. destruct (is_blocked s || has_blocked_packets s) eqn:E.
  - destruct Hs. split; simpl; autorewrite with zlen; simpl; try done; try lia.
    + by rewrite wf_last_enqueued0, wrap64_idem_l.
    + destruct (blocked s); done.
  - destruct Hs. destruct wf_sent0 as (q & Hq & Hok).
    split; simpl; unfold win_base in *; simpl; autorewrite with zlen; simpl; try done; try lia.
    + by rewrite wf_last_sent0, wrap64_idem_l.
    + destruct (unacked s); done.
    + exists q. split; [done|]. apply (sent_ok_S S); [lia|].
      eapply sent_ok_weaken; [|done]. lia.
Qed.

(** No packet of the window with number [k] satisfies [P]. *)
Definition no_entry S s k (P : UnackedState Pkt → Prop) : Prop :=
  ∀ st, win_base S s <= k <= S → unacked s !! Z.to_nat (k - win_base S s) = Some st → ¬ P st.

Lemma no_entry_future S s k P : 0 < k - S → no_entry S s k P.
Proof. intros ? st ?. lia. Qed.

Lemma no_entry_past S s k P : k - S <= - zlen (unacked s) → no_entry S s k P.
Proof. intros ? st ?. unfold win_base in *. lia. Qed.

Lemma no_entry_in S s k P st :
  unacked s !! Z.to_nat (k - win_base S s) = Some st → ¬ P st → no_entry S s k P.
Proof. intros Hl HP st' _ Hl'. by simplify_eq. Qed.

#[local] Hint Resolve no_entry_future no_entry_past : core.

Lemma process_ack_cases S Q s k :
  sender_wf S Q s → near k S →
  ∃ s' pkt wk, process_ack s (wrap64 k) = Ret (s', pkt, wk) ∧ sender_wf S Q s' ∧
    (unacked s' = unacked s ∧ no_entry S s k (λ st, unacked_is_acked st = false) ∨
     ∃ st, win_base S s <= k <= S ∧ unacked s !! Z.to_nat (k - win_base S s) = Some st ∧
       unacked_is_acked st = false ∧
       unacked s' = unacked (replace_entry s (k - win_base S s) Acked)).
Proof.
  intros Hs Hk. unfold process_ack, lookup_ack_index.
  destruct (sent_window S Q s k Hs Hk) as [Hwin Hoff]. revert Hwin. rewrite Hoff. intros Hwin.
  destruct Hwin as [Hf -> _|Hp -> _ ->|x Hi -> _ -> -> Hx Hl].
  - eexists _, _, _. split; [done|]. split; [by apply send_count_wf|by left; auto].
  - eexists _, _, _. split; [done|]. split; [by apply send_count_wf|by left; auto].
  - replace (zlen (unacked s) + (k - S) - 1) with (k - win_base S s) in * by (unfold win_base; lia).
    rewrite Hx. simpl.
    assert (0 <= k - win_base S s < zlen (unacked s)) as Hidx by (unfold win_base; lia).
    destruct (replace_entry_wf S Q s (k - win_base S s) Acked Hs Hidx) as (s' & Hc & Hwf & Heq).
    unfold replace_entry in Hc.
    destruct x as [p wk l c f|wk f| |]; simpl; try (rewrite Hc; simpl);
      (eexists _, _, _; split; [done|]; split; [by auto using send_count_wf|]);
      try (left; split; [done|by eapply no_entry_in]; fail); right; eexists; (split; [lia|]);
      (split; [done|]; split; [done|]; by rewrite Heq).
Qed.

Lemma process_canceled_cases S Q s k :
  sender_wf S Q s → near k S →
  ∃ s' wk, process_canceled s (wrap64 k) = Ret (s', wk) ∧ sender_wf S Q s' ∧
    (unacked s' = unacked s ∧ no_entry S s k (λ st, abs_state st = CANCEL_REQUESTED) ∨
     ∃ w f, win_base S s <= k <= S ∧
       unacked s !! Z.to_nat (k - win_base S s) = Some (CancelRequested w f) ∧
       unacked s' = unacked (replace_entry s (k - win_base S s) (if f then Acked else CancelAcked))).
Proof.
  intros Hs Hk. unfold process_canceled, lookup_ack_index.
  destruct (sent_window S Q s k Hs Hk) as [Hwin Hoff]. revert Hwin. rewrite Hoff. intros Hwin.
  destruct Hwin as [Hf -> _|Hp -> _ ->|x Hi -> _ -> -> Hx Hl].
  - eexists _, _. split; [done|]. split; [by apply send_count_wf|by left; auto].
  - eexists _, _. split; [done|]. split; [by apply send_count_wf|by left; auto].
  - replace (zlen (unacked s) + (k - S) - 1) with (k - win_base S s) in * by (unfold win_base; lia).
    rewrite Hx. simpl.
    assert (0 <= k - win_base S s < zlen (unacked s)) as Hidx by (unfold win_base; lia).
    destruct x as [p wk l c f|wk f| |];
      try (eexists _, _; split; [done|]; split; [by auto using send_count_wf|left; split; [done|by eapply no_entry_in]]; fail).
    destruct (replace_entry_wf S Q s (k - win_base S s) (if f then Acked else CancelAcked) Hs Hidx)
      as (s' & Hc & Hwf & Heq).
    unfold replace_entry in Hc. rewrite Hc. simpl. eexists _, _. split; [done|]. split; [done|].
    right. eexists _, _. split; [lia|]. split; [done|]. by rewrite Heq.
Qed.

Lemma cancel_sent_cases S Q s k :
  sender_wf S Q s → near k S →
  ∃ s' pkt, cancel_sent_packet s (wrap64 k) = Ret (s', pkt) ∧ sender_wf S Q s' ∧
    last_sent s' = last_sent s ∧
    (unacked s' = unacked s ∧ no_entry S s k (λ st, abs_state st = UNACKED) ∨
     ∃ p w l c f, win_base S s <= k <= S ∧
       unacked s !! Z.to_nat (k - win_base S s) = Some (Unacked p w l c f) ∧ pkt = Some p ∧
       unacked s' = <[Z.to_nat (k - win_base S s) := CancelRequested w f]> (unacked s)).
Proof.
  intros Hs Hk. unfold cancel_sent_packet.
  destruct (sent_window S Q s k Hs Hk) as [Hwin Hoff]. revert Hwin. rewrite Hoff. intros Hwin.
  destruct Hwin as [Hf -> _|Hp -> _ ->|x Hi -> _ -> -> Hx Hl]; simpl.
  - eexists _, _. auto 10.
  - eexists _, _. auto 10.
  - replace (zlen (unacked s) + (k - S) - 1) with (k - win_base S s) in * by (unfold win_base; lia).
    unfold update_at. rewrite Hx. simpl. pose proof (wf_unacked_head _ _ _ _ Hs) as Hh.
    assert (win_base S s <= k <= S) by (unfold win_base; lia).
    destruct x as [p w l c f|w f| |]; simpl;
      (eexists _, _; split; [done|]); simpl; rewrite ?(list_insert_id _ _ _ Hl).
    + split; [|split; [done|right; eexists _, _, _, _, _; split; [lia|done]]].
      apply set_unacked_wf; [done|by rewrite zlen_insert|by apply insert_not_acked_head].
    + split; [by apply set_unacked_wf|split; [done|left; split; [done|by eapply no_entry_in]]].
    + split; [by apply set_unacked_wf|split; [done|left; split; [done|by eapply no_entry_in]]].
    + split; [by apply set_unacked_wf|split; [done|left; split; [done|by eapply no_entry_in]]].
Qed.

Lemma update_entry_wf S Q s k (f : UnackedState Pkt → UnackedState Pkt) :
  sender_wf S Q s → near k S → (∀ st, st ≠ Acked → f st ≠ Acked) →
  let offset := seq_offset (wrap64 k) (last_sent s) in
  (0 <? offset) || (zlen (unacked s) <=? i64_neg offset) = true ∨
  (0 <? offset) || (zlen (unacked s) <=? i64_neg offset) = false ∧
  ∃ u, update_at (unacked s) (offset_idx (zlen (unacked s)) offset) (λ st, (tt, f st)) = Ret (u, tt) ∧
       sender_wf S Q (set_unacked s u).
Proof.
  intros Hs Hk Hf. simpl. destruct (sent_window S Q s k Hs Hk) as [Hwin Hoff].
  destruct Hwin as [Ho -> _|Hp -> _ ->|x Hi -> _ -> -> Hx Hl]; simpl; [by left|by left|right].
  split; [done|]. unfold update_at. rewrite Hx. simpl. eexists; split; [done|].
  apply set_unacked_wf; [done|by rewrite zlen_insert|].
  pose proof (wf_unacked_head _ _ _ _ Hs) as Hh.
  destruct (unacked s) as [|y u]; [done|].
  destruct (Z.to_nat _); simpl in *; [|done]. simplify_eq.
  assert (f x ≠ Acked) as Hfx by (apply Hf; by intros ->). by destruct (f x).
Qed.

Lemma limit_by_seq_wf S Q s k n :
  sender_wf S Q s → near k S →
  ∃ s', limit_retries_by_seq_num s (wrap64 k) n = Ret s' ∧ sender_wf S Q s'.
Proof.
  intros Hs Hk. unfold limit_retries_by_seq_num.
  destruct (update_entry_wf S Q s k (unacked_limit_retries n) Hs Hk) as [->|[-> (u & -> & Hu)]];
    [by intros []| |]; simpl; eauto.
Qed.

Lemma forget_wf S Q s k :
  sender_wf S Q s → near k S →
  ∃ s', forget_canceled_packet s (wrap64 k) = Ret s' ∧ sender_wf S Q s' ∧
    (unacked s' = unacked s ∧ no_entry S s k (λ _, True) ∨
     ∃ st, win_base S s <= k <= S ∧ unacked s !! Z.to_nat (k - win_base S s) = Some st ∧
       unacked s' = unacked (replace_entry s (k - win_base S s) (unacked_forget st))).
Proof.
  intros Hs Hk. unfold forget_canceled_packet.
  destruct (sent_window S Q s k Hs Hk) as [Hwin Hoff]. revert Hwin. rewrite Hoff. intros Hwin.
  destruct Hwin as [Hf -> _|Hp -> _ ->|x Hi -> _ -> -> Hx Hl]; simpl; [eauto 10|eauto 10|].
  replace (zlen (unacked s) + (k - S) - 1) with (k - win_base S s) in * by (unfold win_base; lia).
  assert (0 <= k - win_base S s < zlen (unacked s)) as Hidx by (unfold win_base; lia).
  unfold update_at. rewrite Hx. simpl.
  destruct (replace_entry_wf S Q s (k - win_base S s) (unacked_forget x) Hs Hidx)
    as (s' & Hc & Hwf & Heq).
  unfold replace_entry in Hc. rewrite Hc. eexists; split; [done|]. split; [done|].
  right. exists x. split; [lia|]. split; [done|]. by rewrite Heq.
Qed.

Lemma age_wf S Q s : sender_wf S Q s → sender_wf S Q (age_retries s).1.
Proof.
  intros Hs. apply set_unacked_wf; [done|unfold zlen; by rewrite length_map|].
  pose proof (wf_unacked_head _ _ _ _ Hs) as Hh.
  destruct (unacked s) as [|[p w [l|] c f|w f| |] u]; try done; simpl.
  by destruct (l <=? c).
Qed.

(** The entries of a window of [n] packets can be allocated. *)
Definition window_fits `{!SizeOf (UnackedState Pkt)} (n : Z) : Prop :=
  Z.min SENDER_MAX_WINDOW_SIZE n * type_size (UnackedState Pkt) < I64_MOD.

Lemma adjust_Ret `{!SizeOf (UnackedState Pkt)} s n s' :
  adjust_window_size s n = Ret s' →
  s' = {| s_window_size := Z.min SENDER_MAX_WINDOW_SIZE n; last_sent := last_sent s; unacked := unacked s;
          last_enqueued := last_enqueued s; blocked := blocked s; sent := sent s; s_stats := s_stats s |}.
Proof. unfold adjust_window_size, assertb. destruct (1 <=? n); [|done]. destruct (negb _); [|done]. by intros [= <-]. Qed.

Lemma adjust_wf `{!SizeOf (UnackedState Pkt)} S Q s n :
  sender_wf S Q s → 1 <= n → window_fits n → ∃ s', adjust_window_size s n = Ret s' ∧ sender_wf S Q s'.
Proof.
  unfold window_fits. intros Hs Hn Hf. unfold adjust_window_size, assertb. destruct (Z.leb_spec 1 n); [|lia].
  destruct (Z.ltb_spec (I64_MOD - 1) (Z.min SENDER_MAX_WINDOW_SIZE n * type_size (UnackedState Pkt))); [lia|].
  rewrite andb_false_r. eexists; split; [done|]. destruct Hs. split; simpl; try done.
  unfold SENDER_MAX_WINDOW_SIZE. lia.
Qed.

Lemma next_blocked_wf S Q s :
  sender_wf S Q s → unblock_needed s = true → zlen (unacked s) < I64_MOD - 1 →
  ∃ p w l b, blocked s = Blocked p w l :: b ∧
  ∃ s', enqueue_next_blocked_packet s = Ret (s', (wrap64 (S + 1), p), [w]) ∧
    sender_wf (S + 1) Q s' ∧
    unacked s' = unacked s ++ [Unacked p NoopWaker l 0 false].
Proof.
  intros Hs Hu Hlen. unfold unblock_needed, has_blocked_packets in Hu.
  pose proof (wf_blocked_head _ _ _ _ Hs) as Hh.
  unfold enqueue_next_blocked_packet. destruct (is_blocked s); [done|]. simpl in *.
  destruct (blocked s) as [|[p w l|] b] eqn:Hb; try done.
  exists p, w, l, b. split; [done|]. eexists. split.
  { rewrite (wf_last_sent _ _ _ _ Hs), wrap64_idem_l. done. }
  split; [|by unfold clean_blocked_queue; destruct (clean_blocked_loop _ _)].
  destruct (wf_sent _ _ _ _ Hs) as (q & Hq & Hok).
  pose proof (wf_queue_len _ _ _ _ Hs) as Hl1. pose proof (wf_queue_enqueued _ _ _ _ Hs) as Hl2.
  rewrite Hb in Hl1, Hl2. autorewrite with zlen in Hl1, Hl2.
  apply (clean_blocked_wf (S + 1) Q _ b (q ++ [Some (S + 1)])); simpl; autorewrite with zlen; simpl; try lia.
  - pose proof (zlen_nonneg b). destruct Hs.
    split; simpl; unfold win_base in *; simpl; autorewrite with zlen; simpl; try done; try lia.
    + destruct (unacked s); done.
    + exists []. split; [done|]. constructor.
  - rewrite Hq, map_app. done.
  - unfold win_base in *. simpl. autorewrite with zlen. simpl.
    pose proof (zlen_nonneg (unacked s)).
    replace (S + 1 + 1 - (zlen (unacked s) + (0 + 1))) with (S + 1 - zlen (unacked s)) by lia.
    apply sent_ok_app_some; [lia|done].
  - done.
Qed.

Lemma lookup_seq_num_Ret S Q s i :
  sender_wf S Q s → near i Q → i <= Q - zlen (blocked s) →
  ∃ o, lookup_seq_num s (wrap64 i) = Ret (option_map wrap64 o) ∧
       (∀ k, o = Some k → win_base S s <= k <= S).
Proof.
  intros Hs Hi Hle. unfold near in Hi. unfold lookup_seq_num, assertb.
  rewrite (wf_last_enqueued _ _ _ _ Hs), seq_offset_ideal by lia.
  pose proof (zlen_nonneg (blocked s)). pose proof (wf_queue_len _ _ _ _ Hs).
  rewrite as_i64_small by lia.
  destruct (wf_sent _ _ _ _ Hs) as (q & Hq & Hok).
  destruct (window_cases (sent s) (i - Q + zlen (blocked s))) as [Hf _ _|Hp _ -> ->|x Hx _ -> -> -> -> Hl];
    [lia|lia|lia| |].
  - by exists None.
  - rewrite Hq in Hl. rewrite list_lookup_fmap in Hl. apply fmap_Some in Hl as (o & Ho & ->).
    exists o. split; [done|]. intros k ->. eapply sent_ok_in; [done|].
    apply list_elem_of_lookup. eauto.
Qed.

Lemma cancel_queued_wf S Q s i :
  sender_wf S Q s → near i Q → i <= Q →
  ∃ s' p wk, cancel_queued_packet s (wrap64 i) = Ret (s', p, wk) ∧ sender_wf S Q s' ∧
    unacked s' = unacked s.
Proof.
  intros Hs Hi Hle. unfold cancel_queued_packet.
  destruct (queued_window S Q s i Hs Hi) as [Hwin Hoff]. revert Hwin. rewrite Hoff. intros Hwin.
  destruct Hwin as [Hf _ _|Hp _ -> ->|x Hx _ -> -> -> Hix Hl]; simpl; [lia|eauto 10|].
  set (idx := zlen (blocked s) + (i - Q) - 1) in *. unfold update_at. rewrite Hix. simpl.
  pose proof (wf_blocked_head _ _ _ _ Hs) as Hh.
  destruct x as [p w l|]; simpl; (eexists _, _, _; split; [done|]).
  - destruct (Z.eqb_spec idx 0) as [He|Hne].
    + split; [|by unfold clean_blocked_queue; destruct (clean_blocked_loop _ _)].
      destruct (wf_sent _ _ _ _ Hs) as (q & Hq & Hok).
      eapply (clean_blocked_wf S Q _ _ q); simpl; [|done|done|done|rewrite zlen_insert; apply Hs..].
      pose proof (zlen_nonneg (blocked s)). pose proof (zlen_nonneg (sent s)).
      destruct Hs. split; simpl; autorewrite with zlen; try done; try lia.
      exists []. split; [done|constructor].
    + split; [|done]. apply set_blocked_wf; [done|by rewrite zlen_insert|].
      destruct (blocked s) as [|y b]; [done|].
      by replace (Z.to_nat idx) with (Datatypes.S (Z.to_nat (idx - 1))) by lia.
  - rewrite (list_insert_id _ _ _ Hl). split; [|done]. by apply set_blocked_wf.
Qed.

Lemma limit_by_id_wf S Q s i n :
  sender_wf S Q s → near i Q → i <= Q →
  ∃ s', limit_retries_by_id s (wrap64 i) n = Ret s' ∧ sender_wf S Q s'.
Proof.
  intros Hs Hi Hle. unfold limit_retries_by_id.
  destruct (queued_window S Q s i Hs Hi) as [Hwin Hoff]. revert Hwin. rewrite Hoff. intros Hwin.
  destruct Hwin as [Hf _ _|Hp _ -> ->|x Hx _ -> -> -> Hix Hl]; simpl; [lia| |].
  - destruct (lookup_seq_num_Ret S Q s i Hs Hi ltac:(lia)) as ([k|] & -> & Hk); simpl; [|eauto].
    specialize (Hk k eq_refl). apply limit_by_seq_wf; [done|].
    unfold near, win_base in *. pose proof (wf_unacked_len _ _ _ _ Hs). lia.
  - unfold update_at. rewrite Hix. simpl. eexists; split; [done|].
    apply set_blocked_wf; [done|by rewrite zlen_insert|].
    pose proof (wf_blocked_head _ _ _ _ Hs) as Hh.
    destruct (blocked s) as [|y b]; [done|].
    destruct (Z.to_nat _); simpl in *; [|done]. simplify_eq. by destruct x.
Qed.
End wf.

(** ** The sender as a whole: sequences of calls *)

Section api.
Context {Pkt : Type} `{!SizeOf (UnackedState Pkt)}.
Implicit Types (s : Sender Pkt) (k i S Q : Z).

(** The calls the packet handler makes on a sender.  Sequence numbers and
    packet identifiers are the unbounded ones. *)
Inductive SenderCall : Type :=
| CallEnqueue (p : Pkt)
| CallAck (k : Z)
| CallCanceled (k : Z)
| CallCancelQueued (i : Z)
| CallCancelSent (k : Z)
| CallLimitId (i n : Z)
| CallLimitSeq (k n : Z)
| CallForget (k : Z)
| CallNextBlocked
| CallAge
| CallAdjust (n : Z).

(** Run one call; also return the packets it puts on the wire. *)
Definition exec (s : Sender Pkt) (c : SenderCall) : outcome (Sender Pkt * list (Z * Pkt)) :=
  match c with
  | CallEnqueue p =>
      match enqueue_packet s p with
      | (s', Sent sn p) => Ret (s', [(sn, p)])
      | (s', Queued _) => Ret (s', [])
      end
  | CallAck k => r ← process_ack s (wrap64 k); Ret (r.1.1, [])
  | CallCanceled k => r ← process_canceled s (wrap64 k); Ret (r.1, [])
  | CallCancelQueued i => r ← cancel_queued_packet s (wrap64 i); Ret (r.1.1, [])
  | CallCancelSent k => r ← cancel_sent_packet s (wrap64 k); Ret (r.1, [])
  | CallLimitId i n => s' ← limit_retries_by_id s (wrap64 i) n; Ret (s', [])
  | CallLimitSeq k n => s' ← limit_retries_by_seq_num s (wrap64 k) n; Ret (s', [])
  | CallForget k => s' ← forget_canceled_packet s (wrap64 k); Ret (s', [])
  | CallNextBlocked => r ← enqueue_next_blocked_packet s; Ret (r.1.1, [r.1.2])
  | CallAge => Ret ((age_retries s).1, [])
  | CallAdjust n => s' ← adjust_window_size s n; Ret (s', [])
  end.

(** What callers respect: acknowledgements and handles refer to sequence
    numbers less than 2^63 away, identifiers have been issued, blocked packets
    are only sent when [unblock_needed], and the queues fit in memory. *)
Definition call_ok S Q s (c : SenderCall) : Prop :=
  match c with
  | CallEnqueue _ => zlen (unacked s) < I64_MOD - 1 ∧ zlen (blocked s) + zlen (sent s) < I64_MOD - 1
  | CallAck k | CallCanceled k | CallCancelSent k | CallLimitSeq k _ | CallForget k => near k S
  | CallCancelQueued i | CallLimitId i _ => near i Q ∧ i <= Q
  | CallNextBlocked => unblock_needed s = true ∧ zlen (unacked s) < I64_MOD - 1
  | CallAge => True
  | CallAdjust n => 1 <= n ∧ window_fits (Pkt := Pkt) n
  end.

(** How far a call advances the two counters. *)
Definition sends s (c : SenderCall) : Z :=
  match c with
  | CallEnqueue _ => if is_blocked s || has_blocked_packets s then 0 else 1
  | CallNextBlocked => 1
  | _ => 0
  end.
Definition queues s (c : SenderCall) : Z :=
  match c with
  | CallEnqueue _ => if is_blocked s || has_blocked_packets s then 1 else 0
  | _ => 0
  end.

Inductive sender_reach : Z → Z → Sender Pkt → Prop :=
| reach_new : sender_reach (-1) (-1) sender_new
| reach_call S Q s c s' tx :
    sender_reach S Q s → call_ok S Q s c → exec s c = Ret (s', tx) →
    sender_reach (S + sends s c) (Q + queues s c) s'.

Lemma sender_new_wf : sender_wf (-1) (-1) (@sender_new Pkt).
Proof.
  split; simpl; unfold win_base; simpl; autorewrite with zlen; try done.
  exists []. split; [done|constructor].
Qed.

Lemma exec_wf S Q s c :
  sender_wf S Q s → call_ok S Q s c →
  ∃ s' tx, exec s c = Ret (s', tx) ∧ sender_wf (S + sends s c) (Q + queues s c) s'.
Proof.
  intros Hs Hc. destruct c as [p|k|k|i|k|i n|k n|k| | |n]; simpl in *; rewrite ?Z.add_0_r.
  - destruct Hc as [Hl1 Hl2]. pose proof (enqueue_packet_wf S Q s p Hs Hl1 Hl2) as Hwf.
    unfold enqueue_packet in *. destruct (is_blocked s || has_blocked_packets s);
      (eexists _, _; split; [done|]); by rewrite Z.add_0_r.
  - destruct (process_ack_cases S Q s k Hs Hc) as (s' & ? & ? & -> & ? & _). simpl. eauto.
  - destruct (process_canceled_cases S Q s k Hs Hc) as (s' & ? & -> & ? & _). simpl. eauto.
  - destruct Hc as [Hi Hle].
    destruct (cancel_queued_wf S Q s i Hs Hi Hle) as (s' & ? & ? & -> & ? & _). simpl. eauto.
  - destruct (cancel_sent_cases S Q s k Hs Hc) as (s' & ? & -> & ? & _). simpl. eauto.
  - destruct Hc as [Hi Hle]. destruct (limit_by_id_wf S Q s i n Hs Hi Hle) as (s' & -> & ?). simpl. eauto.
  - destruct (limit_by_seq_wf S Q s k n Hs Hc) as (s' & -> & ?). simpl. eauto.
  - destruct (forget_wf S Q s k Hs Hc) as (s' & -> & ? & _). simpl. eauto.
  - destruct Hc as [Hu Hl].
    destruct (next_blocked_wf S Q s Hs Hu Hl) as (p & w & l & b & _ & s' & -> & ? & _). simpl. eauto.
  - eexists _, _. split; [done|]. by apply (age_wf S Q s).
  - destruct Hc as [Hn Hfit]. destruct (adjust_wf S Q s n Hs Hn Hfit) as (s' & -> & ?). simpl. eauto.
Qed.

Lemma reach_wf S Q s : sender_reach S Q s → sender_wf S Q s.
Proof.
  induction 1 as [|S Q s c s' tx _ IH Hok Hex]; [apply sender_new_wf|].
  destruct (exec_wf S Q s c IH Hok) as (s'' & tx' & Hex' & Hwf).
  rewrite Hex in Hex'. by injection Hex' as -> ->.
Qed.

(** *** Order of transmission *)

Definition blocked_packet (b : BlockedState Pkt) : option Pkt :=
  match b with Blocked p _ _ => Some p | Canceled => None end.

(** The packets still waiting to be sent, oldest first. *)
Definition waiting s : list Pkt := filter_map blocked_packet (blocked s).

Definition new_packets (c : SenderCall) : list Pkt :=
  match c with CallEnqueue p => [p] | _ => [] end.

Lemma clean_blocked_waiting s : waiting (clean_blocked_queue s) = waiting s.
Proof.
  unfold waiting, clean_blocked_queue.
  destruct (clean_blocked_loop_spec (blocked s) (sent s)) as (n & -> & Ht & _). simpl.
  rewrite <- (filter_map_take_drop blocked_packet n (blocked s)), Ht, (filter_map_none _ (replicate n _)); [done|].
  by apply Forall_replicate.
Qed.

(** Operations on sent packets leave the blocked queue and the counter alone. *)
Definition same_counters s s' : Prop :=
  last_sent s' = last_sent s ∧ s_window_size s' = s_window_size s.
Definition same_queue s s' : Prop := blocked s' = blocked s ∧ same_counters s s'.

Lemma clean_sent_same s s' : clean_sent_queue s = Ret s' → same_queue s s'.
Proof. by intros (? & _ & [= <-])%outcome_bind_Ret. Qed.

Lemma replace_entry_same s s' idx st :
  clean_sent_queue (replace_entry s idx st) = Ret s' → same_queue s s'.
Proof.
  unfold replace_entry. intros (E1 & E2 & E3)%clean_sent_same. by destruct (idx =? 0).
Qed.

Lemma process_ack_same s sn s' pkt wk : process_ack s sn = Ret (s', pkt, wk) → same_queue s s'.
Proof.
  unfold process_ack, lookup_ack_index. destruct (0 <? _); [by intros [= <- _ _]|].
  destruct (_ <=? _); [by intros [= <- _ _]|].
  intros ([p w l c f|w f| |] & _ & H)%outcome_bind_Ret; try (by injection H as <- _ _).
  all: apply outcome_bind_Ret in H as (s1 & E & [= <- _ _]); by apply replace_entry_same in E.
Qed.

Lemma process_canceled_same s sn s' wk : process_canceled s sn = Ret (s', wk) → same_queue s s'.
Proof.
  unfold process_canceled, lookup_ack_index. destruct (0 <? _); [by intros [= <- _]|].
  destruct (_ <=? _); [by intros [= <- _]|].
  intros ([p w l c f|w f| |] & _ & H)%outcome_bind_Ret; try (by injection H as <- _).
  apply outcome_bind_Ret in H as (s1 & E & [= <- _]). by apply replace_entry_same in E.
Qed.

Lemma forget_same s sn s' : forget_canceled_packet s sn = Ret s' → same_queue s s'.
Proof.
  unfold forget_canceled_packet. destruct (_ || _); [by intros [= <-]|].
  intros ([u []] & E & H)%outcome_bind_Ret. apply outcome_bind_Ret in E as (x & _ & [= <-]).
  by apply replace_entry_same in H.
Qed.

Lemma cancel_sent_same s sn s' pkt : cancel_sent_packet s sn = Ret (s', pkt) → same_queue s s'.
Proof.
  unfold cancel_sent_packet. destruct (_ || _); [by intros [= <- _]|].
  by intros ([u ?] & _ & [= <- _])%outcome_bind_Ret.
Qed.

Lemma limit_seq_same s sn n s' : limit_retries_by_seq_num s sn n = Ret s' → same_queue s s'.
Proof.
  unfold limit_retries_by_seq_num. destruct (_ || _); [by intros [= <-]|].
  by intros (u & _ & [= <-])%outcome_bind_Ret.
Qed.

Lemma clean_blocked_same s : same_counters s (clean_blocked_queue s).
Proof. unfold clean_blocked_queue. by destruct (clean_blocked_loop _ _). Qed.

Lemma cancel_queued_same s i s' p wk :
  cancel_queued_packet s i = Ret (s', p, wk) → same_counters s s'.
Proof.
  unfold cancel_queued_packet, assertb. destruct (_ <=? 0); [|done].
  destruct (_ <=? i64_neg _); [by intros [= <- _ _]|].
  intros ([b [[q w]|]] & _ & [= <- _ _])%outcome_bind_Ret; [|done].
  destruct (_ =? 0); [|done]. apply (clean_blocked_same (set_blocked s b)).
Qed.

Lemma limit_id_same s i n s' : limit_retries_by_id s i n = Ret s' → same_counters s s'.
Proof.
  unfold limit_retries_by_id, assertb. destruct (_ <=? 0); [|done]. destruct (_ <=? i64_neg _).
  - intros ([sn|] & _ & E)%outcome_bind_Ret; [by apply limit_seq_same in E as [_ ?]|by injection E as <-].
  - by intros (b & _ & [= <-])%outcome_bind_Ret.
Qed.

Lemma limit_id_waiting s i n s' : limit_retries_by_id s i n = Ret s' → waiting s' = waiting s.
Proof.
  unfold limit_retries_by_id, assertb, waiting. destruct (_ <=? 0); [|done].
  destruct (_ <=? i64_neg _).
  - destruct (lookup_seq_num s i) as [[sn|]|]; simpl; [|by intros [= <-]|done].
    intros [E _]%limit_seq_same. by rewrite E.
  - unfold update_at. destruct (index _ _) as [x|] eqn:E; simpl; [|done]. intros [= <-]. simpl.
    apply index_Ret in E as [_ E]. apply (filter_map_insert _ _ _ _ _ E). by destruct x.
Qed.

Lemma cancel_queued_waiting s i s' p wk :
  cancel_queued_packet s i = Ret (s', p, wk) →
  match p with
  | None => waiting s' = waiting s
  | Some p => ∃ l l', waiting s = l ++ p :: l' ∧ waiting s' = l ++ l'
  end.
Proof.
  unfold cancel_queued_packet, assertb. destruct (_ <=? 0); [|done].
  destruct (_ <=? i64_neg _); [by intros [= <- <- <-]|].
  unfold update_at. destruct (index _ _) as [x|] eqn:E; simpl; [|done].
  apply index_Ret in E as [_ E]. destruct x as [q w l|]; simpl; intros [= <- <- <-].
  - set (n := Z.to_nat _) in *. pose proof (lookup_lt_Some _ _ _ E) as Hlt.
    exists (filter_map blocked_packet (take n (blocked s))), (filter_map blocked_packet (drop (Datatypes.S n) (blocked s))).
    split.
    + unfold waiting. rewrite <- (filter_map_take_drop blocked_packet n (blocked s)).
      by rewrite (drop_S _ _ _ E).
    + transitivity (waiting (set_blocked s (<[n:=Canceled]> (blocked s)))).
      { destruct (_ =? 0); [apply clean_blocked_waiting|done]. }
      unfold waiting. simpl. by rewrite (insert_take_drop _ _ _ Hlt), filter_map_app.
  - unfold waiting. simpl. by apply (filter_map_insert _ _ _ _ _ E).
Qed.

Lemma exec_order s c s' tx :
  exec s c = Ret (s', tx) →
  (map snd tx ++ waiting s' = waiting s ++ new_packets c) ∨
  (∃ i p l l', c = CallCancelQueued i ∧ tx = [] ∧ waiting s = l ++ p :: l' ∧ waiting s' = l ++ l').
Proof.
  destruct c as [p|k|k|i|k|i n|k n|k| | |n]; simpl; intros H.
  - left. revert H. unfold enqueue_packet.
    destruct (is_blocked s || has_blocked_packets s) eqn:E; simpl; intros [= <- <-]; unfold waiting; simpl.
    + by rewrite filter_map_app.
    + apply orb_false_iff in E as [_ E]. unfold has_blocked_packets in E.
      by destruct (blocked s).
  - left. destruct (process_ack _ _) as [[[s1 ?] ?]|] eqn:E; simplify_eq/=.
    apply process_ack_same in E as [E _]. unfold waiting. by rewrite E, app_nil_r.
  - left. destruct (process_canceled _ _) as [[s1 ?]|] eqn:E; simplify_eq/=.
    apply process_canceled_same in E as [E _]. unfold waiting. by rewrite E, app_nil_r.
  - destruct (cancel_queued_packet _ _) as [[[s1 [p|]] ?]|] eqn:E; simplify_eq/=;
      apply cancel_queued_waiting in E.
    + right. destruct E as (la & lb & ? & ?). by exists i, p, la, lb.
    + left. by rewrite E, app_nil_r.
  - left. revert H. unfold cancel_sent_packet. destruct (_ || _); simpl;
      [intros [= <- <-]; by rewrite app_nil_r|].
    destruct (update_at _ _ _) as [[u ?]|]; simpl; [|done]. intros [= <- <-]. by rewrite app_nil_r.
  - left. destruct (limit_retries_by_id _ _ _) eqn:E; simplify_eq/=.
    by rewrite (limit_id_waiting _ _ _ _ E), app_nil_r.
  - left. destruct (limit_retries_by_seq_num _ _ _) eqn:E; simplify_eq/=.
    apply limit_seq_same in E as [E _]. unfold waiting. by rewrite E, app_nil_r.
  - left. destruct (forget_canceled_packet _ _) eqn:E; simplify_eq/=.
    apply forget_same in E as [E _]. unfold waiting. by rewrite E, app_nil_r.
  - left. revert H. unfold enqueue_next_blocked_packet, assertb. destruct (negb _); [|done].
    destruct (blocked s) as [|[p w l|] b] eqn:Hb; [done| |done]. simpl. intros [= <- <-].
    rewrite clean_blocked_waiting. unfold waiting. simpl. by rewrite Hb, app_nil_r.
  - left. simplify_eq/=. by rewrite app_nil_r.
  - left. apply outcome_bind_Ret in H as (s1 & ->%adjust_Ret & [= <- <-]). by rewrite app_nil_r.
Qed.

(** *** The packet state machine *)

(** The state of sequence number [k]; [None] when it has not been sent. *)
Definition sent_state S s k : option PktState :=
  if S <? k then None
  else if k <? win_base S s then Some FORGOTTEN
  else abs_state <$> (unacked s !! Z.to_nat (k - win_base S s)).

Definition retries_exhausted (x : UnackedState Pkt) : bool :=
  match x with Unacked _ _ (Some limit) count _ => limit <=? count | _ => false end.

(** The events that a call is for packet [k], whose entry is [x]. *)
Definition call_events (c : SenderCall) k (x : UnackedState Pkt) : list PktEvent :=
  let for_packet j evs := if decide (j = k) then evs else [] in
  match c with
  | CallAck j => for_packet j [ACK]
  | CallCanceled j => for_packet j (CANCEL_ACK :: if x is CancelRequested _ true then [FORGET] else [])
  | CallCancelSent j => for_packet j [CANCEL]
  | CallForget j => for_packet j [FORGET]
  | CallAge => if retries_exhausted x then [CANCEL] else []
  | _ => []
  end.

Definition entry_next (c : SenderCall) k (x : UnackedState Pkt) : PktState :=
  foldl diagram (abs_state x) (call_events c k x).

(** The state of packet [k] after a call, before packets are aged. *)
Definition next_state S s (c : SenderCall) k : PktState :=
  if k <? win_base S s then FORGOTTEN
  else if unacked s !! Z.to_nat (k - win_base S s) is Some x then entry_next c k x else FORGOTTEN.

(** A call takes the window [u], whose oldest packet is [B], to [v]. *)
Definition entries_step (B : Z) (c : SenderCall) (u v : list (UnackedState Pkt)) : Prop :=
  length v = length u ∧
  ∀ j x y, u !! j = Some x → v !! j = Some y → abs_state y = entry_next c (B + Z.of_nat j) x.

Definition win_step (B : Z) (c : SenderCall) (u u' : list (UnackedState Pkt)) (sent_new : Z) : Prop :=
  ∃ v n extra, entries_step B c u v ∧ Forall (λ x, x = Acked) (take n v) ∧
    (n <= length v)%nat ∧ u' = drop n v ++ extra ∧ zlen extra = sent_new.

Lemma entries_step_refl B c u :
  (∀ j x, u !! j = Some x → abs_state x = entry_next c (B + Z.of_nat j) x) → entries_step B c u u.
Proof. intros H. split; [done|]. intros j x y Hx Hy. simplify_eq. by apply H. Qed.

Lemma entries_step_insert B c u (i : nat) x y :
  u !! i = Some x → abs_state y = entry_next c (B + Z.of_nat i) x →
  (∀ j z, j ≠ i → call_events c (B + Z.of_nat j) z = []) →
  entries_step B c u (<[i := y]> u).
Proof.
  intros Hx Hxy Ho. split; [apply length_insert|]. intros j x' y' Hx' Hy'.
  destruct (decide (i = j)) as [->|Hne].
  - rewrite list_lookup_insert_eq in Hy' by (by eapply lookup_lt_Some). by simplify_eq.
  - rewrite list_lookup_insert_ne in Hy' by done. simplify_eq. unfold entry_next. by rewrite Ho.
Qed.

Lemma win_step_pointwise B c u v : entries_step B c u v → win_step B c u v 0.
Proof. intros H. exists v, 0%nat, []. rewrite app_nil_r. auto with lia. Qed.

(** A call that is no event for any packet. *)
Lemma win_step_quiet B c u : (∀ k x, x ∈ u → foldl diagram (abs_state x) (call_events c k x) = abs_state x) → win_step B c u u 0.
Proof.
  intros H. apply win_step_pointwise, entries_step_refl. intros j x Hx. symmetry. apply H.
  by eapply list_elem_of_lookup_2.
Qed.

Lemma win_step_append B c u x : (∀ k y, call_events c k y = []) → win_step B c u (u ++ [x]) 1.
Proof.
  intros H. exists u, 0%nat, [x]. split_and!; [|constructor|lia|done|done].
  apply entries_step_refl. intros j y _. unfold entry_next. by rewrite H.
Qed.

Lemma win_step_replace B c s k x y :
  B <= k → unacked s !! Z.to_nat (k - B) = Some x → abs_state y = entry_next c k x →
  (∀ k' z, k' ≠ k → call_events c k' z = []) →
  win_step B c (unacked s) (unacked (replace_entry s (k - B) y)) 0.
Proof.
  intros HB Hx Hxy Ho.
  assert (entries_step B c (unacked s) (<[Z.to_nat (k - B):=y]> (unacked s))) as Hf.
  { apply (entries_step_insert _ _ _ _ x); [done| |].
    - by replace (B + Z.of_nat (Z.to_nat (k - B))) with k by lia.
    - intros j z Hj. apply Ho. lia. }
  unfold replace_entry. destruct (k - B =? 0); simpl; [|by apply win_step_pointwise].
  destruct (drop_while_suffix is_acked_state (<[Z.to_nat (k - B):=y]> (unacked s))) as (n & -> & Ht & Hn).
  eexists _, n, []. split_and!; [done| |done|by rewrite app_nil_r|done].
  revert Ht. apply Forall_impl. by intros [].
Qed.

(** A call on packet [k] that finds no entry it could change. *)
Lemma win_step_unmoved S s c k (P : UnackedState Pkt → Prop) :
  no_entry S s k P → (∀ k' z, k' ≠ k → call_events c k' z = []) →
  (∀ z, ¬ P z → entry_next c k z = abs_state z) →
  win_step (win_base S s) c (unacked s) (unacked s) 0.
Proof.
  intros Hn Ho HP. apply win_step_pointwise, entries_step_refl. intros j x Hx.
  set (k' := win_base S s + Z.of_nat j). destruct (decide (k' = k)) as [E|Hne].
  - rewrite E. symmetry. apply HP. pose proof (lookup_lt_Some _ _ _ Hx). unfold k', win_base, zlen in E.
    apply (Hn x); [unfold win_base, zlen; lia|].
    by replace (Z.to_nat (k - win_base S s)) with j by (unfold win_base, zlen; lia).
  - unfold entry_next. by rewrite Ho.
Qed.

Definition payload (st : UnackedState Pkt) : option Pkt :=
  match st with Unacked p _ _ _ _ => Some p | _ => None end.

(** Entries in the same state of the diagram, with the same packet. *)
Definition same_state (x y : UnackedState Pkt) : Prop := abs_state x = abs_state y ∧ payload x = payload y.

#[export] Instance same_state_refl : Reflexive same_state.
Proof. by intros x. Qed.

Lemma limit_seq_unacked s sn n s' :
  limit_retries_by_seq_num s sn n = Ret s' → Forall2 same_state (unacked s) (unacked s').
Proof.
  unfold limit_retries_by_seq_num. destruct (_ || _); [by intros [= <-]|].
  unfold update_at. destruct (index _ _) as [x|] eqn:E; simpl; [|done]. intros [= <-]. simpl.
  apply index_Ret in E as [_ E]. eapply Forall2_insert_one; [apply _|done|]. by destruct x.
Qed.

Lemma limit_id_unacked s i n s' :
  limit_retries_by_id s i n = Ret s' → Forall2 same_state (unacked s) (unacked s').
Proof.
  unfold limit_retries_by_id, assertb. destruct (_ <=? 0); [|done]. destruct (_ <=? i64_neg _).
  - destruct (lookup_seq_num s i) as [[sn|]|]; simpl; [apply limit_seq_unacked|by intros [= <-]|done].
  - destruct (update_at _ _ _) as [[u []]|]; simpl; [|done]. by intros [= <-].
Qed.

Lemma same_state_step B c u v :
  (∀ k x, call_events c k x = []) → Forall2 same_state u v → win_step B c u v 0.
Proof.
  intros Hc Hf. apply win_step_pointwise. split; [by rewrite (Forall2_length Hf)|].
  intros j x y Hx Hy. destruct (Forall2_lookup_lr _ _ _ _ _ _ Hf Hx Hy) as [E _].
  unfold entry_next. by rewrite Hc, E.
Qed.

Lemma age_entries B u : entries_step B CallAge u (map (λ st, (unacked_age_retries st).2) u).
Proof.
  split; [apply length_map|]. intros j x y Hx Hy. rewrite list_lookup_fmap, Hx in Hy. injection Hy as <-.
  unfold entry_next. simpl. destruct x as [? ? [l|] c ?| | |]; simpl; try done. by destruct (l <=? c).
Qed.

Ltac other_packet := intros; simpl; by rewrite decide_False by congruence.

Lemma exec_win_step S Q s c s' tx :
  sender_wf S Q s → call_ok S Q s c → exec s c = Ret (s', tx) →
  win_step (win_base S s) c (unacked s) (unacked s') (sends s c).
Proof.
  intros Hs Hc H. destruct c as [p|k|k|i|k|i n|k n|k| | |n]; simpl in *.
  - revert H. unfold enqueue_packet. destruct (_ || _); intros [= <- <-]; simpl.
    + by apply win_step_quiet.
    + by apply win_step_append.
  - destruct (process_ack_cases S Q s k Hs Hc) as (s1 & ? & ? & Hr & _ & Hcase).
    rewrite Hr in H. injection H as <- <-. simpl.
    destruct Hcase as [[-> Hno]|(st & Hk & Hl & Hst & ->)].
    + apply (win_step_unmoved _ _ _ k _ Hno); [other_packet|].
      intros z Hz. unfold entry_next. simpl. rewrite decide_True by done. by destruct z.
    + eapply win_step_replace; [lia|done| |other_packet].
      unfold entry_next. simpl. rewrite decide_True by done. by destruct st.
  - destruct (process_canceled_cases S Q s k Hs Hc) as (s1 & ? & Hr & _ & Hcase).
    rewrite Hr in H. injection H as <- <-. simpl.
    destruct Hcase as [[-> Hno]|(w & f & Hk & Hl & ->)].
    + apply (win_step_unmoved _ _ _ k _ Hno); [other_packet|].
      intros z Hz. unfold entry_next. simpl. rewrite decide_True by done. by destruct z.
    + eapply win_step_replace; [lia|done| |other_packet].
      unfold entry_next. simpl. rewrite decide_True by done. by destruct f.
  - destruct Hc as [Hi Hle]. destruct (cancel_queued_wf S Q s i Hs Hi Hle) as (s1 & ? & ? & Hr & _ & Hu).
    rewrite Hr in H. injection H as <- <-. simpl. rewrite Hu. by apply win_step_quiet.
  - destruct (cancel_sent_cases S Q s k Hs Hc) as (s1 & ? & Hr & _ & _ & Hcase).
    rewrite Hr in H. injection H as <- <-. simpl.
    destruct Hcase as [[-> Hno]|(p & w & l & c & f & Hk & Hl & _ & ->)].
    + apply (win_step_unmoved _ _ _ k _ Hno); [other_packet|].
      intros z Hz. unfold entry_next. simpl. rewrite decide_True by done. by destruct z.
    + apply win_step_pointwise. eapply entries_step_insert; [done| |].
      * unfold entry_next. simpl. by rewrite decide_True by lia.
      * intros j z Hj. simpl. by rewrite decide_False by lia.
  - destruct (limit_retries_by_id _ _ _) eqn:E; [|done]. injection H as <- <-.
    by eapply same_state_step, limit_id_unacked, E.
  - destruct (limit_retries_by_seq_num _ _ _) eqn:E; [|done]. injection H as <- <-.
    by eapply same_state_step, limit_seq_unacked, E.
  - destruct (forget_wf S Q s k Hs Hc) as (s1 & Hr & _ & Hcase).
    rewrite Hr in H. injection H as <- <-. simpl.
    destruct Hcase as [[-> Hno]|(st & Hk & Hl & ->)].
    + apply (win_step_unmoved _ _ _ k _ Hno); [other_packet|]. intros z []. done.
    + eapply win_step_replace; [lia|done| |other_packet].
      unfold entry_next. simpl. rewrite decide_True by done. by destruct st as [? ? [] ? ?| | |].
  - destruct Hc as [Hu Hl].
    destruct (next_blocked_wf S Q s Hs Hu Hl) as (p & w & l & b & _ & s1 & Hr & _ & Hu').
    rewrite Hr in H. injection H as <- <-. simpl. rewrite Hu'. by apply win_step_append.
  - injection H as <- <-. simpl. apply win_step_pointwise, age_entries.
  - apply outcome_bind_Ret in H as (s1 & ->%adjust_Ret & [= <- <-]). by apply win_step_quiet.
Qed.

Lemma entry_next_not_forgotten c k x : entry_next c k x ≠ FORGOTTEN.
Proof.
  unfold entry_next. assert (abs_state x ≠ FORGOTTEN) as Hx by by destruct x.
  revert Hx. generalize (abs_state x) as z. induction (call_events c k x) as [|e evs IH]; intros z Hz; [done|].
  simpl. apply IH. by destruct e, z.
Qed.

(** A step of the window, packet by packet: the state is that of [next_state],
    except that packets are forgotten up to the first that is not [ACKED]. *)
Lemma win_step_exact S S' s s' c k :
  win_step (win_base S s) c (unacked s) (unacked s') (S' - S) → not_acked_head (unacked s') → k <= S →
  ∃ y, sent_state S' s' k = Some y ∧
    (y = FORGOTTEN ↔ ∀ j, j <= k → next_state S s c j = ACKED ∨ next_state S s c j = FORGOTTEN) ∧
    (y ≠ FORGOTTEN → y = next_state S s c k).
Proof.
  intros (v & n & extra & [Hlen Hf] & Ht & Hn & Hu & He) Hhead Hk.
  assert (win_base S' s' = win_base S s + Z.of_nat n) as Hbase.
  { unfold win_base. rewrite Hu, zlen_app. unfold zlen in *. rewrite length_drop. lia. }
  assert (∀ j y, win_base S s <= j → v !! Z.to_nat (j - win_base S s) = Some y → next_state S s c j = abs_state y) as Hnext.
  { intros j y Hj Hy. unfold next_state. destruct (Z.ltb_spec j (win_base S s)); [lia|].
    destruct (lookup_lt_is_Some_2 (unacked s) (Z.to_nat (j - win_base S s))) as [x Hx];
      [apply lookup_lt_Some in Hy; lia|]. rewrite Hx, (Hf _ _ _ Hx Hy). f_equal. lia. }
  assert (∀ j, win_base S s <= j <= S → ∃ y, v !! Z.to_nat (j - win_base S s) = Some y) as Hin.
  { intros j Hj. apply lookup_lt_is_Some_2. unfold win_base, zlen in *. lia. }
  assert (∀ j, j < win_base S s + Z.of_nat n → next_state S s c j = ACKED ∨ next_state S s c j = FORGOTTEN) as Hold.
  { intros j Hj. destruct (Z.lt_ge_cases j (win_base S s)) as [Hlt|Hge].
    - right. unfold next_state. by rewrite (proj2 (Z.ltb_lt _ _) Hlt).
    - destruct (lookup_lt_is_Some_2 v (Z.to_nat (j - win_base S s))) as [y Hy]; [lia|].
      left. rewrite (Hnext j y Hge Hy). rewrite Forall_lookup in Ht.
      by rewrite (Ht (Z.to_nat (j - win_base S s)) y) by (rewrite lookup_take_lt by lia; done). }
  pose proof (zlen_nonneg extra). unfold sent_state. rewrite Hbase. destruct (Z.ltb_spec S' k); [lia|].
  destruct (Z.ltb_spec k (win_base S s + Z.of_nat n)) as [Hlt|Hge].
  { exists FORGOTTEN. split_and!; [done| |done]. split; [|done]. intros _ j Hj. apply Hold. lia. }
  destruct (Hin k ltac:(lia)) as [y Hy]. pose proof (lookup_lt_Some _ _ _ Hy).
  exists (abs_state y). split_and!.
  - rewrite Hu, lookup_app_l, lookup_drop by (rewrite length_drop; lia).
    replace (n + Z.to_nat (k - (win_base S s + Z.of_nat n)))%nat with (Z.to_nat (k - win_base S s)) by lia.
    by rewrite Hy.
  - split; [by destruct y|]. intros Hall. exfalso.
    destruct (Hin (win_base S s + Z.of_nat n) ltac:(lia)) as [z Hz].
    pose proof (Hall (win_base S s + Z.of_nat n) ltac:(lia)) as Hn'. rewrite (Hnext (win_base S s + Z.of_nat n) z ltac:(lia) Hz) in Hn'.
    replace (Z.to_nat (win_base S s + Z.of_nat n - win_base S s)) with n in Hz by lia.
    rewrite Hu, (drop_S _ _ _ Hz) in Hhead. by destruct z, Hn'.
  - intros _. symmetry. apply Hnext; [lia|done].
Qed.
End api.
Arguments SenderCall : clear implicits.

(** ** Runs *)

Section runs.
Context {Pkt : Type} `{!SizeOf (UnackedState Pkt)}.
Implicit Types (s : Sender Pkt) (cs : list (SenderCall Pkt)).

(** Run a list of calls, collecting what is put on the wire. *)
Fixpoint run s cs : outcome (Sender Pkt * list (Z * Pkt)) :=
  match cs with
  | [] => Ret (s, [])
  | c :: cs =>
      r ← exec s c;
      r' ← run r.1 cs;
      Ret (r'.1, r.2 ++ r'.2)
  end.

Definition enqueued cs : list Pkt := concat (map new_packets cs).

#[global] Instance call_ok_dec S Q s (c : SenderCall Pkt) : Decision (call_ok S Q s c).
Proof. destruct c; simpl; unfold near, window_fits; apply _. Defined.

(** A run in which every call respects its contract, with the unbounded
    counters of packets sent and queued. *)
Fixpoint run_ok S Q s cs : option (Z * Z * Sender Pkt * list (Z * Pkt)) :=
  match cs with
  | [] => Some (S, Q, s, [])
  | c :: cs =>
      if decide (call_ok S Q s c) then
        match exec s c with
        | Ret (s1, tx1) =>
            match run_ok (S + sends s c) (Q + queues s c) s1 cs with
            | Some (S', Q', s', tx) => Some (S', Q', s', tx1 ++ tx)
            | None => None
            end
        | Panic => None
        end
      else None
  end.

Lemma run_ok_cons S Q s c cs S' Q' s' tx :
  run_ok S Q s (c :: cs) = Some (S', Q', s', tx) →
  ∃ s1 tx1 tx2, call_ok S Q s c ∧ exec s c = Ret (s1, tx1) ∧
    run_ok (S + sends s c) (Q + queues s c) s1 cs = Some (S', Q', s', tx2) ∧ tx = tx1 ++ tx2.
Proof.
  simpl. destruct (decide _); [|done]. destruct (exec s c) as [[s1 tx1]|]; [|done].
  destruct (run_ok _ _ s1 cs) as [[[[? ?] ?] tx2]|] eqn:E; [|done]. intros [= -> -> -> <-]. eauto 10.
Qed.

Lemma run_ok_reach S Q s cs S' Q' s' tx :
  sender_reach S Q s → run_ok S Q s cs = Some (S', Q', s', tx) → sender_reach S' Q' s'.
Proof.
  revert S Q s tx. induction cs as [|c cs IH]; intros S Q s tx Hr; [by intros [= <- <- <- _]|].
  intros (s1 & tx1 & tx2 & Hc & He & H & ->)%run_ok_cons. eapply IH; [|done]. by econstructor.
Qed.

Definition is_cancel_queued (c : SenderCall Pkt) : bool :=
  match c with CallCancelQueued _ => true | _ => false end.

(** Unbounded sequence numbers [S+1, S+2, ..., S+n], wrapped. *)
Fixpoint seq_nums (S : Z) (n : nat) : list Z :=
  match n with O => [] | Datatypes.S n => wrap64 (S + 1) :: seq_nums (S + 1) n end.

Lemma exec_seq_nums (S : Z) s c s' tx :
  last_sent s = wrap64 S → exec s c = Ret (s', tx) →
  last_sent s' = wrap64 (S + zlen tx) ∧ map fst tx = seq_nums S (length tx).
Proof.
  intros HS. assert (∀ q : Sender Pkt, last_sent q = last_sent s → last_sent q = wrap64 (S + 0)) as H0
    by (intros q ->; by rewrite Z.add_0_r).
  destruct c as [p|k|k|i|k|i n|k n|k| | |n]; simpl; intros H.
  1: { revert H. unfold enqueue_packet. destruct (_ || _); intros [= <- <-]; simpl; [auto|].
       by rewrite HS, wrap64_idem_l. }
  8: { apply outcome_bind_Ret in H as ([[s1 [sn p]] wk] & E & [= <- <-]). revert E.
       unfold enqueue_next_blocked_packet, assertb. destruct (negb _); [|done].
       destruct (blocked s) as [|[q w l|] b]; [done| |done]. intros [= <- <- <- _]. simpl.
       by rewrite (proj1 (clean_blocked_same _)); simpl; rewrite HS, wrap64_idem_l. }
  8: { injection H as <- <-. split; [|done]. by apply H0. }
  all: apply outcome_bind_Ret in H as (r & E & [= <- <-]); split; [|done]; apply H0.
  - destruct r as [[s1 ?] ?]. by apply process_ack_same in E as (_ & E & _).
  - destruct r as [s1 ?]. by apply process_canceled_same in E as (_ & E & _).
  - destruct r as [[s1 ?] ?]. by apply cancel_queued_same in E as [E _].
  - destruct r as [s1 ?]. by apply cancel_sent_same in E as (_ & E & _).
  - by apply limit_id_same in E as [E _].
  - by apply limit_seq_same in E as (_ & E & _).
  - by apply forget_same in E as (_ & E & _).
  - by apply adjust_Ret in E as ->.
Qed.

Lemma seq_nums_app S n m : seq_nums S (n + m) = seq_nums S n ++ seq_nums (S + Z.of_nat n) m.
Proof.
  revert S. induction n as [|n IH]; intros S; simpl; [by rewrite Z.add_0_r|].
  f_equal. rewrite IH. do 2 f_equal. lia.
Qed.

Lemma run_order S s cs s' tx :
  last_sent s = wrap64 S → run s cs = Ret (s', tx) →
  map fst tx = seq_nums S (length tx) ∧
  map snd tx ++ waiting s' `sublist_of` waiting s ++ enqueued cs ∧
  (forallb (λ c, negb (is_cancel_queued c)) cs = true →
   map snd tx ++ waiting s' = waiting s ++ enqueued cs).
Proof.
  revert S s tx. induction cs as [|c cs IH]; intros S s tx HS H; simpl in H.
  - injection H as <- <-. simpl. unfold enqueued. simpl. by rewrite app_nil_r.
  - apply outcome_bind_Ret in H as ([s1 tx1] & E1 & H).
    apply outcome_bind_Ret in H as ([s2 tx2] & E2 & [= <- <-]). simpl in *.
    destruct (exec_seq_nums S s c s1 tx1 HS E1) as [HS1 Hsn1].
    destruct (IH _ _ _ HS1 E2) as (Hsn2 & Hsub & Heq).
    unfold enqueued in *. simpl. rewrite !map_app, <- app_assoc. split; [|split].
    + rewrite Hsn1, Hsn2, length_app, seq_nums_app. done.
    + etrans; [apply sublist_app; [done|exact Hsub]|]. rewrite !app_assoc.
      apply sublist_app; [|done].
      destruct (exec_order s c s1 tx1 E1) as [->|(i & p & l & l' & -> & -> & -> & ->)]; [done|].
      simpl. rewrite app_nil_r. apply sublist_app; [done|]. by apply sublist_cons.
    + intros [Hc Hcs]%andb_prop. rewrite (Heq Hcs), !app_assoc. f_equal.
      destruct (exec_order s c s1 tx1 E1) as [->|(i & p & l & l' & -> & _)]; done.
Qed.
End runs.

(** ** Retries *)

Section retries.
Context {Pkt : Type}.
Implicit Types (s : Sender Pkt).

Lemma elem_of_filter_map {A B} (f : A → option B) l y :
  y ∈ filter_map f l ↔ ∃ x, x ∈ l ∧ f x = Some y.
Proof.
  induction l as [|x l IH]; simpl.
  - split; [intros []%not_elem_of_nil|intros (? & []%not_elem_of_nil & _)].
  - setoid_rewrite elem_of_cons. destruct (f x) as [z|] eqn:E;
      rewrite ?elem_of_cons, IH; naive_solver.
Qed.

Lemma elem_of_enumerate {A} (l : list A) j i x :
  (i, x) ∈ enumerate_from j l ↔ j <= i ∧ l !! Z.to_nat (i - j) = Some x.
Proof.
  revert j. induction l as [|y l IH]; intros j; simpl.
  - split; [intros []%not_elem_of_nil|by intros [? ?]].
  - rewrite elem_of_cons, IH. destruct (Z.eq_dec i j) as [->|Hne].
    + rewrite Z.sub_diag. simpl. split; [intros [[= ->]|[? _]]; [split; [lia|done]|lia]|].
      intros [_ [= ->]]. by left.
    + split.
      * intros [[= ? ?]|[? Hl]]; [done|]. split; [lia|].
        replace (Z.to_nat (i - j)) with (S (Z.to_nat (i - (j + 1)))) by lia. done.
      * intros [? Hl]. right. split; [lia|].
        by replace (Z.to_nat (i - j)) with (S (Z.to_nat (i - (j + 1)))) in Hl by lia.
Qed.

Lemma retry_sn S Q s k :
  sender_wf S Q s → wrap64 (sn_base s + (k - win_base S s)) = wrap64 k.
Proof.
  intros Hs. unfold sn_base, win_base. rewrite (wf_last_sent _ _ _ _ Hs).
  generalize (zlen (unacked s)). intros n. rewrite wrap64_idem_sub.
  rewrite (wrap64_idem_l (S - n) 1), wrap64_idem_l. f_equal. lia.
Qed.

Lemma window_entries S Q s (f : UnackedState Pkt → option Pkt) sn p :
  sender_wf S Q s →
  (sn, p) ∈ filter_map (λ '(offset, st), option_map (λ p, (wrap64 (sn_base s + offset), p)) (f st))
              (enumerate_from 0 (unacked s)) ↔
  ∃ k st, win_base S s <= k <= S ∧ sn = wrap64 k ∧
          unacked s !! Z.to_nat (k - win_base S s) = Some st ∧ f st = Some p.
Proof.
  intros Hs. rewrite elem_of_filter_map. split.
  - intros ([i st] & [Hi Hl]%elem_of_enumerate & Hf). rewrite Z.sub_0_r in Hl.
    destruct (f st) as [q|] eqn:Hfst; [|done]. injection Hf as <- ->.
    exists (win_base S s + i), st. pose proof (lookup_lt_Some _ _ _ Hl).
    split; [unfold win_base, zlen; lia|]. rewrite <- (retry_sn S Q s (win_base S s + i) Hs).
    replace (win_base S s + i - win_base S s) with i by lia. done.
  - intros (k & st & Hk & -> & Hl & Hf). exists (k - win_base S s, st). split.
    + apply elem_of_enumerate. rewrite Z.sub_0_r. split; [lia|done].
    + rewrite Hf. simpl. by rewrite (retry_sn S Q s k Hs).
Qed.

Lemma retry_packets_iff S Q s sn p :
  sender_wf S Q s →
  (sn, p) ∈ retry_packets s ↔
    ∃ k w l c f, win_base S s <= k <= S ∧ sn = wrap64 k ∧
      unacked s !! Z.to_nat (k - win_base S s) = Some (Unacked p w l c f).
Proof.
  intros Hs. pose proof (window_entries S Q s payload sn p Hs) as He.
  assert (retry_packets s = filter_map (λ '(offset, st),
    option_map (λ p, (wrap64 (sn_base s + offset), p)) (payload st)) (enumerate_from 0 (unacked s))) as ->.
  { unfold retry_packets. generalize (enumerate_from 0 (unacked s)). intros l.
    induction l as [|[i []] l IH]; simpl; by rewrite ?IH. }
  rewrite He. split.
  - intros (k & [q w l c f|w f| |] & ? & ? & ? & ?); simplify_eq/=. eauto 10.
  - intros (k & w & l & c & f & ? & ? & ?). eauto 10.
Qed.

Lemma retry_cancels_iff S Q s sn :
  sender_wf S Q s →
  sn ∈ retry_cancels s ↔
    ∃ k w f, win_base S s <= k <= S ∧ sn = wrap64 k ∧
      unacked s !! Z.to_nat (k - win_base S s) = Some (CancelRequested w f).
Proof.
  intros Hs. unfold retry_cancels. rewrite elem_of_filter_map. split.
  - intros ([i st] & [Hi Hl]%elem_of_enumerate & Hf). rewrite Z.sub_0_r in Hl.
    destruct st as [|w f| |]; simplify_eq. exists (win_base S s + i), w, f.
    pose proof (lookup_lt_Some _ _ _ Hl). split; [unfold win_base, zlen; lia|].
    rewrite <- (retry_sn S Q s (win_base S s + i) Hs).
    by replace (win_base S s + i - win_base S s) with i by lia.
  - intros (k & w & f & Hk & -> & Hl). exists (k - win_base S s, CancelRequested w f). split.
    + apply elem_of_enumerate. rewrite Z.sub_0_r. split; [lia|done].
    + by rewrite (retry_sn S Q s k Hs).
Qed.
End retries.

(** Sizes for packets that are numbers, for the examples. *)
#[global] Instance size_of_nat_entry : SizeOf (UnackedState nat) := 48.

Lemma half_range_index {A} (l : list A) (S : Z) :
  zlen l < I64_MOD →
  let offset := seq_offset (wrap64 (S + I64_MOD)) (wrap64 S) in
  offset = - I64_MOD ∧ (zlen l <=? i64_neg offset) = false ∧
  index l (offset_idx (zlen l) offset) = Panic.
Proof.
  intros Hl. pose proof (zlen_nonneg l) as Hnn.
  assert (seq_offset (wrap64 (S + I64_MOD)) (wrap64 S) = - I64_MOD) as -> by (unfold seq_offset; zmod).
  cbv zeta. split; [done|]. split.
  - apply Z.leb_gt. change (i64_neg (- I64_MOD)) with (- I64_MOD). lia.
  - apply index_out_of_range. unfold offset_idx. revert Hl Hnn. generalize (zlen l). intros n. zmod.
Qed.

Lemma half_range_panics {Pkt} S Q (s : Sender Pkt) :
  sender_wf S Q s → process_ack s (wrap64 (S + I64_MOD)) = Panic ∧ process_canceled s (wrap64 (S + I64_MOD)) = Panic.
Proof.
  intros Hs. destruct (half_range_index (unacked s) S (wf_unacked_len _ _ _ _ Hs)) as (Ho & Hl & Hi).
  unfold process_ack, process_canceled, lookup_ack_index.
  rewrite Ho in Hl, Hi. rewrite (wf_last_sent _ _ _ _ Hs), Ho. change (0 <? - I64_MOD) with false.
  cbv iota. rewrite Hl, Hi. done.
Qed.

(** Every number but one is that of a packet less than 2^63 away. *)
Lemma near_or_half S sn : is_u64 sn → (∃ k, near k S ∧ sn = wrap64 k) ∨ sn = wrap64 (S + I64_MOD).
Proof.
  intros Hsn. destruct (decide (sn = wrap64 (S + I64_MOD))) as [|Hne]; [by right|left].
  exists (S + seq_offset sn (wrap64 S)). unfold near. revert Hne Hsn. unfold seq_offset, is_u64. zmod.
Qed.

(** Two packets are sent; the cancellation of the older is acknowledged. *)
Definition diagram_session : list (SenderCall nat) :=
  [CallAdjust 4; CallEnqueue 7%nat; CallEnqueue 8%nat; CallCancelSent 0; CallCanceled 0; CallAck 1].
Definition after_calls (cs : list (SenderCall nat)) : Sender nat :=
  match run sender_new cs with Ret (s, _) => s | Panic => sender_new end.
Definition diagram_sender : Sender nat := Eval vm_compute in after_calls diagram_session.

Lemma diagram_sender_reach : sender_reach 1 (-1) diagram_sender.
Proof.
  eapply (run_ok_reach (-1) (-1) sender_new diagram_session _ _ _ [(0, 7%nat); (1, 8%nat)]); [apply reach_new|].
  vm_compute. reflexivity.
Qed.

(** ** Properties *)

(** C17: the sender's invariant (queue alignment with the two wrapping counters,
    no acknowledged entry at the head of the window, no canceled entry at the
    head of the blocked queue, ordered [sent] queue inside the window) holds after
    every run of calls that respect their contract ([call_ok]), for sessions of
    any length; no such call panics.  An acknowledgement or cancellation
    acknowledgement, whose number the peer chooses, is outside the contract, and
    panics, for exactly one number: the one 2^63 from the last sequence number. *)
Theorem sender_invariant {Pkt} `{!SizeOf (UnackedState Pkt)} (S Q : Z) (s : Sender Pkt) :
  sender_reach S Q s →
  sender_wf S Q s ∧
  (∀ c, call_ok S Q s c → ∃ s' tx, exec s c = Ret (s', tx)) ∧
  (∀ sn, is_u64 sn → (process_ack s sn = Panic ↔ sn = wrap64 (S + I64_MOD)) ∧
                     (process_canceled s sn = Panic ↔ sn = wrap64 (S + I64_MOD))).
Proof.
  intros Hr%reach_wf. split_and!; [done| |].
  - intros c Hc. destruct (exec_wf S Q s c Hr Hc) as (s' & tx & ? & _). eauto.
  - intros sn Hsn. destruct (half_range_panics S Q s Hr) as [H1 H2].
    destruct (decide (sn = wrap64 (S + I64_MOD))) as [->|Hne]; [done|].
    destruct (near_or_half S sn Hsn) as [(k & Hk & ->)|?]; [|done].
    destruct (process_ack_cases S Q s k Hr Hk) as (? & ? & ? & -> & _).
    by destruct (process_canceled_cases S Q s k Hr Hk) as (? & ? & -> & _).
Qed.

Lemma sender_invariant_witness :
  sender_wf 1 (-1) diagram_sender ∧
  (∀ c, call_ok 1 (-1) diagram_sender c → ∃ s' tx, exec diagram_sender c = Ret (s', tx)) ∧
  (∀ sn, is_u64 sn → (process_ack diagram_sender sn = Panic ↔ sn = wrap64 (1 + I64_MOD)) ∧
                     (process_canceled diagram_sender sn = Panic ↔ sn = wrap64 (1 + I64_MOD))).
Proof. apply (sender_invariant 1 (-1) diagram_sender). apply diagram_sender_reach. Defined.

(** C18: the life of every packet already sent: a call moves the packet it names,
    and no other, as the events of the state diagram say (ACK, CANCEL, CANCEL_ACK,
    FORGET; the timer cancels exactly the packets whose retries are used up), and
    afterwards precisely the packets up to the first one that is not ACKED are
    FORGOTTEN.  Where the diagram takes a forgotten cancellation to FORGOTTEN, the
    code takes it to ACKED ([diagram]). *)
Theorem sent_packets_follow_diagram {Pkt} `{!SizeOf (UnackedState Pkt)} (S Q : Z) (s s' : Sender Pkt) c tx k :
  sender_reach S Q s → call_ok S Q s c → exec s c = Ret (s', tx) → k <= S →
  ∃ y, sent_state (S + sends s c) s' k = Some y ∧
    (y = FORGOTTEN ↔ ∀ j, j <= k → next_state S s c j = ACKED ∨ next_state S s c j = FORGOTTEN) ∧
    (y ≠ FORGOTTEN → y = next_state S s c k).
Proof.
  intros Hr%reach_wf Hc He Hk. destruct (exec_wf S Q s c Hr Hc) as (s1 & tx1 & He1 & Hwf).
  rewrite He in He1. injection He1 as <- <-. apply win_step_exact; [|apply Hwf|done].
  replace (S + sends s c - S) with (sends s c) by lia. by eapply exec_win_step.
Qed.

Lemma sent_packets_follow_diagram_witness :
  let s := diagram_sender in
  sent_state 1 s 0 = Some CANCEL_ACKED ∧ sent_state 1 s 1 = Some ACKED ∧
  ∃ s', exec s (CallForget 0) = Ret (s', []) ∧
  ∃ y, sent_state (1 + sends s (CallForget 0)) s' 1 = Some y ∧
    (y = FORGOTTEN ↔ ∀ j, j <= 1 → next_state 1 s (CallForget 0) j = ACKED ∨ next_state 1 s (CallForget 0) j = FORGOTTEN) ∧
    (y ≠ FORGOTTEN → y = next_state 1 s (CallForget 0) 1).
Proof.
  intros s. split; [reflexivity|]. split; [reflexivity|].
  eexists. split; [vm_compute; reflexivity|].
  eapply (sent_packets_follow_diagram 1 (-1) s _ (CallForget 0));
    [apply diagram_sender_reach|simpl; unfold near; lia|vm_compute; reflexivity|lia].
Defined.

(** A cancellation that is forgotten while an older packet is outstanding stays in
    the window, as [ACKED]; the diagram has it [FORGOTTEN]. *)
Theorem forgotten_stays_in_window :
  let cs := [CallAdjust 4; CallEnqueue 7%nat; CallEnqueue 8%nat; CallCancelSent 1; CallCanceled 1] in
  sent_state 1 (after_calls cs) 1 = Some CANCEL_ACKED ∧
  sent_state 1 (after_calls (cs ++ [CallForget 1])) 1 = Some ACKED ∧
  zlen (unacked (after_calls (cs ++ [CallForget 1]))) = 2.
Proof. vm_compute. done. Qed.

(** flow control: a call that transmits leaves at most [window_size]
    packets outstanding, and no call enlarges a window beyond the larger of its
    previous extent and [window_size]. *)
Theorem sender_window_bound {Pkt} `{!SizeOf (UnackedState Pkt)} (S Q : Z) (s s' : Sender Pkt) c tx :
  sender_reach S Q s → call_ok S Q s c → exec s c = Ret (s', tx) →
  (0 < sends s c → zlen (unacked s') <= s_window_size s) ∧
  zlen (unacked s') <= Z.max (zlen (unacked s)) (s_window_size s).
Proof.
  intros Hr Hc He. pose proof (exec_win_step S Q s c s' tx (reach_wf _ _ _ Hr) Hc He)
    as (v & n & extra & [Hf _] & _ & Hn & Hu & Hex).
  assert (zlen (unacked s') <= zlen (unacked s) + sends s c) as Hlen.
  { rewrite Hu, zlen_app, Hex. unfold zlen. rewrite length_drop. lia. }
  assert (0 < sends s c → zlen (unacked s) < s_window_size s) as Hb.
  { destruct c; simpl in *; try lia; unfold unblock_needed, is_blocked in *;
      destruct (Z.leb_spec (s_window_size s) (zlen (unacked s))); simpl in *; try lia; naive_solver. }
  assert (0 <= sends s c <= 1) as Hs1.
  { destruct c; simpl; try lia. destruct (_ || _); lia. }
  destruct (Z.eq_dec (sends s c) 0) as [Hz|]; split; intros; lia || (specialize (Hb ltac:(lia)); lia).
Qed.

Lemma sender_window_bound_witness :
  ∃ s', exec (@sender_new nat) (CallEnqueue 7%nat) = Ret (s', [(0, 7%nat)]) ∧
    (0 < sends (@sender_new nat) (CallEnqueue 7%nat) → zlen (unacked s') <= s_window_size (@sender_new nat)) ∧
    zlen (unacked s') <= Z.max (zlen (unacked (@sender_new nat))) (s_window_size (@sender_new nat)).
Proof.
  eexists. split; [reflexivity|].
  eapply (sender_window_bound (-1) (-1) sender_new _ (CallEnqueue 7%nat));
    [apply reach_new|split; simpl; unfold zlen; simpl; lia|reflexivity].
Defined.

(** [retry_packets] and [retry_cancels] return exactly the packets of the
    window that are unacknowledged, respectively awaiting cancellation, each
    with the sequence number it was sent with; and no retry timer is needed
    exactly when both are empty. *)
Theorem retries_exact {Pkt} `{!SizeOf (UnackedState Pkt)} (S Q : Z) (s : Sender Pkt) (sn : Z) (p : Pkt) :
  sender_reach S Q s →
  ((sn, p) ∈ retry_packets s ↔
     ∃ k w l c f, win_base S s <= k <= S ∧ sn = wrap64 k ∧
       unacked s !! Z.to_nat (k - win_base S s) = Some (Unacked p w l c f)) ∧
  (sn ∈ retry_cancels s ↔
     ∃ k w f, win_base S s <= k <= S ∧ sn = wrap64 k ∧
       unacked s !! Z.to_nat (k - win_base S s) = Some (CancelRequested w f)) ∧
  (retry_needed s = false ↔ retry_packets s = [] ∧ retry_cancels s = []).
Proof.
  intros Hs%reach_wf. split; [|split].
  - apply (retry_packets_iff S Q s sn p Hs).
  - apply (retry_cancels_iff S Q s sn Hs).
  - unfold retry_needed, retry_packets, retry_cancels. generalize (sn_base s) as b.
    generalize 0 as j. induction (unacked s) as [|[] u IH]; intros j b; simpl; try naive_solver.
Qed.

Lemma retries_exact_witness :
  ∃ s, exec (@sender_new nat) (CallEnqueue 7%nat) = Ret (s, [(0, 7%nat)]) ∧
  ((0, 7%nat) ∈ retry_packets s ↔
     ∃ k w l c f, win_base 0 s <= k <= 0 ∧ 0 = wrap64 k ∧
       unacked s !! Z.to_nat (k - win_base 0 s) = Some (Unacked 7%nat w l c f)) ∧
  (0 ∈ retry_cancels s ↔
     ∃ k w f, win_base 0 s <= k <= 0 ∧ 0 = wrap64 k ∧
       unacked s !! Z.to_nat (k - win_base 0 s) = Some (CancelRequested w f)) ∧
  (retry_needed s = false ↔ retry_packets s = [] ∧ retry_cancels s = []).
Proof.
  eexists. split; [reflexivity|]. eapply (retries_exact 0 (-1)).
  apply (reach_call (-1) (-1) sender_new (CallEnqueue 7%nat) _ [(0, 7%nat)]);
    [apply reach_new|split; simpl; unfold zlen; simpl; lia|reflexivity].
Defined.

(** Ageing a packet [n] times. *)
Definition age_times {Pkt} (n : nat) (st : UnackedState Pkt) : UnackedState Pkt :=
  Nat.iter n (λ st, (unacked_age_retries st).2) st.

Lemma age_times_below {Pkt} (p : Pkt) w l f n :
  (Z.of_nat n <= l) → l <= U8_MAX →
  age_times n (Unacked p w (Some l) 0 f) = Unacked p w (Some l) (Z.of_nat n) f.
Proof.
  intros Hn Hl. unfold age_times, U8_MAX in *. induction n as [|n IH]; [done|].
  rewrite Nat.iter_succ, IH by lia. simpl. destruct (Z.leb_spec l (Z.of_nat n)); [lia|].
  simpl. f_equal. unfold U8_MAX. lia.
Qed.

(** a retry limit of [l] set on a fresh packet allows exactly [l] retries:
    after each of the first [l] agings it is still retried, and the next one
    returns it to the caller and turns it into a cancellation request. *)
Theorem retry_limit_exact {Pkt} (p : Pkt) w l f n :
  0 <= l <= U8_MAX → Z.of_nat n <= l →
  age_times n (unacked_limit_retries l (Unacked p w None 0 f)) = Unacked p w (Some l) (Z.of_nat n) f ∧
  unacked_age_retries (age_times (Z.to_nat l) (unacked_limit_retries l (Unacked p w None 0 f))) =
    (Some p, CancelRequested w f).
Proof.
  intros Hl Hn. simpl. unfold min_limit. simpl. rewrite Z.min_l by lia.
  rewrite !age_times_below by lia. split; [done|]. simpl.
  destruct (Z.leb_spec l (Z.of_nat (Z.to_nat l))); [done|lia].
Qed.

Lemma retry_limit_exact_witness :
  age_times 3 (unacked_limit_retries 5 (Unacked 7%nat NoopWaker None 0 false)) =
    Unacked 7%nat NoopWaker (Some 5) 3 false ∧
  unacked_age_retries (age_times (Z.to_nat 5) (unacked_limit_retries 5 (Unacked 7%nat NoopWaker None 0 false))) =
    (Some 7%nat, CancelRequested NoopWaker false).
Proof. apply (retry_limit_exact 7%nat NoopWaker 5 false 3); unfold U8_MAX; lia. Defined.

(** An acknowledgement (or cancellation acknowledgement) whose sequence
    number lies exactly 2^63 from the last one sent is not rejected as too old
    or too new: the negated offset overflows and the window lookup panics, in
    every reachable state.  The sequence number comes from the peer. *)
Theorem half_range_ack_panics {Pkt} `{!SizeOf (UnackedState Pkt)} (S Q : Z) (s : Sender Pkt) :
  sender_reach S Q s →
  process_ack s (wrap64 (S + I64_MOD)) = Panic ∧
  process_canceled s (wrap64 (S + I64_MOD)) = Panic.
Proof.
  intros Hs%reach_wf. by eapply half_range_panics.
Qed.

Lemma half_range_ack_panics_witness :
  process_ack (@sender_new nat) (wrap64 (-1 + I64_MOD)) = Panic ∧
  process_canceled (@sender_new nat) (wrap64 (-1 + I64_MOD)) = Panic.
Proof. apply (half_range_ack_panics (-1) (-1) sender_new). apply reach_new. Defined.

(** A session in which the only outstanding packet is canceled remotely while
    another one is queued. *)
Definition cancel_session : list (SenderCall nat) :=
  [CallEnqueue 10%nat; CallEnqueue 11%nat; CallCancelSent 0; CallCanceled 0].

(** [enqueue_packet] does not always leave a retry timer needed: with a
    remotely canceled, not yet forgotten packet filling the window, a further
    packet is queued and [retry_needed] is false. *)
Theorem enqueue_without_retry :
  ∃ s tx, run sender_new cancel_session = Ret (s, tx) ∧
    ∀ p, retry_needed (enqueue_packet s p).1 = false ∧ ∃ id, (enqueue_packet s p).2 = Queued id.
Proof. eexists _, _. split; [vm_compute; reflexivity|]. intros p. split; [reflexivity|]. by eexists. Qed.

(** [forget_canceled_packet] can open the window without anything sending
    the blocked packets: no retry timer is needed, no acknowledgement can make
    progress any more, and every further packet is queued behind the stalled
    one, although [unblock_needed] holds. *)
Theorem forget_stalls_blocked_packets :
  ∃ s tx, run sender_new (cancel_session ++ [CallForget 0]) = Ret (s, tx) ∧
    unblock_needed s = true ∧ retry_needed s = false ∧ waiting s = [11%nat] ∧
    (∀ p, ∃ s' id, enqueue_packet s p = (s', Queued id)) ∧
    (∀ k, -1 <= k <= 0 → exec s (CallAck k) = Ret (send_count s TooOldAck, []) ∧
          exec s (CallCanceled k) = Ret (send_count s TooOldAck, [])).
Proof.
  eexists _, _. split; [vm_compute; reflexivity|]. split_and!; try reflexivity.
  - intros p. eexists _, _. reflexivity.
  - intros k Hk. assert (k = -1 ∨ k = 0) as [-> | ->] by lia; split; reflexivity.
Qed.
