(* ===== verification/ZdprOrder.v ===== *)
(** What becomes of the packets given to a [Sender] ([src/adapter/ph/src/zdpr.rs]): a
    specification that follows every packet by its fate, and that the sender
    implements it. *)
From S2P Require Import Prelude ZdprSender.

Section fates.
Context {Pkt : Type} `{!SizeOf (UnackedState Pkt)}.
Implicit Types (s : Sender Pkt) (b : list (BlockedState Pkt)) (i S Q : Z).

(** ** The specification *)

(** The fate of a packet: sent, waiting under an identifier, or canceled before
    it was sent. *)
Inductive Fate : Type := FateSent | FateWaiting (id : Z) | FateCanceled.

(** The packets in the order they were enqueued, with their fates. *)
Definition Log : Type := list (Pkt * Fate).

Definition is_waiting (e : Pkt * Fate) : bool := if e.2 is FateWaiting _ then true else false.
Definition is_sent_fate (e : Pkt * Fate) : bool := if e.2 is FateSent then true else false.

Definition log_sent (l : Log) : list Pkt := filter_map (λ e, if e.2 is FateSent then Some e.1 else None) l.
Definition log_waiting (l : Log) : list (Z * Pkt) :=
  filter_map (λ e, if e.2 is FateWaiting i then Some (i, e.1) else None) l.

Definition cancel_fate i (e : Pkt * Fate) : Pkt * Fate :=
  if e.2 is FateWaiting j then (if decide (j = i) then (e.1, FateCanceled) else e) else e.

Definition keeps_fates (c : SenderCall Pkt) : bool :=
  match c with CallEnqueue _ | CallCancelQueued _ | CallNextBlocked => false | _ => true end.

(** The log and the next identifier.  A packet is sent at once only if none
    waits; the oldest of those that wait is sent next; a cancellation concerns the
    packet with that identifier, if it still waits, and no other. *)
Inductive fate_step : Log * Z → SenderCall Pkt → Log * Z → Prop :=
| fate_send l n p : Forall (λ e, is_waiting e = false) l →
    fate_step (l, n) (CallEnqueue p) (l ++ [(p, FateSent)], n)
| fate_queue l n p : fate_step (l, n) (CallEnqueue p) (l ++ [(p, FateWaiting n)], n + 1)
| fate_next pre p i post n : Forall (λ e, is_waiting e = false) pre →
    fate_step (pre ++ (p, FateWaiting i) :: post, n) CallNextBlocked (pre ++ (p, FateSent) :: post, n)
| fate_cancel l n i : fate_step (l, n) (CallCancelQueued i) (cancel_fate i <$> l, n)
| fate_other l n c : keeps_fates c = true → fate_step (l, n) c (l, n).

Inductive fates : Log * Z → list (SenderCall Pkt) → Log * Z → Prop :=
| fates_nil x : fates x [] x
| fates_cons x c y cs z : fate_step x c y → fates y cs z → fates x (c :: cs) z.

(** ** The sender's queue with its identifiers *)

Fixpoint ids_from i b : list (Z * Pkt) :=
  match b with
  | [] => []
  | Blocked p _ _ :: b => (i, p) :: ids_from (i + 1) b
  | Canceled :: b => ids_from (i + 1) b
  end.

Definition waiting_ids Q s : list (Z * Pkt) := ids_from (Q + 1 - zlen (blocked s)) (blocked s).

Lemma ids_from_app i b b' : ids_from i (b ++ b') = ids_from i b ++ ids_from (i + zlen b) b'.
Proof.
  revert i. induction b as [|[p w l|] b IH]; intros i; simpl; [by rewrite Z.add_0_r|..];
    rewrite IH, zlen_cons; by replace (i + 1 + zlen b) with (i + (zlen b + 1)) by lia.
Qed.

Lemma ids_from_replicate i n : ids_from i (replicate n Canceled) = [].
Proof. revert i. induction n; intros i; simpl; auto. Qed.

Lemma ids_from_keep i j b : j < i → filter (λ x : Z * Pkt, x.1 ≠ j) (ids_from i b) = ids_from i b.
Proof.
  revert i. induction b as [|[p w l|] b IH]; intros i Hj; simpl; [done| |apply IH; lia].
  rewrite filter_cons_True by (simpl; lia). f_equal. apply IH. lia.
Qed.

(** Canceling an entry takes its identifier out, and nothing else. *)
Lemma ids_from_cancel i (n : nat) b x :
  b !! n = Some x → ids_from i (<[n := Canceled]> b) = filter (λ x : Z * Pkt, x.1 ≠ i + Z.of_nat n) (ids_from i b).
Proof.
  revert i n. induction b as [|y b IH]; intros i [|n] Hl; simplify_eq/=.
  - rewrite Z.add_0_r. destruct x as [p w l|]; simpl.
    + rewrite filter_cons_False by (simpl; lia). rewrite ids_from_keep by lia. done.
    + by rewrite ids_from_keep by lia.
  - replace (i + Z.of_nat (Datatypes.S n)) with (i + 1 + Z.of_nat n) by lia.
    destruct y as [p w l|]; rewrite (IH (i + 1) n Hl); [|done]. by rewrite filter_cons_True by (simpl; lia).
Qed.

Lemma ids_from_same i (n : nat) b x y :
  b !! n = Some x → blocked_packet y = blocked_packet x → ids_from i (<[n := y]> b) = ids_from i b.
Proof.
  revert i n. induction b as [|z b IH]; intros i [|n] Hl Hy; simplify_eq/=.
  - by destruct x, y; simplify_eq/=.
  - by destruct z; rewrite (IH _ _ Hl Hy).
Qed.

Lemma clean_waiting_ids Q s : waiting_ids Q (clean_blocked_queue s) = waiting_ids Q s.
Proof.
  unfold waiting_ids, clean_blocked_queue.
  destruct (clean_blocked_loop_spec (blocked s) (sent s)) as (n & -> & Ht & Hn & _). simpl.
  rewrite <- (take_drop n (blocked s)) at 3 4. rewrite ids_from_app, Ht, ids_from_replicate. simpl.
  f_equal. rewrite zlen_app. unfold zlen. rewrite length_drop, length_replicate. lia.
Qed.

Lemma waiting_ids_nil Q s : waiting_ids Q s = [] → not_canceled_head (blocked s) → blocked s = [].
Proof. unfold waiting_ids. by destruct (blocked s) as [|[] ?]. Qed.

Lemma cancel_queued_ids S Q s i s' p wk :
  sender_wf S Q s → near i Q → i <= Q → cancel_queued_packet s (wrap64 i) = Ret (s', p, wk) →
  waiting_ids Q s' = filter (λ x, x.1 ≠ i) (waiting_ids Q s).
Proof.
  intros Hs Hi Hle. unfold cancel_queued_packet.
  destruct (queued_window S Q s i Hs Hi) as [Hwin Hoff]. revert Hwin. rewrite Hoff. intros Hwin.
  destruct Hwin as [Hf _ _|Hp _ -> ->|x Hx _ -> -> -> Hix Hl]; simpl; [lia| |].
  - intros [= <- <- <-]. unfold waiting_ids. by rewrite ids_from_keep by lia.
  - set (idx := zlen (blocked s) + (i - Q) - 1) in *. unfold update_at. rewrite Hix. simpl.
    assert (waiting_ids Q (set_blocked s (<[Z.to_nat idx := Canceled]> (blocked s))) =
            filter (λ x, x.1 ≠ i) (waiting_ids Q s)) as Hids.
    { unfold waiting_ids. simpl. rewrite zlen_insert, (ids_from_cancel _ _ _ _ Hl).
      replace (Q + 1 - zlen (blocked s) + Z.of_nat (Z.to_nat idx)) with i by lia. done. }
    destruct x as [q w l|]; simpl; intros [= <- <- <-]; [|done].
    destruct (idx =? 0); [by rewrite clean_waiting_ids|done].
Qed.

Lemma limit_id_ids Q s i n s' : limit_retries_by_id s i n = Ret s' → waiting_ids Q s' = waiting_ids Q s.
Proof.
  unfold limit_retries_by_id, assertb, waiting_ids. destruct (_ <=? 0); [|done].
  destruct (_ <=? i64_neg _).
  - destruct (lookup_seq_num s i) as [[sn|]|]; simpl; [|by intros [= <-]|done].
    intros [E _]%limit_seq_same. by rewrite E.
  - unfold update_at. destruct (index _ _) as [x|] eqn:E; simpl; [|done]. intros [= <-]. simpl.
    apply index_Ret in E as [_ E]. rewrite zlen_insert. apply (ids_from_same _ _ _ _ _ E). by destruct x.
Qed.

Lemma other_ids Q s c s' tx :
  keeps_fates c = true → exec s c = Ret (s', tx) → waiting_ids Q s' = waiting_ids Q s ∧ tx = [].
Proof.
  assert (∀ q, same_queue s q → waiting_ids Q q = waiting_ids Q s) as Hsame.
  { intros q [E _]. unfold waiting_ids. by rewrite E. }
  destruct c as [p|k|k|i|k|i n|k n|k| | |n]; simpl; intros Hk H; try done;
    try (apply outcome_bind_Ret in H as (r & E & [= <- <-]); (split; [|done])).
  - destruct r as [[s1 ?] ?]. eapply Hsame, process_ack_same, E.
  - destruct r as [s1 ?]. eapply Hsame, process_canceled_same, E.
  - destruct r as [s1 ?]. eapply Hsame, cancel_sent_same, E.
  - eapply limit_id_ids, E.
  - eapply Hsame, limit_seq_same, E.
  - eapply Hsame, forget_same, E.
  - by injection H as <- <-.
  - by apply adjust_Ret in E as ->.
Qed.

(** ** The sender implements the specification *)

(** The log is that of [s]: what waits is the queue, and the packets that were
    sent or canceled come before those that wait, but for canceled ones. *)
Record log_ok Q s (l : Log) : Prop := {
  lo_waiting : log_waiting l = waiting_ids Q s;
  lo_order : ∃ a w, l = a ++ w ∧ Forall (λ e, is_waiting e = false) a ∧ Forall (λ e, is_sent_fate e = false) w;
}.

Lemma log_waiting_none (l : Log) : log_waiting l = [] → Forall (λ e, is_waiting e = false) l.
Proof. induction l as [|[p []] l IH]; simpl; intros; try done; constructor; auto. Qed.

Lemma log_sent_none (l : Log) : Forall (λ e, is_sent_fate e = false) l → log_sent l = [].
Proof. induction 1 as [|[p []] l ? _ IH]; simpl in *; auto; done. Qed.

Lemma cancel_log_waiting i (l : Log) : log_waiting (cancel_fate i <$> l) = filter (λ x, x.1 ≠ i) (log_waiting l).
Proof.
  induction l as [|[p [|j|]] l IH]; [done|exact IH| |exact IH].
  change (log_waiting ((p, FateWaiting j) :: l)) with ((j, p) :: log_waiting l).
  rewrite filter_cons, <- IH. cbn [fmap list_fmap]. unfold cancel_fate at 1. cbn [fst snd].
  destruct (decide (j = i)) as [->|Hne].
  - by rewrite decide_False by auto.
  - by rewrite decide_True by done.
Qed.

Lemma cancel_log_sent i (l : Log) : log_sent (cancel_fate i <$> l) = log_sent l.
Proof.
  induction l as [|[p [|j|]] l IH]; [done|by apply (f_equal (cons p))| |exact IH].
  cbn [fmap list_fmap]. unfold cancel_fate at 1. cbn [fst snd]. by destruct (decide (j = i)).
Qed.

Lemma cancel_fate_packet i (l : Log) : (cancel_fate i <$> l).*1 = l.*1.
Proof.
  rewrite <- list_fmap_compose. apply list_fmap_ext. intros _ [p [|j|]] _; simpl; try done.
  unfold cancel_fate. simpl. by destruct (decide (j = i)).
Qed.

Lemma log_first_waiting Q s (l : Log) i p rest :
  log_ok Q s l → waiting_ids Q s = (i, p) :: rest →
  ∃ pre post, l = pre ++ (p, FateWaiting i) :: post ∧ Forall (λ e, is_waiting e = false) pre ∧
    Forall (λ e, is_sent_fate e = false) post ∧ log_waiting post = rest.
Proof.
  intros [Hw (a & w & -> & Ha & Hp)] Hq. rewrite Hq in Hw.
  assert (log_waiting (a ++ w) = log_waiting w) as Ea.
  { unfold log_waiting. rewrite filter_map_app, (filter_map_none _ a); [done|].
    revert Ha. apply Forall_impl. by intros [? []]. }
  rewrite Ea in Hw. clear Ea Hq. revert a Ha. induction w as [|[q [|j|]] w IH]; intros a Ha; simpl in Hw; [done|..].
  - by apply Forall_inv in Hp.
  - injection Hw as <- <- Hw. apply Forall_inv_tail in Hp. by exists a, w.
  - apply Forall_inv_tail in Hp. destruct (IH Hw Hp (a ++ [(q, FateCanceled)])) as (pre & post & E & ?).
    { apply Forall_app. split; [done|]. by constructor. }
    exists pre, post. rewrite <- E, <- app_assoc. done.
Qed.

Lemma log_sent_app (l l' : Log) : log_sent (l ++ l') = log_sent l ++ log_sent l'.
Proof. apply filter_map_app. Qed.

Lemma log_waiting_app (l l' : Log) : log_waiting (l ++ l') = log_waiting l ++ log_waiting l'.
Proof. apply filter_map_app. Qed.

Lemma enqueue_fate Q s p s' tx (l : Log) :
  exec s (CallEnqueue p) = Ret (s', tx) → not_canceled_head (blocked s) → log_ok Q s l →
  ∃ l', fate_step (l, Q + 1) (CallEnqueue p) (l', Q + queues s (CallEnqueue p) + 1) ∧
    log_ok (Q + queues s (CallEnqueue p)) s' l' ∧ log_sent l' = log_sent l ++ tx.*2 ∧ l'.*1 = l.*1 ++ [p].
Proof.
  intros He Hh [Hw (a & w & -> & Ha & Hp)]. simpl in *. revert He. unfold enqueue_packet.
  destruct (is_blocked s || has_blocked_packets s) eqn:E; intros [= <- <-]; simpl.
  - exists ((a ++ w) ++ [(p, FateWaiting (Q + 1))]). split; [constructor|]. split; [split|].
    + rewrite log_waiting_app, Hw. unfold waiting_ids. simpl. rewrite ids_from_app, zlen_app. simpl.
      replace (Q + 1 + 1 - (zlen (blocked s) + zlen [Blocked p NoopWaker None])) with (Q + 1 - zlen (blocked s))
        by (unfold zlen; simpl; lia).
      by replace (Q + 1 - zlen (blocked s) + zlen (blocked s)) with (Q + 1) by lia.
    + exists a, (w ++ [(p, FateWaiting (Q + 1))]). rewrite app_assoc. split_and!; [done|done|].
      apply Forall_app. split; [done|]. by constructor.
    + rewrite log_sent_app. simpl. by rewrite fmap_app.
  - apply orb_false_iff in E as [_ Hb]. unfold has_blocked_packets in Hb.
    assert (blocked s = []) as Eb by (by destruct (blocked s)).
    assert (Forall (λ e, is_waiting e = false) (a ++ w)) as Hnone.
    { apply log_waiting_none. rewrite Hw. unfold waiting_ids. by rewrite Eb. }
    rewrite Z.add_0_r. exists ((a ++ w) ++ [(p, FateSent)]). split; [by constructor|]. split; [split|].
    + rewrite log_waiting_app, Hw. unfold waiting_ids. simpl. by rewrite app_nil_r.
    + exists ((a ++ w) ++ [(p, FateSent)]), []. rewrite app_nil_r. split_and!; [done| |constructor].
      apply Forall_app. split; [done|]. by constructor.
    + rewrite log_sent_app. simpl. by rewrite fmap_app.
Qed.

Lemma next_fate S Q s s' tx (l : Log) :
  sender_wf S Q s → call_ok S Q s CallNextBlocked → exec s CallNextBlocked = Ret (s', tx) → log_ok Q s l →
  ∃ l', fate_step (l, Q + 1) CallNextBlocked (l', Q + 1) ∧ log_ok Q s' l' ∧
    log_sent l' = log_sent l ++ tx.*2 ∧ l'.*1 = l.*1.
Proof.
  intros Hs [Hu Hl] He Hlog. simpl in He. apply outcome_bind_Ret in He as ([[s1 [sn p]] wk] & E & [= <- <-]).
  revert E. unfold enqueue_next_blocked_packet, assertb. destruct (negb _); [|done].
  destruct (blocked s) as [|[q w lim|] b] eqn:Hb; [done| |done]. intros [= <- <- <- <-]. simpl.
  destruct (log_first_waiting Q s l (Q + 1 - zlen (blocked s)) q (ids_from (Q + 1 - zlen b) b) Hlog)
    as (pre & post & -> & Hpre & Hpost & Hrest).
  { unfold waiting_ids. rewrite Hb. simpl. rewrite zlen_cons. do 2 f_equal. lia. }
  exists (pre ++ (q, FateSent) :: post). split; [by constructor|]. split; [split|].
  - rewrite clean_waiting_ids. unfold waiting_ids. simpl. rewrite log_waiting_app.
    change (log_waiting ((q, FateSent) :: post)) with (log_waiting post). rewrite Hrest.
    unfold log_waiting. rewrite (filter_map_none _ pre); [done|]. revert Hpre. apply Forall_impl. by intros [? []].
  - exists (pre ++ [(q, FateSent)]), post. rewrite <- app_assoc. split_and!; [done| |done].
    apply Forall_app. split; [done|]. by constructor.
  - rewrite !log_sent_app, !fmap_app. split; [|done].
    change (log_sent ((q, FateSent) :: post)) with (q :: log_sent post).
    change (log_sent ((q, FateWaiting (Q + 1 - zlen (blocked s))) :: post)) with (log_sent post).
    by rewrite (log_sent_none post Hpost), app_nil_r.
Qed.

Lemma exec_fate S Q s c s' tx (l : Log) :
  sender_wf S Q s → call_ok S Q s c → exec s c = Ret (s', tx) → log_ok Q s l →
  ∃ l', fate_step (l, Q + 1) c (l', Q + queues s c + 1) ∧ log_ok (Q + queues s c) s' l' ∧
    log_sent l' = log_sent l ++ tx.*2 ∧ l'.*1 = l.*1 ++ new_packets c.
Proof.
  intros Hs Hc He Hlog. destruct (keeps_fates c) eqn:Hk.
  { destruct (other_ids Q s c s' tx Hk He) as [Hids ->]. exists l. rewrite app_nil_r.
    assert (queues s c = 0 ∧ new_packets c = []) as [-> ->] by (by destruct c).
    rewrite Z.add_0_r, app_nil_r. split_and!; [by constructor| |done..].
    destruct Hlog as [Hw Ho]. split; [by rewrite Hids|done]. }
  destruct c as [p| | |i| | | | | | |]; try discriminate Hk.
  - by apply enqueue_fate; [|apply Hs|].
  - destruct Hc as [Hi Hle]. simpl in He. apply outcome_bind_Ret in He as ([[s1 q] wk] & E & [= <- <-]).
    simpl. rewrite Z.add_0_r, !app_nil_r. exists (cancel_fate i <$> l). split; [constructor|].
    rewrite cancel_log_sent, cancel_fate_packet. split; [|done]. destruct Hlog as [Hw (a & w & -> & Ha & Hp)]. split.
    + by rewrite cancel_log_waiting, Hw, (cancel_queued_ids S Q s i s1 q wk Hs Hi Hle E).
    + exists (cancel_fate i <$> a), (cancel_fate i <$> w). rewrite fmap_app. split_and!; [done|..].
      * apply Forall_fmap. revert Ha. apply Forall_impl. by intros [? []].
      * apply Forall_fmap. revert Hp. apply Forall_impl. intros [? [|j|]]; simpl; try done.
        unfold cancel_fate. simpl. by destruct (decide (j = i)).
  - destruct (next_fate S Q s s' tx l Hs Hc He Hlog) as (l' & ? & ? & ? & ?). exists l'. simpl.
    by rewrite Z.add_0_r, app_nil_r.
Qed.

Lemma run_fate S Q s cs S' Q' s' tx (l : Log) :
  sender_reach S Q s → run_ok S Q s cs = Some (S', Q', s', tx) → log_ok Q s l →
  ∃ l', fates (l, Q + 1) cs (l', Q' + 1) ∧ log_ok Q' s' l' ∧ log_sent l' = log_sent l ++ tx.*2 ∧
    l'.*1 = l.*1 ++ enqueued cs.
Proof.
  revert S Q s tx l. induction cs as [|c cs IH]; intros S Q s tx l Hr.
  { intros [= <- <- <- <-] Hl. exists l. rewrite !app_nil_r. split; [constructor|done]. }
  intros (s1 & tx1 & tx2 & Hc & He & Hrun & ->)%run_ok_cons Hl.
  destruct (exec_fate S Q s c s1 tx1 l (reach_wf _ _ _ Hr) Hc He Hl) as (l1 & Hf & Hl1 & Hs1 & Hp1).
  destruct (IH _ _ _ _ l1 (reach_call _ _ _ _ _ _ Hr Hc He) Hrun Hl1) as (l2 & Hf2 & Hl2 & Hs2 & Hp2).
  exists l2. split; [by econstructor|]. split; [done|]. unfold enqueued in *. simpl.
  rewrite Hs2, Hp2, Hs1, Hp1, fmap_app, !app_assoc. done.
Qed.

Lemma run_ok_run S Q s cs S' Q' s' tx :
  run_ok S Q s cs = Some (S', Q', s', tx) → run s cs = Ret (s', tx) ∧ S' = S + zlen tx.
Proof.
  revert S Q s tx. induction cs as [|c cs IH]; intros S Q s tx.
  { intros [= <- <- <- <-]. split; [done|]. unfold zlen. simpl. lia. }
  intros (s1 & tx1 & tx2 & Hc & He & [Hrun ->]%IH & ->)%run_ok_cons. simpl. rewrite He. simpl. rewrite Hrun. simpl.
  split; [done|]. rewrite zlen_app. assert (zlen tx1 = sends s c); [|lia].
  destruct (keeps_fates c) eqn:Hk; [destruct (other_ids 0 s c s1 tx1 Hk He) as [_ ->]; by destruct c|].
  destruct c; try discriminate Hk; simpl in *.
  - revert He. unfold enqueue_packet. by destruct (_ || _); intros [= <- <-].
  - by apply outcome_bind_Ret in He as (r & _ & [= _ <-]).
  - by apply outcome_bind_Ret in He as (r & _ & [= _ <-]).
Qed.
End fates.

(** ** Properties *)

(** C16: in-order transmission: over any run of calls on a new sender, the n-th
    packet put on the wire carries sequence number n (mod 2^64), and every packet
    that was enqueued has a fate: sent, waiting, or canceled.  Read in the order in
    which the packets were enqueued, those with fate sent are exactly what was put on
    the wire, in that order, and those that wait are exactly the queue with its
    identifiers; a packet is canceled only by a cancellation with its own
    identifier while it waits ([fate_step]). *)
Theorem sender_fifo {Pkt} `{!SizeOf (UnackedState Pkt)} (cs : list (SenderCall Pkt)) (S Q : Z) (s : Sender Pkt) tx :
  run_ok (-1) (-1) sender_new cs = Some (S, Q, s, tx) →
  map fst tx = seq_nums (-1) (length tx) ∧
  ∃ l : Log, fates ([], 0) cs (l, Q + 1) ∧ l.*1 = enqueued cs ∧ log_sent l = tx.*2 ∧ log_waiting l = waiting_ids Q s.
Proof.
  intros H. destruct (run_ok_run _ _ _ _ _ _ _ _ H) as [Hrun _]. split.
  { eapply (run_order (-1) sender_new cs s tx); [reflexivity|done]. }
  destruct (run_fate (-1) (-1) sender_new cs S Q s tx [] ltac:(constructor) H) as (l & Hf & [Hw _] & Hs & Hp).
  { split; [done|]. by exists [], []. }
  by exists l.
Qed.

(** A window of one packet; of three that wait, the second is canceled. *)
Definition fifo_session : list (SenderCall nat) :=
  [CallEnqueue 10%nat; CallEnqueue 11%nat; CallEnqueue 12%nat; CallEnqueue 13%nat; CallCancelQueued 1;
   CallAck 0; CallNextBlocked].
Definition fifo_sender : Sender nat := Eval vm_compute in after_calls fifo_session.

Lemma sender_fifo_witness :
  let tx := [(0, 10%nat); (1, 11%nat)] in
  map fst tx = seq_nums (-1) (length tx) ∧
  ∃ l : Log, fates ([], 0) fifo_session (l, 2 + 1) ∧ l.*1 = enqueued fifo_session ∧
    log_sent l = tx.*2 ∧ log_waiting l = waiting_ids 2 fifo_sender.
Proof. apply (sender_fifo fifo_session 1 2 fifo_sender [(0, 10%nat); (1, 11%nat)]). vm_compute. reflexivity. Defined.
