(* ===== verification/Dispatch.v ===== *)
(** The management dispatcher, [src/adapter/ph/src/mgmt/dispatch.rs]: it reads
    the ZDP headers of an incoming management packet, drives the link's ZDPR
    [Receiver] and [Sender], and queues the packet for its processor.  Also the
    management counters it feeds ([src/adapter/ph/src/counters.rs]). *)
From S2P Require Import Prelude Zdp ZdprReceiver ZdprSender.

(** ** Counters fed by ZDPR *)

Inductive ManagementCounterType : Type :=
| QueueBackpressure | DroppedAwaitingBind | DroppedNop | DroppedTooOld | DroppedTooNew
| DroppedDuplicate | DroppedNoSA | InternalRoutingError
| BadMgmtResponse | UnknownTransaction | OutOfOrderPacket | ResentPacket
| UnknownPeer | PeerRemoved | PeerHandshakeSuccess | PeerHandshakeFailure
| ActorAuthorizationSuccess | ActorAuthorizationRejected | ActorAuthorizationRetry
| SequenceError | UnknownType | BadStructure | OtherError
| VisaRequested | VisaByIdRequested | VisaRequestSuccess | VisaRequestDenied | VisaRequestError.

#[global] Instance ManagementCounterType_eq_dec : EqDecision ManagementCounterType.
Proof. solve_decision. Defined.

Definition ManagementCounters : Type := ManagementCounterType → Z.

Definition increase_by (m : ManagementCounters) (c : ManagementCounterType) (n : Z) : ManagementCounters :=
  λ c', if decide (c' = c) then wrap64 (m c' + n) else m c'.

Definition zdpr_sender_stat_to_counter (st : SenderStat) : ManagementCounterType :=
  match st with
  | InvalidAck => BadMgmtResponse
  | TooOldAck => DroppedTooOld
  | DuplicateAck => DroppedDuplicate
  | TooNewAck => DroppedTooNew
  end.

Definition zdpr_receiver_stat_to_counter (st : ReceiverStat) : ManagementCounterType :=
  match st with
  | TooOld => DroppedTooOld
  | Duplicate => DroppedDuplicate
  | TooNew => DroppedTooNew
  | OutOfOrder => OutOfOrderPacket
  end.

Definition count_zdpr_sender_stats {Pkt} (m : ManagementCounters) (s : Sender Pkt)
    : ManagementCounters * Sender Pkt :=
  fold_left (λ '(m, s) st,
    let '(s', n) := send_fetch_reset_stat s st in
    (increase_by m (zdpr_sender_stat_to_counter st) n, s'))
    [InvalidAck; TooOldAck; DuplicateAck; TooNewAck] (m, s).

Definition count_zdpr_receiver_stats (m : ManagementCounters) (r : Receiver)
    : ManagementCounters * Receiver :=
  fold_left (λ '(m, r) st,
    let '(r', n) := recv_fetch_reset_stat r st in
    (increase_by m (zdpr_receiver_stat_to_counter st) n, r'))
    [TooOld; Duplicate; TooNew; OutOfOrder] (m, r).

#[global] Arguments count_zdpr_sender_stats : simpl never.
#[global] Arguments count_zdpr_receiver_stats : simpl never.

(** ** Handlers *)

(** A packet of the session on the substrate, with its 64-bit sequence number. *)
Inductive Msg (Pkt : Type) : Type :=
| MData (sn : Z) (p : Pkt)
| MCancel (sn : Z)
| MAck (sn : Z)
| MCanceled (sn : Z).
Arguments MData {Pkt} _ _.
Arguments MCancel {Pkt} _.
Arguments MAck {Pkt} _.
Arguments MCanceled {Pkt} _.

Section handlers.
Context {Pkt : Type}.

(** [send_canceled]/[send_acknowledgement], as the disposition asks. *)
Definition reply (d : Disposition) (sn : Z) : list (Msg Pkt) :=
  if should_ack d then if ack_is_canceled d then [MCanceled sn] else [MAck sn] else [].

(** The tail of [dispatch_mgmt_packet_with_link] for a management packet:
    [queue_full] is the result of offering it to the processor queue.  Returns
    the counters, the receiver, the replies, and whether the packet was queued
    for processing. *)
Definition dispatch_data (m : ManagementCounters) (r : Receiver) (sn : Z) (queue_full : bool)
    : ManagementCounters * Receiver * list (Msg Pkt) * bool :=
  let should := should_process_packet r sn in
  if should && queue_full then (increase_by m QueueBackpressure 1, r, [], false)
  else
    let '(r, disp) := process_packet r sn in
    let '(m, r) := count_zdpr_receiver_stats m r in
    (m, r, reply disp sn, should).

(** [handle_cancel], from the parsed sequence number. *)
Definition cancel_data (m : ManagementCounters) (r : Receiver) (sn : Z)
    : ManagementCounters * Receiver * list (Msg Pkt) :=
  let '(r, disp) := process_cancel r sn in
  let '(m, r) := count_zdpr_receiver_stats m r in
  (m, r, reply disp sn).

(** [while sender.unblock_needed() { sender.enqueue_next_blocked_packet() ... }] *)
Fixpoint unblock_loop (fuel : nat) (s : Sender Pkt) : outcome (Sender Pkt * list (Z * Pkt)) :=
  match fuel with
  | O => Ret (s, [])
  | S fuel =>
      if unblock_needed s then
        r ← enqueue_next_blocked_packet s;
        r' ← unblock_loop fuel r.1.1;
        Ret (r'.1, r.1.2 :: r'.2)
      else Ret (s, [])
  end.

(** [handle_acknowledgement_canceled_common], from the parsed sequence number:
    the counters, the sender, the packets sent, and whether the retry timer is
    restarted. *)
Definition ack_data (m : ManagementCounters) (s : Sender Pkt)
    (sn : Z) (is_canceled : bool) : outcome (ManagementCounters * Sender Pkt * list (Z * Pkt) * bool) :=
  s ← (if is_canceled then r ← process_canceled s sn; Ret r.1
       else r ← process_ack s sn; Ret r.1.1);
  let '(m, s) := count_zdpr_sender_stats m s in
  let old_retry_needed := retry_needed s in
  r ← unblock_loop (length (blocked s)) s;
  Ret (m, r.1, r.2, retry_needed r.1 && negb old_retry_needed).

(** [count_events] of [mgmt/core.rs]. *)
Definition count_events (m : ManagementCounters) (event : ManagementCounterType) (count : Z)
    : ManagementCounters :=
  if count =? 0 then m else increase_by m event count.

(** One tick of the retry worker of [zdpr_worker.rs]: age the retry counts,
    then send again what is still outstanding. *)
Definition retry_tick (m : ManagementCounters) (s : Sender Pkt)
    : ManagementCounters * Sender Pkt * list (Msg Pkt) :=
  let s := (age_retries s).1 in
  let packets := retry_packets s in
  (count_events m ResentPacket (zlen packets), s,
   map (λ '(sn, p), MData sn p) packets ++ map MCancel (retry_cancels s)).

(** ** Handler lemmas *)

Lemma count_sender_frame m (s : Sender Pkt) m' s' :
  count_zdpr_sender_stats m s = (m', s') →
  s' = mk_sender (s_window_size s) (last_sent s) (unacked s) (last_enqueued s) (blocked s)
         (sent s) (s_stats s').
Proof. unfold count_zdpr_sender_stats. simpl. by intros [= <- <-]. Qed.

Lemma count_sender_wf S Q m (s : Sender Pkt) m' s' :
  sender_wf S Q s → count_zdpr_sender_stats m s = (m', s') → sender_wf S Q s'.
Proof. intros Hs ->%count_sender_frame. destruct Hs. by split. Qed.

Lemma count_receiver_refines w m r m' r' s :
  refines w r s → count_zdpr_receiver_stats m r = (m', r') → refines w r' s.
Proof. unfold count_zdpr_receiver_stats. simpl. intros [] [= <- <-]. by split. Qed.

Lemma next_blocked_shrinks (s : Sender Pkt) r :
  enqueue_next_blocked_packet s = Ret r → (length (blocked r.1.1) < length (blocked s))%nat.
Proof.
  unfold enqueue_next_blocked_packet, assertb. destruct (negb _); [|done].
  destruct (blocked s) as [|[p w l|] b]; [done| |done]. intros [= <-]. simpl.
  unfold clean_blocked_queue. simpl.
  destruct (clean_blocked_loop_spec b (sent s ++ [Some (wrap64 (last_sent s + 1))])) as (n & -> & _).
  simpl. rewrite length_drop. lia.
Qed.

(** The loop terminates within the length of the blocked queue, with nothing
    left to unblock, and never panics. *)
Lemma unblock_loop_spec fuel : ∀ S Q (s : Sender Pkt),
  sender_wf S Q s → (length (blocked s) <= fuel)%nat →
  zlen (unacked s) + zlen (blocked s) < I64_MOD - 1 →
  ∃ s' tx, unblock_loop fuel s = Ret (s', tx) ∧ sender_wf (S + zlen tx) Q s' ∧
    unblock_needed s' = false ∧
    map fst tx = seq_nums S (length tx) ∧
    ∃ extra, unacked s' = unacked s ++ extra ∧ payload <$> extra = Some ∘ snd <$> tx ∧
      (zlen tx = 0 ∨ zlen (unacked s') <= s_window_size s) ∧ s_window_size s' = s_window_size s.
Proof.
  induction fuel as [|fuel IH]; intros S Q s Hs Hf Hlen.
  - exists s, []. rewrite Z.add_0_r. split; [done|]. split; [done|]. split.
    { unfold unblock_needed, has_blocked_packets. destruct (blocked s); [by rewrite andb_false_r|simpl in Hf; lia]. }
    split; [done|]. exists []. rewrite app_nil_r. auto.
  - simpl. destruct (unblock_needed s) eqn:Hu.
    2: { exists s, []. rewrite Z.add_0_r. split_and!; try done. exists []. rewrite app_nil_r. auto. }
    pose proof (zlen_nonneg (blocked s)).
    destruct (next_blocked_wf S Q s Hs Hu ltac:(lia)) as (p & w & l & b & Hb & s1 & He & Hs1 & Hun).
    pose proof (next_blocked_shrinks s _ He) as Hsh. rewrite He. simpl in *.
    assert (s_window_size s1 = s_window_size s) as Hws.
    { revert He. unfold enqueue_next_blocked_packet, assertb. rewrite Hb. destruct (negb _); [|done].
      unfold clean_blocked_queue. destruct (clean_blocked_loop _ _). by intros [= <-]. }
    destruct (IH (S + 1) Q s1 Hs1 ltac:(lia)) as (s2 & tx & Hr & Hs2 & Hu2 & Hsn & extra & He2 & Hx & Hw & Hws2).
    { rewrite Hun. autorewrite with zlen. simpl. unfold zlen in *. lia. }
    rewrite Hr. simpl. eexists _, _. split; [done|]. rewrite zlen_cons.
    replace (S + (zlen tx + 1)) with (S + 1 + zlen tx) by lia.
    split; [done|]. split; [done|]. split; [simpl; by rewrite Hsn|].
    exists (Unacked p NoopWaker l 0 false :: extra). rewrite He2, Hun, <- app_assoc.
    split; [done|]. split; [by rewrite !fmap_cons, Hx|]. split; [|congruence]. right.
    unfold unblock_needed, is_blocked in Hu. destruct (Z.leb_spec (s_window_size s) (zlen (unacked s))); [done|].
    destruct Hw as [Hw|Hw]; [|rewrite He2, Hun, Hws, <- app_assoc in Hw; done].
    apply (f_equal length) in Hx. rewrite !length_fmap in Hx. unfold zlen in Hw. autorewrite with zlen.
    simpl. unfold zlen in *. lia.
Qed.
Lemma replace_entry_len (s : Sender Pkt) idx st :
  zlen (unacked (replace_entry s idx st)) <= zlen (unacked s).
Proof.
  unfold replace_entry. destruct (idx =? 0); simpl; [etrans; [apply drop_while_zlen|]|];
    by rewrite zlen_insert.
Qed.

(** Acknowledgements of any sequence number but the one half the range away
    from the last one sent are processed without panic. *)
Lemma ack_data_total S Q m (s : Sender Pkt) sn isc :
  sender_wf S Q s → is_u64 sn → seq_offset sn (last_sent s) ≠ - I64_MOD →
  zlen (unacked s) + zlen (blocked s) < I64_MOD - 1 →
  ∃ m' s' tx notify, ack_data m s sn isc = Ret (m', s', tx, notify) ∧ sender_wf (S + zlen tx) Q s' ∧
    unblock_needed s' = false.
Proof.
  intros Hs Hsn Hoff Hl. set (k := S + seq_offset sn (last_sent s)).
  assert (wrap64 k = sn ∧ near k S) as [Hk Hnear].
  { unfold k, near, seq_offset in *. rewrite (wf_last_sent _ _ _ _ Hs) in *. split; zmod. }
  assert (∃ s1, (if isc then r ← process_canceled s sn; Ret r.1 else r ← process_ack s sn; Ret r.1.1) = Ret s1
    ∧ sender_wf S Q s1 ∧ blocked s1 = blocked s ∧ zlen (unacked s1) <= zlen (unacked s))
    as (s1 & E1 & Hs1 & Hb & Hu).
  { rewrite <- Hk. destruct isc.
    - destruct (process_canceled_cases S Q s k Hs Hnear) as (s1 & wk & E & Hwf & Hc). rewrite E.
      eexists. split; [done|]. split; [done|]. split; [by eapply process_canceled_same|].
      simpl. destruct Hc as [[-> _]|(? & ? & _ & _ & ->)]; [done|apply replace_entry_len].
    - destruct (process_ack_cases S Q s k Hs Hnear) as (s1 & ? & wk & E & Hwf & Hc). rewrite E.
      eexists. split; [done|]. split; [done|]. split; [by eapply process_ack_same|].
      simpl. destruct Hc as [[-> _]|(? & _ & _ & _ & ->)]; [done|apply replace_entry_len]. }
  unfold ack_data. rewrite E1. cbn [mbind outcome_bind]. destruct (count_zdpr_sender_stats m s1) as [m2 s2] eqn:Ec.
  pose proof (count_sender_wf S Q m s1 m2 s2 Hs1 Ec) as Hs2.
  destruct (unblock_loop_spec (length (blocked s2)) S Q s2 Hs2 ltac:(lia)) as (s3 & tx & E3 & Hs3 & Hn & _).
  { rewrite (count_sender_frame _ _ _ _ Ec). simpl. rewrite Hb. unfold zlen in *. lia. }
  rewrite E3. simpl. eauto 10.
Qed.
End handlers.


(** ** The dispatcher *)

Section dispatcher.
Context {Pkt : Type}.

(** The metadata and remaining bytes of an incoming packet. *)
Record Packet : Type := mk_packet {
  body : bytes;
  ingress_link_id : Z;
  seq_num : Z;
}.

(** What the dispatcher uses of a peer: its ZDPR endpoints, the bounded queue
    of its management processor, and the stored permit of the [Notify] that
    restarts the retry timer. *)
Record PeerState : Type := mk_peer {
  zdpr_recv : Receiver;
  zdpr_send : Sender Pkt;
  mgmt_processor : list Packet;
  mgmt_processor_capacity : nat;
  zdpr_retry_timer_reset : bool;
}.

(** What the dispatcher uses of the assembly; [egress] lists the packets handed
    to [build_and_egress_packets], oldest first. *)
Record Assembly : Type := mk_assembly {
  counters : ManagementCounters;
  peer_table : gmap Z PeerState;
  egress : list (Z * Msg Pkt);
  km_impl : Z;
}.

Definition count_event (a : Assembly) (c : ManagementCounterType) : Assembly :=
  mk_assembly (increase_by (counters a) c 1) (peer_table a) (egress a) (km_impl a).

(** Write back the peer, the counters and the packets sent by a handler. *)
Definition commit (a : Assembly) (m : ManagementCounters) (link : Z) (p : PeerState)
    (out : list (Msg Pkt)) : Assembly :=
  mk_assembly m (<[link := p]> (peer_table a)) (egress a ++ map (pair link) out) (km_impl a).

(** [MgmtProcessor::try_enqueue_packet]. *)
Definition try_enqueue_packet (p : PeerState) (pkt : Packet) : option PeerState :=
  if (length (mgmt_processor p) <? mgmt_processor_capacity p)%nat
  then Some (mk_peer (zdpr_recv p) (zdpr_send p) (mgmt_processor p ++ [pkt])
               (mgmt_processor_capacity p) (zdpr_retry_timer_reset p))
  else None.

Definition handle_cancel (a : Assembly) (pkt : Packet) : Assembly :=
  match read_from_prefix zdpMgmtHeader (body pkt) with
  | None => count_event a BadStructure
  | Some (mgmt_hdr, _) =>
      let sn := sequence_number mgmt_hdr in
      match peer_table a !! ingress_link_id pkt with
      | None => count_event a PeerRemoved
      | Some p =>
          let '(m, r, out) := cancel_data (counters a) (zdpr_recv p) sn in
          commit a m (ingress_link_id pkt)
            (mk_peer r (zdpr_send p) (mgmt_processor p) (mgmt_processor_capacity p)
               (zdpr_retry_timer_reset p)) out
      end
  end.

Definition handle_acknowledgement_canceled_common (a : Assembly) (pkt : Packet) (is_canceled : bool)
    : outcome Assembly :=
  match read_from_prefix zdpMgmtHeader (body pkt) with
  | None => Ret (count_event a BadStructure)
  | Some (mgmt_hdr, _) =>
      let sn := sequence_number mgmt_hdr in
      match peer_table a !! ingress_link_id pkt with
      | None => Ret (count_event a PeerRemoved)
      | Some p =>
          r ← ack_data (counters a) (zdpr_send p) sn is_canceled;
          let '(m, s, tx, notify) := r in
          Ret (commit a m (ingress_link_id pkt)
                 (mk_peer (zdpr_recv p) s (mgmt_processor p) (mgmt_processor_capacity p)
                    (zdpr_retry_timer_reset p || notify))
                 (map (λ '(sn, q), MData sn q) tx))
      end
  end.

Definition handle_acknowledgement (a : Assembly) (pkt : Packet) : outcome Assembly :=
  handle_acknowledgement_canceled_common a pkt false.
Definition handle_canceled (a : Assembly) (pkt : Packet) : outcome Assembly :=
  handle_acknowledgement_canceled_common a pkt true.

(** The default arm of [dispatch_mgmt_packet_with_link]; [rest] is what follows
    the base header.  [ref_from_prefix(rest).unwrap()] panics when too short. *)
Definition dispatch_mgmt (a : Assembly) (pkt : Packet) (rest : bytes) : outcome Assembly :=
  match read_from_prefix zdpMgmtHeader rest with
  | None => Panic
  | Some (mgmt_hdr, _) =>
      match peer_table a !! ingress_link_id pkt with
      | None => Ret (count_event a PeerRemoved)
      | Some p =>
          let sn := sequence_number mgmt_hdr in
          let pkt := mk_packet (body pkt) (ingress_link_id pkt) sn in
          let queued := try_enqueue_packet p pkt in
          let '(m, r, out, accepted) :=
            dispatch_data (counters a) (zdpr_recv p) sn (if queued is None then true else false) in
          let p := if (accepted : bool) then default p queued else p in
          Ret (commit a m (ingress_link_id pkt)
                 (mk_peer r (zdpr_send p) (mgmt_processor p) (mgmt_processor_capacity p)
                    (zdpr_retry_timer_reset p)) out)
      end
  end.

(** The key manager of the peer, entered with the payload of a KM message: not
    modelled, so any function; [false] is an error. *)
Context (KM_ID_NOISE KM_ID_NULL : Z)
  (handle_inbound_km_msg : Assembly → Z → bytes → outcome (Assembly * bool)).

Definition handle_key_management (a : Assembly) (pkt : Packet) : outcome Assembly :=
  match read_from_prefix zdpKeyManagementHeader (body pkt) with
  | None => Ret (count_event a BadStructure)
  | Some (km_hdr, payload) =>
      if (is_noise KM_ID_NOISE km_hdr && negb (km_impl a =? KM_ID_NOISE))
         || (is_null KM_ID_NULL km_hdr && negb (km_impl a =? KM_ID_NULL))
      then Ret (count_event a OtherError)
      else
        let km_msg_len := Z.to_nat (message_length km_hdr) in
        if (length payload <? km_msg_len)%nat then Ret (count_event a BadStructure)
        else
          r ← handle_inbound_km_msg a (ingress_link_id pkt) (take km_msg_len payload);
          Ret (if (r.2 : bool) then r.1 else count_event r.1 OtherError)
  end.

Definition dispatch_mgmt_packet_with_link (a : Assembly) (pkt : Packet) : outcome Assembly :=
  match read_from_prefix zdpBaseHeader (body pkt) with
  | None => Ret (count_event a BadStructure)
  | Some (base_hdr, rest) =>
      let t := base_packet_type base_hdr in
      let advanced := mk_packet rest (ingress_link_id pkt) (seq_num pkt) in
      if t =? packet_type KeyManagement then handle_key_management a advanced
      else if t =? packet_type Acknowledgement then handle_acknowledgement a advanced
      else if t =? packet_type Cancel then Ret (handle_cancel a advanced)
      else if t =? packet_type Zdp.Canceled then handle_canceled a advanced
      else dispatch_mgmt a pkt rest
  end.

(** [Assembly::start_tether] and [PeerTable::lookup_peer]: not modelled. *)
Context (LINK_ID_UNKNOWN : Z) {SubstrateAddr ScopedIpAddr : Type}
  (lookup_peer : Assembly → SubstrateAddr → ScopedIpAddr → option Z)
  (start_tether : Assembly → SubstrateAddr → ScopedIpAddr → option (Assembly * Z)).

Definition dispatch_mgmt_packet_with_addr (a : Assembly) (peer_sa : SubstrateAddr)
    (interface_addr : ScopedIpAddr) (pkt : Packet) : outcome Assembly :=
  match read_from_prefix zdpBaseHeader (body pkt) with
  | Some (base_hdr, rest) =>
      if base_packet_type base_hdr =? packet_type KeyManagement then
        let link := default 0 (lookup_peer a peer_sa interface_addr) in
        if link =? LINK_ID_UNKNOWN then
          match start_tether a peer_sa interface_addr with
          | None => Ret (count_event a UnknownPeer)
          | Some (a, link) => handle_key_management a (mk_packet rest link (seq_num pkt))
          end
        else handle_key_management a (mk_packet rest link (seq_num pkt))
      else Ret (count_event a UnknownPeer)
  | None => Ret (count_event a UnknownPeer)
  end.
End dispatcher.
Arguments PeerState : clear implicits.
Arguments Assembly : clear implicits.

(** ** Lemmas on the dispatcher *)

Section dispatcher_lemmas.
Context {Pkt : Type} (NOISE NULL : Z)
  (km : Assembly Pkt → Z → bytes → outcome (Assembly Pkt * bool)).
Implicit Types (a : Assembly Pkt) (pkt : Packet).

Abbreviation dispatch := (dispatch_mgmt_packet_with_link NOISE NULL km).

(** The wire form of a session message with payload [payload]. *)
Definition wire (t : ZdpPacketType) (sn : Z) (payload : bytes) : bytes :=
  as_bytes zdpBaseHeader (mk_ZdpBaseHeader t 0) ++ as_bytes zdpMgmtHeader (mk_ZdpMgmtHeader sn) ++ payload.

Definition is_data_type (t : ZdpPacketType) : bool :=
  negb ((t =? packet_type KeyManagement) || (t =? packet_type Acknowledgement)
        || (t =? packet_type Cancel) || (t =? packet_type Zdp.Canceled)).

Lemma read_wire_base t sn payload : is_u8 t →
  read_from_prefix zdpBaseHeader (wire t sn payload)
  = Some (mk_ZdpBaseHeader t 0, as_bytes zdpMgmtHeader (mk_ZdpMgmtHeader sn) ++ payload).
Proof. intros Ht. apply read_as_bytes; [apply _|]. unfold is_u8 in Ht. simpl. lia. Qed.

Lemma read_wire_mgmt sn payload : is_u64 sn →
  read_from_prefix zdpMgmtHeader (as_bytes zdpMgmtHeader (mk_ZdpMgmtHeader sn) ++ payload)
  = Some (mk_ZdpMgmtHeader sn, payload).
Proof. intros Ht. apply read_as_bytes; [apply _|]. unfold is_u64 in Ht. simpl. lia. Qed.

(** The branch a packet type takes. *)
Lemma dispatch_data_type a pkt b rest :
  read_from_prefix zdpBaseHeader (body pkt) = Some (b, rest) → is_data_type (base_packet_type b) = true →
  dispatch a pkt = dispatch_mgmt a pkt rest.
Proof.
  intros Hr Ht. unfold dispatch_mgmt_packet_with_link, is_data_type in *. rewrite Hr. cbn zeta.
  apply negb_true_iff in Ht. rewrite !orb_false_iff in Ht. by destruct Ht as [[[-> ->] ->] ->].
Qed.

Lemma dispatch_cancel_type a pkt b rest :
  read_from_prefix zdpBaseHeader (body pkt) = Some (b, rest) → base_packet_type b = packet_type Cancel →
  dispatch a pkt = Ret (handle_cancel a (mk_packet rest (ingress_link_id pkt) (seq_num pkt))).
Proof. intros Hr Ht. unfold dispatch_mgmt_packet_with_link. by rewrite Hr, Ht. Qed.

Lemma dispatch_ack_type a pkt b rest (isc : bool) :
  read_from_prefix zdpBaseHeader (body pkt) = Some (b, rest) →
  base_packet_type b = packet_type (if isc then Zdp.Canceled else Acknowledgement) →
  dispatch a pkt
  = handle_acknowledgement_canceled_common a (mk_packet rest (ingress_link_id pkt) (seq_num pkt)) isc.
Proof. intros Hr Ht. unfold dispatch_mgmt_packet_with_link. rewrite Hr, Ht. by destruct isc. Qed.

(** Every peer's sender is well formed, with fewer than [2^63 - 1] packets queued. *)
Definition peers_wf a : Prop :=
  ∀ link p, peer_table a !! link = Some p → ∃ S Q, sender_wf S Q (zdpr_send p).
Definition queues_bounded a : Prop :=
  ∀ link p, peer_table a !! link = Some p →
    zlen (unacked (zdpr_send p)) + zlen (blocked (zdpr_send p)) < I64_MOD - 1.

(** The inputs on which the dispatcher is not known to return: management
    packets with a truncated management header, acknowledgements half the
    range away from the last packet sent, and key management, whose handler
    is a parameter. *)
Definition safe_input a pkt : bool :=
  match read_from_prefix zdpBaseHeader (body pkt) with
  | None => true
  | Some (b, rest) =>
      let t := base_packet_type b in
      if t =? packet_type KeyManagement then false
      else if (t =? packet_type Acknowledgement) || (t =? packet_type Zdp.Canceled) then
        match read_from_prefix zdpMgmtHeader rest, peer_table a !! ingress_link_id pkt with
        | Some (h, _), Some p => negb (seq_offset (sequence_number h) (last_sent (zdpr_send p)) =? - I64_MOD)
        | _, _ => true
        end
      else (t =? packet_type Cancel) || (size_of zdpMgmtHeader <=? length rest)%nat
  end.

Lemma commit_lookup a m link p out l :
  peer_table (commit a m link p out) !! l = if decide (l = link) then Some p else peer_table a !! l.
Proof.
  simpl. destruct (decide (l = link)) as [->|]; [by rewrite lookup_insert_eq|].
  by rewrite lookup_insert_ne.
Qed.

Lemma commit_wf a m link p out S Q :
  peers_wf a → sender_wf S Q (zdpr_send p) → peers_wf (commit a m link p out).
Proof.
  intros Ha Hp l p'. rewrite commit_lookup. destruct (decide _); [|by apply Ha].
  intros [= <-]. eauto.
Qed.

(** Only the peer of the ingress link is touched. *)
Definition isolated a a' (link : Z) : Prop :=
  peers_wf a' ∧ ∀ l, l ≠ link → peer_table a' !! l = peer_table a !! l.

Lemma count_isolated a c link : peers_wf a → isolated a (count_event a c) link.
Proof. by split. Qed.

Lemma commit_isolated a m link p out S Q :
  peers_wf a → sender_wf S Q (zdpr_send p) → isolated a (commit a m link p out) link.
Proof.
  intros Ha Hp. split; [by eapply commit_wf|]. intros l Hl. rewrite commit_lookup. by case_decide.
Qed.

Lemma enqueue_send (p p' : PeerState Pkt) pkt :
  try_enqueue_packet p pkt = Some p' → zdpr_send p' = zdpr_send p.
Proof. unfold try_enqueue_packet. destruct (_ <? _)%nat; [by intros [= <-]|done]. Qed.

Lemma handle_cancel_isolated a pkt :
  peers_wf a → isolated a (handle_cancel a pkt) (ingress_link_id pkt).
Proof.
  intros Ha. unfold handle_cancel. destruct (read_from_prefix _ _) as [[h ?]|]; [|by apply count_isolated].
  destruct (peer_table a !! _) as [p|] eqn:Ep; [|by apply count_isolated].
  destruct (cancel_data _ _ _) as [[m r] out]. destruct (Ha _ _ Ep) as (S & Q & Hp).
  by eapply commit_isolated.
Qed.

Lemma dispatch_mgmt_total a pkt rest :
  peers_wf a → (size_of zdpMgmtHeader <= length rest)%nat →
  ∃ a', dispatch_mgmt a pkt rest = Ret a' ∧ isolated a a' (ingress_link_id pkt).
Proof.
  intros Ha Hl. unfold dispatch_mgmt. destruct (read_from_prefix _ _) as [[h ?]|] eqn:Er.
  2: { apply read_None in Er. lia. }
  destruct (peer_table a !! _) as [p|] eqn:Ep; [|eexists; split; [done|by apply count_isolated]].
  destruct (Ha _ _ Ep) as (S & Q & Hp).
  destruct (try_enqueue_packet _ _) as [p'|] eqn:Eq; cbn zeta;
    destruct (dispatch_data _ _ _ _) as [[[m r] out] ac]; eexists; (split; [done|]);
    eapply commit_isolated; try done; simpl; [|by destruct ac].
  destruct ac; simpl; [|done]. by rewrite (enqueue_send _ _ _ Eq).
Qed.

Lemma handle_ack_total a pkt isc :
  Forall is_u8 (body pkt) → peers_wf a → queues_bounded a →
  (∀ h rest p, read_from_prefix zdpMgmtHeader (body pkt) = Some (h, rest) →
     peer_table a !! ingress_link_id pkt = Some p →
     seq_offset (sequence_number h) (last_sent (zdpr_send p)) ≠ - I64_MOD) →
  ∃ a', handle_acknowledgement_canceled_common a pkt isc = Ret a' ∧ isolated a a' (ingress_link_id pkt).
Proof.
  intros Hb Ha Hq Hh. unfold handle_acknowledgement_canceled_common.
  destruct (read_from_prefix _ _) as [[h rest]|] eqn:Er; [|eexists; split; [done|by apply count_isolated]].
  apply (read_Some zdpMgmtHeader) in Er as Hr; [|done]. destruct Hr as (_ & Hrange & _).
  destruct (peer_table a !! _) as [p|] eqn:Ep; [|eexists; split; [done|by apply count_isolated]].
  destruct (Ha _ _ Ep) as (S & Q & Hp).
  destruct (ack_data_total S Q (counters a) (zdpr_send p) (sequence_number h) isc Hp Hrange
    (Hh _ _ _ eq_refl eq_refl) (Hq _ _ Ep)) as (m & s & tx & nt & -> & Hs & _).
  simpl. eexists. split; [done|]. by eapply commit_isolated.
Qed.
End dispatcher_lemmas.

(** ** Properties *)

(** C34: dispatching is safe and isolated: a packet of arbitrary bytes, other
    than a key-management message, a management packet cut short in its header
    or an acknowledgement exactly half the sequence range away from the last
    packet sent, is handled without panic, keeps every peer's sender well
    formed, and touches no peer but that of the link it came in on. *)
Theorem dispatch_total_isolated {Pkt} NOISE NULL km (a : Assembly Pkt) (pkt : Packet) :
  Forall is_u8 (body pkt) → peers_wf a → queues_bounded a → safe_input a pkt = true →
  ∃ a', dispatch_mgmt_packet_with_link NOISE NULL km a pkt = Ret a' ∧
        isolated a a' (ingress_link_id pkt).
Proof.
  intros Hb Ha Hq. unfold dispatch_mgmt_packet_with_link, safe_input.
  destruct (read_from_prefix zdpBaseHeader _) as [[b rest]|] eqn:Er.
  2: { intros _. eexists. split; [done|by apply count_isolated]. }
  apply (read_Some zdpBaseHeader) in Er as (_ & _ & Hrest); [|done]. cbn zeta.
  destruct (_ =? packet_type KeyManagement); [done|].
  destruct (_ =? packet_type Acknowledgement) eqn:Eack; cbn [orb].
  { intros Hs. apply (handle_ack_total a (mk_packet rest _ _) false); try done.
    simpl. intros h r p Hr Hp. rewrite Hr, Hp in Hs. by apply negb_true_iff, Z.eqb_neq in Hs. }
  destruct (_ =? packet_type Cancel) eqn:Ec.
  { intros _. eexists. split; [done|]. by apply (handle_cancel_isolated a (mk_packet rest _ _)). }
  destruct (_ =? packet_type Zdp.Canceled) eqn:Ecd; cbn [orb]; intros Hs.
  - apply (handle_ack_total a (mk_packet rest _ _) true); try done.
    simpl. intros h r p Hr Hp. rewrite Hr, Hp in Hs. by apply negb_true_iff, Z.eqb_neq in Hs.
  - apply dispatch_mgmt_total; [done|]. by apply Nat.leb_le.
Qed.

(** A peer on link 5 that has sent one packet, and room for one more to process. *)
Definition sample_receiver : Receiver :=
  {| r_window_size := 32; highest_seen := U64_MOD - 1; recvd := BITSET_MAX;
     canceled := BITSET_MAX; r_stats := λ _, 0 |}.
Definition sample_peer : PeerState nat :=
  mk_peer sample_receiver (enqueue_packet sender_new 7%nat).1 [] 1 false.
Definition sample_assembly : Assembly nat :=
  mk_assembly (λ _, 0) {[ 5 := sample_peer ]} [] 2.
Definition no_km (a : Assembly nat) (_ : Z) (_ : bytes) : outcome (Assembly nat * bool) := Ret (a, true).

Lemma sample_peers_wf : peers_wf sample_assembly.
Proof.
  intros l p Hp. cbn in Hp. apply lookup_singleton_Some in Hp as [<- <-]. exists 0, (-1). simpl.
  apply (enqueue_packet_wf (-1) (-1) sender_new 7%nat sender_new_wf); unfold zlen; simpl; lia.
Qed.

Lemma dispatch_total_isolated_witness :
  ∃ a', dispatch_mgmt_packet_with_link 1 2 no_km sample_assembly
          (mk_packet (wire (packet_type Acknowledgement) 0 []) 5 0) = Ret a' ∧
        isolated sample_assembly a' 5.
Proof.
  apply (dispatch_total_isolated 1 2 no_km sample_assembly (mk_packet (wire (packet_type Acknowledgement) 0 []) 5 0)).
  - vm_compute. repeat constructor; discriminate.
  - apply sample_peers_wf.
  - intros l p Hp. cbn in Hp. apply lookup_singleton_Some in Hp as [<- <-]. vm_compute. reflexivity.
  - vm_compute. reflexivity.
Defined.

(** the dispatcher implements the session handlers on the wire: for every
    64-bit sequence number, an acknowledgement, a cancellation and a management
    packet with any payload are read back from their wire form, and the
    assembly changes exactly as the handler for that sequence number says; in
    particular a management packet is queued, with its sequence number stored,
    exactly when it is accepted and the queue has room, and is not
    acknowledged when there is no room. *)
Theorem dispatch_wire {Pkt} NOISE NULL km (a : Assembly Pkt) (link sn sn0 : Z) (p : PeerState Pkt)
    (payload : bytes) :
  is_u64 sn → peer_table a !! link = Some p →
  (let '(m, r, out) := cancel_data (counters a) (zdpr_recv p) sn in
   dispatch_mgmt_packet_with_link NOISE NULL km a
     (mk_packet (wire (packet_type Cancel) sn payload) link sn0)
   = Ret (commit a m link (mk_peer r (zdpr_send p) (mgmt_processor p) (mgmt_processor_capacity p)
            (zdpr_retry_timer_reset p)) out)) ∧
  (∀ isc : bool,
   dispatch_mgmt_packet_with_link NOISE NULL km a
     (mk_packet (wire (packet_type (if isc then Zdp.Canceled else Acknowledgement)) sn payload) link sn0)
   = (r ← ack_data (counters a) (zdpr_send p) sn isc;
      Ret (commit a r.1.1.1 link (mk_peer (zdpr_recv p) r.1.1.2 (mgmt_processor p)
             (mgmt_processor_capacity p) (zdpr_retry_timer_reset p || r.2))
             (map (λ '(sn, q), MData sn q) r.1.2)))) ∧
  (∀ t, is_u8 t → is_data_type t = true →
   let w := wire t sn payload in
   let full := (mgmt_processor_capacity p <=? length (mgmt_processor p))%nat in
   let '(m, r, out, accepted) := dispatch_data (counters a) (zdpr_recv p) sn full in
   dispatch_mgmt_packet_with_link NOISE NULL km a (mk_packet w link sn0)
   = Ret (commit a m link (mk_peer r (zdpr_send p)
            (mgmt_processor p ++ if (accepted : bool) then [mk_packet w link sn] else [])
            (mgmt_processor_capacity p) (zdpr_retry_timer_reset p)) out) ∧
   accepted = should_process_packet (zdpr_recv p) sn && negb full ∧
   (should_process_packet (zdpr_recv p) sn = true → full = true → out = [])).
Proof.
  intros Hsn Hp. split_and!.
  - erewrite dispatch_cancel_type; [|apply read_wire_base; split; simpl; lia|done].
    unfold handle_cancel. cbn [body ingress_link_id]. rewrite read_wire_mgmt, Hp by done. simpl.
    by destruct (cancel_data _ _ _) as [[m r] out].
  - intros isc. erewrite (dispatch_ack_type _ _ _ _ _ _ _ isc);
      [|apply read_wire_base; destruct isc; split; simpl; lia|done].
    unfold handle_acknowledgement_canceled_common. cbn [body ingress_link_id].
    rewrite read_wire_mgmt, Hp by done. simpl. by destruct (ack_data _ _ _ _) as [[[[m s] tx] nt]|].
  - intros t Ht Hd w full. destruct (dispatch_data _ _ _ _) as [[[m r] out] ac] eqn:E. split; [|split].
    + erewrite dispatch_data_type; [|by apply read_wire_base|done].
      unfold dispatch_mgmt. cbn [body ingress_link_id]. rewrite read_wire_mgmt by done. rewrite Hp. simpl.
      unfold try_enqueue_packet. rewrite (Nat.ltb_antisym). fold full.
      destruct full; simpl; rewrite E; destruct ac; simpl; rewrite ?app_nil_r; try done.
      revert E. unfold dispatch_data. destruct (should_process_packet _ _); cbn [andb]; [done|].
      destruct (process_packet _ _), (count_zdpr_receiver_stats _ _). done.
    + revert E. unfold dispatch_data. destruct (should_process_packet _ _), full; cbn [andb negb];
        [by intros [= <- <- <- <-]|..];
        destruct (process_packet _ _), (count_zdpr_receiver_stats _ _); by intros [= <- <- <- <-].
    + revert E. unfold dispatch_data. intros E Hs Hf. rewrite Hs, Hf in E. by injection E as <- <- <- <-.
Qed.

Lemma dispatch_wire_witness :
  dispatch_mgmt_packet_with_link 1 2 no_km sample_assembly
    (mk_packet (wire (packet_type Acknowledgement) 0 []) 5 0)
  = (r ← ack_data (counters sample_assembly) (zdpr_send sample_peer) 0 false;
     Ret (commit sample_assembly r.1.1.1 5 (mk_peer (zdpr_recv sample_peer) r.1.1.2 [] 1 (false || r.2))
            (map (λ '(sn, q), MData sn q) r.1.2))).
Proof.
  apply (proj1 (proj2 (dispatch_wire 1 2 no_km sample_assembly 5 0 0 sample_peer []
    ltac:(split; lia) eq_refl)) false).
Defined.

(** A management packet that ends inside the management header crashes the
    dispatcher ([ref_from_prefix(rest).unwrap()]) whatever the link and state,
    where every other short packet is counted as badly structured. *)
Theorem short_mgmt_packet_panics {Pkt} NOISE NULL km (a : Assembly Pkt) (pkt : Packet) (t excess : Z) (rest : bytes) :
  is_data_type t = true → is_u8 t → is_u8 excess → body pkt = t :: excess :: rest → (length rest < 8)%nat →
  dispatch_mgmt_packet_with_link NOISE NULL km a pkt = Panic.
Proof.
  intros Hd Ht He Hb Hl.
  assert (read_from_prefix zdpBaseHeader (body pkt) = Some (mk_ZdpBaseHeader t excess, rest)) as Hr.
  { rewrite Hb. unfold is_u8 in *.
    replace (t :: excess :: rest) with (as_bytes zdpBaseHeader (mk_ZdpBaseHeader t excess) ++ rest).
    - apply read_as_bytes; [apply _|simpl; lia].
    - simpl. rewrite !Z.div_1_r, !Z.mod_small by lia. done. }
  erewrite dispatch_data_type by done. unfold dispatch_mgmt.
  by rewrite (proj2 (read_None zdpMgmtHeader rest)).
Qed.

Lemma short_mgmt_packet_panics_witness :
  dispatch_mgmt_packet_with_link 1 2 no_km sample_assembly (mk_packet [packet_type Discard; 0] 5 0) = Panic.
Proof.
  apply (short_mgmt_packet_panics 1 2 no_km sample_assembly _ (packet_type Discard) 0 []); simpl;
    [done|split; lia|split; lia|done|lia].
Defined.

(** C36: the unblocking loop of the acknowledgement handler terminates within
    the length of the blocked queue without panicking, leaves nothing that
    could be sent (the window is full or the queue empty), and sends with
    consecutive sequence numbers. *)
Theorem unblock_loop_complete {Pkt} `{!SizeOf (UnackedState Pkt)} (S Q : Z) (s : Sender Pkt) :
  sender_reach S Q s → zlen (unacked s) + zlen (blocked s) < I64_MOD - 1 →
  ∃ s' tx, unblock_loop (length (blocked s)) s = Ret (s', tx) ∧ unblock_needed s' = false ∧
    map fst tx = seq_nums S (length tx) ∧ sender_wf (S + zlen tx) Q s'.
Proof.
  intros Hs%reach_wf Hl.
  destruct (unblock_loop_spec (length (blocked s)) S Q s Hs ltac:(lia) Hl)
    as (s' & tx & ? & ? & ? & ? & _). eauto 10.
Qed.

Lemma unblock_loop_complete_witness :
  ∃ s' tx, unblock_loop (length (blocked (enqueue_packet sender_new 7%nat).1))
             (enqueue_packet sender_new 7%nat).1 = Ret (s', tx) ∧ unblock_needed s' = false ∧
    map fst tx = seq_nums 0 (length tx) ∧ sender_wf (0 + zlen tx) (-1) s'.
Proof.
  apply (unblock_loop_complete 0 (-1) (enqueue_packet sender_new 7%nat).1); [|unfold zlen; simpl; lia].
  apply (reach_call (-1) (-1) sender_new (CallEnqueue 7%nat) _ [(0, 7%nat)]);
    [apply reach_new|split; simpl; unfold zlen; simpl; lia|reflexivity].
Defined.
