(* ===== verification/ZdprSession.v ===== *)
(** A reliable ZDP session end to end: a sending node, an unreliable substrate
    and a receiving node, composed as a step relation from the dispatch
    handlers ([Dispatch]) and the retry worker of
    [src/adapter/ph/src/zdpr_worker.rs].

    The substrate may lose, duplicate and reorder packets at will: whatever was
    ever sent may be delivered at any time, any number of times. *)
From S2P Require Import Prelude ZdprReceiver ZdprSender ZdprOrder Dispatch.

(** ** The composed session *)

Section system.
Context {Pkt : Type} `{!SizeOf (UnackedState Pkt)} (w : Z).

(** A sending node, the substrate, a receiving node.  [S_ideal]/[Q_ideal] count
    the packets sent/queued, [history] lists the packets in the order they got
    sequence numbers, [delivered] what the receiving node queued for
    processing; none of the code reads them. *)
Record Sys : Type := mk_sys {
  tx_side : Sender Pkt;
  rx_side : Receiver;
  tx_counters : ManagementCounters;
  rx_counters : ManagementCounters;
  S_ideal : Z;
  Q_ideal : Z;
  history : list Pkt;
  net : list (Msg Pkt);
  delivered : list (Z * Pkt);
}.

(** Calls the sending application makes directly; it never raises its window
    above the receiver's. *)
Definition app_call (c : SenderCall Pkt) : Prop :=
  match c with
  | CallEnqueue _ | CallCancelQueued _ | CallLimitId _ _ | CallLimitSeq _ _ | CallForget _ => True
  | CallAdjust n => n <= w
  | _ => False
  end.

Definition data_msgs (tx : list (Z * Pkt)) : list (Msg Pkt) := map (λ '(sn, p), MData sn p) tx.

Inductive sys_step : Sys → Sys → Prop :=
| step_call s r cs cr S Q h n d c s' tx :
    app_call c → call_ok S Q s c → exec s c = Ret (s', tx) → S + sends s c < I64_MOD - 1 →
    sys_step (mk_sys s r cs cr S Q h n d)
             (mk_sys s' r cs cr (S + sends s c) (Q + queues s c) (h ++ map snd tx) (n ++ data_msgs tx) d)
| step_request_cancel s r cs cr S Q h n d k s' pkt :
    0 <= k <= S → cancel_sent_packet s (wrap64 k) = Ret (s', pkt) →
    sys_step (mk_sys s r cs cr S Q h n d)
             (mk_sys s' r cs cr S Q h (n ++ if pkt is Some _ then [MCancel (wrap64 k)] else []) d)
| step_retry s r cs cr S Q h n d :
    sys_step (mk_sys s r cs cr S Q h n d)
             (mk_sys (retry_tick cs s).1.2 r (retry_tick cs s).1.1 cr S Q h (n ++ (retry_tick cs s).2) d)
| step_data s r cs cr S Q h n d sn p full cr' r' rep queued :
    MData sn p ∈ n → dispatch_data cr r sn full = (cr', r', rep, queued) →
    sys_step (mk_sys s r cs cr S Q h n d)
             (mk_sys s r' cs cr' S Q h (n ++ rep) (d ++ if (queued : bool) then [(sn, p)] else []))
| step_cancel s r cs cr S Q h n d sn cr' r' rep :
    MCancel sn ∈ n → cancel_data cr r sn = (cr', r', rep) →
    sys_step (mk_sys s r cs cr S Q h n d) (mk_sys s r' cs cr' S Q h (n ++ rep) d)
| step_ack s r cs cr S Q h n d sn (is_canceled : bool) cs' s' tx restart :
    (if is_canceled then MCanceled sn else MAck sn) ∈ n →
    zlen (unacked s) + zlen (blocked s) < I64_MOD - 1 →
    ack_data cs s sn is_canceled = Ret (cs', s', tx, restart) →
    S + zlen tx < I64_MOD - 1 →
    sys_step (mk_sys s r cs cr S Q h n d)
             (mk_sys s' r cs' cr (S + zlen tx) Q (h ++ map snd tx) (n ++ data_msgs tx) d).

(** The session starts with a fresh sender and a receiver of window [w]. *)
Inductive sys_init : Sys → Prop :=
| sys_init_intro r : receiver_new w = Ret r →
    sys_init (mk_sys sender_new r (λ _, 0) (λ _, 0) (-1) (-1) [] [] []).

Definition sys_reach (y : Sys) : Prop := ∃ y0, sys_init y0 ∧ rtc sys_step y0 y.

(** ** The invariant *)

(** What the sender's entry for packet [k] says about the receiver and the past. *)
Definition entry_ok (sp : Spec) (h : list Pkt) (k : Z) (st : UnackedState Pkt) : Prop :=
  match st with
  | Acked => k ∈ acc sp
  | CancelAcked => k ∈ can sp
  | Unacked p _ _ _ _ => h !! Z.to_nat k = Some p
  | CancelRequested _ _ => True
  end.

Definition win_ok (sp : Spec) (h : list Pkt) (S : Z) (u : list (UnackedState Pkt)) : Prop :=
  (∀ (j : nat) st, u !! j = Some st → entry_ok sp h (S + 1 - zlen u + Z.of_nat j) st) ∧
  (∀ k, 0 <= k < S + 1 - zlen u → k ∈ acc sp).

Definition msg_ok (sp : Spec) (h : list Pkt) (m : Msg Pkt) : Prop :=
  match m with
  | MData sn p => 0 <= sn ∧ h !! Z.to_nat sn = Some p
  | MCancel sn => 0 <= sn < zlen h
  | MAck sn => sn ∈ acc sp ∧ sn ∉ can sp
  | MCanceled sn => sn ∈ can sp
  end.

Record inv (sp : Spec) (y : Sys) : Prop := {
  inv_tx : sender_wf (S_ideal y) (Q_ideal y) (tx_side y);
  inv_rx : refines w (rx_side y) sp;
  inv_bound : S_ideal y < I64_MOD - 1;
  inv_hist : zlen (history y) = S_ideal y + 1;
  inv_high : high sp <= S_ideal y;
  inv_win : win_ok sp (history y) (S_ideal y) (unacked (tx_side y));
  inv_window : s_window_size (tx_side y) <= w ∧ zlen (unacked (tx_side y)) <= w;
  inv_net : Forall (msg_ok sp (history y)) (net y);
  inv_delivered_in sn p : (sn, p) ∈ delivered y →
    0 <= sn ∧ history y !! Z.to_nat sn = Some p ∧ sn ∈ acc sp ∧ sn ∉ can sp;
  inv_delivered_all sn : sn ∈ acc sp → sn ∉ can sp → sn ∈ (delivered y).*1;
  inv_delivered_once : NoDup (delivered y).*1;
  inv_can sn : sn ∈ can sp → MCancel sn ∈ net y;
}.

(** *** The window *)

Lemma win_ok_drop sp h S v n :
  win_ok sp h S v → Forall (λ x, x = Acked) (take n v) → (n <= length v)%nat →
  win_ok sp h S (drop n v).
Proof.
  intros [Hv Hf] Ht Hn. unfold win_ok, zlen in *. rewrite length_drop. split.
  - intros j st Hj. rewrite lookup_drop in Hj. specialize (Hv _ _ Hj).
    replace (S + 1 - Z.of_nat (length v - n) + Z.of_nat j)
      with (S + 1 - Z.of_nat (length v) + Z.of_nat (n + j)) by lia. done.
  - intros k Hk. destruct (Z.lt_ge_cases k (S + 1 - Z.of_nat (length v))); [apply Hf; lia|].
    set (j := Z.to_nat (k - (S + 1 - Z.of_nat (length v)))).
    destruct (lookup_lt_is_Some_2 v j) as [x Hx]; [lia|].
    rewrite Forall_lookup in Ht.
    rewrite (Ht j x) in Hx by (rewrite lookup_take_lt by lia; done).
    specialize (Hv _ _ Hx). simpl in Hv.
    by replace k with (S + 1 - Z.of_nat (length v) + Z.of_nat j) by lia.
Qed.

Lemma win_ok_insert sp h S u (j : nat) st :
  win_ok sp h S u → entry_ok sp h (S + 1 - zlen u + Z.of_nat j) st →
  win_ok sp h S (<[j := st]> u).
Proof.
  intros [Hu Hf] Hst. split; rewrite zlen_insert; [|done]. intros j' st' Hj'.
  destruct (decide (j = j')) as [<-|]; [|rewrite list_lookup_insert_ne in Hj' by done; by apply Hu].
  rewrite list_lookup_insert_eq in Hj'; [by simplify_eq|].
  apply lookup_lt_Some in Hj'. by rewrite length_insert in Hj'.
Qed.

Lemma win_ok_append sp h S u (extra : list (UnackedState Pkt)) (new : list Pkt) :
  win_ok sp h S u → zlen h = S + 1 → zlen u <= S + 1 → payload <$> extra = Some <$> new →
  win_ok sp (h ++ new) (S + zlen new) (u ++ extra).
Proof.
  intros [Hu Hf] Hh Hle Hx. unfold win_ok. pose proof (f_equal length Hx) as Hlen.
  rewrite !length_fmap in Hlen. rewrite zlen_app.
  replace (S + zlen new + 1 - (zlen u + zlen extra)) with (S + 1 - zlen u) by (unfold zlen; lia).
  split; [|done]. intros j st Hj. destruct (decide (j < length u)%nat) as [Hlt|Hge].
  - rewrite lookup_app_l in Hj by done. specialize (Hu _ _ Hj). destruct st; simpl in *; try done.
    by apply lookup_app_l_Some.
  - rewrite lookup_app_r in Hj by lia. apply (f_equal (.!! (j - length u)%nat)) in Hx.
    rewrite !list_lookup_fmap, Hj in Hx. simpl in Hx.
    destruct (new !! (j - length u)%nat) as [q|] eqn:Hq; [|done]. simpl in Hx.
    destruct st; simplify_eq/=. rewrite lookup_app_r by (unfold zlen in *; lia).
    rewrite <- Hq. f_equal. unfold zlen in *. lia.
Qed.

Lemma win_ok_pointwise sp h S u v (R : UnackedState Pkt → UnackedState Pkt → Prop) :
  win_ok sp h S u → Forall2 R u v →
  (∀ k x y, R x y → entry_ok sp h k x → entry_ok sp h k y) →
  win_ok sp h S v.
Proof.
  intros [Hu Hf] Huv HR. pose proof (Forall2_length Huv) as Hlen.
  unfold win_ok, zlen in *. rewrite <- Hlen. split; [|done]. intros j y Hy.
  destruct (Forall2_lookup_r _ _ _ _ _ Huv Hy) as (x & Hx & Hxy). eauto.
Qed.

Lemma win_ok_replace sp h S (s : Sender Pkt) idx st :
  win_ok sp h S (unacked s) → 0 <= idx → entry_ok sp h (win_base S s + idx) st →
  win_ok sp h S (unacked (replace_entry s idx st)).
Proof.
  intros Hu Hidx Hst. unfold replace_entry.
  assert (win_ok sp h S (<[Z.to_nat idx := st]> (unacked s))) as Hv.
  { apply win_ok_insert; [done|]. by rewrite Z2Nat.id by lia. }
  destruct (idx =? 0); simpl; [|done].
  destruct (drop_while_suffix is_acked_state (<[Z.to_nat idx:=st]> (unacked s))) as (n & -> & Ht & Hn).
  apply win_ok_drop; [done| |done]. revert Ht. apply Forall_impl. by intros [].
Qed.

Lemma win_ok_mono sp sp' h S u :
  acc sp ⊆ acc sp' → can sp ⊆ can sp' → win_ok sp h S u → win_ok sp' h S u.
Proof.
  intros Ha Hc [Hu Hf]. split; [|set_solver]. intros j st Hj. specialize (Hu j st Hj).
  destruct st; simpl in *; set_solver.
Qed.

Lemma same_state_entry_ok sp h k x y :
  same_state x y → entry_ok sp h k x → entry_ok sp h k y.
Proof. intros [Ha Hp]. destruct x, y; simplify_eq/=; done. Qed.

(** *** Messages *)

Lemma msg_ok_app sp h h' m : msg_ok sp h m → msg_ok sp (h ++ h') m.
Proof.
  destruct m; simpl; try done.
  - intros [? ?]. split; [done|]. by apply lookup_app_l_Some.
  - rewrite zlen_app. pose proof (zlen_nonneg h'). lia.
Qed.

Lemma data_msgs_ok sp tx : ∀ h S,
  zlen h = S + 1 → -1 <= S → S + zlen tx < I64_MOD - 1 → map fst tx = seq_nums S (length tx) →
  Forall (msg_ok sp (h ++ map snd tx)) (data_msgs tx).
Proof.
  induction tx as [|[sn p] tx IH]; intros h S Hh HS Hb Hsn; [constructor|]. simpl in *.
  rewrite zlen_cons in Hb. pose proof (zlen_nonneg tx). injection Hsn as -> Hsn.
  rewrite wrap64_small by (unfold is_u64; lia). constructor.
  - simpl. split; [lia|]. rewrite lookup_app_r by (unfold zlen in *; lia).
    replace (Z.to_nat (S + 1) - length h)%nat with 0%nat by (unfold zlen in *; lia). done.
  - rewrite (cons_middle p h (map snd tx)). rewrite app_assoc.
    apply (IH (h ++ [p]) (S + 1)); [rewrite zlen_app; simpl; unfold zlen in *; simpl; lia|lia|lia|done].
Qed.

(** A step of the sending side alone. *)
Lemma inv_tx_update sp s r cs cr S Q h n d s' cs' Q' tx extra :
  inv sp (mk_sys s r cs cr S Q h n d) →
  sender_wf (S + zlen tx) Q' s' → S + zlen tx < I64_MOD - 1 → map fst tx = seq_nums S (length tx) →
  win_ok sp (h ++ map snd tx) (S + zlen tx) (unacked s') →
  s_window_size s' <= w → zlen (unacked s') <= w →
  Forall (msg_ok sp (h ++ map snd tx)) extra →
  inv sp (mk_sys s' r cs' cr (S + zlen tx) Q' (h ++ map snd tx) (n ++ data_msgs tx ++ extra) d).
Proof.
  intros Hi Hwf Hb Hsn Hwin Hws Hwl Hextra. destruct Hi; simpl in *.
  pose proof (zlen_nonneg tx). pose proof (wf_S _ _ _ _ inv_tx0).
  split; simpl; try done.
  - rewrite zlen_app. unfold zlen in *. rewrite length_map. lia.
  - lia.
  - apply Forall_app. split; [|apply Forall_app; split; [|done]].
    + revert inv_net0. apply Forall_impl. intros m. apply msg_ok_app.
    + by apply (data_msgs_ok sp tx h S).
  - intros sn p (? & ? & ? & ?)%inv_delivered_in0. split_and!; try done. by apply lookup_app_l_Some.
  - intros k Hkc. apply elem_of_app. left. auto.
Qed.

(** *** Preservation by the sending side *)

Lemma app_call_inv sp s r cs cr S Q h n d c s' tx :
  inv sp (mk_sys s r cs cr S Q h n d) →
  app_call c → call_ok S Q s c → exec s c = Ret (s', tx) →
  win_ok sp (h ++ map snd tx) (S + sends s c) (unacked s') ∧
  s_window_size s' <= w ∧ zlen (unacked s') <= w ∧ zlen tx = sends s c.
Proof.
  intros Hi Ha Hc He. destruct Hi; simpl in *. destruct inv_window0 as [Hws Hwl].
  destruct c as [p|k|k|i|k|i m|k m|k| | |m]; try done; simpl in *;
    try (apply outcome_bind_Ret in He as (res & E & [= <- <-]); simpl; rewrite Z.add_0_r, app_nil_r).
  - revert He. unfold enqueue_packet. destruct (is_blocked s || has_blocked_packets s) eqn:Eb;
      intros [= <- <-]; simpl; [by rewrite Z.add_0_r, app_nil_r|].
    apply orb_false_iff in Eb as [Eb _]. unfold is_blocked in Eb. apply Z.leb_gt in Eb.
    autorewrite with zlen. simpl. split; [|split; [done|split; [lia|done]]].
    apply (win_ok_append sp h S (unacked s) [_] [p]); try done. apply inv_tx0.
  - destruct Hc as [Hid Hle]. destruct (cancel_queued_wf S Q s i inv_tx0 Hid Hle) as (s1 & ? & ? & E1 & _ & Hu).
    rewrite E in E1. injection E1 as ->. destruct (cancel_queued_same _ _ _ _ _ E) as [_ Hw']. simpl.
    by rewrite Hu, Hw'.
  - pose proof (limit_id_unacked _ _ _ _ E) as Hf. destruct (limit_id_same _ _ _ _ E) as [_ ->].
    split; [eapply win_ok_pointwise; eauto using same_state_entry_ok|].
    apply Forall2_length in Hf. unfold zlen in *. rewrite <- Hf. done.
  - pose proof (limit_seq_unacked _ _ _ _ E) as Hf. destruct (limit_seq_same _ _ _ _ E) as (_ & _ & ->).
    split; [eapply win_ok_pointwise; eauto using same_state_entry_ok|].
    apply Forall2_length in Hf. unfold zlen in *. rewrite <- Hf. done.
  - destruct (forget_wf S Q s k inv_tx0 Hc) as (s1 & E1 & _ & Hcase).
    rewrite E in E1. injection E1 as <-. destruct (forget_same _ _ _ E) as (_ & _ & ->).
    destruct Hcase as [[-> _]|(st & Hk & Hl & ->)]; [done|].
    split; [|split; [done|split; [|done]]; by etrans; [apply replace_entry_len|]].
    apply win_ok_replace; [done|lia|].
    destruct inv_win0 as [Hu _]. specialize (Hu _ _ Hl). rewrite Z2Nat.id in Hu by lia.
    change (S + 1 - zlen (unacked s)) with (win_base S s) in Hu.
    destruct st as [? ? [] ? ?| | |]; simpl in *; try done.
    apply (wf_can _ _ (rf_wf _ _ _ inv_rx0)). done.
  - apply adjust_Ret in E as ->. simpl. split; [done|]. split; [lia|done].
Qed.

Lemma ack_entry_inv sp s r cs cr S Q h n d sn (is_canceled : bool) s1 :
  inv sp (mk_sys s r cs cr S Q h n d) →
  (if is_canceled then MCanceled sn else MAck sn) ∈ n →
  (if is_canceled then r ← process_canceled s sn; Ret r.1
   else r ← process_ack s sn; Ret r.1.1) = Ret s1 →
  sender_wf S Q s1 ∧ win_ok sp h S (unacked s1) ∧ same_queue s s1 ∧
  zlen (unacked s1) <= zlen (unacked s).
Proof.
  intros Hi Hin E. destruct Hi; simpl in *. destruct inv_window0 as [Hws Hwl].
  rewrite list.Forall_forall in inv_net0. specialize (inv_net0 _ Hin).
  assert (sn ∈ acc sp) as Hacc.
  { destruct is_canceled; simpl in *; [by apply (wf_can _ _ (rf_wf _ _ _ inv_rx0))|naive_solver]. }
  pose proof (wf_nonneg _ _ (rf_wf _ _ _ inv_rx0) sn Hacc).
  pose proof (wf_acc_le _ _ (rf_wf _ _ _ inv_rx0) sn (or_intror Hacc)).
  assert (near sn S) as Hnear by (unfold near; pose proof (wf_S _ _ _ _ inv_tx0); lia).
  rewrite <- (wrap64_small sn) in E by (unfold is_u64; lia).
  destruct is_canceled; apply outcome_bind_Ret in E as (res & E & [= <-]).
  - destruct (process_canceled_cases S Q s sn inv_tx0 Hnear) as (s2 & wk & E1 & Hwf & Hcase).
    rewrite E in E1. injection E1 as ->. simpl. split; [done|].
    split; [|split; [by eapply process_canceled_same|]];
      (destruct Hcase as [[-> _]|(w' & f & Hk & Hl & ->)]; [done|]).
    + apply win_ok_replace; [done|lia|].
      replace (win_base S s + (sn - win_base S s)) with sn by lia. by destruct f.
    + apply replace_entry_len.
  - destruct (process_ack_cases S Q s sn inv_tx0 Hnear) as (s2 & pk & wk & E1 & Hwf & Hcase).
    rewrite E in E1. injection E1 as ->. simpl. split; [done|].
    split; [|split; [by eapply process_ack_same|]];
      (destruct Hcase as [[-> _]|(st & Hk & Hl & _ & ->)]; [done|]).
    + apply win_ok_replace; [done|lia|].
      by replace (win_base S s + (sn - win_base S s)) with sn by lia.
    + apply replace_entry_len.
Qed.

(** *** Preservation by the receiving side *)

Lemma rx_inv sp s r cs cr S Q h n d sn p (c : bool) sp' disp r' cr' :
  inv sp (mk_sys s r cs cr S Q h n d) → 0 <= sn <= S → h !! Z.to_nat sn = Some p →
  (c = true → MCancel sn ∈ n) → spec_step w sp sn c sp' disp → refines w r' sp' →
  inv sp' (mk_sys s r' cs cr' S Q h (n ++ reply disp sn)
             (d ++ if should_process disp then [(sn, p)] else [])).
Proof.
  intros Hi Hsn Hp Hcm Hst Hr'. pose proof (rf_wf _ _ _ (inv_rx _ _ Hi)) as Hwf. destruct Hi; simpl in *.
  destruct Hst as [Hold Ha|j Hj Hnew|Hlow Hwin Hna|Hlow Ha]; simpl.
  - split; simpl; rewrite ?app_nil_r; done.
  - split; simpl; rewrite ?app_nil_r; done.
  - assert (sn ∉ acc sp) as Hnacc by (intros ?; apply Hna; by right).
    assert (∀ k, k ∈ acc sp → k ≠ sn) as Hne by (intros k Hk ->; done).
    assert (∀ k, k ∈ can sp → k ∈ acc sp) as Hca by apply Hwf.
    split; simpl; try done.
    + lia.
    + eapply win_ok_mono; [| |done]; simpl; destruct c; set_solver.
    + apply Forall_app. split.
      * revert inv_net0. apply Forall_impl. intros []; simpl; destruct c; set_solver.
      * destruct c; simpl; repeat constructor; simpl; set_solver.
    + intros k q. rewrite elem_of_app. intros [Hin|Hin].
      * destruct (inv_delivered_in0 k q Hin) as (? & ? & ? & ?). destruct c; set_solver.
      * destruct c; simpl in Hin; [by apply not_elem_of_nil in Hin|].
        apply list_elem_of_singleton in Hin as [= -> ->]. set_solver by lia.
    + intros k. rewrite fmap_app, elem_of_app, elem_of_union, elem_of_singleton.
      destruct c; simpl; [set_solver|]. intros [->|?] ?; [right|left]; set_solver.
    + rewrite fmap_app. destruct c; simpl; [by rewrite app_nil_r|].
      apply list.NoDup_app. split_and!; [done| |apply NoDup_singleton]. simpl.
      intros k Hk ->%list_elem_of_singleton.
      apply list_elem_of_fmap in Hk as ([? q] & -> & Hin). by apply inv_delivered_in0 in Hin as (? & ? & ? & ?).
    + intros k Hk. apply elem_of_app. left. destruct c; [|by apply inv_can0].
      apply elem_of_union in Hk as [->%elem_of_singleton|Hk]; auto.
  - assert (sn ∈ acc sp) as Hacc by (by destruct Ha; [lia|]).
    assert (should_process (if decide (was_canceled sp sn) then AckCancelDoNotProcess else AckDoNotProcess) = false)
      as -> by (by destruct (decide _)).
    split; simpl; rewrite ?app_nil_r; try done.
    + apply Forall_app. split; [done|].
      destruct (decide (was_canceled sp sn)) as [[?|?]|Hnc]; repeat constructor; simpl; try done; try lia.
      intros ?. apply Hnc. by right.
    + intros k Hk. apply elem_of_app. auto.
Qed.

Lemma rx_process sp s r cs cr S Q h n d sn (c : bool) :
  1 <= w <= 63 → inv sp (mk_sys s r cs cr S Q h n d) → 0 <= sn <= S →
  ∃ sp', spec_step w sp sn c sp' (process_packet_or_cancel r sn c).2 ∧
         refines w (process_packet_or_cancel r sn c).1 sp'.
Proof.
  intros Hw Hi Hsn. pose proof (wf_high _ _ (rf_wf _ _ _ (inv_rx _ _ Hi))). destruct Hi; simpl in *.
  pose proof (process_refines w Hw r sp sn c inv_rx0 ltac:(lia)) as Hpr.
  by rewrite wrap64_small in Hpr by (unfold is_u64; lia).
Qed.

Definition grows (sp sp' : Spec) : Prop :=
  acc sp ⊆ acc sp' ∧ (∀ k, k ∈ acc sp → k ∈ can sp' → k ∈ can sp) ∧ can sp ⊆ can sp'.

#[local] Instance grows_preorder : PreOrder grows.
Proof.
  split; [by intros sp|]. intros a b c (? & ? & ?) (? & ? & ?). split_and!; set_solver.
Qed.

Lemma spec_step_grows sp k c sp' d : spec_step w sp k c sp' d → 0 <= k → grows sp sp'.
Proof.
  intros Hst Hk. destruct Hst as [| |? ? Hna|]; try reflexivity.
  assert (k ∉ acc sp) by (intros ?; apply Hna; by right).
  split_and!; simpl; destruct c; set_solver.
Qed.

Lemma step_data_inv sp s r cs cr S Q h n d sn p full cr' r' rep queued :
  1 <= w <= 63 → inv sp (mk_sys s r cs cr S Q h n d) → MData sn p ∈ n →
  dispatch_data cr r sn full = (cr', r', rep, queued) →
  ∃ sp', grows sp sp' ∧
    inv sp' (mk_sys s r' cs cr' S Q h (n ++ rep) (d ++ if (queued : bool) then [(sn, p)] else [])).
Proof.
  intros Hw Hi Hin Hd. pose proof (inv_net _ _ Hi) as Hn. rewrite list.Forall_forall in Hn.
  destruct (Hn _ Hin) as [Hsn Hp]. pose proof (inv_hist _ _ Hi) as Hh. simpl in *.
  assert (sn <= S) by (apply lookup_lt_Some in Hp; unfold zlen in Hh; lia).
  revert Hd. unfold dispatch_data. rewrite should_process_eq. unfold process_packet.
  destruct (rx_process sp s r cs cr S Q h n d sn false Hw Hi ltac:(lia)) as (sp' & Hst & Hr').
  destruct (process_packet_or_cancel r sn false) as [r1 disp]. cbn [fst snd] in *.
  destruct (should_process disp && full) eqn:E.
  - intros [= <- <- <- <-]. exists sp. split; [reflexivity|]. rewrite !app_nil_r. destruct Hi. by split.
  - destruct (count_zdpr_receiver_stats cr r1) as [m1 r2] eqn:Ec. intros [= <- <- <- <-].
    exists sp'. split; [exact (spec_step_grows _ _ _ _ _ Hst Hsn)|].
    apply (rx_inv sp s r cs cr S Q h n d sn p false sp' disp r2 m1 Hi ltac:(lia) Hp ltac:(done) Hst).
    by eapply count_receiver_refines.
Qed.

Lemma step_cancel_inv sp s r cs cr S Q h n d sn cr' r' rep :
  1 <= w <= 63 → inv sp (mk_sys s r cs cr S Q h n d) → MCancel sn ∈ n →
  cancel_data cr r sn = (cr', r', rep) →
  ∃ sp', grows sp sp' ∧ inv sp' (mk_sys s r' cs cr' S Q h (n ++ rep) d).
Proof.
  intros Hw Hi Hin Hd. pose proof (inv_net _ _ Hi) as Hn. rewrite list.Forall_forall in Hn.
  pose proof (Hn _ Hin) as Hsn. pose proof (inv_hist _ _ Hi) as Hh. simpl in *.
  revert Hd. unfold cancel_data, process_cancel.
  destruct (rx_process sp s r cs cr S Q h n d sn true Hw Hi ltac:(lia)) as (sp' & Hst & Hr').
  destruct (process_packet_or_cancel r sn true) as [r1 disp]. cbn [fst snd] in *.
  destruct (count_zdpr_receiver_stats cr r1) as [m1 r2] eqn:Ec. intros [= <- <- <-].
  exists sp'. split; [exact (spec_step_grows _ _ _ _ _ Hst (proj1 Hsn))|].
  destruct (lookup_lt_is_Some_2 h (Z.to_nat sn)) as [p Hp]; [unfold zlen in *; lia|].
  assert (should_process disp = false) as Hnp.
  { destruct (should_process disp) eqn:E; [|done]. by destruct (spec_step_process w Hw _ _ _ _ _ Hst E) as (? & ? & ?). }
  pose proof (rx_inv sp s r cs cr S Q h n d sn p true sp' disp r2 m1 Hi ltac:(lia) Hp (λ _, Hin) Hst) as Hres.
  rewrite Hnp, app_nil_r in Hres. apply Hres. by eapply count_receiver_refines.
Qed.

(** *** The invariant is inductive *)

Lemma step_call_inv sp s r cs cr S Q h n d c s' tx :
  inv sp (mk_sys s r cs cr S Q h n d) → app_call c → call_ok S Q s c → exec s c = Ret (s', tx) →
  S + sends s c < I64_MOD - 1 →
  inv sp (mk_sys s' r cs cr (S + sends s c) (Q + queues s c) (h ++ map snd tx) (n ++ data_msgs tx) d).
Proof.
  intros Hi Ha Hc He Hb.
  pose proof (inv_tx _ _ Hi) as Htx. destruct (inv_window _ _ Hi) as [Hws Hwl].
  pose proof (inv_bound _ _ Hi) as Hbd. simpl in Htx, Hws, Hwl, Hbd. pose proof (wf_S _ _ _ _ Htx) as HS.
  destruct (app_call_inv sp s r cs cr S Q h n d c s' tx Hi Ha Hc He) as (Hwin & Hws' & Hwl' & Htxl).
  destruct (exec_wf S Q s c Htx Hc) as (s1 & tx1 & E1 & Hwf). rewrite He in E1. injection E1 as <- <-.
  destruct (exec_seq_nums S s c s' tx (wf_last_sent _ _ _ _ Htx) He) as [_ Hsn].
  rewrite <- Htxl in *. rewrite <- (app_nil_r (data_msgs tx)). by eapply inv_tx_update.
Qed.

Lemma step_request_cancel_inv sp s r cs cr S Q h n d k s' pkt :
  inv sp (mk_sys s r cs cr S Q h n d) → 0 <= k <= S → cancel_sent_packet s (wrap64 k) = Ret (s', pkt) →
  inv sp (mk_sys s' r cs cr S Q h (n ++ if pkt is Some _ then [MCancel (wrap64 k)] else []) d).
Proof.
  intros Hi Hk He.
  pose proof (inv_tx _ _ Hi) as Htx. destruct (inv_window _ _ Hi) as [Hws Hwl].
  pose proof (inv_bound _ _ Hi) as Hbd. simpl in Htx, Hws, Hwl, Hbd. pose proof (wf_S _ _ _ _ Htx) as HS.
  destruct (cancel_sent_cases S Q s k Htx ltac:(unfold near; lia)) as (s1 & pk & E1 & Hwf & _ & Hcase).
  rewrite He in E1. injection E1 as <- <-. destruct (cancel_sent_same _ _ _ _ He) as (_ & _ & Hw').
  pose proof (inv_tx_update sp s r cs cr S Q h n d s' cs Q [] (if pkt is Some _ then [MCancel (wrap64 k)] else []) Hi)
    as Hup. simpl in Hup. rewrite Z.add_0_r, app_nil_r in Hup. apply Hup; clear Hup; try done.
  + destruct Hcase as [[-> _]|(p & w' & l & c & f & Hin & Hlk & _ & ->)]; [apply Hi|].
    apply win_ok_insert; [apply Hi|done].
  + by rewrite Hw'.
  + destruct Hcase as [[-> _]|(p & w' & l & c & f & _ & _ & _ & ->)]; [done|by rewrite zlen_insert].
  + rewrite wrap64_small by (unfold is_u64; lia). pose proof (inv_hist _ _ Hi) as Hh. simpl in Hh.
    destruct pkt; repeat constructor; simpl; lia.
Qed.

Lemma step_retry_inv sp s r cs cr S Q h n d :
  inv sp (mk_sys s r cs cr S Q h n d) →
  inv sp (mk_sys (retry_tick cs s).1.2 r (retry_tick cs s).1.1 cr S Q h (n ++ (retry_tick cs s).2) d).
Proof.
  intros Hi.
  pose proof (inv_tx _ _ Hi) as Htx. destruct (inv_window _ _ Hi) as [Hws Hwl].
  pose proof (inv_bound _ _ Hi) as Hbd. simpl in Htx, Hws, Hwl, Hbd. pose proof (wf_S _ _ _ _ Htx) as HS.
  pose proof (age_wf S Q s Htx) as Hwf.
  pose proof (inv_tx_update sp s r cs cr S Q h n d (retry_tick cs s).1.2 (retry_tick cs s).1.1 Q [] (retry_tick cs s).2 Hi) as Hup.
  simpl in Hup. rewrite Z.add_0_r, app_nil_r in Hup. simpl.
  assert (win_ok sp h S (unacked (age_retries s).1)) as Hwin.
  { eapply (win_ok_pointwise _ _ _ (unacked s) _ (λ x y, y = (unacked_age_retries x).2)); [apply Hi| |].
    - simpl. apply Forall2_fmap_r, Forall_Forall2_diag, Forall_true. done.
    - intros k x y0 ->. destruct x as [? ? [l|] c ?| | |]; simpl; try done. by destruct (l <=? c). }
  apply Hup; clear Hup; try done; [unfold zlen in *; simpl; by rewrite length_map|].
  pose proof (inv_hist _ _ Hi) as Hh. simpl in Hh.
  assert (0 <= win_base S (age_retries s).1) as Hbase
    by (unfold win_base; pose proof (wf_unacked_sent _ _ _ _ Hwf); lia).
  apply Forall_app. split; apply list.Forall_forall; intros m Hm; apply list_elem_of_fmap in Hm as (x & -> & Hx).
  + destruct x as [sn p]. apply (retry_packets_iff S Q _ sn p Hwf) in Hx as (k & ? & ? & ? & ? & Hk & -> & Hlk).
    rewrite wrap64_small by (unfold is_u64; lia). split; [lia|].
    destruct Hwin as [Hwin _]. specialize (Hwin _ _ Hlk). simpl in Hwin.
    replace k with (S + 1 - zlen (unacked (age_retries s).1) + Z.of_nat (Z.to_nat (k - win_base S (age_retries s).1)))
      by (unfold win_base in *; lia). done.
  + apply (retry_cancels_iff S Q _ x Hwf) in Hx as (k & ? & ? & Hk & -> & Hlk).
    rewrite wrap64_small by (unfold is_u64; lia). simpl. lia.
Qed.

Lemma step_ack_inv sp s r cs cr S Q h n d sn (isc : bool) cs' s' tx restart :
  1 <= w <= 63 → inv sp (mk_sys s r cs cr S Q h n d) → (if isc then MCanceled sn else MAck sn) ∈ n →
  zlen (unacked s) + zlen (blocked s) < I64_MOD - 1 →
  ack_data cs s sn isc = Ret (cs', s', tx, restart) →
  S + zlen tx < I64_MOD - 1 →
  inv sp (mk_sys s' r cs' cr (S + zlen tx) Q (h ++ map snd tx) (n ++ data_msgs tx) d).
Proof.
  intros Hw Hi Hin Hl He Hb.
  pose proof (inv_tx _ _ Hi) as Htx. destruct (inv_window _ _ Hi) as [Hws Hwl].
  pose proof (inv_bound _ _ Hi) as Hbd. simpl in Htx, Hws, Hwl, Hbd. pose proof (wf_S _ _ _ _ Htx) as HS.
  revert He. unfold ack_data.
  intros (s1 & E1 & He)%outcome_bind_Ret.
  destruct (ack_entry_inv sp s r cs cr S Q h n d sn isc s1 Hi Hin E1) as (Hwf1 & Hwin1 & (Hbl & _ & Hw1) & Hl1).
  destruct (count_zdpr_sender_stats cs s1) as [m2 s2] eqn:Ec.
  pose proof (count_sender_wf S Q cs s1 m2 s2 Hwf1 Ec) as Hwf2.
  pose proof (count_sender_frame _ _ _ _ Ec) as Hs2. rewrite Hs2 in He.
  apply outcome_bind_Ret in He as ([s3 tx3] & E3 & [= <- <- <- <-]).
  destruct (unblock_loop_spec (length (blocked s2)) S Q s2 Hwf2 ltac:(lia)) as
    (s4 & tx4 & E4 & Hwf4 & _ & Hsn & extra & Hu & Hx & Hlw & Hww).
  { rewrite Hs2. simpl. rewrite Hbl. unfold zlen in *. lia. }
  rewrite <- Hs2 in E3. rewrite E4 in E3. injection E3 as <- <-.
  rewrite <- (app_nil_r (data_msgs tx4)). rewrite Hs2 in Hu, Hlw, Hww. simpl in Hu, Hlw, Hww.
  eapply inv_tx_update; try done.
  + rewrite Hu. replace (zlen tx4) with (zlen (map snd tx4)) by (unfold zlen; by rewrite length_map).
    apply win_ok_append; [done|apply Hi|apply Hwf1|]. rewrite Hx. by rewrite list_fmap_compose.
  + by rewrite Hww, Hw1.
  + destruct Hlw as [Hz|Hz]; [|lia]. apply (f_equal length) in Hx. rewrite !length_fmap in Hx.
    rewrite Hu, zlen_app. unfold zlen in *. lia.
Qed.

Lemma sys_step_inv sp y y' :
  1 <= w <= 63 → inv sp y → sys_step y y' → ∃ sp', grows sp sp' ∧ inv sp' y'.
Proof.
  intros Hw Hi Hstep. destruct Hstep.
  4: by eapply step_data_inv. 4: by eapply step_cancel_inv.
  all: exists sp; split; [reflexivity|].
  - by eapply step_call_inv.
  - by eapply step_request_cancel_inv.
  - by eapply step_retry_inv.
  - by eapply step_ack_inv.
Qed.

Lemma sys_init_inv y : 1 <= w <= 63 → sys_init y → inv spec_init y.
Proof.
  intros Hw [r Hr]. destruct (receiver_new_refines w Hw) as (r' & Hr' & Href).
  rewrite Hr in Hr'. injection Hr' as <-.
  split; simpl; [apply sender_new_wf|done|lia|done|done|..|constructor|set_solver].
  - split; [by intros j st Hj|]. simpl. unfold zlen. simpl. lia.
  - unfold zlen. simpl. lia.
  - done.
  - by intros sn p ?%not_elem_of_nil.
  - intros sn Hsn. simpl in Hsn. set_solver.
Qed.

Lemma sys_steps_inv sp y y' :
  1 <= w <= 63 → inv sp y → rtc sys_step y y' → ∃ sp', grows sp sp' ∧ inv sp' y'.
Proof.
  intros Hw Hi Hr. revert sp Hi. induction Hr as [y|y y' y'' Hs _ IH]; intros sp Hi; [by exists sp|].
  destruct (sys_step_inv sp y y' Hw Hi Hs) as (sp' & Hg & Hi'). destruct (IH sp' Hi') as (sp2 & ? & ?).
  exists sp2. split; [by etrans|done].
Qed.

Lemma sys_reach_inv y : 1 <= w <= 63 → sys_reach y → ∃ sp, inv sp y.
Proof.
  intros Hw (y0 & H0 & Hr).
  destruct (sys_steps_inv spec_init y0 y Hw (sys_init_inv y0 Hw H0) Hr) as (sp & _ & Hi). eauto.
Qed.
End system.
Arguments Sys : clear implicits.

(** ** Properties *)

Section statements.
Context {Pkt : Type} `{!SizeOf (UnackedState Pkt)}.

(** The receiver replies to any packet of the sender's window. *)
Lemma window_packet_acked (w : Z) (y : Sys Pkt) sp sn (c : bool) :
  1 <= w <= 63 → inv w sp y → win_base (S_ideal y) (tx_side y) <= sn <= S_ideal y →
  reply (Pkt := Pkt) (process_packet_or_cancel (rx_side y) sn c).2 sn = [MAck sn] ∨
  reply (Pkt := Pkt) (process_packet_or_cancel (rx_side y) sn c).2 sn = [MCanceled sn].
Proof.
  intros Hw Hi Hsn. destruct y as [s r cs cr S Q h n d]. simpl in *.
  pose proof (inv_tx _ _ _ Hi) as Htx. destruct (inv_window _ _ _ Hi) as [_ Hwl]. simpl in *.
  pose proof (wf_unacked_sent _ _ _ _ Htx) as Hub. unfold win_base in *.
  destruct (rx_process w sp s r cs cr S Q h n d sn c Hw Hi ltac:(lia)) as (sp' & Hst & _).
  destruct (process_packet_or_cancel r sn c) as [r1 disp]. simpl in *.
  pose proof (inv_high _ _ _ Hi) as Hh. simpl in Hh. destruct Hst as [Hold _|j Hj Hnew| |].
  - lia.
  - destruct (Z.lt_ge_cases j 0); [by destruct Hj; left|].
    assert (S + 1 - zlen (unacked s) <= j); [|lia].
    destruct (Z.lt_ge_cases j (S + 1 - zlen (unacked s))); [|lia]. destruct Hj. right.
    by apply (inv_win _ _ _ Hi).
  - destruct c; auto.
  - destruct (decide _); auto.
Qed.

Lemma window_data_reply (w : Z) (y : Sys Pkt) sp sn cr :
  1 <= w <= 63 → inv w sp y → win_base (S_ideal y) (tx_side y) <= sn <= S_ideal y →
  let rep := (dispatch_data (Pkt := Pkt) cr (rx_side y) sn false).1.2 in
  rep = [MAck sn] ∨ rep = [MCanceled sn].
Proof.
  intros Hw Hi Hsn. pose proof (window_packet_acked w y sp sn false Hw Hi Hsn) as Hr.
  unfold dispatch_data, process_packet. rewrite andb_false_r.
  destruct (process_packet_or_cancel _ _ _) as [r1 disp].
  by destruct (count_zdpr_receiver_stats _ _).
Qed.

Lemma window_cancel_reply (w : Z) (y : Sys Pkt) sp sn cr :
  1 <= w <= 63 → inv w sp y → win_base (S_ideal y) (tx_side y) <= sn <= S_ideal y →
  let rep := (cancel_data (Pkt := Pkt) cr (rx_side y) sn).2 in
  rep = [MAck sn] ∨ rep = [MCanceled sn].
Proof.
  intros Hw Hi Hsn. pose proof (window_packet_acked w y sp sn true Hw Hi Hsn) as Hr.
  unfold cancel_data, process_cancel.
  destruct (process_packet_or_cancel _ _ _) as [r1 disp].
  by destruct (count_zdpr_receiver_stats _ _).
Qed.
End statements.

(** C1: exactly-once delivery, end to end: over a substrate that loses,
    duplicates and reorders packets, with retries, cancellations, forgotten
    cancellations, window changes and full processor queues, every packet is
    handed to the receiving node's processor at most once, and with the
    contents it was sent with; and every acknowledgement in flight is for a
    packet that has been handed up. *)
Theorem session_exactly_once {Pkt} `{!SizeOf (UnackedState Pkt)} (w : Z) (y : Sys Pkt) :
  1 <= w <= 63 → sys_reach w y →
  NoDup (delivered y).*1 ∧
  (∀ sn p, (sn, p) ∈ delivered y → history y !! Z.to_nat sn = Some p) ∧
  (∀ sn, MAck sn ∈ net y → ∃ p, (sn, p) ∈ delivered y).
Proof.
  intros Hw (sp & Hi)%sys_reach_inv; [|done]. split_and!; [apply Hi| |].
  - intros sn p Hin. by apply (inv_delivered_in _ _ _ Hi).
  - intros sn Hin. pose proof (inv_net _ _ _ Hi) as Hn. rewrite list.Forall_forall in Hn.
    destruct (Hn _ Hin) as [Ha Hc]. pose proof (inv_delivered_all _ _ _ Hi sn Ha Hc) as Hd.
    apply list_elem_of_fmap in Hd as ([? p] & -> & ?). eauto.
Qed.

(** The session with nothing sent yet, then one packet sent. *)
Definition witness_receiver : Receiver :=
  {| r_window_size := 32; highest_seen := U64_MOD - 1; recvd := BITSET_MAX;
     canceled := BITSET_MAX; r_stats := λ _, 0 |}.
Definition witness_start : Sys nat :=
  mk_sys sender_new witness_receiver (λ _, 0) (λ _, 0) (-1) (-1) [] [] [].
Definition witness_sent : Sys nat :=
  mk_sys (enqueue_packet sender_new 7%nat).1 witness_receiver (λ _, 0) (λ _, 0) 0 (-1)
         [7%nat] [MData 0 7%nat] [].

Lemma witness_sent_reach : sys_reach 32 witness_sent.
Proof.
  exists witness_start. split; [by constructor|]. apply rtc_once.
  apply (step_call 32 sender_new witness_receiver (λ _, 0) (λ _, 0) (-1) (-1) [] [] [] (CallEnqueue 7%nat)
    (enqueue_packet sender_new 7%nat).1 [(0, 7%nat)]);
    [done|split; unfold zlen; simpl; lia|reflexivity|simpl; lia].
Qed.

Lemma session_exactly_once_witness :
  NoDup (delivered witness_sent).*1 ∧
  (∀ sn p, (sn, p) ∈ delivered witness_sent → history witness_sent !! Z.to_nat sn = Some p) ∧
  (∀ sn, MAck sn ∈ net witness_sent → ∃ p, (sn, p) ∈ delivered witness_sent).
Proof. apply (session_exactly_once 32 witness_sent); [lia|apply witness_sent_reach]. Defined.

(** C2: what the sender learns is true and stays true.  A packet the sender sees as
    acknowledged, or that left its window, has been handed up by the receiver,
    unless the sender had requested its cancellation, in which case it may instead
    never be handed up, however the session continues.  One it sees as
    cancel-acknowledged had been requested to be canceled, has not been handed up
    and never will be. *)
Theorem session_status_sound {Pkt} `{!SizeOf (UnackedState Pkt)} (w : Z) (y y' : Sys Pkt) (k : Z) :
  1 <= w <= 63 → sys_reach w y → rtc (sys_step w) y y' → 0 <= k <= S_ideal y →
  (sent_state (S_ideal y) (tx_side y) k = Some CANCEL_ACKED → MCancel k ∈ net y ∧ k ∉ (delivered y').*1) ∧
  (sent_state (S_ideal y) (tx_side y) k = Some ACKED ∨ sent_state (S_ideal y) (tx_side y) k = Some FORGOTTEN →
   k ∈ (delivered y).*1 ∨ MCancel k ∈ net y ∧ k ∉ (delivered y').*1).
Proof.
  intros Hw Hr Hrt Hk. destruct (sys_reach_inv w y Hw Hr) as (sp & Hi).
  destruct (sys_steps_inv w sp y y' Hw Hi Hrt) as (sp' & (Hga & Hgc & Hgs) & Hi').
  assert (k ∈ can sp → MCancel k ∈ net y ∧ k ∉ (delivered y').*1) as Hnd.
  { intros Hc. split; [by apply (inv_can _ _ _ Hi)|]. intros Hin.
    apply list_elem_of_fmap in Hin as ([? p] & -> & Hin).
    apply (inv_delivered_in _ _ _ Hi') in Hin as (? & ? & ? & Hn). apply Hn, Hgs, Hc. }
  destruct (inv_win _ _ _ Hi) as [Hwin Hf]. unfold sent_state.
  destruct (Z.ltb_spec (S_ideal y) k); [lia|].
  assert (k ∈ acc sp → k ∈ (delivered y).*1 ∨ MCancel k ∈ net y ∧ k ∉ (delivered y').*1) as Hacc.
  { intros Ha. destruct (decide (k ∈ can sp)) as [Hc|Hc]; [right; auto|left].
    by apply (inv_delivered_all _ _ _ Hi). }
  destruct (Z.ltb_spec k (win_base (S_ideal y) (tx_side y))) as [Hlt|Hge].
  { split; [done|]. intros _. apply Hacc, Hf. unfold win_base in Hlt. lia. }
  destruct (unacked (tx_side y) !! Z.to_nat (k - win_base (S_ideal y) (tx_side y))) as [st|] eqn:Hl;
    [|by split; [|intros [|]]].
  specialize (Hwin _ _ Hl). unfold win_base in *. rewrite Z2Nat.id in Hwin by lia.
  replace (S_ideal y + 1 - zlen (unacked (tx_side y)) + (k - (S_ideal y + 1 - zlen (unacked (tx_side y)))))
    with k in Hwin by lia.
  destruct st; simpl in *; (split; [try done|intros [|]; try done]); auto.
Qed.

(** Three packets are sent; the second is delivered and acknowledged, the third is
    canceled, which is acknowledged too. *)
Definition witness_calls : list (SenderCall nat) :=
  [CallAdjust 4; CallEnqueue 7%nat; CallEnqueue 8%nat; CallEnqueue 9%nat].
Definition witness_requested : Sender nat := Eval vm_compute in
  match cancel_sent_packet (after_calls witness_calls) 2 with Ret (s, _) => s | Panic => sender_new end.
Definition witness_data := dispatch_data (Pkt := nat) (λ _, 0) witness_receiver 1 false.
Definition witness_cancel := cancel_data (Pkt := nat) witness_data.1.1.1 witness_data.1.1.2 2.
Definition acked_by (m : ManagementCounters) (s : Sender nat) (sn : Z) (isc : bool) :=
  match ack_data m s sn isc with Ret r => r | Panic => (m, s, [], false) end.
Definition witness_ack1 := acked_by (λ _, 0) witness_requested 1 false.
Definition witness_ack2 := acked_by witness_ack1.1.1.1 witness_ack1.1.1.2 2 true.
Definition witness_answered : Sys nat :=
  mk_sys witness_ack2.1.1.2 witness_cancel.1.2 witness_ack2.1.1.1 witness_cancel.1.1 2 (-1) [7; 8; 9]%nat
    [MData 0 7%nat; MData 1 8%nat; MData 2 9%nat; MCancel 2; MAck 1; MCanceled 2] [(1, 8%nat)].

(** An acknowledgement that sends nothing. *)
Lemma ack_step_quiet s r cs cr S Q h n d sn (isc : bool) :
  (if isc then MCanceled sn else MAck sn) ∈ n → zlen (unacked s) + zlen (blocked s) < I64_MOD - 1 →
  (if ack_data cs s sn isc is Ret _ then true else false) = true → (acked_by cs s sn isc).1.2 = [] → S < I64_MOD - 1 →
  sys_step 32 (mk_sys s r cs cr S Q h n d)
    (mk_sys (acked_by cs s sn isc).1.1.2 r (acked_by cs s sn isc).1.1.1 cr S Q h n d).
Proof.
  intros Hin Hl He Htx Hb. pose proof (step_ack 32 s r cs cr S Q h n d sn isc (acked_by cs s sn isc).1.1.1
    (acked_by cs s sn isc).1.1.2 (acked_by cs s sn isc).1.2 (acked_by cs s sn isc).2 Hin Hl) as H.
  rewrite Htx in H. simpl in H. rewrite !app_nil_r, Z.add_0_r in H. apply H; [|done].
  rewrite <- Htx. unfold acked_by. by destruct (ack_data cs s sn isc) as [[[[? ?] ?] ?]|].
Qed.

Lemma witness_calls_reach s r cs cr S Q h n d calls S' Q' s' tx :
  run_ok S Q s calls = Some (S', Q', s', tx) → Forall (app_call 32) calls → S' < I64_MOD - 1 →
  rtc (sys_step (Pkt := nat) 32) (mk_sys s r cs cr S Q h n d) (mk_sys s' r cs cr S' Q' (h ++ map snd tx) (n ++ data_msgs tx) d).
Proof.
  revert S Q s h n tx. induction calls as [|c calls IH]; intros S Q s h n tx.
  { intros [= <- <- <- <-] _ _. simpl. by rewrite !app_nil_r. }
  intros (s1 & tx1 & tx2 & Hc & He & Hrun & ->)%run_ok_cons [Ha Hcs]%Forall_cons_1 Hb.
  destruct (run_ok_run _ _ _ _ _ _ _ _ Hrun) as [_ HS']. pose proof (zlen_nonneg tx2).
  eapply rtc_l; [by eapply (step_call 32 s r cs cr S Q h n d c s1 tx1); [..|lia]|].
  unfold data_msgs. rewrite !map_app, !app_assoc. by apply IH.
Qed.

Ltac in_net := vm_compute; repeat first [apply list_elem_of_here|apply list_elem_of_further].

Lemma witness_answered_reach : sys_reach 32 witness_answered.
Proof.
  exists witness_start. split; [by constructor|]. etrans.
  { eapply (witness_calls_reach _ _ _ _ _ _ _ _ _ witness_calls 2 (-1) (after_calls witness_calls) [(0, 7%nat); (1, 8%nat); (2, 9%nat)]);
      [vm_compute; reflexivity|repeat constructor; simpl; lia|lia]. }
  eapply rtc_l; [apply (step_request_cancel 32 _ _ _ _ _ _ _ _ _ 2 witness_requested (Some 9%nat)); [lia|vm_compute; reflexivity]|].
  eapply rtc_l.
  { apply (step_data 32 _ _ _ _ _ _ _ _ _ 1 8%nat false witness_data.1.1.1 witness_data.1.1.2 witness_data.1.2 witness_data.2); [in_net|].
    change (witness_data = (witness_data.1.1.1, witness_data.1.1.2, witness_data.1.2, witness_data.2)). by destruct witness_data as [[[? ?] ?] ?]. }
  eapply rtc_l.
  { apply (step_cancel 32 _ _ _ _ _ _ _ _ _ 2 witness_cancel.1.1 witness_cancel.1.2 witness_cancel.2); [in_net|].
    change (witness_cancel = (witness_cancel.1.1, witness_cancel.1.2, witness_cancel.2)). by destruct witness_cancel as [[? ?] ?]. }
  assert (witness_data.1.2 = [MAck 1] ∧ witness_data.2 = true ∧ witness_cancel.2 = [MCanceled 2]) as (-> & -> & ->)
    by (vm_compute; done).
  simpl app. change (wrap64 2) with 2.
  eapply rtc_l; [apply (ack_step_quiet _ _ _ _ _ _ _ _ _ 1 false); [in_net|vm_compute; reflexivity..]|].
  eapply rtc_l; [apply (ack_step_quiet _ _ _ _ _ _ _ _ _ 2 true); [in_net|vm_compute; reflexivity..]|].
  unfold witness_answered, witness_ack2, witness_ack1. apply rtc_refl.
Qed.

Lemma session_status_sound_witness :
  let y := witness_answered in
  sent_state 2 (tx_side y) 1 = Some ACKED ∧ (1 ∈ (delivered y).*1 ∨ MCancel 1 ∈ net y ∧ 1 ∉ (delivered y).*1) ∧
  sent_state 2 (tx_side y) 2 = Some CANCEL_ACKED ∧ MCancel 2 ∈ net y ∧ 2 ∉ (delivered y).*1.
Proof.
  intros y.
  assert (sent_state 2 (tx_side y) 1 = Some ACKED) as H1 by (vm_compute; reflexivity).
  assert (sent_state 2 (tx_side y) 2 = Some CANCEL_ACKED) as H2 by (vm_compute; reflexivity).
  destruct (session_status_sound 32 y y 1) as [_ Ha];
    [lia|exact witness_answered_reach|apply rtc_refl|change (0 <= 1 <= 2); lia|].
  destruct (session_status_sound 32 y y 2) as [Hc _];
    [lia|exact witness_answered_reach|apply rtc_refl|change (0 <= 2 <= 2); lia|].
  split; [exact H1|]. split; [exact (Ha (or_introl H1))|]. split; [exact H2|exact (Hc H2)].
Defined.

(** no livelock: whenever a retransmission of a packet (or cancellation
    request) that the sender still has outstanding reaches the receiving node
    and the processor queue has room, it is answered, with an acknowledgement
    or a cancellation acknowledgement of that very sequence number; it is never
    dropped as too old or too new. *)
Theorem session_retries_answered {Pkt} `{!SizeOf (UnackedState Pkt)} (w : Z) (y : Sys Pkt) (sn : Z) cr :
  1 <= w <= 63 → sys_reach w y →
  ((∃ p, (sn, p) ∈ retry_packets (tx_side y)) →
   let rep := (dispatch_data (Pkt := Pkt) cr (rx_side y) sn false).1.2 in
   rep = [MAck sn] ∨ rep = [MCanceled sn]) ∧
  (sn ∈ retry_cancels (tx_side y) →
   let rep := (cancel_data (Pkt := Pkt) cr (rx_side y) sn).2 in
   rep = [MAck sn] ∨ rep = [MCanceled sn]).
Proof.
  intros Hw Hr. destruct (sys_reach_inv w y Hw Hr) as (sp & Hi).
  pose proof (inv_tx _ _ _ Hi) as Htx. pose proof (inv_bound _ _ _ Hi) as Hb.
  assert (0 <= win_base (S_ideal y) (tx_side y)) as Hbase
    by (unfold win_base; pose proof (wf_unacked_sent _ _ _ _ Htx); lia).
  split.
  - intros (p & (k & ? & ? & ? & ? & Hk & -> & _)%(retry_packets_iff _ _ _ _ _ Htx)).
    rewrite wrap64_small by (unfold is_u64; lia). by apply (window_data_reply w y sp).
  - intros (k & ? & ? & Hk & -> & _)%(retry_cancels_iff _ _ _ _ Htx).
    rewrite wrap64_small by (unfold is_u64; lia). by apply (window_cancel_reply w y sp).
Qed.

Lemma session_retries_answered_witness :
  (dispatch_data (Pkt := nat) (λ _, 0) (rx_side witness_sent) 0 false).1.2 = [MAck 0] ∨
  (dispatch_data (Pkt := nat) (λ _, 0) (rx_side witness_sent) 0 false).1.2 = [MCanceled 0].
Proof.
  apply (session_retries_answered 32 witness_sent 0 (λ _, 0));
    [lia|apply witness_sent_reach|]. exists 7%nat. vm_compute. left.
Defined.
