(* ===== verification/Utf8.v ===== *)
(** UTF-8 as the Rust standard library reads it: [String::from_utf8_lossy],
    which [src/adapter/ph/src/tlv.rs] applies to version strings.  A [str] is
    its list of bytes. *)
From S2P Require Import Prelude.

Definition is_cont (b : Z) : bool := (0x80 <=? b) && (b <=? 0xBF).
Definition in_rng (lo hi b : Z) : bool := (lo <=? b) && (b <=? hi).

(** Acceptable second bytes after the lead byte of a 3-byte sequence. *)
Definition second3 (b c : Z) : bool :=
  if b =? 0xE0 then in_rng 0xA0 0xBF c
  else if b =? 0xED then in_rng 0x80 0x9F c
  else in_rng 0x80 0xBF c.

(** ... and of a 4-byte sequence. *)
Definition second4 (b c : Z) : bool :=
  if b =? 0xF0 then in_rng 0x90 0xBF c
  else if b =? 0xF4 then in_rng 0x80 0x8F c
  else in_rng 0x80 0xBF c.

(** Whether a char starts here, and how many bytes it, or the ill-formed
    sequence that is replaced as a whole, takes. *)
Definition utf8_step (b : Z) (l : list Z) : bool * nat :=
  if b <? 0x80 then (true, 1%nat)
  else if in_rng 0xC2 0xDF b then
    match l with
    | c :: _ => if is_cont c then (true, 2%nat) else (false, 1%nat)
    | [] => (false, 1%nat)
    end
  else if in_rng 0xE0 0xEF b then
    match l with
    | c :: l =>
        if second3 b c then
          match l with
          | d :: _ => if is_cont d then (true, 3%nat) else (false, 2%nat)
          | [] => (false, 2%nat)
          end
        else (false, 1%nat)
    | [] => (false, 1%nat)
    end
  else if in_rng 0xF0 0xF4 b then
    match l with
    | c :: l =>
        if second4 b c then
          match l with
          | d :: l =>
              if is_cont d then
                match l with
                | e :: _ => if is_cont e then (true, 4%nat) else (false, 3%nat)
                | [] => (false, 3%nat)
                end
              else (false, 2%nat)
          | [] => (false, 2%nat)
          end
        else (false, 1%nat)
    | [] => (false, 1%nat)
    end
  else (false, 1%nat).

(** U+FFFD *)
Definition REPLACEMENT : list Z := [0xEF; 0xBF; 0xBD].

Fixpoint lossy_loop (fuel : nat) (l : list Z) : list Z :=
  match fuel, l with
  | S fuel, b :: l' =>
      let '(ok, n) := utf8_step b l' in
      (if ok then take n l else REPLACEMENT) ++ lossy_loop fuel (drop n l)
  | _, _ => []
  end.

Definition from_utf8_lossy (l : list Z) : list Z := lossy_loop (length l) l.

Fixpoint valid_loop (fuel : nat) (l : list Z) : bool :=
  match fuel, l with
  | S fuel, b :: l' => let '(ok, n) := utf8_step b l' in ok && valid_loop fuel (drop n l)
  | _, _ => true
  end.

(** What a [str] is guaranteed to be. *)
Definition is_str (l : list Z) : bool := valid_loop (length l) l.

Lemma utf8_step_pos b l : (1 <= (utf8_step b l).2)%nat.
Proof.
  unfold utf8_step. repeat (case_match; simpl; try lia).
Qed.

Lemma lossy_valid_loop fuel l :
  (length l <= fuel)%nat → valid_loop fuel l = true → lossy_loop fuel l = l.
Proof.
  revert l. induction fuel as [|fuel IH]; intros [|b l] Hl; try done; [simpl in *; lia|].
  cbn [lossy_loop valid_loop]. pose proof (utf8_step_pos b l) as Hp.
  destruct (utf8_step b l) as [ok n]. simpl in Hp. intros [-> Hv]%andb_true_iff.
  rewrite IH, take_drop; [done| |done]. rewrite length_drop. simpl in *. lia.
Qed.

(** A [str] survives. *)
Lemma from_utf8_lossy_str l : is_str l = true → from_utf8_lossy l = l.
Proof. intros H. by apply lossy_valid_loop. Qed.

(** ** The result is always a [str] *)

Lemma valid_loop_fuel fuel fuel' l :
  (length l <= fuel)%nat → (length l <= fuel')%nat → valid_loop fuel l = valid_loop fuel' l.
Proof.
  revert fuel' l. induction fuel as [|fuel IH]; intros [|fuel'] [|b l] H H'; try done; try (simpl in *; lia).
  cbn [valid_loop]. pose proof (utf8_step_pos b l) as Hp. destruct (utf8_step b l) as [ok n].
  f_equal. simpl in *. apply IH; rewrite length_drop; simpl; lia.
Qed.

(** A char is recognised whatever follows it. *)
Lemma utf8_step_local b l n r :
  utf8_step b l = (true, n) →
  (n <= S (length l))%nat ∧ utf8_step b (take (n - 1) l ++ r) = (true, n).
Proof.
  unfold utf8_step. destruct (b <? 0x80); [intros [= <-]; simpl; split; [lia|done]|].
  destruct (in_rng 0xC2 0xDF b).
  { destruct l as [|c l]; [done|]. destruct (is_cont c) eqn:E; [|done]. intros [= <-]. simpl.
    rewrite E. split; [lia|done]. }
  destruct (in_rng 0xE0 0xEF b).
  { destruct l as [|c [|d l]]; [done|by destruct (second3 b c)|].
    destruct (second3 b c) eqn:E2; [|done]. destruct (is_cont d) eqn:E3; [|done].
    intros [= <-]. simpl. rewrite E2, E3. split; [lia|done]. }
  destruct (in_rng 0xF0 0xF4 b); [|done].
  destruct l as [|c [|d [|e l]]]; [done|by destruct (second4 b c)|..].
  { by destruct (second4 b c), (is_cont d). }
  destruct (second4 b c) eqn:E2; [|done]. destruct (is_cont d) eqn:E3; [|done].
  destruct (is_cont e) eqn:E4; [|done]. intros [= <-]. simpl. rewrite E2, E3, E4. split; [lia|done].
Qed.

Lemma is_str_cons b l n :
  utf8_step b l = (true, n) → is_str (drop n (b :: l)) = true → is_str (b :: l) = true.
Proof.
  unfold is_str. intros Hs Hd. cbn [length valid_loop]. pose proof (utf8_step_pos b l) as Hp.
  rewrite Hs in *. simpl in Hp. rewrite (valid_loop_fuel _ (length (drop n (b :: l)))); [done| |done].
  rewrite length_drop. simpl. lia.
Qed.

Lemma is_str_app_char b l n r :
  utf8_step b l = (true, n) → is_str r = true → is_str (take n (b :: l) ++ r) = true.
Proof.
  intros Hs Hr. destruct (utf8_step_local b l n r Hs) as [Hn Hl].
  pose proof (utf8_step_pos b l) as Hp. rewrite Hs in Hp. simpl in Hp.
  destruct n as [|n]; [lia|]. simpl in *. rewrite Nat.sub_0_r in Hl. eapply is_str_cons; [done|].
  simpl. rewrite drop_app_length'; [done|]. rewrite length_take. lia.
Qed.

Lemma lossy_loop_str fuel l : is_str (lossy_loop fuel l) = true.
Proof.
  revert l. induction fuel as [|fuel IH]; intros [|b l]; try done. cbn [lossy_loop].
  destruct (utf8_step b l) as [[] n] eqn:Hs; [by apply is_str_app_char|].
  apply (is_str_app_char 0xEF [0xBF; 0xBD] 3); [done|apply IH].
Qed.

Lemma from_utf8_lossy_is_str l : is_str (from_utf8_lossy l) = true.
Proof. apply lossy_loop_str. Qed.
