(* ===== verification/Tlv.v ===== *)
(** Type-length-value fields of the Hello exchange,
    [src/adapter/ph/src/tlv.rs]: the encodings and the parser, with the panics
    of the [Buf] accessors and of the visa size assertion as outcomes. *)
From S2P Require Import Prelude Zdp Utf8.

Definition SOCKADDR_LEN_V4 : Z := 6.
Definition SOCKADDR_LEN_V6 : Z := 18.
Definition X25519_KEY_LEN : Z := 32.

Inductive TlvError : Type := TlvBadStructure.

Definition TlvType : Type := Z.

(** The constants of [DataType]. *)
Definition NULL : TlvType := 0.
Definition POLICY_ID : TlvType := 1.
Definition VERSION : TlvType := 2.
Definition AAA : TlvType := 3.
Definition ASA : TlvType := 4.
Definition STATIC_ADDR : TlvType := 5.
Definition WINDOW_SIZE : TlvType := 6.
Definition A2A_DH_PUBKEY : TlvType := 7.
Definition BOOTSTRAP_VISA : TlvType := 8.
Definition ACTOR_AUTH_PROTOCOL : TlvType := 9.
Definition VS_BOOTSTRAP_LINK : TlvType := 10.

Definition ACTOR_AUTH_PROTOCOL_VERSION : Z := 1.

(** [std::net]: an address is its octets. *)
Inductive IpAddr : Type :=
| IpV4 (octets : bytes)
| IpV6 (octets : bytes).

Inductive SocketAddr : Type :=
| SockV4 (ip : bytes) (port : Z)
| SockV6 (ip : bytes) (port flowinfo scope_id : Z).

(** What other crates provide: x25519 public keys are exactly their 32 bytes,
    and a visa is written to and read from a packed Cap'n Proto message. *)
Class TlvExternals (PublicKey Visa : Type) : Type := {
  key_as_bytes : PublicKey → bytes;
  key_from : bytes → PublicKey;
  write_message : Visa → bytes;
  read_message : bytes → option Visa;
}.

Class TlvExternalsLaws (PublicKey Visa : Type) `{TlvExternals PublicKey Visa} : Prop := {
  key_length k : length (key_as_bytes k) = 32%nat;
  key_from_as k : key_from (key_as_bytes k) = k;
  read_write_message v : read_message (write_message v) = Some v;
}.

Section tlv.
Context {PublicKey Visa : Type} `{EXT : TlvExternals PublicKey Visa}.

Inductive TlvValue : Type :=
| TU16 (v : Z)
| TI64 (v : Z)
| TStr (v : bytes)
| TIpv6Addr (v : bytes)
| TIpv4Addr (v : bytes)
| TSocketAddr (v : SocketAddr)
| TX25519PubKey (v : PublicKey)
| TVisa (v : Visa).

Record TlvEncoding : Type := mk_tlv { tlv_type : TlvType; value : TlvValue }.

Definition new_actor_auth_protocol : TlvEncoding :=
  mk_tlv ACTOR_AUTH_PROTOCOL (TU16 ACTOR_AUTH_PROTOCOL_VERSION).
Definition new_vs_bootstrap_link : TlvEncoding := mk_tlv VS_BOOTSTRAP_LINK (TU16 1).
Definition new_policy_id (policy_id : Z) : TlvEncoding := mk_tlv POLICY_ID (TI64 policy_id).
Definition new_version (version : bytes) : TlvEncoding := mk_tlv VERSION (TStr version).
Definition new_aaa (ipa : IpAddr) : TlvEncoding :=
  match ipa with
  | IpV4 ipa => mk_tlv AAA (TIpv4Addr ipa)
  | IpV6 ipa => mk_tlv AAA (TIpv6Addr ipa)
  end.
Definition new_static_addr_std (ipa : IpAddr) : TlvEncoding :=
  match ipa with
  | IpV4 ipa => mk_tlv STATIC_ADDR (TIpv4Addr ipa)
  | IpV6 ipa => mk_tlv STATIC_ADDR (TIpv6Addr ipa)
  end.
Definition new_asa (sock_addr : SocketAddr) : TlvEncoding := mk_tlv ASA (TSocketAddr sock_addr).
Definition new_window_size (window_size : Z) : TlvEncoding := mk_tlv WINDOW_SIZE (TU16 window_size).
Definition new_a2a_dh_pubkey (pubkey : PublicKey) : TlvEncoding :=
  mk_tlv A2A_DH_PUBKEY (TX25519PubKey pubkey).
Definition new_bootstrap_visa (visa : Visa) : TlvEncoding := mk_tlv BOOTSTRAP_VISA (TVisa visa).

(** ** Writing: the bytes appended to the buffer *)

(** [TLVHdr { tlv_type, tlv_length }.as_bytes()] *)
Definition tlv_hdr (t : TlvType) (tlv_length : Z) : bytes :=
  as_bytes (u8 × u8) (t, tlv_length).

Definition put_u16 (t : TlvType) (v : Z) : bytes := tlv_hdr t 2 ++ be_put 2 v.
Definition put_i64 (t : TlvType) (v : Z) : bytes := tlv_hdr t 8 ++ be_put 8 (wrap64 v).

Definition put_str (t : TlvType) (v : bytes) : bytes :=
  let strlen := if 255 <? zlen v then 255 else wrap8 (zlen v) in
  tlv_hdr t strlen ++ take (Z.to_nat strlen) v.

Definition put_ipv6addr (t : TlvType) (v : bytes) : bytes := tlv_hdr t 16 ++ v.
Definition put_ipv4addr (t : TlvType) (v : bytes) : bytes := tlv_hdr t 4 ++ v.
Definition put_x25519_pubkey (t : TlvType) (v : PublicKey) : bytes :=
  tlv_hdr t X25519_KEY_LEN ++ key_as_bytes v.

Definition put_socketaddr (t : TlvType) (sock_addr : SocketAddr) : bytes :=
  match sock_addr with
  | SockV4 ip port => tlv_hdr t SOCKADDR_LEN_V4 ++ ip ++ be_put 2 port
  | SockV6 ip port _ _ => tlv_hdr t SOCKADDR_LEN_V6 ++ ip ++ be_put 2 port
  end.

Definition put_visa (t : TlvType) (visa : Visa) : outcome bytes :=
  let msg_buf := write_message visa in
  assertb (zlen msg_buf <=? 255) (Ret (tlv_hdr t (wrap8 (zlen msg_buf)) ++ msg_buf)).

Definition put (e : TlvEncoding) : outcome bytes :=
  match value e with
  | TU16 v => Ret (put_u16 (tlv_type e) v)
  | TI64 v => Ret (put_i64 (tlv_type e) v)
  | TStr v => Ret (put_str (tlv_type e) v)
  | TIpv6Addr v => Ret (put_ipv6addr (tlv_type e) v)
  | TIpv4Addr v => Ret (put_ipv4addr (tlv_type e) v)
  | TSocketAddr v => Ret (put_socketaddr (tlv_type e) v)
  | TX25519PubKey v => Ret (put_x25519_pubkey (tlv_type e) v)
  | TVisa v => put_visa (tlv_type e) v
  end.

(** ** Parsing *)

(** [Buf::copy_to_bytes(n)] / [copy_to_slice]: panics when too few bytes remain. *)
Definition copy_to_bytes (n : Z) (buf : bytes) : outcome (bytes * bytes) :=
  if zlen buf <? n then Panic else Ret (take (Z.to_nat n) buf, drop (Z.to_nat n) buf).

(** [Buf::get_u8], [get_u16], [get_u32], [get_i64]. *)
Definition get_uint (n : Z) (buf : bytes) : outcome (Z * bytes) :=
  r ← copy_to_bytes n buf; Ret (be_get r.1, r.2).

Definition parse_address_value (buf : bytes) (tlv_length : Z)
    : outcome (TlvError + TlvValue * bytes) :=
  if zlen buf <? tlv_length then Ret (inl TlvBadStructure)
  else if tlv_length =? 4 then
    r ← get_uint 4 buf; Ret (inr (TIpv4Addr (be_put 4 r.1), r.2))
  else if tlv_length =? 16 then
    r ← copy_to_bytes 16 buf; Ret (inr (TIpv6Addr r.1, r.2))
  else Ret (inl TlvBadStructure).

Abbreviation TlvMap := (gmap Z (list TlvValue)) (only parsing).

(** [tlv_map.entry(t).or_insert_with(Vec::new).push(v)] *)
Definition push_entry (m : TlvMap) (t : TlvType) (v : TlvValue) : TlvMap :=
  <[t := default [] (m !! t) ++ [v]]> m.

(** The [match tlv_type] of the loop: an error, or the value to push (if any)
    and the remaining buffer. *)
Definition parse_value (t : TlvType) (tlv_length : Z) (buf : bytes)
    : outcome (TlvError + option TlvValue * bytes) :=
  if t =? POLICY_ID then
    if negb (tlv_length =? 8) then Ret (inl TlvBadStructure)
    else r ← get_uint 8 buf; Ret (inr (Some (TI64 (as_i64 r.1)), r.2))
  else if t =? VERSION then
    r ← copy_to_bytes tlv_length buf; Ret (inr (Some (TStr (from_utf8_lossy r.1)), r.2))
  else if (t =? AAA) || (t =? STATIC_ADDR) then
    r ← parse_address_value buf tlv_length;
    match r with
    | inl e => Ret (inl e)
    | inr (v, buf) => Ret (inr (Some v, buf))
    end
  else if t =? ASA then
    if tlv_length =? 6 then
      r ← get_uint 4 buf;
      p ← get_uint 2 r.2;
      Ret (inr (Some (TSocketAddr (SockV4 (be_put 4 r.1) p.1)), p.2))
    else if tlv_length =? 18 then
      r ← copy_to_bytes 16 buf;
      p ← get_uint 2 r.2;
      Ret (inr (Some (TSocketAddr (SockV6 r.1 p.1 0 0)), p.2))
    else Ret (inl TlvBadStructure)
  else if t =? A2A_DH_PUBKEY then
    if negb (tlv_length =? X25519_KEY_LEN) then Ret (inl TlvBadStructure)
    else r ← copy_to_bytes X25519_KEY_LEN buf; Ret (inr (Some (TX25519PubKey (key_from r.1)), r.2))
  else if (t =? WINDOW_SIZE) || (t =? ACTOR_AUTH_PROTOCOL) || (t =? VS_BOOTSTRAP_LINK) then
    if negb (tlv_length =? 2) then Ret (inl TlvBadStructure)
    else r ← get_uint 2 buf; Ret (inr (Some (TU16 r.1), r.2))
  else if t =? BOOTSTRAP_VISA then
    r ← copy_to_bytes tlv_length buf;
    match read_message r.1 with
    | None => Ret (inl TlvBadStructure)
    | Some visa => Ret (inr (Some (TVisa visa), r.2))
    end
  else r ← copy_to_bytes tlv_length buf; Ret (inr (None, r.2)).

(** [while buf.remaining() >= 1 { ... }]: every iteration consumes a byte, so
    the length of the buffer is enough fuel. *)
Fixpoint parse_loop (fuel : nat) (buf : bytes) (tlv_map : TlvMap) : outcome (TlvError + TlvMap) :=
  match fuel, buf with
  | S fuel, t :: buf =>
      if t =? NULL then parse_loop fuel buf tlv_map
      else
        match buf with
        | [] => Ret (inl TlvBadStructure)
        | tlv_length :: buf =>
            if zlen buf <? tlv_length then Ret (inl TlvBadStructure)
            else
              r ← parse_value t tlv_length buf;
              match r with
              | inl e => Ret (inl e)
              | inr (v, buf) =>
                  parse_loop fuel buf (if v is Some v then push_entry tlv_map t v else tlv_map)
              end
        end
  | _, _ => Ret (inr tlv_map)
  end.

Definition parse_from_buf (buf : bytes) : outcome (TlvError + TlvMap) :=
  parse_loop (length buf) buf ∅.

(** ** Specification: a buffer is a sequence of fields *)

(** The value carried by the payload of a field of type [t]: [None] when
    malformed, [Some None] when the type is unknown. *)
Definition value_of (t : TlvType) (v : bytes) : option (option TlvValue) :=
  if t =? POLICY_ID then guard (length v = 8%nat);; Some (Some (TI64 (as_i64 (be_get v))))
  else if t =? VERSION then Some (Some (TStr (from_utf8_lossy v)))
  else if (t =? AAA) || (t =? STATIC_ADDR) then
    if decide (length v = 4%nat) then Some (Some (TIpv4Addr v))
    else if decide (length v = 16%nat) then Some (Some (TIpv6Addr v))
    else None
  else if t =? ASA then
    if decide (length v = 6%nat) then Some (Some (TSocketAddr (SockV4 (take 4 v) (be_get (drop 4 v)))))
    else if decide (length v = 18%nat)
    then Some (Some (TSocketAddr (SockV6 (take 16 v) (be_get (drop 16 v)) 0 0)))
    else None
  else if t =? A2A_DH_PUBKEY then guard (length v = 32%nat);; Some (Some (TX25519PubKey (key_from v)))
  else if (t =? WINDOW_SIZE) || (t =? ACTOR_AUTH_PROTOCOL) || (t =? VS_BOOTSTRAP_LINK) then
    guard (length v = 2%nat);; Some (Some (TU16 (be_get v)))
  else if t =? BOOTSTRAP_VISA then (λ v, Some (TVisa v)) <$> read_message v
  else Some None.

Inductive field : Type :=
| FNull
| FValue (t : TlvType) (payload : bytes).

Definition field_bytes (f : field) : bytes :=
  match f with
  | FNull => [NULL]
  | FValue t payload => t :: zlen payload :: payload
  end.

Definition field_ok (f : field) : Prop :=
  match f with
  | FNull => True
  | FValue t payload =>
      is_u8 t ∧ t ≠ NULL ∧ Forall is_u8 payload ∧ zlen payload < 256 ∧ value_of t payload ≠ None
  end.

Definition add_field (m : TlvMap) (f : field) : TlvMap :=
  match f with
  | FNull => m
  | FValue t payload =>
      match value_of t payload with
      | Some (Some v) => push_entry m t v
      | _ => m
      end
  end.
End tlv.

Arguments TlvValue : clear implicits.
Arguments TlvEncoding : clear implicits.

(** ** Lemmas *)

#[local] Arguments be_put : simpl never.

Section tlv_lemmas.
Context {PublicKey Visa : Type} `{EXT : TlvExternals PublicKey Visa}.
Implicit Types (buf v rest : bytes) (m : gmap Z (list (TlvValue PublicKey Visa))).

Lemma copy_exact n v rest : zlen v = n → copy_to_bytes n (v ++ rest) = Ret (v, rest).
Proof.
  intros <-. unfold copy_to_bytes. rewrite zlen_app. pose proof (zlen_nonneg rest).
  destruct (Z.ltb_spec (zlen v + zlen rest) (zlen v)); [lia|]. unfold zlen. rewrite Nat2Z.id.
  by rewrite take_app_length, drop_app_length.
Qed.

Lemma get_uint_exact n v rest : zlen v = n → get_uint n (v ++ rest) = Ret (be_get v, rest).
Proof. intros H. unfold get_uint. by rewrite (copy_exact n). Qed.

Lemma get_split (a b : nat) v : length v = (a + b)%nat →
  v = take a v ++ drop a v ∧ zlen (take a v) = Z.of_nat a ∧ zlen (drop a v) = Z.of_nat b.
Proof. intros H. rewrite take_drop. unfold zlen. rewrite length_take, length_drop. split_and!; [done|lia|lia]. Qed.

Lemma be_put_get' n v : length v = n → Forall is_u8 v → be_put n (be_get v) = v.
Proof. intros <-. apply be_put_get. Qed.

Lemma zlen_eqb v n : (zlen v =? Z.of_nat n) = bool_decide (length v = n).
Proof. unfold zlen. case_bool_decide; [apply Z.eqb_eq|apply Z.eqb_neq]; lia. Qed.

(** A branch that wants exactly [n] bytes and reads them as a number. *)
Lemma exact_uint {B} n v rest (f : Z → B) :
  Forall is_u8 v →
  (if negb (zlen v =? Z.of_nat n) then Ret (inl TlvBadStructure)
   else r ← get_uint (Z.of_nat n) (v ++ rest); Ret (inr (f r.1, r.2)))
  = Ret (match (guard (length v = n);; Some (f (be_get v))) with
         | None => inl TlvBadStructure | Some o => inr (o, rest) end).
Proof.
  intros Hv. rewrite zlen_eqb. case_bool_decide as H; simpl.
  - rewrite option_guard_True by done. rewrite get_uint_exact; [done|]. unfold zlen. lia.
  - by rewrite option_guard_False.
Qed.

Lemma parse_address_spec v rest :
  Forall is_u8 v →
  parse_address_value (PublicKey := PublicKey) (Visa := Visa) (v ++ rest) (zlen v)
  = Ret (if decide (length v = 4%nat) then inr (TIpv4Addr v, rest)
         else if decide (length v = 16%nat) then inr (TIpv6Addr v, rest)
         else inl TlvBadStructure).
Proof.
  intros Hv. unfold parse_address_value. rewrite zlen_app. pose proof (zlen_nonneg rest).
  destruct (Z.ltb_spec (zlen v + zlen rest) (zlen v)); [lia|].
  change 4 with (Z.of_nat 4). change 16 with (Z.of_nat 16). rewrite !zlen_eqb.
  case_bool_decide; [rewrite decide_True by done|rewrite decide_False by done].
  - rewrite get_uint_exact by (unfold zlen; lia). simpl. by rewrite (be_put_get' 4).
  - case_bool_decide; [rewrite decide_True by done|by rewrite decide_False].
    by rewrite copy_exact by (unfold zlen; lia).
Qed.

Lemma parse_value_spec t v rest :
  Forall is_u8 v →
  parse_value t (zlen v) (v ++ rest)
  = Ret (match value_of t v with None => inl TlvBadStructure | Some o => inr (o, rest) end).
Proof.
  intros Hv. unfold parse_value, value_of.
  destruct (t =? POLICY_ID); [by apply (exact_uint 8 v rest (λ z, Some (TI64 (as_i64 z))))|].
  destruct (t =? VERSION); [by rewrite copy_exact|].
  destruct ((t =? AAA) || (t =? STATIC_ADDR)).
  { rewrite parse_address_spec by done. simpl. by repeat case_decide. }
  destruct (t =? ASA).
  { change 6 with (Z.of_nat 6). change 18 with (Z.of_nat 18). rewrite !zlen_eqb.
    case_bool_decide as H6; [rewrite decide_True by done|rewrite decide_False by done;
      case_bool_decide as H18; [rewrite decide_True by done|by rewrite decide_False]].
    - destruct (get_split 4 2 v H6) as (Hs & H1 & H2). rewrite Hs at 1. rewrite <- app_assoc.
      rewrite get_uint_exact by done. simpl. rewrite get_uint_exact by done. simpl.
      rewrite (be_put_get' 4); [done|rewrite length_take; lia|by apply Forall_take].
    - destruct (get_split 16 2 v H18) as (Hs & H1 & H2). rewrite Hs at 1. rewrite <- app_assoc.
      rewrite copy_exact by done. simpl. by rewrite get_uint_exact by done. }
  destruct (t =? A2A_DH_PUBKEY).
  { change X25519_KEY_LEN with (Z.of_nat 32). rewrite zlen_eqb. case_bool_decide as H; simpl.
    - rewrite option_guard_True by done. by rewrite copy_exact by (unfold zlen; lia).
    - by rewrite option_guard_False. }
  destruct (_ || _ || _); [by apply (exact_uint 2 v rest (λ z, Some (TU16 z)))|].
  rewrite copy_exact by done. simpl. destruct (t =? BOOTSTRAP_VISA); [|done].
  by destruct (read_message v).
Qed.

(** The loop, one field at a time. *)
Lemma parse_loop_null fuel buf m : parse_loop (S fuel) (NULL :: buf) m = parse_loop fuel buf m.
Proof. done. Qed.

Lemma parse_loop_value fuel t v rest m :
  t ≠ NULL → Forall is_u8 v →
  parse_loop (S fuel) (t :: zlen v :: v ++ rest) m
  = match value_of t v with
    | None => Ret (inl TlvBadStructure)
    | Some o => parse_loop fuel rest (if o is Some x then push_entry m t x else m)
    end.
Proof.
  intros Ht Hv. cbn [parse_loop]. rewrite (proj2 (Z.eqb_neq _ _) Ht), zlen_app.
  pose proof (zlen_nonneg rest). destruct (Z.ltb_spec (zlen v + zlen rest) (zlen v)); [lia|].
  rewrite parse_value_spec by done. by destruct (value_of t v).
Qed.

(** Any buffer is empty, or starts with a field, or is cut short. *)
Inductive buf_view : bytes → Prop :=
| view_nil : buf_view []
| view_null buf : buf_view (NULL :: buf)
| view_no_length t : t ≠ NULL → buf_view [t]
| view_no_value t n buf : t ≠ NULL → zlen buf < n → buf_view (t :: n :: buf)
| view_value t v buf : t ≠ NULL → Forall is_u8 v → buf_view (t :: zlen v :: v ++ buf).

Lemma buf_cases buf : Forall is_u8 buf → buf_view buf.
Proof.
  intros Hb. destruct Hb as [|t buf Ht Hb]; [constructor|].
  destruct (decide (t = NULL)) as [->|Hn]; [constructor|].
  destruct Hb as [|n buf Hl Hb]; [by constructor|].
  destruct (Z.lt_ge_cases (zlen buf) n); [by constructor|]. unfold is_u8, zlen in *.
  rewrite <- (take_drop (Z.to_nat n) buf). replace n with (zlen (take (Z.to_nat n) buf)) at 1
    by (unfold zlen; rewrite length_take; lia).
  constructor; [done|by apply Forall_take].
Qed.

Definition fields_bytes (fs : list field) : bytes := concat (map field_bytes fs).

(** Every sequence of good fields parses to the fields' values in order... *)
Lemma parse_fields fuel fs m :
  Forall field_ok fs → (length (fields_bytes fs) <= fuel)%nat →
  parse_loop fuel (fields_bytes fs) m = Ret (inr (fold_left add_field fs m)).
Proof.
  intros Hfs. revert fuel m. induction Hfs as [|f fs Hf Hfs IH]; intros fuel m Hl; [by destruct fuel|].
  unfold fields_bytes in *. simpl in Hl |- *. rewrite length_app in Hl.
  destruct f as [|t v]; simpl in Hl |- *; (destruct fuel as [|fuel]; [lia|]).
  - apply IH. lia.
  - destruct Hf as (Ht & Hn & Hv & Hlv & Hval). rewrite parse_loop_value by done.
    destruct (value_of t v) as [[x|]|]; [..|done]; apply IH; lia.
Qed.

(** ... and every buffer is one, or is rejected. *)
Lemma parse_cases fuel buf m :
  Forall is_u8 buf → (length buf <= fuel)%nat →
  parse_loop fuel buf m = Ret (inl TlvBadStructure) ∨
  ∃ fs, Forall field_ok fs ∧ buf = fields_bytes fs.
Proof.
  revert buf m. induction fuel as [|fuel IH]; intros buf m Hb Hf.
  { destruct buf; [|simpl in *; lia]. right. by exists []. }
  destruct (buf_cases buf Hb) as [|buf|t Ht|t n buf Ht Hn|t v buf Ht Hv].
  - right. by exists [].
  - apply Forall_cons_1 in Hb as [_ Hb]. destruct (IH buf m Hb) as [?|(fs & Hfs & ->)]; [simpl in *; lia|by left|].
    right. exists (FNull :: fs). split; [by constructor|done].
  - left. cbn [parse_loop]. by rewrite (proj2 (Z.eqb_neq _ _) Ht).
  - left. cbn [parse_loop]. rewrite (proj2 (Z.eqb_neq _ _) Ht). by destruct (Z.ltb_spec (zlen buf) n); [|lia].
  - apply Forall_cons_1 in Hb as [Ht8 Hb]. apply Forall_cons_1 in Hb as [Hv8 Hb].
    apply Forall_app in Hb as [_ Hb]. simpl in Hf. rewrite length_app in Hf.
    rewrite parse_loop_value by done. destruct (value_of t v) as [o|] eqn:Ev; [|by left].
    destruct (IH buf (if o is Some x then push_entry m t x else m) Hb) as [?|(fs & Hfs & ->)]; [lia|by left|].
    right. exists (FValue t v :: fs). split; [|done]. constructor; [|done].
    unfold is_u8 in Hv8. split_and!; try done; [lia|congruence].
Qed.

(** ** Encodings are fields *)

(** Values that fit the type they are sent with, as the constructors build them. *)
Definition encoding_ok (e : TlvEncoding PublicKey Visa) : Prop :=
  match value e with
  | TU16 v => is_u16 v ∧ (tlv_type e = WINDOW_SIZE ∨ tlv_type e = ACTOR_AUTH_PROTOCOL ∨ tlv_type e = VS_BOOTSTRAP_LINK)
  | TI64 v => - I64_MOD <= v < I64_MOD ∧ tlv_type e = POLICY_ID
  | TStr v => is_str v = true ∧ zlen v < 256 ∧ Forall is_u8 v ∧ tlv_type e = VERSION
  | TIpv6Addr v => length v = 16%nat ∧ Forall is_u8 v ∧ (tlv_type e = AAA ∨ tlv_type e = STATIC_ADDR)
  | TIpv4Addr v => length v = 4%nat ∧ Forall is_u8 v ∧ (tlv_type e = AAA ∨ tlv_type e = STATIC_ADDR)
  | TSocketAddr (SockV4 ip port) => length ip = 4%nat ∧ Forall is_u8 ip ∧ is_u16 port ∧ tlv_type e = ASA
  | TSocketAddr (SockV6 ip port flow scope) =>
      length ip = 16%nat ∧ Forall is_u8 ip ∧ is_u16 port ∧ flow = 0 ∧ scope = 0 ∧ tlv_type e = ASA
  | TX25519PubKey k => Forall is_u8 (key_as_bytes k) ∧ tlv_type e = A2A_DH_PUBKEY
  | TVisa v => Forall is_u8 (write_message v) ∧ zlen (write_message v) < 256 ∧ tlv_type e = BOOTSTRAP_VISA
  end.

Lemma tlv_hdr_small t n : is_u8 t → is_u8 n → tlv_hdr t n = [t; n].
Proof.
  unfold tlv_hdr, is_u8. intros. cbn [as_bytes packed_pair u8 uint fst snd]. cbv [be_put app Z.of_nat Z.mul Z.pow].
  by rewrite !Z.div_1_r, !Z.mod_small by lia.
Qed.

Lemma be_get_put_u16 (v : Z) : is_u16 v → be_get (be_put 2 v) = v.
Proof. intros H. apply be_get_put. unfold is_u16 in H. simpl. lia. Qed.

Lemma be_get_put_i64 (v : Z) : - I64_MOD <= v < I64_MOD → as_i64 (be_get (be_put 8 (wrap64 v))) = v.
Proof.
  intros H. rewrite be_get_put by (pose proof (wrap64_range v) as Hr; unfold is_u64 in Hr; simpl; lia).
  by rewrite as_i64_wrap64, as_i64_small.
Qed.

(** Each encoding is written as one field that carries its value. *)
Definition is_field (e : TlvEncoding PublicKey Visa) (l : bytes) : Prop :=
  ∃ payload, l = field_bytes (FValue (tlv_type e) payload) ∧
    field_ok (FValue (tlv_type e) payload) ∧ value_of (tlv_type e) payload = Some (Some (value e)).

Lemma mk_field (e : TlvEncoding PublicKey Visa) (n : Z) payload :
  is_u8 (tlv_type e) → tlv_type e ≠ NULL → zlen payload = n → n < 256 → Forall is_u8 payload →
  value_of (tlv_type e) payload = Some (Some (value e)) → is_field e (tlv_hdr (tlv_type e) n ++ payload).
Proof.
  intros Ht Hn <- Hl Hp Hv. exists payload. pose proof (zlen_nonneg payload).
  rewrite tlv_hdr_small by (done || (unfold is_u8; lia)).
  split; [done|]. split; [|done]. simpl. rewrite Hv. done.
Qed.

Context `{!TlvExternalsLaws PublicKey Visa}.

Lemma put_socketaddr_field t sa :
  encoding_ok (mk_tlv t (TSocketAddr sa)) → is_field (mk_tlv t (TSocketAddr sa)) (put_socketaddr t sa).
Proof.
  destruct sa as [ip port|ip port flow scope]; unfold encoding_ok, put_socketaddr; cbn [value tlv_type].
  - intros (Hl & Hip & Hp & ->). apply (mk_field (mk_tlv ASA (TSocketAddr (SockV4 ip port)))); simpl; try done.
    + unfold zlen. rewrite length_app, be_put_length, Hl. done.
    + apply Forall_app. split; [done|apply be_put_bytes].
    + unfold value_of. simpl. rewrite length_app, be_put_length, Hl. simpl.
      rewrite take_app_length', drop_app_length' by done. by rewrite be_get_put_u16.
  - intros (Hl & Hip & Hp & -> & -> & ->). apply (mk_field (mk_tlv ASA (TSocketAddr (SockV6 ip port 0 0)))); simpl; try done.
    + unfold zlen. rewrite length_app, be_put_length, Hl. done.
    + apply Forall_app. split; [done|apply be_put_bytes].
    + unfold value_of. simpl. rewrite length_app, be_put_length, Hl. simpl.
      rewrite take_app_length', drop_app_length' by done. by rewrite be_get_put_u16.
Qed.

Lemma put_field e : encoding_ok e → ∃ l, put e = Ret l ∧ is_field e l.
Proof.
  destruct e as [t [v|v|v|v|v|sa|k|v]]; unfold put, encoding_ok; cbn [value tlv_type].
  - intros [Hv Ht]. eexists. split; [done|]. apply (mk_field (mk_tlv t (TU16 v)) 2); simpl;
      try (destruct Ht as [->|[->| ->]]; done); [apply be_put_bytes|].
    destruct Ht as [->|[->| ->]]; unfold value_of; simpl; by rewrite be_get_put_u16.
  - intros [Hv ->]. eexists. split; [done|]. apply (mk_field (mk_tlv _ (TI64 v)) 8); simpl; try done;
      [apply be_put_bytes|]. unfold value_of. simpl. by rewrite be_get_put_i64.
  - intros (Hs & Hl & Hv & ->). eexists. split; [done|]. unfold put_str. pose proof (zlen_nonneg v).
    destruct (Z.ltb_spec 255 (zlen v)); [lia|]. unfold wrap8. rewrite Z.mod_small by lia.
    rewrite take_ge by (unfold zlen; lia). apply (mk_field (mk_tlv VERSION (TStr v)) (zlen v)); simpl; try done.
    unfold value_of. simpl. by rewrite from_utf8_lossy_str.
  - intros (Hl & Hv & Ht). eexists. split; [done|]. apply (mk_field (mk_tlv t (TIpv6Addr v)) 16); simpl; try done;
      try (destruct Ht as [->| ->]; done); [unfold zlen; lia|].
    destruct Ht as [->| ->]; unfold value_of; simpl; by rewrite Hl.
  - intros (Hl & Hv & Ht). eexists. split; [done|]. apply (mk_field (mk_tlv t (TIpv4Addr v)) 4); simpl; try done;
      try (destruct Ht as [->| ->]; done); [unfold zlen; lia|].
    destruct Ht as [->| ->]; unfold value_of; simpl; by rewrite Hl.
  - intros H. eexists. split; [done|]. by apply put_socketaddr_field.
  - intros [Hk ->]. eexists. split; [done|]. apply (mk_field (mk_tlv _ (TX25519PubKey k)) 32); simpl; try done;
      [unfold zlen; by rewrite key_length|].
    unfold value_of. simpl. rewrite option_guard_True by apply key_length. by rewrite key_from_as.
  - intros (Hv & Hl & ->). unfold put_visa, assertb. pose proof (zlen_nonneg (write_message v)).
    destruct (Z.leb_spec (zlen (write_message v)) 255); [|lia]. eexists. split; [done|].
    unfold wrap8. rewrite Z.mod_small by lia.
    apply (mk_field (mk_tlv BOOTSTRAP_VISA (TVisa v)) (zlen (write_message v))); simpl; try done.
    unfold value_of. simpl. by rewrite read_write_message.
Qed.

(** Writing the encodings one after the other. *)
Definition put_all (es : list (TlvEncoding PublicKey Visa)) : outcome bytes :=
  fold_right (λ e acc, l ← put e; l' ← acc; Ret (l ++ l')) (Ret []) es.

Lemma put_all_fields es : Forall encoding_ok es →
  ∃ fs, put_all es = Ret (fields_bytes fs) ∧ Forall field_ok fs ∧
    ∀ m, fold_left add_field fs m = fold_left (λ m e, push_entry m (tlv_type e) (value e)) es m.
Proof.
  induction 1 as [|e es He _ IH]; [by exists []|].
  destruct (put_field e He) as (l & Hl & payload & -> & Hf & Hv). destruct IH as (fs & Hfs & Hok & Hm).
  exists (FValue (tlv_type e) payload :: fs). split; [simpl; by rewrite Hl, Hfs|].
  split; [by constructor|]. intros m. cbn [fold_left add_field]. by rewrite Hv.
Qed.

(** The values recorded under a type, in order. *)
Lemma push_lookup es m t :
  default [] (fold_left (λ m e, push_entry m (tlv_type e) (value e)) es m !! t)
  = default [] (m !! t) ++ (value <$> filter (λ e, tlv_type e = t) es).
Proof.
  revert m. induction es as [|e es IH]; intros m; [by rewrite app_nil_r|].
  cbn [fold_left]. rewrite IH, filter_cons. unfold push_entry.
  case_decide as Ht; [rewrite Ht, lookup_insert_eq; simpl; by rewrite <- app_assoc|].
  by rewrite lookup_insert_ne.
Qed.

(** What a consumer may rely on of a value found under type [t]. *)
Definition typed (t : TlvType) (v : TlvValue PublicKey Visa) : Prop :=
  match v with
  | TU16 v => is_u16 v ∧ (t = WINDOW_SIZE ∨ t = ACTOR_AUTH_PROTOCOL ∨ t = VS_BOOTSTRAP_LINK)
  | TI64 v => - I64_MOD <= v < I64_MOD ∧ t = POLICY_ID
  | TStr v => is_str v = true ∧ t = VERSION
  | TIpv6Addr v => length v = 16%nat ∧ Forall is_u8 v ∧ (t = AAA ∨ t = STATIC_ADDR)
  | TIpv4Addr v => length v = 4%nat ∧ Forall is_u8 v ∧ (t = AAA ∨ t = STATIC_ADDR)
  | TSocketAddr (SockV4 ip port) => length ip = 4%nat ∧ Forall is_u8 ip ∧ is_u16 port ∧ t = ASA
  | TSocketAddr (SockV6 ip port flow scope) =>
      length ip = 16%nat ∧ Forall is_u8 ip ∧ is_u16 port ∧ flow = 0 ∧ scope = 0 ∧ t = ASA
  | TX25519PubKey _ => t = A2A_DH_PUBKEY
  | TVisa _ => t = BOOTSTRAP_VISA
  end.

Lemma be_get_u16 v : length v = 2%nat → Forall is_u8 v → is_u16 (be_get v).
Proof. intros Hl Hv. pose proof (be_get_range v Hv) as H. unfold zlen in H. by rewrite Hl in H. Qed.

Lemma value_of_typed t v x : Forall is_u8 v → value_of t v = Some (Some x) → typed t x.
Proof.
  intros Hv. unfold value_of. destruct (Z.eqb_spec t POLICY_ID) as [->|_].
  { case_guard; [|done]. simpl. intros [= <-]. split; [|done].
    pose proof (as_i64_range (be_get v)). lia. }
  destruct (Z.eqb_spec t VERSION) as [->|_]; [intros [= <-]; by split; [apply from_utf8_lossy_is_str|]|].
  destruct (_ || _) eqn:Ea.
  { apply orb_true_iff in Ea. rewrite !Z.eqb_eq in Ea.
    do 2 (case_decide; [intros [= <-]; by split_and!|]). done. }
  destruct (Z.eqb_spec t ASA) as [->|_].
  { case_decide; [|case_decide; [|done]]; intros [= <-]; simpl; rewrite length_take;
      split_and!; auto using Forall_take with lia; apply be_get_u16; rewrite ?length_drop;
      auto using Forall_drop with lia. }
  destruct (Z.eqb_spec t A2A_DH_PUBKEY) as [->|_]; [case_guard; [|done]; simpl; by intros [= <-]|].
  destruct (_ || _ || _) eqn:Eu.
  { rewrite !orb_true_iff, !Z.eqb_eq in Eu. case_guard; [|done]. simpl. intros [= <-].
    split; [by apply be_get_u16|naive_solver]. }
  destruct (Z.eqb_spec t BOOTSTRAP_VISA) as [->|_]; [|done].
  destruct (read_message v); [by intros [= <-]|done].
Qed.

Lemma add_field_typed fs m :
  Forall field_ok fs → (∀ t x, x ∈ default [] (m !! t) → typed t x) →
  ∀ t x, x ∈ default [] (fold_left add_field fs m !! t) → typed t x.
Proof.
  intros Hfs. revert m. induction Hfs as [|f fs Hf _ IH]; intros m Hm; [done|]. cbn [fold_left].
  apply IH. destruct f as [|t v]; [done|]. destruct Hf as (_ & _ & Hv & _). simpl.
  destruct (value_of t v) as [[y|]|] eqn:Ev; [|done|done]. intros t' x. unfold push_entry.
  destruct (decide (t = t')) as [<-|]; [rewrite lookup_insert_eq|by rewrite lookup_insert_ne; [apply Hm|]].
  simpl. intros [?| ->%list_elem_of_singleton]%elem_of_app; [by apply Hm|by eapply value_of_typed].
Qed.
End tlv_lemmas.

(** ** Properties *)

(** C32: the parser is total and exact: on any bytes it returns without panic;
    it accepts exactly the concatenations of well-formed fields (null bytes,
    known types with a payload of the right size, unknown types with any
    payload) and then returns their values grouped by type, and answers
    "bad structure" to everything else. *)
Theorem tlv_parse_exact {PublicKey Visa} `{TlvExternals PublicKey Visa} (buf : bytes) :
  Forall is_u8 buf →
  (∃ fs, Forall field_ok fs ∧ buf = fields_bytes fs ∧
     parse_from_buf buf = Ret (inr (fold_left add_field fs ∅))) ∨
  (parse_from_buf buf = Ret (inl TlvBadStructure) ∧ ∀ fs, Forall field_ok fs → buf ≠ fields_bytes fs).
Proof.
  intros Hb. destruct (parse_cases (length buf) buf ∅ Hb ltac:(done)) as [He|(fs & Hfs & ->)].
  - right. split; [done|]. intros fs Hfs ->. rewrite (parse_fields _ fs) in He by done. done.
  - left. exists fs. split; [done|]. split; [done|]. by apply parse_fields.
Qed.

(** Keys and visas as plain bytes. *)
#[local] Instance byte_externals : TlvExternals { k : bytes | length k = 32%nat } bytes.
Proof.
  refine {| key_as_bytes k := `k; key_from l := (match decide (length l = 32%nat) with
    | left H => l ↾ H | right _ => replicate 32 0 ↾ eq_refl end);
    write_message v := v; read_message l := Some l |}.
Defined.

Lemma tlv_parse_exact_witness :
  (∃ fs, Forall field_ok fs ∧ [6; 2; 1; 0] = fields_bytes fs ∧
     parse_from_buf [6; 2; 1; 0] = Ret (inr (fold_left add_field fs ∅))) ∨
  (parse_from_buf [6; 2; 1; 0] = Ret (inl TlvBadStructure) ∧ ∀ fs, Forall field_ok fs → [6; 2; 1; 0] ≠ fields_bytes fs).
Proof. apply (tlv_parse_exact [6; 2; 1; 0]). repeat constructor; discriminate. Defined.

(** encode/parse round trip: writing any sequence of encodings built from
    in-range values never panics, and parsing the bytes gives back, for each
    type, its values in the order they were written. *)
Theorem tlv_roundtrip {PublicKey Visa} `{TlvExternals PublicKey Visa} `{!TlvExternalsLaws PublicKey Visa}
    (es : list (TlvEncoding PublicKey Visa)) :
  Forall encoding_ok es →
  ∃ l m, put_all es = Ret l ∧ parse_from_buf l = Ret (inr m) ∧
    ∀ t, default [] (m !! t) = value <$> filter (λ e, tlv_type e = t) es.
Proof.
  intros (fs & Hp & Hok & Hm)%put_all_fields.
  eexists _, _. split; [done|]. split; [by apply parse_fields|]. intros t.
  by rewrite Hm, push_lookup, lookup_empty.
Qed.

#[local] Instance byte_externals_laws : TlvExternalsLaws { k : bytes | length k = 32%nat } bytes.
Proof.
  split; [by intros [k Hk]| |done]. intros [k Hk]. simpl. case_match; [|done].
  f_equal. apply Eqdep_dec.UIP_dec, Nat.eq_dec.
Qed.

Lemma tlv_roundtrip_witness :
  ∃ l m, put_all [new_window_size 32; new_policy_id (-1); new_window_size 7] = Ret l ∧
    parse_from_buf l = Ret (inr m) ∧
    ∀ t, default [] (m !! t) = value <$> filter (λ e, tlv_type e = t)
           [new_window_size 32; new_policy_id (-1); new_window_size 7].
Proof.
  apply tlv_roundtrip. unfold encoding_ok, is_u16. repeat constructor; simpl; (lia || auto).
Defined.

(** C35: what the consumers of a parsed Hello rely on: every value found under a
    type has the shape of that type, with its numbers in range, its addresses
    of the right length and its strings valid UTF-8. *)
Theorem tlv_values_typed {PublicKey Visa} `{TlvExternals PublicKey Visa} (buf : bytes) m t x :
  Forall is_u8 buf → parse_from_buf buf = Ret (inr m) → x ∈ default [] (m !! t) → typed t x.
Proof.
  intros Hb Hp. destruct (parse_cases (length buf) buf ∅ Hb ltac:(done)) as [He|(fs & Hfs & ->)].
  { unfold parse_from_buf in Hp. congruence. }
  unfold parse_from_buf in Hp. rewrite (parse_fields _ fs) in Hp by done. injection Hp as <-.
  by apply add_field_typed; [|intros t' x'; rewrite lookup_empty; intros ?%not_elem_of_nil].
Qed.

Lemma tlv_values_typed_witness : typed WINDOW_SIZE (TU16 256 : TlvValue { k : bytes | length k = 32%nat } bytes).
Proof.
  apply (tlv_values_typed [6; 2; 1; 0] {[ 6 := [TU16 256] ]} 6 (TU16 256)).
  - repeat constructor; discriminate.
  - vm_compute. reflexivity.
  - vm_compute. left.
Defined.
