(* ===== verification/NetDefs.v ===== *)
(** Network definitions shared by the data path: the five-tuple of
    [src/adapter/ph/src/defs.rs], and the interface to what the code takes from
    the [zpr], [zpr-utils] and [ip4sum] crates. *)
From S2P Require Import Prelude Zdp.

(** [zpr_utils::net_defs], [zpr::packet_info] and [ip4sum], as the code uses
    them.  An [IpAddress] is a 16-byte value; IPv4 addresses are stored in the
    IPv4-mapped range.  [L3Type] is an open enum, a number with named values. *)
Class NetDefs : Type := {
  IpAddress : Type;
  IpAddress_eq_dec :: EqDecision IpAddress;
  IpAddress_countable :: Countable IpAddress;
  ip_wf : IpAddress → Prop;
  ip_default : IpAddress;
  v6 : IpAddress → bytes;
  from_v6 : bytes → IpAddress;
  new_from_v4 : bytes → IpAddress;
  from_array4 : bytes → IpAddress;
  read_as_v4 : IpAddress → bytes;
  is_v4 : IpAddress → bool;
  L3_Ipv4 : Z;
  L3_Ipv6 : Z;
  l3_default : Z;
  HOPOPT : Z; ICMP : Z; IPINIP : Z; TCP : Z; UDP : Z; IPV6_ROUTE : Z; IPV6_FRAG : Z;
  AH : Z; IPV6_ICMP : Z; IPV6_OPTS : Z;
  cm_SOURCE_PORT_PRESENT : Z;
  cm_DESTINATION_PORT_PRESENT : Z;
  (** [ip4sum::checksum] *)
  ip4sum : bytes → Z;
  (** [net_defs::inet_l4_checksum] and its validation, on the L3 type, the two
      addresses, the protocol and the segment *)
  inet_l4_checksum : Z → IpAddress → IpAddress → Z → bytes → bytes;
  validate_inet_l4_checksum : Z → IpAddress → IpAddress → Z → bytes → bool;
}.

Class NetDefsLaws `{NetDefs} : Prop := {
  v6_length a : ip_wf a → length (v6 a) = 16%nat;
  v6_bytes a : ip_wf a → Forall is_u8 (v6 a);
  from_v6_v6 a : ip_wf a → from_v6 (v6 a) = a;
  v6_from_v6 l : length l = 16%nat → Forall is_u8 l → v6 (from_v6 l) = l ∧ ip_wf (from_v6 l);
  new_from_v4_wf l : length l = 4%nat → Forall is_u8 l →
    ip_wf (new_from_v4 l) ∧ is_v4 (new_from_v4 l) = true ∧ read_as_v4 (new_from_v4 l) = l;
  read_as_v4_length a : ip_wf a → length (read_as_v4 a) = 4%nat;
  read_as_v4_bytes a : ip_wf a → Forall is_u8 (read_as_v4 a);
  from_array4_read a : ip_wf a → is_v4 a = true → from_array4 (read_as_v4 a) = a;
  L3_distinct : L3_Ipv4 ≠ L3_Ipv6;
  ip_numbers_distinct : NoDup [HOPOPT; ICMP; IPINIP; TCP; UDP; IPV6_ROUTE; IPV6_FRAG; AH; IPV6_ICMP; IPV6_OPTS; 59];
  cm_flags_disjoint : Z.land cm_SOURCE_PORT_PRESENT cm_DESTINATION_PORT_PRESENT = 0;
  cm_flags_nonzero : cm_SOURCE_PORT_PRESENT ≠ 0 ∧ cm_DESTINATION_PORT_PRESENT ≠ 0;
  ip4sum_u16 l : is_u16 (ip4sum l);
  inet_l4_checksum_length l3 s d p l : length (inet_l4_checksum l3 s d p l) = 2%nat;
}.

Section five_tuple.
Context `{NetDefs}.

Record FiveTuple : Type := mk_five_tuple {
  src_address : IpAddress;
  dst_address : IpAddress;
  l3_type : Z;
  l4_protocol : Z;
  src_port : Z;
  dst_port : Z;
}.

#[global] Instance FiveTuple_eq_dec : EqDecision FiveTuple.
Proof. solve_decision. Defined.

#[global] Program Instance FiveTuple_countable : Countable FiveTuple :=
  inj_countable' (λ ft, (src_address ft, dst_address ft, l3_type ft, l4_protocol ft, src_port ft, dst_port ft))
    (λ '(s, d, l3, l4, sp, dp), mk_five_tuple s d l3 l4 sp dp) _.
Next Obligation. by intros []. Qed.

Definition five_tuple_new (l3 : Z) (src dst : IpAddress) (l4 sport dport : Z) : FiveTuple :=
  mk_five_tuple src dst l3 l4 sport dport.

Definition five_tuple_default : FiveTuple := mk_five_tuple ip_default ip_default l3_default 0 0 0.

Definition reverse (ft : FiveTuple) : FiveTuple :=
  mk_five_tuple (dst_address ft) (src_address ft) (l3_type ft) (l4_protocol ft) (dst_port ft) (src_port ft).

Definition set_src_address (ft : FiveTuple) (a : IpAddress) : FiveTuple :=
  mk_five_tuple a (dst_address ft) (l3_type ft) (l4_protocol ft) (src_port ft) (dst_port ft).
Definition set_dst_address (ft : FiveTuple) (a : IpAddress) : FiveTuple :=
  mk_five_tuple (src_address ft) a (l3_type ft) (l4_protocol ft) (src_port ft) (dst_port ft).
Definition set_l3_type (ft : FiveTuple) (t : Z) : FiveTuple :=
  mk_five_tuple (src_address ft) (dst_address ft) t (l4_protocol ft) (src_port ft) (dst_port ft).
Definition set_l4_protocol (ft : FiveTuple) (p : Z) : FiveTuple :=
  mk_five_tuple (src_address ft) (dst_address ft) (l3_type ft) p (src_port ft) (dst_port ft).
Definition set_src_port (ft : FiveTuple) (p : Z) : FiveTuple :=
  mk_five_tuple (src_address ft) (dst_address ft) (l3_type ft) (l4_protocol ft) p (dst_port ft).
Definition set_dst_port (ft : FiveTuple) (p : Z) : FiveTuple :=
  mk_five_tuple (src_address ft) (dst_address ft) (l3_type ft) (l4_protocol ft) (src_port ft) p.
End five_tuple.

(** ** A concrete instance, for examples

    Addresses as 16 bytes with the IPv4-mapped prefix, IANA protocol numbers,
    and the RFC 1071 checksum. *)
Definition v4_prefix : bytes := replicate 10 0 ++ [255; 255].

Fixpoint sum16 (l : bytes) : Z :=
  match l with
  | a :: b :: l => a * 256 + b + sum16 l
  | [a] => a * 256
  | [] => 0
  end.

Definition fold16 (z : Z) : Z := let z := z mod 65536 + z / 65536 in z mod 65536 + z / 65536.
Definition rfc1071 (l : bytes) : Z := (65535 - fold16 (sum16 l)) mod 65536.

Definition pseudo (s d : bytes) (p : Z) (l : bytes) : bytes :=
  s ++ d ++ be_put 2 p ++ be_put 2 (zlen l) ++ l.

#[export] Instance sample_net : NetDefs := {|
  IpAddress := bytes;
  ip_wf a := length a = 16%nat ∧ Forall is_u8 a;
  ip_default := replicate 16 0;
  v6 a := a;
  from_v6 l := l;
  new_from_v4 l := v4_prefix ++ l;
  from_array4 l := v4_prefix ++ l;
  read_as_v4 a := drop 12 a;
  is_v4 a := bool_decide (take 12 a = v4_prefix);
  L3_Ipv4 := 4; L3_Ipv6 := 6; l3_default := 0;
  HOPOPT := 0; ICMP := 1; IPINIP := 4; TCP := 6; UDP := 17; IPV6_ROUTE := 43; IPV6_FRAG := 44;
  AH := 51; IPV6_ICMP := 58; IPV6_OPTS := 60;
  cm_SOURCE_PORT_PRESENT := 2; cm_DESTINATION_PORT_PRESENT := 1;
  ip4sum := rfc1071;
  inet_l4_checksum _ s d p l := be_put 2 (rfc1071 (pseudo s d p l));
  validate_inet_l4_checksum _ s d p l := rfc1071 (pseudo s d p l) =? 0;
|}.

#[export] Instance sample_net_laws : NetDefsLaws.
Proof.
  split; simpl.
  - by intros a [].
  - by intros a [].
  - done.
  - done.
  - intros l Hl Hb. split; [split|split].
    + by rewrite <- Hl.
    + unfold v4_prefix. repeat (constructor; [split; lia|]). done.
    + done.
    + done.
  - intros a [Ha _]. rewrite length_drop, Ha. done.
  - intros a [_ Ha]. by apply Forall_drop.
  - intros a Ha Hv%bool_decide_eq_true_1. change (v4_prefix ++ drop 12 a = a). rewrite <- Hv. apply take_drop.
  - done.
  - apply (bool_decide_unpack _). vm_compute. exact I.
  - done.
  - done.
  - intros l. unfold rfc1071. zmod.
  - done.
Qed.
