(* ===== verification/IpHeaders.v ===== *)
(** IP, TCP, UDP and ICMP header structs of [src/adapter/ph/src/classifier.rs],
    laid out as the [repr(C)] derives lay them out (no field needs padding). *)
From S2P Require Import Prelude Zdp NetDefs.

Definition IP_VERSION_MASK : Z := 0xF0.
Definition IPV4_HEADER_LENGTH_MASK : Z := 0x0F.
Definition NO_NEXT_HEADER : Z := 59.

Record IPv4Header : Type := mk_IPv4Header {
  vhl : Z;
  dscp : Z;
  total_length : Z;
  frag_id : bytes;
  frag_offset : Z;
  ttl : Z;
  proto : Z;
  header_checksum : bytes;
  ip4_src_address : bytes;
  ip4_dst_address : bytes;
}.

Definition ipv4Header : packed IPv4Header :=
  packed_struct (u8 × u8 × U16 × byte_array 2 × U16 × u8 × u8 × byte_array 2 × byte_array 4 × byte_array 4)
    (λ '(x0, x1, x2, x3, x4, x5, x6, x7, x8, x9), mk_IPv4Header x0 x1 x2 x3 x4 x5 x6 x7 x8 x9)
    (λ h, (vhl h, dscp h, total_length h, frag_id h, frag_offset h, ttl h, proto h, header_checksum h, ip4_src_address h, ip4_dst_address h)).

#[global] Instance ipv4Header_laws : PackedLaws ipv4Header.
Proof. packed_struct. Qed.

Record TCPHeader : Type := mk_TCPHeader {
  tcp_src_port : Z;
  tcp_dst_port : Z;
  tcp_sequence_number : bytes;
  acknowledgement_number : bytes;
  data_offset_and_reserved : Z;
  tcp_flags : Z;
  tcp_window_size : bytes;
  tcp_checksum : bytes;
  urgent_pointer : bytes;
}.

Definition tcpHeader : packed TCPHeader :=
  packed_struct (U16 × U16 × byte_array 4 × byte_array 4 × u8 × u8 × byte_array 2 × byte_array 2 × byte_array 2)
    (λ '(x0, x1, x2, x3, x4, x5, x6, x7, x8), mk_TCPHeader x0 x1 x2 x3 x4 x5 x6 x7 x8)
    (λ h, (tcp_src_port h, tcp_dst_port h, tcp_sequence_number h, acknowledgement_number h, data_offset_and_reserved h, tcp_flags h, tcp_window_size h, tcp_checksum h, urgent_pointer h)).

#[global] Instance tcpHeader_laws : PackedLaws tcpHeader.
Proof. packed_struct. Qed.

Record UDPHeader : Type := mk_UDPHeader {
  udp_src_port : Z;
  udp_dst_port : Z;
  udp_length : Z;
  udp_checksum : bytes;
}.

Definition udpHeader : packed UDPHeader :=
  packed_struct (U16 × U16 × U16 × byte_array 2)
    (λ '(x0, x1, x2, x3), mk_UDPHeader x0 x1 x2 x3)
    (λ h, (udp_src_port h, udp_dst_port h, udp_length h, udp_checksum h)).

#[global] Instance udpHeader_laws : PackedLaws udpHeader.
Proof. packed_struct. Qed.

Record ICMPHeader : Type := mk_ICMPHeader {
  icmp_type : Z;
  icmp_code : Z;
  icmp_checksum : bytes;
}.

Definition icmpHeader : packed ICMPHeader :=
  packed_struct (u8 × u8 × byte_array 2)
    (λ '(x0, x1, x2), mk_ICMPHeader x0 x1 x2)
    (λ h, (icmp_type h, icmp_code h, icmp_checksum h)).

#[global] Instance icmpHeader_laws : PackedLaws icmpHeader.
Proof. packed_struct. Qed.

Record ICMPv6Header : Type := mk_ICMPv6Header {
  icmp6_type : Z;
  icmp6_code : Z;
  icmp6_checksum : bytes;
}.

Definition icmpv6Header : packed ICMPv6Header :=
  packed_struct (u8 × u8 × byte_array 2)
    (λ '(x0, x1, x2), mk_ICMPv6Header x0 x1 x2)
    (λ h, (icmp6_type h, icmp6_code h, icmp6_checksum h)).

#[global] Instance icmpv6Header_laws : PackedLaws icmpv6Header.
Proof. packed_struct. Qed.

Section ipv6.
Context `{NetDefs}.

Definition ipAddress : packed IpAddress := {|
  size_of := 16;
  as_bytes := v6;
  from_bytes := from_v6;
  in_range := ip_wf;
|}.

#[global] Instance ipAddress_laws `{!NetDefsLaws} : PackedLaws ipAddress.
Proof.
  split; simpl; intros.
  - by apply v6_length.
  - by apply v6_bytes.
  - by apply from_v6_v6.
  - by apply v6_from_v6.
  - by apply v6_from_v6.
Qed.

Record IPv6Header : Type := mk_IPv6Header {
  version_and_tc_upper : Z;
  tc_lower_and_fl_upper : Z;
  fl_lower : bytes;
  payload_length : Z;
  next_header : Z;
  hop_limit : Z;
  ip6_src_address : IpAddress;
  ip6_dst_address : IpAddress;
}.

Definition ipv6Header : packed IPv6Header :=
  packed_struct (u8 × u8 × byte_array 2 × U16 × u8 × u8 × ipAddress × ipAddress)
    (λ '(x0, x1, x2, x3, x4, x5, x6, x7), mk_IPv6Header x0 x1 x2 x3 x4 x5 x6 x7)
    (λ h, (version_and_tc_upper h, tc_lower_and_fl_upper h, fl_lower h, payload_length h, next_header h, hop_limit h, ip6_src_address h, ip6_dst_address h)).

#[global] Instance ipv6Header_laws `{!NetDefsLaws} : PackedLaws ipv6Header.
Proof. packed_struct. Qed.

End ipv6.

Lemma ip_header_sizes `{NetDefs} :
  size_of ipv4Header = 20%nat ∧ size_of ipv6Header = 40%nat ∧ size_of tcpHeader = 20%nat ∧
  size_of udpHeader = 8%nat ∧ size_of icmpHeader = 4%nat ∧ size_of icmpv6Header = 4%nat.
Proof. done. Qed.
