(* ===== verification/PacketBuf.v ===== *)
(** Packet buffers, [src/adapter/ph/src/packet.rs]: a backing buffer divided
    into metadata, headroom, body and tailroom, and every operation that moves
    the boundaries or copies packets.

    The first [MIN_BODY_OFFSET = size_of::<PacketMetadata>()] bytes of a buffer
    are the metadata, kept as a record; the rest are bytes. *)
From S2P Require Import Prelude Zdp NetDefs.

Section packet.
Context `{NetDefs} (MIN_BODY_OFFSET : Z).

Record PacketMetadata : Type := mk_metadata {
  offset : Z;
  len : Z;
  five_tuple : FiveTuple;
  ingress_lane_id : Z;
  flags : Z;
  ingress_link_id : Z;
  egress_link_id : Z;
  ingress_stream_id : Z;
  seq_num : Z;
}.

(** [md.offset = o; md.len = l] *)
Definition set_extent (md : PacketMetadata) (o l : Z) : PacketMetadata :=
  mk_metadata o l (five_tuple md) (ingress_lane_id md) (flags md) (ingress_link_id md)
    (egress_link_id md) (ingress_stream_id md) (seq_num md).

(** A string of bytes: too short to hold the metadata, or metadata and the rest. *)
Inductive PacketBuffer : Type :=
| ShortBuffer (n : Z)
| Buffer (md : PacketMetadata) (data : bytes).

Definition buf_len (b : PacketBuffer) : Z :=
  match b with
  | ShortBuffer n => n
  | Buffer _ data => MIN_BODY_OFFSET + zlen data
  end.

Record Packet : Type := mk_packet { metadata : PacketMetadata; data : bytes }.

Definition destroy (p : Packet) : PacketBuffer := Buffer (metadata p) (data p).

Definition max_body_size_for (buf_size : Z) : Z := wrap64 (buf_size - MIN_BODY_OFFSET).
Definition max_body_size (p : Packet) : Z := max_body_size_for (buf_len (destroy p)).

Definition new_with_existing_data (buf : PacketBuffer) (o l : Z) : outcome Packet :=
  assertb (MIN_BODY_OFFSET <=? o)
  (assertb (l <=? buf_len buf)
  (assertb (o <=? buf_len buf - l)
  match buf with
  | ShortBuffer _ => Panic
  | Buffer md d =>
      Ret (mk_packet (mk_metadata o l (five_tuple md) (ingress_lane_id md) (flags md) 0
                        (egress_link_id md) 0 (seq_num md)) d)
  end)).

Definition new (buf : PacketBuffer) (headroom : Z) : outcome Packet :=
  assertb (MIN_BODY_OFFSET <=? buf_len buf)
  (new_with_existing_data buf (wrap64 (MIN_BODY_OFFSET + headroom)) 0).

Definition metadata_is_valid (p : Packet) : bool :=
  let md := metadata p in
  (MIN_BODY_OFFSET <=? offset md) && (len md <=? buf_len (destroy p))
  && (offset md <=? buf_len (destroy p) - len md).

(** [metadata()] of a buffer that is too short panics. *)
Definition try_new_with_existing_metadata (buf : PacketBuffer) : outcome (PacketBuffer + Packet) :=
  match buf with
  | ShortBuffer _ => Panic
  | Buffer md d =>
      let pkt := mk_packet md d in
      Ret (if negb (metadata_is_valid pkt) then inl (destroy pkt) else inr pkt)
  end.

Definition new_with_existing_metadata (buf : PacketBuffer) : outcome Packet :=
  r ← try_new_with_existing_metadata buf;
  match r with inl _ => Panic | inr p => Ret p end.

(** The regions of the buffer. *)
Definition head (p : Packet) : bytes := take (Z.to_nat (offset (metadata p) - MIN_BODY_OFFSET)) (data p).
Definition body (p : Packet) : bytes :=
  take (Z.to_nat (len (metadata p))) (drop (Z.to_nat (offset (metadata p) - MIN_BODY_OFFSET)) (data p)).
Definition tail (p : Packet) : bytes :=
  drop (Z.to_nat (offset (metadata p) - MIN_BODY_OFFSET + len (metadata p))) (data p).

(** Writing through [body_mut()] (the new body has the same length). *)
Definition set_body (p : Packet) (b : bytes) : Packet := mk_packet (metadata p) (head p ++ b ++ tail p).

Definition packet_len (p : Packet) : Z := len (metadata p).
Definition body_offset (p : Packet) : Z := offset (metadata p).
Definition headroom_available (p : Packet) : Z := offset (metadata p) - MIN_BODY_OFFSET.
Definition tailroom_available (p : Packet) : Z :=
  buf_len (destroy p) - (offset (metadata p) + len (metadata p)).
Definition flowhash (p : Packet) : Z := ingress_stream_id (metadata p).

Definition move_extent (p : Packet) (o l : Z) : Packet := mk_packet (set_extent (metadata p) o l) (data p).

(** [Buf::advance] *)
Definition advance (p : Packet) (cnt : Z) : outcome Packet :=
  assertb (cnt <=? packet_len p)
  (Ret (move_extent p (offset (metadata p) + cnt) (len (metadata p) - cnt))).

Definition shrink_by (p : Packet) (cnt : Z) : outcome Packet :=
  assertb (cnt <=? len (metadata p))
  (Ret (move_extent p (offset (metadata p)) (len (metadata p) - cnt))).

(** [self.body_mut()[..n]] overwritten with [n] bytes. *)
Definition write_prefix (p : Packet) (l : bytes) : Packet := set_body p (l ++ drop (length l) (body p)).

Definition extend_front (p : Packet) (cnt : Z) : outcome Packet :=
  assertb (cnt <=? headroom_available p)
  (Ret (move_extent p (offset (metadata p) - cnt) (len (metadata p) + cnt))).

Definition alloc_zeroed_headroom (p : Packet) (cnt : Z) : outcome Packet :=
  p ← extend_front p cnt;
  Ret (write_prefix p (replicate (Z.to_nat cnt) 0)).

Definition push_header (p : Packet) (header : bytes) : outcome Packet :=
  p ← extend_front p (zlen header);
  Ret (write_prefix p header).

Definition push_u8 (p : Packet) (d : Z) : outcome Packet := push_header p [d].
Definition push_u16 (p : Packet) (d : Z) : outcome Packet := push_header p (be_put 2 d).
Definition push_u32 (p : Packet) (d : Z) : outcome Packet := push_header p (be_put 4 d).
Definition push_u64 (p : Packet) (d : Z) : outcome Packet := push_header p (be_put 8 d).

(** [alloc_zeroed_header::<T>()] followed by the assignment of every field: the
    header's bytes replace the zeroes. *)
Definition alloc_header (p : Packet) (header : bytes) : outcome Packet :=
  p ← alloc_zeroed_headroom p (zlen header);
  Ret (write_prefix p header).

(** [BufMut::put]: copies into the tailroom, then [advance_mut]. *)
Definition advance_mut (p : Packet) (cnt : Z) : outcome Packet :=
  assertb (cnt <=? tailroom_available p)
  (Ret (move_extent p (offset (metadata p)) (len (metadata p) + cnt))).

Definition put (p : Packet) (l : bytes) : outcome Packet :=
  assertb (zlen l <=? tailroom_available p)
  (advance_mut (mk_packet (metadata p) (head p ++ body p ++ l ++ drop (length l) (tail p))) (zlen l)).

(** [Buf::copy_to_slice], [get_u8], [get_u16]. *)
Definition get_array (n : Z) (p : Packet) : outcome (bytes * Packet) :=
  if packet_len p <? n then Panic
  else p' ← advance p n; Ret (take (Z.to_nat n) (body p), p').

Definition get_u8 (p : Packet) : outcome (Z * Packet) := r ← get_array 1 p; Ret (be_get r.1, r.2).
Definition get_u16 (p : Packet) : outcome (Z * Packet) := r ← get_array 2 p; Ret (be_get r.1, r.2).

Definition set_body_extent (p : Packet) (o l : Z) : outcome Packet :=
  assertb (MIN_BODY_OFFSET <=? o)
  (assertb (l <=? buf_len (destroy p))
  (assertb (o <=? buf_len (destroy p) - l)
  (Ret (move_extent p o l)))).

(** [buf.copy_within(src..src + n, dst)], with positions in the whole buffer. *)
Definition copy_within (d : bytes) (src n dst : Z) : bytes :=
  let i z := Z.to_nat (z - MIN_BODY_OFFSET) in
  take (i dst) d ++ take (Z.to_nat n) (drop (i src) d) ++ drop (i (dst + n)) d.

Definition adopt_tailroom_with_header (p : Packet) (header_len written : Z) : outcome Packet :=
  assertb (header_len <=? len (metadata p))
  (assertb (written <=? tailroom_available p)
  (let old_offset := offset (metadata p) in
   let output_offset := old_offset + len (metadata p) in
   let new_offset := output_offset - header_len in
   set_body_extent (mk_packet (metadata p) (copy_within (data p) old_offset header_len new_offset))
     new_offset (header_len + written))).

(** ** Copies *)

(** [serialize] into a buffer with [remaining_mut] bytes of room. *)
Definition serialize (p : Packet) (remaining_mut : Z) : option PacketBuffer :=
  if remaining_mut <? MIN_BODY_OFFSET + len (metadata p) then None
  else Some (Buffer (metadata p) (body p)).

Inductive DeserializeError : Type :=
| InvalidSerialization (buf : PacketBuffer)
| BufferTooSmall (buf : PacketBuffer).

Definition deserialize_into (src buf : PacketBuffer) : DeserializeError + Packet :=
  match src with
  | ShortBuffer _ => inl (InvalidSerialization buf)
  | Buffer md rest =>
      match buf with
      | ShortBuffer _ => inl (BufferTooSmall buf)
      | Buffer _ d =>
          let pkt := mk_packet md d in
          if negb (metadata_is_valid pkt) then inl (BufferTooSmall (destroy pkt))
          else if zlen rest <? len md then inl (InvalidSerialization (destroy pkt))
          else inr (set_body pkt (take (Z.to_nat (len md)) rest))
      end
  end.

(** [copy_from_slice] panics unless source and destination have the same length. *)
Definition clone_prefix_into_with_headroom (p : Packet) (buf : PacketBuffer) (headroom l : Z) : outcome Packet :=
  assertb (l <=? zlen (body p))
  (assertb (headroom <=? wrap64 (wrap64 (buf_len buf - l) - MIN_BODY_OFFSET))
  match buf with
  | ShortBuffer _ => Panic
  | Buffer _ d =>
      let o := MIN_BODY_OFFSET + headroom in
      if (buf_len buf <? o + l) || negb (zlen (body p) =? l) then Panic
      else Ret (mk_packet (set_extent (metadata p) o l)
                  (take (Z.to_nat headroom) d ++ body p ++ drop (Z.to_nat (headroom + l)) d))
  end).

Definition clone_into (p : Packet) (buf : PacketBuffer) : outcome Packet :=
  clone_prefix_into_with_headroom p buf (headroom_available p) (zlen (body p)).
Definition clone_prefix_into (p : Packet) (buf : PacketBuffer) (l : Z) : outcome Packet :=
  clone_prefix_into_with_headroom p buf (headroom_available p) l.
Definition clone_into_with_headroom (p : Packet) (buf : PacketBuffer) (headroom : Z) : outcome Packet :=
  clone_prefix_into_with_headroom p buf headroom (zlen (body p)).

(** [PartialEq] *)
Definition metadata_eqb (a b : PacketMetadata) : bool :=
  (offset a =? offset b) && (len a =? len b) && bool_decide (five_tuple a = five_tuple b)
  && (ingress_lane_id a =? ingress_lane_id b) && (flags a =? flags b)
  && (ingress_link_id a =? ingress_link_id b) && (egress_link_id a =? egress_link_id b)
  && (ingress_stream_id a =? ingress_stream_id b).

Definition packet_eqb (a b : Packet) : bool :=
  metadata_eqb (metadata a) (metadata b)
  && (buf_len (destroy a) =? buf_len (destroy b)) && bool_decide (body a = body b).
End packet.

(** ** Abstract view: headroom, body, tailroom *)

Section views.
Context `{NetDefs} (M : Z).
Implicit Types (p : Packet) (md : PacketMetadata) (h b t l : bytes).

(** The packet with these three regions. *)
Definition of_view md h b t : Packet := mk_packet (set_extent md (M + zlen h) (zlen b)) (h ++ b ++ t).

Definition valid p : Prop :=
  M <= offset (metadata p) ∧ 0 <= len (metadata p) ∧
  offset (metadata p) + len (metadata p) <= M + zlen (data p).

Lemma of_view_valid md h b t : valid (of_view md h b t).
Proof.
  unfold valid, of_view. simpl. rewrite !zlen_app.
  pose proof (zlen_nonneg h). pose proof (zlen_nonneg b). pose proof (zlen_nonneg t). lia.
Qed.

Lemma of_view_head md h b t : head M (of_view md h b t) = h.
Proof. unfold head. simpl. replace (M + zlen h - M) with (zlen h) by lia. unfold zlen. rewrite Nat2Z.id. apply take_app_length. Qed.

Lemma of_view_body md h b t : body M (of_view md h b t) = b.
Proof.
  unfold body. simpl. replace (M + zlen h - M) with (zlen h) by lia. unfold zlen.
  rewrite !Nat2Z.id, drop_app_length. apply take_app_length.
Qed.

Lemma of_view_tail md h b t : tail M (of_view md h b t) = t.
Proof.
  unfold tail. simpl. replace (M + zlen h - M + zlen b) with (zlen (h ++ b)) by (rewrite zlen_app; lia).
  unfold zlen. by rewrite Nat2Z.id, app_assoc, drop_app_length.
Qed.

(** Every valid packet is given by its regions. *)
Lemma valid_view p : valid p → p = of_view (metadata p) (head M p) (body M p) (tail M p).
Proof.
  destruct p as [md d]. unfold valid, of_view, head, body, tail, zlen. simpl. intros (Ho & Hl & Hd).
  set (i := Z.to_nat (offset md - M)) in *. set (n := Z.to_nat (len md)) in *.
  replace (Z.to_nat (offset md - M + len md)) with (i + n)%nat by lia. unfold zlen in Hd.
  rewrite !length_take, length_drop. f_equal.
  - destruct md. unfold set_extent. simpl in *. f_equal; lia.
  - by rewrite <- drop_drop, take_drop, take_drop.
Qed.

Lemma of_view_metadata md md' h b t o n :
  md' = set_extent md o n → of_view md' h b t = of_view md h b t.
Proof. intros ->. done. Qed.

Lemma metadata_is_valid_iff p : metadata_is_valid M p = true → 0 <= len (metadata p) → valid p.
Proof.
  unfold metadata_is_valid, valid. simpl. rewrite !andb_true_iff, !Z.leb_le. lia.
Qed.

Ltac view_eq := unfold of_view, move_extent, set_extent; simpl; f_equal; [f_equal; autorewrite with zlen; lia|].

Lemma zlen_take (n : Z) l : 0 <= n <= zlen l → zlen (take (Z.to_nat n) l) = n.
Proof. unfold zlen. rewrite length_take. lia. Qed.
Lemma zlen_drop (n : Z) l : 0 <= n <= zlen l → zlen (drop (Z.to_nat n) l) = zlen l - n.
Proof. unfold zlen. rewrite length_drop. lia. Qed.

Lemma advance_view md h b t n :
  0 <= n → advance (of_view md h b t) n =
  if n <=? zlen b then Ret (of_view md (h ++ take (Z.to_nat n) b) (drop (Z.to_nat n) b) t) else Panic.
Proof.
  intros Hn. unfold advance, packet_len, assertb. simpl. destruct (Z.leb_spec n (zlen b)); [|done].
  f_equal. unfold of_view, move_extent, set_extent. simpl.
  rewrite zlen_app, zlen_take, zlen_drop, <- app_assoc, (app_assoc (take _ b)), take_drop by lia.
  f_equal. f_equal; lia.
Qed.

Lemma shrink_view md h b t n :
  0 <= n → shrink_by (of_view md h b t) n =
  if n <=? zlen b
  then Ret (of_view md h (take (Z.to_nat (zlen b - n)) b) (drop (Z.to_nat (zlen b - n)) b ++ t)) else Panic.
Proof.
  intros Hn. unfold shrink_by, assertb. simpl. destruct (Z.leb_spec n (zlen b)); [|done].
  f_equal. unfold of_view, move_extent, set_extent. simpl.
  rewrite zlen_take, (app_assoc (take _ b)), take_drop by lia. f_equal.
Qed.

Lemma set_body_view md h b b' t : zlen b' = zlen b → set_body M (of_view md h b t) b' = of_view md h b' t.
Proof.
  intros Hb. unfold set_body. rewrite of_view_head, of_view_tail. unfold of_view. simpl.
  by rewrite Hb.
Qed.

Lemma extend_view md h h' b t :
  extend_front M (of_view md (h ++ h') b t) (zlen h') = Ret (of_view md h (h' ++ b) t).
Proof.
  unfold extend_front, headroom_available, assertb. simpl. rewrite zlen_app.
  pose proof (zlen_nonneg h). destruct (Z.leb_spec (zlen h') (M + (zlen h + zlen h') - M)); [|lia].
  f_equal. unfold of_view, move_extent, set_extent. simpl. rewrite zlen_app, <- !app_assoc.
  f_equal. f_equal; lia.
Qed.

Lemma write_prefix_view md h b b' t l :
  zlen l = zlen b' → write_prefix M (of_view md h (b' ++ b) t) l = of_view md h (l ++ b) t.
Proof.
  intros Hl. unfold write_prefix. rewrite of_view_body. unfold zlen in Hl.
  rewrite drop_app_length' by lia. apply set_body_view. rewrite !zlen_app. unfold zlen. lia.
Qed.

(** Pushing a header takes the end of the headroom. *)
Lemma push_view md h h' b t l :
  zlen h' = zlen l → push_header M (of_view md (h ++ h') b t) l = Ret (of_view md h (l ++ b) t).
Proof.
  intros Hl. unfold push_header. rewrite <- Hl, extend_view. simpl. by rewrite write_prefix_view.
Qed.

Lemma alloc_zeroed_view md h h' b t :
  alloc_zeroed_headroom M (of_view md (h ++ h') b t) (zlen h')
  = Ret (of_view md h (replicate (length h') 0 ++ b) t).
Proof.
  unfold alloc_zeroed_headroom. rewrite extend_view. simpl. unfold zlen at 1. rewrite Nat2Z.id.
  rewrite write_prefix_view; [done|]. unfold zlen. by rewrite length_replicate.
Qed.

Lemma alloc_header_view md h h' b t l :
  zlen h' = zlen l → alloc_header M (of_view md (h ++ h') b t) l = Ret (of_view md h (l ++ b) t).
Proof.
  intros Hl. unfold alloc_header. rewrite <- Hl, alloc_zeroed_view. simpl.
  rewrite write_prefix_view; [done|]. unfold zlen in *. rewrite length_replicate. lia.
Qed.

(** Enough headroom can always be split off. *)
Lemma headroom_split h n : 0 <= n <= zlen h → ∃ h1 h2, h = h1 ++ h2 ∧ zlen h2 = n.
Proof.
  intros Hn. exists (take (Z.to_nat (zlen h - n)) h), (drop (Z.to_nat (zlen h - n)) h).
  rewrite take_drop, zlen_drop by lia. split; [done|lia].
Qed.

Lemma push_panics md h b t l : zlen h < zlen l → push_header M (of_view md h b t) l = Panic.
Proof.
  intros Hl. unfold push_header, extend_front, headroom_available, assertb. simpl.
  by destruct (Z.leb_spec (zlen l) (M + zlen h - M)); [lia|].
Qed.

Lemma put_view md h b t l :
  put M (of_view md h b t) l =
  if zlen l <=? zlen t then Ret (of_view md h (b ++ l) (drop (length l) t)) else Panic.
Proof.
  unfold put, assertb, tailroom_available. rewrite of_view_head, of_view_body, of_view_tail. simpl.
  rewrite !zlen_app. replace (M + (zlen h + (zlen b + zlen t)) - (M + zlen h + zlen b)) with (zlen t) by lia.
  destruct (Z.leb_spec (zlen l) (zlen t)) as [Hl|]; [|done].
  unfold advance_mut, assertb, tailroom_available. simpl. rewrite !zlen_app.
  assert (zlen (drop (length l) t) = zlen t - zlen l) as ->.
  { rewrite <- (Nat2Z.id (length l)). apply zlen_drop. pose proof (zlen_nonneg l). unfold zlen in *. lia. }
  destruct (Z.leb_spec (zlen l) (M + (zlen h + (zlen b + (zlen l + (zlen t - zlen l)))) - (M + zlen h + zlen b))); [|lia].
  f_equal. unfold of_view, move_extent, set_extent. simpl. by rewrite zlen_app, <- app_assoc.
Qed.

Lemma get_array_view md h b b' t n :
  zlen b' = n → get_array M n (of_view md h (b' ++ b) t) = Ret (b', of_view md (h ++ b') b t).
Proof.
  intros <-. unfold get_array, packet_len. pose proof (zlen_nonneg b). pose proof (zlen_nonneg b'). simpl.
  rewrite zlen_app. destruct (Z.ltb_spec (zlen b' + zlen b) (zlen b')); [lia|].
  rewrite advance_view, zlen_app by done. destruct (Z.leb_spec (zlen b') (zlen b' + zlen b)); [|lia].
  simpl. rewrite of_view_body. unfold zlen. rewrite Nat2Z.id.
  by rewrite take_app_length, drop_app_length.
Qed.

Lemma get_array_short md h b t n : zlen b < n → get_array M n (of_view md h b t) = Panic.
Proof. intros Hl. unfold get_array, packet_len. simpl. by destruct (Z.ltb_spec (zlen b) n); [|lia]. Qed.

(** The in-place transform: [out] was written to the start of the tailroom. *)
Lemma adopt_view md h b1 b2 t out :
  0 < M → ∃ g, adopt_tailroom_with_header M (of_view md h (b1 ++ b2) (out ++ t)) (zlen b1) (zlen out)
  = Ret (of_view md g (b1 ++ out) t) ∧ zlen g = zlen h + zlen b2.
Proof.
  intros HM. pose proof (zlen_nonneg h). pose proof (zlen_nonneg b1). pose proof (zlen_nonneg b2).
  pose proof (zlen_nonneg out). pose proof (zlen_nonneg t).
  set (d := h ++ (b1 ++ b2) ++ out ++ t). exists (take (Z.to_nat (zlen h + zlen b2)) d).
  assert (zlen d = zlen h + zlen b1 + zlen b2 + zlen out + zlen t) as Hd by (unfold d; rewrite !zlen_app; lia).
  assert (zlen (take (Z.to_nat (zlen h + zlen b2)) d) = zlen h + zlen b2) as Hg by (apply zlen_take; lia).
  split; [|done]. unfold adopt_tailroom_with_header, tailroom_available, assertb. simpl. rewrite !zlen_app.
  destruct (Z.leb_spec (zlen b1) (zlen b1 + zlen b2)); [|lia].
  match goal with |- (if ?c <=? ?e then _ else _) = _ => destruct (Z.leb_spec c e); [|lia] end.
  fold d. set (o := M + zlen h + (zlen b1 + zlen b2) - zlen b1).
  assert (copy_within M d (M + zlen h) (zlen b1) o = take (Z.to_nat (zlen h + zlen b2)) d ++ b1 ++ out ++ t) as Hc.
  { unfold copy_within. f_equal; [f_equal; lia|].
    replace (Z.to_nat (M + zlen h - M)) with (length h) by (unfold zlen in *; lia).
    replace (Z.to_nat (zlen b1)) with (length b1) by (unfold zlen; lia).
    unfold d at 1. rewrite drop_app_length, <- app_assoc, take_app_length. f_equal.
    replace (Z.to_nat (o + zlen b1 - M)) with (length (h ++ b1 ++ b2))
      by (rewrite !length_app; unfold o, zlen; lia).
    replace d with ((h ++ b1 ++ b2) ++ out ++ t) by (unfold d; by rewrite <- !app_assoc).
    by rewrite drop_app_length. }
  unfold set_body_extent, assertb. rewrite Hc. simpl. rewrite !zlen_app, Hg.
  repeat match goal with |- context [Z.leb ?c ?e] => destruct (Z.leb_spec c e); [|lia] end.
  f_equal. unfold of_view, move_extent, set_extent. simpl. rewrite <- app_assoc, zlen_app, Hg.
  f_equal. unfold o. f_equal; lia.
Qed.
End views.

Lemma adopt_panics `{NetDefs} M md h b t n k : zlen b < n ∨ zlen t < k → adopt_tailroom_with_header M (of_view M md h b t) n k = Panic.
Proof.
  intros Hnk. unfold adopt_tailroom_with_header, tailroom_available, assertb. simpl. rewrite !zlen_app.
  destruct (Z.leb_spec n (zlen b)); [|done]. match goal with |- (if ?c <=? ?e then _ else _) = _ => destruct (Z.leb_spec c e); [lia|done] end.
Qed.

(** ** Properties *)

(** C33: the buffer implements a packet as three adjacent regions: on any
    packet, consuming from the front, pushing a header, appending, shrinking
    and adopting transform output move exactly the named bytes between
    headroom, body and tailroom, keep all other metadata, and panic exactly
    when the region they take from is too small (for adopting, the body for the header
    that is kept, or the tailroom for the output). *)
Theorem packet_ops_refine_regions `{NetDefs} (M : Z) (md : PacketMetadata) (h b t l : bytes) (n k : Z) :
  0 < M → 0 <= n → 0 <= k →
  advance (of_view M md h b t) n
    = (if n <=? zlen b then Ret (of_view M md (h ++ take (Z.to_nat n) b) (drop (Z.to_nat n) b) t) else Panic) ∧
  shrink_by (of_view M md h b t) n
    = (if n <=? zlen b then Ret (of_view M md h (take (Z.to_nat (zlen b - n)) b)
                                (drop (Z.to_nat (zlen b - n)) b ++ t)) else Panic) ∧
  push_header M (of_view M md h b t) l
    = (if zlen l <=? zlen h then Ret (of_view M md (take (Z.to_nat (zlen h - zlen l)) h) (l ++ b) t) else Panic) ∧
  put M (of_view M md h b t) l
    = (if zlen l <=? zlen t then Ret (of_view M md h (b ++ l) (drop (length l) t)) else Panic) ∧
  (if (n <=? zlen b) && (k <=? zlen t) then
     ∃ g, adopt_tailroom_with_header M (of_view M md h b t) n k
       = Ret (of_view M md g (take (Z.to_nat n) b ++ take (Z.to_nat k) t) (drop (Z.to_nat k) t)) ∧ zlen g = zlen h + zlen b - n
   else adopt_tailroom_with_header M (of_view M md h b t) n k = Panic).
Proof.
  intros HM Hn Hk. split_and!; [by apply advance_view|by apply shrink_view| |apply put_view|].
  - destruct (Z.leb_spec (zlen l) (zlen h)) as [Hl|]; [|by apply push_panics].
    pose proof (zlen_nonneg l). rewrite <- (take_drop (Z.to_nat (zlen h - zlen l)) h) at 1.
    apply push_view. rewrite zlen_drop by lia. lia.
  - destruct (Z.leb_spec n (zlen b)) as [Hb|Hb], (Z.leb_spec k (zlen t)) as [Ht|Ht]; cbn [andb]; try (apply adopt_panics; lia).
    destruct (adopt_view M md h (take (Z.to_nat n) b) (drop (Z.to_nat n) b) (drop (Z.to_nat k) t) (take (Z.to_nat k) t) HM) as (g & Ha & Hg).
    rewrite !take_drop, !zlen_take in Ha by lia. rewrite zlen_drop in Hg by lia. exists g. split; [done|lia].
Qed.

Definition sample_metadata : PacketMetadata := mk_metadata 0 0 five_tuple_default 1 0 5 6 7 8.

Lemma packet_ops_refine_regions_witness :
  advance (of_view 96 sample_metadata [0; 0] [1; 2; 3] [9]) 2 = Ret (of_view 96 sample_metadata [0; 0; 1; 2] [3] [9]) ∧
  (∃ g, adopt_tailroom_with_header 96 (of_view 96 sample_metadata [0; 0] [1; 2; 3] [8; 9]) 1 2
     = Ret (of_view 96 sample_metadata g [1; 8; 9] []) ∧ zlen g = 2 + 3 - 1) ∧
  adopt_tailroom_with_header 96 (of_view 96 sample_metadata [0; 0] [1; 2; 3] [8; 9]) 4 2 = Panic.
Proof.
  split; [apply (packet_ops_refine_regions 96 sample_metadata [0; 0] [1; 2; 3] [9] [] 2 0); lia|]. split.
  - apply (packet_ops_refine_regions 96 sample_metadata [0; 0] [1; 2; 3] [8; 9] [] 1 2); lia.
  - apply (packet_ops_refine_regions 96 sample_metadata [0; 0] [1; 2; 3] [8; 9] [] 4 2); lia.
Defined.

(** Two packets the code's [==] identifies. *)
Lemma packet_eqb_view `{NetDefs} (M : Z) md h h' b t t' :
  zlen h' = zlen h → zlen t' = zlen t →
  packet_eqb M (of_view M md h b t) (of_view M md h' b t') = true.
Proof.
  intros Hh Ht. unfold packet_eqb, metadata_eqb. rewrite !of_view_body. simpl.
  rewrite Hh, !zlen_app, Hh, Ht, !Z.eqb_refl, !bool_decide_true by done. done.
Qed.

Lemma split_like (d h b t : bytes) :
  zlen d = zlen h + (zlen b + zlen t) →
  ∃ h' b' t', d = h' ++ b' ++ t' ∧ zlen h' = zlen h ∧ zlen b' = zlen b ∧ zlen t' = zlen t.
Proof.
  intros Hd. exists (take (length h) d), (take (length b) (drop (length h) d)), (drop (length b) (drop (length h) d)).
  rewrite !take_drop. unfold zlen in *. rewrite !length_take, !length_drop. split; [done|lia].
Qed.

Lemma deserialize_view `{NetDefs} (M : Z) md md' (h b t h' b' t' : bytes) :
  0 < M → zlen h' = zlen h → zlen b' = zlen b → zlen t' = zlen t →
  deserialize_into M (Buffer (set_extent md (M + zlen h) (zlen b)) b) (Buffer md' (h' ++ b' ++ t'))
  = inr (of_view M md h' b t').
Proof.
  intros HM Hh Hb Ht. unfold deserialize_into.
  pose proof (zlen_nonneg h). pose proof (zlen_nonneg b). pose proof (zlen_nonneg t).
  assert (mk_packet (set_extent md (M + zlen h) (zlen b)) (h' ++ b' ++ t') = of_view M md h' b' t') as ->
    by (unfold of_view; by rewrite Hh, Hb).
  assert (metadata_is_valid M (of_view M md h' b' t') = true) as ->.
  { unfold metadata_is_valid. simpl. rewrite !zlen_app, !andb_true_iff, !Z.leb_le. lia. }
  simpl. rewrite Z.ltb_irrefl. unfold zlen at 1. rewrite Nat2Z.id, firstn_all.
  by rewrite set_body_view.
Qed.

Lemma clone_view `{NetDefs} (M : Z) md md' (h b t h' b' t' : bytes) :
  0 < M → zlen h' = zlen h → zlen b' = zlen b → zlen t' = zlen t →
  M + (zlen h + (zlen b + zlen t)) < U64_MOD →
  clone_into M (of_view M md h b t) (Buffer md' (h' ++ b' ++ t')) = Ret (of_view M md h' b t').
Proof.
  intros HM Hh Hb Ht Hlen. unfold clone_into, clone_prefix_into_with_headroom, headroom_available, assertb.
  pose proof (zlen_nonneg h). pose proof (zlen_nonneg b). pose proof (zlen_nonneg t).
  rewrite of_view_body. simpl. rewrite !zlen_app, Hh, Hb, Ht, Z.leb_refl, Z.eqb_refl.
  rewrite !wrap64_small by (unfold is_u64; rewrite ?wrap64_small by (unfold is_u64; lia); lia).
  replace (M + zlen h - M) with (zlen h) by lia.
  match goal with |- context [Z.leb ?c ?e] => destruct (Z.leb_spec c e); [|lia] end.
  match goal with |- context [Z.ltb ?c ?e] => destruct (Z.ltb_spec c e); [lia|] end. simpl. f_equal.
  unfold of_view. rewrite Hh. f_equal.
  replace (Z.to_nat (zlen h)) with (length h') by (unfold zlen in *; lia).
  rewrite take_app_length. do 2 f_equal.
  replace (Z.to_nat (zlen h + zlen b)) with (length (h' ++ b')) by (rewrite length_app; unfold zlen in *; lia).
  by rewrite app_assoc, drop_app_length.
Qed.

(** Copying: serializing a valid packet into enough room and deserializing
    it into a buffer of the same size gives an equal packet (same metadata,
    body, headroom and tailroom sizes), and so does [clone_into]; with too
    little room [serialize] reports it. *)
Theorem packet_copy_roundtrip `{NetDefs} (M : Z) (p : Packet) (md' : PacketMetadata) (d' : bytes) (room : Z) :
  valid M p → zlen d' = zlen (data p) → 0 < M → M + zlen (data p) < U64_MOD →
  match serialize M p room with
  | None => room < M + len (metadata p)
  | Some src => ∃ q, deserialize_into M src (Buffer md' d') = inr q ∧ packet_eqb M q p = true
  end ∧
  ∃ q, clone_into M p (Buffer md' d') = Ret q ∧ packet_eqb M q p = true.
Proof.
  intros Hp Hd HM Hlen. rewrite (valid_view M p Hp) in *.
  generalize dependent (tail M p). generalize dependent (body M p). generalize dependent (head M p).
  generalize (metadata p). clear p Hp. intros md h b t Hd Hlen.
  simpl in Hd, Hlen. rewrite !zlen_app in *.
  destruct (split_like d' h b t Hd) as (h' & b' & t' & -> & Hh & Hb & Ht).
  split.
  - unfold serialize. simpl. destruct (Z.ltb_spec room (M + zlen b)); [done|]. rewrite of_view_body.
    eexists. split; [by eapply deserialize_view|]. by apply packet_eqb_view.
  - eexists. split; [by apply clone_view|]. by apply packet_eqb_view.
Qed.

Lemma packet_copy_roundtrip_witness :
  ∃ q, clone_into 96 (of_view 96 sample_metadata [0; 0] [1; 2; 3] [9]) (Buffer sample_metadata [7; 7; 7; 7; 7; 7]) = Ret q ∧
       packet_eqb 96 q (of_view 96 sample_metadata [0; 0] [1; 2; 3] [9]) = true.
Proof.
  apply (packet_copy_roundtrip 96 (of_view 96 sample_metadata [0; 0] [1; 2; 3] [9]) sample_metadata [7; 7; 7; 7; 7; 7] 200);
    [apply of_view_valid|done|lia|simpl; unfold zlen; simpl; lia].
Defined.

(** Cloning a proper prefix of a packet always panics: the whole body is
    copied into a slice of the prefix's length. *)
Theorem clone_prefix_panics `{NetDefs} (M : Z) (p : Packet) (buf : PacketBuffer) (headroom l : Z) :
  l < zlen (body M p) → clone_prefix_into_with_headroom M p buf headroom l = Panic.
Proof.
  intros Hl. unfold clone_prefix_into_with_headroom, assertb. destruct (l <=? _); [|done].
  destruct (headroom <=? _); [|done]. destruct buf; [done|].
  destruct (Z.eqb_spec (zlen (body M p)) l); [lia|]. by rewrite orb_true_r.
Qed.

Lemma clone_prefix_panics_witness :
  clone_prefix_into_with_headroom 96 (of_view 96 sample_metadata [0; 0] [1; 2; 3] [9])
    (Buffer sample_metadata [7; 7; 7; 7; 7; 7]) 2 2 = Panic.
Proof. apply clone_prefix_panics. rewrite of_view_body. unfold zlen. simpl. lia. Defined.
