(* ===== verification/Compress.v ===== *)
(** ZDP header compression, [src/adapter/ph/src/compress.rs]: removing from a
    packet what the receiving end rebuilds from the flow's five-tuple. *)
From S2P Require Import Prelude Zdp NetDefs IpHeaders PacketBuf.

Section compress.
Context `{NetDefs} (M : Z).
Implicit Types pkt : Packet.

Definition ZDP_V4_FRAG_INFO_PRESENT : Z := 8.

Record CompressedIPv6Header : Type := mk_CompressedIPv6Header {
  c_version_and_tc_upper : Z;
  c_tc_lower_and_fl_upper : Z;
  c_fl_lower : bytes;
  c_hop_limit : Z;
}.

Definition compressedIPv6Header : packed CompressedIPv6Header :=
  packed_struct (u8 × u8 × byte_array 2 × u8)
    (λ '(x0, x1, x2, x3), mk_CompressedIPv6Header x0 x1 x2 x3)
    (λ h, (c_version_and_tc_upper h, c_tc_lower_and_fl_upper h, c_fl_lower h, c_hop_limit h)).

#[global] Instance compressedIPv6Header_laws : PackedLaws compressedIPv6Header.
Proof. packed_struct. Qed.

(** [T::ref_from_prefix(pkt.body()).unwrap()] *)
Definition header_of {A} (c : packed A) pkt : outcome A :=
  match read_from_prefix c (body M pkt) with Some (h, _) => Ret h | None => Panic end.

(** [pkt.body_mut().copy_within(src..src + n, dst)] *)
Definition body_copy_within pkt (src n dst : nat) : outcome Packet :=
  let b := body M pkt in
  if (length b <? src + n)%nat || (length b - n <? dst)%nat || (length b <? n)%nat then Panic
  else Ret (set_body M pkt (take dst b ++ take n (drop src b) ++ drop (dst + n) b)).

(** Assigning two bytes of a struct of [size] bytes at the front of the body. *)
Definition set_field2 pkt (size off : nat) (v : bytes) : outcome Packet :=
  let b := body M pkt in
  if (length b <? size)%nat then Panic else Ret (set_body M pkt (take off b ++ v ++ drop (off + 2) b)).

Definition compress_tcp (mode : Z) pkt : outcome Packet :=
  r ← get_u16 M pkt;
  let '(src_port, pkt) := r in
  r ← get_u16 M pkt;
  let '(dst_port, pkt) := r in
  pkt ← body_copy_within pkt 0 12 2;
  pkt ← advance pkt 2;
  pkt ← (if Z.land mode cm_DESTINATION_PORT_PRESENT =? 0 then push_u16 M pkt dst_port else Ret pkt);
  if Z.land mode cm_SOURCE_PORT_PRESENT =? 0 then push_u16 M pkt src_port else Ret pkt.

(** The ports of an expanded segment: from the classifier, or from the packet. *)
Definition expand_ports (mode : Z) (ft : FiveTuple) pkt : outcome (Z * Z * Packet) :=
  r ← (if negb (Z.land mode cm_SOURCE_PORT_PRESENT =? 0) then Ret (src_port ft, pkt) else get_u16 M pkt);
  let '(src_port, pkt) := r in
  r ← (if negb (Z.land mode cm_DESTINATION_PORT_PRESENT =? 0) then Ret (dst_port ft, pkt) else get_u16 M pkt);
  let '(dst_port, pkt) := r in
  Ret (src_port, dst_port, pkt).

Definition expand_tcp (mode : Z) (ft : FiveTuple) pkt : outcome Packet :=
  r ← expand_ports mode ft pkt;
  let '(src_port, dst_port, pkt) := r in
  pkt ← alloc_zeroed_headroom M pkt 2;
  pkt ← body_copy_within pkt 2 12 0;
  pkt ← push_u16 M pkt dst_port;
  pkt ← push_u16 M pkt src_port;
  pkt ← set_field2 pkt (size_of tcpHeader) 16 [0; 0];
  set_field2 pkt (size_of tcpHeader) 16
    (inet_l4_checksum (l3_type ft) (src_address ft) (dst_address ft) TCP (body M pkt)).

Definition compress_udp (mode : Z) pkt : outcome Packet :=
  r ← get_u16 M pkt;
  let '(src_port, pkt) := r in
  r ← get_u16 M pkt;
  let '(dst_port, pkt) := r in
  pkt ← advance pkt 2;
  pkt ← (if Z.land mode cm_DESTINATION_PORT_PRESENT =? 0 then push_u16 M pkt dst_port else Ret pkt);
  if Z.land mode cm_SOURCE_PORT_PRESENT =? 0 then push_u16 M pkt src_port else Ret pkt.

Definition expand_udp (mode : Z) (ft : FiveTuple) pkt : outcome Packet :=
  r ← expand_ports mode ft pkt;
  let '(src_port, dst_port, pkt) := r in
  let payload_len := wrap64 (zlen (body M pkt) - 2) in
  pkt ← push_u16 M pkt (wrap16 (payload_len + 8));
  pkt ← push_u16 M pkt dst_port;
  push_u16 M pkt src_port.

Definition compress_l4 (mode l4 : Z) pkt : outcome Packet :=
  if l4 =? TCP then compress_tcp mode pkt
  else if l4 =? UDP then compress_udp mode pkt
  else Ret pkt.

Definition expand_l4 (mode : Z) (ft : FiveTuple) pkt : outcome Packet :=
  if l4_protocol ft =? TCP then expand_tcp mode ft pkt
  else if l4_protocol ft =? UDP then expand_udp mode ft pkt
  else Ret pkt.

Definition compress_ipv4 (mode l4 : Z) pkt : outcome Packet :=
  hdr ← header_of ipv4Header pkt;
  let hl := Z.land (vhl hdr) IPV4_HEADER_LENGTH_MASK in
  let frag_flags := Z.shiftr (frag_offset hdr) 13 in
  let offset := Z.land (frag_offset hdr) 0x1fff in
  pkt ← advance pkt 20;
  pkt ← compress_l4 mode l4 pkt;
  pkt ← push_header M pkt [ttl hdr];
  let frag_info_present := negb (offset =? 0) in
  pkt ← (if frag_info_present then push_header M pkt (be_put 2 offset) else Ret pkt);
  pkt ← push_header M pkt (frag_id hdr);
  let hl_zdpflags := Z.lor (Z.lor (wrap8 (Z.shiftl hl 4)) (if frag_info_present then ZDP_V4_FRAG_INFO_PRESENT else 0))
                           (wrap8 frag_flags) in
  push_header M pkt [hl_zdpflags; dscp hdr].

Definition expand_ipv4 (mode : Z) (ft : FiveTuple) pkt : outcome Packet :=
  r ← get_array M 2 pkt;
  let '(hl_zdpflags_tos, pkt) := r in
  hl_zdpflags ← index hl_zdpflags_tos 0;
  tos ← index hl_zdpflags_tos 1;
  let hl := Z.shiftr hl_zdpflags 4 in
  let frag_info_present := negb (Z.land hl_zdpflags ZDP_V4_FRAG_INFO_PRESENT =? 0) in
  let frag_flags := Z.land hl_zdpflags 0x07 in
  r ← get_array M 2 pkt;
  let '(frag_id, pkt) := r in
  r ← (if frag_info_present then get_u16 M pkt else Ret (0, pkt));
  let '(offset, pkt) := r in
  let frag_offset := Z.lor offset (wrap16 (Z.shiftl frag_flags 13)) in
  r ← get_u8 M pkt;
  let '(ttl, pkt) := r in
  pkt ← expand_l4 mode ft pkt;
  let body_len := zlen (body M pkt) in
  pkt ← alloc_header M pkt (as_bytes ipv4Header
    (mk_IPv4Header (Z.lor (Z.shiftl 4 4) hl) tos (wrap16 (body_len + 20)) frag_id frag_offset ttl
       (l4_protocol ft) [0; 0] (read_as_v4 (src_address ft)) (read_as_v4 (dst_address ft))));
  let header_len := Z.to_nat (Z.shiftl hl 2) in
  if (length (body M pkt) <? header_len)%nat then Panic
  else set_field2 pkt (size_of ipv4Header) 10 (be_put 2 (ip4sum (take header_len (body M pkt)))).

Definition compress_ipv6 (mode l4 : Z) pkt : outcome Packet :=
  hdr ← header_of ipv6Header pkt;
  pkt ← advance pkt 40;
  pkt ← compress_l4 mode l4 pkt;
  alloc_header M pkt (as_bytes compressedIPv6Header
    (mk_CompressedIPv6Header (version_and_tc_upper hdr) (tc_lower_and_fl_upper hdr) (fl_lower hdr) (hop_limit hdr))).

Definition expand_ipv6 (mode : Z) (ft : FiveTuple) pkt : outcome Packet :=
  chdr ← header_of compressedIPv6Header pkt;
  pkt ← advance pkt 5;
  pkt ← expand_l4 mode ft pkt;
  let body_len := zlen (body M pkt) in
  alloc_header M pkt (as_bytes ipv6Header
    (mk_IPv6Header (c_version_and_tc_upper chdr) (c_tc_lower_and_fl_upper chdr) (c_fl_lower chdr)
       (wrap16 body_len) (l4_protocol ft) (c_hop_limit chdr) (src_address ft) (dst_address ft))).

Definition compress (mode l3 l4 : Z) pkt : outcome Packet :=
  if l3 =? L3_Ipv4 then compress_ipv4 mode l4 pkt
  else if l3 =? L3_Ipv6 then compress_ipv6 mode l4 pkt
  else Ret pkt.

Definition expand (mode : Z) (ft : FiveTuple) pkt : outcome Packet :=
  if l3_type ft =? L3_Ipv4 then expand_ipv4 mode ft pkt
  else if l3_type ft =? L3_Ipv6 then expand_ipv6 mode ft pkt
  else Ret pkt.
End compress.

(** ** Lemmas on views *)

#[local] Opaque be_put.
#[local] Arguments get_u16 : simpl never.
#[local] Arguments get_u8 : simpl never.
#[local] Arguments get_array : simpl never.
#[local] Arguments advance : simpl never.
#[local] Arguments push_header : simpl never.
#[local] Arguments push_u16 : simpl never.
#[local] Arguments alloc_header : simpl never.
#[local] Arguments alloc_zeroed_headroom : simpl never.
#[local] Arguments of_view : simpl never.
#[local] Arguments body : simpl never.

Section compress_lemmas.
Context {ND : NetDefs} {NL : NetDefsLaws} (M : Z).
Implicit Types (md : PacketMetadata) (h b t g : bytes).

Lemma be_put_zlen n z : zlen (be_put n z) = Z.of_nat n.
Proof. unfold zlen. by rewrite be_put_length. Qed.

Lemma get_u16_view md h b t v :
  is_u16 v → get_u16 M (of_view M md h (be_put 2 v ++ b) t) = Ret (v, of_view M md (h ++ be_put 2 v) b t).
Proof.
  intros Hv. unfold get_u16. rewrite get_array_view by apply be_put_zlen. simpl.
  by rewrite be_get_put by (unfold is_u16 in Hv; simpl; lia).
Qed.

Lemma push_room md h b t l :
  zlen l <= zlen h →
  ∃ g, push_header M (of_view M md h b t) l = Ret (of_view M md g (l ++ b) t) ∧ zlen g = zlen h - zlen l.
Proof.
  intros Hl. pose proof (zlen_nonneg l). destruct (headroom_split h (zlen l)) as (h1 & h2 & -> & H2); [lia|].
  exists h1. rewrite push_view by done. split; [done|]. rewrite zlen_app. lia.
Qed.

Lemma alloc_header_room md h b t l :
  zlen l <= zlen h →
  ∃ g, alloc_header M (of_view M md h b t) l = Ret (of_view M md g (l ++ b) t) ∧ zlen g = zlen h - zlen l.
Proof.
  intros Hl. pose proof (zlen_nonneg l). destruct (headroom_split h (zlen l)) as (h1 & h2 & -> & H2); [lia|].
  exists h1. rewrite alloc_header_view by done. split; [done|]. rewrite zlen_app. lia.
Qed.

Lemma alloc_zeroed_room md h b t (n : nat) :
  Z.of_nat n <= zlen h →
  ∃ g, alloc_zeroed_headroom M (of_view M md h b t) (Z.of_nat n) = Ret (of_view M md g (replicate n 0 ++ b) t) ∧
       zlen g = zlen h - Z.of_nat n.
Proof.
  intros Hl. destruct (headroom_split h (Z.of_nat n)) as (h1 & h2 & -> & H2); [lia|].
  exists h1. rewrite <- H2, alloc_zeroed_view. split; [|rewrite zlen_app; lia].
  by replace (length h2) with n by (unfold zlen in H2; lia).
Qed.

Lemma set_field2_view md h t a x b v (size : nat) :
  zlen x = 2 → zlen v = 2 → (size <= length (a ++ x ++ b))%nat →
  set_field2 M (of_view M md h (a ++ x ++ b) t) size (length a) v = Ret (of_view M md h (a ++ v ++ b) t).
Proof.
  intros Hx Hv Hs. unfold set_field2. rewrite of_view_body.
  destruct (Nat.ltb_spec (length (a ++ x ++ b)) size); [lia|]. f_equal.
  rewrite take_app_length. rewrite (app_assoc a x), drop_app_length'
    by (rewrite length_app; unfold zlen in Hx; lia).
  rewrite <- app_assoc. apply set_body_view. rewrite !zlen_app. lia.
Qed.

(** A port in the compressed segment, when it is not in the classifier. *)
Definition opt_port (mode flag v : Z) : bytes := if Z.land mode flag =? 0 then be_put 2 v else [].

Lemma opt_port_zlen mode flag v : zlen (opt_port mode flag v) <= 2.
Proof. unfold opt_port. destruct (_ =? _); [rewrite be_put_zlen; lia|done]. Qed.

Lemma opt_push md h b t mode flag v :
  2 <= zlen h →
  ∃ g, (if Z.land mode flag =? 0 then push_u16 M (of_view M md h b t) v else Ret (of_view M md h b t))
       = Ret (of_view M md g (opt_port mode flag v ++ b) t) ∧ zlen h - 2 <= zlen g.
Proof.
  intros Hh. unfold opt_port. destruct (_ =? _); [|exists h; split; [done|lia]].
  destruct (push_room md h b t (be_put 2 v)) as (g & Hg & Hl); [rewrite be_put_zlen; lia|].
  exists g. split; [done|]. rewrite be_put_zlen in Hl. lia.
Qed.

(** [compress_tcp] and [compress_udp] both start by reading the ports... *)
Lemma expand_ports_view md h b t mode ft sp dp :
  is_u16 sp → is_u16 dp →
  (Z.land mode cm_SOURCE_PORT_PRESENT ≠ 0 → sp = src_port ft) →
  (Z.land mode cm_DESTINATION_PORT_PRESENT ≠ 0 → dp = dst_port ft) →
  ∃ g, expand_ports M mode ft (of_view M md h (opt_port mode cm_SOURCE_PORT_PRESENT sp
         ++ opt_port mode cm_DESTINATION_PORT_PRESENT dp ++ b) t)
       = Ret (sp, dp, of_view M md g b t) ∧ zlen h <= zlen g.
Proof.
  intros Hs Hd Hsp Hdp. unfold expand_ports, opt_port.
  destruct (Z.eqb_spec (Z.land mode cm_SOURCE_PORT_PRESENT) 0) as [|Hs0]; simpl;
    [rewrite get_u16_view by done; simpl|rewrite <- (Hsp Hs0)];
  (destruct (Z.eqb_spec (Z.land mode cm_DESTINATION_PORT_PRESENT) 0) as [|Hd0]; simpl;
    [rewrite get_u16_view by done; simpl|rewrite <- (Hdp Hd0)]);
  eexists; (split; [done|]); rewrite ?zlen_app, ?be_put_zlen; lia.
Qed.

Lemma compress_tcp_view md h t mode sp dp r1 ck rest :
  is_u16 sp → is_u16 dp → length r1 = 12%nat → length ck = 2%nat →
  ∃ g, compress_tcp M mode (of_view M md h (be_put 2 sp ++ be_put 2 dp ++ r1 ++ ck ++ rest) t)
       = Ret (of_view M md g (opt_port mode cm_SOURCE_PORT_PRESENT sp
                ++ opt_port mode cm_DESTINATION_PORT_PRESENT dp ++ r1 ++ rest) t) ∧ zlen h + 2 <= zlen g.
Proof.
  intros Hs Hd H1 Hc. unfold compress_tcp. rewrite get_u16_view by done. simpl.
  rewrite get_u16_view by done. simpl. unfold body_copy_within. rewrite of_view_body.
  pose proof (zlen_nonneg h). rewrite !length_app, H1, Hc. simpl.
  rewrite set_body_view.
  2: { unfold zlen. rewrite !length_app, !length_take, !length_drop, !length_app, H1, Hc. lia. }
  replace (take 2 (r1 ++ ck ++ rest) ++ take 12 (drop 0 (r1 ++ ck ++ rest)) ++ drop 14 (r1 ++ ck ++ rest))
    with (take 2 r1 ++ r1 ++ rest).
  2: { rewrite take_app_le by lia. rewrite drop_0, take_app_length' by done.
       by rewrite (app_assoc r1 ck), drop_app_length' by (rewrite length_app; lia). }
  assert (zlen (take 2 r1) = 2) as H2 by (unfold zlen; rewrite length_take; lia).
  rewrite advance_view, !zlen_app, H2 by lia. pose proof (zlen_nonneg r1). pose proof (zlen_nonneg rest).
  destruct (Z.leb_spec 2 (2 + (zlen r1 + zlen rest))); [|lia]. simpl.
  rewrite drop_app_length' by (unfold zlen in H2; lia). rewrite take_app_length' by (unfold zlen in H2; lia).
  destruct (opt_push md (((h ++ be_put 2 sp) ++ be_put 2 dp) ++ take 2 r1) (r1 ++ rest) t mode
    cm_DESTINATION_PORT_PRESENT dp) as (g1 & -> & Hg1); [rewrite !zlen_app, !be_put_zlen; lia|]. simpl.
  rewrite !zlen_app, !be_put_zlen, H2 in Hg1.
  destruct (opt_push md g1 (opt_port mode cm_DESTINATION_PORT_PRESENT dp ++ r1 ++ rest) t mode
    cm_SOURCE_PORT_PRESENT sp) as (g2 & -> & Hg2); [lia|].
  exists g2. split; [done|lia].
Qed.

Lemma compress_udp_view md h t mode sp dp n rest :
  is_u16 sp → is_u16 dp →
  ∃ g, compress_udp M mode (of_view M md h (be_put 2 sp ++ be_put 2 dp ++ be_put 2 n ++ rest) t)
       = Ret (of_view M md g (opt_port mode cm_SOURCE_PORT_PRESENT sp
                ++ opt_port mode cm_DESTINATION_PORT_PRESENT dp ++ rest) t) ∧ zlen h + 2 <= zlen g.
Proof.
  intros Hs Hd. unfold compress_udp. rewrite get_u16_view by done. simpl.
  rewrite get_u16_view by done. simpl. pose proof (zlen_nonneg h). pose proof (zlen_nonneg rest).
  rewrite advance_view, zlen_app, be_put_zlen by lia. destruct (Z.leb_spec 2 (Z.of_nat 2 + zlen rest)); [|lia].
  simpl. rewrite drop_app_length', take_app_length' by (by rewrite be_put_length).
  destruct (opt_push md (((h ++ be_put 2 sp) ++ be_put 2 dp) ++ be_put 2 n) rest t mode
    cm_DESTINATION_PORT_PRESENT dp) as (g1 & -> & Hg1); [rewrite !zlen_app, !be_put_zlen; lia|]. simpl.
  rewrite !zlen_app, !be_put_zlen in Hg1.
  destruct (opt_push md g1 (opt_port mode cm_DESTINATION_PORT_PRESENT dp ++ rest) t mode
    cm_SOURCE_PORT_PRESENT sp) as (g2 & -> & Hg2); [lia|].
  exists g2. split; [done|lia].
Qed.

Lemma shift_down (r1 rest : bytes) : length r1 = 12%nat →
  ∃ x, take 0 (replicate 2 0 ++ r1 ++ rest) ++ take 12 (drop 2 (replicate 2 0 ++ r1 ++ rest))
         ++ drop (0 + 12) (replicate 2 0 ++ r1 ++ rest) = r1 ++ x ++ rest ∧ zlen x = 2.
Proof.
  intros Hr. exists (drop 10 r1). simpl. rewrite !drop_0, take_app_length', drop_app_le by lia.
  split; [done|]. unfold zlen. rewrite length_drop. lia.
Qed.

Lemma expand_tcp_view md h t mode ft sp dp r1 ck rest :
  is_u16 sp → is_u16 dp → length r1 = 12%nat → (2 <= length rest)%nat → 6 <= zlen h →
  (Z.land mode cm_SOURCE_PORT_PRESENT ≠ 0 → sp = src_port ft) →
  (Z.land mode cm_DESTINATION_PORT_PRESENT ≠ 0 → dp = dst_port ft) →
  ck = inet_l4_checksum (l3_type ft) (src_address ft) (dst_address ft) TCP
         (be_put 2 sp ++ be_put 2 dp ++ r1 ++ [0; 0] ++ rest) →
  ∃ g, expand_tcp M mode ft (of_view M md h (opt_port mode cm_SOURCE_PORT_PRESENT sp
         ++ opt_port mode cm_DESTINATION_PORT_PRESENT dp ++ r1 ++ rest) t)
       = Ret (of_view M md g (be_put 2 sp ++ be_put 2 dp ++ r1 ++ ck ++ rest) t) ∧ zlen h - 6 <= zlen g.
Proof.
  intros Hs Hd Hr1 Hrest Hh Hsp Hdp Hck. unfold expand_tcp.
  destruct (expand_ports_view md h (r1 ++ rest) t mode ft sp dp Hs Hd Hsp Hdp) as (g0 & -> & Hg0). simpl.
  destruct (alloc_zeroed_room md g0 (r1 ++ rest) t 2) as (g1 & Hal & Hg1); [lia|].
  change (Z.of_nat 2) with 2 in *. rewrite Hal. cbn [mbind outcome_bind].
  destruct (shift_down r1 rest Hr1) as (x & Hx & Hx2). unfold body_copy_within. rewrite of_view_body, Hx.
  rewrite !length_app, length_replicate, Hr1. simpl.
  rewrite set_body_view by (unfold zlen in *; simpl; rewrite !length_app; lia). cbn [mbind outcome_bind].
  destruct (push_room md g1 (r1 ++ x ++ rest) t (be_put 2 dp)) as (g2 & Hp2 & Hg2); [rewrite be_put_zlen; lia|].
  unfold push_u16. rewrite Hp2. simpl. rewrite be_put_zlen in Hg2.
  destruct (push_room md g2 (be_put 2 dp ++ r1 ++ x ++ rest) t (be_put 2 sp)) as (g3 & Hp3 & Hg3);
    [rewrite be_put_zlen; lia|]. rewrite Hp3. simpl. rewrite be_put_zlen in Hg3.
  set (a := be_put 2 sp ++ be_put 2 dp ++ r1).
  assert (length a = 16%nat) as Ha by (unfold a; rewrite !length_app, !be_put_length, Hr1; done).
  replace (be_put 2 sp ++ be_put 2 dp ++ r1 ++ x ++ rest) with (a ++ x ++ rest) by (unfold a; by rewrite <- !app_assoc).
  rewrite <- Ha, set_field2_view by (done || (rewrite !length_app, Ha; unfold zlen in Hx2; lia)). simpl.
  rewrite of_view_body.
  replace (a ++ 0 :: 0 :: rest) with (be_put 2 sp ++ be_put 2 dp ++ r1 ++ [0; 0] ++ rest)
    by (unfold a; by rewrite <- !app_assoc).
  rewrite <- Hck. replace (be_put 2 sp ++ be_put 2 dp ++ r1 ++ [0; 0] ++ rest) with (a ++ [0; 0] ++ rest)
    by (unfold a; by rewrite <- !app_assoc).
  rewrite set_field2_view; [|done|by rewrite Hck; unfold zlen; rewrite inet_l4_checksum_length|
    rewrite !length_app, Ha; simpl; lia].
  exists g3. split; [|lia]. unfold a. by rewrite <- !app_assoc.
Qed.

Lemma expand_udp_view md h t mode ft sp dp rest :
  is_u16 sp → is_u16 dp → 2 <= zlen rest → zlen rest + 6 < U16_MOD → 6 <= zlen h →
  (Z.land mode cm_SOURCE_PORT_PRESENT ≠ 0 → sp = src_port ft) →
  (Z.land mode cm_DESTINATION_PORT_PRESENT ≠ 0 → dp = dst_port ft) →
  ∃ g, expand_udp M mode ft (of_view M md h (opt_port mode cm_SOURCE_PORT_PRESENT sp
         ++ opt_port mode cm_DESTINATION_PORT_PRESENT dp ++ rest) t)
       = Ret (of_view M md g (be_put 2 sp ++ be_put 2 dp ++ be_put 2 (zlen rest + 6) ++ rest) t) ∧ zlen h - 6 <= zlen g.
Proof.
  intros Hs Hd Hr Hlen Hh Hsp Hdp. unfold expand_udp.
  destruct (expand_ports_view md h rest t mode ft sp dp Hs Hd Hsp Hdp) as (g0 & -> & Hg0). simpl.
  rewrite of_view_body. rewrite wrap64_small by (unfold is_u64; lia). unfold wrap16. rewrite Z.mod_small by lia.
  replace (zlen rest - 2 + 8) with (zlen rest + 6) by lia. unfold push_u16.
  destruct (push_room md g0 rest t (be_put 2 (zlen rest + 6))) as (g1 & -> & Hg1); [rewrite be_put_zlen; lia|].
  simpl. rewrite be_put_zlen in Hg1.
  edestruct (push_room md g1 (be_put 2 (zlen rest + 6) ++ rest) t (be_put 2 dp)) as (g2 & -> & Hg2);
    [rewrite be_put_zlen; lia|]. simpl. rewrite be_put_zlen in Hg2.
  edestruct (push_room md g2 (be_put 2 dp ++ be_put 2 (zlen rest + 6) ++ rest) t (be_put 2 sp)) as (g3 & -> & Hg3);
    [rewrite be_put_zlen; lia|]. rewrite be_put_zlen in Hg3. exists g3. split; [done|lia].
Qed.

(** ** Packets that compression may shorten

    [l4_seg mode ft seg comp]: [seg] is a segment of the flow [ft] whose
    redundant fields hold what expansion recomputes; [comp] is its compressed
    form. *)
Definition l4_seg (mode : Z) (ft : FiveTuple) (seg comp : bytes) : Prop :=
  let ports sp dp :=
    is_u16 sp ∧ is_u16 dp ∧
    (Z.land mode cm_SOURCE_PORT_PRESENT ≠ 0 → sp = src_port ft) ∧
    (Z.land mode cm_DESTINATION_PORT_PRESENT ≠ 0 → dp = dst_port ft) in
  let comp_ports sp dp :=
    opt_port mode cm_SOURCE_PORT_PRESENT sp ++ opt_port mode cm_DESTINATION_PORT_PRESENT dp in
  if l4_protocol ft =? TCP then
    ∃ sp dp r1 ck rest,
      ports sp dp ∧ length r1 = 12%nat ∧ (2 <= length rest)%nat ∧
      ck = inet_l4_checksum (l3_type ft) (src_address ft) (dst_address ft) TCP
             (be_put 2 sp ++ be_put 2 dp ++ r1 ++ [0; 0] ++ rest) ∧
      seg = be_put 2 sp ++ be_put 2 dp ++ r1 ++ ck ++ rest ∧
      comp = comp_ports sp dp ++ r1 ++ rest
  else if l4_protocol ft =? UDP then
    ∃ sp dp rest,
      ports sp dp ∧ 2 <= zlen rest ∧ zlen rest + 6 < U16_MOD ∧
      seg = be_put 2 sp ++ be_put 2 dp ++ be_put 2 (zlen rest + 6) ++ rest ∧
      comp = comp_ports sp dp ++ rest
  else comp = seg.

Lemma compress_l4_view md h t mode ft seg comp :
  l4_seg mode ft seg comp →
  ∃ g, compress_l4 M mode (l4_protocol ft) (of_view M md h seg t) = Ret (of_view M md g comp t) ∧
       zlen h <= zlen g.
Proof.
  unfold l4_seg, compress_l4. destruct (_ =? TCP); [|destruct (_ =? UDP)].
  - intros (sp & dp & r1 & ck & rest & (Hs & Hd & _) & Hr1 & _ & Hck & -> & ->).
    rewrite <- app_assoc. destruct (compress_tcp_view md h t mode sp dp r1 ck rest) as (g & -> & Hg); try done.
    { by rewrite Hck, inet_l4_checksum_length. }
    exists g. split; [done|lia].
  - intros (sp & dp & rest & (Hs & Hd & _) & _ & _ & -> & ->). rewrite <- app_assoc.
    destruct (compress_udp_view md h t mode sp dp (zlen rest + 6) rest) as (g & -> & Hg); try done.
    exists g. split; [done|lia].
  - intros ->. by exists h.
Qed.

Lemma expand_l4_view md h t mode ft seg comp :
  l4_seg mode ft seg comp → 6 <= zlen h →
  ∃ g, expand_l4 M mode ft (of_view M md h comp t) = Ret (of_view M md g seg t) ∧ zlen h - 6 <= zlen g.
Proof.
  intros Hseg Hh. revert Hseg. unfold l4_seg, expand_l4. destruct (_ =? TCP); [|destruct (_ =? UDP)].
  - intros (sp & dp & r1 & ck & rest & (Hs & Hd & Hsp & Hdp) & Hr1 & Hrest & Hck & -> & ->).
    rewrite <- app_assoc. by apply expand_tcp_view.
  - intros (sp & dp & rest & (Hs & Hd & Hsp & Hdp) & Hr & Hl & -> & ->). rewrite <- app_assoc.
    by apply expand_udp_view.
  - intros ->. exists h. split; [done|lia].
Qed.

(** *** IPv4 *)

Definition zero_checksum (hdr : IPv4Header) : IPv4Header :=
  mk_IPv4Header (vhl hdr) (dscp hdr) (total_length hdr) (frag_id hdr) (frag_offset hdr) (ttl hdr)
    (proto hdr) [0; 0] (ip4_src_address hdr) (ip4_dst_address hdr).

(** An IPv4 packet of the flow, without options, with the lengths and checksums
    its header implies. *)
Definition ipv4_packet (mode : Z) (ft : FiveTuple) (hdr : IPv4Header) (seg comp : bytes) : Prop :=
  in_range ipv4Header hdr ∧ vhl hdr = 0x45 ∧ total_length hdr = 20 + zlen seg ∧
  proto hdr = l4_protocol ft ∧ ip4_src_address hdr = read_as_v4 (src_address ft) ∧
  ip4_dst_address hdr = read_as_v4 (dst_address ft) ∧
  header_checksum hdr = be_put 2 (ip4sum (as_bytes ipv4Header (zero_checksum hdr))) ∧
  l4_seg mode ft seg comp.

Definition v4_flags (hdr : IPv4Header) : Z :=
  Z.lor (Z.lor (wrap8 (Z.shiftl (Z.land (vhl hdr) IPV4_HEADER_LENGTH_MASK) 4))
          (if Z.land (frag_offset hdr) 0x1fff =? 0 then 0 else 8))
    (Z.shiftr (frag_offset hdr) 13).

(** The compressed form of an IPv4 packet. *)
Definition ipv4_compressed (hdr : IPv4Header) (comp : bytes) : bytes :=
  [v4_flags hdr; dscp hdr] ++ frag_id hdr
  ++ (if Z.land (frag_offset hdr) 0x1fff =? 0 then [] else be_put 2 (Z.land (frag_offset hdr) 0x1fff))
  ++ [ttl hdr] ++ comp.

Lemma frag_bits x : is_u16 x →
  0 <= Z.shiftr x 13 < 8 ∧ is_u16 (Z.land x 0x1fff) ∧
  Z.lor (Z.land x 0x1fff) (wrap16 (Z.shiftl (Z.shiftr x 13) 13)) = x.
Proof.
  intros Hx. unfold is_u16 in *. change 0x1fff with (Z.ones 13).
  assert (wrap16 (Z.shiftl (Z.shiftr x 13) 13) = Z.shiftl (Z.shiftr x 13) 13) as ->.
  { rewrite Z.shiftl_mul_pow2, Z.shiftr_div_pow2 by lia. change (2 ^ 13) with 8192. zmod. }
  split; [rewrite Z.shiftr_div_pow2 by lia; change (2 ^ 13) with 8192; zmod|].
  split; [rewrite Z.land_ones by lia; change (2 ^ 13) with 8192; zmod|].
  apply Z.bits_inj'. intros i Hi. rewrite Z.lor_spec, Z.land_spec, Z.shiftl_spec by lia.
  destruct (Z.lt_ge_cases i 13).
  - rewrite Z.ones_spec_low, (Z.testbit_neg_r _ (i - 13)) by lia. by rewrite andb_true_r, orb_false_r.
  - rewrite Z.ones_spec_high, Z.shiftr_spec by lia. rewrite andb_false_r. simpl. f_equal. lia.
Qed.

(** The packed flag byte gives its three parts back. *)
Lemma v4_flags_parts (ff : Z) (p : bool) : 0 <= ff < 8 →
  let f := Z.lor (Z.lor 0x50 (if p then 8 else 0)) ff in
  Z.shiftr f 4 = 5 ∧ (Z.land f 8 =? 0) = negb p ∧ Z.land f 7 = ff.
Proof.
  intros Hf. assert (ff = 0 ∨ ff = 1 ∨ ff = 2 ∨ ff = 3 ∨ ff = 4 ∨ ff = 5 ∨ ff = 6 ∨ ff = 7) as Hc by lia.
  destruct Hc as [->|[->|[->|[->|[->|[->|[->| ->]]]]]]]; by destruct p.
Qed.

Lemma skip_header md h t {A} (c : packed A) `{!PackedLaws c} x rest :
  in_range c x →
  advance (of_view M md h (as_bytes c x ++ rest) t) (Z.of_nat (size_of c))
  = Ret (of_view M md (h ++ as_bytes c x) rest t).
Proof.
  intros Hx. pose proof (packed_length (c := c) x Hx) as Hl. rewrite advance_view, zlen_app by lia.
  pose proof (zlen_nonneg rest).
  destruct (Z.leb_spec (Z.of_nat (size_of c)) (zlen (as_bytes c x) + zlen rest)); [|unfold zlen in *; lia].
  by rewrite Nat2Z.id, take_app_length', drop_app_length' by done.
Qed.

(** What [compress_ipv4] does around the segment, options or not. *)
Lemma compress_ipv4_gen md h t mode l4 hdr seg comp g0 :
  in_range ipv4Header hdr →
  compress_l4 M mode l4 (of_view M md (h ++ as_bytes ipv4Header hdr) seg t) = Ret (of_view M md g0 comp t) →
  20 <= zlen g0 →
  ∃ g, compress_ipv4 M mode l4 (of_view M md h (as_bytes ipv4Header hdr ++ seg) t)
       = Ret (of_view M md g (ipv4_compressed hdr comp) t).
Proof.
  intros Hr Hl4 Hg0. unfold compress_ipv4, header_of. rewrite of_view_body.
  rewrite read_as_bytes by (done || apply _). cbn [mbind outcome_bind].
  rewrite (skip_header md h t ipv4Header hdr seg Hr : advance _ 20 = _). cbn [mbind outcome_bind].
  rewrite Hl4. cbn [mbind outcome_bind].
  destruct (push_room md g0 comp t [ttl hdr]) as (g1 & -> & Hg1); [unfold zlen at 1; simpl; lia|].
  rewrite zlen_cons, zlen_nil in Hg1. cbn [mbind outcome_bind].
  destruct Hr as [[[[[[[[[_ _] _] [Hfid _]] Hfo] _] _] _] _] _]. simpl in Hfo, Hfid.
  destruct (frag_bits (frag_offset hdr)) as (Hff & _ & _); [unfold is_u16; lia|].
  set (fi := if Z.land (frag_offset hdr) 0x1fff =? 0 then [] else be_put 2 (Z.land (frag_offset hdr) 0x1fff)).
  assert (∃ g2, (if negb (Z.land (frag_offset hdr) 8191 =? 0) then push_header M (of_view M md g1 ([ttl hdr] ++ comp) t)
      (be_put 2 (Z.land (frag_offset hdr) 8191)) else Ret (of_view M md g1 ([ttl hdr] ++ comp) t))
    = Ret (of_view M md g2 (fi ++ [ttl hdr] ++ comp) t) ∧ zlen g1 - 2 <= zlen g2) as (g2 & -> & Hg2).
  { unfold fi. destruct (Z.land (frag_offset hdr) 8191 =? 0); simpl; [exists g1; split; [done|lia]|].
    destruct (push_room md g1 (ttl hdr :: comp) t (be_put 2 (Z.land (frag_offset hdr) 8191))) as (g2 & -> & Hg2);
      rewrite be_put_zlen in *; [lia|]. exists g2. split; [done|lia]. }
  cbn [mbind outcome_bind].
  destruct (push_room md g2 (fi ++ [ttl hdr] ++ comp) t (frag_id hdr)) as (g3 & -> & Hg3); [unfold zlen at 1; lia|].
  cbn [mbind outcome_bind].
  match goal with |- context [push_header M _ [?f; _]] => assert (f = v4_flags hdr) as -> end.
  { unfold v4_flags. unfold wrap8 at 2. rewrite (Z.mod_small (Z.shiftr _ _)) by lia. by destruct (_ =? 0). }
  edestruct (push_room md g3) as (g4 & -> & _); [|by exists g4].
  rewrite !zlen_cons, zlen_nil. unfold zlen in *. rewrite Hfid in Hg3. lia.
Qed.

Lemma compress_ipv4_view md h t mode ft hdr seg comp :
  ipv4_packet mode ft hdr seg comp →
  ∃ g, compress_ipv4 M mode (l4_protocol ft) (of_view M md h (as_bytes ipv4Header hdr ++ seg) t)
       = Ret (of_view M md g (ipv4_compressed hdr comp) t).
Proof.
  intros (Hr & _ & _ & _ & _ & _ & _ & Hseg).
  pose proof (packed_length (c := ipv4Header) hdr Hr) as Hlen. change (size_of ipv4Header) with 20%nat in Hlen.
  destruct (compress_l4_view md (h ++ as_bytes ipv4Header hdr) t mode ft seg comp Hseg) as (g0 & Hg & Hg0).
  eapply compress_ipv4_gen; [done|done|]. rewrite zlen_app in Hg0. pose proof (zlen_nonneg h).
  unfold zlen in *. lia.
Qed.

Lemma get_u8_view md h b t v :
  get_u8 M (of_view M md h ([v] ++ b) t) = Ret (v, of_view M md (h ++ [v]) b t).
Proof. unfold get_u8. rewrite get_array_view by done. done. Qed.

(** Where the checksum sits in the header. *)
Lemma ipv4_checksum_field hdr : in_range ipv4Header hdr →
  ∃ a b, length a = 10%nat ∧ as_bytes ipv4Header hdr = a ++ header_checksum hdr ++ b ∧
         as_bytes ipv4Header (zero_checksum hdr) = a ++ [0; 0] ++ b.
Proof.
  destruct hdr as [x0 x1 x2 x3 x4 x5 x6 x7 x8 x9]. intros [[[[[[[[[_ _] _] [Hl _]] _] _] _] _] _] _]. simpl in Hl.
  exists (be_put 1 x0 ++ be_put 1 x1 ++ be_put 2 x2 ++ x3 ++ be_put 2 x4 ++ be_put 1 x5 ++ be_put 1 x6), (x8 ++ x9).
  split; [rewrite !length_app, !be_put_length, Hl; done|]. unfold zero_checksum. simpl.
  by rewrite <- !app_assoc.
Qed.

Lemma zero_checksum_range hdr : in_range ipv4Header hdr → in_range ipv4Header (zero_checksum hdr).
Proof.
  destruct hdr. intros Hr. simpl in *. split_and!; try tauto; repeat constructor; lia.
Qed.

Lemma expand_ipv4_view md h t mode ft hdr seg comp :
  ipv4_packet mode ft hdr seg comp → 26 <= zlen h →
  ∃ g, expand_ipv4 M mode ft (of_view M md h (ipv4_compressed hdr comp) t)
       = Ret (of_view M md g (as_bytes ipv4Header hdr ++ seg) t).
Proof.
  intros (Hr & Hv & Htl & Hpr & Hsrc & Hdst & Hck & Hseg) Hh. unfold expand_ipv4, ipv4_compressed.
  rewrite (get_array_view M md h _ [v4_flags hdr; dscp hdr]) by done. cbn [mbind outcome_bind].
  pose proof Hr as Hr'. destruct Hr' as [[[[[[[[[_ _] Htr] [Hfid _]] Hfo] _] _] _] _] _]. simpl in Hfo, Hfid, Htr.
  assert (is_u16 (frag_offset hdr)) as Hfo16 by (unfold is_u16; lia).
  destruct (frag_bits _ Hfo16) as (Hff & Hfi & Hfb).
  assert (v4_flags hdr = Z.lor (Z.lor 0x50 (if negb (Z.land (frag_offset hdr) 0x1fff =? 0) then 8 else 0))
    (Z.shiftr (frag_offset hdr) 13)) as Hfl by (unfold v4_flags; rewrite Hv; by destruct (_ =? 0)).
  destruct (v4_flags_parts (Z.shiftr (frag_offset hdr) 13) (negb (Z.land (frag_offset hdr) 0x1fff =? 0)) Hff)
    as (Hp1 & Hp2 & Hp3). rewrite <- Hfl in Hp1, Hp2, Hp3. rewrite negb_involutive in Hp2.
  change (index [v4_flags hdr; dscp hdr] 0) with (Ret (v4_flags hdr)).
  change (index [v4_flags hdr; dscp hdr] 1) with (Ret (dscp hdr)).
  cbn [mbind outcome_bind]. rewrite get_array_view by (unfold zlen; lia). cbn [mbind outcome_bind].
  rewrite Hp1, Hp3. change ZDP_V4_FRAG_INFO_PRESENT with 8. rewrite Hp2.
  set (fo := Z.land (frag_offset hdr) 8191) in *.
  assert (∃ g0, (if negb (fo =? 0) then get_u16 M (of_view M md ((h ++ [v4_flags hdr; dscp hdr]) ++ frag_id hdr)
      ((if fo =? 0 then [] else be_put 2 fo) ++ [ttl hdr] ++ comp) t)
      else Ret (0, of_view M md ((h ++ [v4_flags hdr; dscp hdr]) ++ frag_id hdr)
      ((if fo =? 0 then [] else be_put 2 fo) ++ [ttl hdr] ++ comp) t))
    = Ret (fo, of_view M md g0 ([ttl hdr] ++ comp) t) ∧ zlen h <= zlen g0) as (g0 & -> & Hg0).
  { destruct (Z.eqb_spec fo 0) as [->|]; simpl; [|rewrite get_u16_view by done];
      eexists; (split; [done|]); rewrite !zlen_app; pose proof (zlen_nonneg (frag_id hdr));
      rewrite ?be_put_zlen; unfold zlen; simpl; lia. }
  cbn [mbind outcome_bind]. rewrite get_u8_view, Hfb. cbn [mbind outcome_bind].
  destruct (expand_l4_view md (g0 ++ [ttl hdr]) t mode ft seg comp Hseg) as (g1 & -> & Hg1);
    rewrite zlen_app in *; change (zlen [ttl hdr]) with 1 in *; [lia|]. cbn [mbind outcome_bind].
  rewrite of_view_body. change (Z.lor (Z.shiftl 4 4) 5) with 0x45. unfold wrap16. rewrite Z.mod_small by lia.
  assert (mk_IPv4Header 69 (dscp hdr) (zlen seg + 20) (frag_id hdr) (frag_offset hdr) (ttl hdr) (l4_protocol ft)
    [0; 0] (read_as_v4 (src_address ft)) (read_as_v4 (dst_address ft)) = zero_checksum hdr) as ->
    by (unfold zero_checksum; rewrite Hv, Htl, Hpr, Hsrc, Hdst; f_equal; lia).
  pose proof (packed_length (c := ipv4Header) _ (zero_checksum_range _ Hr)) as Hlen.
  change (size_of ipv4Header) with 20%nat in *.
  destruct (alloc_header_room md g1 seg t (as_bytes ipv4Header (zero_checksum hdr))) as (g2 & -> & _);
    [unfold zlen in *; lia|]. cbn [mbind outcome_bind]. rewrite of_view_body.
  change (Z.to_nat (Z.shiftl 5 2)) with 20%nat. rewrite take_app_length' by done. rewrite length_app, Hlen.
  destruct (Nat.ltb_spec (20 + length seg) 20); [lia|]. rewrite <- Hck.
  destruct (ipv4_checksum_field hdr Hr) as (a & b & Ha & -> & E2). rewrite E2 in Hlen |- *.
  rewrite <- !app_assoc. exists g2. rewrite <- Ha. apply set_field2_view; [done|by rewrite Hck, be_put_zlen|].
  rewrite !length_app in *. lia.
Qed.

(** *** IPv6 *)

(** An IPv6 packet of the flow whose segment follows the fixed header directly. *)
Definition ipv6_packet (mode : Z) (ft : FiveTuple) (hdr : IPv6Header) (seg comp : bytes) : Prop :=
  in_range ipv6Header hdr ∧ payload_length hdr = zlen seg ∧ next_header hdr = l4_protocol ft ∧
  ip6_src_address hdr = src_address ft ∧ ip6_dst_address hdr = dst_address ft ∧
  l4_seg mode ft seg comp.

Definition ipv6_compressed (hdr : IPv6Header) (comp : bytes) : bytes :=
  as_bytes compressedIPv6Header (mk_CompressedIPv6Header (version_and_tc_upper hdr)
    (tc_lower_and_fl_upper hdr) (fl_lower hdr) (hop_limit hdr)) ++ comp.

Lemma compressed_range hdr : in_range ipv6Header hdr →
  in_range compressedIPv6Header (mk_CompressedIPv6Header (version_and_tc_upper hdr)
    (tc_lower_and_fl_upper hdr) (fl_lower hdr) (hop_limit hdr)).
Proof. destruct hdr. simpl. tauto. Qed.

Lemma expand_ipv6_view md h t mode ft hdr seg comp :
  ipv6_packet mode ft hdr seg comp → 46 <= zlen h →
  ∃ g, expand_ipv6 M mode ft (of_view M md h (ipv6_compressed hdr comp) t)
       = Ret (of_view M md g (as_bytes ipv6Header hdr ++ seg) t).
Proof.
  intros (Hr & Hpl & Hnh & Hs & Hd & Hseg) Hh. unfold expand_ipv6, header_of, ipv6_compressed.
  rewrite of_view_body. pose proof (compressed_range hdr Hr) as Hc.
  rewrite read_as_bytes by (done || apply _). cbn [mbind outcome_bind].
  rewrite (skip_header md h t compressedIPv6Header _ comp Hc : advance _ 5 = _). cbn [mbind outcome_bind].
  destruct (expand_l4_view md (h ++ as_bytes compressedIPv6Header (mk_CompressedIPv6Header (version_and_tc_upper hdr)
    (tc_lower_and_fl_upper hdr) (fl_lower hdr) (hop_limit hdr))) t mode ft seg comp Hseg) as (g0 & -> & Hg0);
    rewrite zlen_app in *; pose proof (zlen_nonneg (as_bytes compressedIPv6Header (mk_CompressedIPv6Header
      (version_and_tc_upper hdr) (tc_lower_and_fl_upper hdr) (fl_lower hdr) (hop_limit hdr)))); [lia|].
  cbn [mbind outcome_bind]. rewrite of_view_body. pose proof (packed_length (c := ipv6Header) hdr Hr) as Hl.
  assert (mk_IPv6Header (version_and_tc_upper hdr) (tc_lower_and_fl_upper hdr) (fl_lower hdr)
    (wrap16 (zlen seg)) (l4_protocol ft) (hop_limit hdr) (src_address ft) (dst_address ft) = hdr) as Heq.
  { rewrite <- Hpl, <- Hnh, <- Hs, <- Hd. destruct hdr. simpl in *. unfold wrap16. f_equal. apply Z.mod_small. lia. }
  cbn [c_version_and_tc_upper c_tc_lower_and_fl_upper c_fl_lower c_hop_limit]. rewrite Heq.
  change (size_of ipv6Header) with 40%nat in Hl.
  edestruct (alloc_header_room md g0) as (g1 & -> & _); [|by exists g1]. unfold zlen in *. lia.
Qed.

(** ** Compression does not panic on segments that are long enough *)

Lemma take2_port (l : bytes) : Forall is_u8 l → (2 <= length l)%nat →
  ∃ v rest, is_u16 v ∧ l = be_put 2 v ++ rest ∧ Forall is_u8 rest ∧ length rest = (length l - 2)%nat.
Proof.
  intros Hl Hn. exists (be_get (take 2 l)), (drop 2 l).
  assert (length (take 2 l) = 2%nat) as H2 by (rewrite length_take; lia).
  pose proof (be_get_range (take 2 l) (Forall_take _ _ _ Hl)) as Hr. unfold zlen in Hr. rewrite H2 in Hr.
  pose proof (be_put_get (take 2 l) (Forall_take _ _ _ Hl)) as E. rewrite H2 in E. rewrite E.
  rewrite take_drop, length_drop. split_and!; auto using Forall_drop; apply Hr.
Qed.

Lemma compress_l4_total md h t mode l4 seg :
  Forall is_u8 seg → (l4 = TCP → 18 <= zlen seg) → (l4 = UDP → 6 <= zlen seg) →
  ∃ g comp, compress_l4 M mode l4 (of_view M md h seg t) = Ret (of_view M md g comp t) ∧ zlen h <= zlen g.
Proof.
  intros Hb Htcp Hudp. unfold compress_l4, zlen in Htcp, Hudp |- *.
  destruct (Z.eqb_spec l4 TCP) as [Hl4|_]; [|destruct (Z.eqb_spec l4 UDP) as [Hl4|_]; [|by eexists h, _]].
  - specialize (Htcp Hl4). destruct (take2_port seg Hb) as (sp & s1 & Hsp & -> & Hb1 & Hs1); [lia|].
    rewrite length_app, be_put_length in *.
    destruct (take2_port s1 Hb1) as (dp & s2 & Hdp & -> & Hb2 & Hs2); [lia|].
    rewrite length_app, be_put_length in *.
    rewrite <- (take_drop 12 s2). rewrite <- (take_drop 2 (drop 12 s2)).
    destruct (compress_tcp_view md h t mode sp dp (take 12 s2) (take 2 (drop 12 s2)) (drop 2 (drop 12 s2)))
      as (g & -> & Hg); [done|done|rewrite length_take; lia|rewrite length_take, length_drop; lia|].
    eexists g, _. split; [done|]. unfold zlen in Hg. lia.
  - specialize (Hudp Hl4). destruct (take2_port seg Hb) as (sp & s1 & Hsp & -> & Hb1 & Hs1); [lia|].
    rewrite length_app, be_put_length in *.
    destruct (take2_port s1 Hb1) as (dp & s2 & Hdp & -> & Hb2 & Hs2); [lia|].
    rewrite length_app, be_put_length in *.
    destruct (take2_port s2 Hb2) as (n & s3 & _ & -> & _ & _); [lia|].
    destruct (compress_udp_view md h t mode sp dp n s3) as (g & -> & Hg); [done|done|].
    eexists g, _. split; [done|]. unfold zlen in Hg. lia.
Qed.

Lemma compress_ipv6_gen md h t mode l4 hdr seg comp g0 :
  in_range ipv6Header hdr →
  compress_l4 M mode l4 (of_view M md (h ++ as_bytes ipv6Header hdr) seg t) = Ret (of_view M md g0 comp t) →
  5 <= zlen g0 →
  ∃ g, compress_ipv6 M mode l4 (of_view M md h (as_bytes ipv6Header hdr ++ seg) t)
       = Ret (of_view M md g (ipv6_compressed hdr comp) t).
Proof.
  intros Hr Hl4 Hg0. unfold compress_ipv6, header_of. rewrite of_view_body.
  rewrite read_as_bytes by (done || apply _). cbn [mbind outcome_bind].
  rewrite (skip_header md h t ipv6Header hdr seg Hr : advance _ 40 = _). cbn [mbind outcome_bind].
  rewrite Hl4. cbn [mbind outcome_bind].
  pose proof (packed_length (c := compressedIPv6Header) _ (compressed_range hdr Hr)) as Hl'.
  change (size_of compressedIPv6Header) with 5%nat in Hl'.
  edestruct (alloc_header_room md g0) as (g1 & -> & _); [|by exists g1]. unfold zlen in *. lia.
Qed.

Lemma compress_ipv6_view md h t mode ft hdr seg comp :
  ipv6_packet mode ft hdr seg comp →
  ∃ g, compress_ipv6 M mode (l4_protocol ft) (of_view M md h (as_bytes ipv6Header hdr ++ seg) t)
       = Ret (of_view M md g (ipv6_compressed hdr comp) t).
Proof.
  intros (Hr & _ & _ & _ & _ & Hseg).
  pose proof (packed_length (c := ipv6Header) hdr Hr) as Hl. change (size_of ipv6Header) with 40%nat in Hl.
  destruct (compress_l4_view md (h ++ as_bytes ipv6Header hdr) t mode ft seg comp Hseg) as (g0 & Hg & Hg0).
  eapply compress_ipv6_gen; [done|done|]. rewrite zlen_app in Hg0. pose proof (zlen_nonneg h).
  unfold zlen in *. lia.
Qed.

Lemma compress_total md h t mode l3 l4 (p : bytes) (n : Z) :
  Forall is_u8 p → (l3 = L3_Ipv4 ∧ n = 20) ∨ (l3 = L3_Ipv6 ∧ n = 40) → n <= zlen p →
  (l4 = TCP → 18 <= zlen p - n) → (l4 = UDP → 6 <= zlen p - n) →
  ∃ q, compress M mode l3 l4 (of_view M md h p t) = Ret q.
Proof.
  intros Hb Hl3 Hn Htcp Hudp. unfold compress. pose proof (zlen_nonneg h).
  destruct Hl3 as [[-> ->]|[-> ->]].
  - rewrite Z.eqb_refl. destruct (read_from_prefix ipv4Header p) as [[hdr seg]|] eqn:Er.
    2: { apply read_None in Er. change (size_of ipv4Header) with 20%nat in Er. unfold zlen in Hn. lia. }
    apply read_Some in Er as (-> & Hr & Hs); [|apply _|done].
    pose proof (packed_length (c := ipv4Header) hdr Hr) as Hlen. change (size_of ipv4Header) with 20%nat in Hlen.
    rewrite zlen_app in *. unfold zlen in Hlen, Htcp, Hudp. rewrite Hlen in *.
    destruct (compress_l4_total md (h ++ as_bytes ipv4Header hdr) t mode l4 seg Hs) as (g & comp & Hc & Hg);
      [unfold zlen; intros; lia|unfold zlen; intros; lia|].
    edestruct compress_ipv4_gen as (g' & ->); [exact Hr|exact Hc| |by eexists].
    rewrite zlen_app in Hg. unfold zlen in *. lia.
  - destruct (Z.eqb_spec L3_Ipv6 L3_Ipv4) as [Hx|_]; [by destruct L3_distinct|].
    rewrite Z.eqb_refl. destruct (read_from_prefix ipv6Header p) as [[hdr seg]|] eqn:Er.
    2: { apply read_None in Er. change (size_of ipv6Header) with 40%nat in Er. unfold zlen in Hn. lia. }
    apply read_Some in Er as (-> & Hr & Hs); [|apply _|done].
    pose proof (packed_length (c := ipv6Header) hdr Hr) as Hlen. change (size_of ipv6Header) with 40%nat in Hlen.
    rewrite zlen_app in *. unfold zlen in Hlen, Htcp, Hudp. rewrite Hlen in *.
    destruct (compress_l4_total md (h ++ as_bytes ipv6Header hdr) t mode l4 seg Hs) as (g & comp & Hc & Hg);
      [unfold zlen; intros; lia|unfold zlen; intros; lia|].
    edestruct compress_ipv6_gen as (g' & ->); [exact Hr|exact Hc| |by eexists].
    rewrite zlen_app in Hg. unfold zlen in *. lia.
Qed.

(** A packet of flow [ft] and its compressed form. *)
Definition flow_packet (mode : Z) (ft : FiveTuple) (p c : bytes) : Prop :=
  if l3_type ft =? L3_Ipv4 then
    ∃ hdr seg comp, ipv4_packet mode ft hdr seg comp ∧ p = as_bytes ipv4Header hdr ++ seg ∧ c = ipv4_compressed hdr comp
  else if l3_type ft =? L3_Ipv6 then
    ∃ hdr seg comp, ipv6_packet mode ft hdr seg comp ∧ p = as_bytes ipv6Header hdr ++ seg ∧ c = ipv6_compressed hdr comp
  else c = p.
End compress_lemmas.

(** ** Properties *)

(** C4: compression is lossless: a packet of a flow (IPv4 without options, or
    IPv6 without extension headers, its lengths and checksums as expansion
    recomputes them, the ports the classifier fixes equal to the flow's)
    compresses without panic to a form that does not depend on the buffer, and
    expanding that form in any buffer with 46 bytes of headroom gives the
    packet back byte for byte; fragmentation fields, TTL and payload
    included. *)
Theorem compress_expand_roundtrip {ND : NetDefs} {NL : NetDefsLaws} (M mode : Z) (ft : FiveTuple) (p c : bytes) :
  flow_packet mode ft p c →
  (∀ md h t, ∃ g, compress M mode (l3_type ft) (l4_protocol ft) (of_view M md h p t) = Ret (of_view M md g c t)) ∧
  (∀ md h t, 46 <= zlen h → ∃ g, expand M mode ft (of_view M md h c t) = Ret (of_view M md g p t)).
Proof.
  unfold flow_packet, compress, expand. destruct (_ =? L3_Ipv4); [|destruct (_ =? L3_Ipv6)].
  - intros (hdr & seg & comp & Hp & -> & ->). split; intros; [by apply compress_ipv4_view|].
    apply expand_ipv4_view; [done|lia].
  - intros (hdr & seg & comp & Hp & -> & ->). split; intros; [by apply compress_ipv6_view|by apply expand_ipv6_view].
  - intros ->. split; intros; eauto.
Qed.

#[local] Transparent be_put.

(** A UDP flow, and a packet of it. *)
Definition sample_flow : FiveTuple :=
  mk_five_tuple (v4_prefix ++ [10; 0; 0; 1]) (v4_prefix ++ [10; 0; 0; 2]) 4 17 1000 53.
Definition sample_hdr0 : IPv4Header :=
  mk_IPv4Header 0x45 0 31 [18; 52] 0x4000 64 17 [0; 0] [10; 0; 0; 1] [10; 0; 0; 2].
Definition sample_hdr : IPv4Header :=
  mk_IPv4Header 0x45 0 31 [18; 52] 0x4000 64 17 (be_put 2 (ip4sum (as_bytes ipv4Header sample_hdr0)))
    [10; 0; 0; 1] [10; 0; 0; 2].
Definition sample_seg : bytes := be_put 2 1000 ++ be_put 2 53 ++ be_put 2 11 ++ [0; 0; 1; 2; 3].
Definition sample_compressed : bytes := [82; 0; 18; 52; 64; 0; 0; 1; 2; 3].

Lemma compress_expand_roundtrip_witness :
  ∃ g, expand 96 3 sample_flow (of_view 96 sample_metadata (replicate 46 0) sample_compressed [])
       = Ret (of_view 96 sample_metadata g (as_bytes ipv4Header sample_hdr ++ sample_seg) []).
Proof.
  apply (compress_expand_roundtrip 96 3 sample_flow (as_bytes ipv4Header sample_hdr ++ sample_seg) sample_compressed);
    [|vm_compute; discriminate].
  exists sample_hdr, sample_seg, [0; 0; 1; 2; 3]. split_and!; [|done|done].
  split; [vm_compute; repeat split; (discriminate || (repeat constructor; discriminate))|].
  split_and!; try done. exists 1000, 53, [0; 0; 1; 2; 3].
  split_and!; try done; unfold is_u16, zlen; simpl; lia.
Defined.

(** Expansion has no length check: a transit packet whose compressed form
    is shorter than the five mandatory bytes panics the receiving node, for
    IPv4 and IPv6 flows alike, before the end-to-end MAC is checked. *)
Theorem expand_short_panics {ND : NetDefs} (M mode : Z) (ft : FiveTuple) (md : PacketMetadata) (h b t : bytes) :
  zlen b < 5 → l3_type ft = L3_Ipv4 ∨ l3_type ft = L3_Ipv6 → expand M mode ft (of_view M md h b t) = Panic.
Proof.
  intros Hb Hl3. unfold expand. destruct (Z.eqb_spec (l3_type ft) L3_Ipv4) as [_|H4].
  - unfold expand_ipv4. destruct b as [|f [|d b]]; [by rewrite get_array_short..|].
    rewrite (get_array_view M md h b [f; d]) by done. cbn [mbind outcome_bind].
    change (index [f; d] 0) with (Ret f). change (index [f; d] 1) with (Ret d). cbn [mbind outcome_bind].
    destruct b as [|i [|j b]]; [by rewrite get_array_short..|].
    rewrite (get_array_view M md _ b [i; j]) by done. cbn [mbind outcome_bind].
    destruct b as [|k b]; [|unfold zlen in Hb; simpl in Hb; lia].
    destruct (negb _); unfold get_u16, get_u8; cbn [mbind outcome_bind];
      by rewrite get_array_short by (unfold zlen; simpl; lia).
  - destruct Hl3 as [?|H6]; [done|]. rewrite H6, Z.eqb_refl. unfold expand_ipv6, header_of. rewrite of_view_body.
    by rewrite (proj2 (read_None compressedIPv6Header b)) by (change (size_of compressedIPv6Header) with 5%nat; unfold zlen in Hb; lia).
Qed.

Lemma expand_short_panics_witness :
  expand 96 3 sample_flow (of_view 96 sample_metadata (replicate 46 0) [82; 0; 18] []) = Panic.
Proof. apply expand_short_panics; [unfold zlen; simpl; lia|by left]. Defined.
