(* ===== verification/Classifier.v ===== *)
(** The packet classifier, [src/adapter/ph/src/classifier.rs]: it reads the IP,
    extension and transport headers of a packet, validates lengths and
    checksums, and fills in the packet's five-tuple. *)
From S2P Require Import Prelude Zdp NetDefs IpHeaders PacketBuf Compress.

Inductive ClassifierResult : Type :=
| OK | NonIP | UnclassifiedL4 | FirstFragment | SubsequentFragment.

(** The error messages. *)
Inductive ClassifierError : Type :=
| PacketLengthError
| BadL3Checksum
| BadL4Checksum
| V4MappedNotAllowed
| JumbogramsNotSupported.

Record ClassifierOptions : Type := mk_options {
  ignore_truncated_packets : bool;
  ignore_bad_checksums : bool;
}.

Definition options_default : ClassifierOptions := mk_options false false.
Definition with_ignore_truncated_packets (o : ClassifierOptions) (v : bool) : ClassifierOptions :=
  mk_options v (ignore_bad_checksums o).
Definition with_ignore_bad_checksums (o : ClassifierOptions) (v : bool) : ClassifierOptions :=
  mk_options (ignore_truncated_packets o) v.

Section classifier.
Context {ND : NetDefs}.
Implicit Types (ft : FiveTuple) (body : bytes) (options : ClassifierOptions).

(** What a classifier function does: the five-tuple as mutated so far, and the result. *)
Abbreviation result := (outcome (FiveTuple * (ClassifierError + ClassifierResult))).

(** [!options.ignore_bad_checksums && !options.ignore_truncated_packets] *)
Definition check_sums options : bool :=
  negb (ignore_bad_checksums options) && negb (ignore_truncated_packets options).

(** [T::ref_from_bytes(&body[..size_of::<T>()]).unwrap()] *)
Definition prefix {A} (c : packed A) body : outcome A :=
  match read_from_prefix c body with Some (h, _) => Ret h | None => Panic end.

(** [&body[n..]] *)
Definition suffix body (n : Z) : outcome bytes :=
  if zlen body <? n then Panic else Ret (drop (Z.to_nat n) body).

Definition get_ip_version body : outcome Z :=
  b ← index body 0; Ret (Z.shiftr (Z.land b IP_VERSION_MASK) 4).

Definition classify_unclassified ft : result :=
  Ret (set_dst_port (set_src_port ft 0) 0, inr UnclassifiedL4).

Definition validate_inet_l4_checksum_with_5t ft body : bool :=
  validate_inet_l4_checksum (l3_type ft) (src_address ft) (dst_address ft) (l4_protocol ft) body.

Definition is_option_length_error (remaining_len next_header option_length : Z) : bool :=
  (remaining_len <? option_length)
  || (negb (next_header =? NO_NEXT_HEADER) && (remaining_len <? option_length + 8)).

Definition classify_icmp ft body options : result :=
  icmp_header ← prefix icmpHeader body;
  let ft := set_dst_port (set_src_port ft (icmp_type icmp_header)) (icmp_code icmp_header) in
  Ret (ft, if check_sums options && negb (ip4sum body =? 0) then inl BadL4Checksum else inr OK).

Definition classify_icmpv6 ft body options : result :=
  icmp_header ← prefix icmpv6Header body;
  let ft := set_dst_port (set_src_port ft (icmp6_type icmp_header)) (icmp6_code icmp_header) in
  Ret (ft, if check_sums options && negb (validate_inet_l4_checksum_with_5t ft body)
           then inl BadL4Checksum else inr OK).

Definition classify_tcp ft body options : result :=
  if zlen body <? 20 then Ret (ft, inl PacketLengthError)
  else if check_sums options && negb (validate_inet_l4_checksum_with_5t ft body)
  then Ret (ft, inl BadL4Checksum)
  else
    tcp_header ← prefix tcpHeader body;
    let ft := set_dst_port (set_src_port ft (tcp_src_port tcp_header)) (tcp_dst_port tcp_header) in
    let data_offset := wrap8 (Z.shiftr (data_offset_and_reserved tcp_header) 4 * 4) in
    Ret (ft, if (data_offset <? 20) || (zlen body <? data_offset) then inl PacketLengthError else inr OK).

Definition classify_udp ft body options : result :=
  if zlen body <? 8 then Ret (ft, inl PacketLengthError)
  else
    udp_header ← prefix udpHeader body;
    if check_sums options && negb (bool_decide (udp_checksum udp_header = [0; 0]))
       && negb (validate_inet_l4_checksum_with_5t ft body)
    then Ret (ft, inl BadL4Checksum)
    else
      let ft := set_dst_port (set_src_port ft (udp_src_port udp_header)) (udp_dst_port udp_header) in
      let length := udp_length udp_header in
      Ret (ft, if (negb (ignore_truncated_packets options) && (zlen body <? length)) || (length <? zlen body)
               then inl PacketLengthError else inr OK).

Section next_header.
(** The recursive call. *)
Variable classify_next_header : FiveTuple → bytes → Z → ClassifierOptions → result.

Definition skip_v6_option ft body options : result :=
  next_header ← index body 0;
  b1 ← index body 1;
  let option_length := (b1 + 1) * 8 in
  if is_option_length_error (zlen body) next_header option_length then Ret (ft, inl PacketLengthError)
  else rest ← suffix body option_length; classify_next_header ft rest next_header options.

Definition skip_auth_header ft body options : result :=
  next_header ← index body 0;
  b1 ← index body 1;
  let option_length := (b1 + 2) * 4 in
  if is_option_length_error (zlen body) next_header option_length then Ret (ft, inl PacketLengthError)
  else rest ← suffix body option_length; classify_next_header ft rest next_header options.

Definition classify_frag ft body options : result :=
  next_header ← index body 0;
  if is_option_length_error (zlen body) next_header 8 then Ret (ft, inl PacketLengthError)
  else
    let frag_offset := be_get (take 2 (drop 2 body)) in
    if negb (Z.land frag_offset 0xFFF8 =? 0) then Ret (ft, inr SubsequentFragment)
    else
      rest ← suffix body 8;
      r ← classify_next_header ft rest next_header options;
      Ret (r.1, inr FirstFragment).
End next_header.

(** Every header that is skipped takes bytes off the body, so one more than its
    length is enough fuel. *)
Fixpoint next_header_loop (fuel : nat) ft body (protocol : Z) options : result :=
  match fuel with
  | O => Panic
  | S fuel =>
      let ft := set_l4_protocol ft protocol in
      if protocol =? HOPOPT then skip_v6_option (next_header_loop fuel) ft body options
      else if protocol =? ICMP then classify_icmp ft body options
      else if protocol =? IPINIP then classify_unclassified ft
      else if protocol =? TCP then classify_tcp ft body options
      else if protocol =? UDP then classify_udp ft body options
      else if protocol =? IPV6_ROUTE then skip_v6_option (next_header_loop fuel) ft body options
      else if protocol =? IPV6_FRAG then classify_frag (next_header_loop fuel) ft body options
      else if protocol =? AH then skip_auth_header (next_header_loop fuel) ft body options
      else if protocol =? IPV6_ICMP then classify_icmpv6 ft body options
      else if protocol =? IPV6_OPTS then skip_v6_option (next_header_loop fuel) ft body options
      else classify_unclassified ft
  end.

Definition classify_next_header ft body (protocol : Z) options : result :=
  next_header_loop (S (length body)) ft body protocol options.

Definition classify_ipv4 ft body options : result :=
  let ft := set_l3_type ft L3_Ipv4 in
  if zlen body <? 20 then Ret (ft, inl PacketLengthError)
  else
    ipv4_header ← prefix ipv4Header body;
    let header_length := Z.land (vhl ipv4_header) IPV4_HEADER_LENGTH_MASK * 4 in
    let total_length := total_length ipv4_header in
    if header_length <? 20 then Ret (ft, inl PacketLengthError)
    else if check_sums options && (zlen body <? header_length) then Ret (ft, inl PacketLengthError)
    else if check_sums options && negb (ip4sum (take (Z.to_nat header_length) body) =? 0)
    then Ret (ft, inl BadL3Checksum)
    else
      let ft := set_dst_address (set_src_address ft (new_from_v4 (ip4_src_address ipv4_header)))
                  (new_from_v4 (ip4_dst_address ipv4_header)) in
      let frag_offset := frag_offset ipv4_header in
      if negb (Z.land frag_offset 0x1FFF =? 0)
      then Ret (set_l4_protocol ft (proto ipv4_header), inr SubsequentFragment)
      else if (negb (ignore_truncated_packets options) && (zlen body <? total_length))
              || (total_length <? zlen body) || (zlen body <? header_length)
      then Ret (ft, inl PacketLengthError)
      else
        rest ← suffix body header_length;
        ret_code ← classify_next_header ft rest (proto ipv4_header) options;
        if negb (Z.land frag_offset 0x2000 =? 0) then Ret (ret_code.1, inr FirstFragment)
        else Ret ret_code.

Definition classify_ipv6 ft body options : result :=
  let ft := set_l3_type ft L3_Ipv6 in
  if zlen body <? 40 then Ret (ft, inl PacketLengthError)
  else
    ipv6_header ← prefix ipv6Header body;
    if is_v4 (ip6_src_address ipv6_header) || is_v4 (ip6_dst_address ipv6_header)
    then Ret (ft, inl V4MappedNotAllowed)
    else
      let ft := set_dst_address (set_src_address ft (ip6_src_address ipv6_header)) (ip6_dst_address ipv6_header) in
      let payload_length := payload_length ipv6_header in
      if (payload_length =? 0) && (next_header ipv6_header =? 0)
      then Ret (ft, inl JumbogramsNotSupported)
      else if (negb (ignore_truncated_packets options) && (zlen body - 40 <? payload_length))
              || (payload_length <? zlen body - 40)
      then Ret (ft, inl PacketLengthError)
      else rest ← suffix body 40; classify_next_header ft rest (next_header ipv6_header) options.

Definition classify_l3 ft body options : result :=
  match body with
  | [] => Ret (ft, inl PacketLengthError)
  | _ =>
      ip_version ← get_ip_version body;
      if ip_version =? 4 then classify_ipv4 ft body options
      else if ip_version =? 6 then classify_ipv6 ft body options
      else Ret (ft, inr NonIP)
  end.

Definition classify_zdp ft body options : result := classify_l3 ft body options.
Definition classify_with_options ft body options : result := classify_zdp ft body options.
Definition classify ft body : result := classify_with_options ft body options_default.
End classifier.

(** ** Lemmas *)

Section classifier_lemmas.
Context {ND : NetDefs} {NL : NetDefsLaws}.
Implicit Types (ft : FiveTuple) (body seg : bytes) (o : ClassifierOptions).

Lemma index_u8 body i x : Forall is_u8 body → index body i = Ret x → is_u8 x.
Proof. intros Hb [_ Hl]%index_Ret. by eapply Forall_lookup_1 in Hb. Qed.

Lemma suffix_Ret body n rest :
  suffix body n = Ret rest → rest = drop (Z.to_nat n) body ∧ n <= zlen body.
Proof. unfold suffix. destruct (Z.ltb_spec (zlen body) n); [done|]. intros [= <-]. auto. Qed.

Lemma suffix_in body n : n <= zlen body → suffix body n = Ret (drop (Z.to_nat n) body).
Proof. intros Hn. unfold suffix. by destruct (Z.ltb_spec (zlen body) n); [lia|]. Qed.

(** How a skipping step continues: the bytes it drops, at least one, and what
    it guarantees of the rest. *)
Lemma option_rest body nh n rest :
  is_option_length_error (zlen body) nh n = false → 0 < n → suffix body n = Ret rest →
  (length rest < length body)%nat ∧ rest = drop (Z.to_nat n) body ∧ n <= zlen body ∧
  (nh = NO_NEXT_HEADER ∨ 8 <= zlen rest).
Proof.
  unfold is_option_length_error. intros He Hn [-> Hle]%suffix_Ret. apply orb_false_iff in He as [_ He].
  unfold zlen in *. rewrite length_drop. split_and!; [lia|done|done|].
  destruct (Z.eqb_spec nh NO_NEXT_HEADER); [by left|right].
  simpl in He. apply Z.ltb_ge in He. lia.
Qed.

Section ext.
Context (rec rec' : FiveTuple → bytes → Z → ClassifierOptions → outcome (FiveTuple * (ClassifierError + ClassifierResult))).
Context (body : bytes) (Hb : Forall is_u8 body).
Hypothesis Hrec : ∀ ft b p o, Forall is_u8 b → (length b < length body)%nat → rec ft b p o = rec' ft b p o.

Lemma rest_ext ft nh n o :
  is_option_length_error (zlen body) nh n = false → 0 < n →
  (rest ← suffix body n; rec ft rest nh o) = (rest ← suffix body n; rec' ft rest nh o).
Proof using Hb Hrec.
  intros He Hn. destruct (suffix body n) as [rest|] eqn:Es; [|done]. simpl.
  destruct (option_rest _ _ _ _ He Hn Es) as (Hl & -> & _). apply Hrec; [by apply Forall_drop|done].
Qed.

Lemma skip_v6_ext ft o : skip_v6_option rec ft body o = skip_v6_option rec' ft body o.
Proof using Hb Hrec.
  unfold skip_v6_option. destruct (index body 0) as [nh|]; [|done]. simpl.
  destruct (index body 1) as [b1|] eqn:E1; [|done]. simpl. apply index_u8 in E1 as [??]; [|done].
  destruct (is_option_length_error _ _ _) eqn:He; [done|]. apply rest_ext; [done|lia].
Qed.

Lemma skip_ah_ext ft o : skip_auth_header rec ft body o = skip_auth_header rec' ft body o.
Proof using Hb Hrec.
  unfold skip_auth_header. destruct (index body 0) as [nh|]; [|done]. simpl.
  destruct (index body 1) as [b1|] eqn:E1; [|done]. simpl. apply index_u8 in E1 as [??]; [|done].
  destruct (is_option_length_error _ _ _) eqn:He; [done|]. apply rest_ext; [done|lia].
Qed.

Lemma frag_ext ft o : classify_frag rec ft body o = classify_frag rec' ft body o.
Proof using Hb Hrec.
  unfold classify_frag. destruct (index body 0) as [nh|]; [|done]. simpl.
  destruct (is_option_length_error _ _ _) eqn:He; [done|]. destruct (negb _); [done|].
  destruct (suffix body 8) as [rest|] eqn:Es; [|done]. simpl.
  destruct (option_rest _ _ _ _ He ltac:(lia) Es) as (Hl & -> & _).
  by rewrite Hrec by (done || by apply Forall_drop).
Qed.
End ext.

(** The recursion terminates: any fuel above the length gives the same result. *)
Lemma next_header_fuel fuel fuel' ft body p o :
  Forall is_u8 body → (length body < fuel)%nat → (length body < fuel')%nat →
  next_header_loop fuel ft body p o = next_header_loop fuel' ft body p o.
Proof.
  revert fuel' ft body p o. induction fuel as [|fuel IH]; intros [|fuel'] ft body p o Hb Hf Hf'; try lia.
  cbn [next_header_loop].
  assert (∀ ft b p o, Forall is_u8 b → (length b < length body)%nat →
    next_header_loop fuel ft b p o = next_header_loop fuel' ft b p o) as Hrec
    by (intros; apply IH; [done|lia|lia]).
  rewrite !(skip_v6_ext _ _ body Hb Hrec), (skip_ah_ext _ _ body Hb Hrec), (frag_ext _ _ body Hb Hrec). done.
Qed.

(** ** When the classifier panics *)

(** Bytes that the handler of a protocol reads before checking any length. *)
Definition needs (protocol : Z) : Z :=
  if protocol =? HOPOPT then 2
  else if protocol =? ICMP then 4
  else if protocol =? IPINIP then 0
  else if protocol =? TCP then 0
  else if protocol =? UDP then 0
  else if protocol =? IPV6_ROUTE then 2
  else if protocol =? IPV6_FRAG then 1
  else if protocol =? AH then 2
  else if protocol =? IPV6_ICMP then 4
  else if protocol =? IPV6_OPTS then 2
  else 0.

Lemma no_next_header_other x :
  x ∈ [HOPOPT; ICMP; IPINIP; TCP; UDP; IPV6_ROUTE; IPV6_FRAG; AH; IPV6_ICMP; IPV6_OPTS] →
  (NO_NEXT_HEADER =? x) = false.
Proof using NL.
  intros Hx. apply Z.eqb_neq. intros <-.
  pose proof (ip_numbers_distinct : NoDup ([HOPOPT; ICMP; IPINIP; TCP; UDP; IPV6_ROUTE; IPV6_FRAG; AH;
    IPV6_ICMP; IPV6_OPTS] ++ [NO_NEXT_HEADER])) as (_ & Hd & _)%list.NoDup_app.
  apply (Hd _ Hx). by left.
Qed.

Lemma needs_rest nh (rest : bytes) : nh = NO_NEXT_HEADER ∨ 8 <= zlen rest → needs nh <= zlen rest.
Proof using NL.
  pose proof (zlen_nonneg rest). unfold needs. intros [->|Hr].
  - rewrite !no_next_header_other by set_solver. done.
  - repeat case_match; lia.
Qed.

Lemma index_short body i : index body i = Panic ↔ i < 0 ∨ zlen body <= i.
Proof.
  split.
  - intros Hi. destruct (Z.lt_ge_cases i 0); [by left|]. destruct (Z.lt_ge_cases i (zlen body)); [|by right].
    destruct (index_in_range body i) as (x & Hx & _); [lia|congruence].
  - intros [Hi|Hi]; [|by apply index_out_of_range]. unfold index.
    destruct (body !! Z.to_nat i); [|done]. by destruct (Z.ltb_spec i 0); [|lia].
Qed.

Lemma prefix_panic {A} (c : packed A) body : prefix c body = Panic ↔ zlen body < Z.of_nat (size_of c).
Proof.
  unfold prefix. destruct (read_from_prefix c body) as [[? ?]|] eqn:E.
  - split; [done|]. intros Hl. assert (read_from_prefix c body = None) by (apply read_None; unfold zlen in Hl; lia).
    congruence.
  - split; [|done]. intros _. apply read_None in E. unfold zlen. lia.
Qed.

Section panics.
Context (rec : FiveTuple → bytes → Z → ClassifierOptions → outcome (FiveTuple * (ClassifierError + ClassifierResult))).
Context (body : bytes) (Hb : Forall is_u8 body).
Hypothesis Hrec : ∀ ft b p o, Forall is_u8 b → (length b < length body)%nat → needs p <= zlen b → rec ft b p o ≠ Panic.

Lemma rest_no_panic ft nh n o :
  is_option_length_error (zlen body) nh n = false → 0 < n →
  (rest ← suffix body n; rec ft rest nh o) ≠ Panic.
Proof using Hb Hrec NL.
  intros He Hn. assert (n <= zlen body) as Hle.
  { unfold is_option_length_error in He. apply orb_false_iff in He as [He _]. by apply Z.ltb_ge in He. }
  pose proof (suffix_in body n Hle) as Es. destruct (option_rest _ _ _ _ He Hn Es) as (Hl & _ & _ & Hr).
  rewrite Es. simpl. apply Hrec; [by apply Forall_drop|done|by apply needs_rest].
Qed.

Lemma skip_v6_panic ft o : skip_v6_option rec ft body o = Panic ↔ zlen body < 2.
Proof using Hb Hrec NL.
  unfold skip_v6_option. pose proof (index_short body 0) as H0. pose proof (index_short body 1) as H1.
  destruct (index body 0) as [nh|] eqn:E0; [|split; [intros _; destruct H0 as [H0 _]; specialize (H0 eq_refl); lia|done]].
  destruct (index body 1) as [b1|] eqn:E1; [|split; [intros _; destruct H1 as [H1 _]; specialize (H1 eq_refl); lia|done]].
  simpl. assert (¬ zlen body <= 1) as Hl by (intros ?; destruct H1 as [_ H1]; by specialize (H1 (or_intror H))).
  apply index_u8 in E1 as [??]; [|done]. destruct (is_option_length_error _ _ _) eqn:He; [split; [done|lia]|].
  split; [|lia]. intros Hp. by apply rest_no_panic in Hp; [| |lia].
Qed.

Lemma skip_ah_panic ft o : skip_auth_header rec ft body o = Panic ↔ zlen body < 2.
Proof using Hb Hrec NL.
  unfold skip_auth_header. pose proof (index_short body 0) as H0. pose proof (index_short body 1) as H1.
  destruct (index body 0) as [nh|] eqn:E0; [|split; [intros _; destruct H0 as [H0 _]; specialize (H0 eq_refl); lia|done]].
  destruct (index body 1) as [b1|] eqn:E1; [|split; [intros _; destruct H1 as [H1 _]; specialize (H1 eq_refl); lia|done]].
  simpl. assert (¬ zlen body <= 1) as Hl by (intros ?; destruct H1 as [_ H1]; by specialize (H1 (or_intror H))).
  apply index_u8 in E1 as [??]; [|done]. destruct (is_option_length_error _ _ _) eqn:He; [split; [done|lia]|].
  split; [|lia]. intros Hp. by apply rest_no_panic in Hp; [| |lia].
Qed.

Lemma frag_panic ft o : classify_frag rec ft body o = Panic ↔ zlen body < 1.
Proof using Hb Hrec NL.
  unfold classify_frag. pose proof (index_short body 0) as H0.
  destruct (index body 0) as [nh|] eqn:E0; [|split; [intros _; destruct H0 as [H0 _]; specialize (H0 eq_refl); lia|done]].
  simpl. assert (¬ zlen body <= 0) as Hl by (intros ?; destruct H0 as [_ H0]; by specialize (H0 (or_intror H))).
  destruct (is_option_length_error _ _ _) eqn:He; [split; [done|lia]|]. destruct (negb _); [split; [done|lia]|].
  split; [|lia]. pose proof (rest_no_panic ft nh 8 o He ltac:(lia)) as Hp.
  destruct (suffix body 8) as [rest|]; [|done]. simpl in *. by destruct (rec ft rest nh o).
Qed.
End panics.

Lemma next_header_panic fuel ft body p o :
  Forall is_u8 body → (length body < fuel)%nat →
  next_header_loop fuel ft body p o = Panic ↔ zlen body < needs p.
Proof using NL.
  revert ft body p o. induction fuel as [|fuel IH]; intros ft body p o Hb Hf; [lia|].
  assert (∀ ft b p o, Forall is_u8 b → (length b < length body)%nat → needs p <= zlen b →
    next_header_loop fuel ft b p o ≠ Panic) as Hrec.
  { intros ft' b p' o' Hb' Hl Hn Hp. apply IH in Hp; [lia|done|lia]. }
  cbn [next_header_loop]. unfold needs. pose proof (zlen_nonneg body).
  destruct (p =? HOPOPT); [by apply skip_v6_panic|].
  destruct (p =? ICMP).
  { unfold classify_icmp. pose proof (prefix_panic icmpHeader body) as Hi. change (Z.of_nat (size_of icmpHeader)) with 4 in Hi.
    destruct (prefix icmpHeader body); simpl; [split; [done|]; intros Hx; by apply Hi in Hx|tauto]. }
  destruct (p =? IPINIP); [split; [done|lia]|].
  destruct (p =? TCP).
  { split; [|lia]. unfold classify_tcp. destruct (Z.ltb_spec (zlen body) 20); [done|]. destruct (_ && _); [done|].
    pose proof (prefix_panic tcpHeader body) as Hi. change (Z.of_nat (size_of tcpHeader)) with 20 in Hi.
    destruct (prefix tcpHeader body); [done|]. intros _. destruct Hi as [Hi _]. specialize (Hi eq_refl). lia. }
  destruct (p =? UDP).
  { split; [|lia]. unfold classify_udp. destruct (Z.ltb_spec (zlen body) 8); [done|].
    pose proof (prefix_panic udpHeader body) as Hi. change (Z.of_nat (size_of udpHeader)) with 8 in Hi.
    destruct (prefix udpHeader body) as [u|]; simpl; [by destruct (_ && _)|].
    intros _. destruct Hi as [Hi _]. specialize (Hi eq_refl). lia. }
  destruct (p =? IPV6_ROUTE); [by apply skip_v6_panic|].
  destruct (p =? IPV6_FRAG); [by apply frag_panic|].
  destruct (p =? AH); [by apply skip_ah_panic|].
  destruct (p =? IPV6_ICMP).
  { unfold classify_icmpv6. pose proof (prefix_panic icmpv6Header body) as Hi. change (Z.of_nat (size_of icmpv6Header)) with 4 in Hi.
    destruct (prefix icmpv6Header body); simpl; [split; [done|]; intros Hx; by apply Hi in Hx|tauto]. }
  destruct (p =? IPV6_OPTS); [by apply skip_v6_panic|]. split; [done|lia].
Qed.

(** ** What a classification means *)

(** [skips p b p' b']: following option headers from a header of protocol [p] at
    [b] leads to one of protocol [p'] at [b']. *)
Inductive skips : Z → bytes → Z → bytes → Prop :=
| skips_here p b : skips p b p b
| skips_v6 p b nh n p' b' :
    p = HOPOPT ∨ p = IPV6_ROUTE ∨ p = IPV6_OPTS → index b 0 = Ret nh → index b 1 = Ret n →
    (n + 1) * 8 <= zlen b → skips nh (drop (Z.to_nat ((n + 1) * 8)) b) p' b' → skips p b p' b'
| skips_ah p b nh n p' b' :
    p = AH → index b 0 = Ret nh → index b 1 = Ret n →
    (n + 2) * 4 <= zlen b → skips nh (drop (Z.to_nat ((n + 2) * 4)) b) p' b' → skips p b p' b'.

Lemma skips_suffix p b p' b' : skips p b p' b' → ∃ n, b' = drop n b.
Proof.
  induction 1 as [p b|p b nh n p' b' _ _ _ _ _ [m ->]|p b nh n p' b' _ _ _ _ _ [m ->]];
    [by exists 0%nat|..]; rewrite drop_drop; eauto.
Qed.

Definition same_l3 ft ft' : Prop :=
  l3_type ft' = l3_type ft ∧ src_address ft' = src_address ft ∧ dst_address ft' = dst_address ft.

(** The checksum over the pseudo-header of the five-tuple and the segment. *)
Definition l4_valid ft seg : Prop := validate_inet_l4_checksum_with_5t ft seg = true.

(** The segment is a complete one of the protocol, with a valid checksum, and the
    five-tuple has its ports (type and code for ICMP). *)
Definition transport_ok ft seg : Prop :=
  let p := l4_protocol ft in
  (p = TCP ∧ ∃ h, prefix tcpHeader seg = Ret h ∧ src_port ft = tcp_src_port h ∧ dst_port ft = tcp_dst_port h ∧
     l4_valid ft seg ∧ 20 <= wrap8 (Z.shiftr (data_offset_and_reserved h) 4 * 4) <= zlen seg) ∨
  (p = UDP ∧ ∃ h, prefix udpHeader seg = Ret h ∧ src_port ft = udp_src_port h ∧ dst_port ft = udp_dst_port h ∧
     (udp_checksum h = [0; 0] ∨ l4_valid ft seg) ∧ udp_length h = zlen seg ∧ 8 <= zlen seg) ∨
  (p = ICMP ∧ ∃ h, prefix icmpHeader seg = Ret h ∧ src_port ft = icmp_type h ∧ dst_port ft = icmp_code h ∧
     ip4sum seg = 0) ∨
  (p = IPV6_ICMP ∧ ∃ h, prefix icmpv6Header seg = Ret h ∧ src_port ft = icmp6_type h ∧ dst_port ft = icmp6_code h ∧
     l4_valid ft seg).

(** What [OK] and [UnclassifiedL4] promise of the segment. *)
Definition meaning (r : ClassifierResult) ft seg : Prop :=
  match r with
  | OK => transport_ok ft seg
  | UnclassifiedL4 => l4_protocol ft ≠ TCP ∧ l4_protocol ft ≠ UDP ∧ src_port ft = 0 ∧ dst_port ft = 0
  | _ => True
  end.

Definition classified p body ft ft' r : Prop :=
  same_l3 ft ft' ∧ ∃ seg, skips p body (l4_protocol ft') seg ∧ meaning r ft' seg.

Lemma l4_valid_ports ft seg sp dp :
  l4_valid (set_dst_port (set_src_port ft sp) dp) seg ↔ l4_valid ft seg.
Proof. done. Qed.

Lemma classify_tcp_ok ft seg ft' :
  l4_protocol ft = TCP → classify_tcp ft seg options_default = Ret (ft', inr OK) →
  same_l3 ft ft' ∧ l4_protocol ft' = TCP ∧ transport_ok ft' seg.
Proof.
  intros Hp. unfold classify_tcp. destruct (Z.ltb_spec (zlen seg) 20); [done|]. simpl.
  destruct (validate_inet_l4_checksum_with_5t ft seg) eqn:Hv; [|done]. simpl.
  destruct (prefix tcpHeader seg) as [h|] eqn:Eh; [|done]. simpl.
  destruct (Z.ltb_spec (wrap8 (Z.shiftr (data_offset_and_reserved h) 4 * 4)) 20); [done|].
  destruct (Z.ltb_spec (zlen seg) (wrap8 (Z.shiftr (data_offset_and_reserved h) 4 * 4))); [done|].
  intros [= <-]. split; [done|]. split; [done|]. left. split; [done|]. exists h. split_and!; done.
Qed.

Lemma classify_udp_ok ft seg ft' :
  l4_protocol ft = UDP → classify_udp ft seg options_default = Ret (ft', inr OK) →
  same_l3 ft ft' ∧ l4_protocol ft' = UDP ∧ transport_ok ft' seg.
Proof.
  intros Hp. unfold classify_udp. destruct (Z.ltb_spec (zlen seg) 8); [done|].
  destruct (prefix udpHeader seg) as [h|] eqn:Eh; [|done]. simpl.
  destruct (_ && _) eqn:Hc; [done|]. simpl.
  destruct (Z.ltb_spec (zlen seg) (udp_length h)); [done|]. simpl.
  destruct (Z.ltb_spec (udp_length h) (zlen seg)); [done|].
  intros [= <-]. split; [done|]. split; [done|]. right; left. split; [done|]. exists h. split_and!; try done; [|lia].
  apply andb_false_iff in Hc as [Hc|Hc]; apply negb_false_iff in Hc; [left|right; done].
  by apply bool_decide_eq_true in Hc.
Qed.

Lemma classify_icmp_ok ft seg ft' :
  l4_protocol ft = ICMP → classify_icmp ft seg options_default = Ret (ft', inr OK) →
  same_l3 ft ft' ∧ l4_protocol ft' = ICMP ∧ transport_ok ft' seg.
Proof.
  intros Hp. unfold classify_icmp. destruct (prefix icmpHeader seg) as [h|] eqn:Eh; [|done]. simpl.
  destruct (Z.eqb_spec (ip4sum seg) 0); [|done]. intros [= <-].
  split; [done|]. split; [done|]. do 2 right; left. split; [done|]. exists h. split_and!; done.
Qed.

Lemma classify_icmpv6_ok ft seg ft' :
  l4_protocol ft = IPV6_ICMP → classify_icmpv6 ft seg options_default = Ret (ft', inr OK) →
  same_l3 ft ft' ∧ l4_protocol ft' = IPV6_ICMP ∧ transport_ok ft' seg.
Proof.
  intros Hp. unfold classify_icmpv6. destruct (prefix icmpv6Header seg) as [h|] eqn:Eh; [|done]. simpl.
  destruct (validate_inet_l4_checksum_with_5t _ seg) eqn:Hv; [|done]. intros [= <-].
  split; [done|]. split; [done|]. do 3 right. split; [done|]. exists h. split_and!; done.
Qed.

(** No transport handler returns [UnclassifiedL4]. *)
Lemma transport_not_unclassified ft seg ft' :
  classify_tcp ft seg options_default ≠ Ret (ft', inr UnclassifiedL4) ∧
  classify_udp ft seg options_default ≠ Ret (ft', inr UnclassifiedL4) ∧
  classify_icmp ft seg options_default ≠ Ret (ft', inr UnclassifiedL4) ∧
  classify_icmpv6 ft seg options_default ≠ Ret (ft', inr UnclassifiedL4).
Proof.
  unfold classify_tcp, classify_udp, classify_icmp, classify_icmpv6.
  split_and!; repeat (case_match || (intros; simplify_eq/=; try done; []) || destruct (prefix _ _); simpl in * ); congruence.
Qed.

Lemma same_l3_trans ft1 ft2 ft3 : same_l3 ft1 ft2 → same_l3 ft2 ft3 → same_l3 ft1 ft3.
Proof. unfold same_l3. naive_solver congruence. Qed.

Section meaning_steps.
Context (rec : FiveTuple → bytes → Z → ClassifierOptions → outcome (FiveTuple * (ClassifierError + ClassifierResult))).
Context (body : bytes) (Hb : Forall is_u8 body) (r : ClassifierResult).
Hypothesis Hrec : ∀ ft b p ft', Forall is_u8 b → (length b < length body)%nat →
  rec ft b p options_default = Ret (ft', inr r) → classified p b ft ft' r.

Lemma rest_classified ft nh n ft' :
  is_option_length_error (zlen body) nh n = false → 0 < n →
  (rest ← suffix body n; rec ft rest nh options_default) = Ret (ft', inr r) →
  n <= zlen body ∧ classified nh (drop (Z.to_nat n) body) ft ft' r.
Proof using Hb Hrec.
  intros He Hn (rest & Es & Hr)%outcome_bind_Ret.
  destruct (option_rest _ _ _ _ He Hn Es) as (Hl & -> & Hle & _).
  split; [done|]. apply Hrec; [by apply Forall_drop|done|done].
Qed.

Lemma skip_v6_classified ft p ft' :
  p = HOPOPT ∨ p = IPV6_ROUTE ∨ p = IPV6_OPTS →
  skip_v6_option rec ft body options_default = Ret (ft', inr r) → classified p body ft ft' r.
Proof using Hb Hrec.
  intros Hp (nh & E0 & (b1 & E1 & Hs)%outcome_bind_Ret)%outcome_bind_Ret.
  pose proof (index_u8 _ _ _ Hb E1) as [??]. revert Hs. simpl.
  destruct (is_option_length_error _ _ _) eqn:He; [done|].
  intros (Hle & Hl3 & seg & Hsk & Hm)%rest_classified; [|done|lia].
  split; [done|]. exists seg. split; [|done]. by eapply skips_v6.
Qed.

Lemma skip_ah_classified ft ft' :
  skip_auth_header rec ft body options_default = Ret (ft', inr r) → classified AH body ft ft' r.
Proof using Hb Hrec.
  intros (nh & E0 & (b1 & E1 & Hs)%outcome_bind_Ret)%outcome_bind_Ret.
  pose proof (index_u8 _ _ _ Hb E1) as [??]. revert Hs. simpl.
  destruct (is_option_length_error _ _ _) eqn:He; [done|].
  intros (Hle & Hl3 & seg & Hsk & Hm)%rest_classified; [|done|lia].
  split; [done|]. exists seg. split; [|done]. by eapply skips_ah.
Qed.
End meaning_steps.

Lemma classified_here ft ft' p body r :
  same_l3 ft ft' → l4_protocol ft' = p → meaning r ft' body → classified p body ft ft' r.
Proof. intros Hl <- Hm. split; [done|]. exists body. split; [constructor|done]. Qed.

(** A handler of a transport protocol, entered with the protocol set. *)
Lemma transport_classified ft p body ft' r
    (f : FiveTuple → bytes → ClassifierOptions → outcome (FiveTuple * (ClassifierError + ClassifierResult))) :
  r = OK ∨ r = UnclassifiedL4 →
  (∀ ft'', f (set_l4_protocol ft p) body options_default = Ret (ft'', inr OK) →
     same_l3 (set_l4_protocol ft p) ft'' ∧ l4_protocol ft'' = p ∧ transport_ok ft'' body) →
  (∀ ft'', f (set_l4_protocol ft p) body options_default ≠ Ret (ft'', inr UnclassifiedL4)) →
  f (set_l4_protocol ft p) body options_default = Ret (ft', inr r) → classified p body ft ft' r.
Proof.
  intros [->| ->] Hok Hno Hr; [|by apply Hno in Hr]. apply Hok in Hr as (Hl & Hp & Ht).
  by apply classified_here.
Qed.

Lemma unclassified_classified ft p body ft' r :
  p ≠ TCP → p ≠ UDP →
  classify_unclassified (set_l4_protocol ft p) = Ret (ft', inr r) → classified p body ft ft' r.
Proof. intros Ht Hu [= <- <-]. by apply classified_here. Qed.

Lemma next_classified fuel ft body p ft' r :
  Forall is_u8 body → r = OK ∨ r = UnclassifiedL4 →
  next_header_loop fuel ft body p options_default = Ret (ft', inr r) → classified p body ft ft' r.
Proof using NL.
  intros Hb Hr. revert ft body p ft' Hb. induction fuel as [|fuel IH]; intros ft body p ft' Hb; [done|].
  assert (∀ ft0 b p ft', Forall is_u8 b → (length b < length body)%nat →
    next_header_loop fuel ft0 b p options_default = Ret (ft', inr r) → classified p b ft0 ft' r) as Hrec by eauto.
  assert (∀ ft0 ft', classified p body (set_l4_protocol ft0 p) ft' r → classified p body ft0 ft' r) as Hset by done.
  pose proof (transport_not_unclassified (set_l4_protocol ft p) body) as Hno.
  assert (IPINIP ≠ TCP ∧ IPINIP ≠ UDP) as [Hi1 Hi2].
  { pose proof ip_numbers_distinct as (_ & (_ & (Hn & _)%list.NoDup_cons)%list.NoDup_cons)%list.NoDup_cons.
    apply not_elem_of_cons in Hn as [? Hn]. by apply not_elem_of_cons in Hn as [? _]. }
  cbn [next_header_loop].
  destruct (Z.eqb_spec p HOPOPT) as [->|_]; [intros H; eapply Hset, skip_v6_classified; eauto|].
  destruct (Z.eqb_spec p ICMP) as [->|_].
  { apply (transport_classified ft _ body ft' r classify_icmp Hr); [|by apply Hno].
    intros ft''. by apply classify_icmp_ok. }
  destruct (Z.eqb_spec p IPINIP) as [->|_]; [by apply unclassified_classified|].
  destruct (Z.eqb_spec p TCP) as [->|Ht].
  { apply (transport_classified ft _ body ft' r classify_tcp Hr); [|by apply Hno].
    intros ft''. by apply classify_tcp_ok. }
  destruct (Z.eqb_spec p UDP) as [->|Hu].
  { apply (transport_classified ft _ body ft' r classify_udp Hr); [|by apply Hno].
    intros ft''. by apply classify_udp_ok. }
  destruct (Z.eqb_spec p IPV6_ROUTE) as [->|_]; [intros H; eapply Hset, skip_v6_classified; eauto|].
  destruct (Z.eqb_spec p IPV6_FRAG) as [->|_].
  { unfold classify_frag. intros (nh & _ & Hs)%outcome_bind_Ret. revert Hs. simpl.
    destruct (is_option_length_error _ _ _); [done|]. destruct (negb _); [by intros [= _ <-]; destruct Hr|].
    intros (rest & _ & (x & _ & [= _ <-])%outcome_bind_Ret)%outcome_bind_Ret. by destruct Hr. }
  destruct (Z.eqb_spec p AH) as [->|_]; [intros H; eapply Hset, skip_ah_classified; eauto|].
  destruct (Z.eqb_spec p IPV6_ICMP) as [->|_].
  { apply (transport_classified ft _ body ft' r classify_icmpv6 Hr); [|by apply Hno].
    intros ft''. by apply classify_icmpv6_ok. }
  destruct (Z.eqb_spec p IPV6_OPTS) as [->|_]; [intros H; eapply Hset, skip_v6_classified; eauto|].
  by apply unclassified_classified.
Qed.

(** An IPv4 header the classifier accepts for the whole packet. *)
Definition ipv4_accepts (body : bytes) ft (h : IPv4Header) (hl : Z) : Prop :=
  prefix ipv4Header body = Ret h ∧ hl = Z.land (vhl h) IPV4_HEADER_LENGTH_MASK * 4 ∧ 20 <= hl <= zlen body ∧
  ip4sum (take (Z.to_nat hl) body) = 0 ∧ total_length h = zlen body ∧
  Z.land (frag_offset h) 0x1FFF = 0 ∧ Z.land (frag_offset h) 0x2000 = 0 ∧
  l3_type ft = L3_Ipv4 ∧ src_address ft = new_from_v4 (ip4_src_address h) ∧
  dst_address ft = new_from_v4 (ip4_dst_address h).

Definition ipv6_accepts (body : bytes) ft (h : IPv6Header) : Prop :=
  prefix ipv6Header body = Ret h ∧ 40 <= zlen body ∧ payload_length h = zlen body - 40 ∧
  is_v4 (ip6_src_address h) = false ∧ is_v4 (ip6_dst_address h) = false ∧
  l3_type ft = L3_Ipv6 ∧ src_address ft = ip6_src_address h ∧ dst_address ft = ip6_dst_address h.

Lemma classify_ipv4_meaning ft body ft' r :
  Forall is_u8 body → r = OK ∨ r = UnclassifiedL4 →
  classify_ipv4 ft body options_default = Ret (ft', inr r) →
  ∃ h hl seg, ipv4_accepts body ft' h hl ∧
    skips (proto h) (drop (Z.to_nat hl) body) (l4_protocol ft') seg ∧ meaning r ft' seg.
Proof using NL.
  intros Hb Hr. unfold classify_ipv4. destruct (Z.ltb_spec (zlen body) 20); [done|].
  intros (h & Eh & Hs)%outcome_bind_Ret. revert Hs. simpl. set (hl := Z.land (vhl h) IPV4_HEADER_LENGTH_MASK * 4).
  destruct (Z.ltb_spec hl 20); [done|]. destruct (Z.ltb_spec (zlen body) hl); [done|].
  destruct (Z.eqb_spec (ip4sum (take (Z.to_nat hl) body)) 0); [|done]. simpl.
  destruct (Z.eqb_spec (Z.land (frag_offset h) 0x1FFF) 0) as [Hfo|_]; simpl; [|by intros [= _ <-]; destruct Hr].
  destruct (Z.ltb_spec (zlen body) (total_length h)); [done|].
  destruct (Z.ltb_spec (total_length h) (zlen body)); [done|]. simpl. rewrite suffix_in by lia. simpl.
  intros ([ft1 r1] & Hn & Hs)%outcome_bind_Ret. revert Hs. simpl.
  destruct (Z.eqb_spec (Z.land (frag_offset h) 0x2000) 0) as [Hmf|_]; simpl; [|by intros [= _ <-]; destruct Hr].
  intros [= -> ->]. apply next_classified in Hn as ((Hl3 & Hsrc & Hdst) & seg & Hsk & Hm); [|by apply Forall_drop|done].
  exists h, hl, seg. split; [|done]. split_and!; try done; lia.
Qed.

Lemma classify_ipv6_meaning ft body ft' r :
  Forall is_u8 body → r = OK ∨ r = UnclassifiedL4 →
  classify_ipv6 ft body options_default = Ret (ft', inr r) →
  ∃ h seg, ipv6_accepts body ft' h ∧
    skips (next_header h) (drop 40 body) (l4_protocol ft') seg ∧ meaning r ft' seg.
Proof using NL.
  intros Hb Hr. unfold classify_ipv6. destruct (Z.ltb_spec (zlen body) 40); [done|].
  intros (h & Eh & Hs)%outcome_bind_Ret. revert Hs. simpl.
  destruct (is_v4 (ip6_src_address h)) eqn:E1; [done|]. destruct (is_v4 (ip6_dst_address h)) eqn:E2; [done|]. simpl.
  destruct ((payload_length h =? 0) && (next_header h =? 0)); [done|].
  destruct (Z.ltb_spec (zlen body - 40) (payload_length h)); [done|].
  destruct (Z.ltb_spec (payload_length h) (zlen body - 40)); [done|]. simpl. rewrite suffix_in by lia. simpl.
  intros Hn. apply next_classified in Hn as ((Hl3 & Hsrc & Hdst) & seg & Hsk & Hm); [|by apply Forall_drop|done].
  exists h, seg. split; [|done]. split_and!; try done; lia.
Qed.

(** A segment found in a payload is no longer than it. *)
Lemma skips_zlen p b p' b' : skips p b p' b' → zlen b' <= zlen b.
Proof. intros [n ->]%skips_suffix. unfold zlen. rewrite length_drop. lia. Qed.

Lemma meaning_lengths r ft seg :
  r = OK ∨ r = UnclassifiedL4 → meaning r ft seg →
  (l4_protocol ft = TCP → 20 <= zlen seg) ∧ (l4_protocol ft = UDP → 8 <= zlen seg).
Proof using NL.
  assert (NoDup [TCP; UDP; IPV6_ICMP] ∧ NoDup [ICMP; TCP; UDP]) as [Hn1 Hn2].
  { pose proof ip_numbers_distinct as Hd. split.
    - eapply sublist_NoDup; [exact Hd|]. repeat constructor.
    - eapply sublist_NoDup; [exact Hd|]. repeat constructor. }
  assert (TCP ≠ UDP ∧ TCP ≠ IPV6_ICMP ∧ UDP ≠ IPV6_ICMP ∧ ICMP ≠ TCP ∧ ICMP ≠ UDP) as (? & ? & ? & ? & ?).
  { rewrite !list.NoDup_cons, !not_elem_of_cons in Hn1, Hn2. tauto. }
  intros [->| ->]; simpl; [|intros (? & ? & _); split; intros; congruence].
  intros [(Hp & h & ? & ? & ? & ? & ?)|[(Hp & h & ? & ? & ? & ? & ? & ?)|[(Hp & _)|(Hp & _)]]];
    split; intros; try congruence; lia.
Qed.
End classifier_lemmas.

(** ** Properties *)

(** C31: what a successful classification means, whatever the bytes: the IP
    header is complete, is of the packet's exact length, has a valid checksum
    (IPv4) and no mapped addresses (IPv6), the packet is not a fragment, the
    transport header is reached by skipping exactly the option headers, is
    complete and has a valid checksum, and the five-tuple holds the packet's
    addresses, protocol and ports. *)
Theorem classify_sound {ND : NetDefs} {NL : NetDefsLaws} (ft ft' : FiveTuple) (body : bytes) (r : ClassifierResult) :
  Forall is_u8 body → r = OK ∨ r = UnclassifiedL4 → classify ft body = Ret (ft', inr r) →
  (∃ h hl seg, ipv4_accepts body ft' h hl ∧
     skips (proto h) (drop (Z.to_nat hl) body) (l4_protocol ft') seg ∧ meaning r ft' seg) ∨
  (∃ h seg, ipv6_accepts body ft' h ∧
     skips (next_header h) (drop 40 body) (l4_protocol ft') seg ∧ meaning r ft' seg).
Proof.
  intros Hb Hr. unfold classify, classify_with_options, classify_zdp, classify_l3.
  destruct body as [|x body]; [done|]. intros (v & _ & Hs)%outcome_bind_Ret. revert Hs. simpl.
  destruct (v =? 4); [left; by eapply classify_ipv4_meaning|].
  destruct (v =? 6); [right; by eapply classify_ipv6_meaning|]. by intros [= _ <-]; destruct Hr.
Qed.

(** A UDP packet of the sample flow. *)
Definition sample_packet : bytes := as_bytes ipv4Header sample_hdr ++ sample_seg.

Lemma classify_sound_witness :
  (∃ h hl seg, ipv4_accepts sample_packet sample_flow h hl ∧
     skips (proto h) (drop (Z.to_nat hl) sample_packet) 17 seg ∧ meaning OK sample_flow seg) ∨
  (∃ h seg, ipv6_accepts sample_packet sample_flow h ∧
     skips (next_header h) (drop 40 sample_packet) 17 seg ∧ meaning OK sample_flow seg).
Proof.
  apply (classify_sound five_tuple_default sample_flow sample_packet OK).
  - vm_compute. repeat constructor; discriminate.
  - by left.
  - vm_cast_no_check (@eq_refl (outcome (FiveTuple * (ClassifierError + ClassifierResult))) (Ret (sample_flow, inr OK))).
Defined.

(** classifying and then compressing, as the actor's output path does,
    never panics: whenever the classifier accepts a packet, compression by the
    five-tuple it found succeeds, in any buffer and mode. *)
Theorem classified_packets_compress {ND : NetDefs} {NL : NetDefsLaws} (M mode : Z) (ft ft' : FiveTuple)
    (body h t : bytes) (md : PacketMetadata) (r : ClassifierResult) :
  Forall is_u8 body → r = OK ∨ r = UnclassifiedL4 → classify ft body = Ret (ft', inr r) →
  ∃ q, compress M mode (l3_type ft') (l4_protocol ft') (of_view M md h body t) = Ret q.
Proof.
  intros Hb Hr. unfold classify, classify_with_options, classify_zdp, classify_l3.
  destruct body as [|x body]; [done|]. intros (v & _ & Hs)%outcome_bind_Ret. revert Hs. simpl.
  destruct (v =? 4); [|destruct (v =? 6); [|by intros [= _ <-]; destruct Hr]].
  - intros (hd & hl & seg & (_ & _ & Hhl & _ & _ & _ & _ & Hl3 & _) & Hsk & Hm)%classify_ipv4_meaning; [|done|done].
    destruct (meaning_lengths _ _ _ Hr Hm) as [Ht Hu]. apply skips_zlen in Hsk. rewrite zlen_drop in Hsk by lia.
    apply (compress_total M md h t mode _ _ _ 20); [done|by left|lia|intros; specialize (Ht H); lia|
      intros; specialize (Hu H); lia].
  - intros (hd & seg & (_ & Hlen & _ & _ & _ & Hl3 & _) & Hsk & Hm)%classify_ipv6_meaning; [|done|done].
    destruct (meaning_lengths _ _ _ Hr Hm) as [Ht Hu]. apply skips_zlen in Hsk.
    rewrite (zlen_drop 40) in Hsk by lia.
    apply (compress_total M md h t mode _ _ _ 40); [done|by right|lia|intros; specialize (Ht H); lia|
      intros; specialize (Hu H); lia].
Qed.

Lemma classified_packets_compress_witness :
  ∃ q, compress 96 3 4 17 (of_view 96 sample_metadata [] sample_packet []) = Ret q.
Proof.
  apply (classified_packets_compress 96 3 five_tuple_default sample_flow sample_packet [] [] sample_metadata OK).
  - vm_compute. repeat constructor; discriminate.
  - by left.
  - vm_cast_no_check (@eq_refl (outcome (FiveTuple * (ClassifierError + ClassifierResult))) (Ret (sample_flow, inr OK))).
Defined.

(** the only packets that panic the classifier are those whose IP payload
    is shorter than the few bytes the handler of its protocol reads unchecked
    (an ICMP type and code, an option's next header and length).  Such packets
    exist: the witness is an IPv4 ICMP packet with no body. *)
Theorem classify_panics_only_short {ND : NetDefs} {NL : NetDefsLaws} (ft : FiveTuple) (body : bytes)
    (o : ClassifierOptions) :
  Forall is_u8 body → classify_with_options ft body o = Panic →
  (∃ h, prefix ipv4Header body = Ret h ∧
     zlen body - Z.land (vhl h) IPV4_HEADER_LENGTH_MASK * 4 < needs (proto h)) ∨
  (∃ h, prefix ipv6Header body = Ret h ∧ zlen body - 40 < needs (next_header h)).
Proof.
  intros Hb. unfold classify_with_options, classify_zdp, classify_l3.
  destruct body as [|x body]; [done|]. set (l := x :: body) in *.
  assert (∃ v, get_ip_version l = Ret v) as [v ->] by (eexists; reflexivity). simpl.
  destruct (v =? 4); [|destruct (v =? 6); [|done]]; intros Hp; [left|right]; revert Hp.
  - unfold classify_ipv4. destruct (Z.ltb_spec (zlen l) 20) as [|H20]; [done|].
    destruct (prefix ipv4Header l) as [h|] eqn:Eh; [|apply prefix_panic in Eh;
      change (Z.of_nat (size_of ipv4Header)) with 20 in Eh; lia]. simpl.
    set (hl := Z.land (vhl h) IPV4_HEADER_LENGTH_MASK * 4).
    destruct (Z.ltb_spec hl 20); [done|]. destruct (check_sums o && (zlen l <? hl)); [done|].
    destruct (check_sums o && _); [done|]. destruct (negb (Z.land (frag_offset h) _ =? 0)); [done|].
    destruct (Z.ltb_spec (zlen l) hl); [by rewrite orb_true_r|].
    rewrite orb_false_r. destruct (_ && (zlen l <? total_length h) || _); [done|]. rewrite suffix_in by lia. simpl.
    destruct (classify_next_header _ _ _ _) as [r|] eqn:En; simpl; [by destruct (negb _)|]. intros _.
    exists h. split; [done|]. apply next_header_panic in En; [|by apply Forall_drop|lia].
    by rewrite zlen_drop in En by lia.
  - unfold classify_ipv6. destruct (Z.ltb_spec (zlen l) 40) as [|H40]; [done|].
    destruct (prefix ipv6Header l) as [h|] eqn:Eh; [|apply prefix_panic in Eh;
      change (Z.of_nat (size_of ipv6Header)) with 40 in Eh; lia]. simpl.
    destruct (is_v4 _ || _); [done|]. destruct ((payload_length h =? 0) && _); [done|].
    destruct (_ && _ || (payload_length h <? _)); [done|].
    rewrite suffix_in by lia. cbn [mbind outcome_bind]. intros En.
    exists h. split; [done|]. apply next_header_panic in En; [|by apply Forall_drop|lia].
    by rewrite zlen_drop in En by lia.
Qed.

(** An IPv4 header for an ICMP packet of 20 bytes: no ICMP header follows. *)
Definition icmp_hdr0 : IPv4Header :=
  mk_IPv4Header 0x45 0 20 [0; 0] 0 64 1 [0; 0] [10; 0; 0; 1] [10; 0; 0; 2].
Definition empty_icmp : bytes :=
  as_bytes ipv4Header (mk_IPv4Header 0x45 0 20 [0; 0] 0 64 1
    (be_put 2 (ip4sum (as_bytes ipv4Header icmp_hdr0))) [10; 0; 0; 1] [10; 0; 0; 2]).

Lemma classify_panics_only_short_witness :
  (∃ h, prefix ipv4Header empty_icmp = Ret h ∧
     zlen empty_icmp - Z.land (vhl h) IPV4_HEADER_LENGTH_MASK * 4 < needs (proto h)) ∨
  (∃ h, prefix ipv6Header empty_icmp = Ret h ∧ zlen empty_icmp - 40 < needs (next_header h)).
Proof.
  apply (classify_panics_only_short five_tuple_default empty_icmp options_default).
  - vm_compute. repeat constructor; discriminate.
  - vm_cast_no_check (@eq_refl (outcome (FiveTuple * (ClassifierError + ClassifierResult))) Panic).
Defined.

(** ** Packets with options *)

(** The flow's packet with four bytes of IPv4 options (no-operation, end of
    options) before the UDP header. *)
Definition options_hdr (ck : bytes) : IPv4Header :=
  mk_IPv4Header 0x46 0 35 [18; 52] 0x4000 64 17 ck [10; 0; 0; 1] [10; 0; 0; 2].
Definition ip_options : bytes := [1; 1; 1; 0].
Definition options_packet : bytes :=
  as_bytes ipv4Header (options_hdr (be_put 2 (ip4sum (as_bytes ipv4Header (options_hdr [0; 0]) ++ ip_options))))
  ++ ip_options ++ sample_seg.

(** The same UDP segment over IPv6, after a hop-by-hop options header. *)
Definition ext_flow : FiveTuple :=
  mk_five_tuple (32 :: replicate 14 0 ++ [1]) (32 :: replicate 14 0 ++ [2]) 6 17 1000 53.
Definition hop_by_hop : bytes := [17; 0; 1; 4; 0; 0; 0; 0].
Definition ext_packet : bytes :=
  as_bytes ipv6Header (mk_IPv6Header 0x60 0 [0; 0] 19 0 64 (src_address ext_flow) (dst_address ext_flow))
  ++ hop_by_hop ++ sample_seg.

(** The body after compressing and expanding in a buffer with headroom 64. *)
Definition through_tunnel (mode : Z) (ft : FiveTuple) (b : bytes) : outcome bytes :=
  q ← compress 96 mode (l3_type ft) (l4_protocol ft) (of_view 96 sample_metadata (replicate 64 0) b []);
  q ← expand 96 mode ft q;
  Ret (PacketBuf.body 96 q).

Definition five_fields (r : outcome (FiveTuple * (ClassifierError + ClassifierResult))) :=
  match r with
  | Ret (ft, r) => Some (src_address ft, dst_address ft, (l3_type ft, l4_protocol ft, src_port ft, dst_port ft), r)
  | Panic => None
  end.

(** packets with IPv4 options or IPv6 extension headers do not survive the
    tunnel: the classifier accepts them and gives them their flow's
    five-tuple, but compression takes the bytes after the fixed IP header for
    the transport header, and expansion returns a different packet (options
    overwritten, or the option header left where UDP is announced). *)
Theorem options_not_restored :
  five_fields (classify five_tuple_default options_packet)
    = Some (src_address sample_flow, dst_address sample_flow, (4, 17, 1000, 53), inr OK) ∧
  (∃ q, through_tunnel 3 sample_flow options_packet = Ret q ∧ q ≠ options_packet) ∧
  five_fields (classify five_tuple_default ext_packet)
    = Some (src_address ext_flow, dst_address ext_flow, (6, 17, 1000, 53), inr OK) ∧
  (∃ q, through_tunnel 3 ext_flow ext_packet = Ret q ∧ q ≠ ext_packet).
Proof.
  split_and!; [vm_compute; reflexivity| |vm_compute; reflexivity|].
  - destruct (through_tunnel 3 sample_flow options_packet) as [q|] eqn:E; vm_compute in E; [|done].
    exists q. split; [done|]. injection E as <-. intros Hq. vm_compute in Hq. discriminate.
  - destruct (through_tunnel 3 ext_flow ext_packet) as [q|] eqn:E; vm_compute in E; [|done].
    exists q. split; [done|]. injection E as <-. intros Hq. vm_compute in Hq. discriminate.
Qed.
