(* ===== verification/Tc.v ===== *)
(** Traffic classifiers, [src/adapter/ph/src/tc.rs]: a five-tuple whose zero
    ports are wildcards, its wire form, and matching. *)
From S2P Require Import Prelude Zdp NetDefs IpHeaders PacketBuf Compress Classifier.

Section tc.
Context {ND : NetDefs}.

Record Ip5TupleTc : Type := mk_tc { tc_five_tuple : FiveTuple }.

Definition compression_mode (tc : Ip5TupleTc) : Z :=
  let mode := 0 in
  let mode := if negb (src_port (tc_five_tuple tc) =? 0) then Z.lor mode cm_SOURCE_PORT_PRESENT else mode in
  if negb (dst_port (tc_five_tuple tc) =? 0) then Z.lor mode cm_DESTINATION_PORT_PRESENT else mode.

(** The bytes appended to the buffer. *)
Definition serialize (tc : Ip5TupleTc) : outcome bytes :=
  let ft := tc_five_tuple tc in
  flags ← (if l3_type ft =? L3_Ipv4 then Ret IPV4 else if l3_type ft =? L3_Ipv6 then Ret 0 else Panic);
  let flags := if negb (src_port ft =? 0) then Z.lor flags SOURCE_PORT_PRESENT else flags in
  let flags := if negb (dst_port ft =? 0) then Z.lor flags DESTINATION_PORT_PRESENT else flags in
  addrs ← (if l3_type ft =? L3_Ipv4 then Ret (read_as_v4 (src_address ft) ++ read_as_v4 (dst_address ft))
           else if l3_type ft =? L3_Ipv6 then Ret (v6 (src_address ft) ++ v6 (dst_address ft))
           else Panic);
  Ret (as_bytes zdpTrafficClassifierHeader (mk_ZdpTrafficClassifierHeader flags (l4_protocol ft))
       ++ addrs
       ++ (if negb (src_port ft =? 0) then be_put 2 (src_port ft) else [])
       ++ (if negb (dst_port ft =? 0) then be_put 2 (dst_port ft) else [])).

(** [buf_get_ipv4], [buf_get_ipv6]: [copy_to_bytes] panics when too short. *)
Definition buf_get_ipv4 (buf : bytes) : outcome (IpAddress * bytes) :=
  if (length buf <? 4)%nat then Panic else Ret (from_array4 (take 4 buf), drop 4 buf).
Definition buf_get_ipv6 (buf : bytes) : outcome (IpAddress * bytes) :=
  if (length buf <? 16)%nat then Panic else Ret (from_v6 (take 16 buf), drop 16 buf).

Definition try_get_u16 (buf : bytes) : option (Z * bytes) :=
  if (length buf <? 2)%nat then None else Some (be_get (take 2 buf), drop 2 buf).

(** A port, when its flag is set. *)
Definition get_port (flags flag : Z) (buf : bytes) : option (Z * bytes) :=
  if negb (Z.land flags flag =? 0) then try_get_u16 buf else Some (0, buf).

Definition deserialize (buf : bytes) : outcome (option (Ip5TupleTc * bytes)) :=
  match read_from_prefix zdpTrafficClassifierHeader buf with
  | None => Ret None
  | Some (hdr, buf) =>
      let v4 := negb (Z.land (tc_flags hdr) IPV4 =? 0) in
      if (length buf <? (if v4 then 2 * 4 else 2 * 16))%nat then Ret None
      else
        r ← (if v4 then buf_get_ipv4 buf else buf_get_ipv6 buf);
        let '(src, buf) := r in
        r ← (if v4 then buf_get_ipv4 buf else buf_get_ipv6 buf);
        let '(dst, buf) := r in
        Ret (match get_port (tc_flags hdr) SOURCE_PORT_PRESENT buf with
             | None => None
             | Some (sport, buf) =>
                 match get_port (tc_flags hdr) DESTINATION_PORT_PRESENT buf with
                 | None => None
                 | Some (dport, buf) =>
                     Some (mk_tc (mk_five_tuple src dst (if v4 then L3_Ipv4 else L3_Ipv6)
                                    (ip_protocol hdr) sport dport), buf)
                 end
             end)
  end.

Definition classify_5t (tc : Ip5TupleTc) (ft : FiveTuple) : bool :=
  let t := tc_five_tuple tc in
  if negb (l3_type ft =? l3_type t) then false
  else if negb (bool_decide (src_address ft = src_address t)) || negb (bool_decide (dst_address ft = dst_address t))
  then false
  else if negb (l4_protocol ft =? l4_protocol t) then false
  else if negb (src_port t =? 0) && negb (src_port ft =? src_port t) then false
  else if negb (dst_port t =? 0) && negb (dst_port ft =? dst_port t) then false
  else true.

Definition classify_packet (tc : Ip5TupleTc) (l3 : Z) (body : bytes) : outcome bool :=
  r ← classify five_tuple_default body;
  Ret (match r.2 with
       | inr OK | inr UnclassifiedL4 =>
           if negb (l3_type r.1 =? l3) then false else classify_5t tc r.1
       | _ => false
       end).
End tc.

(** ** Properties *)

Section tc_lemmas.
Context {ND : NetDefs} {NL : NetDefsLaws}.

(** Classifiers as the visa service and the bind protocol build them. *)
Definition tc_wf (tc : Ip5TupleTc) : Prop :=
  let ft := tc_five_tuple tc in
  ip_wf (src_address ft) ∧ ip_wf (dst_address ft) ∧ is_u8 (l4_protocol ft) ∧
  is_u16 (src_port ft) ∧ is_u16 (dst_port ft) ∧
  ((l3_type ft = L3_Ipv4 ∧ is_v4 (src_address ft) = true ∧ is_v4 (dst_address ft) = true) ∨ l3_type ft = L3_Ipv6).

(** The flag byte gives its three bits back. *)
Lemma flags_parts (four s d : bool) :
  let f := if four then IPV4 else 0 in
  let f := if s then Z.lor f SOURCE_PORT_PRESENT else f in
  let f := if d then Z.lor f DESTINATION_PORT_PRESENT else f in
  is_u8 f ∧ negb (Z.land f IPV4 =? 0) = four ∧ negb (Z.land f SOURCE_PORT_PRESENT =? 0) = s ∧
  negb (Z.land f DESTINATION_PORT_PRESENT =? 0) = d.
Proof. destruct four, s, d; vm_compute; repeat split; done. Qed.

Lemma try_get_u16_put v rest : is_u16 v → try_get_u16 (be_put 2 v ++ rest) = Some (v, rest).
Proof.
  intros Hv. unfold try_get_u16. rewrite length_app, be_put_length.
  rewrite take_app_length', drop_app_length' by (by rewrite be_put_length).
  by rewrite be_get_put by (unfold is_u16 in Hv; simpl; lia).
Qed.

Lemma get_port_put (p : bool) f flag v rest :
  is_u16 v → negb (v =? 0) = p → negb (Z.land f flag =? 0) = p →
  get_port f flag ((if p then be_put 2 v else []) ++ rest) = Some (v, rest).
Proof.
  intros Hv Hp Hf. unfold get_port. rewrite Hf. destruct p; [by apply try_get_u16_put|].
  simpl. apply negb_false_iff, Z.eqb_eq in Hp. by rewrite Hp.
Qed.

Lemma buf_get_ipv4_put a rest : ip_wf a → is_v4 a = true → buf_get_ipv4 (read_as_v4 a ++ rest) = Ret (a, rest).
Proof using NL.
  intros Ha Hv. pose proof (read_as_v4_length a Ha) as Hl. unfold buf_get_ipv4.
  rewrite length_app, Hl, take_app_length', drop_app_length' by done. simpl. by rewrite from_array4_read.
Qed.

Lemma buf_get_ipv6_put a rest : ip_wf a → buf_get_ipv6 (v6 a ++ rest) = Ret (a, rest).
Proof using NL.
  intros Ha. pose proof (v6_length a Ha) as Hl. unfold buf_get_ipv6.
  rewrite length_app, Hl, take_app_length', drop_app_length' by done. simpl. by rewrite from_v6_v6.
Qed.
End tc_lemmas.

(** The bytes of a classifier: two of header, two addresses, two ports. *)
Ltac tc_size :=
  unfold zlen; rewrite !length_app, ?read_as_v4_length, ?v6_length by done;
  repeat (case_match; rewrite ?be_put_length); simpl; lia.

Lemma tc_wire {ND : NetDefs} {NL : NetDefsLaws} (tc : Ip5TupleTc) (rest : bytes) :
  tc_wf tc → ∃ l, serialize tc = Ret l ∧ zlen l <= 38 ∧ deserialize (l ++ rest) = Ret (Some (tc, rest)).
Proof.
  destruct tc as [[src dst l3 l4 sp dp]]. intros (Hs & Hd & Hl4 & Hsp & Hdp & Hl3). simpl in *.
  unfold serialize, deserialize. cbn [tc_five_tuple l3_type src_port dst_port l4_protocol src_address dst_address].
  destruct (Z.eqb_spec l3 L3_Ipv4) as [->|Hne].
  - destruct Hl3 as [(_ & Hv1 & Hv2)|H6]; [|by destruct L3_distinct].
    cbn [mbind outcome_bind]. eexists. split; [done|]. split; [tc_size|]. rewrite <- !app_assoc.
    destruct (flags_parts true (negb (sp =? 0)) (negb (dp =? 0))) as (Hf & Hf4 & Hfs & Hfd).
    rewrite read_as_bytes by (apply _ || (unfold is_u8 in *; simpl in *; lia)). cbn [tc_flags ip_protocol].
    rewrite Hf4. rewrite !length_app, !read_as_v4_length by done. simpl Nat.ltb. cbv iota.
    rewrite buf_get_ipv4_put by done. cbn [mbind outcome_bind].
    rewrite buf_get_ipv4_put by done. cbn [mbind outcome_bind].
    rewrite (get_port_put (negb (sp =? 0))) by done. by rewrite (get_port_put (negb (dp =? 0))) by done.
  - destruct Hl3 as [(? & _)|Hl6]; [done|]. rewrite Hl6, Z.eqb_refl.
    cbn [mbind outcome_bind]. eexists. split; [done|]. split; [tc_size|]. rewrite <- !app_assoc.
    destruct (flags_parts false (negb (sp =? 0)) (negb (dp =? 0))) as (Hf & Hf4 & Hfs & Hfd).
    rewrite read_as_bytes by (apply _ || (unfold is_u8 in *; simpl in *; lia)). cbn [tc_flags ip_protocol].
    rewrite Hf4. rewrite !length_app, !v6_length by done. simpl Nat.ltb. cbv iota.
    rewrite buf_get_ipv6_put by done. cbn [mbind outcome_bind].
    rewrite buf_get_ipv6_put by done. cbn [mbind outcome_bind].
    rewrite (get_port_put (negb (sp =? 0))) by done. by rewrite (get_port_put (negb (dp =? 0))) by done.
Qed.

(** Traffic classifiers survive the wire: serializing a well-formed IPv4 or
    IPv6 classifier, with or without wildcard ports, does not panic, and
    deserializing the bytes gives the classifier back and leaves what
    follows. *)
Theorem tc_roundtrip {ND : NetDefs} {NL : NetDefsLaws} (tc : Ip5TupleTc) (rest : bytes) :
  tc_wf tc → ∃ l, serialize tc = Ret l ∧ deserialize (l ++ rest) = Ret (Some (tc, rest)).
Proof. intros Htc. destruct (tc_wire tc rest Htc) as (l & ? & _ & ?). by exists l. Qed.

Definition sample_tc : Ip5TupleTc := mk_tc (set_src_port sample_flow 0).

Lemma tc_roundtrip_witness :
  ∃ l, serialize sample_tc = Ret l ∧ deserialize (l ++ [7]) = Ret (Some (sample_tc, [7])).
Proof.
  apply tc_roundtrip. unfold tc_wf, is_u8, is_u16. simpl.
  split; [split; [done|repeat (constructor; [unfold is_u8; lia|]); constructor]|].
  split; [split; [done|repeat (constructor; [unfold is_u8; lia|]); constructor]|].
  split_and!; lia.
Defined.

(** matching and compressing agree: when a packet's five-tuple matches a
    classifier, the fields that the classifier's compression mode removes from
    the packet, addresses, protocol and non-wildcard ports, are exactly the
    classifier's, so the far end rebuilds them from the classifier alone. *)
Theorem tc_match_determines_removed_fields {ND : NetDefs} {NL : NetDefsLaws} (tc : Ip5TupleTc) (ft : FiveTuple) :
  classify_5t tc ft = true →
  l3_type ft = l3_type (tc_five_tuple tc) ∧ l4_protocol ft = l4_protocol (tc_five_tuple tc) ∧
  src_address ft = src_address (tc_five_tuple tc) ∧ dst_address ft = dst_address (tc_five_tuple tc) ∧
  (Z.land (compression_mode tc) cm_SOURCE_PORT_PRESENT ≠ 0 → src_port ft = src_port (tc_five_tuple tc)) ∧
  (Z.land (compression_mode tc) cm_DESTINATION_PORT_PRESENT ≠ 0 → dst_port ft = dst_port (tc_five_tuple tc)).
Proof.
  destruct tc as [t]. unfold classify_5t, compression_mode. simpl. pose proof cm_flags_disjoint as Hdis.
  destruct (Z.eqb_spec (l3_type ft) (l3_type t)); [|done]. simpl.
  case_bool_decide; [|done]. case_bool_decide; [|done]. simpl.
  destruct (Z.eqb_spec (l4_protocol ft) (l4_protocol t)); [|done]. simpl.
  destruct (Z.eqb_spec (src_port t) 0), (Z.eqb_spec (src_port ft) (src_port t)),
    (Z.eqb_spec (dst_port t) 0), (Z.eqb_spec (dst_port ft) (dst_port t)); simpl; try done;
    intros _; split_and!; try done; rewrite ?Z.land_0_l, ?Z.lor_0_l; try done;
    rewrite 1?Z.land_comm, ?Hdis; try done; by rewrite Z.land_comm, Hdis.
Qed.

Lemma tc_match_witness :
  l3_type sample_flow = l3_type (tc_five_tuple sample_tc) ∧ l4_protocol sample_flow = l4_protocol (tc_five_tuple sample_tc) ∧
  src_address sample_flow = src_address (tc_five_tuple sample_tc) ∧ dst_address sample_flow = dst_address (tc_five_tuple sample_tc) ∧
  (Z.land (compression_mode sample_tc) 2 ≠ 0 → src_port sample_flow = src_port (tc_five_tuple sample_tc)) ∧
  (Z.land (compression_mode sample_tc) 1 ≠ 0 → dst_port sample_flow = dst_port (tc_five_tuple sample_tc)).
Proof. apply (tc_match_determines_removed_fields sample_tc sample_flow). vm_compute. reflexivity. Defined.
