(* ===== verification/TxnMgr.v ===== *)
(** The ZDP transaction manager, [src/adapter/ph/src/mgmt/txn_mgr.rs]: 16-bit
    transaction identifiers handed out in sequence as reference-counted
    handles, with tasks that wait when the next identifier is still in use.

    A manager lives in an [Arc]; handles hold a [Weak] to it.  The managers
    that are alive form a store keyed by their address, and a [Weak] is an
    address (or [None], for [Weak::default()]). *)
From S2P Require Import Prelude.

Record TxnMgrInner : Type := mk_inner {
  next_free : Z;
  (** Active identifiers with their reference counts, 0 for the first one. *)
  open : gmap Z Z
}.

Abbreviation Mgrs := (gmap Z TxnMgrInner).

Record TxnHandle : Type := mk_handle { mgr : option Z; id : Z }.

#[global] Instance TxnHandle_eq_dec : EqDecision TxnHandle.
Proof. solve_decision. Defined.
#[global] Program Instance TxnHandle_countable : Countable TxnHandle :=
  inj_countable' (λ h, (mgr h, id h)) (λ p, mk_handle p.1 p.2) _.
Next Obligation. by intros []. Qed.

(** ** Operations *)

Definition txn_mgr_new : TxnMgrInner := mk_inner 0 ∅.

Definition try_open_raw (m : TxnMgrInner) : option Z * TxnMgrInner :=
  match open m !! next_free m with
  | None => (Some (next_free m), mk_inner (wrap16 (next_free m + 1)) (<[next_free m := 0]> (open m)))
  | Some _ => (None, m)
  end.

(** [try_open] on the manager at address [a]. *)
Definition try_open (a : Z) (m : TxnMgrInner) : option TxnHandle * TxnMgrInner :=
  let '(r, m) := try_open_raw m in (mk_handle (Some a) <$> r, m).

Definition txn_get (a : Z) (m : TxnMgrInner) (i : Z) : option (TxnHandle * TxnMgrInner) :=
  refcnt ← open m !! i;
  Some (mk_handle (Some a) i, mk_inner (next_free m) (<[i := wrap64 (refcnt + 1)]> (open m))).

Definition ref_txn (m : TxnMgrInner) (i : Z) : outcome TxnMgrInner :=
  match open m !! i with
  | None => Panic
  | Some refcnt => Ret (mk_inner (next_free m) (<[i := wrap64 (refcnt + 1)]> (open m)))
  end.

(** The manager, and whether the waiting tasks are to be notified. *)
Definition deref_txn (m : TxnMgrInner) (i : Z) : outcome (TxnMgrInner * bool) :=
  match open m !! i with
  | None => Panic
  | Some refcnt =>
      if 0 <? refcnt then Ret (mk_inner (next_free m) (<[i := refcnt - 1]> (open m)), false)
      else Ret (mk_inner (next_free m) (delete i (open m)), next_free m =? i)
  end.

(** [Weak::upgrade] *)
Definition upgrade (ms : Mgrs) (h : TxnHandle) : option (Z * TxnMgrInner) :=
  a ← mgr h; m ← ms !! a; Some (a, m).

Definition handle_clone (ms : Mgrs) (h : TxnHandle) : outcome (Mgrs * TxnHandle) :=
  match upgrade ms h with
  | Some (a, m) => m ← ref_txn m (id h); Ret (<[a := m]> ms, mk_handle (mgr h) (id h))
  | None => Ret (ms, mk_handle None (id h))
  end.

(** The store, and the manager whose waiters are to be notified, if any. *)
Definition handle_drop (ms : Mgrs) (h : TxnHandle) : outcome (Mgrs * option Z) :=
  match upgrade ms h with
  | Some (a, m) =>
      r ← deref_txn m (id h);
      let '(m, need_notify) := r in
      Ret (<[a := m]> ms, if (need_notify : bool) then Some a else None)
  | None => Ret (ms, None)
  end.

(** [PartialEq for TxnHandle] *)
Definition handle_eq (h1 h2 : TxnHandle) : bool :=
  bool_decide (mgr h1 = mgr h2) && (id h1 =? id h2).

(** ** Accounting

    The handles that exist are a resource: every operation on a manager either
    makes one or consumes one, and the reference counts are the numbers of
    handles. *)

Definition refs (h : TxnHandle) (hs : list TxnHandle) : nat := length (filter (λ x, x = h) hs).

(** The entry of a transaction with [n] handles. *)
Definition entry (n : nat) : option Z := match n with O => None | S n => Some (Z.of_nat n) end.

Record accounted (ms : Mgrs) (hs : list TxnHandle) : Prop := {
  acc_refs a m i : ms !! a = Some m → open m !! i = entry (refs (mk_handle (Some a) i) hs);
  acc_next a m : ms !! a = Some m → is_u16 (next_free m)
}.

Lemma refs_cons h x hs : refs h (x :: hs) = if decide (x = h) then S (refs h hs) else refs h hs.
Proof. unfold refs. rewrite filter_cons. by destruct (decide _). Qed.

Definition is_handle (h x : TxnHandle) : nat := if decide (x = h) then 1 else 0.

Lemma refs_add h x hs : refs h (x :: hs) = (is_handle h x + refs h hs)%nat.
Proof. rewrite refs_cons. unfold is_handle. by destruct (decide _). Qed.

Lemma refs_nil h : refs h [] = O.
Proof. done. Qed.

Lemma refs_app h hs hs' : refs h (hs ++ hs') = (refs h hs + refs h hs')%nat.
Proof. unfold refs. by rewrite list.filter_app, length_app. Qed.

Lemma refs_perm h hs hs' : hs ≡ₚ hs' → refs h hs = refs h hs'.
Proof. intros Hp. unfold refs. by rewrite Hp. Qed.

#[global] Instance accounted_perm ms : Proper ((≡ₚ) ==> iff) (accounted ms).
Proof.
  intros hs hs' Hp. split; intros [H1 H2]; split; try done; intros a m i Hm; rewrite (H1 a m i Hm); f_equal.
  - by apply refs_perm. - symmetry. by apply refs_perm.
Qed.

(** Who holds the handles, and in which order, does not matter. *)
Lemma accounted_refs ms hs hs' : (∀ h, refs h hs' = refs h hs) → accounted ms hs → accounted ms hs'.
Proof. intros Heq [H1 H2]. split; [|done]. intros a m i Hm. by rewrite Heq, (H1 a m i Hm). Qed.

Lemma refs_le_length h hs : (refs h hs <= length hs)%nat.
Proof. apply (length_filter (λ x, x = h)). Qed.

Lemma refs_not_elem h hs : h ∉ hs → refs h hs = O.
Proof.
  intros Hn. unfold refs. destruct (filter _ hs) as [|x l] eqn:F; [done|]. destruct Hn.
  assert (x ∈ filter (λ y, y = h) hs) as Hx by (rewrite F; left). by apply list_elem_of_filter in Hx as [-> ?].
Qed.

Lemma refs_elem h hs : h ∈ hs → ∃ n, refs h hs = S n ∧ (n < length hs)%nat.
Proof.
  intros (k & Hk)%list_elem_of_lookup. apply take_drop_middle in Hk. rewrite <- Hk.
  rewrite (refs_perm h _ (h :: (take k hs ++ drop (S k) hs))) by (symmetry; apply Permutation_middle).
  rewrite refs_cons, decide_True by done. eexists. split; [done|].
  unfold refs. pose proof (length_filter (λ x, x = h) (take k hs ++ drop (S k) hs)) as Hl.
  rewrite length_app in *. simpl. lia.
Qed.

Create Rewrite HintDb refs.
#[export] Hint Rewrite refs_add refs_nil refs_app : refs.

(** Rearranging the handles of an accounting [Ha]. *)
Ltac account Ha :=
  refine (accounted_refs _ _ _ _ Ha); intros ?; autorewrite with refs; lia.

Section accounting.
Context (ms : Mgrs) (hs : list TxnHandle).
Hypothesis (Hacc : accounted ms hs).

(** Replacing the manager at [a] when only its handles changed. *)
Lemma accounted_insert a m m' hs' :
  ms !! a = Some m → is_u16 (next_free m') →
  (∀ i, open m' !! i = entry (refs (mk_handle (Some a) i) hs')) →
  (∀ b i, b ≠ a → refs (mk_handle (Some b) i) hs' = refs (mk_handle (Some b) i) hs) →
  accounted (<[a := m']> ms) hs'.
Proof.
  intros Hm Hn Ho Hother. split.
  - intros b m0 i [[<- <-]|[Hne Hb]]%lookup_insert_Some; [done|].
    rewrite Hother by done. by apply (acc_refs _ _ Hacc).
  - intros b m0 [[<- <-]|[Hne Hb]]%lookup_insert_Some; [done|]. by apply (acc_next _ _ Hacc b).
Qed.

(** Opening: the new transaction has no other handle; there is none exactly
    when a handle of the next identifier exists. *)
Lemma try_open_accounted a m :
  ms !! a = Some m →
  match try_open a m with
  | (Some h, m') => refs h hs = O ∧ h = mk_handle (Some a) (next_free m) ∧ accounted (<[a := m']> ms) (h :: hs)
  | (None, m') => m' = m ∧ mk_handle (Some a) (next_free m) ∈ hs
  end.
Proof.
  intros Hm. unfold try_open, try_open_raw. pose proof (acc_refs _ _ Hacc a m (next_free m) Hm) as Hr.
  destruct (open m !! next_free m) as [n|] eqn:E; simpl.
  - split; [done|]. destruct (refs _ hs) eqn:R; [done|]. unfold refs in R.
    destruct (filter _ hs) as [|x l] eqn:F; [done|].
    assert (x ∈ filter (λ y, y = mk_handle (Some a) (next_free m)) hs) as Hx by (rewrite F; left).
    by apply list_elem_of_filter in Hx as [-> ?].
  - split; [by destruct (refs _ hs)|]. split; [done|]. apply (accounted_insert a m); try done.
    + simpl. zmod.
    + intros i. simpl. rewrite refs_cons. destruct (decide _) as [[= <-]|Hne].
      * rewrite lookup_insert_eq. by destruct (refs _ hs).
      * rewrite lookup_insert_ne by congruence. by apply (acc_refs _ _ Hacc).
    + intros b i Hb. rewrite refs_cons, decide_False; [done|congruence].
Qed.

(** One more handle of a transaction that has one. *)
Lemma incr_accounted a m i n :
  ms !! a = Some m → open m !! i = Some n → Z.of_nat (refs (mk_handle (Some a) i) hs) < U64_MOD →
  accounted (<[a := mk_inner (next_free m) (<[i := wrap64 (n + 1)]> (open m))]> ms) (mk_handle (Some a) i :: hs).
Proof.
  intros Hm Hn Hlen. pose proof (acc_refs _ _ Hacc a m i Hm) as Hr. rewrite Hn in Hr.
  destruct (refs _ hs) as [|k] eqn:R; [done|]. simpl in Hr. injection Hr as ->.
  apply (accounted_insert a m); try done.
  - by apply (acc_next _ _ Hacc a m).
  - intros j. simpl. rewrite refs_cons. destruct (decide _) as [[= <-]|Hne].
    + rewrite lookup_insert_eq, R. simpl. f_equal. rewrite wrap64_small; [lia|]. unfold is_u64. lia.
    + rewrite lookup_insert_ne by congruence. by apply (acc_refs _ _ Hacc).
  - intros b j Hb. rewrite refs_cons, decide_False; [done|congruence].
Qed.

Lemma get_accounted a m i h m' :
  ms !! a = Some m → Z.of_nat (refs (mk_handle (Some a) i) hs) < U64_MOD → txn_get a m i = Some (h, m') →
  h = mk_handle (Some a) i ∧ accounted (<[a := m']> ms) (h :: hs).
Proof.
  intros Hm Hlen. unfold txn_get. destruct (open m !! i) as [n|] eqn:E; simpl; [|done].
  intros [= <- <-]. split; [done|]. by apply incr_accounted.
Qed.

(** A manager that is gone is not in the store, so its handles count nothing. *)
Lemma accounted_dead h : upgrade ms h = None → accounted ms (h :: hs) ∧ accounted ms (mk_handle None (id h) :: hs).
Proof.
  intros Hu. split; split; try by apply (acc_next _ _ Hacc).
  - intros a m i Hm. rewrite refs_cons, decide_False; [by apply (acc_refs _ _ Hacc)|].
    intros ->. unfold upgrade in Hu. simpl in Hu. by rewrite Hm in Hu.
  - intros a m i Hm. rewrite refs_cons, decide_False; [by apply (acc_refs _ _ Hacc)|done].
Qed.

(** Cloning a handle that exists does not panic and makes one handle. *)
Lemma clone_accounted h :
  h ∈ hs → Z.of_nat (refs h hs) < U64_MOD →
  ∃ ms' h', handle_clone ms h = Ret (ms', h') ∧ accounted ms' (h' :: hs) ∧
    (is_Some (upgrade ms h) → h' = h) ∧
    (∀ a m, ms !! a = Some m → ∃ m', ms' !! a = Some m' ∧ next_free m' = next_free m ∧ dom (open m') = dom (open m)) ∧
    dom ms' = dom ms.
Proof.
  intros Hh Hlen. unfold handle_clone. destruct (upgrade ms h) as [[a m]|] eqn:Hu.
  - unfold upgrade in Hu. destruct h as [[b|] i]; simpl in Hu; [|done].
    destruct (ms !! b) as [m'|] eqn:Hm; simpl in Hu; [|done]. injection Hu as -> ->.
    destruct (refs_elem _ _ Hh) as (n & Hn & _). unfold ref_txn. simpl.
    pose proof (acc_refs _ _ Hacc a m i Hm) as Hr. rewrite Hn in Hr. rewrite Hr. cbn [mbind outcome_bind].
    eexists _, _. split; [done|]. split; [by apply incr_accounted|]. split; [done|].
    split; [|rewrite dom_insert_lookup_L; [done|by eexists]].
    intros b mb Hmb. destruct (decide (b = a)) as [->|]; [|rewrite lookup_insert_ne by done; eauto].
    rewrite lookup_insert_eq. eexists. split; [done|]. assert (mb = m) as -> by congruence.
    split; [done|]. simpl. apply dom_insert_lookup_L. by eexists.
  - eexists _, _. split; [done|]. split; [by apply accounted_dead|]. split; [by intros []|]. split; [eauto|done].
Qed.
End accounting.

(** Dropping a handle does not panic and consumes it; waiters are notified
    whenever the next identifier becomes free. *)
Lemma drop_accounted ms h hs :
  accounted ms (h :: hs) →
  ∃ ms' o, handle_drop ms h = Ret (ms', o) ∧ accounted ms' hs ∧ dom ms' = dom ms ∧
    (∀ a m', ms' !! a = Some m' → ∃ m, ms !! a = Some m ∧ next_free m' = next_free m ∧
       (open m' !! next_free m' = None → open m !! next_free m = None ∨ o = Some a)).
Proof.
  intros Hacc. unfold handle_drop. destruct (upgrade ms h) as [[a m]|] eqn:Hu.
  - unfold upgrade in Hu. destruct h as [[b|] i]; simpl in Hu; [|done].
    destruct (ms !! b) as [m'|] eqn:Hm; simpl in Hu; [|done]. injection Hu as -> ->.
    pose proof (acc_refs _ _ Hacc a m i Hm) as Hr. rewrite refs_cons, decide_True in Hr by done.
    unfold deref_txn. simpl in Hr |- *. rewrite Hr.
    assert (∀ m', next_free m' = next_free m → (∀ j, j ≠ i → open m' !! j = open m !! j) →
              open m' !! i = entry (refs (mk_handle (Some a) i) hs) → accounted (<[a := m']> ms) hs) as Hgoal.
    { intros m' Hnf Hother Hi. apply (accounted_insert _ _ Hacc a m); try done.
      - rewrite Hnf. by apply (acc_next _ _ Hacc a m).
      - intros j. destruct (decide (j = i)) as [->|Hj]; [done|]. rewrite (Hother j Hj), (acc_refs _ _ Hacc a m j Hm).
        by rewrite refs_cons, decide_False by congruence.
      - intros c j Hc. by rewrite refs_cons, decide_False by congruence. }
    assert (∀ m', dom (<[a := m']> ms) = dom ms) as Hdom by (intros; apply dom_insert_lookup_L; by eexists).
    destruct (Z.ltb_spec 0 (Z.of_nat (refs (mk_handle (Some a) i) hs))) as [Hp|Hp]; cbn [mbind outcome_bind].
    + eexists _, _. split; [done|]. split; [|split; [done|]].
      * apply Hgoal; [done|intros j Hj; by apply lookup_insert_ne|]. simpl. rewrite lookup_insert_eq.
        destruct (refs _ hs) as [|n]; [lia|]. simpl. f_equal. lia.
      * intros b m' [[<- <-]|[Hne Hb]]%lookup_insert_Some; [|eauto 10]. exists m. split; [done|]. split; [done|].
        intros Hn. simpl in Hn. left. by apply lookup_insert_None in Hn as [].
    + assert (refs (mk_handle (Some a) i) hs = O) as R0 by lia.
      eexists _, _. split; [done|]. split; [|split; [done|]].
      * apply Hgoal; [done|intros j Hj; by apply lookup_delete_ne|]. simpl. by rewrite lookup_delete_eq, R0.
      * intros b m' [[<- <-]|[Hne Hb]]%lookup_insert_Some; [|eauto 10].
        exists m. split; [done|]. split; [done|]. simpl. destruct (Z.eqb_spec (next_free m) i) as [->|Hni]; [by right|].
        intros Hn. left. by rewrite lookup_delete_ne in Hn.
  - eexists _, _. split; [done|]. split; [|split; [done|eauto 10]].
    split; [|by apply (acc_next _ _ Hacc)]. intros a m i Hm.
    rewrite (acc_refs _ _ Hacc a m i Hm), refs_cons, decide_False; [done|].
    intros ->. unfold upgrade in Hu. simpl in Hu. by rewrite Hm in Hu.
Qed.

(** ** The manager with its clients

    Threads and tasks interleave at the granularity of the lock: [deref_txn]
    releases it before it notifies ([notifying] holds the managers of the
    threads in between), and [open_raw] registers for notification while it
    holds it ([waiting]); a notified task has not yet tried again ([woken]). *)

Record Clients : Type := mk_clients {
  mgrs : Mgrs;
  handles : list TxnHandle;
  waiting : list Z;
  woken : list Z;
  notifying : list Z
}.

Inductive TxnOp : Type :=
| OpNew (a : Z)           (** [Arc::new(TxnMgr::new())]; [a] is not the address of a manager, alive
                              or still pointed to *)
| OpTryOpen (a : Z)       (** [mgr.try_open()] *)
| OpOpen (a : Z)          (** [mgr.open().await] is started *)
| OpRetry (k : nat)       (** the [k]th woken task runs *)
| OpGet (a i : Z)         (** [mgr.get(i)] *)
| OpClone (k : nat)       (** the [k]th handle is cloned *)
| OpDrop (k : nat)        (** the [k]th handle is dropped *)
| OpNotify (k : nat)      (** the [k]th notifying thread calls [notify_waiters] *)
| OpDropMgr (a : Z).      (** the last [Arc] is dropped *)

(** One iteration of the loop of [open_raw], and [open]. *)
Definition open_attempt (s : Clients) (a : Z) : Clients :=
  match mgrs s !! a with
  | None => s
  | Some m =>
      match try_open a m with
      | (Some h, m) =>
          mk_clients (<[a := m]> (mgrs s)) (h :: handles s) (waiting s) (woken s) (notifying s)
      | (None, _) => mk_clients (mgrs s) (handles s) (a :: waiting s) (woken s) (notifying s)
      end
  end.

Definition exec (s : Clients) (op : TxnOp) : outcome Clients :=
  match op with
  | OpNew a =>
      if decide (is_Some (mgrs s !! a) ∨ Some a ∈ mgr <$> handles s) then Ret s
      else Ret (mk_clients (<[a := txn_mgr_new]> (mgrs s)) (handles s) (waiting s) (woken s) (notifying s))
  | OpTryOpen a =>
      match mgrs s !! a with
      | None => Ret s
      | Some m =>
          let '(r, m) := try_open a m in
          Ret (mk_clients (<[a := m]> (mgrs s)) (option_list r ++ handles s) (waiting s) (woken s) (notifying s))
      end
  | OpOpen a => Ret (open_attempt s a)
  | OpRetry k =>
      match woken s !! k with
      | None => Ret s
      | Some a =>
          Ret (open_attempt (mk_clients (mgrs s) (handles s) (waiting s) (delete k (woken s)) (notifying s)) a)
      end
  | OpGet a i =>
      match mgrs s !! a ≫= (λ m, txn_get a m i) with
      | None => Ret s
      | Some (h, m) => Ret (mk_clients (<[a := m]> (mgrs s)) (h :: handles s) (waiting s) (woken s) (notifying s))
      end
  | OpClone k =>
      match handles s !! k with
      | None => Ret s
      | Some h =>
          r ← handle_clone (mgrs s) h;
          Ret (mk_clients r.1 (r.2 :: handles s) (waiting s) (woken s) (notifying s))
      end
  | OpDrop k =>
      match handles s !! k with
      | None => Ret s
      | Some h =>
          r ← handle_drop (mgrs s) h;
          Ret (mk_clients r.1 (delete k (handles s)) (waiting s) (woken s) (option_list r.2 ++ notifying s))
      end
  | OpNotify k =>
      match notifying s !! k with
      | None => Ret s
      | Some a =>
          Ret (mk_clients (mgrs s) (handles s) (filter (λ b, b ≠ a) (waiting s))
                 (filter (λ b, b = a) (waiting s) ++ woken s) (delete k (notifying s)))
      end
  | OpDropMgr a =>
      if decide (a ∈ waiting s ++ woken s ++ notifying s) then Ret s
      else Ret (mk_clients (delete a (mgrs s)) (handles s) (waiting s) (woken s) (notifying s))
  end.

Fixpoint exec_all (s : Clients) (ops : list TxnOp) : outcome Clients :=
  match ops with
  | [] => Ret s
  | op :: ops => s ← exec s op; exec_all s ops
  end.

Definition clients_new : Clients := mk_clients ∅ [] [] [] [].

(** The clients are never owed a wake-up: while a task waits, the identifier it
    waits for is in use, or a notification is on its way. *)
Definition no_lost_wakeup (s : Clients) : Prop :=
  ∀ a, a ∈ waiting s → ∃ m, mgrs s !! a = Some m ∧ (is_Some (open m !! next_free m) ∨ a ∈ notifying s).

Record clients_inv (n : nat) (s : Clients) : Prop := {
  ci_acc : accounted (mgrs s) (handles s);
  ci_len : (length (handles s) <= n)%nat;
  ci_wake : no_lost_wakeup s
}.

(** A manager whose next identifier was or stays in use still owes nothing. *)
Lemma wakeup_insert s a m m' hs :
  no_lost_wakeup s → mgrs s !! a = Some m →
  (is_Some (open m !! next_free m) → is_Some (open m' !! next_free m')) →
  no_lost_wakeup (mk_clients (<[a := m']> (mgrs s)) hs (waiting s) (woken s) (notifying s)).
Proof.
  intros Hw Hm Hn b Hb. destruct (Hw b Hb) as (mb & Hmb & Hor). simpl. destruct (decide (b = a)) as [->|Hne].
  - rewrite lookup_insert_eq. eexists. split; [done|]. naive_solver.
  - rewrite lookup_insert_ne by done. eauto.
Qed.

Lemma try_open_some a m h m' : try_open a m = (Some h, m') → open m !! next_free m = None.
Proof. unfold try_open, try_open_raw. by destruct (open m !! next_free m). Qed.

Lemma open_attempt_inv n s a :
  clients_inv n s → clients_inv (S n) (open_attempt s a).
Proof.
  intros [Hacc Hlen Hw]. unfold open_attempt. destruct (mgrs s !! a) as [m|] eqn:Hm; [|split; auto].
  pose proof (try_open_accounted _ _ Hacc a m Hm) as Ho. destruct (try_open a m) as [[h|] m'] eqn:E.
  - destruct Ho as (_ & _ & Ho). split; [done|simpl; lia|]. apply (wakeup_insert s a m); try done.
    apply try_open_some in E. rewrite E. by intros [].
  - destruct Ho as (-> & Hin). split; [done|simpl; lia|]. intros b [->|Hb]%elem_of_cons; simpl; [|by apply Hw].
    exists m. split; [done|]. left. rewrite (acc_refs _ _ Hacc a m _ Hm).
    destruct (refs_elem _ _ Hin) as (k & -> & _). by eexists.
Qed.

Lemma new_inv n s a :
  clients_inv n s → ¬ (is_Some (mgrs s !! a) ∨ Some a ∈ mgr <$> handles s) →
  clients_inv n (mk_clients (<[a := txn_mgr_new]> (mgrs s)) (handles s) (waiting s) (woken s) (notifying s)).
Proof.
  intros [Hacc Hlen Hw] Hno. split; simpl; [|lia|].
  - split.
    + intros b m i [[<- <-]|[Hne Hb]]%lookup_insert_Some; [|by apply (acc_refs _ _ Hacc)].
      simpl. rewrite lookup_empty. destruct (refs _ _) eqn:R; [done|]. destruct Hno. right.
      unfold refs in R. destruct (filter _ (handles s)) as [|x l] eqn:F; [done|].
      assert (x ∈ filter (λ y, y = mk_handle (Some a) i) (handles s)) as Hx by (rewrite F; left).
      apply list_elem_of_filter in Hx as [-> Hx]. apply list_elem_of_fmap. by exists (mk_handle (Some a) i).
    + intros b m [[<- <-]|[Hne Hb]]%lookup_insert_Some; [done|]. by apply (acc_next _ _ Hacc b).
  - intros b Hb. destruct (Hw b Hb) as (m & Hm & Hor). simpl. rewrite lookup_insert_ne; [eauto|].
    intros ->. destruct Hno. left. by eexists.
Qed.

Lemma get_inv n s a m i h m' :
  clients_inv n s → Z.of_nat n < U64_MOD → mgrs s !! a = Some m → txn_get a m i = Some (h, m') →
  clients_inv (S n) (mk_clients (<[a := m']> (mgrs s)) (h :: handles s) (waiting s) (woken s) (notifying s)).
Proof.
  intros [Hacc Hlen Hw] Hn Hm E. pose proof (refs_le_length (mk_handle (Some a) i) (handles s)).
  destruct (get_accounted _ _ Hacc a m i h m' Hm) as [_ Hacc']; [lia|done|].
  split; [done|simpl; lia|]. apply (wakeup_insert s a m); try done. revert E. unfold txn_get.
  destruct (open m !! i) eqn:Ei; simpl; [|done]. intros [= _ <-] Hs. simpl.
  destruct (decide (next_free m = i)) as [->|]; [rewrite lookup_insert_eq; by eexists|by rewrite lookup_insert_ne].
Qed.

Lemma clone_inv n s h :
  clients_inv n s → Z.of_nat n < U64_MOD → h ∈ handles s →
  ∃ ms h', handle_clone (mgrs s) h = Ret (ms, h') ∧
    clients_inv (S n) (mk_clients ms (h' :: handles s) (waiting s) (woken s) (notifying s)).
Proof.
  intros [Hacc Hlen Hw] Hn Hh. pose proof (refs_le_length h (handles s)).
  apply (clone_accounted _ _ Hacc) in Hh as (ms & h' & E & Hacc' & _ & Hsame & _); [|lia].
  eexists _, _. split; [done|]. split; [done|simpl; lia|]. intros b Hb.
  destruct (Hw b Hb) as (m & Hm & Hor). destruct (Hsame b m Hm) as (m' & Hm' & Hn' & Hd). exists m'. split; [done|].
  destruct Hor as [Ho|]; [|by right]. left. rewrite Hn'. apply elem_of_dom. rewrite Hd. by apply elem_of_dom.
Qed.

Lemma drop_inv n s k h :
  clients_inv n s → handles s !! k = Some h →
  ∃ ms o, handle_drop (mgrs s) h = Ret (ms, o) ∧
    clients_inv n (mk_clients ms (delete k (handles s)) (waiting s) (woken s) (option_list o ++ notifying s)).
Proof.
  intros [Hacc Hlen Hw] Hk. rewrite (delete_Permutation _ _ _ Hk) in Hacc.
  apply drop_accounted in Hacc as (ms & o & E & Hacc & Hd & Hwk). eexists _, _. split; [done|].
  split; [done|simpl; rewrite (length_delete _ k) by (by eexists); lia|]. intros b Hb. simpl.
  destruct (Hw b Hb) as (m & Hm & Hor). assert (is_Some (ms !! b)) as [m' Hm'].
  { apply elem_of_dom. rewrite Hd. apply elem_of_dom. by eexists. }
  exists m'. split; [done|]. destruct (Hwk b m' Hm') as (m0 & Hm0 & Hn & Hfree).
  rewrite elem_of_app. destruct Hor as [Ho|]; [|by right; right].
  destruct (open m' !! next_free m') eqn:Eo; [left; by eexists|].
  destruct (Hfree eq_refl) as [Hnone| ->]; [|right; left; simpl; by left].
  assert (m0 = m) as -> by congruence. rewrite Hnone in Ho. by destruct Ho.
Qed.

Lemma notify_inv n s k a :
  clients_inv n s → notifying s !! k = Some a →
  clients_inv n (mk_clients (mgrs s) (handles s) (filter (λ b, b ≠ a) (waiting s))
                   (filter (λ b, b = a) (waiting s) ++ woken s) (delete k (notifying s))).
Proof.
  intros [Hacc Hlen Hw] Hk. split; [done|done|]. intros b [Hne Hb]%list_elem_of_filter. simpl.
  destruct (Hw b Hb) as (m & Hm & Hor). exists m. split; [done|]. destruct Hor as [|Hin]; [by left|right].
  rewrite (delete_Permutation _ _ _ Hk) in Hin. by apply elem_of_cons in Hin as [|].
Qed.

Lemma drop_mgr_inv n s a :
  clients_inv n s → a ∉ waiting s ++ woken s ++ notifying s →
  clients_inv n (mk_clients (delete a (mgrs s)) (handles s) (waiting s) (woken s) (notifying s)).
Proof.
  intros [Hacc Hlen Hw] Ha. split; [|done|].
  - simpl. split; intros b m; [intros i|]; intros [_ Hb]%lookup_delete_Some; [by apply (acc_refs _ _ Hacc)|by apply (acc_next _ _ Hacc b)].
  - intros b Hb. simpl. rewrite lookup_delete_ne; [by apply Hw|]. intros ->. apply Ha, elem_of_app. by left.
Qed.

Lemma exec_inv n s op :
  clients_inv n s → Z.of_nat n < U64_MOD → ∃ s', exec s op = Ret s' ∧ clients_inv (S n) s'.
Proof.
  intros Hinv Hn. assert (∀ s', clients_inv n s' → clients_inv (S n) s') as Hmono by (intros ? []; split; auto).
  destruct op as [a|a|a|k|a i|k|k|k|a]; simpl.
  - destruct (decide _); [|pose proof (new_inv n s a)]; eauto 10.
  - destruct (mgrs s !! a) as [m|] eqn:Hm; [|by eauto].
    pose proof (open_attempt_inv n s a Hinv) as Ho. unfold open_attempt in Ho. rewrite Hm in Ho.
    pose proof (try_open_accounted _ _ (ci_acc _ _ Hinv) a m Hm) as Hno.
    destruct (try_open a m) as [[h|] m'] eqn:E; [by eauto|]. destruct Hno as [-> _].
    rewrite insert_id by done. destruct s; eauto.
  - eexists. split; [done|]. by apply open_attempt_inv.
  - destruct (woken s !! k) as [a|]; [|by eauto]. eexists. split; [done|]. apply open_attempt_inv. by destruct Hinv.
  - destruct (mgrs s !! a) as [m|] eqn:Hm; simpl; [|by eauto].
    destruct (txn_get a m i) as [[h m']|] eqn:E; [|by eauto]. eexists. split; [done|]. by eapply get_inv.
  - destruct (handles s !! k) as [h|] eqn:Hk; [|by eauto].
    apply list_elem_of_lookup_2 in Hk. apply (clone_inv n s h Hinv Hn) in Hk as (ms & h' & -> & Hc). eauto.
  - destruct (handles s !! k) as [h|] eqn:Hk; [|by eauto].
    destruct (drop_inv n s k h Hinv Hk) as (ms & o & -> & Hc). simpl. eauto.
  - destruct (notifying s !! k) as [a|] eqn:Hk; [|by eauto]. eexists. split; [done|]. by apply Hmono, notify_inv.
  - destruct (decide _); [by eauto|]. eexists. split; [done|]. by apply Hmono, drop_mgr_inv.
Qed.

Lemma exec_all_inv ops n s :
  clients_inv n s → Z.of_nat (n + length ops) < U64_MOD →
  ∃ s', exec_all s ops = Ret s' ∧ clients_inv (n + length ops) s'.
Proof.
  revert n s. induction ops as [|op ops IH]; intros n s Hs Hn; simpl in *.
  - exists s. by rewrite Nat.add_0_r.
  - destruct (exec_inv n s op Hs) as (s1 & -> & H1); [lia|]. simpl.
    rewrite Nat.add_succ_r in *. by apply (IH (S n)).
Qed.

(** C27: the transaction manager is correct under any interleaving of its
    clients, managers being created and dropped at any time.  No call panics;
    the reference count of a transaction is exactly the number of its handles,
    so an identifier is free as soon as its last handle is gone and is never
    handed out while a handle exists; and no wake-up is lost: whenever a task
    waits, a handle of the identifier it waits for still exists or a
    notification is on its way. *)
Theorem txn_clients_safe (ops : list TxnOp) :
  Z.of_nat (length ops) < U64_MOD →
  ∃ s, exec_all clients_new ops = Ret s ∧
    (∀ a m i, mgrs s !! a = Some m → open m !! i = entry (refs (mk_handle (Some a) i) (handles s))) ∧
    (∀ a m h m', mgrs s !! a = Some m → try_open a m = (Some h, m') → h ∉ handles s) ∧
    (∀ a, a ∈ waiting s → ∃ m, mgrs s !! a = Some m ∧
       (mk_handle (Some a) (next_free m) ∈ handles s ∨ a ∈ notifying s)).
Proof.
  intros Hn. destruct (exec_all_inv ops 0 clients_new) as (s & Hs & [Hacc _ Hw]); [|done|].
  { split; [|done|by intros a ?%elem_of_nil]. split; intros a m; [intros i|]; simpl; by rewrite lookup_empty. }
  exists s. split; [done|]. split; [by apply (acc_refs _ _ Hacc)|]. split.
  - intros a m h m' Hm Ho Hin. pose proof (try_open_accounted _ _ Hacc a m Hm) as Hf. rewrite Ho in Hf.
    destruct Hf as [H0 _], (refs_elem _ _ Hin) as (k & Hk & _). lia.
  - intros a Ha. destruct (Hw a Ha) as (m & Hm & Hor). exists m. split; [done|].
    destruct Hor as [Ho|]; [left|by right]. pose proof (try_open_accounted _ _ Hacc a m Hm) as Hf.
    revert Hf. unfold try_open, try_open_raw. destruct Ho as [x ->]. by intros [_ ?].
Qed.

(** Two transactions, one with a clone and a second handle. *)
Definition busy : list TxnOp :=
  [OpNew 7; OpTryOpen 7; OpTryOpen 7; OpClone 0; OpGet 7 1; OpDrop 1; OpOpen 7; OpDrop 0].

Lemma txn_clients_safe_witness : ∃ s, exec_all clients_new busy = Ret s ∧ (length (handles s) = 3)%nat.
Proof.
  destruct (txn_clients_safe busy ltac:(done)) as (s & Hs & _). exists s. split; [done|].
  vm_compute in Hs. injection Hs as <-. reflexivity.
Defined.

(** ** Handles in other components' tables *)

(** Dropping a handle, for a component that does not wait on managers. *)
Definition drop_handle (ms : Mgrs) (h : TxnHandle) : outcome Mgrs := r ← handle_drop ms h; Ret r.1.

Fixpoint drop_handles (ms : Mgrs) (hs : list TxnHandle) : outcome Mgrs :=
  match hs with
  | [] => Ret ms
  | h :: hs => ms ← drop_handle ms h; drop_handles ms hs
  end.

Lemma drop_handle_accounted ms h hs :
  accounted ms (h :: hs) → ∃ ms', drop_handle ms h = Ret ms' ∧ accounted ms' hs ∧ dom ms' = dom ms.
Proof.
  intros (ms' & o & E & Ha & Hd & _)%drop_accounted. exists ms'. unfold drop_handle. by rewrite E.
Qed.

Lemma drop_handles_accounted l ms hs :
  accounted ms (l ++ hs) → ∃ ms', drop_handles ms l = Ret ms' ∧ accounted ms' hs ∧ dom ms' = dom ms.
Proof.
  revert ms. induction l as [|h l IH]; intros ms Ha; simpl; [eauto|].
  apply drop_handle_accounted in Ha as (ms' & -> & Ha & Hd). simpl.
  apply IH in Ha as (ms'' & ? & ? & Hd'). exists ms''. by rewrite Hd', Hd.
Qed.

(** The handles in the values (or keys) of a map. *)
Section map_handles.
Context `{Countable K} {A : Type} (f : K * A → list TxnHandle).
Implicit Types m : gmap K A.

Definition map_handles m : list TxnHandle := map_to_list m ≫= f.

Lemma map_handles_insert h m k a :
  m !! k = None → refs h (map_handles (<[k := a]> m)) = (refs h (f (k, a)) + refs h (map_handles m))%nat.
Proof. intros Hm. rewrite <- refs_app. apply refs_perm. unfold map_handles. by rewrite map_to_list_insert. Qed.

Lemma map_handles_delete h m k a :
  m !! k = Some a → refs h (map_handles m) = (refs h (f (k, a)) + refs h (map_handles (delete k m)))%nat.
Proof. intros Hm. rewrite <- refs_app. apply refs_perm. unfold map_handles. by rewrite <- (map_to_list_delete m k a). Qed.

Lemma map_handles_update h m k a a' :
  m !! k = Some a →
  (refs h (map_handles (<[k := a']> m)) + refs h (f (k, a)) = refs h (map_handles m) + refs h (f (k, a')))%nat.
Proof.
  intros Hm. rewrite (map_handles_delete h m k a Hm), <- insert_delete_eq, map_handles_insert by (apply lookup_delete_eq). lia.
Qed.

Lemma map_handles_zero h m : (∀ k a, m !! k = Some a → h ∉ f (k, a)) → refs h (map_handles m) = O.
Proof.
  intros Hm. apply refs_not_elem. intros ([k a] & Hin & Ha%elem_of_map_to_list)%list_elem_of_bind. by apply (Hm k a).
Qed.

Lemma map_handles_pos h m k a : m !! k = Some a → h ∈ f (k, a) → refs h (map_handles m) ≠ O.
Proof.
  intros Hm Hin. rewrite (map_handles_delete h m k a Hm). destruct (refs_elem _ _ Hin) as (n & -> & _). lia.
Qed.
End map_handles.
