(* ===== verification/Slab.v ===== *)
(** Slab tables: the interface to the [cslab] crate, and the tables over it
    whose keys are stream identifiers: the peer forwarding table of
    [src/adapter/ph/src/forwarding_tables.rs].

    A slab is read through an RCU reader that is published again after every
    removal; the model reads the current table. *)
From S2P Require Import Prelude.

Class Slab : Type := {
  slab : Type → Type;
  with_fixed_capacity {A} : Z → slab A;
  slab_get {A} : slab A → Z → option A;
  (** The key the next insertion takes; none when the slab is full. *)
  vacant_key {A} : slab A → option Z;
  slab_insert {A} : slab A → A → option (Z * slab A);
  slab_remove {A} : slab A → Z → slab A;
  slab_clear {A} : slab A → slab A;
  slab_len {A} : slab A → Z;
  capacity {A} : slab A → Z;
}.

Class SlabLaws `{Slab} : Prop := {
  slab_get_new {A} c k : slab_get (with_fixed_capacity c : slab A) k = None;
  vacant_key_free {A} (s : slab A) k : vacant_key s = Some k → 0 <= k < capacity s ∧ slab_get s k = None;
  slab_insert_vacant {A} (s : slab A) v :
    match vacant_key s with
    | None => slab_insert s v = None
    | Some k => ∃ s', slab_insert s v = Some (k, s') ∧ capacity s' = capacity s ∧
                  ∀ j, slab_get s' j = if decide (j = k) then Some v else slab_get s j
    end;
  slab_get_remove {A} (s : slab A) k j :
    slab_get (slab_remove s k) j = if decide (j = k) then None else slab_get s j;
  slab_get_clear {A} (s : slab A) j : slab_get (slab_clear s) j = None;
  capacity_new {A} c : capacity (with_fixed_capacity c : slab A) = c;
  capacity_remove {A} (s : slab A) k : capacity (slab_remove s k) = capacity s;
  capacity_clear {A} (s : slab A) : capacity (slab_clear s) = capacity s;
}.

(** [(tether_id as usize).wrapping_sub(1)]: stream identifiers are keys plus
    one, so that 0 is none. *)
Definition stream_key (tether_id : Z) : Z := wrap64 (tether_id - 1).
(** [(key + 1) as StreamId] *)
Definition key_stream (key : Z) : Z := wrap32 (key + 1).

Lemma stream_key_inv k : 0 <= k < U32_MOD - 1 → stream_key (key_stream k) = k.
Proof. unfold stream_key, key_stream. zmod. Qed.

Lemma stream_key_inj t u : is_u32 t → is_u32 u → stream_key t = stream_key u → t = u.
Proof. unfold stream_key. zmod. Qed.

Section forwarding_table.
Context `{Slab}.

(** [ForwardingEntry(link, stream)] *)
Definition ForwardingEntry : Type := Z * Z.

Record PftPep : Type := mk_pft_pep { pft_next_hop : ForwardingEntry; pft_visa_id : Z }.

Definition PEER_FORWARDING_TABLE_SIZE : Z := Z.shiftl 1 20.

Definition PeerForwardingTable : Type := slab PftPep.

Definition pft_new : PeerForwardingTable := with_fixed_capacity PEER_FORWARDING_TABLE_SIZE.

Definition pft_get (t : PeerForwardingTable) (tether_id : Z) : option PftPep := slab_get t (stream_key tether_id).

Definition pft_inspect {T} (t : PeerForwardingTable) (tether_id : Z) (inspector : PftPep → T) : option T :=
  inspector <$> slab_get t (stream_key tether_id).

(** [vacant_entry] with the [key] of the entry; the entry's [insert] is
    [vacant_insert]. *)
Definition pft_vacant_entry (t : PeerForwardingTable) : option Z := key_stream <$> vacant_key t.

Definition vacant_insert (t : PeerForwardingTable) (pep : PftPep) : outcome (Z * PeerForwardingTable) :=
  match slab_insert t pep with
  | Some (k, t) => Ret (key_stream k, t)
  | None => Panic
  end.

Definition pft_insert (t : PeerForwardingTable) (pep : PftPep) : outcome (option (Z * PeerForwardingTable)) :=
  match pft_vacant_entry t with
  | None => Ret None
  | Some _ => r ← vacant_insert t pep; Ret (Some r)
  end.

Definition pft_remove (t : PeerForwardingTable) (tether_id : Z) : PeerForwardingTable :=
  slab_remove t (stream_key tether_id).

Definition pft_len (t : PeerForwardingTable) : Z := slab_len t.

(** [clear] does nothing yet. *)
Definition pft_clear (t : PeerForwardingTable) : PeerForwardingTable := t.

(** ** Facts the clients use *)

Context `{!SlabLaws}.

(** A forwarding table has the capacity it was made with. *)
Definition pft_wf (t : PeerForwardingTable) : Prop := capacity t = PEER_FORWARDING_TABLE_SIZE.

Lemma pft_new_wf : pft_wf pft_new.
Proof. apply capacity_new. Qed.

Lemma pft_remove_wf t i : pft_wf t → pft_wf (pft_remove t i).
Proof. unfold pft_wf, pft_remove. by rewrite capacity_remove. Qed.

Lemma pft_get_new i : pft_get pft_new i = None.
Proof. apply slab_get_new. Qed.

Lemma pft_get_remove t i j :
  is_u32 i → is_u32 j → pft_get (pft_remove t i) j = if decide (j = i) then None else pft_get t j.
Proof.
  intros Hi Hj. unfold pft_get, pft_remove. rewrite slab_get_remove.
  destruct (decide (j = i)) as [->|Hne]; [by rewrite decide_True|].
  rewrite decide_False; [done|]. intros Hk. by apply stream_key_inj in Hk.
Qed.

(** A reserved entry is a fresh, non-zero stream, and inserting takes exactly it. *)
Lemma vacant_insert_spec t i pep :
  pft_wf t → pft_vacant_entry t = Some i →
  0 < i < U32_MOD ∧ pft_get t i = None ∧
  ∃ t', vacant_insert t pep = Ret (i, t') ∧ pft_wf t' ∧
    ∀ j, is_u32 j → pft_get t' j = if decide (j = i) then Some pep else pft_get t j.
Proof.
  unfold pft_vacant_entry. intros Hwf Hv. destruct (vacant_key t) as [k|] eqn:Ek; [|done].
  injection Hv as <-. apply vacant_key_free in Ek as Hk. destruct Hk as [Hk Hnone]. unfold pft_wf in Hwf.
  rewrite Hwf in Hk. change PEER_FORWARDING_TABLE_SIZE with 1048576 in *.
  assert (key_stream k = k + 1) as E1 by (unfold key_stream; zmod).
  assert (stream_key (k + 1) = k) as E2 by (unfold stream_key; zmod).
  unfold pft_get, vacant_insert. rewrite E1, E2. split; [lia|]. split; [done|].
  pose proof (slab_insert_vacant t pep) as Hi. rewrite Ek in Hi. destruct Hi as (t' & -> & Hc & Hg).
  exists t'. rewrite E1. split; [done|]. split; [unfold pft_wf; by rewrite Hc, Hwf|].
  intros j Hj. rewrite Hg. destruct (decide (j = k + 1)) as [->|Hne]; [by rewrite E2, decide_True|].
  rewrite decide_False; [done|]. intros Hs. apply Hne, stream_key_inj; [done|unfold is_u32; lia|]. by rewrite E2.
Qed.
End forwarding_table.

(** ** A concrete slab: a map that fills the least free index *)

Record map_slab (A : Type) : Type := mk_map_slab { ms_map : gmap Z A; ms_capacity : Z }.
Arguments mk_map_slab {A}.
Arguments ms_map {A}.
Arguments ms_capacity {A}.

Definition least_free {A} (m : gmap Z A) (cap : Z) : option Z :=
  snd <$> list_find (λ k, k < cap ∧ m !! k = None) (seqZ 0 (Z.of_nat (size m) + 1)).

#[export] Instance sample_slab : Slab := {|
  slab := map_slab;
  with_fixed_capacity A c := mk_map_slab ∅ c;
  slab_get A s k := ms_map s !! k;
  vacant_key A s := least_free (ms_map s) (ms_capacity s);
  slab_insert A s v :=
    k ← least_free (ms_map s) (ms_capacity s); Some (k, mk_map_slab (<[k := v]> (ms_map s)) (ms_capacity s));
  slab_remove A s k := mk_map_slab (delete k (ms_map s)) (ms_capacity s);
  slab_clear A s := mk_map_slab ∅ (ms_capacity s);
  slab_len A s := Z.of_nat (size (ms_map s));
  capacity A s := ms_capacity s;
|}.

#[export] Instance sample_slab_laws : SlabLaws.
Proof.
  split; simpl; try done; intros A s.
  - intros k Hk. unfold least_free in Hk.
    destruct (list_find _ _) as [[i j]|] eqn:E; [|done]. simpl in Hk. injection Hk as ->.
    apply list_find_Some in E as (E & [Hc Hn] & _). apply list_elem_of_lookup_2, elem_of_seqZ in E. split; [lia|done].
  - intros v. destruct (least_free _ _) as [k|]; simpl; [|done]. eexists. split; [done|]. split; [done|].
    intros j. simpl. destruct (decide (j = k)) as [->|]; [by rewrite lookup_insert_eq|by rewrite lookup_insert_ne].
  - intros k j. destruct (decide (j = k)) as [->|]; [by rewrite lookup_delete_eq|by rewrite lookup_delete_ne].
Qed.
