(* ===== verification/AdapterTables.v ===== *)
(** The adapter's flow tables: the endpoint and dock lookup tables of
    [src/adapter/ph/src/adapter_tables.rs], the operations on them of
    [mgmt/adapter.rs], the bind requests of [adapter_manager_worker.rs] and the
    bind response handler of [mgmt/handlers.rs].

    The tables own transaction handles; a handle that a table or a task holds
    counts in its manager, as [TxnMgr] accounts for it. *)
From S2P Require Import Prelude Zdp Dispatch TxnMgr Slab Utf8 NetDefs IpHeaders PacketBuf Compress Classifier Tc.

(** The x25519 and blake3 operations used for adapter-to-adapter keys;
    [diffie_hellman] is with the adapter's own key pair. *)
Class A2aKeys : Type := {
  PublicKey : Type;
  SharedSecret : Type;
  key_from_bytes : bytes → PublicKey;
  diffie_hellman : PublicKey → SharedSecret;
  derive_key : SharedSecret → bytes;
}.

Section tables.
Context {ND : NetDefs} {SL : Slab} {AK : A2aKeys} (MIN_BODY_OFFSET : Z).

(** ** Endpoint lookup table *)

Record EltPep : Type := mk_elt_pep {
  elt_compression_mode : Z;
  elt_tether_id : Z;
  elt_a2a_shared_secret : option SharedSecret;
  elt_a2a_micv_key : option bytes;
}.

Definition elt_pep_new (mode tether_id : Z) (secret : option SharedSecret) : EltPep :=
  mk_elt_pep mode tether_id secret (derive_key <$> secret).

Inductive EltEntry : Type :=
| Pending (packet : Packet) (txn : TxnHandle)
| Active (pep : EltPep).

Record EndpointLookupTable : Type := mk_elt {
  table : gmap FiveTuple EltEntry;
  pending : gmap TxnHandle FiveTuple
}.

Inductive InsertPendingError : Type := AlreadyPending (p : Packet) | DuplicateTransaction (p : Packet).
Inductive SetActiveError : Type := SetActiveNotFound (pep : EltPep) | SetActiveNotPending (pep : EltPep).
Inductive RemoveError : Type := RemoveNotFound.

Definition elt_new : EndpointLookupTable := mk_elt ∅ ∅.

(** [pending.insert] keeps the key it has and drops the new one. *)
Definition insert_pending (ms : Mgrs) (t : EndpointLookupTable) (ft : FiveTuple) (init_packet : Packet)
    (txn : TxnHandle) : outcome (Mgrs * EndpointLookupTable * (InsertPendingError + unit)) :=
  match table t !! ft with
  | Some _ => Ret (ms, t, inl (AlreadyPending init_packet))
  | None =>
      r ← handle_clone ms txn;
      let '(ms, key) := r in
      if decide (is_Some (pending t !! key)) then
        ms ← drop_handle ms key;
        Ret (ms, mk_elt (table t) (<[key := ft]> (pending t)), inl (DuplicateTransaction init_packet))
      else
        r ← handle_clone ms txn;
        let '(ms, txn') := r in
        Ret (ms, mk_elt (<[ft := Pending init_packet txn']> (table t)) (<[key := ft]> (pending t)), inr tt)
  end.

Definition lookup_pending (t : EndpointLookupTable) (txn : TxnHandle) : option FiveTuple := pending t !! txn.

(** [assert!(matches!(pending.remove(&txn), Some((_, ft)) if &ft == five_tuple))],
    which drops the key. *)
Definition remove_pending (ms : Mgrs) (p : gmap TxnHandle FiveTuple) (txn : TxnHandle) (ft : FiveTuple)
    : outcome (Mgrs * gmap TxnHandle FiveTuple) :=
  if decide (p !! txn = Some ft) then ms ← drop_handle ms txn; Ret (ms, delete txn p) else Panic.

Definition set_active (ms : Mgrs) (t : EndpointLookupTable) (ft : FiveTuple) (pep : EltPep)
    : outcome (Mgrs * EndpointLookupTable * (SetActiveError + Packet)) :=
  match table t !! ft with
  | None => Ret (ms, t, inl (SetActiveNotFound pep))
  | Some (Active _) => Ret (ms, t, inl (SetActiveNotPending pep))
  | Some (Pending packet txn) =>
      r ← remove_pending ms (pending t) txn ft;
      let '(ms, p) := r in
      ms ← drop_handle ms txn;
      Ret (ms, mk_elt (<[ft := Active pep]> (table t)) p, inr packet)
  end.

(** The entry is given to the caller, with the handle in it. *)
Definition elt_remove (ms : Mgrs) (t : EndpointLookupTable) (ft : FiveTuple)
    : outcome (Mgrs * EndpointLookupTable * (RemoveError + EltEntry)) :=
  match table t !! ft with
  | None => Ret (ms, t, inl RemoveNotFound)
  | Some entry =>
      r ← match entry with
          | Pending _ txn => remove_pending ms (pending t) txn ft
          | Active _ => Ret (ms, pending t)
          end;
      Ret (r.1, mk_elt (delete ft (table t)) r.2, inr entry)
  end.

Definition entry_handles (e : EltEntry) : list TxnHandle :=
  match e with Pending _ txn => [txn] | Active _ => [] end.

Definition table_handles : gmap FiveTuple EltEntry → list TxnHandle := map_handles (λ kv, entry_handles kv.2).
Definition pending_handles : gmap TxnHandle FiveTuple → list TxnHandle := map_handles (λ kv, [kv.1]).

(** The handles the table owns. *)
Definition elt_handles (t : EndpointLookupTable) : list TxnHandle :=
  table_handles (table t) ++ pending_handles (pending t).

Definition elt_clear (ms : Mgrs) (t : EndpointLookupTable) : outcome (Mgrs * EndpointLookupTable) :=
  ms ← drop_handles ms (elt_handles t); Ret (ms, elt_new).

(** ** Dock lookup table *)

Record DltPep : Type := mk_dlt_pep {
  dlt_tc : Ip5TupleTc;
  dlt_a2a_shared_secret : option SharedSecret;
  dlt_a2a_micv_key : option bytes;
}.

Definition dlt_pep_new (tc : Ip5TupleTc) (secret : option SharedSecret) : DltPep :=
  mk_dlt_pep tc secret (derive_key <$> secret).

Definition DOCK_LOOKUP_TABLE_SIZE : Z := Z.shiftl 1 20.
Definition DockLookupTable : Type := slab DltPep.
Definition dlt_new : DockLookupTable := with_fixed_capacity DOCK_LOOKUP_TABLE_SIZE.
Definition dlt_get (t : DockLookupTable) (tether_id : Z) : option DltPep := slab_get t (stream_key tether_id).
Definition dlt_insert (t : DockLookupTable) (pep : DltPep) : option (Z * DockLookupTable) :=
  '(k, t) ← slab_insert t pep; Some (key_stream k, t).
Definition dlt_remove (t : DockLookupTable) (tether_id : Z) : DockLookupTable :=
  slab_remove t (stream_key tether_id).
Definition dlt_clear (t : DockLookupTable) : DockLookupTable := slab_clear t.

(** ** The adapter: what binds touch *)

Record AdapterPeer : Type := mk_ad_peer { ap_txn_mgr : Z; ap_ready : bool }.

Inductive AdapterMsg : Type :=
| SendBindActorAddressRequest (link_id txn_id l3 : Z) (packet_body : bytes)
| SendBindEgressStreamSuccess (link_id txn_id tether_id : Z)
| SendBindEgressStreamError (link_id txn_id : Z).

Record Adapter : Type := mk_adapter {
  ad_mgrs : Mgrs;
  ad_peers : gmap Z AdapterPeer;
  elt : EndpointLookupTable;
  dlt : DockLookupTable;
  (** The tasks that await the fate of a bind request, by the handle they hold. *)
  tasks : list TxnHandle;
  requeue : list Packet;
  requeue_capacity : nat;
  ad_counters : ManagementCounters;
  ad_out : list AdapterMsg;
}.

Definition with_elt (a : Adapter) (ms : Mgrs) (t : EndpointLookupTable) : Adapter :=
  mk_adapter ms (ad_peers a) t (dlt a) (tasks a) (requeue a) (requeue_capacity a) (ad_counters a) (ad_out a).
Definition with_dlt (a : Adapter) (t : DockLookupTable) : Adapter :=
  mk_adapter (ad_mgrs a) (ad_peers a) (elt a) t (tasks a) (requeue a) (requeue_capacity a) (ad_counters a) (ad_out a).
Definition with_tasks (a : Adapter) (l : list TxnHandle) : Adapter :=
  mk_adapter (ad_mgrs a) (ad_peers a) (elt a) (dlt a) l (requeue a) (requeue_capacity a) (ad_counters a) (ad_out a).
Definition ad_count (a : Adapter) (c : ManagementCounterType) : Adapter :=
  mk_adapter (ad_mgrs a) (ad_peers a) (elt a) (dlt a) (tasks a) (requeue a) (requeue_capacity a)
    (increase_by (ad_counters a) c 1) (ad_out a).
Definition ad_send (a : Adapter) (m : AdapterMsg) : Adapter :=
  mk_adapter (ad_mgrs a) (ad_peers a) (elt a) (dlt a) (tasks a) (requeue a) (requeue_capacity a)
    (ad_counters a) (ad_out a ++ [m]).

(** [actor_output_requeue.try_enqueue_packet] *)
Definition requeue_packet (a : Adapter) (p : Packet) : Adapter :=
  if (length (requeue a) <? requeue_capacity a)%nat
  then mk_adapter (ad_mgrs a) (ad_peers a) (elt a) (dlt a) (tasks a) (requeue a ++ [p]) (requeue_capacity a)
         (ad_counters a) (ad_out a)
  else ad_count a QueueBackpressure.

Inductive InstallTetherError : Type := NoSuchTransaction.

Definition install_tether (a : Adapter) (txn : TxnHandle) (tether_id : Z) (tc : Ip5TupleTc)
    (peer_key : option PublicKey) : outcome (Adapter * (InstallTetherError + unit)) :=
  match lookup_pending (elt a) txn with
  | None => Ret (a, inl NoSuchTransaction)
  | Some ft =>
      if negb (classify_5t tc ft) then
        r ← elt_remove (ad_mgrs a) (elt a) ft;
        match r with
        | (ms, t, inr e) => ms ← drop_handles ms (entry_handles e); Ret (with_elt a ms t, inr tt)
        | (_, _, inl _) => Panic
        end
      else
        let pep := elt_pep_new (compression_mode tc) tether_id (diffie_hellman <$> peer_key) in
        r ← set_active (ad_mgrs a) (elt a) ft pep;
        match r with
        | (ms, t, inl _) => Ret (with_elt a ms t, inl NoSuchTransaction)
        | (ms, t, inr initial_packet) => Ret (requeue_packet (with_elt a ms t) initial_packet, inr tt)
        end
  end.

Definition deny_tether (a : Adapter) (txn : TxnHandle) : outcome (Adapter * (InstallTetherError + unit)) :=
  match lookup_pending (elt a) txn with
  | None => Ret (a, inl NoSuchTransaction)
  | Some ft =>
      r ← elt_remove (ad_mgrs a) (elt a) ft;
      match r with
      | (ms, t, inr e) => ms ← drop_handles ms (entry_handles e); Ret (with_elt a ms t, inr tt)
      | (ms, t, inl _) => Ret (with_elt a ms t, inl NoSuchTransaction)
      end
  end.

Definition bind_egress_stream (a : Adapter) (dock_link_id txn_id : Z) (tc : Ip5TupleTc) (peer_key : option PublicKey)
    : Adapter :=
  match dlt_insert (dlt a) (dlt_pep_new tc (diffie_hellman <$> peer_key)) with
  | Some (tid, t) => ad_send (with_dlt a t) (SendBindEgressStreamSuccess dock_link_id txn_id tid)
  | None => ad_send a (SendBindEgressStreamError dock_link_id txn_id)
  end.

Definition adapter_unbind_stream (a : Adapter) (stream_id : Z) : Adapter := with_dlt a (dlt_remove (dlt a) stream_id).

(** *** Requesting a bind *)

(** [DOCK_LINK_ID] *)
Definition DOCK_LINK_ID : Z := 2.

(** [is_link_local] is [IpAddress::is_v6_unicast_link_local]; [adapter_mode]
    and [owns] are [ph_mode == Adapter] and [adapter_owns_address]. *)
Definition do_request_tether_id (is_link_local owns : IpAddress → bool) (adapter_mode : bool) (a : Adapter) (pkt : Packet)
    : outcome Adapter :=
  let ft := five_tuple (metadata pkt) in
  if is_link_local (dst_address ft) || is_link_local (src_address ft) then Ret a
  else
    match ad_peers a !! DOCK_LINK_ID with
    | None => Ret a
    | Some peer =>
        if negb (ap_ready peer) then Ret (ad_count a DroppedNoSA)
        else if adapter_mode && negb (owns (src_address ft)) then Ret (ad_count a DroppedNoSA)
        else
          match ad_mgrs a !! ap_txn_mgr peer with
          | None => Panic
          | Some m =>
              match try_open (ap_txn_mgr peer) m with
              | (None, _) => Ret (ad_count a QueueBackpressure)
              | (Some txn, m) =>
                  r ← insert_pending (<[ap_txn_mgr peer := m]> (ad_mgrs a)) (elt a) ft pkt txn;
                  match r with
                  | (ms, t, inl (AlreadyPending _)) =>
                      ms ← drop_handle ms txn;
                      Ret (ad_count (with_elt a ms t) DroppedAwaitingBind)
                  | (_, _, inl (DuplicateTransaction _)) => Panic
                  | (ms, t, inr _) =>
                      Ret (ad_send (with_tasks (with_elt a ms t) (txn :: tasks a))
                             (SendBindActorAddressRequest DOCK_LINK_ID (id txn) (l3_type ft) (body MIN_BODY_OFFSET pkt)))
                  end
              end
          end
    end.

Inductive RequestFate : Type := FateAcked | FateCanceled | FateLinkClosed.

(** The task that sent the request learns what became of it. *)
Definition bind_request_task (a : Adapter) (k : nat) (fate : RequestFate) : outcome Adapter :=
  match tasks a !! k with
  | None => Ret a
  | Some txn =>
      r ← match fate with FateCanceled => deny_tether a txn | _ => Ret (a, inr tt) end;
      match r with
      | (_, inl _) => Panic
      | (a, inr _) => ms ← drop_handle (ad_mgrs a) txn; Ret (with_tasks (with_elt a ms (elt a)) (delete k (tasks a)))
      end
  end.

(** *** The bind response *)

Inductive HandleMgmtError : Type := HErrBadStructure | HErrUnknownTransaction | HErrLinkClosed.

Inductive BindResponse : Type :=
| BindSuccess (tc : Ip5TupleTc) (peer_key : option PublicKey)
| BindOther (reason : bytes).

(** The key of a bind message: a 16-bit length, 0 for none, and 32 bytes. *)
Definition parse_peer_key (buf : bytes) : option (option PublicKey) :=
  if (length buf <? 2)%nat then None
  else
    let key_len := be_get (take 2 buf) in
    let buf := drop 2 buf in
    if key_len =? 0 then Some None
    else if zlen buf <? key_len then None
    else if key_len =? 32 then Some (Some (key_from_bytes (take 32 buf))) else None.

(** [Tcst] of the [zpr] crate, its wire form, and [matches!(_, Tcst::Ip5Tuple)]. *)
Context {Tcst : Type} (tcst_ : packed Tcst) (is_ip5tuple : Tcst → bool).

Definition parse_bind_response (buf : bytes) : outcome (option BindResponse) :=
  match read_from_prefix zdpBindActorAddressResponseHeader buf with
  | None => Ret None
  | Some (hdr, buf) =>
      if bind_status_code hdr =? response_code ResponseSuccess then
        match read_from_prefix tcst_ buf with
        | None => Ret None
        | Some (tcst, buf) =>
            if negb (is_ip5tuple tcst) then Ret None
            else
              r ← deserialize buf;
              match r with
              | None => Ret None
              | Some (tc, buf) => Ret (BindSuccess tc <$> parse_peer_key buf)
              end
        end
      else if bind_status_code hdr =? response_code ResponseOther then
        if zlen buf <? bind_info_len hdr then Ret None
        else
          let msg := take (Z.to_nat (bind_info_len hdr)) buf in
          Ret (if is_str msg then Some (BindOther msg) else None)
      else Ret None
  end.

(** [link_id] and [stream_id] are the packet's ingress link and stream. *)
Definition handle_bind_actor_address_response (a : Adapter) (link_id txn_id stream_id : Z) (buf : bytes)
    : outcome (Adapter * (HandleMgmtError + unit)) :=
  match ad_peers a !! link_id with
  | None => Ret (a, inl HErrLinkClosed)
  | Some peer =>
      match ad_mgrs a !! ap_txn_mgr peer ≫= (λ m, txn_get (ap_txn_mgr peer) m txn_id) with
      | None => Ret (a, inl HErrUnknownTransaction)
      | Some (txn, m) =>
          let a := with_elt a (<[ap_txn_mgr peer := m]> (ad_mgrs a)) (elt a) in
          p ← parse_bind_response buf;
          r ← match p with
              | None => Ret (a, inl HErrBadStructure)
              | Some resp =>
                  r ← match resp with
                      | BindSuccess tc key => install_tether a txn stream_id tc key
                      | BindOther _ => deny_tether a txn
                      end;
                  Ret (r.1, match r.2 with inl _ => inl HErrUnknownTransaction | inr _ => inr tt end)
              end;
          let '(a, res) := r in
          ms ← drop_handle (ad_mgrs a) txn;
          Ret (with_elt a ms (elt a), res)
      end
  end.

(** ** Handles in the table *)

Lemma table_handles_insert h m ft e :
  m !! ft = None → refs h (table_handles (<[ft := e]> m)) = (refs h (entry_handles e) + refs h (table_handles m))%nat.
Proof. apply map_handles_insert. Qed.

Lemma table_handles_delete h m ft e :
  m !! ft = Some e → refs h (table_handles m) = (refs h (entry_handles e) + refs h (table_handles (delete ft m)))%nat.
Proof. apply (map_handles_delete (λ kv, entry_handles kv.2)). Qed.

Lemma pending_handles_insert h p txn ft :
  p !! txn = None → refs h (pending_handles (<[txn := ft]> p)) = (is_handle h txn + refs h (pending_handles p))%nat.
Proof. intros Hp. unfold pending_handles. rewrite map_handles_insert by done. simpl. autorewrite with refs. lia. Qed.

Lemma pending_handles_delete h p txn ft :
  p !! txn = Some ft → refs h (pending_handles p) = (is_handle h txn + refs h (pending_handles (delete txn p)))%nat.
Proof. intros Hp. unfold pending_handles. rewrite (map_handles_delete _ h p txn ft Hp). simpl. autorewrite with refs. lia. Qed.

(** The two maps agree: a flow is pending on a transaction exactly when the
    transaction is recorded for the flow. *)
Definition elt_ok (t : EndpointLookupTable) : Prop :=
  ∀ ft txn, (∃ p, table t !! ft = Some (Pending p txn)) ↔ pending t !! txn = Some ft.

Lemma remove_pending_ok ms p txn ft hs :
  p !! txn = Some ft → accounted ms (txn :: hs) →
  ∃ ms', remove_pending ms p txn ft = Ret (ms', delete txn p) ∧ accounted ms' hs ∧ dom ms' = dom ms.
Proof.
  intros Hp Ha. unfold remove_pending. rewrite decide_True by done.
  apply drop_handle_accounted in Ha as (ms' & -> & Ha & Hd). by exists ms'.
Qed.

Lemma elt_ok_remove t ft txn p :
  elt_ok t → table t !! ft = Some (Pending p txn) → ∀ e, (∀ p' txn', e ≠ Some (Pending p' txn')) →
  elt_ok (mk_elt (partial_alter (λ _, e) ft (table t)) (delete txn (pending t))).
Proof.
  intros Hok Hft e He ft' txn'. simpl. assert (pending t !! txn = Some ft) as Hp by (apply Hok; eauto).
  rewrite lookup_delete_Some. destruct (decide (ft' = ft)) as [->|Hne].
  - rewrite lookup_partial_alter_eq. split; [intros (p' & Hp'); by destruct (He p' txn')|].
    intros [Hne Hp']. apply Hok in Hp' as (p' & Hp'). congruence.
  - rewrite lookup_partial_alter_ne by done. rewrite (Hok ft' txn'). split; [|naive_solver].
    intros Hp'. split; [|done]. congruence.
Qed.

Lemma elt_remove_ok ms t ft hs :
  elt_ok t → accounted ms (elt_handles t ++ hs) →
  match table t !! ft with
  | None => elt_remove ms t ft = Ret (ms, t, inl RemoveNotFound)
  | Some e => ∃ ms' t', elt_remove ms t ft = Ret (ms', t', inr e) ∧ elt_ok t' ∧ table t' = delete ft (table t) ∧
      (∀ txn, pending t' !! txn = Some ft → False) ∧
      (∀ txn ft', ft' ≠ ft → pending t' !! txn = Some ft' ↔ pending t !! txn = Some ft') ∧
      accounted ms' (entry_handles e ++ elt_handles t' ++ hs) ∧ dom ms' = dom ms
  end.
Proof.
  intros Hok Ha. unfold elt_remove. destruct (table t !! ft) as [e|] eqn:Hft; [|done].
  destruct e as [p txn|pep]; simpl.
  - assert (pending t !! txn = Some ft) as Hp by (apply Hok; eauto).
    destruct (remove_pending_ok ms (pending t) txn ft
                (txn :: elt_handles (mk_elt (delete ft (table t)) (delete txn (pending t))) ++ hs) Hp) as (ms' & -> & Ha' & Hd).
    { refine (accounted_refs _ _ _ _ Ha). intros h. unfold elt_handles. autorewrite with refs.
      rewrite (table_handles_delete h (table t) ft _ Hft), (pending_handles_delete h (pending t) txn ft Hp). simpl.
      autorewrite with refs. lia. }
    simpl. eexists _, _. split; [done|]. split; [by apply (elt_ok_remove t ft txn p)|]. split; [done|]. simpl.
    assert (∀ txn', pending t !! txn' = Some ft → txn' = txn) as Huniq by (intros txn' (p' & ?)%Hok; congruence).
    split; [intros txn' [Hne Hp']%lookup_delete_Some; by apply Huniq in Hp'|].
    split; [intros txn' ft' Hne; rewrite lookup_delete_Some; naive_solver|]. done.
  - eexists _, _. split; [done|]. split; [|split; [done|]].
    + intros ft' txn'. simpl. rewrite <- (Hok ft' txn'). split; intros (p' & Hp').
      * apply lookup_delete_Some in Hp' as [_ Hp']. eauto.
      * exists p'. apply lookup_delete_Some. split; [|done]. intros ->. congruence.
    + simpl. split; [intros txn (p' & ?)%Hok; congruence|]. split; [done|]. split; [|done].
      refine (accounted_refs _ _ _ _ Ha). intros h. unfold elt_handles. autorewrite with refs.
      rewrite (table_handles_delete h (table t) ft _ Hft). simpl. autorewrite with refs. lia.
Qed.

(** A transaction has at most one handle in each map. *)
Lemma elt_handles_refs t h :
  elt_ok t → (refs h (elt_handles t) <= 2)%nat ∧ (pending t !! h = None → refs h (elt_handles t) = O).
Proof.
  intros Hok. unfold elt_handles. rewrite refs_app.
  assert (∀ p, p !! h = None → refs h (pending_handles p) = O) as Hp0.
  { intros p Hp. apply map_handles_zero. intros k ft Hk ->%list_elem_of_singleton. simpl in Hp. congruence. }
  assert (∀ m, (∀ ft p, m !! ft ≠ Some (Pending p h)) → refs h (table_handles m) = O) as Ht0.
  { intros m Hm. apply map_handles_zero. intros ft [p txn|] He Hin; [|by apply elem_of_nil in Hin].
    apply list_elem_of_singleton in Hin as ->. by destruct (Hm ft p). }
  destruct (pending t !! h) as [ft|] eqn:Hh; split; try done.
  - rewrite (pending_handles_delete h _ _ _ Hh), Hp0 by (apply lookup_delete_eq).
    apply Hok in Hh as (p & Hft). rewrite (table_handles_delete h _ _ _ Hft), Ht0.
    + simpl. autorewrite with refs. unfold is_handle. repeat destruct (decide _); lia.
    + intros ft' p' [Hne Hft']%lookup_delete_Some. apply Hne.
      assert (pending t !! h = Some ft) by (apply Hok; eauto). assert (pending t !! h = Some ft') by (apply Hok; eauto). congruence.
  - rewrite Hp0, Ht0 by (done || (intros ft p Hft; assert (pending t !! h = Some ft) by (apply Hok; eauto); congruence)). lia.
  - intros _. rewrite Hp0, Ht0 by (done || (intros ft p Hft; assert (pending t !! h = Some ft) by (apply Hok; eauto); congruence)). lia.
Qed.

(** Recording a flow under a newly opened transaction. *)
Lemma insert_pending_ok ms t ft p txn hs :
  elt_ok t → accounted ms (txn :: elt_handles t ++ hs) → is_Some (upgrade ms txn) →
  pending t !! txn = None → Z.of_nat (2 + refs txn hs) < U64_MOD →
  match table t !! ft with
  | Some _ => insert_pending ms t ft p txn = Ret (ms, t, inl (AlreadyPending p))
  | None =>
      let t' := mk_elt (<[ft := Pending p txn]> (table t)) (<[txn := ft]> (pending t)) in
      ∃ ms', insert_pending ms t ft p txn = Ret (ms', t', inr tt) ∧ elt_ok t' ∧
        accounted ms' (txn :: elt_handles t' ++ hs) ∧ dom ms' = dom ms
  end.
Proof.
  intros Hok Ha Hup Hnone Hn. unfold insert_pending. destruct (table t !! ft) as [e|] eqn:Hft; [done|]. simpl.
  pose proof (proj2 (elt_handles_refs t txn Hok) Hnone) as H0. set (hs1 := elt_handles t ++ hs) in *.
  assert (∀ ms1, (∀ a m, ms !! a = Some m → ∃ m', ms1 !! a = Some m' ∧ next_free m' = next_free m ∧ dom (open m') = dom (open m)) →
    is_Some (upgrade ms1 txn)) as Hup'.
  { intros ms1 Hsame. revert Hup. unfold upgrade. destruct (mgr txn) as [a|]; simpl; [|by intros []].
    destruct (ms !! a) as [m|] eqn:Hm; simpl; [|by intros []]. destruct (Hsame a m Hm) as (m' & -> & _). simpl. eauto. }
  assert (refs txn (txn :: hs1) = S (refs txn hs)) as R.
  { rewrite refs_add. unfold hs1, is_handle. rewrite decide_True, refs_app, H0 by done. done. }
  destruct (clone_accounted ms _ Ha txn) as (ms1 & h1 & -> & Ha1 & E1 & S1 & D1); [by left|rewrite R; lia|]. cbn [mbind outcome_bind].
  rewrite (E1 Hup) in *. rewrite decide_False by (rewrite Hnone; by intros []).
  destruct (clone_accounted ms1 _ Ha1 txn) as (ms2 & h2 & -> & Ha2 & E2 & _ & D2);
    [by left|rewrite refs_add, R; unfold is_handle; rewrite decide_True by done; lia|]. cbn [mbind outcome_bind].
  rewrite (E2 (Hup' ms1 S1)) in *. exists ms2. split; [done|]. split; [|split; [|congruence]].
  - intros ft' txn'. simpl. destruct (decide (ft' = ft)) as [->|Hf], (decide (txn' = txn)) as [->|Ht].
    + rewrite !lookup_insert_eq. naive_solver.
    + rewrite lookup_insert_eq, lookup_insert_ne by done. split; [intros (?&?); congruence|].
      intros (p' & ?)%Hok. congruence.
    + rewrite lookup_insert_ne, lookup_insert_eq by done. split; [|congruence].
      intros Hex. apply Hok in Hex. congruence.
    + rewrite !lookup_insert_ne by done. apply Hok.
  - refine (accounted_refs _ _ _ _ Ha2). intros h. unfold hs1, elt_handles. simpl. autorewrite with refs.
    rewrite table_handles_insert, pending_handles_insert by done. simpl. autorewrite with refs. lia.
Qed.

(** Completing a pending transaction. *)
Lemma set_active_ok ms t ft txn pep hs :
  elt_ok t → accounted ms (elt_handles t ++ hs) → pending t !! txn = Some ft →
  ∃ ms' p, let t' := mk_elt (<[ft := Active pep]> (table t)) (delete txn (pending t)) in
    set_active ms t ft pep = Ret (ms', t', inr p) ∧ elt_ok t' ∧ accounted ms' (elt_handles t' ++ hs) ∧ dom ms' = dom ms.
Proof.
  intros Hok Ha Hp. apply Hok in Hp as Hex. destruct Hex as (p & Hft). unfold set_active. rewrite Hft.
  set (t' := mk_elt (<[ft := Active pep]> (table t)) (delete txn (pending t))).
  destruct (remove_pending_ok ms (pending t) txn ft (txn :: elt_handles t' ++ hs) Hp) as (ms1 & -> & Ha1 & D1).
  { refine (accounted_refs _ _ _ _ Ha). intros h. unfold elt_handles, t'. simpl. autorewrite with refs.
    rewrite <- insert_delete_eq, table_handles_insert by (apply lookup_delete_eq).
    rewrite (table_handles_delete h (table t) ft _ Hft), (pending_handles_delete h (pending t) txn ft Hp). simpl.
    autorewrite with refs. lia. }
  cbn [mbind outcome_bind]. apply drop_handle_accounted in Ha1 as (ms2 & -> & Ha2 & D2). cbn [mbind outcome_bind].
  exists ms2, p. split; [done|]. split; [by apply (elt_ok_remove t ft txn p)|]. split; [done|congruence].
Qed.

(** ** The adapter as a system

    Any sequence of packets to bind, bind responses (arbitrary bytes on any
    link), fates of requests, links that come, go and become ready, and resets
    of the actor session. *)

Inductive AdapterOp : Type :=
| AoRequest (is_link_local owns : IpAddress → bool) (adapter_mode : bool) (pkt : Packet)
| AoResponse (link_id txn_id stream_id : Z) (buf : bytes)
| AoTask (k : nat) (fate : RequestFate)
| AoReset
| AoConnect (link_id mgr : Z) (ready : bool)
| AoDisconnect (link_id : Z)
| AoBindEgress (link_id txn_id : Z) (tc : Ip5TupleTc) (key : option PublicKey)
| AoUnbind (stream_id : Z).

Definition with_peers (a : Adapter) (ms : Mgrs) (ps : gmap Z AdapterPeer) : Adapter :=
  mk_adapter ms ps (elt a) (dlt a) (tasks a) (requeue a) (requeue_capacity a) (ad_counters a) (ad_out a).

(** [ActorAuthorization] clears both tables when its link goes down. *)
Definition reset_tables (a : Adapter) : outcome Adapter :=
  r ← elt_clear (ad_mgrs a) (elt a);
  Ret (with_dlt (with_elt a r.1 r.2) (dlt_clear (dlt a))).

(** A peer comes with a transaction manager of its own, at an address at which
    no manager is alive or pointed to. *)
Definition adapter_connect (a : Adapter) (link_id m : Z) (ready : bool) : Adapter :=
  if decide (is_Some (ad_mgrs a !! m) ∨ is_Some (ad_peers a !! link_id) ∨
             Some m ∈ mgr <$> elt_handles (elt a) ++ tasks a) then a
  else with_peers a (<[m := txn_mgr_new]> (ad_mgrs a)) (<[link_id := mk_ad_peer m ready]> (ad_peers a)).

Definition adapter_disconnect (a : Adapter) (link_id : Z) : Adapter :=
  match ad_peers a !! link_id with
  | None => a
  | Some p => with_peers a (delete (ap_txn_mgr p) (ad_mgrs a)) (delete link_id (ad_peers a))
  end.

Definition adapter_exec (a : Adapter) (op : AdapterOp) : outcome Adapter :=
  match op with
  | AoRequest is_link_local owns adapter_mode pkt => do_request_tether_id is_link_local owns adapter_mode a pkt
  | AoResponse link_id txn_id stream_id buf =>
      r ← handle_bind_actor_address_response a link_id txn_id stream_id buf; Ret r.1
  | AoTask k fate => bind_request_task a k fate
  | AoReset => reset_tables a
  | AoConnect link_id m ready => Ret (adapter_connect a link_id m ready)
  | AoDisconnect link_id => Ret (adapter_disconnect a link_id)
  | AoBindEgress link_id txn_id tc key => Ret (bind_egress_stream a link_id txn_id tc key)
  | AoUnbind stream_id => Ret (adapter_unbind_stream a stream_id)
  end.

Fixpoint adapter_run (a : Adapter) (ops : list AdapterOp) : outcome Adapter :=
  match ops with
  | [] => Ret a
  | op :: ops => a ← adapter_exec a op; adapter_run a ops
  end.

Definition adapter_new (capacity : nat) : Adapter :=
  mk_adapter ∅ ∅ elt_new dlt_new [] [] capacity (λ _, 0) [].

(** *** Where the entries of the table come from *)

(** The flows of a classifier; a port of 0 is any port. *)
Definition covers (tc : Ip5TupleTc) (ft : FiveTuple) : Prop :=
  let t := tc_five_tuple tc in
  l3_type ft = l3_type t ∧ src_address ft = src_address t ∧ dst_address ft = dst_address t ∧ l4_protocol ft = l4_protocol t ∧
  (src_port t = 0 ∨ src_port ft = src_port t) ∧ (dst_port t = 0 ∨ dst_port ft = dst_port t).

Lemma classify_5t_covers tc ft : classify_5t tc ft = true ↔ covers tc ft.
Proof.
  unfold classify_5t, covers. cbv zeta. destruct (Z.eqb_spec (l3_type ft) (l3_type (tc_five_tuple tc))); simpl; [|intuition congruence].
  case_bool_decide; simpl; [|intuition congruence]. case_bool_decide; simpl; [|intuition congruence].
  destruct (Z.eqb_spec (l4_protocol ft) (l4_protocol (tc_five_tuple tc))); simpl; [|intuition congruence].
  destruct (Z.eqb_spec (src_port (tc_five_tuple tc)) 0), (Z.eqb_spec (src_port ft) (src_port (tc_five_tuple tc)));
    destruct (Z.eqb_spec (dst_port (tc_five_tuple tc)) 0), (Z.eqb_spec (dst_port ft) (dst_port (tc_five_tuple tc))); simpl; intuition congruence.
Qed.

(** The packet [p] asks for its flow: the flow is not link-local, and an adapter
    asks only for sources it owns. *)
Definition asks (op : AdapterOp) (ft : FiveTuple) (p : Packet) : Prop :=
  ∃ is_ll owns mode, op = AoRequest is_ll owns mode p ∧ ft = five_tuple (metadata p) ∧
    is_ll (dst_address ft) = false ∧ is_ll (src_address ft) = false ∧ (mode = true → owns (src_address ft) = true).

(** The response grants the flow: it answers the transaction on which the flow
    is pending, with success and a classifier that covers the flow, and the PEP
    is the response's: its stream, its classifier's mode, its key. *)
Definition grants (a : Adapter) (op : AdapterOp) (ft : FiveTuple) (pep : EltPep) : Prop :=
  ∃ link txn_id stream buf peer tc key, op = AoResponse link txn_id stream buf ∧ ad_peers a !! link = Some peer ∧
    lookup_pending (elt a) (mk_handle (Some (ap_txn_mgr peer)) txn_id) = Some ft ∧
    parse_bind_response buf = Ret (Some (BindSuccess tc key)) ∧ covers tc ft ∧
    pep = elt_pep_new (compression_mode tc) stream (diffie_hellman <$> key).

Definition enters (a : Adapter) (op : AdapterOp) (ft : FiveTuple) (e : EltEntry) : Prop :=
  match e with Pending p _ => asks op ft p | Active pep => grants a op ft pep end.

(** A step of the run, with no reset after it, made the entry. *)
Definition entered (capacity : nat) (ops : list AdapterOp) (ft : FiveTuple) (e : EltEntry) : Prop :=
  ∃ pre op post a, ops = pre ++ op :: post ∧ adapter_run (adapter_new capacity) pre = Ret a ∧ enters a op ft e ∧ AoReset ∉ post.

Definition entries (G : FiveTuple → EltEntry → Prop) (t : EndpointLookupTable) : Prop :=
  ∀ ft e, table t !! ft = Some e → G ft e.

(** What a response makes of the flow it answers. *)
Definition answered (resp : BindResponse) (stream : Z) (ft : FiveTuple) : option EltEntry :=
  match resp with
  | BindSuccess tc key =>
      if classify_5t tc ft then Some (Active (elt_pep_new (compression_mode tc) stream (diffie_hellman <$> key))) else None
  | BindOther _ => None
  end.

Record ad_inv (G : FiveTuple → EltEntry → Prop) (n : nat) (a : Adapter) : Prop := {
  ai_acc : accounted (ad_mgrs a) (elt_handles (elt a) ++ tasks a);
  ai_len : (length (tasks a) <= n)%nat;
  ai_ok : elt_ok (elt a);
  ai_entries : entries G (elt a);
  ai_peers l p : ad_peers a !! l = Some p → is_Some (ad_mgrs a !! ap_txn_mgr p);
  ai_inj l l' p p' : ad_peers a !! l = Some p → ad_peers a !! l' = Some p' → ap_txn_mgr p = ap_txn_mgr p' → l = l';
}.

(** Operations that leave the peers alone keep the invariant when the managers'
    addresses and the tables do. *)
Lemma ad_inv_step G G' n n' a a' :
  ad_inv G n a → ad_peers a' = ad_peers a → dom (ad_mgrs a') = dom (ad_mgrs a) →
  accounted (ad_mgrs a') (elt_handles (elt a') ++ tasks a') → (length (tasks a') <= n')%nat →
  elt_ok (elt a') → entries G' (elt a') → ad_inv G' n' a'.
Proof.
  intros [] Hp Hd Ha Hl Hok Hg. split; try done; rewrite Hp; [|done].
  intros l p Hlp. apply elem_of_dom. rewrite Hd. apply elem_of_dom. eauto.
Qed.

Lemma ad_inv_mono (G G' : FiveTuple → EltEntry → Prop) n n' a :
  (∀ ft e, G ft e → G' ft e) → (n <= n')%nat → ad_inv G n a → ad_inv G' n' a.
Proof. intros HG Hn Hinv. pose proof Hinv as []. eapply ad_inv_step; try done; [lia|]. intros ft e He. by apply HG, ai_entries0. Qed.

Lemma entries_delete G t ft p : entries G t → entries G (mk_elt (delete ft (table t)) p).
Proof. intros Hg ft' pep. simpl. intros [_ ?]%lookup_delete_Some. eauto. Qed.

Lemma entries_insert (G : FiveTuple → EltEntry → Prop) t ft e p : G ft e → entries G t → entries G (mk_elt (<[ft := e]> (table t)) p).
Proof. intros He Hg ft' e'. simpl. intros [[<- <-]|[_ ?]]%lookup_insert_Some; [done|eauto]. Qed.

(** Denying consumes the pending entry; it fails exactly when there is none. *)
Lemma deny_tether_ok a txn hs :
  elt_ok (elt a) → accounted (ad_mgrs a) (elt_handles (elt a) ++ hs) →
  match pending (elt a) !! txn with
  | None => deny_tether a txn = Ret (a, inl NoSuchTransaction)
  | Some ft => ∃ ms t, deny_tether a txn = Ret (with_elt a ms t, inr tt) ∧ elt_ok t ∧ table t = delete ft (table (elt a)) ∧
      accounted ms (elt_handles t ++ hs) ∧ dom ms = dom (ad_mgrs a)
  end.
Proof.
  intros Hok Ha. unfold deny_tether, lookup_pending. destruct (pending (elt a) !! txn) as [ft|] eqn:Hp; [|done].
  pose proof (elt_remove_ok _ _ ft hs Hok Ha) as Hr. apply Hok in Hp as (p & Hft). rewrite Hft in Hr.
  destruct Hr as (ms & t & -> & Hok' & Ht & _ & _ & Ha' & Hd). cbn [mbind outcome_bind].
  apply drop_handles_accounted in Ha' as (ms' & -> & Ha' & Hd'). eexists _, _. split; [done|].
  split; [done|]. split; [done|]. split; [done|congruence].
Qed.

Lemma install_tether_ok a txn tid tc key hs :
  elt_ok (elt a) → accounted (ad_mgrs a) (elt_handles (elt a) ++ hs) →
  match pending (elt a) !! txn with
  | None => install_tether a txn tid tc key = Ret (a, inl NoSuchTransaction)
  | Some ft => ∃ a', install_tether a txn tid tc key = Ret (a', inr tt) ∧ ad_peers a' = ad_peers a ∧ tasks a' = tasks a ∧
      elt_ok (elt a') ∧ table (elt a') = partial_alter (λ _, answered (BindSuccess tc key) tid ft) ft (table (elt a)) ∧
      accounted (ad_mgrs a') (elt_handles (elt a') ++ hs) ∧ dom (ad_mgrs a') = dom (ad_mgrs a)
  end.
Proof.
  intros Hok Ha. unfold install_tether, lookup_pending, answered.
  pose proof (deny_tether_ok a txn hs Hok Ha) as Hdeny. unfold deny_tether, lookup_pending in Hdeny.
  destruct (pending (elt a) !! txn) as [ft|] eqn:Hp; [|done]. destruct (classify_5t tc ft) eqn:Hc; simpl.
  - destruct (set_active_ok _ _ ft txn (elt_pep_new (compression_mode tc) tid (diffie_hellman <$> key)) hs Hok Ha Hp)
      as (ms & p & -> & Hok' & Ha' & Hd). cbn [mbind outcome_bind].
    exists (requeue_packet (with_elt a ms (mk_elt (<[ft:=Active (elt_pep_new (compression_mode tc) tid (diffie_hellman <$> key))]> (table (elt a)))
                                         (delete txn (pending (elt a))))) p). split; [done|].
    unfold requeue_packet. simpl. by destruct (length (requeue a) <? requeue_capacity a)%nat.
  - destruct Hdeny as (ms & t & Hd & Hok' & Ht & Ha' & Hdom).
    destruct (elt_remove (ad_mgrs a) (elt a) ft) as [[[ms1 t1] [|e]]|]; simpl in *; [done| |done].
    destruct (drop_handles ms1 (entry_handles e)) as [ms2|]; simpl in *; [|done]. injection Hd as -> ->.
    eexists. split; [done|]. done.
Qed.

(** Reading a bind response never panics. *)
Lemma deserialize_total buf : ∃ r, deserialize buf = Ret r.
Proof.
  unfold deserialize. destruct (read_from_prefix _ buf) as [[hdr l]|]; [|eauto].
  unfold buf_get_ipv4, buf_get_ipv6.
  destruct (negb (Z.land (tc_flags hdr) IPV4 =? 0)).
  - destruct (Nat.ltb_spec (length l) (2 * 4)); [eauto|]. destruct (Nat.ltb_spec (length l) 4); [lia|]. cbn [mbind outcome_bind].
    destruct (Nat.ltb_spec (length (drop 4 l)) 4) as [Hl|]; [rewrite length_drop in Hl; lia|]. cbn [mbind outcome_bind]. eauto.
  - destruct (Nat.ltb_spec (length l) (2 * 16)); [eauto|]. destruct (Nat.ltb_spec (length l) 16); [lia|]. cbn [mbind outcome_bind].
    destruct (Nat.ltb_spec (length (drop 16 l)) 16) as [Hl|]; [rewrite length_drop in Hl; lia|]. cbn [mbind outcome_bind]. eauto.
Qed.

Lemma parse_bind_response_total buf : ∃ r, parse_bind_response buf = Ret r.
Proof.
  unfold parse_bind_response. destruct (read_from_prefix _ buf) as [[hdr l]|]; [|eauto].
  destruct (_ =? _); [|destruct (_ =? _); [destruct (zlen l <? _)|]; eauto].
  destruct (read_from_prefix tcst_ l) as [[tcst l']|]; [|eauto]. destruct (negb _); [eauto|].
  destruct (deserialize_total l') as [[[tc rest]|] ->]; cbn [mbind outcome_bind]; eauto.
Qed.

(** *** Every operation keeps the invariant *)

Lemma request_inv G n is_ll owns mode a pkt :
  ad_inv G n a → Z.of_nat n + 4 < U64_MOD → (∀ ft txn, asks (AoRequest is_ll owns mode pkt) ft pkt → G ft (Pending pkt txn)) →
  ∃ a', do_request_tether_id is_ll owns mode a pkt = Ret a' ∧ ad_inv G (S n) a'.
Proof.
  intros Hinv Hn HG. pose proof Hinv as [Hacc Hlen Hok Hg Hpeers Hinj]. unfold do_request_tether_id.
  assert (∀ a', ad_inv G n a' → ad_inv G (S n) a') as Hmono by (intros ? []; split; auto).
  destruct (_ || _) eqn:Hll; [eauto|]. apply orb_false_iff in Hll as [Hdst Hsrc]. destruct (ad_peers a !! DOCK_LINK_ID) as [peer|] eqn:Hp; [|eauto].
  destruct (negb (ap_ready peer)); [eexists; split; [done|]; by apply Hmono; destruct Hinv|].
  destruct (mode && _) eqn:Hown; [eexists; split; [done|]; by apply Hmono; destruct Hinv|].
  destruct (Hpeers _ _ Hp) as [m Hm]. rewrite Hm.
  pose proof (try_open_accounted _ _ Hacc _ m Hm) as Ho. destruct (try_open (ap_txn_mgr peer) m) as [[txn|] m'].
  2: { eexists; split; [done|]. by apply Hmono; destruct Hinv. }
  destruct Ho as (Hfresh & Htxn & Ho). set (ms := <[ap_txn_mgr peer := m']> (ad_mgrs a)) in *.
  assert (dom ms = dom (ad_mgrs a)) as Hd by (apply dom_insert_lookup_L; by eexists).
  rewrite refs_app in Hfresh. assert (pending (elt a) !! txn = None) as Hnone.
  { destruct (pending (elt a) !! txn) as [ft|] eqn:Hpt; [|done].
    unfold elt_handles in Hfresh. rewrite refs_app, (pending_handles_delete txn _ _ _ Hpt) in Hfresh.
    unfold is_handle in Hfresh. rewrite decide_True in Hfresh by done. lia. }
  pose proof (insert_pending_ok ms (elt a) (five_tuple (metadata pkt)) pkt txn (tasks a) Hok Ho) as Hins.
  destruct (table (elt a) !! five_tuple (metadata pkt)) as [e|] eqn:Hft.
  - rewrite Hins; [|subst txn; unfold upgrade; simpl; unfold ms; rewrite lookup_insert_eq; by eexists|done|lia].
    cbn [mbind outcome_bind]. apply drop_handle_accounted in Ho as (ms' & -> & Ha' & Hd'). cbn [mbind outcome_bind].
    eexists. split; [done|]. apply (ad_inv_step G G n _ a); try done; simpl; [congruence|lia].
  - destruct Hins as (ms' & -> & Hok' & Ha' & Hd');
      [subst txn; unfold upgrade; simpl; unfold ms; rewrite lookup_insert_eq; by eexists|done|lia|].
    cbn [mbind outcome_bind]. eexists. split; [done|]. apply (ad_inv_step G G n _ a); try done; simpl; [congruence| |lia|].
    + account Ha'.
    + apply entries_insert; [|done]. apply HG. exists is_ll, owns, mode. split_and!; try done.
      intros ->. simpl in Hown. by destruct (owns _).
Qed.

(** The flow that a response on the link and transaction answers. *)
Definition answers (a : Adapter) (link_id txn_id : Z) : option FiveTuple :=
  ad_peers a !! link_id ≫= λ peer, lookup_pending (elt a) (mk_handle (Some (ap_txn_mgr peer)) txn_id).

(** What a response does: it settles the flow it answers, if it can be read, and
    nothing else; otherwise it is refused. *)
Definition response_effect (a : Adapter) (link_id txn_id stream_id : Z) (buf : bytes) (a' : Adapter) (r : HandleMgmtError + unit) : Prop :=
  match answers a link_id txn_id, parse_bind_response buf with
  | Some ft, Ret (Some resp) => table (elt a') = partial_alter (λ _, answered resp stream_id ft) ft (table (elt a)) ∧ r = inr tt
  | _, _ => table (elt a') = table (elt a) ∧ ∃ e, r = inl e
  end.

Lemma response_step G n a link_id txn_id stream_id buf :
  ad_inv G n a → Z.of_nat n + 4 < U64_MOD →
  ∃ a' r, handle_bind_actor_address_response a link_id txn_id stream_id buf = Ret (a', r) ∧ response_effect a link_id txn_id stream_id buf a' r ∧
    ∀ G', entries G' (elt a') → ad_inv G' n a'.
Proof.
  intros Hinv Hn. pose proof Hinv as [Hacc Hlen Hok Hg Hpeers Hinj]. unfold handle_bind_actor_address_response, response_effect, answers.
  assert (∀ G', entries G' (elt a) → ad_inv G' n a) as Hsame by (intros; by eapply ad_inv_step).
  destruct (ad_peers a !! link_id) as [peer|] eqn:Hp; [|eexists _, _; split; [done|]; simpl; eauto]. destruct (Hpeers _ _ Hp) as [m Hm]. rewrite Hm. simpl.
  set (h := mk_handle (Some (ap_txn_mgr peer)) txn_id). unfold lookup_pending.
  destruct (txn_get (ap_txn_mgr peer) m txn_id) as [[txn m']|] eqn:Hget.
  2: { destruct (pending (elt a) !! h) as [ft|] eqn:Hh; [|eauto 10]. exfalso. pose proof (acc_refs _ _ Hacc _ m txn_id Hm) as Ho. fold h in Ho.
    unfold txn_get in Hget. unfold elt_handles in Ho. rewrite !refs_app, (pending_handles_delete h _ _ _ Hh) in Ho.
    unfold is_handle in Ho. rewrite decide_True in Ho by done. rewrite Ho in Hget. unfold entry in Hget. by rewrite !Nat.add_succ_r in Hget. }
  destruct (get_accounted _ _ Hacc _ m txn_id txn m' Hm) as [-> Ha]; [|done|].
  { fold h. rewrite refs_app. pose proof (proj1 (elt_handles_refs _ h Hok)). pose proof (refs_le_length h (tasks a)). lia. }
  fold h in Ha |- *. set (ms := <[ap_txn_mgr peer := m']> (ad_mgrs a)) in *.
  assert (dom ms = dom (ad_mgrs a)) as Hd by (apply dom_insert_lookup_L; by eexists).
  destruct (parse_bind_response_total buf) as [resp ->]. cbn [mbind outcome_bind].
  set (a1 := with_elt a ms (elt a)).
  assert (accounted (ad_mgrs a1) (elt_handles (elt a1) ++ h :: tasks a)) as Ha1 by (unfold a1; simpl; account Ha).
  assert (∀ a2 (r : HandleMgmtError + unit) (P : gmap FiveTuple EltEntry → (HandleMgmtError + unit) → Prop), ad_peers a2 = ad_peers a → tasks a2 = tasks a →
    elt_ok (elt a2) → P (table (elt a2)) r → accounted (ad_mgrs a2) (elt_handles (elt a2) ++ h :: tasks a) → dom (ad_mgrs a2) = dom (ad_mgrs a) →
    ∃ a' r', (ms2 ← drop_handle (ad_mgrs a2) h; Ret (with_elt a2 ms2 (elt a2), r)) = Ret (a', r') ∧ P (table (elt a')) r' ∧
      ∀ G', entries G' (elt a') → ad_inv G' n a') as Hfin.
  { intros a2 r P E1 E2 Hok2 HP Ha2 Hd2.
    assert (accounted (ad_mgrs a2) (h :: elt_handles (elt a2) ++ tasks a)) as Ha3 by account Ha2.
    apply drop_handle_accounted in Ha3 as (ms2 & -> & Ha3 & Hd3). cbn [mbind outcome_bind]. eexists _, _. split; [done|]. split; [done|].
    intros G' HG'. apply (ad_inv_step G _ n _ a); simpl; try done; [congruence|by rewrite E2|by rewrite E2]. }
  destruct resp as [[tc key|msg]|]; cbn [mbind outcome_bind].
  - pose proof (install_tether_ok a1 h stream_id tc key (h :: tasks a) Hok Ha1) as Hi. change (pending (elt a)) with (pending (elt a1)).
    destruct (pending (elt a1) !! h) as [ft|].
    + destruct Hi as (a2 & -> & E1 & E2 & Hok2 & Ht2 & Ha2 & Hd2). cbn [mbind outcome_bind]. simpl.
      apply (Hfin _ _ (λ t r, t = _ ∧ r = _)); try done. exact (eq_trans Hd2 Hd).
    + rewrite Hi. cbn [mbind outcome_bind]. apply (Hfin a1 _ (λ t r, t = _ ∧ ∃ e, r = inl e)); try done; eauto.
  - pose proof (deny_tether_ok a1 h (h :: tasks a) Hok Ha1) as Hi. change (pending (elt a)) with (pending (elt a1)).
    destruct (pending (elt a1) !! h) as [ft|].
    + destruct Hi as (ms2 & t & -> & Hok2 & Ht2 & Ha2 & Hd2). cbn [mbind outcome_bind].
      apply (Hfin (with_elt a1 ms2 t) _ (λ t r, t = _ ∧ r = _)); try done. exact (eq_trans Hd2 Hd).
    + rewrite Hi. cbn [mbind outcome_bind]. apply (Hfin a1 _ (λ t r, t = _ ∧ ∃ e, r = inl e)); try done; eauto.
  - destruct (pending (elt a) !! h) as [ft|]; apply (Hfin a1 _ (λ t r, t = _ ∧ ∃ e, r = inl e)); try done; eauto.
Qed.

Lemma response_inv (G : FiveTuple → EltEntry → Prop) n a link_id txn_id stream_id buf :
  ad_inv G n a → Z.of_nat n + 4 < U64_MOD → (∀ ft pep, grants a (AoResponse link_id txn_id stream_id buf) ft pep → G ft (Active pep)) →
  ∃ a' r, handle_bind_actor_address_response a link_id txn_id stream_id buf = Ret (a', r) ∧ ad_inv G n a'.
Proof.
  intros Hinv Hn HG. destruct (response_step G n a link_id txn_id stream_id buf Hinv Hn) as (a' & r & E & Heff & Hi). exists a', r. split; [done|].
  apply Hi. pose proof (ai_entries _ _ _ Hinv) as Hg. unfold response_effect in Heff.
  assert (table (elt a') = table (elt a) → entries G (elt a')) as Hsame by (intros Et ft e; rewrite Et; apply Hg).
  destruct (answers a link_id txn_id) as [ft|] eqn:Ha; [|apply Hsame, Heff].
  destruct (parse_bind_response buf) as [[resp|]|] eqn:Hb; [|apply Hsame, Heff|apply Hsame, Heff]. destruct Heff as [Et _].
  unfold answers in Ha. destruct (ad_peers a !! link_id) as [peer|] eqn:Hp; [|done].
  intros ft' e. rewrite Et. destruct (decide (ft' = ft)) as [->|]; [|rewrite lookup_partial_alter_ne by done; apply Hg].
  rewrite lookup_partial_alter_eq. destruct resp as [tc key|]; [|done]. simpl. destruct (classify_5t tc ft) eqn:Hc; [|done]. intros [= <-].
  apply HG. exists link_id, txn_id, stream_id, buf, peer, tc, key. split_and!; try done; by apply classify_5t_covers.
Qed.

(** The only panic: a request is reported canceled after its transaction was
    completed. *)
Lemma task_inv G n a k fate :
  ad_inv G n a →
  (∃ a', bind_request_task a k fate = Ret a' ∧ ad_inv G n a') ∨
  (bind_request_task a k fate = Panic ∧ fate = FateCanceled ∧ ∃ h, tasks a !! k = Some h ∧ pending (elt a) !! h = None).
Proof.
  intros Hinv. pose proof Hinv as [Hacc Hlen Hok Hg Hpeers Hinj]. unfold bind_request_task.
  destruct (tasks a !! k) as [h|] eqn:Hk; [|eauto].
  assert (length (delete k (tasks a)) <= n)%nat as Hl by (rewrite length_delete by (by eexists); lia).
  assert (∀ ms t, elt_ok t → entries G t → accounted ms (elt_handles t ++ tasks a) → dom ms = dom (ad_mgrs a) →
    ∃ a', (ms2 ← drop_handle ms h; Ret (with_tasks (with_elt (with_elt a ms t) ms2 t) (delete k (tasks a)))) = Ret a' ∧ ad_inv G n a') as Hfin.
  { intros ms t Hok2 Hg2 Ha2 Hd2. assert (accounted ms (h :: elt_handles t ++ delete k (tasks a))) as Ha3.
    { refine (accounted_refs _ _ _ _ Ha2). intros x. autorewrite with refs.
      rewrite (refs_perm x _ _ (delete_Permutation _ _ _ Hk)). autorewrite with refs. lia. }
    apply drop_handle_accounted in Ha3 as (ms2 & -> & Ha3 & Hd3). cbn [mbind outcome_bind]. eexists. split; [done|].
    apply (ad_inv_step G _ n _ a); simpl; try done. congruence. }
  destruct fate; cbn [mbind outcome_bind].
  - left. destruct (Hfin (ad_mgrs a) (elt a)) as (a' & Ha' & Hi); try done. eauto.
  - pose proof (deny_tether_ok a h (tasks a) Hok Hacc) as Hd. destruct (pending (elt a) !! h) as [ft|] eqn:Hp.
    + destruct Hd as (ms & t & -> & Hok2 & Ht2 & Ha2 & Hd2). left. cbn [mbind outcome_bind]. apply Hfin; try done.
      destruct t. simpl in Ht2. subst. by apply entries_delete.
    + right. rewrite Hd. eauto.
  - left. destruct (Hfin (ad_mgrs a) (elt a)) as (a' & Ha' & Hi); try done. eauto.
Qed.

Lemma elt_ok_new : elt_ok elt_new.
Proof. intros ft txn. simpl. rewrite !lookup_empty. split; [by intros (p & ?)|done]. Qed.

Lemma entries_new G : entries G elt_new.
Proof. intros ft pep. simpl. by rewrite lookup_empty. Qed.

(** A reset forgets where the entries came from. *)
Lemma reset_inv G G' n a : ad_inv G n a → ∃ a', reset_tables a = Ret a' ∧ ad_inv G' n a'.
Proof.
  intros Hinv. pose proof Hinv as [Hacc Hlen Hok Hg Hpeers Hinj]. unfold reset_tables, elt_clear.
  destruct (drop_handles_accounted _ _ _ Hacc) as (ms & -> & Ha & Hd). cbn [mbind outcome_bind]. eexists. split; [done|].
  apply (ad_inv_step G G' n _ a); simpl; auto using elt_ok_new, entries_new.
Qed.

Lemma connect_inv G n a l m ready : ad_inv G n a → ad_inv G n (adapter_connect a l m ready).
Proof.
  intros Hinv. unfold adapter_connect. destruct (decide _) as [|Hno]; [done|]. destruct Hinv as [Hacc Hlen Hok Hg Hpeers Hinj].
  assert (∀ i, refs (mk_handle (Some m) i) (elt_handles (elt a) ++ tasks a) = O) as H0.
  { intros i. apply refs_not_elem. intros Hin. destruct Hno. right. right. apply list_elem_of_fmap. by exists (mk_handle (Some m) i). }
  split; simpl; try done.
  - split.
    + intros b mb i [[<- <-]|[_ Hb]]%lookup_insert_Some; [by rewrite H0|by apply (acc_refs _ _ Hacc)].
    + intros b mb [[<- <-]|[_ Hb]]%lookup_insert_Some; [done|by apply (acc_next _ _ Hacc b)].
  - intros l' p [[<- <-]|[_ Hp]]%lookup_insert_Some; simpl; [rewrite lookup_insert_eq; by eexists|].
    destruct (Hpeers _ _ Hp) as [mp Hmp]. destruct (decide (ap_txn_mgr p = m)) as [->|];
      [rewrite lookup_insert_eq|rewrite lookup_insert_ne by done]; by eexists.
  - intros l1 l2 p1 p2 [[<- <-]|[Hn1 Hp1]]%lookup_insert_Some [[<- <-]|[Hn2 Hp2]]%lookup_insert_Some; simpl; [done| | |by eauto];
      intros E; destruct Hno; left; [rewrite E|rewrite <- E]; eauto.
Qed.

Lemma disconnect_inv G n a l : ad_inv G n a → ad_inv G n (adapter_disconnect a l).
Proof.
  intros Hinv. unfold adapter_disconnect. destruct (ad_peers a !! l) as [p|] eqn:Hp; [|done].
  destruct Hinv as [Hacc Hlen Hok Hg Hpeers Hinj]. split; simpl; try done.
  - split; intros b mb; [intros i|]; intros [_ Hb]%lookup_delete_Some; [by apply (acc_refs _ _ Hacc)|by apply (acc_next _ _ Hacc b)].
  - intros l' p' [Hne Hp']%lookup_delete_Some. rewrite lookup_delete_ne; [eauto|]. intros E. apply Hne. by eapply Hinj.
  - intros l1 l2 p1 p2 [_ Hp1]%lookup_delete_Some [_ Hp2]%lookup_delete_Some. by eapply Hinj.
Qed.

Lemma adapter_exec_inv (G G' : FiveTuple → EltEntry → Prop) n a op :
  ad_inv G n a → Z.of_nat n + 4 < U64_MOD →
  (op ≠ AoReset → ∀ ft e, G ft e → G' ft e) → (∀ ft e, enters a op ft e → G' ft e) →
  (∃ a', adapter_exec a op = Ret a' ∧ ad_inv G' (S n) a') ∨
  (adapter_exec a op = Panic ∧ ∃ k h, op = AoTask k FateCanceled ∧ tasks a !! k = Some h ∧ pending (elt a) !! h = None).
Proof.
  intros Hinv Hn Hkeep Hnew. assert (op ≠ AoReset → ad_inv G' n a) as Hi by (intros Hr; apply (ad_inv_mono G G' n n); auto).
  assert (∀ a', ad_inv G' n a' → ad_inv G' (S n) a') as Hmono by (intros a'; apply ad_inv_mono; auto).
  destruct op as [ill owns mode pkt|l txn_id sid buf|k fate| |l m ready|l|l t tc key|sid]; simpl; try (specialize (Hi ltac:(done))).
  - left. apply request_inv; [done..|]. intros ft txn. apply (Hnew ft (Pending pkt txn)).
  - left. destruct (response_inv G' n a l txn_id sid buf Hi Hn) as (a' & r & -> & Ha'); [intros ft pep; apply (Hnew ft (Active pep))|]. simpl. eauto.
  - destruct (task_inv G' n a k fate Hi) as [(a' & -> & Ha')|(-> & -> & h & ? & ?)]; [left; eauto|right; eauto 10].
  - left. destruct (reset_inv G G' n a Hinv) as (a' & -> & Ha'). eauto.
  - left. eexists. split; [done|]. by apply Hmono, connect_inv.
  - left. eexists. split; [done|]. by apply Hmono, disconnect_inv.
  - left. eexists. split; [done|]. unfold bind_egress_stream. destruct (dlt_insert _ _) as [[tid t']|]; apply Hmono; by destruct Hi.
  - left. eexists. split; [done|]. apply Hmono. by destruct Hi.
Qed.

Lemma adapter_run_app a ops ops' : adapter_run a (ops ++ ops') = (a ← adapter_run a ops; adapter_run a ops').
Proof. revert a. induction ops as [|op ops IH]; intros a; simpl; [done|]. destruct (adapter_exec a op); simpl; [apply IH|done]. Qed.

Lemma entered_snoc cap ops op ft e : op ≠ AoReset → entered cap ops ft e → entered cap (ops ++ [op]) ft e.
Proof.
  intros Hop (pre & o & post & a & -> & Hr & He & Hn). exists pre, o, (post ++ [op]), a. rewrite <- app_assoc. split_and!; try done.
  rewrite not_elem_of_app, list_elem_of_singleton. done.
Qed.

Lemma adapter_new_inv G cap : ad_inv G 0 (adapter_new cap).
Proof.
  split; simpl; auto using elt_ok_new, entries_new; try (intros ?; by rewrite lookup_empty).
  split; intros a m; [intros i|]; by rewrite lookup_empty.
Qed.

Lemma adapter_run_inv cap ops :
  Z.of_nat (length ops) + 4 < U64_MOD →
  match adapter_run (adapter_new cap) ops with
  | Ret a' => ad_inv (entered cap ops) (length ops) a'
  | Panic => ∃ pre k post a' h, ops = pre ++ AoTask k FateCanceled :: post ∧ adapter_run (adapter_new cap) pre = Ret a' ∧
               tasks a' !! k = Some h ∧ pending (elt a') !! h = None
  end.
Proof.
  induction ops as [|op ops IH] using rev_ind; intros Hn; [apply adapter_new_inv|]. rewrite length_app in *. simpl in *.
  rewrite adapter_run_app. destruct (adapter_run (adapter_new cap) ops) as [a|] eqn:Hr; cbn [mbind outcome_bind].
  2: { destruct IH as (pre & k & post & a' & h & -> & ?); [lia|]. exists pre, k, (post ++ [op]), a', h. by rewrite <- app_assoc. }
  specialize (IH ltac:(lia)). rewrite Nat.add_1_r. simpl.
  destruct (adapter_exec_inv (entered cap ops) (entered cap (ops ++ [op])) (length ops) a op IH) as [(a1 & E & H1)|(E & k & h & -> & ? & ?)]; [lia| | | |].
  - intros Hop ft e. by apply entered_snoc.
  - intros ft e He. exists ops, op, [], a. split_and!; try done. apply not_elem_of_nil.
  - rewrite E. done.
  - rewrite E. by exists ops, k, [], a, h.
Qed.

(** C23: the adapter's bind bookkeeping is consistent under every sequence of
    packets, bind responses (arbitrary bytes on any link), request fates, link
    changes and resets.  A flow is pending on a transaction exactly when that
    transaction is recorded for it.  Since the last reset, each entry was made by
    a step of the run ([entered]): a pending one by a packet of that flow, an
    active one by a response that answered the flow's own transaction with success
    and a classifier that covers the flow, and its tether, mode and key are that
    response's.  A response that can be read settles the flow it answers, and only
    that: granted and covered it becomes active, refused or not covered it is
    forgotten; every other response changes no entry and is reported.  The
    transaction counts are those of the handles in the tables and tasks.  The
    run ends normally, except that the adapter panics when a request is reported
    canceled after its transaction was completed. *)
Theorem elt_system_safe (capacity : nat) (ops : list AdapterOp) :
  Z.of_nat (length ops) + 4 < U64_MOD →
  match adapter_run (adapter_new capacity) ops with
  | Ret a =>
      (∀ ft txn, (∃ p, table (elt a) !! ft = Some (Pending p txn)) ↔ lookup_pending (elt a) txn = Some ft) ∧
      (∀ ft e, table (elt a) !! ft = Some e → entered capacity ops ft e) ∧
      (∀ link_id txn_id stream_id buf, ∃ a' r, handle_bind_actor_address_response a link_id txn_id stream_id buf = Ret (a', r) ∧
         response_effect a link_id txn_id stream_id buf a' r) ∧
      (∀ m mgr i, ad_mgrs a !! mgr = Some m →
         open m !! i = entry (refs (mk_handle (Some mgr) i) (elt_handles (elt a) ++ tasks a)))
  | Panic => ∃ pre k post a h, ops = pre ++ AoTask k FateCanceled :: post ∧
      adapter_run (adapter_new capacity) pre = Ret a ∧ tasks a !! k = Some h ∧ lookup_pending (elt a) h = None
  end.
Proof.
  intros Hn. pose proof (adapter_run_inv capacity ops Hn) as Hr. destruct (adapter_run _ ops) as [a|]; [|done].
  pose proof Hr as [Hacc _ Hok Hg _ _]. split; [done|]. split; [done|]. split; [|intros m mgr i Hm; by apply (acc_refs _ _ Hacc)].
  intros link_id txn_id stream_id buf. destruct (response_step _ _ a link_id txn_id stream_id buf Hr Hn) as (a' & r & E & Heff & _). eauto.
Qed.
End tables.

(** ** Examples *)

#[export] Instance sample_keys : A2aKeys :=
  {| PublicKey := bytes; SharedSecret := bytes; key_from_bytes l := l; diffie_hellman l := l; derive_key l := l |}.

Definition bind_packet : Packet := of_view 96 sample_metadata [] [1; 2; 3] [].

(** The dock connects, a packet asks for a tether, and the dock refuses. *)
Definition refused : list AdapterOp :=
  [AoConnect DOCK_LINK_ID 7 true; AoRequest (λ _, false) (λ _, true) true bind_packet;
   AoResponse DOCK_LINK_ID 0 0 [1; 0]].

(** The dock grants a flow with a classifier for any source port. *)
Definition flow_packet : Packet :=
  of_view 96 (mk_metadata 0 0 sample_flow 0 0 0 0 0 0) [] sample_packet [].
Definition grant_bytes : bytes := [0; 0; 1] ++ match serialize sample_tc with Ret l => l | Panic => [] end ++ [0; 0].
Definition flow_granted : list AdapterOp :=
  [AoConnect DOCK_LINK_ID 7 true; AoRequest (λ _, false) (λ _, true) true flow_packet; AoResponse DOCK_LINK_ID 0 9 grant_bytes].

Lemma elt_system_safe_witness :
  ∃ a, adapter_run 96 u8 (λ t, t =? 1) (adapter_new 4) flow_granted = Ret a ∧ elt_ok (elt a) ∧
    table (elt a) !! sample_flow = Some (Active (elt_pep_new (compression_mode sample_tc) 9 None)) ∧
    entered 96 u8 (λ t, t =? 1) 4 flow_granted sample_flow (Active (elt_pep_new (compression_mode sample_tc) 9 None)).
Proof.
  pose proof (elt_system_safe 96 u8 (λ t, t =? 1) 4 flow_granted ltac:(done)) as H.
  assert ((match adapter_run 96 u8 (λ t, t =? 1) (adapter_new 4) flow_granted with Ret a => table (elt a) !! sample_flow | Panic => None end) =
    Some (Active (elt_pep_new (compression_mode sample_tc) 9 None))) as Hf
    by (vm_cast_no_check (eq_refl (Some (Active (elt_pep_new (compression_mode sample_tc) 9 None))))).
  destruct (adapter_run _ _ _ _ _) as [a|]; [|discriminate Hf]. destruct H as (Hok & Hent & _).
  exists a. split; [reflexivity|]. split; [exact Hok|]. split; [exact Hf|]. apply Hent. exact Hf.
Defined.

(** a request that is reported canceled after its bind was answered panics
    the adapter: the task unwraps the denial of a transaction that is no
    longer pending.  The peer controls both messages. *)
Theorem canceled_after_answer_panics :
  is_ret (adapter_run 96 u8 (λ t, t =? 1) (adapter_new 4) refused) = true ∧
  is_ret (adapter_run 96 u8 (λ t, t =? 1) (adapter_new 4) (refused ++ [AoTask 0 FateCanceled])) = false.
Proof. split; vm_compute; reflexivity. Qed.
