(* ===== verification/VisaTable.v ===== *)
(** The node's visa table, [src/adapter/ph/src/visa_table.rs], with the routes it
    removes from the peers' forwarding tables ([PeerTable::remove_route] of
    [peer_table.rs]).

    A visa authorizes a flow; the forwarding entries made under it are linked
    to it, so that revocation and expiry can take them away. *)
From stdpp Require Import sorting.
From S2P Require Import Prelude Zdp TxnMgr Slab NetDefs IpHeaders PacketBuf Compress Classifier Tc.

(** [zpr::vsapi_types] and [zpr::five_tuple_lookup_table]: visas as the visa
    service grants them, and the lookup table over their five-tuples.  Times
    are numbers of an arbitrary unit. *)
Class VsApi `{NetDefs} : Type := {
  VsVisa : Type;
  DockPep : Type;
  VsFiveTuple : Type;
  issuer_id : VsVisa → Z;
  expires : VsVisa → Z;
  (** [visa_type == VisaType::Full] *)
  is_full : VsVisa → bool;
  dock_pep : VsVisa → option DockPep;
  (** [fwd_pep.map(|p| p.next_hop)] *)
  fwd_next_hop : VsVisa → option IpAddress;
  pep_five_tuple : DockPep → VsFiveTuple;
  pep_dest_addr : DockPep → IpAddress;
  pep_ingress_key : DockPep → bytes;
  pep_egress_key : DockPep → bytes;
  vs_dest_addr : VsFiveTuple → IpAddress;
  to_five_tuple : VsFiveTuple → FiveTuple;
  from_five_tuple : FiveTuple → VsFiveTuple;
  (** [IpAddress::UNSPECIFIED] *)
  UNSPECIFIED : IpAddress;
  FiveTupleLookupTable : Type;
  lookup_new : FiveTupleLookupTable;
  lookup_insert : FiveTupleLookupTable → Z → VsFiveTuple → FiveTupleLookupTable;
  (** [add_hash_to_table], on the five-tuples of a table of visas *)
  lookup_add_all : FiveTupleLookupTable → gmap Z VsFiveTuple → FiveTupleLookupTable;
  find_match : FiveTupleLookupTable → VsFiveTuple → option Z;
  (** The identifiers a lookup table holds. *)
  lookup_ids : FiveTupleLookupTable → gset Z;
}.

Class VsApiLaws `{VsApi} : Prop := {
  lookup_ids_new : lookup_ids lookup_new = ∅;
  lookup_ids_insert t i ft : lookup_ids (lookup_insert t i ft) = {[ i ]} ∪ lookup_ids t;
  lookup_ids_add_all t m : lookup_ids (lookup_add_all t m) = dom m ∪ lookup_ids t;
  find_match_held t ft i : find_match t ft = Some i → i ∈ lookup_ids t;
}.

Section visa_table.
Context {ND : NetDefs} {VA : VsApi} {SL : Slab}.

(** ** Routes: the forwarding tables of the peers, by link *)

Abbreviation Routes := (gmap Z PeerForwardingTable).

(** [PeerTable::remove_route] *)
Definition remove_route (rs : Routes) (route : ForwardingEntry) : Routes :=
  match rs !! route.1 with
  | None => rs
  | Some pft => <[route.1 := pft_remove pft route.2]> rs
  end.

(** ** Visas *)

Record Visa : Type := mk_visa {
  visa : VsVisa;
  streams : list ForwardingEntry;
  ftuple : VsFiveTuple;
  next_hop : IpAddress
}.

Definition visa_new (v : VsVisa) : outcome Visa :=
  if negb (is_full v) then Panic
  else
    match dock_pep v with
    | None => Panic
    | Some pep => Ret (mk_visa v [] (pep_five_tuple pep) (default ip_default (fwd_next_hop v)))
    end.

Definition with_streams (v : Visa) (l : list ForwardingEntry) : Visa := mk_visa (visa v) l (ftuple v) (next_hop v).

(** [streams.drain(..).for_each(remove_route)] *)
Definition remove_forwarding_entries (rs : Routes) (v : Visa) : Routes := fold_left remove_route (streams v) rs.

Definition link_forwarding_entry (v : Visa) (e : ForwardingEntry) : Visa := with_streams v (streams v ++ [e]).

Definition get_tc (v : Visa) : outcome Ip5TupleTc :=
  if negb (is_full (visa v)) then Panic
  else match dock_pep (visa v) with
       | None => Panic
       | Some pep => Ret (mk_tc (to_five_tuple (pep_five_tuple pep)))
       end.

Definition visa_match_traffic (v : Visa) (ft : FiveTuple) : outcome bool := tc ← get_tc v; Ret (classify_5t tc ft).

(** A key of 32 bytes, or none. *)
Definition key_of (l : bytes) : option bytes := if (length l =? 32)%nat then Some l else None.

Definition get_ingress_a2a_dh_pubkey (v : Visa) : option bytes :=
  pep ← dock_pep (visa v); key_of (pep_ingress_key pep).
Definition get_egress_a2a_dh_pubkey (v : Visa) : option bytes :=
  pep ← dock_pep (visa v); key_of (pep_egress_key pep).

(** [Vec::swap_remove] *)
Definition swap_remove {A} (l : list A) (i : nat) : list A :=
  match list.last l with
  | None => l
  | Some x => let l' := take (length l - 1) l in if (i =? length l - 1)%nat then l' else <[i := x]> l'
  end.

Definition visa_unlink_forwarding_entry (v : Visa) (e : ForwardingEntry) : Visa * bool :=
  match list_find (λ fe, fe = e) (streams v) with
  | Some (idx, _) => (with_streams v (swap_remove (streams v) idx), true)
  | None => (v, false)
  end.

(** ** The timeout queue

    [BinaryHeap<VisaTimeout>] gives the soonest expiration first, then the
    smallest identifier; entries that compare equal are equal, so the order of
    the list is the order of the pops. *)

Record VisaTimeout : Type := mk_timeout { timeout_id : Z; expiration : Z }.

(** [VisaTimeout::cmp], as "is popped before or equal" *)
Definition before (a b : VisaTimeout) : bool :=
  (expiration a <? expiration b) || ((expiration a =? expiration b) && (timeout_id a <=? timeout_id b)).

Fixpoint heap_push (q : list VisaTimeout) (t : VisaTimeout) : list VisaTimeout :=
  match q with
  | [] => [t]
  | x :: q' => if before x t then x :: heap_push q' t else t :: q
  end.

(** ** The table *)

Record VisaTable : Type := mk_visa_table {
  vt_table : gmap Z Visa;
  timeout_queue : list VisaTimeout;
  lookup_table : FiveTupleLookupTable
}.

Inductive VisaTableError : Type :=
| VisaNotFound (i : Z) | VisaParseError | DestNotFound (a : IpAddress) | VisaInsertError.

Definition visa_table_new : VisaTable := mk_visa_table ∅ [] lookup_new.

Definition rebuild (t : VisaTable) : VisaTable :=
  mk_visa_table (vt_table t) (timeout_queue t) (lookup_add_all lookup_new (ftuple <$> vt_table t)).

Definition insert_visa (t : VisaTable) (v : VsVisa) : outcome (VisaTable * Z) :=
  let visa_id := issuer_id v in
  visa ← visa_new v;
  Ret (mk_visa_table (<[visa_id := visa]> (vt_table t)) (heap_push (timeout_queue t) (mk_timeout visa_id (expires v)))
         (lookup_insert (lookup_table t) visa_id (ftuple visa)), visa_id).

(** [new_with_vs_visas]; [make_tcp_visa] of the [zpr] types builds the two visas. *)
Definition new_with_vs_visas (node2vs vs2node : VsVisa) : outcome VisaTable :=
  r ← insert_visa visa_table_new node2vs;
  r ← insert_visa r.1 vs2node;
  Ret (rebuild r.1).

Definition table_match_traffic (t : VisaTable) (ft : FiveTuple) : option Z :=
  find_match (lookup_table t) (from_five_tuple ft).

Definition table_link_forwarding_entry (t : VisaTable) (i : Z) (e : ForwardingEntry) : VisaTable * (VisaTableError + unit) :=
  match vt_table t !! i with
  | None => (t, inl (VisaNotFound i))
  | Some v => (mk_visa_table (<[i := link_forwarding_entry v e]> (vt_table t)) (timeout_queue t) (lookup_table t), inr tt)
  end.

Definition revoke_no_rebuild (t : VisaTable) (rs : Routes) (i : Z) : VisaTable * Routes * (VisaTableError + unit) :=
  match vt_table t !! i with
  | None => (t, rs, inl (VisaNotFound i))
  | Some v => (mk_visa_table (delete i (vt_table t)) (timeout_queue t) (lookup_table t),
               remove_forwarding_entries rs v, inr tt)
  end.

Definition revoke (t : VisaTable) (rs : Routes) (i : Z) : VisaTable * Routes :=
  let '(t, rs, _) := revoke_no_rebuild t rs i in (rebuild t, rs).

(** The loop of [handle_expirations]: entries that expire before [now]. *)
Fixpoint expire_loop (q : list VisaTimeout) (t : VisaTable) (rs : Routes) (now : Z) : VisaTable * Routes :=
  match q with
  | [] => (mk_visa_table (vt_table t) [] (lookup_table t), rs)
  | e :: q' =>
      if expiration e <? now then
        let '(t, rs, _) := revoke_no_rebuild t rs (timeout_id e) in expire_loop q' t rs now
      else (mk_visa_table (vt_table t) q (lookup_table t), rs)
  end.

Definition handle_expirations (t : VisaTable) (rs : Routes) (now : Z) : VisaTable * Routes :=
  let '(t, rs) := expire_loop (timeout_queue t) t rs now in (rebuild t, rs).

Definition MIN_VISA_ID : Z := 1000.

Definition visas_on_link (t : VisaTable) (link_id : Z) : list Z :=
  (filter (λ kv, MIN_VISA_ID <= kv.1 ∧ Exists (λ e, e.1 = link_id) (streams kv.2)) (map_to_list (vt_table t))).*1.

Fixpoint revoke_all (t : VisaTable) (rs : Routes) (ids : list Z) : VisaTable * Routes :=
  match ids with
  | [] => (t, rs)
  | i :: ids => let '(t, rs, _) := revoke_no_rebuild t rs i in revoke_all t rs ids
  end.

Definition revoke_for_link (t : VisaTable) (rs : Routes) (link_id : Z) : VisaTable * Routes :=
  match visas_on_link t link_id with
  | [] => (t, rs)
  | ids => let '(t, rs) := revoke_all t rs ids in (rebuild t, rs)
  end.

Definition get_visa_next_hop_addr (t : VisaTable) (i : Z) : VisaTableError + IpAddress :=
  match vt_table t !! i with
  | None => inl (VisaNotFound i)
  | Some v => inr (if decide (next_hop v = UNSPECIFIED) then vs_dest_addr (ftuple v) else next_hop v)
  end.

Definition unlink_forwarding_entry (t : VisaTable) (i : Z) (e : ForwardingEntry) : VisaTable * (VisaTableError + bool) :=
  match vt_table t !! i with
  | None => (t, inl (VisaNotFound i))
  | Some v =>
      let '(v, b) := visa_unlink_forwarding_entry v e in
      (mk_visa_table (<[i := v]> (vt_table t)) (timeout_queue t) (lookup_table t), inr b)
  end.

(** ** Routes and the visas that own them *)

Context {SLL : SlabLaws} {VAL : VsApiLaws}.

(** The forwarding entry that packets on a link and stream take. *)
Definition route (rs : Routes) (e : ForwardingEntry) : option PftPep := pft ← rs !! e.1; pft_get pft e.2.

Definition entry_wf (e : ForwardingEntry) : Prop := is_u32 e.2.

Lemma route_remove rs e e' :
  entry_wf e → entry_wf e' → route (remove_route rs e) e' = if decide (e' = e) then None else route rs e'.
Proof.
  destruct e as [l i], e' as [l' i']. unfold entry_wf. simpl. intros Hi Hi'. unfold route, remove_route. simpl.
  destruct (rs !! l) as [pft|] eqn:Hl; simpl.
  - destruct (decide (l' = l)) as [->|Hne].
    + rewrite lookup_insert_eq. simpl. rewrite pft_get_remove by done.
      destruct (decide (i' = i)) as [->|]; [by rewrite decide_True|]. rewrite decide_False by congruence. by rewrite Hl.
    + rewrite lookup_insert_ne by done. by rewrite decide_False by congruence.
  - destruct (decide _) as [[= -> ->]|]; [by rewrite Hl|done].
Qed.

Lemma route_remove_all l rs e :
  Forall entry_wf l → entry_wf e → route (fold_left remove_route l rs) e = if decide (e ∈ l) then None else route rs e.
Proof.
  intros Hl He. revert rs. induction Hl as [|x l Hx _ IH]; intros rs; cbn [fold_left].
  - by rewrite decide_False by (apply not_elem_of_nil).
  - rewrite IH, route_remove by done. destruct (decide (e ∈ l)) as [Hin|Hn].
    + by rewrite decide_True by (by right).
    + destruct (decide (e = x)) as [->|]; [by rewrite decide_True by left|].
      rewrite decide_False; [done|]. by intros [|]%elem_of_cons.
Qed.

Lemma dom_remove_all l rs : dom (fold_left remove_route l rs) = dom rs.
Proof.
  revert rs. induction l as [|x l IH]; intros rs; simpl; [done|]. rewrite IH. unfold remove_route.
  destruct (rs !! x.1) eqn:E; [|done]. apply dom_insert_lookup_L. by eexists.
Qed.

Lemma remove_all_wf l rs : map_Forall (λ _, pft_wf) rs → map_Forall (λ _, pft_wf) (fold_left remove_route l rs).
Proof.
  revert rs. induction l as [|x l IH]; intros rs Hw; simpl; [done|]. apply IH. unfold remove_route.
  destruct (rs !! x.1) eqn:E; [|done]. apply map_Forall_insert_2; [|done]. apply pft_remove_wf. by apply (Hw x.1).
Qed.

(** ** Well-formed tables *)

Definition visa_wf (i : Z) (v : Visa) : Prop :=
  issuer_id (visa v) = i ∧ is_full (visa v) = true ∧ is_Some (dock_pep (visa v)) ∧ Forall entry_wf (streams v).

Record vt_inv (t : VisaTable) : Prop := {
  vi_wf i v : vt_table t !! i = Some v → visa_wf i v;
  vi_time i v : vt_table t !! i = Some v → mk_timeout i (expires (visa v)) ∈ timeout_queue t;
  vi_sorted : StronglySorted before (timeout_queue t);
  vi_lookup : lookup_ids (lookup_table t) = dom (vt_table t);
}.

Lemma heap_push_elem q t x : x ∈ heap_push q t ↔ x = t ∨ x ∈ q.
Proof.
  induction q as [|y q IH]; simpl; [by rewrite list_elem_of_singleton, elem_of_nil; naive_solver|].
  destruct (before y t); rewrite !elem_of_cons, ?IH; naive_solver.
Qed.

Lemma before_total x y : before x y = false → before y x.
Proof. unfold before. intros H. apply Is_true_true. lia. Qed.

Lemma before_trans x y z : before x y → before y z → before x z.
Proof. unfold before. rewrite !Is_true_true. lia. Qed.

Lemma heap_push_sorted q t : StronglySorted before q → StronglySorted before (heap_push q t).
Proof.
  induction 1 as [|x q Hq IH Hx]; simpl; [by repeat constructor|]. destruct (before x t) eqn:E.
  - constructor; [done|]. apply list.Forall_forall. intros y [->|Hy]%heap_push_elem; [by rewrite E|]. by eapply list.Forall_forall in Hx.
  - apply before_total in E. constructor; [by constructor|]. constructor; [done|].
    refine (list.Forall_impl _ _ _ Hx _). intros y. by apply before_trans.
Qed.

Lemma vt_new_inv : vt_inv visa_table_new.
Proof. split; simpl; [by intros i v; rewrite lookup_empty..|constructor|by rewrite lookup_ids_new, dom_empty_L]. Qed.

Lemma rebuild_lookup t : lookup_ids (lookup_table (rebuild t)) = dom (vt_table t).
Proof. unfold rebuild. simpl. rewrite lookup_ids_add_all, lookup_ids_new, dom_fmap_L. set_solver. Qed.

Lemma insert_visa_inv t v :
  vt_inv t → is_full v = true → is_Some (dock_pep v) →
  ∃ t' ft nh, insert_visa t v = Ret (t', issuer_id v) ∧ vt_inv t' ∧ vt_table t' = <[issuer_id v := mk_visa v [] ft nh]> (vt_table t).
Proof.
  intros [Hwf Ht Hs Hl] Hf [pep Hp]. unfold insert_visa, visa_new. rewrite Hf, Hp. cbn [negb mbind outcome_bind].
  eexists _, _, _. split; [done|]. split; [|done]. split; simpl.
  - intros i w [[<- <-]|[_ Hi]]%lookup_insert_Some; [|by apply Hwf]. repeat split; simpl; [done|by eexists|constructor].
  - intros i w Hi. apply heap_push_elem. apply lookup_insert_Some in Hi as [[<- <-]|[_ Hi]]; [by left|right; by apply Ht].
  - by apply heap_push_sorted.
  - rewrite lookup_ids_insert, dom_insert_L. by rewrite Hl.
Qed.

(** Changing the entries linked to a visa. *)
Lemma streams_inv t i v l :
  vt_inv t → vt_table t !! i = Some v → Forall entry_wf l →
  vt_inv (mk_visa_table (<[i := with_streams v l]> (vt_table t)) (timeout_queue t) (lookup_table t)).
Proof.
  intros [Hwf Ht Hs Hl] Hv Hf. split; simpl; [| |done|].
  - intros j w [[<- <-]|[_ Hj]]%lookup_insert_Some; [|by apply Hwf]. destruct (Hwf i v Hv) as (?&?&?&?). done.
  - intros j w [[<- <-]|[_ Hj]]%lookup_insert_Some; [|by apply Ht]. by apply (Ht i v).
  - rewrite Hl. symmetry. apply dom_insert_lookup_L. by eexists.
Qed.

Lemma swap_remove_elem {A} (l : list A) i x y :
  l !! i = Some y → x ∈ swap_remove l i → x ∈ l.
Proof.
  intros Hi. unfold swap_remove. destruct (list.last l) as [z|] eqn:Hz; [|done].
  apply last_Some_elem_of in Hz. set (l' := take (length l - 1) l).
  assert (∀ w, w ∈ l' → w ∈ l) as Hsub by (intros w; apply elem_of_take_2 || (intros; eapply elem_of_submseteq; [done|apply sublist_submseteq, sublist_take])).
  destruct (_ =? _)%nat; [apply Hsub|]. intros (j & Hj)%list_elem_of_lookup. apply list_lookup_insert_Some in Hj as [(_ & -> & _)|[_ Hj]]; [done|].
  apply Hsub. by apply list_elem_of_lookup_2 in Hj.
Qed.

Lemma unlink_inv t i e : vt_inv t → vt_inv (unlink_forwarding_entry t i e).1.
Proof.
  intros Ht. unfold unlink_forwarding_entry. destruct (vt_table t !! i) as [v|] eqn:Hv; [|done].
  unfold visa_unlink_forwarding_entry. destruct (list_find _ (streams v)) as [[k x]|] eqn:Hf; simpl.
  - apply list_find_Some in Hf as (Hk & _). apply streams_inv; [done|done|].
    destruct (vi_wf t Ht i v Hv) as (_ & _ & _ & Hs). apply list.Forall_forall. intros y Hy.
    eapply list.Forall_forall in Hs; [done|]. by eapply swap_remove_elem.
  - rewrite insert_id by done. by destruct t.
Qed.

(** Unlinking an entry that a visa does not have changes nothing. *)
Lemma unlink_absent t i e :
  (∀ v, vt_table t !! i = Some v → e ∉ streams v) → (unlink_forwarding_entry t i e).1 = t.
Proof.
  intros Hn. unfold unlink_forwarding_entry. destruct (vt_table t !! i) as [v|] eqn:Hv; [|done].
  unfold visa_unlink_forwarding_entry. destruct (list_find _ (streams v)) as [[k x]|] eqn:Hf; simpl.
  - apply list_find_Some in Hf as (Hk & -> & _). apply list_elem_of_lookup_2 in Hk. by destruct (Hn v).
  - rewrite insert_id by done. by destruct t.
Qed.

(** ** Taking visas away *)

(** From one table to another by removing visas, together with their routes. *)
Record removal (t t' : VisaTable) (rs rs' : Routes) : Prop := {
  rm_sub i v : vt_table t' !! i = Some v → vt_table t !! i = Some v;
  rm_gone i v e : vt_table t !! i = Some v → vt_table t' !! i = None → entry_wf e → e ∈ streams v → route rs' e = None;
  rm_kept e : entry_wf e → route rs' e = route rs e ∨
    (route rs' e = None ∧ ∃ i v, vt_table t !! i = Some v ∧ vt_table t' !! i = None ∧ e ∈ streams v);
  rm_dom : dom rs' = dom rs;
  rm_wf : map_Forall (λ _, pft_wf) rs → map_Forall (λ _, pft_wf) rs';
}.

Lemma removal_refl t t' rs : vt_table t' = vt_table t → removal t t' rs rs.
Proof. intros E. split; rewrite ?E; try done; [congruence|by left]. Qed.

Lemma removal_trans t1 t2 t3 r1 r2 r3 : removal t1 t2 r1 r2 → removal t2 t3 r2 r3 → removal t1 t3 r1 r3.
Proof.
  intros [S1 G1 K1 D1 W1] [S2 G2 K2 D2 W2]. split; [eauto| | |congruence|eauto].
  - intros i v e Hv Hn He Hin. destruct (vt_table t2 !! i) as [w|] eqn:H2.
    + apply S1 in H2 as H1. assert (w = v) as -> by congruence. by apply (G2 i v).
    + pose proof (G1 i v e Hv H2 He Hin) as H0. destruct (K2 e He) as [->|[? _]]; done.
  - intros e He. destruct (K2 e He) as [E2|(E2 & i & v & H2 & H3 & Hin)]; [|right; eauto 10].
    destruct (K1 e He) as [E1|(E1 & i & v & H1 & H2 & Hin)]; [left; congruence|right].
    split; [congruence|]. exists i, v. split; [done|]. split; [|done].
    destruct (vt_table t3 !! i) eqn:H3; [|done]. apply S2 in H3. congruence.
Qed.

Lemma revoke_no_rebuild_removal t rs i :
  (∀ j v, vt_table t !! j = Some v → visa_wf j v) →
  let '(t', rs', _) := revoke_no_rebuild t rs i in
  removal t t' rs rs' ∧ vt_table t' = delete i (vt_table t) ∧ timeout_queue t' = timeout_queue t ∧ lookup_table t' = lookup_table t.
Proof.
  intros Hwf. unfold revoke_no_rebuild. destruct (vt_table t !! i) as [v|] eqn:Hv.
  - split; [|done]. destruct (Hwf i v Hv) as (_ & _ & _ & Hs). split; simpl.
    + by intros j w [_ ?]%lookup_delete_Some.
    + intros j w e Hw Hn He Hin. unfold remove_forwarding_entries. rewrite route_remove_all by done.
      apply lookup_delete_None in Hn as [<-|?]; [|congruence]. assert (w = v) as -> by congruence. by rewrite decide_True.
    + intros e He. unfold remove_forwarding_entries. rewrite route_remove_all by done.
      destruct (decide (e ∈ streams v)); [right|by left]. split; [done|]. exists i, v. by rewrite lookup_delete_eq.
    + unfold remove_forwarding_entries. by rewrite dom_remove_all.
    + apply remove_all_wf.
  - split; [by apply removal_refl|]. by rewrite delete_id.
Qed.

Lemma revoke_spec t rs i :
  vt_inv t →
  let '(t', rs') := revoke t rs i in
  vt_inv t' ∧ removal t t' rs rs' ∧ vt_table t' = delete i (vt_table t).
Proof.
  intros [Hwf Ht Hs Hl]. unfold revoke. pose proof (revoke_no_rebuild_removal t rs i Hwf) as Hr.
  destruct (revoke_no_rebuild t rs i) as [[t1 rs1] r]. destruct Hr as (Hr & Htab & Hq & _). split; [|split].
  - split; simpl; rewrite ?Hq, ?Htab; [by intros j v [_ ?]%lookup_delete_Some; apply Hwf|by intros j v [_ ?]%lookup_delete_Some; apply Ht|done|].
    rewrite <- Htab. apply rebuild_lookup.
  - apply (removal_trans t t1 _ rs rs1); [done|]. by apply removal_refl.
  - done.
Qed.

Lemma expire_loop_spec q t rs now :
  (∀ i v, vt_table t !! i = Some v → visa_wf i v) →
  (∀ i v, vt_table t !! i = Some v → mk_timeout i (expires (visa v)) ∈ q) → StronglySorted before q →
  let '(t', rs') := expire_loop q t rs now in
  removal t t' rs rs' ∧ StronglySorted before (timeout_queue t') ∧
  (∀ i v, vt_table t' !! i = Some v → now <= expires (visa v) ∧ mk_timeout i (expires (visa v)) ∈ timeout_queue t') ∧
  (∀ i, is_Some (vt_table t !! i) → vt_table t' !! i = None → ∃ e, e ∈ q ∧ timeout_id e = i ∧ expiration e < now).
Proof.
  revert t rs. induction q as [|e q IH]; intros t rs Hwf Hq Hs; simpl.
  - split; [by apply removal_refl|]. split; [constructor|]. split.
    + intros i v Hv. simpl in Hv. by apply Hq, elem_of_nil in Hv.
    + intros i [v Hv]. simpl. congruence.
  - apply StronglySorted_inv in Hs as Hs'. destruct Hs' as [Hs' He]. destruct (Z.ltb_spec (expiration e) now) as [Hlt|Hge].
    + pose proof (revoke_no_rebuild_removal t rs (timeout_id e) Hwf) as Hr.
      destruct (revoke_no_rebuild t rs (timeout_id e)) as [[t1 rs1] r]. destruct Hr as (Hr & Htab & _).
      assert (∀ i v, vt_table t1 !! i = Some v → vt_table t !! i = Some v ∧ i ≠ timeout_id e) as Hsub.
      { rewrite Htab. intros i v [Hne Hi]%lookup_delete_Some. split; [done|congruence]. }
      specialize (IH t1 rs1). destruct (expire_loop q t1 rs1 now) as [t2 rs2]. destruct IH as (Hr2 & Hs2 & Hk & Hg).
      * intros i v Hi. by apply Hwf, Hsub.
      * intros i v [Hi Hne]%Hsub. apply Hq in Hi. apply elem_of_cons in Hi as [E|]; [|done]. destruct Hne. by rewrite <- E.
      * done.
      * split; [by eapply removal_trans|]. split; [done|]. split; [done|]. intros i Hi Hn.
        destruct (vt_table t1 !! i) as [w|] eqn:H1.
        -- destruct (Hg i) as (x & ? & ?); [by eexists|done|]. exists x. split; [by right|done].
        -- rewrite Htab in H1. apply lookup_delete_None in H1 as [<-|H1]; [|rewrite H1 in Hi; by destruct Hi].
           exists e. split; [by left|done].
    + split; [by apply removal_refl|]. split; [done|]. split.
      * intros i v Hv. simpl in *. split; [|by apply Hq]. apply Hq in Hv.
        apply elem_of_cons in Hv as [<-|Hv]; [done|]. eapply list.Forall_forall in He; [|done].
        apply Is_true_true in He. unfold before in He. simpl in He. lia.
      * intros i [v Hv]. simpl. congruence.
Qed.

Lemma revoke_all_spec ids t rs :
  (∀ j v, vt_table t !! j = Some v → visa_wf j v) →
  let '(t', rs') := revoke_all t rs ids in
  removal t t' rs rs' ∧ timeout_queue t' = timeout_queue t ∧ lookup_table t' = lookup_table t ∧
  (∀ i, vt_table t' !! i = if decide (i ∈ ids) then None else vt_table t !! i).
Proof.
  revert t rs. induction ids as [|i ids IH]; intros t rs Hwf; cbn [revoke_all].
  - split; [by apply removal_refl|]. do 2 (split; [done|]). intros j. by rewrite decide_False by (apply not_elem_of_nil).
  - pose proof (revoke_no_rebuild_removal t rs i Hwf) as Hr.
    destruct (revoke_no_rebuild t rs i) as [[t1 rs1] r]. destruct Hr as (Hr & Htab & Hq & Hl).
    specialize (IH t1 rs1). destruct (revoke_all t1 rs1 ids) as [t2 rs2]. destruct IH as (Hr2 & Hq2 & Hl2 & Hk).
    { rewrite Htab. intros j v [_ ?]%lookup_delete_Some. by apply Hwf. }
    split; [by eapply removal_trans|]. do 2 (split; [congruence|]). intros j. rewrite Hk, Htab.
    destruct (decide (j ∈ ids)); [by rewrite decide_True by (by right)|]. destruct (decide (j = i)) as [->|].
    + rewrite lookup_delete_eq, decide_True; [done|by left].
    + rewrite lookup_delete_ne, decide_False; [done| |done]. by intros [|]%elem_of_cons.
Qed.

Lemma removal_inv t t' rs rs' :
  vt_inv t → removal t t' rs rs' → timeout_queue t' = timeout_queue t → vt_inv (rebuild t').
Proof.
  intros [Hwf Ht Hs _] Hr Hq. split; simpl; rewrite ?Hq; [| |done|apply rebuild_lookup].
  - intros i v Hi%(rm_sub _ _ _ _ Hr). by apply Hwf.
  - intros i v Hi%(rm_sub _ _ _ _ Hr). by apply Ht.
Qed.

Lemma visas_on_link_elem t link_id i :
  i ∈ visas_on_link t link_id ↔ ∃ v, vt_table t !! i = Some v ∧ MIN_VISA_ID <= i ∧ Exists (λ e, e.1 = link_id) (streams v).
Proof.
  unfold visas_on_link. rewrite list_elem_of_fmap. split.
  - intros ([j v] & -> & [[Hm He] Hin%elem_of_map_to_list]%list_elem_of_filter). eauto.
  - intros (v & Hv & Hm & He). exists (i, v). split; [done|]. apply list_elem_of_filter. split; [done|]. by apply elem_of_map_to_list.
Qed.

Lemma revoke_for_link_spec t rs link_id :
  vt_inv t →
  let '(t', rs') := revoke_for_link t rs link_id in
  vt_inv t' ∧ removal t t' rs rs' ∧
  (∀ i, vt_table t' !! i = if decide (i ∈ visas_on_link t link_id) then None else vt_table t !! i).
Proof.
  intros Ht. unfold revoke_for_link. pose proof (revoke_all_spec (visas_on_link t link_id) t rs (vi_wf _ Ht)) as Hr.
  destruct (visas_on_link t link_id) as [|i ids] eqn:E.
  - split; [done|]. split; [by apply removal_refl|]. intros i. by rewrite decide_False by (apply not_elem_of_nil).
  - destruct (revoke_all t rs (i :: ids)) as [t1 rs1]. destruct Hr as (Hr & Hq & _ & Hk).
    split; [by eapply removal_inv|]. split; [|done]. eapply removal_trans; [done|]. by apply removal_refl.
Qed.

Lemma handle_expirations_inv t rs now :
  vt_inv t → let '(t', rs') := handle_expirations t rs now in vt_inv t' ∧ removal t t' rs rs'.
Proof.
  intros [Hwf Ht Hs Hl]. unfold handle_expirations.
  pose proof (expire_loop_spec _ t rs now Hwf Ht Hs) as He. destruct (expire_loop _ t rs now) as [t1 rs1].
  destruct He as (Hr & Hs1 & Hk & _). split; [|by eapply removal_trans; [|apply removal_refl]].
  split; simpl; [|naive_solver|done|apply rebuild_lookup]. intros i v Hi%(rm_sub _ _ _ _ Hr). by apply Hwf.
Qed.

(** expiry.  Handling expirations at a time [now] leaves no visa that has
    expired before [now], takes away only visas with a timeout before [now] on
    record, keeps the table well formed (traffic matches only visas it holds),
    removes every route of each visa it takes away, and no route but those. *)
Theorem expired_visas_removed (t : VisaTable) (rs : Routes) (now : Z) :
  vt_inv t →
  let '(t', rs') := handle_expirations t rs now in
  vt_inv t' ∧
  (∀ i v, vt_table t' !! i = Some v → vt_table t !! i = Some v ∧ now <= expires (visa v)) ∧
  (∀ i v, vt_table t !! i = Some v → vt_table t' !! i = None →
     (∃ e, e ∈ timeout_queue t ∧ timeout_id e = i ∧ expiration e < now) ∧
     ∀ e, entry_wf e → e ∈ streams v → route rs' e = None) ∧
  (∀ e, entry_wf e → (∀ i v, vt_table t !! i = Some v → e ∈ streams v → is_Some (vt_table t' !! i)) →
     route rs' e = route rs e) ∧
  (∀ ft i, table_match_traffic t' ft = Some i → is_Some (vt_table t' !! i)).
Proof.
  intros Hinv. pose proof (handle_expirations_inv t rs now Hinv) as Hi. revert Hi. destruct Hinv as [Hwf Ht Hs Hl].
  unfold handle_expirations. pose proof (expire_loop_spec _ t rs now Hwf Ht Hs) as He.
  destruct (expire_loop _ t rs now) as [t1 rs1]. destruct He as (Hr & _ & Hk & Hg). intros [Hinv' _].
  split; [done|]. split; [|split; [|split]].
  - intros i v Hi. split; [by apply (rm_sub _ _ _ _ Hr)|by apply (Hk i v)].
  - intros i v Hv Hn. split; [apply (Hg i); [by eexists|done]|]. intros e Hw Hin. by apply (rm_gone _ _ _ _ Hr i v).
  - intros e Hw Hlive. destruct (rm_kept _ _ _ _ Hr e Hw) as [|(_ & i & v & Hv & Hn & Hin)]; [done|].
    destruct (Hlive i v Hv Hin) as [w Hw']. simpl in Hw'. congruence.
  - intros ft i Hm%find_match_held. rewrite (vi_lookup _ Hinv') in Hm. by apply elem_of_dom.
Qed.
End visa_table.

(** ** Examples *)

Record sample_visa : Type := mk_sample_visa {
  sv_id : Z; sv_expires : Z; sv_flow : FiveTuple
}.

Definition list_find_match (l : list (Z * FiveTuple)) (ft : FiveTuple) : option Z :=
  (λ kv, kv.2.1) <$> list_find (λ kv, classify_5t (mk_tc kv.2) ft = true) l.

(** Visas as records; the lookup table as a list searched from the front. *)
#[export] Instance sample_vs : VsApi := {|
  VsVisa := sample_visa; DockPep := FiveTuple; VsFiveTuple := FiveTuple;
  issuer_id := sv_id; expires := sv_expires; is_full _ := true; dock_pep v := Some (sv_flow v);
  fwd_next_hop _ := None; pep_five_tuple p := p; pep_dest_addr p := dst_address p;
  pep_ingress_key _ := []; pep_egress_key _ := [];
  vs_dest_addr := dst_address; to_five_tuple ft := ft; from_five_tuple ft := ft; UNSPECIFIED := ip_default;
  FiveTupleLookupTable := list (Z * FiveTuple);
  lookup_new := []; lookup_insert t i ft := (i, ft) :: t; lookup_add_all t m := map_to_list m ++ t;
  find_match := list_find_match; lookup_ids t := list_to_set t.*1
|}.

#[export] Instance sample_vs_laws : VsApiLaws.
Proof.
  split; simpl; [done|done| |].
  - intros t m. rewrite fmap_app, list_to_set_app_L. f_equal. apply set_eq. intros i.
    rewrite elem_of_list_to_set, elem_of_dom, list_elem_of_fmap. split.
    + intros ([j ft] & -> & Hin%elem_of_map_to_list). by eexists.
    + intros [ft Hi]. exists (i, ft). by rewrite elem_of_map_to_list.
  - intros t ft i. unfold list_find_match. destruct (list_find _ t) as [[k [j x]]|] eqn:E; simpl; [|done].
    intros [= <-]. apply list_find_Some in E as (E & _). apply elem_of_list_to_set, list_elem_of_fmap.
    exists (j, x). split; [done|]. by apply list_elem_of_lookup_2 in E.
Qed.

Definition one_visa : VisaTable := mk_visa_table {[ 1000 := mk_visa (mk_sample_visa 1000 5 sample_flow) [(3, 1)] sample_flow ip_default ]}
  [mk_timeout 1000 5] [(1000, sample_flow)].

Lemma expired_visas_removed_witness :
  vt_table (handle_expirations one_visa ∅ 6).1 !! 1000 = None.
Proof.
  assert (vt_inv one_visa) as Hi.
  { split; simpl.
    - intros i v [<- <-]%lookup_singleton_Some. split; [done|]. split; [done|]. split; [by eexists|]. by repeat constructor.
    - intros i v [<- <-]%lookup_singleton_Some. by left.
    - by repeat constructor.
    - rewrite dom_singleton_L. set_solver. }
  pose proof (expired_visas_removed one_visa ∅ 6 Hi) as He. destruct (handle_expirations one_visa ∅ 6) as [t' rs'].
  destruct He as (_ & He & _). simpl. destruct (vt_table t' !! 1000) as [v|] eqn:Hv; [|done].
  destruct (He 1000 v Hv) as [Hv' Hexp]. unfold one_visa in Hv'. simpl in Hv'. rewrite lookup_singleton_eq in Hv'.
  injection Hv' as <-. simpl in Hexp. lia.
Defined.
