(* ===== verification/Node.v ===== *)
(** The node's bind-request state machine, [src/adapter/ph/src/mgmt/node.rs],
    with the visa operations of [visa_mgmt.rs] and [vss_worker.rs], the response
    handlers of [mgmt/handlers.rs] and [Assembly::drop_peer].

    A bind request of a peer goes through a visa request, a bind on the next
    hop and the installation of a route.  The state of the request is kept with
    the requesting peer, the way back with the next-hop peer; routes are linked
    to their visa. *)
From S2P Require Import Prelude Zdp Dispatch TxnMgr Slab Utf8 NetDefs IpHeaders PacketBuf Compress Classifier Tc AdapterTables VisaTable.

Section node.
Context {ND : NetDefs} {VA : VsApi} {SL : Slab}.

Inductive PeerType : Type := PeerNode | PeerAdapter | PeerDock | PeerUnknown.

(** The join handles of the tasks are not kept; the tasks are [nd_tasks]. *)
Inductive BindRequestState : Type :=
| AwaitingVisaResponse
| AwaitingVisaPush (visa_id : Z)
| AwaitingNextHopBind (visa_id egress_link_id : Z) (egress_bind_txn : TxnHandle).

(** What this code uses of a [PeerState]; its forwarding table is in [nd_routes]. *)
Record NodePeer : Type := mk_node_peer {
  np_type : PeerType;
  np_addresses : list IpAddress;
  np_aaa_address : option IpAddress;
  np_txn_mgr : Z;
  bind_request_state : gmap Z BindRequestState;
  awaiting_next_hop_bind_table : gmap TxnHandle (Z * Z);
}.

Inductive RejectReason : Type := PolicyError | PftFull | RemoteReason (msg : bytes).

Inductive NodeMsg : Type :=
| SendStreamIdRequest (link_id txn_id visa_id : Z)
| SendBindEgressStreamRequest (link_id txn_id : Z) (tc : Ip5TupleTc) (key : option bytes)
| SendStreamIdSuccess (link_id txn_id tether_id : Z)
| SendStreamIdError (link_id txn_id : Z) (reason : RejectReason)
| SendBindActorAddressSuccess (link_id txn_id tether_id : Z) (tc : Ip5TupleTc) (key : option bytes)
| SendBindActorAddressError (link_id txn_id : Z) (reason : RejectReason)
| SendUnbindEgressStream (link_id stream_id : Z).

(** The spawned tasks that await the visa service. *)
Inductive VisaTask : Type :=
| TaskVisaRequest (ingress_link_id txn_id : Z) (ft : FiveTuple)
| TaskVisaPush (ingress_link_id txn_id visa_id : Z).

Record Node : Type := mk_node {
  nd_mgrs : Mgrs;
  nd_peers : gmap Z NodePeer;
  nd_routes : gmap Z PeerForwardingTable;
  nd_visas : VisaTable;
  nd_local_addrs : list IpAddress;
  nd_tasks : list VisaTask;
  nd_counters : ManagementCounters;
  nd_out : list NodeMsg;
}.

(** ** Updates *)

Definition nd_with_mgrs (n : Node) (ms : Mgrs) : Node :=
  mk_node ms (nd_peers n) (nd_routes n) (nd_visas n) (nd_local_addrs n) (nd_tasks n) (nd_counters n) (nd_out n).
Definition nd_with_peer (n : Node) (l : Z) (p : NodePeer) : Node :=
  mk_node (nd_mgrs n) (<[l := p]> (nd_peers n)) (nd_routes n) (nd_visas n) (nd_local_addrs n) (nd_tasks n) (nd_counters n) (nd_out n).
Definition nd_with_visas (n : Node) (t : VisaTable) (rs : gmap Z PeerForwardingTable) : Node :=
  mk_node (nd_mgrs n) (nd_peers n) rs t (nd_local_addrs n) (nd_tasks n) (nd_counters n) (nd_out n).
Definition nd_with_tasks (n : Node) (ts : list VisaTask) : Node :=
  mk_node (nd_mgrs n) (nd_peers n) (nd_routes n) (nd_visas n) (nd_local_addrs n) ts (nd_counters n) (nd_out n).
Definition nd_count (n : Node) (c : ManagementCounterType) : Node :=
  mk_node (nd_mgrs n) (nd_peers n) (nd_routes n) (nd_visas n) (nd_local_addrs n) (nd_tasks n)
    (increase_by (nd_counters n) c 1) (nd_out n).
Definition nd_send (n : Node) (m : NodeMsg) : Node :=
  mk_node (nd_mgrs n) (nd_peers n) (nd_routes n) (nd_visas n) (nd_local_addrs n) (nd_tasks n)
    (nd_counters n) (nd_out n ++ [m]).

Definition with_bind_state (p : NodePeer) (m : gmap Z BindRequestState) : NodePeer :=
  mk_node_peer (np_type p) (np_addresses p) (np_aaa_address p) (np_txn_mgr p) m (awaiting_next_hop_bind_table p).
Definition with_awaiting (p : NodePeer) (m : gmap TxnHandle (Z * Z)) : NodePeer :=
  mk_node_peer (np_type p) (np_addresses p) (np_aaa_address p) (np_txn_mgr p) (bind_request_state p) m.

(** The handle a request state owns. *)
Definition state_handles (st : BindRequestState) : list TxnHandle :=
  match st with AwaitingNextHopBind _ _ h => [h] | _ => [] end.

(** Setting the state of a request; a state that is replaced is dropped. *)
Definition set_bind_state (n : Node) (l : Z) (p : NodePeer) (txn_id : Z) (st : BindRequestState) : outcome Node :=
  let old := from_option state_handles [] (bind_request_state p !! txn_id) in
  ms ← drop_handles (nd_mgrs n) old;
  Ret (nd_with_peer (nd_with_mgrs n ms) l (with_bind_state p (<[txn_id := st]> (bind_request_state p)))).

(** ** Addresses and links *)

Definition owns (p : NodePeer) (a : IpAddress) : bool :=
  bool_decide (a ∈ np_addresses p) || bool_decide (np_aaa_address p = Some a).

Definition LOCAL_ACTOR_LINK_ID : Z := 1.

(** [PeerTable::find]: the first peer in the order of the slab. *)
Definition find_peer (f : NodePeer → bool) (ps : gmap Z NodePeer) : option Z :=
  map_fold (λ l p acc, if f p then Some (from_option (Z.min l) l acc) else acc) None ps.

Definition find_egress_link (n : Node) (a : IpAddress) : option Z :=
  if bool_decide (a ∈ nd_local_addrs n) then Some LOCAL_ACTOR_LINK_ID
  else find_peer (λ p, owns p a) (nd_peers n).

Definition get_egress_link_for_visa (n : Node) (visa_id : Z) : VisaTableError + Z :=
  match get_visa_next_hop_addr (nd_visas n) visa_id with
  | inl e => inl e
  | inr addr => match find_egress_link n addr with None => inl (DestNotFound addr) | Some l => inr l end
  end.

(** [visa_mgmt::insert_visa] *)
Definition mgmt_insert_visa (n : Node) (v : VsVisa) : outcome (Node * (VisaTableError + Z)) :=
  if negb (is_full v) then Panic
  else
    match dock_pep v with
    | None => Panic
    | Some pep =>
        let next_hop := default (pep_dest_addr pep) (fwd_next_hop v) in
        match find_egress_link n next_hop with
        | None => Ret (nd_count n VisaRequestError, inl (DestNotFound next_hop))
        | Some _ => r ← insert_visa (nd_visas n) v; Ret (nd_with_visas n r.1 (nd_routes n), inr r.2)
        end
    end.

Definition handle_revocation (n : Node) (visa_id : Z) : Node :=
  let '(t, rs) := revoke (nd_visas n) (nd_routes n) visa_id in nd_with_visas n t rs.

Inductive VisaOp : Type := Grant (v : VsVisa) | RevokeVisaId (i : Z).

Definition process_visaop (n : Node) (op : VisaOp) : outcome (Node * (VisaTableError + unit)) :=
  match op with
  | Grant v =>
      r ← mgmt_insert_visa n v;
      Ret (r.1, match r.2 with inl e => inl e | inr _ => inr tt end)
  | RevokeVisaId i => Ret (handle_revocation n i, inr tt)
  end.

(** ** The bind-request state machine *)

Definition awaits (n : Node) (l : Z) (h : TxnHandle) : bool :=
  match nd_peers n !! l with
  | Some p => bool_decide (is_Some (awaiting_next_hop_bind_table p !! h))
  | None => false
  end.

Definition bind_reject (n : Node) (ingress_link_id txn_id : Z) (reason : RejectReason) : outcome Node :=
  match nd_peers n !! ingress_link_id with
  | None => Ret n
  | Some p =>
      n ← match bind_request_state p !! txn_id with
          | None => Ret n
          | Some st =>
              let n := nd_with_peer n ingress_link_id (with_bind_state p (delete txn_id (bind_request_state p))) in
              match st with
              | AwaitingNextHopBind _ egress_link_id h =>
                  if awaits n egress_link_id h then Panic
                  else ms ← drop_handle (nd_mgrs n) h; Ret (nd_with_mgrs n ms)
              | _ => Ret n
              end
          end;
      Ret (match np_type p with
           | PeerAdapter => nd_send n (SendBindActorAddressError ingress_link_id txn_id reason)
           | PeerNode => nd_send n (SendStreamIdError ingress_link_id txn_id reason)
           | PeerDock | PeerUnknown => n
           end)
  end.

Definition requested_visa_denied (n : Node) (ingress_link_id txn_id : Z) : outcome Node :=
  bind_reject n ingress_link_id txn_id PolicyError.

(** What the next hop is asked: a node by visa, an adapter by classifier. *)
Inductive NextHopRequest : Type := ByVisaId | ByTc (tc : Ip5TupleTc) (key : option bytes).

Definition next_hop_request (n : Node) (egress : NodePeer) (visa_id : Z) : outcome (option NextHopRequest) :=
  match np_type egress with
  | PeerNode => Ret (Some ByVisaId)
  | PeerAdapter =>
      match vt_table (nd_visas n) !! visa_id with
      | None => Ret None
      | Some v => tc ← get_tc v; Ret (Some (ByTc tc (get_ingress_a2a_dh_pubkey v)))
      end
  | PeerDock | PeerUnknown => Ret None
  end.

Definition requested_visa_granted (n : Node) (ingress_link_id txn_id visa_id : Z) : outcome Node :=
  match get_egress_link_for_visa n visa_id with
  | inl _ => requested_visa_denied n ingress_link_id txn_id
  | inr egress_link_id =>
      match nd_peers n !! egress_link_id with
      | None => requested_visa_denied n ingress_link_id txn_id
      | Some egress =>
          req ← next_hop_request n egress visa_id;
          match req with
          | None => requested_visa_denied n ingress_link_id txn_id
          | Some req =>
              match (m ← nd_mgrs n !! np_txn_mgr egress; Some (try_open (np_txn_mgr egress) m)) with
              | Some (Some txn, m) =>
                  let n := nd_with_mgrs n (<[np_txn_mgr egress := m]> (nd_mgrs n)) in
                  match nd_peers n !! ingress_link_id with
                  | None => ms ← drop_handle (nd_mgrs n) txn; Ret (nd_with_mgrs n ms)
                  | Some ingress =>
                      r ← handle_clone (nd_mgrs n) txn;
                      n ← set_bind_state (nd_with_mgrs n r.1) ingress_link_id ingress txn_id
                            (AwaitingNextHopBind visa_id egress_link_id r.2);
                      match nd_peers n !! egress_link_id with
                      | None => Ret n
                      | Some egress =>
                          let n := nd_with_peer n egress_link_id (with_awaiting egress
                                     (<[txn := (ingress_link_id, txn_id)]> (awaiting_next_hop_bind_table egress))) in
                          Ret (nd_send n (match req with
                                          | ByVisaId => SendStreamIdRequest egress_link_id (id txn) visa_id
                                          | ByTc tc key => SendBindEgressStreamRequest egress_link_id (id txn) tc key
                                          end))
                      end
                  end
              | _ => Panic
              end
          end
      end
  end.

(** Launching a visa task for a request. *)
Definition await_visa (n : Node) (l : Z) (p : NodePeer) (txn_id : Z) (st : BindRequestState) (task : VisaTask) : outcome Node :=
  n ← set_bind_state n l p txn_id st; Ret (nd_with_tasks n (nd_tasks n ++ [task])).

Definition bind_actor_address (n : Node) (ingress_link_id txn_id : Z) (packet_body : bytes) : outcome Node :=
  c ← classify_with_options five_tuple_default packet_body (with_ignore_truncated_packets options_default true);
  let '(ft, res) := c in
  match res with
  | inr OK =>
      match nd_peers n !! ingress_link_id with
      | None => Ret n
      | Some p =>
          if negb (owns p (src_address ft)) then requested_visa_denied n ingress_link_id txn_id
          else
            let request := await_visa (nd_count n VisaRequested) ingress_link_id p txn_id AwaitingVisaResponse
                             (TaskVisaRequest ingress_link_id txn_id ft) in
            match table_match_traffic (nd_visas n) ft with
            | None => request
            | Some visa_id =>
                match get_egress_link_for_visa n visa_id with
                | inr _ => requested_visa_granted n ingress_link_id txn_id visa_id
                | inl (VisaNotFound _) => request
                | inl (DestNotFound _) =>
                    requested_visa_denied (nd_count n VisaRequestError) ingress_link_id txn_id
                | inl _ => Panic
                end
            end
      end
  | _ => requested_visa_denied n ingress_link_id txn_id
  end.

Definition request_stream (n : Node) (ingress_link_id txn_id visa_id : Z) : outcome Node :=
  match nd_peers n !! ingress_link_id with
  | None => Ret n
  | Some p =>
      if bool_decide (is_Some (vt_table (nd_visas n) !! visa_id))
      then requested_visa_granted n ingress_link_id txn_id visa_id
      else await_visa (nd_count n VisaByIdRequested) ingress_link_id p txn_id (AwaitingVisaPush visa_id)
             (TaskVisaPush ingress_link_id txn_id visa_id)
  end.

(** What the visa service answers. *)
Inductive VisaAnswer : Type := VisaAllowed (v : VsVisa) | VisaDenied | VisaError.

Definition visa_request_task (n : Node) (ingress_link_id txn_id : Z) (answer : VisaAnswer) : outcome Node :=
  match answer with
  | VisaAllowed v =>
      r ← mgmt_insert_visa n v;
      match r with
      | (n, inr visa_id) => requested_visa_granted (nd_count n VisaRequestSuccess) ingress_link_id txn_id visa_id
      | (n, inl VisaParseError) => requested_visa_denied n ingress_link_id txn_id
      | (_, inl _) => Panic
      end
  | VisaDenied => requested_visa_denied (nd_count n VisaRequestDenied) ingress_link_id txn_id
  | VisaError => requested_visa_denied (nd_count n VisaRequestError) ingress_link_id txn_id
  end.

(** The answer to a request by identifier is a list of visas, or an error. *)
Definition visa_push_request_task (n : Node) (ingress_link_id txn_id req_visa_id : Z) (answer : option (list VsVisa))
    : outcome Node :=
  match answer with
  | None => requested_visa_denied (nd_count n VisaRequestError) ingress_link_id txn_id
  | Some visas =>
      match list_find (λ v, issuer_id v = req_visa_id) visas with
      | None => requested_visa_denied (nd_count n VisaRequestDenied) ingress_link_id txn_id
      | Some (_, v) =>
          r ← mgmt_insert_visa n v;
          match r with
          | (n, inr _) => requested_visa_granted (nd_count n VisaRequestSuccess) ingress_link_id txn_id req_visa_id
          | (n, inl VisaParseError) => requested_visa_denied n ingress_link_id txn_id
          | (_, inl _) => Panic
          end
      end
  end.

Definition requested_tether_granted (n : Node) (ingress_link_id txn_id egress_tether_id : Z) : outcome Node :=
  match nd_peers n !! ingress_link_id with
  | None => Ret n
  | Some ingress =>
      match bind_request_state ingress !! txn_id with
      | Some (AwaitingNextHopBind visa_id egress_link_id h) =>
          if awaits n egress_link_id h then Panic
          else
            let n := nd_with_peer n ingress_link_id (with_bind_state ingress (delete txn_id (bind_request_state ingress))) in
            ms ← drop_handle (nd_mgrs n) h;
            let n := nd_with_mgrs n ms in
            let pft := default pft_new (nd_routes n !! ingress_link_id) in
            match pft_vacant_entry pft with
            | None => bind_reject n ingress_link_id txn_id PftFull
            | Some key =>
                match vt_table (nd_visas n) !! visa_id with
                | None => requested_visa_denied n ingress_link_id txn_id
                | Some v =>
                    let n := nd_with_visas n
                      (table_link_forwarding_entry (nd_visas n) visa_id (ingress_link_id, key)).1 (nd_routes n) in
                    let install (msg : Z → NodeMsg) :=
                      r ← vacant_insert pft (mk_pft_pep (egress_link_id, egress_tether_id) visa_id);
                      Ret (nd_send (nd_with_visas n (nd_visas n) (<[ingress_link_id := r.2]> (nd_routes n))) (msg r.1)) in
                    match np_type ingress with
                    | PeerNode => install (SendStreamIdSuccess ingress_link_id txn_id)
                    | PeerAdapter =>
                        tc ← get_tc v;
                        install (λ tid, SendBindActorAddressSuccess ingress_link_id txn_id tid tc (get_egress_a2a_dh_pubkey v))
                    | PeerDock | PeerUnknown => requested_visa_denied n ingress_link_id txn_id
                    end
                end
            end
      | _ => Ret n
      end
  end.

Inductive NodeInstallError : Type := NoSuchEgressTransaction | EgressLinkClosed.

Definition resolve_next_hop_bind_originator (n : Node) (egress_link_id : Z) (egress_txn : TxnHandle)
    : outcome (Node * (NodeInstallError + Z * Z)) :=
  match nd_peers n !! egress_link_id with
  | None => Ret (n, inl EgressLinkClosed)
  | Some egress =>
      match awaiting_next_hop_bind_table egress !! egress_txn with
      | None => Ret (n, inl NoSuchEgressTransaction)
      | Some (ingress_link_id, ingress_txn_id) =>
          ms ← drop_handle (nd_mgrs n) egress_txn;
          let n := nd_with_peer (nd_with_mgrs n ms) egress_link_id
                     (with_awaiting egress (delete egress_txn (awaiting_next_hop_bind_table egress))) in
          match nd_peers n !! ingress_link_id with
          | None => Ret (n, inr (ingress_link_id, ingress_txn_id))
          | Some ingress =>
              match bind_request_state ingress !! ingress_txn_id with
              | Some (AwaitingNextHopBind _ l h) =>
                  assertb (l =? egress_link_id) (assertb (handle_eq h egress_txn)
                    (Ret (n, inr (ingress_link_id, ingress_txn_id))))
              | _ => Panic
              end
          end
      end
  end.

Definition install_tether (n : Node) (egress_link_id : Z) (egress_txn : TxnHandle) (egress_tether_id : Z)
    : outcome (Node * (NodeInstallError + unit)) :=
  r ← resolve_next_hop_bind_originator n egress_link_id egress_txn;
  match r with
  | (n, inl e) => Ret (n, inl e)
  | (n, inr (l, t)) => n ← requested_tether_granted n l t egress_tether_id; Ret (n, inr tt)
  end.

Definition deny_tether (n : Node) (egress_link_id : Z) (egress_txn : TxnHandle) (reason : bytes)
    : outcome (Node * (NodeInstallError + unit)) :=
  r ← resolve_next_hop_bind_originator n egress_link_id egress_txn;
  match r with
  | (n, inl e) => Ret (n, inl e)
  | (n, inr (l, t)) => n ← bind_reject n l t (RemoteReason reason); Ret (n, inr tt)
  end.

Definition unbind_stream (n : Node) (ingress_link_id stream_id : Z) : Node :=
  match nd_peers n !! ingress_link_id with
  | None => n
  | Some _ =>
      let pft := default pft_new (nd_routes n !! ingress_link_id) in
      match pft_get pft stream_id with
      | None => n
      | Some pep =>
          let rs := <[ingress_link_id := pft_remove pft stream_id]> (nd_routes n) in
          let '(t, _) := unlink_forwarding_entry (nd_visas n) (pft_visa_id pep) (pft_next_hop pep) in
          nd_send (nd_with_visas n t rs) (SendUnbindEgressStream (pft_next_hop pep).1 stream_id)
      end
  end.

(** ** Handlers *)

Definition peer_type_by_id (n : Node) (l : Z) : PeerType := from_option np_type PeerUnknown (nd_peers n !! l).

Inductive NodeHandleError : Type := NErrBadStructure | NErrUnknownTransaction | NErrLinkClosed | NErrNotPermitted.

(** [L3Type] of the [zpr] crate, with its wire form. *)
Context {L3 : Type} (l3Type : packed L3).

(** A stray packet, from link 0, is logged and ignored. *)
Definition handle_bind_actor_address_request (n : Node) (link_id txn_id : Z) (buf : bytes)
    : outcome (Node * (NodeHandleError + unit)) :=
  match read_from_prefix (zdpBindActorAddressRequestHeader l3Type) buf with
  | None => Ret (n, inl NErrBadStructure)
  | Some (hdr, buf) =>
      let len := endpoint_packet_length hdr in
      if zlen buf <? len then Ret (n, inl NErrBadStructure)
      else if link_id =? 0 then Ret (n, inr tt)
      else
        match peer_type_by_id n link_id with
        | PeerAdapter => n ← bind_actor_address n link_id txn_id (take (Z.to_nat len) buf); Ret (n, inr tt)
        | _ => Ret (n, inl NErrNotPermitted)
        end
  end.

Definition handle_stream_id_request (n : Node) (link_id txn_id : Z) (buf : bytes)
    : outcome (Node * (NodeHandleError + unit)) :=
  match read_from_prefix zdpStreamIdRequest buf with
  | None => Ret (n, inl NErrBadStructure)
  | Some (req, _) =>
      if link_id =? 0 then Ret (n, inr tt)
      else
        match peer_type_by_id n link_id with
        | PeerNode => n ← request_stream n link_id txn_id (req_visa_id req); Ret (n, inr tt)
        | _ => Ret (n, inl NErrNotPermitted)
        end
  end.

(** A next hop's answer: a status, and the length of a message for a refusal. *)
Definition parse_tether_response (buf : bytes) : option (option bytes) :=
  '(hdr, buf) ← read_from_prefix zdpBindActorAddressResponseHeader buf;
  if bind_status_code hdr =? response_code ResponseSuccess then Some None
  else if bind_status_code hdr =? response_code ResponseOther then
    if zlen buf <? bind_info_len hdr then None
    else
      let msg := take (Z.to_nat (bind_info_len hdr)) buf in
      if is_str msg then Some (Some msg) else None
  else None.

(** [handle_bind_egress_stream_response], and [handle_stream_id_response], whose
    header has the same layout. *)
Definition handle_tether_response (n : Node) (link_id txn_id stream_id : Z) (buf : bytes)
    : outcome (Node * (NodeHandleError + unit)) :=
  match nd_peers n !! link_id with
  | None => Ret (n, inl NErrLinkClosed)
  | Some p =>
      match nd_mgrs n !! np_txn_mgr p ≫= (λ m, txn_get (np_txn_mgr p) m txn_id) with
      | None => Ret (n, inl NErrUnknownTransaction)
      | Some (txn, m) =>
          let n := nd_with_mgrs n (<[np_txn_mgr p := m]> (nd_mgrs n)) in
          r ← match parse_tether_response buf with
              | None => Ret (n, inl NErrBadStructure)
              | Some resp =>
                  r ← match resp with
                      | None => install_tether n link_id txn stream_id
                      | Some msg => deny_tether n link_id txn msg
                      end;
                  Ret (r.1, match r.2 with
                            | inl NoSuchEgressTransaction => inl NErrUnknownTransaction
                            | inl EgressLinkClosed => inl NErrLinkClosed
                            | inr _ => inr tt
                            end)
              end;
          let '(n, res) := r in
          ms ← drop_handle (nd_mgrs n) txn;
          Ret (nd_with_mgrs n ms, res)
      end
  end.

(** The peer types are the cases of link type and link that the code matches on.
    The dock's arm is [adapter_unbind_stream], on a table that is not the node's. *)
Definition handle_unbind_indication (n : Node) (link_id stream_id : Z) : Node * (NodeHandleError + unit) :=
  if link_id =? 0 then (n, inr tt)
  else
    match nd_peers n !! link_id with
    | None => (n, inl NErrLinkClosed)
    | Some p =>
        match np_type p with
        | PeerAdapter => (unbind_stream n link_id stream_id, inr tt)
        | PeerDock => (n, inr tt)
        | PeerNode | PeerUnknown => (n, inl NErrNotPermitted)
        end
    end.

(** ** Peers *)

Definition peer_handles (p : NodePeer) : list TxnHandle :=
  map_handles (λ kv, state_handles kv.2) (bind_request_state p) ++ map_handles (λ kv, [kv.1]) (awaiting_next_hop_bind_table p).

(** [Assembly::drop_peer]: dropping the [PeerState] drops its tables' handles,
    then its transaction manager. *)
Definition drop_peer (n : Node) (link_id : Z) : outcome Node :=
  let '(t, rs) := revoke_for_link (nd_visas n) (nd_routes n) link_id in
  match nd_peers n !! link_id with
  | None => Ret (nd_with_visas n t rs)
  | Some p =>
      ms ← drop_handles (nd_mgrs n) (peer_handles p);
      Ret (mk_node (delete (np_txn_mgr p) ms) (delete link_id (nd_peers n)) (delete link_id rs) t
             (nd_local_addrs n) (nd_tasks n) (nd_counters n) (nd_out n))
  end.

(** A peer is added at a free link, with a transaction manager at an address
    where none is alive or pointed to. *)
Definition node_handles : gmap Z NodePeer → list TxnHandle := map_handles (λ kv, peer_handles kv.2).

Definition add_peer (n : Node) (link_id : Z) (ty : PeerType) (m : Z) : Node :=
  if decide (is_Some (nd_mgrs n !! m) ∨ is_Some (nd_peers n !! link_id) ∨ Some m ∈ mgr <$> node_handles (nd_peers n)) then n
  else mk_node (<[m := txn_mgr_new]> (nd_mgrs n)) (<[link_id := mk_node_peer ty [] None m ∅ ∅]> (nd_peers n))
         (<[link_id := pft_new]> (nd_routes n)) (nd_visas n) (nd_local_addrs n) (nd_tasks n) (nd_counters n) (nd_out n).

(** Addresses are granted to and taken from a peer. *)
Definition set_addresses (n : Node) (link_id : Z) (l : list IpAddress) (aaa : option IpAddress) : Node :=
  match nd_peers n !! link_id with
  | None => n
  | Some p => nd_with_peer n link_id (mk_node_peer (np_type p) l aaa (np_txn_mgr p) (bind_request_state p)
                                        (awaiting_next_hop_bind_table p))
  end.

(** ** The node as a system *)

Inductive NodeOp : Type :=
| NoBind (link_id txn_id : Z) (buf : bytes)
| NoStream (link_id txn_id : Z) (buf : bytes)
| NoResponse (link_id txn_id stream_id : Z) (buf : bytes)
| NoUnbind (link_id stream_id : Z)
| NoVisaAnswer (k : nat) (answer : VisaAnswer)
| NoPushAnswer (k : nat) (answer : option (list VsVisa))
| NoVisaOp (op : VisaOp)
| NoExpire (now : Z)
| NoConnect (link_id : Z) (ty : PeerType) (m : Z)
| NoAddresses (link_id : Z) (l : list IpAddress) (aaa : option IpAddress)
| NoDrop (link_id : Z).

Definition node_exec (n : Node) (op : NodeOp) : outcome Node :=
  match op with
  | NoBind l t buf => r ← handle_bind_actor_address_request n l t buf; Ret r.1
  | NoStream l t buf => r ← handle_stream_id_request n l t buf; Ret r.1
  | NoResponse l t sid buf => r ← handle_tether_response n l t sid buf; Ret r.1
  | NoUnbind l sid => Ret (handle_unbind_indication n l sid).1
  | NoVisaAnswer k answer =>
      match nd_tasks n !! k with
      | Some (TaskVisaRequest l t _) => visa_request_task (nd_with_tasks n (delete k (nd_tasks n))) l t answer
      | _ => Ret n
      end
  | NoPushAnswer k answer =>
      match nd_tasks n !! k with
      | Some (TaskVisaPush l t i) => visa_push_request_task (nd_with_tasks n (delete k (nd_tasks n))) l t i answer
      | _ => Ret n
      end
  | NoVisaOp op => r ← process_visaop n op; Ret r.1
  | NoExpire now =>
      let '(t, rs) := handle_expirations (nd_visas n) (nd_routes n) now in Ret (nd_with_visas n t rs)
  | NoConnect l ty m => Ret (add_peer n l ty m)
  | NoAddresses l addrs aaa => Ret (set_addresses n l addrs aaa)
  | NoDrop l => drop_peer n l
  end.

Fixpoint node_run (n : Node) (ops : list NodeOp) : outcome Node :=
  match ops with
  | [] => Ret n
  | op :: ops => n ← node_exec n op; node_run n ops
  end.

Definition node_new (local_addrs : list IpAddress) : Node :=
  mk_node ∅ ∅ ∅ visa_table_new local_addrs [] (λ _, 0) [].
End node.
