(* ===== verification/NodeInv.v ===== *)
(** Correctness of the node's bind-request state machine ([Node]): its tables
    agree, its handles are accounted for, and every route it installs is linked
    to a visa it holds. *)
From S2P Require Import Prelude Zdp Dispatch TxnMgr Slab Utf8 NetDefs IpHeaders PacketBuf Compress Classifier Tc AdapterTables VisaTable Node.

Section dock.
Context {ND : NetDefs} {VA : VsApi} {SL : Slab}.
Implicit Types (ps : gmap Z NodePeer) (p : NodePeer) (h : TxnHandle) (ms : Mgrs).

(** ** Requests and ways back *)

(** The transaction manager of a link; the state of request [t] of link [l];
    whose request awaits [h] on link [l]. *)
Definition lmgr ps (l : Z) : option Z := np_txn_mgr <$> ps !! l.
Definition bst ps (l t : Z) : option BindRequestState := p ← ps !! l; bind_request_state p !! t.
Definition awt ps (l : Z) h : option (Z * Z) := p ← ps !! l; awaiting_next_hop_bind_table p !! h.

Definition task_key (k : VisaTask) : Z * Z :=
  match k with TaskVisaRequest l t _ | TaskVisaPush l t _ => (l, t) end.

(** The tables agree; [X] are the handles that the running handler holds. *)
Record dock_inv (N : nat) (X : list TxnHandle) ms ps (ts : list VisaTask) : Prop := {
  di_acc : accounted ms (X ++ node_handles ps);
  di_bound h : (refs h (X ++ node_handles ps) <= N)%nat;
  di_mgr l a : lmgr ps l = Some a → is_Some (ms !! a);
  di_inj l l' a : lmgr ps l = Some a → lmgr ps l' = Some a → l = l';
  (** a way back is for a transaction of its link, and leads to the request *)
  di_await l h l' t : awt ps l h = Some (l', t) →
    mgr h = lmgr ps l ∧ (is_Some (lmgr ps l') → ∃ v, bst ps l' t = Some (AwaitingNextHopBind v l h));
  (** and only to it *)
  di_back l t v l' h x : bst ps l t = Some (AwaitingNextHopBind v l' h) → awt ps l' h = Some x → x = (l, t);
  (** a task's request waits for it *)
  di_task k : k ∈ ts → is_Some (lmgr ps (task_key k).1) →
    ∃ st, bst ps (task_key k).1 (task_key k).2 = Some st ∧ state_handles st = [];
  di_tasks : NoDup (task_key <$> ts);
}.

Lemma bst_Some ps l t st : bst ps l t = Some st ↔ ∃ p, ps !! l = Some p ∧ bind_request_state p !! t = Some st.
Proof. unfold bst. destruct (ps !! l) as [p|] eqn:E; simpl; naive_solver. Qed.

Lemma awt_Some ps l h x : awt ps l h = Some x ↔ ∃ p, ps !! l = Some p ∧ awaiting_next_hop_bind_table p !! h = Some x.
Proof. unfold awt. destruct (ps !! l) as [p|] eqn:E; simpl; naive_solver. Qed.

Lemma peer_bst ps l p t : ps !! l = Some p → bind_request_state p !! t = bst ps l t.
Proof. intros Hp. unfold bst. by rewrite Hp. Qed.

Lemma peer_awt ps l p h : ps !! l = Some p → awaiting_next_hop_bind_table p !! h = awt ps l h.
Proof. intros Hp. unfold awt. by rewrite Hp. Qed.

Lemma peer_lmgr ps l p : ps !! l = Some p → lmgr ps l = Some (np_txn_mgr p).
Proof. intros Hp. unfold lmgr. by rewrite Hp. Qed.

(** *** Updates of one peer *)

Lemma bst_insert ps l p l' t :
  bst (<[l := p]> ps) l' t = if decide (l' = l) then bind_request_state p !! t else bst ps l' t.
Proof.
  unfold bst. destruct (decide (l' = l)) as [->|]; [by rewrite lookup_insert_eq|by rewrite lookup_insert_ne].
Qed.

Lemma awt_insert ps l p l' h :
  awt (<[l := p]> ps) l' h = if decide (l' = l) then awaiting_next_hop_bind_table p !! h else awt ps l' h.
Proof.
  unfold awt. destruct (decide (l' = l)) as [->|]; [by rewrite lookup_insert_eq|by rewrite lookup_insert_ne].
Qed.

Lemma lmgr_insert ps l p l' : lmgr (<[l := p]> ps) l' = if decide (l' = l) then Some (np_txn_mgr p) else lmgr ps l'.
Proof.
  unfold lmgr. destruct (decide (l' = l)) as [->|]; [by rewrite lookup_insert_eq|by rewrite lookup_insert_ne].
Qed.

(** A peer updated in place keeps its manager. *)
Lemma lmgr_update ps l p p' l' : ps !! l = Some p → np_txn_mgr p' = np_txn_mgr p → lmgr (<[l := p']> ps) l' = lmgr ps l'.
Proof. intros Hp E. rewrite lmgr_insert. destruct (decide _) as [->|]; [|done]. by rewrite (peer_lmgr _ _ _ Hp), E. Qed.

(** Updates of the two tables leave the other one alone. *)
Lemma bst_awaiting ps l p m l' t : ps !! l = Some p → bst (<[l := with_awaiting p m]> ps) l' t = bst ps l' t.
Proof. intros Hp. rewrite bst_insert. destruct (decide _) as [->|]; [|done]. simpl. by apply peer_bst. Qed.

Lemma awt_bind ps l p m l' h : ps !! l = Some p → awt (<[l := with_bind_state p m]> ps) l' h = awt ps l' h.
Proof. intros Hp. rewrite awt_insert. destruct (decide _) as [->|]; [|done]. simpl. by apply peer_awt. Qed.

Lemma bst_set ps l p t st l' t' :
  ps !! l = Some p →
  bst (<[l := with_bind_state p (<[t := st]> (bind_request_state p))]> ps) l' t' =
    if decide ((l', t') = (l, t)) then Some st else bst ps l' t'.
Proof.
  intros Hp. rewrite bst_insert. destruct (decide (l' = l)) as [->|]; [|by rewrite decide_False by congruence].
  simpl. destruct (decide (t' = t)) as [->|]; [by rewrite lookup_insert_eq, decide_True|].
  rewrite lookup_insert_ne, decide_False by congruence. by apply peer_bst.
Qed.

Lemma bst_unset ps l p t l' t' :
  ps !! l = Some p →
  bst (<[l := with_bind_state p (delete t (bind_request_state p))]> ps) l' t' =
    if decide ((l', t') = (l, t)) then None else bst ps l' t'.
Proof.
  intros Hp. rewrite bst_insert. destruct (decide (l' = l)) as [->|]; [|by rewrite decide_False by congruence].
  simpl. destruct (decide (t' = t)) as [->|]; [by rewrite lookup_delete_eq, decide_True|].
  rewrite lookup_delete_ne, decide_False by congruence. by apply peer_bst.
Qed.

Lemma awt_set ps l p h x l' h' :
  ps !! l = Some p →
  awt (<[l := with_awaiting p (<[h := x]> (awaiting_next_hop_bind_table p))]> ps) l' h' =
    if decide ((l', h') = (l, h)) then Some x else awt ps l' h'.
Proof.
  intros Hp. rewrite awt_insert. destruct (decide (l' = l)) as [->|]; [|by rewrite decide_False by congruence].
  simpl. destruct (decide (h' = h)) as [->|]; [by rewrite lookup_insert_eq, decide_True|].
  rewrite lookup_insert_ne, decide_False by congruence. by apply peer_awt.
Qed.

Lemma awt_unset ps l p h l' h' :
  ps !! l = Some p →
  awt (<[l := with_awaiting p (delete h (awaiting_next_hop_bind_table p))]> ps) l' h' =
    if decide ((l', h') = (l, h)) then None else awt ps l' h'.
Proof.
  intros Hp. rewrite awt_insert. destruct (decide (l' = l)) as [->|]; [|by rewrite decide_False by congruence].
  simpl. destruct (decide (h' = h)) as [->|]; [by rewrite lookup_delete_eq, decide_True|].
  rewrite lookup_delete_ne, decide_False by congruence. by apply peer_awt.
Qed.

(** The handles a peer has gained and lost. *)
Lemma refs_peer_update h ps l p p' :
  ps !! l = Some p →
  (refs h (node_handles (<[l := p']> ps)) + refs h (peer_handles p) = refs h (node_handles ps) + refs h (peer_handles p'))%nat.
Proof. apply (map_handles_update (λ kv, peer_handles kv.2)). Qed.

Lemma refs_bind_insert h p t st :
  (refs h (peer_handles (with_bind_state p (<[t := st]> (bind_request_state p))))
   + refs h (from_option state_handles [] (bind_request_state p !! t))
   = refs h (peer_handles p) + refs h (state_handles st))%nat.
Proof.
  unfold peer_handles. simpl. rewrite !refs_app. destruct (bind_request_state p !! t) as [st0|] eqn:E; simpl.
  - pose proof (map_handles_update (λ kv, state_handles kv.2) h _ _ _ st E). simpl in *. lia.
  - rewrite map_handles_insert by done. simpl. autorewrite with refs. lia.
Qed.

Lemma refs_bind_delete h p t st :
  bind_request_state p !! t = Some st →
  refs h (peer_handles p) = (refs h (state_handles st) + refs h (peer_handles (with_bind_state p (delete t (bind_request_state p)))))%nat.
Proof.
  intros E. unfold peer_handles. simpl. rewrite !refs_app.
  rewrite (map_handles_delete (λ kv, state_handles kv.2) h _ _ _ E). simpl. lia.
Qed.

Lemma refs_await_insert h p k x :
  awaiting_next_hop_bind_table p !! k = None →
  refs h (peer_handles (with_awaiting p (<[k := x]> (awaiting_next_hop_bind_table p)))) = (is_handle h k + refs h (peer_handles p))%nat.
Proof.
  intros E. unfold peer_handles. simpl. rewrite !refs_app, map_handles_insert by done. simpl. autorewrite with refs. lia.
Qed.

Lemma refs_await_delete h p k x :
  awaiting_next_hop_bind_table p !! k = Some x →
  refs h (peer_handles p) = (is_handle h k + refs h (peer_handles (with_awaiting p (delete k (awaiting_next_hop_bind_table p)))))%nat.
Proof.
  intros E. unfold peer_handles. simpl. rewrite !refs_app.
  rewrite (map_handles_delete (λ kv, [kv.1]) h (awaiting_next_hop_bind_table p) _ _ E). simpl. autorewrite with refs. lia.
Qed.

(** A handle that nobody holds is in no table. *)
Lemma unheld_bst ps h l t v l' : refs h (node_handles ps) = O → bst ps l t ≠ Some (AwaitingNextHopBind v l' h).
Proof.
  intros H0 (p & Hp & Hb)%bst_Some. revert H0. apply (map_handles_pos _ h ps l p Hp). unfold peer_handles. simpl.
  apply elem_of_app. left. apply list_elem_of_bind. exists (t, AwaitingNextHopBind v l' h).
  split; [by left|]. by apply elem_of_map_to_list.
Qed.

Lemma unheld_awt ps h l : refs h (node_handles ps) = O → awt ps l h = None.
Proof.
  intros H0. destruct (awt ps l h) as [x|] eqn:E; [|done]. exfalso. apply awt_Some in E as (p & Hp & Ha). revert H0.
  apply (map_handles_pos _ h ps l p Hp). unfold peer_handles. simpl. apply elem_of_app. right.
  apply list_elem_of_bind. exists (h, x). split; [by left|]. by apply elem_of_map_to_list.
Qed.

(** No way back leads to a request. *)
Definition unawaited ps (l t : Z) : Prop := ∀ l' h, awt ps l' h ≠ Some (l, t).

Section steps.
Context (N : nat) (X : list TxnHandle) ms ps (ts : list VisaTask).
Hypothesis (Hi : dock_inv N X ms ps ts).

Lemma not_next_hop l t :
  is_Some (lmgr ps l) → (∀ v l' h, bst ps l t ≠ Some (AwaitingNextHopBind v l' h)) → unawaited ps l t.
Proof. intros Hl Hb l' h Ha. apply (di_await _ _ _ _ _ Hi) in Ha as [_ Ha]. destruct (Ha Hl) as [v Hv]. by apply Hb in Hv. Qed.

(** A request without a handle in its state is not waiting for a next hop. *)
Lemma no_handle_unawaited l t st :
  bst ps l t = Some st → state_handles st = [] → unawaited ps l t.
Proof.
  intros Hst Hn. apply not_next_hop; [|intros v l' h E; assert (st = AwaitingNextHopBind v l' h) as -> by congruence; done].
  apply bst_Some in Hst as (p & Hp & _). rewrite (peer_lmgr _ _ _ Hp). by eexists.
Qed.

Lemma no_request_unawaited l t : is_Some (lmgr ps l) → bst ps l t = None → unawaited ps l t.
Proof. intros Hl Hn. apply not_next_hop; [done|]. intros v l' h. by rewrite Hn. Qed.

Lemma no_request_no_task l t : is_Some (lmgr ps l) → bst ps l t = None → (l, t) ∉ task_key <$> ts.
Proof.
  intros Hl Hn (k & E & Hk)%list_elem_of_fmap. destruct (di_task _ _ _ _ _ Hi k Hk) as (st & Hst & _); rewrite <- E in *; [done|].
  simpl in *. congruence.
Qed.

(** The handler's own handles. *)
Lemma dock_drop h X' : X = h :: X' → ∃ ms', drop_handle ms h = Ret ms' ∧ dock_inv N X' ms' ps ts.
Proof.
  intros ->. destruct Hi as [Hacc Hbd Hm Hin Ha Hb Ht Hnd]. apply drop_handle_accounted in Hacc as (ms' & E & Hacc & Hd).
  exists ms'. split; [done|]. split; try done.
  - intros h'. specialize (Hbd h'). simpl in Hbd. rewrite refs_add in Hbd. lia.
  - intros l a Hl. apply elem_of_dom. rewrite Hd. apply elem_of_dom. eauto.
Qed.

Lemma dock_add_handle h ms' :
  accounted ms' (h :: X ++ node_handles ps) → (∀ a, is_Some (ms !! a) → is_Some (ms' !! a)) → dock_inv (S N) (h :: X) ms' ps ts.
Proof.
  intros Hacc Hd. destruct Hi as [_ Hbd Hm Hin Ha Hb Ht Hnd]. split; try done; eauto.
  intros h'. specialize (Hbd h'). simpl. rewrite refs_add. unfold is_handle. destruct (decide _); lia.
Qed.

Lemma dock_open a m :
  ms !! a = Some m → open m !! next_free m = None →
  ∃ h m', try_open a m = (Some h, m') ∧ mgr h = Some a ∧ refs h (X ++ node_handles ps) = O ∧
    dock_inv (S N) (h :: X) (<[a := m']> ms) ps ts.
Proof.
  intros Hm Hfree. pose proof (try_open_accounted _ _ (di_acc _ _ _ _ _ Hi) a m Hm) as Ho.
  unfold try_open, try_open_raw in *. rewrite Hfree in *. simpl in *. destruct Ho as (H0 & _ & Ho).
  eexists _, _. split; [done|]. split; [done|]. split; [done|]. apply dock_add_handle; [done|].
  intros b Hb. destruct (decide (b = a)) as [->|]; [rewrite lookup_insert_eq; by eexists|by rewrite lookup_insert_ne].
Qed.

Lemma dock_get a m i h m' :
  ms !! a = Some m → Z.of_nat N < U64_MOD → txn_get a m i = Some (h, m') →
  mgr h = Some a ∧ dock_inv (S N) (h :: X) (<[a := m']> ms) ps ts.
Proof.
  intros Hm HN E. pose proof (di_bound _ _ _ _ _ Hi (mk_handle (Some a) i)).
  destruct (get_accounted _ _ (di_acc _ _ _ _ _ Hi) a m i h m' Hm) as [-> Hacc]; [lia|done|]. split; [done|].
  apply dock_add_handle; [done|].
  intros b Hb. destruct (decide (b = a)) as [->|]; [rewrite lookup_insert_eq; by eexists|by rewrite lookup_insert_ne].
Qed.

Lemma dock_clone h a :
  h ∈ X → Z.of_nat N < U64_MOD → mgr h = Some a → is_Some (ms !! a) →
  ∃ ms', handle_clone ms h = Ret (ms', h) ∧ dock_inv (S N) (h :: X) ms' ps ts.
Proof.
  intros Hh HN Ha Hs. pose proof (di_bound _ _ _ _ _ Hi h).
  destruct (clone_accounted _ _ (di_acc _ _ _ _ _ Hi) h) as (ms' & h' & E & Hacc & Hh' & _ & Hd); [apply elem_of_app; by left|lia|].
  assert (h' = h) as -> by (apply Hh'; unfold upgrade; rewrite Ha; simpl; destruct Hs as [m ->]; by eexists).
  exists ms'. split; [done|]. apply dock_add_handle; [done|]. intros b. by rewrite <- !elem_of_dom, Hd.
Qed.

(** A request that nothing leads back to is forgotten. *)
Lemma dock_forget l t p st :
  ps !! l = Some p → bst ps l t = Some st → unawaited ps l t → (l, t) ∉ task_key <$> ts →
  dock_inv N (state_handles st ++ X) ms (<[l := with_bind_state p (delete t (bind_request_state p))]> ps) ts.
Proof.
  destruct Hi as [Hacc Hbd Hm Hin Ha Hb Ht Hnd]. intros Hp Hst Hna Hnt. set (p' := with_bind_state p _).
  assert (∀ h, refs h ((state_handles st ++ X) ++ node_handles (<[l := p']> ps)) = refs h (X ++ node_handles ps)) as R.
  { intros h. pose proof (refs_peer_update h ps l p p' Hp). rewrite <- (peer_bst ps l p) in Hst by done.
    pose proof (refs_bind_delete h p t st Hst) as Hd. fold p' in Hd. autorewrite with refs. lia. }
  assert (∀ l', lmgr (<[l := p']> ps) l' = lmgr ps l') as Hlm by (intros; by eapply lmgr_update).
  split; [by eapply accounted_refs|intros h; by rewrite R| | | | | |done]; try setoid_rewrite Hlm; try done.
  - intros l0 h l1 t1. unfold p'. rewrite awt_bind by done. intros Haw. destruct (Ha _ _ _ _ Haw) as [Hmg Hex].
    split; [done|]. intros [v Hv]%Hex. exists v. rewrite bst_unset, decide_False; [done| |done].
    intros [= -> ->]. by apply Hna in Haw.
  - intros l0 t0 v l1 h x. unfold p'. rewrite awt_bind, bst_unset by done. destruct (decide _); [done|]. apply Hb.
  - intros k Hk Hs. destruct (Ht k Hk Hs) as (st' & Hst' & Hn). exists st'. split; [|done]. unfold p'.
    rewrite bst_unset, decide_False; [done| |done]. intros Heq. apply Hnt. rewrite <- Heq, <- surjective_pairing. by apply list_elem_of_fmap_2.
Qed.

(** A request gets a new state, which takes over a handle of the handler. *)
Lemma dock_set l t p st X' :
  ps !! l = Some p → X = state_handles st ++ X' → unawaited ps l t → (l, t) ∉ task_key <$> ts →
  (∀ v e h, st = AwaitingNextHopBind v e h → awt ps e h = None) →
  dock_inv N (from_option state_handles [] (bst ps l t) ++ X') ms (<[l := with_bind_state p (<[t := st]> (bind_request_state p))]> ps) ts.
Proof.
  destruct Hi as [Hacc Hbd Hm Hin Ha Hb Ht Hnd]. intros Hp -> Hna Hnt Hfresh. set (p' := with_bind_state p _).
  assert (∀ h, refs h ((from_option state_handles [] (bst ps l t) ++ X') ++ node_handles (<[l := p']> ps)) =
               refs h ((state_handles st ++ X') ++ node_handles ps)) as R.
  { intros h. pose proof (refs_peer_update h ps l p p' Hp). rewrite <- (peer_bst ps l p) by done.
    pose proof (refs_bind_insert h p t st) as Hd. fold p' in Hd. autorewrite with refs. lia. }
  assert (∀ l', lmgr (<[l := p']> ps) l' = lmgr ps l') as Hlm by (intros; by eapply lmgr_update).
  split; [by eapply accounted_refs|intros h; by rewrite R| | | | | |done]; try setoid_rewrite Hlm; try done.
  - intros l0 h l1 t1. unfold p'. rewrite awt_bind by done. intros Haw. destruct (Ha _ _ _ _ Haw) as [Hmg Hex].
    split; [done|]. intros [v Hv]%Hex. exists v. rewrite bst_set, decide_False; [done| |done].
    intros [= -> ->]. by apply Hna in Haw.
  - intros l0 t0 v l1 h x. unfold p'. rewrite awt_bind, bst_set by done. destruct (decide _); [|apply Hb].
    intros [= ->]. by rewrite (Hfresh v l1 h).
  - intros k Hk Hs. destruct (Ht k Hk Hs) as (st' & Hst' & Hn). exists st'. split; [|done]. unfold p'.
    rewrite bst_set, decide_False; [done| |done]. intros Heq. apply Hnt. rewrite <- Heq, <- surjective_pairing. by apply list_elem_of_fmap_2.
Qed.

(** A task is launched for a request. *)
Lemma dock_launch k st :
  bst ps (task_key k).1 (task_key k).2 = Some st → state_handles st = [] → task_key k ∉ task_key <$> ts → dock_inv N X ms ps (ts ++ [k]).
Proof.
  destruct Hi as [Hacc Hbd Hm Hin Ha Hb Ht Hnd]. intros Hst Hn Hnk. split; try done.
  - intros k' [Hk'| ->%list_elem_of_singleton]%elem_of_app; [by apply Ht|eauto].
  - rewrite fmap_app. apply list.NoDup_app. split; [done|]. split; [|apply list.NoDup_singleton].
    by intros x Hx ->%list_elem_of_singleton.
Qed.

Lemma dock_task_done i k : ts !! i = Some k → dock_inv N X ms ps (delete i ts) ∧ task_key k ∉ task_key <$> delete i ts.
Proof.
  destruct Hi as [Hacc Hbd Hm Hin Ha Hb Ht Hnd]. intros Hk.
  pose proof (delete_Permutation _ _ _ Hk) as Hp. rewrite Hp in Hnd. simpl in Hnd. apply list.NoDup_cons in Hnd as [Hnk Hnd].
  split; [|done]. split; try done. intros k' Hk'. apply Ht. rewrite Hp. by right.
Qed.

(** The next hop's peer records the way back. *)
Lemma dock_record e p h l t v X' :
  ps !! e = Some p → X = h :: X' → mgr h = lmgr ps e → awt ps e h = None →
  bst ps l t = Some (AwaitingNextHopBind v e h) → unawaited ps l t →
  (∀ l' t' v', bst ps l' t' = Some (AwaitingNextHopBind v' e h) → (l', t') = (l, t)) →
  dock_inv N X' ms (<[e := with_awaiting p (<[h := (l, t)]> (awaiting_next_hop_bind_table p))]> ps) ts.
Proof.
  destruct Hi as [Hacc Hbd Hm Hin Ha Hb Ht Hnd]. intros Hp -> Hmg Hnone Hst Hna Hu. set (p' := with_awaiting p _).
  assert (∀ h', refs h' (X' ++ node_handles (<[e := p']> ps)) = refs h' ((h :: X') ++ node_handles ps)) as R.
  { intros h'. pose proof (refs_peer_update h' ps e p p' Hp). rewrite <- (peer_awt ps e p) in Hnone by done.
    pose proof (refs_await_insert h' p h (l, t) Hnone) as Hd. fold p' in Hd. autorewrite with refs. lia. }
  assert (∀ l', lmgr (<[e := p']> ps) l' = lmgr ps l') as Hlm by (intros; by eapply lmgr_update).
  split; [by eapply accounted_refs|intros h'; by rewrite R| | | | | |done]; try setoid_rewrite Hlm; try done.
  - intros l0 h0 l1 t1. unfold p'. rewrite awt_set, bst_awaiting by done. destruct (decide _) as [[= -> ->]|]; [|apply Ha].
    intros [= <- <-]. eauto.
  - intros l0 t0 v0 l1 h0 x. unfold p'. rewrite awt_set, bst_awaiting by done. destruct (decide _) as [[= -> ->]|]; [|apply Hb].
    intros H0 [= <-]. symmetry. by eapply Hu.
  - intros k Hk Hs. unfold p'. rewrite bst_awaiting by done. by apply Ht.
Qed.

(** The way back is taken. *)
Lemma dock_resolve e p h l t :
  ps !! e = Some p → awt ps e h = Some (l, t) →
  let ps' := <[e := with_awaiting p (delete h (awaiting_next_hop_bind_table p))]> ps in
  dock_inv N (h :: X) ms ps' ts ∧
  (is_Some (lmgr ps l) → (∃ v, bst ps' l t = Some (AwaitingNextHopBind v e h)) ∧ unawaited ps' l t ∧ (l, t) ∉ task_key <$> ts).
Proof.
  destruct Hi as [Hacc Hbd Hm Hin Ha Hb Ht Hnd]. intros Hp Haw. set (p' := with_awaiting p _).
  assert (∀ h', refs h' ((h :: X) ++ node_handles (<[e := p']> ps)) = refs h' (X ++ node_handles ps)) as R.
  { intros h'. pose proof (refs_peer_update h' ps e p p' Hp). rewrite <- (peer_awt ps e p) in Haw by done.
    pose proof (refs_await_delete h' p h (l, t) Haw) as Hd. fold p' in Hd. autorewrite with refs. lia. }
  assert (∀ l', lmgr (<[e := p']> ps) l' = lmgr ps l') as Hlm by (intros; by eapply lmgr_update). simpl. split.
  - split; [by eapply accounted_refs|intros h'; by rewrite R| | | | | |done]; try setoid_rewrite Hlm; try done.
    + intros l0 h0 l1 t1. unfold p'. rewrite awt_unset, bst_awaiting by done. destruct (decide _); [done|apply Ha].
    + intros l0 t0 v0 l1 h0 x. unfold p'. rewrite awt_unset, bst_awaiting by done. destruct (decide _); [done|apply Hb].
    + intros k Hk Hs. unfold p'. rewrite bst_awaiting by done. by apply Ht.
  - intros Hl. destruct (Ha _ _ _ _ Haw) as [_ Hex]. destruct (Hex Hl) as [v Hv]. split; [|split].
    + exists v. unfold p'. by rewrite bst_awaiting.
    + intros l0 h0. unfold p'. rewrite awt_unset by done. destruct (decide _) as [|Hne]; [done|]. intros H0.
      destruct (Ha _ _ _ _ H0) as [_ Hex0]. destruct (Hex0 Hl) as [v0 Hv0]. congruence.
    + intros (k & E & Hk)%list_elem_of_fmap. destruct (Ht k Hk) as (st & Hst & Hn); rewrite <- E in *; [done|].
      simpl in *. rewrite Hv in Hst. by injection Hst as <-.
Qed.

(** A peer's addresses change. *)
Lemma dock_addresses l p p' :
  ps !! l = Some p → np_txn_mgr p' = np_txn_mgr p → bind_request_state p' = bind_request_state p →
  awaiting_next_hop_bind_table p' = awaiting_next_hop_bind_table p → dock_inv N X ms (<[l := p']> ps) ts.
Proof.
  destruct Hi as [Hacc Hbd Hm Hin Ha Hb Ht Hnd]. intros Hp Em Eb Ea.
  assert (∀ h, refs h (X ++ node_handles (<[l := p']> ps)) = refs h (X ++ node_handles ps)) as R.
  { intros h. pose proof (refs_peer_update h ps l p p' Hp) as Hu. unfold peer_handles in Hu. rewrite Eb, Ea in Hu.
    autorewrite with refs in *. lia. }
  assert (∀ l', lmgr (<[l := p']> ps) l' = lmgr ps l') as Hlm by (intros; by eapply lmgr_update).
  assert (∀ l' t, bst (<[l := p']> ps) l' t = bst ps l' t) as Hbst.
  { intros l' t. rewrite bst_insert. destruct (decide _) as [->|]; [|done]. rewrite Eb. by apply peer_bst. }
  assert (∀ l' h, awt (<[l := p']> ps) l' h = awt ps l' h) as Hawt.
  { intros l' h. rewrite awt_insert. destruct (decide _) as [->|]; [|done]. rewrite Ea. by apply peer_awt. }
  split; [by eapply accounted_refs|intros h; by rewrite R| | | | | |done];
    try setoid_rewrite Hlm; try setoid_rewrite Hbst; try setoid_rewrite Hawt; done.
Qed.

(** A peer connects at a free link that nothing refers to. *)
Lemma dock_connect l a p :
  lmgr ps l = None → ms !! a = None → (∀ h, h ∈ X ++ node_handles ps → mgr h ≠ Some a) →
  np_txn_mgr p = a → bind_request_state p = ∅ → awaiting_next_hop_bind_table p = ∅ →
  (∀ t, unawaited ps l t) → (∀ t, (l, t) ∉ task_key <$> ts) →
  dock_inv N X (<[a := txn_mgr_new]> ms) (<[l := p]> ps) ts.
Proof.
  destruct Hi as [Hacc Hbd Hm Hin Ha Hb Ht Hnd]. intros Hl Hfree Hno <- Eb Ea Hna Hnt.
  assert (ps !! l = None) as Hp by (unfold lmgr in Hl; by destruct (ps !! l)).
  assert (∀ h, refs h (X ++ node_handles (<[l := p]> ps)) = refs h (X ++ node_handles ps)) as R.
  { intros h. unfold node_handles. rewrite !refs_app, map_handles_insert by done. simpl. unfold peer_handles. by rewrite Eb, Ea. }
  assert (∀ l', lmgr ps l' = Some (np_txn_mgr p) → False) as Hfr by (intros l' Hl'; destruct (Hm _ _ Hl'); congruence).
  split; [| |intros l0 a0|intros l0 l1 a0|intros l0 h l1 t1|intros l0 t0 v l1 h x|intros k Hk|done].
  - apply (accounted_refs _ (X ++ node_handles ps)); [exact R|]. split.
    + intros b m i [[<- <-]|[Hne Hm0]]%lookup_insert_Some; [|by apply (acc_refs _ _ Hacc)].
      simpl. rewrite lookup_empty. rewrite refs_not_elem; [done|]. intros Hin0. by apply (Hno _ Hin0).
    + intros b m [[<- <-]|[Hne Hm0]]%lookup_insert_Some; [done|by apply (acc_next _ _ Hacc b)].
  - intros h. by rewrite R.
  - rewrite lmgr_insert. destruct (decide _) as [->|]; [intros [= <-]; rewrite lookup_insert_eq; by eexists|].
    intros Hl0%Hm. destruct (decide (a0 = np_txn_mgr p)) as [->|]; [rewrite lookup_insert_eq; by eexists|by rewrite lookup_insert_ne].
  - rewrite !lmgr_insert. destruct (decide (l0 = l)) as [->|], (decide (l1 = l)) as [->|]; try done; [| |apply Hin].
    + intros [= <-] H1. by destruct (Hfr l1).
    + intros H1 [= <-]. by destruct (Hfr l0).
  - rewrite awt_insert, !lmgr_insert, bst_insert, Ea, Eb. destruct (decide (l0 = l)) as [->|]; [by rewrite lookup_empty|].
    intros Haw. destruct (decide (l1 = l)) as [->|]; [by destruct (Hna t1 l0 h)|]. by apply Ha.
  - rewrite bst_insert, awt_insert, Ea, Eb. destruct (decide (l0 = l)) as [->|]; [by rewrite lookup_empty|].
    destruct (decide (l1 = l)) as [->|]; [by rewrite lookup_empty|]. apply Hb.
  - rewrite lmgr_insert, bst_insert. destruct (decide (_ = l)) as [E|]; [|by apply Ht].
    destruct (Hnt (task_key k).2). rewrite <- E, <- surjective_pairing. by apply list_elem_of_fmap_2.
Qed.

(** A peer goes: its handles, then its manager. *)
Lemma dock_disconnect l p :
  ps !! l = Some p →
  ∃ ms', drop_handles ms (peer_handles p) = Ret ms' ∧ dock_inv N X (delete (np_txn_mgr p) ms') (delete l ps) ts.
Proof.
  destruct Hi as [Hacc Hbd Hm Hin Ha Hb Ht Hnd]. intros Hp.
  assert (∀ h, refs h (X ++ node_handles ps) = (refs h (peer_handles p) + refs h (X ++ node_handles (delete l ps)))%nat) as R.
  { intros h. unfold node_handles. rewrite !refs_app, (map_handles_delete _ h ps l p Hp). simpl. lia. }
  assert (accounted ms (peer_handles p ++ X ++ node_handles (delete l ps))) as Hacc'.
  { refine (accounted_refs _ _ _ _ Hacc). intros h. by rewrite (refs_app h (peer_handles p)), R. }
  apply drop_handles_accounted in Hacc' as (ms' & E & [Hr Hn] & Hd). exists ms'. split; [done|].
  assert (∀ l', lmgr (delete l ps) l' = if decide (l' = l) then None else lmgr ps l') as Hlm.
  { intros l'. unfold lmgr. destruct (decide _) as [->|]; [by rewrite lookup_delete_eq|by rewrite lookup_delete_ne]. }
  assert (∀ l' t, bst (delete l ps) l' t = if decide (l' = l) then None else bst ps l' t) as Hbst.
  { intros l' t. unfold bst. destruct (decide _) as [->|]; [by rewrite lookup_delete_eq|by rewrite lookup_delete_ne]. }
  assert (∀ l' h, awt (delete l ps) l' h = if decide (l' = l) then None else awt ps l' h) as Hawt.
  { intros l' h. unfold awt. destruct (decide _) as [->|]; [by rewrite lookup_delete_eq|by rewrite lookup_delete_ne]. }
  split; [split| |intros l0 a0|intros l0 l1 a0|intros l0 h l1 t1|intros l0 t0 v l1 h x|intros k Hk|done]; rewrite ?Hlm, ?Hbst, ?Hawt.
  - by intros b m i [_ ?]%lookup_delete_Some; apply Hr.
  - by intros b m [_ ?]%lookup_delete_Some; apply (Hn b).
  - intros h. specialize (Hbd h). rewrite R in Hbd. lia.
  - destruct (decide _) as [|Hne]; [done|]. intros Hl0. rewrite lookup_delete_ne.
    + apply elem_of_dom. rewrite Hd. apply elem_of_dom. eauto.
    + intros <-. by destruct Hne; apply (Hin l0 l (np_txn_mgr p)), peer_lmgr.
  - destruct (decide (l0 = l)), (decide (l1 = l)); try done. apply Hin.
  - destruct (decide (l0 = l)); [done|]. intros Haw. destruct (Ha _ _ _ _ Haw) as [Hmg Hex].
    split; [done|]. destruct (decide (l1 = l)); [by intros []|done].
  - destruct (decide (l0 = l)); [done|]. destruct (decide (l1 = l)); [done|]. apply Hb.
  - destruct (decide (_ = l)); [by intros []|]. by apply Ht.
Qed.
End steps.
End dock.
