(* ===== verification/NodeSafe.v ===== *)
(** The node as a system ([Node]): whatever its peers and the visa service send,
    it keeps its tables in agreement and every route it installs can be taken
    away with its visa; and the inputs for which it does not. *)
From S2P Require Import Prelude Zdp Dispatch TxnMgr Slab Utf8 NetDefs IpHeaders PacketBuf Compress Classifier Tc AdapterTables VisaTable Node NodeInv.

Section node_safe.
Context {ND : NetDefs} {VA : VsApi} {SL : Slab} {SLL : SlabLaws} {VAL : VsApiLaws}.
Implicit Types (n : Node) (ps : gmap Z NodePeer) (rs : gmap Z PeerForwardingTable) (o : outcome Node).

(** ** Routes and visas *)

Record visa_inv (t : VisaTable) rs ps : Prop := {
  vn_table : vt_inv t;
  vn_dom : dom rs = dom ps;
  vn_wf : map_Forall (λ _, pft_wf) rs;
  (** a route is linked to a visa that the node holds *)
  vn_linked e pep : entry_wf e → route rs e = Some pep → ∃ v, vt_table t !! pft_visa_id pep = Some v ∧ e ∈ streams v;
}.

Lemma route_default rs l i : route rs (l, i) = pft_get (default pft_new (rs !! l)) i.
Proof. unfold route. simpl. destruct (rs !! l); simpl; [done|]. by rewrite pft_get_new. Qed.

Lemma default_wf rs l : map_Forall (λ _, pft_wf) rs → pft_wf (default pft_new (rs !! l)).
Proof. intros Hw. destruct (rs !! l) eqn:E; simpl; [by apply (Hw l)|apply pft_new_wf]. Qed.

Lemma visa_removal t t' rs rs' ps : visa_inv t rs ps → vt_inv t' → removal t t' rs rs' → visa_inv t' rs' ps.
Proof.
  intros [Hv Hd Hw Hl] Hv' Hr. split; [done|by rewrite (rm_dom _ _ _ _ Hr)|by apply (rm_wf _ _ _ _ Hr)|].
  intros e pep He Hrt. destruct (rm_kept _ _ _ _ Hr e He) as [E|[E _]]; [|congruence]. rewrite Hrt in E. symmetry in E.
  destruct (Hl e pep He E) as (v & Hv0 & Hin). exists v. split; [|done].
  destruct (vt_table t' !! pft_visa_id pep) as [w|] eqn:Hw'; [apply (rm_sub _ _ _ _ Hr) in Hw'; congruence|].
  rewrite (rm_gone _ _ _ _ Hr _ _ e Hv0 Hw' He Hin) in Hrt. done.
Qed.

(** A visa that has no routes is added or replaced. *)
Definition fresh_visa n (v : VsVisa) : bool :=
  is_full v && bool_decide (is_Some (dock_pep v)) &&
  match vt_table (nd_visas n) !! issuer_id v with Some w => bool_decide (streams w = []) | None => true end.

Lemma visa_link t rs ps i v e :
  visa_inv t rs ps → vt_table t !! i = Some v → entry_wf e →
  visa_inv (table_link_forwarding_entry t i e).1 rs ps ∧
  ∃ v', vt_table (table_link_forwarding_entry t i e).1 !! i = Some v' ∧ e ∈ streams v'.
Proof.
  intros [Hv Hd Hw Hl] Hi He. unfold table_link_forwarding_entry. rewrite Hi. simpl. split.
  - split; [|done|done|].
    + apply streams_inv; [done|done|]. destruct (vi_wf _ Hv i v Hi) as (_ & _ & _ & Hs).
      apply Forall_app. split; [done|]. by constructor.
    + intros e' pep He' (w & Hvw & Hin)%Hl; [|done]. simpl. destruct (decide (pft_visa_id pep = i)) as [E|].
      * rewrite E in *. rewrite lookup_insert_eq. eexists. split; [done|]. simpl. apply elem_of_app. left. by assert (w = v) as <- by congruence.
      * rewrite lookup_insert_ne by done. eauto.
  - rewrite lookup_insert_eq. eexists. split; [done|]. simpl. apply elem_of_app. right. by left.
Qed.

Lemma visa_install t rs ps l i pep v pft :
  visa_inv t rs ps → is_Some (ps !! l) → vt_table t !! pft_visa_id pep = Some v → (l, i) ∈ streams v → pft_wf pft →
  (∀ j, is_u32 j → pft_get pft j = if decide (j = i) then Some pep else pft_get (default pft_new (rs !! l)) j) →
  visa_inv t (<[l := pft]> rs) ps.
Proof.
  intros [Hv Hd Hw Hl] Hs Hpep Hin Hwf Hg. split; [done| |by apply map_Forall_insert_2|].
  - rewrite dom_insert_L, Hd. apply elem_of_dom in Hs. set_solver.
  - intros [l' j] pep' He. unfold route. simpl. destruct (decide (l' = l)) as [->|].
    + rewrite lookup_insert_eq. simpl. rewrite Hg by done. destruct (decide (j = i)) as [->|]; [intros [= <-]; eauto|].
      rewrite <- route_default. by apply Hl.
    + rewrite lookup_insert_ne by done. by apply (Hl (l', j)).
Qed.

(** A route is taken away by its peer. *)
Lemma visa_unroute t rs ps l i :
  visa_inv t rs ps → is_Some (ps !! l) → is_u32 i →
  visa_inv t (<[l := pft_remove (default pft_new (rs !! l)) i]> rs) ps.
Proof.
  intros [Hv Hd Hw Hl] Hs Hi. split; [done| | |].
  - rewrite dom_insert_L, Hd. apply elem_of_dom in Hs. set_solver.
  - apply map_Forall_insert_2; [|done]. by apply pft_remove_wf, default_wf.
  - intros [l' j] pep He. unfold route. simpl. destruct (decide (l' = l)) as [->|].
    + rewrite lookup_insert_eq. simpl. rewrite pft_get_remove by done. destruct (decide _); [done|].
      rewrite <- route_default. by apply Hl.
    + rewrite lookup_insert_ne by done. by apply (Hl (l', j)).
Qed.

Lemma visa_connect t rs ps l p :
  visa_inv t rs ps → visa_inv t (<[l := pft_new]> rs) (<[l := p]> ps).
Proof.
  intros [Hv Hd Hw Hl]. split; [done|by rewrite !dom_insert_L, Hd|by apply map_Forall_insert_2; [apply pft_new_wf|]|].
  intros [l' j] pep He. unfold route. simpl. destruct (decide (l' = l)) as [->|].
  - rewrite lookup_insert_eq. simpl. by rewrite pft_get_new.
  - rewrite lookup_insert_ne by done. by apply (Hl (l', j)).
Qed.

Lemma visa_disconnect t rs ps l : visa_inv t rs ps → visa_inv t (delete l rs) (delete l ps).
Proof.
  intros [Hv Hd Hw Hl]. split; [done|by rewrite !dom_delete_L, Hd|by apply map_Forall_delete|].
  intros [l' j] pep He. unfold route. simpl. destruct (decide (l' = l)) as [->|]; [by rewrite lookup_delete_eq|].
  rewrite lookup_delete_ne by done. by apply (Hl (l', j)).
Qed.

Lemma visa_update t rs ps l p : visa_inv t rs ps → is_Some (ps !! l) → visa_inv t rs (<[l := p]> ps).
Proof.
  intros [Hv Hd Hw Hl] Hs. split; [done| |done|done]. rewrite Hd. symmetry. by apply dom_insert_lookup_L.
Qed.

(** ** The invariant of the node *)

Record node_inv (N : nat) (X : list TxnHandle) n : Prop := {
  ni_dock : dock_inv N X (nd_mgrs n) (nd_peers n) (nd_tasks n);
  ni_visa : visa_inv (nd_visas n) (nd_routes n) (nd_peers n);
}.

(** An outcome that is a node with the invariant. *)
Definition good (N : nat) (X : list TxnHandle) o : Prop := ∃ n, o = Ret n ∧ node_inv N X n.

Lemma good_ret N X n : node_inv N X n → good N X (Ret n).
Proof. intros Hn. by exists n. Qed.

Lemma dock_weaken N N' X ms ps ts : (N <= N')%nat → dock_inv N X ms ps ts → dock_inv N' X ms ps ts.
Proof. intros HN [Hacc Hbd Hm Hin Ha Hb Ht Hnd]. split; try done. intros h. specialize (Hbd h). lia. Qed.

Lemma node_weaken N N' X n : (N <= N')%nat → node_inv N X n → node_inv N' X n.
Proof. intros HN [Hd Hv]. split; [by eapply dock_weaken|done]. Qed.

Lemma good_weaken N N' X o : (N <= N')%nat → good N X o → good N' X o.
Proof. intros HN (n & -> & Hn). exists n. split; [done|]. by eapply node_weaken. Qed.

(** Counters and messages are not part of it. *)
Lemma inv_count N X n c : node_inv N X n → node_inv N X (nd_count n c).
Proof. by intros [Hd Hv]. Qed.
Lemma inv_send N X n m : node_inv N X n → node_inv N X (nd_send n m).
Proof. by intros [Hd Hv]. Qed.
Hint Resolve good_ret inv_count inv_send : core.

(** A request that can be settled: nothing leads back to it, no task is for it. *)
Definition ready n (l t : Z) : Prop :=
  is_Some (nd_peers n !! l) → unawaited (nd_peers n) l t ∧ (l, t) ∉ task_key <$> nd_tasks n.

Lemma lmgr_is_Some ps l : is_Some (lmgr ps l) ↔ is_Some (ps !! l).
Proof. unfold lmgr. apply fmap_is_Some. Qed.

Lemma no_request_ready N X n l t : node_inv N X n → bst (nd_peers n) l t = None → ready n l t.
Proof.
  intros [Hd _] Hb Hs%lmgr_is_Some. split; [by eapply no_request_unawaited|by eapply no_request_no_task].
Qed.

Lemma awaits_awt n e h : awaits n e h = bool_decide (is_Some (awt (nd_peers n) e h)).
Proof. unfold awaits, awt. by destruct (nd_peers n !! e). Qed.

(** A request that nothing leads back to is forgotten, with its handle. *)
Lemma forget_request N X n l p t v e h :
  node_inv N X n → ready n l t → nd_peers n !! l = Some p → bst (nd_peers n) l t = Some (AwaitingNextHopBind v e h) →
  let n1 := nd_with_peer n l (with_bind_state p (delete t (bind_request_state p))) in
  awaits n e h = false ∧ awaits n1 e h = false ∧
  ∃ ms, drop_handle (nd_mgrs n1) h = Ret ms ∧ node_inv N X (nd_with_mgrs n1 ms) ∧ ready (nd_with_mgrs n1 ms) l t.
Proof.
  intros [Hd Hv] Hr Hp Hst. destruct (Hr (ex_intro _ _ Hp)) as [Hna Hnt]. simpl. rewrite !awaits_awt. simpl. rewrite awt_bind by done.
  assert (awt (nd_peers n) e h = None) as ->.
  { destruct (awt _ e h) as [x|] eqn:Hx; [|done]. pose proof (di_back _ _ _ _ _ Hd _ _ _ _ _ _ Hst Hx) as ->. by apply Hna in Hx. }
  do 2 (split; [done|]). pose proof (dock_forget _ _ _ _ _ Hd l t p _ Hp Hst Hna Hnt) as Hd'.
  destruct (dock_drop _ _ _ _ _ Hd' h X eq_refl) as (ms & E & Hd''). exists ms. split; [done|].
  assert (node_inv N X (nd_with_mgrs (nd_with_peer n l (with_bind_state p (delete t (bind_request_state p)))) ms)) as Hn.
  { split; [done|]. apply visa_update; [done|]. by eexists. }
  split; [done|]. eapply no_request_ready; [done|]. simpl. by rewrite bst_unset, decide_True.
Qed.

Lemma bind_reject_good N X n l t r : node_inv N X n → ready n l t → good N X (bind_reject n l t r).
Proof.
  intros Hn Hr. pose proof Hn as [Hd Hv]. unfold bind_reject. destruct (nd_peers n !! l) as [p|] eqn:Hp; [|by eauto].
  assert (is_Some (nd_peers n !! l)) as Hs by (by eexists). destruct (Hr Hs) as [Hna Hnt].
  assert (∀ n', node_inv N X n' → good N X (Ret (match np_type p with
            | PeerAdapter => nd_send n' (SendBindActorAddressError l t r)
            | PeerNode => nd_send n' (SendStreamIdError l t r)
            | PeerDock | PeerUnknown => n' end))) as Hsend by (intros n' Hn'; destruct (np_type p); auto).
  destruct (bind_request_state p !! t) as [st|] eqn:Hst; [|by apply (Hsend n)]. rewrite (peer_bst _ l) in Hst by done.
  pose proof (dock_forget _ _ _ _ _ Hd l t p st Hp Hst Hna Hnt) as Hd'.
  destruct st as [|i|i e h]; [apply Hsend; split; [done|by apply visa_update]..|].
  destruct (forget_request _ _ _ _ _ _ _ _ _ Hn Hr Hp Hst) as (_ & -> & ms & -> & Hn1 & _). by apply Hsend.
Qed.

(** Every manager's next transaction identifier is free. *)
Definition free_ids n : bool := bool_decide (map_Forall (λ _ m, open m !! next_free m = None) (nd_mgrs n)).

Lemma get_tc_ret t i v : vt_inv t → vt_table t !! i = Some v → ∃ tc, get_tc v = Ret tc.
Proof.
  intros Ht Hv. destruct (vi_wf _ Ht i v Hv) as (_ & Hf & [pep Hp] & _). unfold get_tc. rewrite Hf, Hp. simpl. eauto.
Qed.

Lemma next_hop_request_ret n p i : vt_inv (nd_visas n) → ∃ r, next_hop_request n p i = Ret r.
Proof.
  intros Ht. unfold next_hop_request. destruct (np_type p); eauto. destruct (vt_table (nd_visas n) !! i) as [v|] eqn:Hv; [|eauto].
  destruct (get_tc_ret _ _ _ Ht Hv) as [tc ->]. simpl. eauto.
Qed.

(** The request starts to wait for the next hop. *)
Lemma await_next_hop N X n l p t e q v h :
  node_inv (S N) (h :: X) n → ready n l t → Z.of_nat (S N) < U64_MOD →
  nd_peers n !! l = Some p → nd_peers n !! e = Some q → mgr h = Some (np_txn_mgr q) →
  refs h (node_handles (nd_peers n)) = O →
  ∃ ms1 n1 q', handle_clone (nd_mgrs n) h = Ret (ms1, h) ∧
    set_bind_state (nd_with_mgrs n ms1) l p t (AwaitingNextHopBind v e h) = Ret n1 ∧
    nd_peers n1 !! e = Some q' ∧
    node_inv (S (S N)) X (nd_with_peer n1 e (with_awaiting q' (<[h := (l, t)]> (awaiting_next_hop_bind_table q')))).
Proof.
  intros [Hd Hv] Hr HN Hp Hq Hmg H0. destruct (Hr (ex_intro _ _ Hp)) as [Hna Hnt]. pose proof (peer_lmgr _ _ _ Hq) as Hlq.
  pose proof (di_mgr _ _ _ _ _ Hd _ _ Hlq) as Hmq.
  destruct (dock_clone _ _ _ _ _ Hd h _ ltac:(by left) HN Hmg Hmq) as (ms1 & E1 & Hd1).
  assert (∀ l', awt (nd_peers n) l' h = None) as Haw by (intros; by apply unheld_awt).
  pose proof (dock_set _ _ _ _ _ Hd1 l t p (AwaitingNextHopBind v e h) (h :: X) Hp eq_refl Hna Hnt
                ltac:(by intros ??? [= <- <- <-])) as Hd2.
  set (ps2 := <[l := with_bind_state p (<[t := AwaitingNextHopBind v e h]> (bind_request_state p))]> (nd_peers n)) in *.
  assert (∃ ms2, drop_handles ms1 (from_option state_handles [] (bst (nd_peers n) l t)) = Ret ms2 ∧
            dock_inv (S (S N)) (h :: X) ms2 ps2 (nd_tasks n)) as (ms2 & E2 & Hd3).
  { destruct (bst (nd_peers n) l t) as [[|?|? ? h0]|]; simpl in *; eauto.
    destruct (dock_drop _ _ _ _ _ Hd2 h0 (h :: X) eq_refl) as (ms2 & -> & ?). simpl. eauto. }
  assert (is_Some (ps2 !! e)) as [q' Hq'].
  { apply lmgr_is_Some. unfold ps2. erewrite lmgr_update by done. rewrite Hlq. by eexists. }
  exists ms1. eexists _, q'. split; [done|]. unfold set_bind_state. simpl. rewrite (peer_bst _ _ _ _ Hp), E2. simpl. split; [done|].
  split; [exact Hq'|]. split; simpl; fold ps2; [|by repeat apply visa_update].
  apply (dock_record _ _ _ _ _ Hd3 e q' h l t v X Hq' eq_refl); unfold ps2.
  - rewrite (lmgr_update _ _ p) by done. by rewrite Hlq.
  - by rewrite awt_bind.
  - by rewrite bst_set, decide_True.
  - intros l' h'. rewrite awt_bind by done. apply Hna.
  - intros l' t' v'. rewrite bst_set by done. destruct (decide _); [done|]. intros Hb. by apply unheld_bst in Hb.
Qed.

Lemma granted_good N X n l t v :
  node_inv N X n → ready n l t → free_ids n → Z.of_nat (S N) < U64_MOD →
  good (S (S N)) X (requested_visa_granted n l t v).
Proof.
  intros Hn Hr Hf HN. assert (good (S (S N)) X (requested_visa_denied n l t)) as Hden.
  { apply (good_weaken N); [lia|]. by apply bind_reject_good. }
  pose proof Hn as [Hd Hv]. unfold requested_visa_granted.
  destruct (get_egress_link_for_visa n v) as [|e]; [done|]. destruct (nd_peers n !! e) as [q|] eqn:Hq; [|done].
  destruct (next_hop_request_ret n q v (vn_table _ _ _ Hv)) as [r ->]. cbn [mbind outcome_bind]. destruct r as [r|]; [|done].
  pose proof (peer_lmgr _ _ _ Hq) as Hlq. destruct (di_mgr _ _ _ _ _ Hd _ _ Hlq) as [m Hm]. rewrite Hm. simpl.
  apply bool_decide_unpack in Hf. destruct (dock_open _ _ _ _ _ Hd _ m Hm (Hf _ _ Hm)) as (h & m' & -> & Hmg & H0 & Hd').
  set (n1 := nd_with_mgrs n _). change (nd_peers n1) with (nd_peers n).
  destruct (nd_peers n !! l) as [p|] eqn:Hp.
  - assert (node_inv (S N) (h :: X) n1) as Hn1 by done.
    rewrite refs_app in H0. destruct (await_next_hop N X n1 l p t e q v h Hn1 Hr HN Hp Hq Hmg ltac:(simpl; lia)) as (ms1 & n2 & q' & E1 & E & Hq' & Hn2). simpl in E1. rewrite E1.
    cbn [mbind outcome_bind fst snd]. rewrite E. cbn [mbind outcome_bind]. rewrite Hq'. by eauto.
  - destruct (dock_drop _ _ _ _ _ Hd' h X eq_refl) as (ms2 & E & Hd2). simpl. rewrite E. simpl.
    apply (good_weaken (S N)); [lia|]. by apply good_ret.
Qed.

Lemma tether_granted_good N X n l t sid :
  node_inv N X n → ready n l t → good N X (requested_tether_granted n l t sid).
Proof.
  intros Hn Hr. unfold requested_tether_granted. destruct (nd_peers n !! l) as [p|] eqn:Hp; [|by eauto].
  destruct (bind_request_state p !! t) as [[|i|v e h]|] eqn:Hst; [by eauto..| |by eauto]. rewrite (peer_bst _ l) in Hst by done.
  destruct (forget_request _ _ _ _ _ _ _ _ _ Hn Hr Hp Hst) as (-> & _ & ms & E & Hn1 & Hr1). rewrite E. cbn [mbind outcome_bind].
  set (n1 := nd_with_mgrs _ ms) in *. set (pft := default pft_new (nd_routes n1 !! l)).
  pose proof Hn1 as [Hd1 Hv1]. assert (pft_wf pft) as Hwf by (apply default_wf, (vn_wf _ _ _ Hv1)).
  destruct (pft_vacant_entry pft) as [key|] eqn:Hkey; [|by apply bind_reject_good].
  destruct (vt_table (nd_visas n1) !! v) as [w|] eqn:Hw; [|by apply bind_reject_good].
  destruct (vacant_insert_spec pft key (mk_pft_pep (e, sid) v) Hwf Hkey) as (Hk & _ & pft' & -> & Hwf' & Hg).
  destruct (visa_link _ _ _ v w (l, key) Hv1 Hw ltac:(split; simpl; lia)) as (Hv2 & w' & Hw' & Hin).
  set (n2 := nd_with_visas n1 _ (nd_routes n1)). assert (node_inv N X n2) as Hn2 by done.
  assert (is_Some (nd_peers n2 !! l)) as Hs by (simpl; rewrite lookup_insert_eq; by eexists).
  assert (∀ m, good N X (Ret (nd_send (nd_with_visas n2 (nd_visas n2) (<[l := pft']> (nd_routes n2))) m))) as Hinst.
  { intros m. apply good_ret, inv_send. split; [done|]. simpl. by eapply (visa_install _ _ _ l key (mk_pft_pep (e, sid) v)). }
  destruct (get_tc_ret _ _ _ (vn_table _ _ _ Hv1) Hw) as [tc ->].
  destruct (np_type p); cbn [mbind outcome_bind fst snd]; [apply Hinst|apply Hinst|by apply bind_reject_good..].
Qed.

(** The way back is taken: what it leads to can be settled. *)
Lemma resolve_good N X n e h :
  node_inv N X n →
  ∃ n' r, resolve_next_hop_bind_originator n e h = Ret (n', r) ∧ node_inv N X n' ∧
    match r with inl _ => True | inr (l, t) => ready n' l t end.
Proof.
  intros Hn. pose proof Hn as [Hd Hv]. unfold resolve_next_hop_bind_originator.
  destruct (nd_peers n !! e) as [q|] eqn:Hq; [|by eauto 10].
  destruct (awaiting_next_hop_bind_table q !! h) as [[l t]|] eqn:Haw; [|by eauto 10]. rewrite (peer_awt _ e) in Haw by done.
  destruct (dock_resolve _ _ _ _ _ Hd e q h l t Hq Haw) as [Hd' Hres].
  destruct (dock_drop _ _ _ _ _ Hd' h X eq_refl) as (ms & E & Hd''). rewrite E. cbn [mbind outcome_bind].
  set (n' := nd_with_peer (nd_with_mgrs n ms) e _). assert (node_inv N X n') as Hn'.
  { split; [done|]. apply visa_update; [done|]. by eexists. }
  assert (is_Some (lmgr (nd_peers n') l) ↔ is_Some (lmgr (nd_peers n) l)) as Hlm.
  { unfold n'. simpl. by rewrite (lmgr_update _ _ q). }
  destruct (nd_peers n' !! l) as [p|] eqn:Hp.
  - destruct Hres as ([v Hb] & Hna & Hnt).
    { apply Hlm. rewrite (peer_lmgr _ _ _ Hp). by eexists. }
    rewrite (peer_bst _ l) by done. unfold n' at 1. cbn [nd_with_peer nd_peers nd_with_mgrs]. rewrite Hb. unfold handle_eq. rewrite bool_decide_eq_true_2 by done.
    rewrite !Z.eqb_refl. eexists _, _. split; [done|]. split; [done|]. by intros _.
  - eexists _, _. split; [done|]. split; [done|]. intros [??]. congruence.
Qed.

Lemma settle_good N X n e h (f : Node → Z → Z → outcome Node) :
  (∀ n l t, node_inv N X n → ready n l t → good N X (f n l t)) → node_inv N X n →
  ∃ n' r, (r ← resolve_next_hop_bind_originator n e h;
           match r with
           | (n, inl err) => Ret (n, inl err)
           | (n, inr (l, t)) => n ← f n l t; Ret (n, inr tt)
           end) = Ret (n', r : NodeInstallError + unit) ∧ node_inv N X n'.
Proof.
  intros Hf Hn. destruct (resolve_good _ _ _ e h Hn) as (n' & r & -> & Hn' & Hr). cbn [mbind outcome_bind].
  destruct r as [|[l t]]; [by eauto|]. destruct (Hf n' l t Hn' Hr) as (n'' & -> & Hn''). simpl. eauto.
Qed.

Lemma tether_response_good N n l t sid buf :
  node_inv N [] n → Z.of_nat N < U64_MOD → ∃ n' r, handle_tether_response n l t sid buf = Ret (n', r) ∧ node_inv (S N) [] n'.
Proof.
  intros Hn HN. pose proof Hn as [Hd Hv]. unfold handle_tether_response.
  assert (node_inv (S N) [] n) as HnS by (by eapply node_weaken; [|done]; lia).
  destruct (nd_peers n !! l) as [p|] eqn:Hp; [|by eauto]. destruct (nd_mgrs n !! np_txn_mgr p) as [m|] eqn:Hm; simpl; [|by eauto].
  destruct (txn_get (np_txn_mgr p) m t) as [[h m']|] eqn:Hg; [|by eauto].
  destruct (dock_get _ _ _ _ _ Hd _ _ _ _ _ Hm HN Hg) as [_ Hd1]. set (n1 := nd_with_mgrs n _).
  assert (node_inv (S N) [h] n1) as Hn1 by done.
  assert (∀ n2 (r : NodeHandleError + unit), node_inv (S N) [h] n2 →
    ∃ n' r', (ms ← drop_handle (nd_mgrs n2) h; Ret (nd_with_mgrs n2 ms, r)) = Ret (n', r' : NodeHandleError + unit) ∧ node_inv (S N) [] n') as Hend.
  { intros n2 r [Hd2 Hv2]. destruct (dock_drop _ _ _ _ _ Hd2 h [] eq_refl) as (ms & -> & Hd3). simpl. eexists _, _. by split. }
  destruct (parse_tether_response buf) as [[msg|]|]; cbn [mbind outcome_bind]; [| |by apply Hend].
  - destruct (settle_good _ _ n1 l h _ (λ n l t, bind_reject_good _ _ n l t (RemoteReason msg)) Hn1) as (n2 & r & E & Hn2).
    unfold deny_tether. rewrite E. cbn [mbind outcome_bind fst snd]. by apply Hend.
  - destruct (settle_good _ _ n1 l h _ (λ n l t, tether_granted_good _ _ n l t sid) Hn1) as (n2 & r & E & Hn2).
    unfold install_tether. rewrite E. cbn [mbind outcome_bind fst snd]. by apply Hend.
Qed.

(** ** Visas from the service *)

Definition reachable n (v : VsVisa) : bool :=
  match dock_pep v with
  | Some pep => bool_decide (is_Some (find_egress_link n (default (pep_dest_addr pep) (fwd_next_hop v))))
  | None => false
  end.

Lemma insert_good N X n v :
  node_inv N X n → fresh_visa n v →
  ∃ n' r, mgmt_insert_visa n v = Ret (n', r) ∧ node_inv N X n' ∧
    nd_mgrs n' = nd_mgrs n ∧ nd_peers n' = nd_peers n ∧ nd_tasks n' = nd_tasks n ∧ (reachable n v → r = inr (issuer_id v)).
Proof.
  intros Hn. pose proof Hn as [Hd [Hv Hdom Hw Hl]]. unfold fresh_visa, reachable, mgmt_insert_visa.
  intros [[Hfull Hpep%bool_decide_unpack]%andb_True Hfresh]%andb_True. apply Is_true_true in Hfull. rewrite Hfull. simpl.
  destruct (insert_visa_inv _ v Hv Hfull Hpep) as (t' & ft & nh & -> & Hv' & Ht'). destruct Hpep as [pep ->].
  destruct (find_egress_link n _) as [e|]; simpl; [|eexists _, _; split; [done|]; split; [by apply inv_count|done]].
  eexists _, _. split; [done|]. split; [|done]. split; [done|]. split; [done|done|done|].
  intros e' pep' He (w & Hw' & Hin)%Hl; [|done]. simpl. rewrite Ht'.
  destruct (decide (pft_visa_id pep' = issuer_id v)) as [E|]; [|rewrite lookup_insert_ne by done; eauto].
  rewrite E in Hw'. rewrite Hw' in Hfresh. apply bool_decide_unpack in Hfresh. rewrite Hfresh in Hin. by apply elem_of_nil in Hin.
Qed.

Lemma await_visa_good N X n l p t st k :
  node_inv N X n → nd_peers n !! l = Some p → bst (nd_peers n) l t = None → state_handles st = [] → task_key k = (l, t) →
  good N X (await_visa n l p t st k).
Proof.
  intros Hn Hp Hb Hst Hk. pose proof Hn as [Hd Hv]. destruct (no_request_ready _ _ _ _ _ Hn Hb (ex_intro _ _ Hp)) as [Hna Hnt].
  unfold await_visa, set_bind_state. rewrite (peer_bst _ _ _ _ Hp), Hb. simpl. apply good_ret.
  pose proof (dock_set _ _ _ _ _ Hd l t p st X Hp ltac:(by rewrite Hst) Hna Hnt ltac:(by intros ??? ->)) as Hd'.
  rewrite Hb in Hd'. simpl in Hd'. split; simpl; [|apply visa_update; [done|by eexists]].
  eapply (dock_launch _ _ _ _ _ Hd'); rewrite ?Hk; [|done|done]. simpl. rewrite bst_set by done. by rewrite decide_True.
Qed.

(** A visa is granted or refused for a request that awaited it. *)
Lemma task_ready N X n i k :
  node_inv N X n → nd_tasks n !! i = Some k →
  let n' := nd_with_tasks n (delete i (nd_tasks n)) in node_inv N X n' ∧ ready n' (task_key k).1 (task_key k).2.
Proof.
  intros [Hd Hv] Hk. destruct (dock_task_done _ _ _ _ _ Hd i k Hk) as [Hd' Hnk]. split; [done|].
  intros Hs%lmgr_is_Some. simpl in *. rewrite <- surjective_pairing. split; [|done].
  apply list_elem_of_lookup_2 in Hk. destruct (di_task _ _ _ _ _ Hd k Hk Hs) as (st & Hst & Hn). by eapply no_handle_unawaited.
Qed.

(** The answer to a task, once its visa is in the table. *)
Lemma insert_granted_good N X n l t v i :
  node_inv N X n → ready n l t → fresh_visa n v → reachable n v → free_ids n → Z.of_nat (S N) < U64_MOD →
  ∃ n', mgmt_insert_visa n v = Ret (n', inr (issuer_id v)) ∧
    good (S (S N)) X (requested_visa_granted (nd_count n' VisaRequestSuccess) l t i).
Proof.
  intros Hn Hr Hf Hreach Hid HN. destruct (insert_good _ _ _ _ Hn Hf) as (n' & r & E & Hn' & Em & Ep & Et & Hok).
  rewrite (Hok Hreach) in E. exists n'. split; [done|]. apply granted_good; [by apply inv_count| | |done].
  - unfold ready. simpl. by rewrite Ep, Et.
  - unfold free_ids. simpl. by rewrite Em.
Qed.

(** ** Operations *)

Context {L3 : Type} (l3Type : packed L3).

(** No request of the link is in progress under this transaction identifier. *)
Definition unused n (l t : Z) : bool := bool_decide (bst (nd_peers n) l t = None).

(** The classifier, which indexes into the packet, gets to its end. *)
Definition classifiable (buf : bytes) : bool :=
  match read_from_prefix (zdpBindActorAddressRequestHeader l3Type) buf with
  | Some (hdr, buf) =>
      is_ret (classify_with_options five_tuple_default (take (Z.to_nat (endpoint_packet_length hdr)) buf)
                (with_ignore_truncated_packets options_default true))
  | None => true
  end.

(** Nothing refers to a link that is not connected. *)
Definition unreferenced n (l : Z) : bool :=
  bool_decide (map_Forall (λ _ p, map_Forall (λ _ x, x.1 ≠ l) (awaiting_next_hop_bind_table p)) (nd_peers n)) &&
  bool_decide (Forall (λ k, (task_key k).1 ≠ l) (nd_tasks n)).

(** What the peers and the visa service are relied on for; see
    [node_unsafe_inputs] and [node_route_leaks] for what happens otherwise. *)
Definition op_ok n (op : NodeOp) : bool :=
  match op with
  | NoBind l t buf => unused n l t && free_ids n && classifiable buf
  | NoStream l t _ => unused n l t && free_ids n
  | NoResponse _ _ _ _ | NoExpire _ | NoAddresses _ _ _ | NoDrop _ | NoVisaOp (RevokeVisaId _) => true
  | NoUnbind l sid =>
      (0 <=? sid) && (sid <? U32_MOD) &&
      match route (nd_routes n) (l, sid) with
      | Some pep => match vt_table (nd_visas n) !! pft_visa_id pep with
                    | Some v => bool_decide (pft_next_hop pep ∉ streams v)
                    | None => true
                    end
      | None => true
      end
  | NoVisaAnswer _ (VisaAllowed v) => fresh_visa n v && reachable n v && free_ids n
  | NoVisaAnswer _ _ => true
  | NoPushAnswer _ (Some vs) => forallb (λ v, fresh_visa n v && reachable n v) vs && free_ids n
  | NoPushAnswer _ None => true
  | NoVisaOp (Grant v) => fresh_visa n v
  | NoConnect l _ _ => unreferenced n l
  end.

(** Along a run. *)
Fixpoint run_ok n (ops : list NodeOp) : bool :=
  match ops with
  | [] => true
  | op :: ops => op_ok n op && match node_exec l3Type n op with Ret n => run_ok n ops | _ => true end
  end.

Lemma bind_good N X n l t body :
  node_inv N X n → unused n l t → free_ids n → Z.of_nat (S N) < U64_MOD →
  is_ret (classify_with_options five_tuple_default body (with_ignore_truncated_packets options_default true)) →
  good (S (S N)) X (bind_actor_address n l t body).
Proof.
  intros Hn Hb%bool_decide_unpack Hf HN Hc. unfold bind_actor_address. pose proof (no_request_ready _ _ _ _ _ Hn Hb) as Hr.
  assert (∀ o, good N X o → good (S (S N)) X o) as Hw by (intros o; apply good_weaken; lia).
  assert (∀ c, good (S (S N)) X (requested_visa_denied (nd_count n c) l t)) as Hden.
  { intros c. apply Hw, bind_reject_good; [by apply inv_count|done]. }
  destruct (classify_with_options _ _ _) as [[ft res]|]; [|done]. cbn [mbind outcome_bind].
  destruct res as [|[]]; try by apply Hw, bind_reject_good. destruct (nd_peers n !! l) as [p|] eqn:Hp; [|by apply Hw, good_ret].
  destruct (owns p (src_address ft)); simpl; [|by apply Hw, bind_reject_good].
  assert (good (S (S N)) X (await_visa (nd_count n VisaRequested) l p t AwaitingVisaResponse (TaskVisaRequest l t ft))) as Hreq.
  { apply Hw, await_visa_good; auto. }
  destruct (table_match_traffic (nd_visas n) ft) as [v|]; [|done]. pose proof (granted_good N X n l t v Hn Hr Hf HN).
  unfold get_egress_link_for_visa, get_visa_next_hop_addr. destruct (vt_table (nd_visas n) !! v); [|done].
  by destruct (find_egress_link n _).
Qed.

Lemma stream_good N X n l t v :
  node_inv N X n → unused n l t → free_ids n → Z.of_nat (S N) < U64_MOD → good (S (S N)) X (request_stream n l t v).
Proof.
  intros Hn Hb%bool_decide_unpack Hf HN. unfold request_stream. pose proof (no_request_ready _ _ _ _ _ Hn Hb) as Hr.
  destruct (nd_peers n !! l) as [p|] eqn:Hp; [|by apply (good_weaken N); [lia|]; apply good_ret].
  destruct (bool_decide _); [by apply granted_good|]. apply (good_weaken N); [lia|]. apply await_visa_good; auto.
Qed.

Lemma visa_request_task_good N X n l t a :
  node_inv N X n → ready n l t → Z.of_nat (S N) < U64_MOD →
  (∀ v, a = VisaAllowed v → fresh_visa n v ∧ reachable n v ∧ free_ids n) → good (S (S N)) X (visa_request_task n l t a).
Proof.
  intros Hn Hr HN Ha. assert (∀ c, good (S (S N)) X (requested_visa_denied (nd_count n c) l t)) as Hden.
  { intros c. apply (good_weaken N); [lia|]. apply bind_reject_good; [by apply inv_count|done]. }
  destruct a as [v| |]; simpl; [|done|done]. destruct (Ha v eq_refl) as (Hf & Hreach & Hid).
  destruct (insert_granted_good _ _ _ _ _ _ (issuer_id v) Hn Hr Hf Hreach Hid HN) as (n' & -> & Hg). done.
Qed.

Lemma visa_push_task_good N X n l t i a :
  node_inv N X n → ready n l t → Z.of_nat (S N) < U64_MOD →
  (∀ vs v, a = Some vs → v ∈ vs → fresh_visa n v ∧ reachable n v ∧ free_ids n) → good (S (S N)) X (visa_push_request_task n l t i a).
Proof.
  intros Hn Hr HN Ha. assert (∀ c, good (S (S N)) X (requested_visa_denied (nd_count n c) l t)) as Hden.
  { intros c. apply (good_weaken N); [lia|]. apply bind_reject_good; [by apply inv_count|done]. }
  destruct a as [vs|]; simpl; [|done]. destruct (list_find _ vs) as [[k v]|] eqn:Hv; [|done].
  apply list_find_Some in Hv as (Hv & _). apply list_elem_of_lookup_2 in Hv. destruct (Ha vs v eq_refl Hv) as (Hf & Hreach & Hid).
  destruct (insert_granted_good _ _ _ _ _ _ i Hn Hr Hf Hreach Hid HN) as (n' & -> & Hg). done.
Qed.

Lemma unbind_good N X n l sid : node_inv N X n → op_ok n (NoUnbind l sid) → node_inv N X (unbind_stream n l sid).
Proof.
  intros Hn [[Hlo Hhi]%andb_True Hok]%andb_True. pose proof Hn as [Hd Hv]. unfold unbind_stream.
  destruct (nd_peers n !! l) as [p|] eqn:Hp; [|done]. rewrite route_default in Hok.
  destruct (pft_get _ sid) as [pep|] eqn:Hpep; [|done]. rewrite Is_true_true in Hlo, Hhi.
  assert ((unlink_forwarding_entry (nd_visas n) (pft_visa_id pep) (pft_next_hop pep)).1 = nd_visas n) as E.
  { apply unlink_absent. intros v Hv0. rewrite Hv0 in Hok. by apply bool_decide_unpack in Hok. }
  destruct (unlink_forwarding_entry _ _ _) as [t b]. simpl in E. subst t. apply inv_send. split; [done|]. simpl.
  apply visa_unroute; [done|by eexists|split; lia].
Qed.

Lemma connect_good N n l ty m : node_inv N [] n → unreferenced n l → node_inv N [] (add_peer n l ty m).
Proof.
  intros Hn [Haw%bool_decide_unpack Ht%bool_decide_unpack]%andb_True. pose proof Hn as [Hd Hv]. unfold add_peer.
  destruct (decide _) as [|Hno]; [done|]. apply Decidable.not_or in Hno as [Hm [Hl Hh]%Decidable.not_or].
  split; simpl; [|by apply visa_connect]. apply (dock_connect _ _ _ _ _ Hd); simpl; try done.
  - apply eq_None_not_Some. by rewrite lmgr_is_Some.
  - by apply eq_None_not_Some.
  - intros h Hin E. destruct Hh. rewrite <- E. by apply list_elem_of_fmap_2.
  - intros t l' h (p & Hp & Ha)%awt_Some. by apply (Haw _ _ Hp _ _ Ha).
  - intros t (k & E & Hk)%list_elem_of_fmap. eapply list.Forall_forall in Ht; [|done]. by rewrite <- E in Ht.
Qed.

Lemma drop_peer_good N n l : node_inv N [] n → good N [] (drop_peer n l).
Proof.
  intros [Hd Hv]. unfold drop_peer. pose proof (revoke_for_link_spec (nd_visas n) (nd_routes n) l (vn_table _ _ _ Hv)) as Hr.
  destruct (revoke_for_link _ _ l) as [t rs]. destruct Hr as (Ht & Hr & _). pose proof (visa_removal _ _ _ _ _ Hv Ht Hr) as Hv'.
  destruct (nd_peers n !! l) as [p|] eqn:Hp; [|by apply good_ret]. destruct (dock_disconnect _ _ _ _ _ Hd l p Hp) as (ms & -> & Hd').
  simpl. apply good_ret. split; [done|]. by apply visa_disconnect.
Qed.

Lemma exec_good N n op :
  node_inv N [] n → op_ok n op → Z.of_nat (S N) < U64_MOD → good (S (S N)) [] (node_exec l3Type n op).
Proof.
  intros Hn Hok HN. pose proof Hn as [Hd Hv]. assert (∀ n', node_inv N [] n' → good (S (S N)) [] (Ret n')) as Hret.
  { intros n' Hn'. apply good_ret. eapply node_weaken; [|done]. lia. }
  destruct op as [l t buf|l t buf|l t sid buf|l sid|k a|k a|op|now|l ty m|l al aaa|l]; cbn [node_exec].
  - destruct (andb_prop_elim _ _ Hok) as [[Hu Hf]%andb_True Hc]. unfold classifiable in Hc. unfold handle_bind_actor_address_request.
    destruct (read_from_prefix _ buf) as [[hdr rest]|]; [|by apply Hret].
    destruct (_ <? _); [by apply Hret|]. destruct (_ =? _); [by apply Hret|]. destruct (peer_type_by_id n l); try by apply Hret.
    destruct (bind_good _ _ _ l t _ Hn Hu Hf HN Hc) as (n' & -> & Hn'). by apply good_ret.
  - destruct (andb_prop_elim _ _ Hok) as [Hu Hf]. unfold handle_stream_id_request.
    destruct (read_from_prefix _ buf) as [[req rest]|]; [|by apply Hret].
    destruct (_ =? _); [by apply Hret|]. destruct (peer_type_by_id n l); try by apply Hret.
    destruct (stream_good _ _ _ l t (req_visa_id req) Hn Hu Hf HN) as (n' & -> & Hn'). by apply good_ret.
  - destruct (tether_response_good _ _ l t sid buf Hn ltac:(lia)) as (n' & r & -> & Hn'). simpl. apply (good_weaken (S N)); [lia|]. by apply good_ret.
  - apply Hret. unfold handle_unbind_indication. destruct (_ =? _); [done|]. destruct (nd_peers n !! l) as [p|]; [|done]. destruct (np_type p); try done. by apply unbind_good.
  - destruct (nd_tasks n !! k) as [[l t ft|]|] eqn:Hk; [|by apply Hret..]. destruct (task_ready _ _ _ _ _ Hn Hk) as [Hn' Hr].
    apply visa_request_task_good; [done|done|done|]. intros v ->. cbn [op_ok] in Hok. by apply andb_True in Hok as [[??]%andb_True ?].
  - destruct (nd_tasks n !! k) as [[|l t i]|] eqn:Hk; [by apply Hret| |by apply Hret]. destruct (task_ready _ _ _ _ _ Hn Hk) as [Hn' Hr].
    apply visa_push_task_good; [done|done|done|]. intros vs v -> Hin. cbn [op_ok] in Hok. apply andb_True in Hok as [Hall ?].
    apply Is_true_true, forallb_forall with (x := v) in Hall; [|by apply list_elem_of_In]. by apply Is_true_true, andb_True in Hall as [??].
  - destruct op as [v|i]; simpl.
    + destruct (insert_good _ _ _ _ Hn Hok) as (n' & r & -> & Hn' & _). simpl. by apply Hret.
    + apply Hret. unfold handle_revocation. pose proof (revoke_spec (nd_visas n) (nd_routes n) i (vn_table _ _ _ Hv)) as Hr.
      destruct (revoke _ _ i) as [t rs]. destruct Hr as (Ht & Hr & _). split; [done|]. by eapply visa_removal.
  - pose proof (handle_expirations_inv (nd_visas n) (nd_routes n) now (vn_table _ _ _ Hv)) as Hr.
    destruct (handle_expirations _ _ now) as [t rs]. destruct Hr as (Ht & Hr). apply Hret. split; [done|]. by eapply visa_removal.
  - by apply Hret, connect_good.
  - apply Hret. unfold set_addresses. destruct (nd_peers n !! l) as [p|] eqn:Hp; [|done]. split; [|by apply visa_update].
    by eapply dock_addresses.
  - apply (good_weaken N); [lia|]. by apply drop_peer_good.
Qed.

Lemma run_good ops N n :
  node_inv N [] n → run_ok n ops → Z.of_nat (N + 2 * length ops) < U64_MOD →
  good (N + 2 * length ops) [] (node_run l3Type n ops).
Proof.
  revert N n. induction ops as [|op ops IH]; intros N n Hn Hok HN; cbn [node_run length] in *.
  - apply (good_weaken N); [lia|]. by apply good_ret.
  - apply andb_True in Hok as [Hop Hok]. destruct (exec_good N n op Hn Hop ltac:(lia)) as (n' & E & Hn').
    rewrite E in Hok |- *. cbn [mbind outcome_bind]. apply (good_weaken (S (S N) + 2 * length ops)); [lia|]. apply IH; [done|done|lia].
Qed.

Lemma node_new_inv addrs : node_inv 0 [] (node_new addrs).
Proof.
  split; simpl.
  - split; [|done..| |apply base.NoDup_nil_2]; [split; intros a m; by intros *; rewrite lookup_empty|by intros k Hk%elem_of_nil].
  - split; [apply vt_new_inv|by rewrite !dom_empty_L|apply map_Forall_empty|]. intros e pep _. unfold route. by rewrite lookup_empty.
Qed.

(** C22: the node is safe.  From its start, whatever its peers, the visa service and
    the clock do within [op_ok], the node never panics; its
    reference counts are the numbers of handles in its tables; a way back leads
    to the one request that waits for that transaction, as long as the
    requester is connected; a pending task is for a request that waits for a
    visa; and every route it has installed is linked to a visa it holds, so
    that revoking the visa takes the route away. *)
Theorem node_system_safe (addrs : list IpAddress) (ops : list NodeOp) :
  run_ok (node_new addrs) ops → Z.of_nat (2 * length ops) < U64_MOD →
  ∃ n, node_run l3Type (node_new addrs) ops = Ret n ∧
    accounted (nd_mgrs n) (node_handles (nd_peers n)) ∧
    (∀ e h l t, awt (nd_peers n) e h = Some (l, t) → is_Some (nd_peers n !! l) →
       (∃ v, bst (nd_peers n) l t = Some (AwaitingNextHopBind v e h)) ∧
       ∀ e' h', awt (nd_peers n) e' h' = Some (l, t) → e' = e ∧ h' = h) ∧
    (∀ k, k ∈ nd_tasks n → is_Some (nd_peers n !! (task_key k).1) →
       ∃ st, bst (nd_peers n) (task_key k).1 (task_key k).2 = Some st ∧ state_handles st = []) ∧
    (∀ e pep, entry_wf e → route (nd_routes n) e = Some pep →
       is_Some (vt_table (nd_visas n) !! pft_visa_id pep) ∧
       route (nd_routes (handle_revocation n (pft_visa_id pep))) e = None).
Proof.
  intros Hok HN. destruct (run_good ops 0 _ (node_new_inv addrs) Hok HN) as (n & E & [Hd Hv]). exists n. split; [done|].
  split; [apply (di_acc _ _ _ _ _ Hd)|]. split; [|split].
  - intros e h l t Ha Hl%lmgr_is_Some. destruct (di_await _ _ _ _ _ Hd _ _ _ _ Ha) as [_ Hex]. destruct (Hex Hl) as [v Hb].
    split; [by eexists|]. intros e' h' Ha'. destruct (di_await _ _ _ _ _ Hd _ _ _ _ Ha') as [_ Hex']. destruct (Hex' Hl) as [v' Hb']. split; congruence.
  - intros k Hk Hs%lmgr_is_Some. by apply (di_task _ _ _ _ _ Hd).
  - intros e pep He Hr. destruct (vn_linked _ _ _ Hv e pep He Hr) as (v & Hv0 & Hin). split; [by eexists|].
    unfold handle_revocation. pose proof (revoke_spec (nd_visas n) (nd_routes n) (pft_visa_id pep) (vn_table _ _ _ Hv)) as Hrev.
    destruct (revoke _ _ _) as [t rs]. destruct Hrev as (_ & Hrm & Ht). simpl.
    apply (rm_gone _ _ _ _ Hrm (pft_visa_id pep) v); try done. by rewrite Ht, lookup_delete_eq.
Qed.
End node_safe.

(** ** Examples

    An adapter on link 2 binds a flow to an adapter on link 3; the visa service
    grants visa 1000, and the next hop answers with stream 42. *)

Definition visa_of (i : Z) : sample_visa := mk_sample_visa i 5 sample_flow.
Definition bind_request (packet : bytes) : bytes := 4 :: be_put 2 (zlen packet) ++ packet.
Definition bind_success : bytes := as_bytes zdpBindActorAddressResponseHeader (mk_ZdpBindActorAddressResponseHeader 0 0).
Definition stream_request (i : Z) : bytes := as_bytes zdpStreamIdRequest (mk_ZdpStreamIdRequest i).

Definition asked (ty : PeerType) : list NodeOp :=
  [NoConnect 2 PeerAdapter 102; NoConnect 3 ty 103; NoAddresses 2 [src_address sample_flow] None;
   NoAddresses 3 [dst_address sample_flow] None; NoBind 2 7 (bind_request sample_packet)].
Definition granted (ty : PeerType) : list NodeOp := asked ty ++ [NoVisaAnswer 0 (VisaAllowed (visa_of 1000))].
Definition bound : list NodeOp := granted PeerAdapter ++ [NoResponse 3 0 42 bind_success].

Definition run_of (ops : list NodeOp) : outcome Node := node_run u8 (node_new []) ops.

(** The visa and next hop of a route after a run. *)
Definition route_of (ops : list NodeOp) (e : ForwardingEntry) : option (Z * ForwardingEntry) :=
  match run_of ops with
  | Ret n => (λ pep, (pft_visa_id pep, pft_next_hop pep)) <$> route (nd_routes n) e
  | Panic => None
  end.

Lemma node_system_safe_witness :
  ∃ n, run_of bound = Ret n ∧ is_Some (route (nd_routes n) (2, 1)) ∧ route (nd_routes (handle_revocation n 1000)) (2, 1) = None.
Proof.
  destruct (node_system_safe u8 [] bound) as (n & E & _ & _ & _ & Hr); [vm_compute; exact I|vm_compute; reflexivity|].
  exists n. split; [exact E|]. assert (route_of bound (2, 1) = Some (1000, (3, 42))) as Hb by (vm_compute; reflexivity).
  unfold route_of, run_of in Hb. rewrite E in Hb. destruct (route (nd_routes n) (2, 1)) as [pep|] eqn:Hp; [|done].
  simpl in Hb. injection Hb as Hv _. split; [by eexists|]. rewrite <- Hv. apply (Hr (2, 1) pep); [split; simpl; lia|exact Hp].
Defined.

(** what [op_ok] rules out does panic the node.  A peer that uses a transaction
    identifier again while its bind is in progress, and the answer to the first
    bind (the assertion of [resolve_next_hop_bind_originator]); a link that is
    dropped and used for another peer while the next hop's answer is
    outstanding ("dock state consistency"); a visa granted for a
    destination that has disconnected meanwhile ("unexpected error type"); a
    bind request whose packet is an IPv4 header with an ICMP protocol number and
    nothing else. *)
Theorem node_unsafe_inputs :
  is_ret (run_of (granted PeerAdapter ++ [NoBind 2 7 (bind_request sample_packet)])) = true ∧
  is_ret (run_of (granted PeerAdapter ++ [NoBind 2 7 (bind_request sample_packet); NoResponse 3 0 42 bind_success])) = false ∧
  is_ret (run_of (granted PeerAdapter ++ [NoDrop 2; NoConnect 2 PeerAdapter 104; NoResponse 3 0 42 bind_success])) = false ∧
  is_ret (run_of (asked PeerAdapter ++ [NoDrop 3; NoVisaAnswer 0 (VisaAllowed (visa_of 1000))])) = false ∧
  is_ret (run_of (asked PeerAdapter ++ [NoBind 2 8 (bind_request empty_icmp)])) = false.
Proof. vm_compute. by repeat split. Qed.

(** routes and visas come apart in three ways.  A visa granted again under the
    same identifier forgets the routes of the first: after its revocation, the
    route of [bound] is still there (without the second grant it is gone).
    Unbinding unlinks the next hop's entry instead of the peer's own, so the
    entry stays linked, and revoking visa 1000 takes away the route that visa
    1001 got in its place; or the entry unlinked is another route's, and that
    route outlives the visa. *)
Theorem node_route_leaks :
  route_of bound (2, 1) = Some (1000, (3, 42)) ∧
  route_of (bound ++ [NoVisaOp (RevokeVisaId 1000)]) (2, 1) = None ∧
  route_of (bound ++ [NoVisaOp (Grant (visa_of 1000)); NoVisaOp (RevokeVisaId 1000)]) (2, 1) = Some (1000, (3, 42)) ∧
  (let rebound := bound ++ [NoVisaOp (Grant (visa_of 1001)); NoUnbind 2 1;
                            NoBind 2 8 (bind_request sample_packet); NoResponse 3 1 43 bind_success] in
   route_of rebound (2, 1) = Some (1001, (3, 43)) ∧
   route_of (rebound ++ [NoVisaOp (RevokeVisaId 1000)]) (2, 1) = None) ∧
  (let both := granted PeerNode ++ [NoResponse 3 0 1 bind_success; NoStream 3 9 (stream_request 1000);
                                    NoResponse 3 1 5 bind_success] in
   route_of (both ++ [NoVisaOp (RevokeVisaId 1000)]) (3, 1) = None ∧
   route_of (both ++ [NoUnbind 2 1; NoVisaOp (RevokeVisaId 1000)]) (3, 1) = Some (1000, (3, 5))).
Proof. vm_compute. by repeat split. Qed.
