(* ===== verification/AddressPool.v ===== *)
(** The node's pool of authentication addresses, [src/adapter/ph/src/address_pool.rs],
    and the ring of latency samples kept per link, [sample_ring.rs]. *)
From S2P Require Import Prelude Zdp NetDefs.

(** ** The address pool *)

Definition MAX_AAA_ID : Z := 0xffffffffff.

Inductive AddressPoolError : Type := InvalidAddress | InvalidPrefixLength.

(** The network is the address and prefix length of an [ipnet::Ipv6Net]. *)
Record AddressPool : Type := mk_pool {
  ipnet_addr : bytes;
  ipnet_prefix_len : Z;
  active : gset Z
}.

Definition address_pool_new (addr : bytes) (prefix_len : Z) : AddressPoolError + AddressPool :=
  if 88 <? prefix_len then inl InvalidPrefixLength else inr (mk_pool addr prefix_len ∅).

(** [Ipv6Addr::segments], and its inverse. *)
Definition segment (l : bytes) (i : nat) : Z := be_get (take 2 (drop (2 * i) l)).
Definition from_segments (l : list Z) : bytes := l ≫= be_put 2.

(** The loop that looks for an identifier that is not active. *)
Fixpoint free_id (fuel : nat) (act : gset Z) (this_id : Z) : option Z :=
  match fuel with
  | O => None
  | S fuel => if decide (this_id ∈ act) then free_id fuel act (wrap64 (this_id + 1) mod MAX_AAA_ID) else Some this_id
  end.

Definition aaa_bytes (base : bytes) (this_id : Z) : bytes :=
  let s5 := Z.lor (Z.land (segment base 5) 0xFF00) (Z.land (Z.shiftr this_id 32) 0xff) in
  from_segments ((segment base <$> [0%nat; 1%nat; 2%nat; 3%nat; 4%nat]) ++
    [s5; wrap16 (Z.shiftr this_id 16); wrap16 (Z.land this_id 0xFFFF)]).

Section pool.
Context {ND : NetDefs}.
Implicit Types act : gset Z.

(** [random] is the number the random generator returns.  One more step than
    there are active identifiers finds a free one ([get_aaa_address_spec]). *)
Definition get_aaa_address (p : AddressPool) (random : Z) : option (AddressPool * IpAddress) :=
  this_id ← free_id (S (size (active p))) (active p) (Z.land random MAX_AAA_ID);
  Some (mk_pool (ipnet_addr p) (ipnet_prefix_len p) ({[ this_id ]} ∪ active p), from_v6 (aaa_bytes (ipnet_addr p) this_id)).

Definition pool_len (p : AddressPool) : Z := Z.of_nat (size (active p)).

(** The identifier of an address: its last five bytes. *)
Definition aaa_id (a : IpAddress) : Z := be_get (drop 11 (v6 a)).

Definition release_address (p : AddressPool) (a : IpAddress) : AddressPoolError + AddressPool :=
  if negb ((nth 6 (v6 a) 0 =? 0x0a) && (nth 7 (v6 a) 0 =? 0xaa)) then inl InvalidAddress
  else inr (mk_pool (ipnet_addr p) (ipnet_prefix_len p) (active p ∖ {[ aaa_id a ]})).

(** *** The loop ends *)

(** Starting below [MAX_AAA_ID], the loop visits different identifiers. *)
Lemma free_id_None n act i :
  free_id n act i = None → 0 <= i < MAX_AAA_ID → ∀ k, 0 <= k < Z.of_nat n → (i + k) mod MAX_AAA_ID ∈ act.
Proof.
  revert i. induction n as [|n IH]; intros i Hn Hi k Hk; [lia|]. simpl in Hn. destruct (decide (i ∈ act)) as [Hin|]; [|done].
  destruct (decide (k = 0)) as [->|]; [by rewrite Z.add_0_r, Z.mod_small|].
  assert (wrap64 (i + 1) = i + 1) as E by (unfold MAX_AAA_ID in *; apply wrap64_small; unfold is_u64; lia). rewrite E in Hn.
  specialize (IH _ Hn ltac:(apply Z.mod_pos_bound; done) (k - 1) ltac:(lia)).
  rewrite Zplus_mod_idemp_l in IH. by replace (i + 1 + (k - 1)) with (i + k) in IH by lia.
Qed.

Lemma visited_size n act i :
  Z.of_nat n <= MAX_AAA_ID → 0 <= i → (∀ k, 0 <= k < Z.of_nat n → (i + k) mod MAX_AAA_ID ∈ act) →
  (n <= size (filter (λ j, (j < MAX_AAA_ID)%Z) act))%nat.
Proof.
  intros Hn Hi Hall. set (l := (λ k, (i + k) mod MAX_AAA_ID) <$> seqZ 0 (Z.of_nat n)).
  assert (NoDup l) as Hnd.
  { apply list.NoDup_alt. intros a b x Ha Hb. unfold l in Ha, Hb. rewrite list_lookup_fmap in Ha, Hb.
    destruct (seqZ 0 _ !! a) as [ka|] eqn:Ea, (seqZ 0 _ !! b) as [kb|] eqn:Eb; simpl in *; try done.
    injection Ha as <-. injection Hb as Heq. apply lookup_seqZ in Ea as [-> Ea], Eb as [-> Eb]. unfold MAX_AAA_ID in *. zmod. }
  replace n with (size (list_to_set l : gset Z)).
  - apply subseteq_size. intros x. rewrite elem_of_list_to_set, elem_of_filter. unfold l.
    intros (k & -> & Hk%elem_of_seqZ)%list_elem_of_fmap. split; [apply Z.mod_pos_bound; done|apply Hall; lia].
  - rewrite size_list_to_set by done. unfold l. rewrite length_fmap, length_seqZ. lia.
Qed.

Lemma free_id_found n act i j : free_id n act i = Some j → 0 <= i <= MAX_AAA_ID → (j ∉ act) ∧ (0 <= j <= MAX_AAA_ID).
Proof.
  revert i. induction n as [|n IH]; intros i Hj Hi; simpl in Hj; [done|]. destruct (decide (i ∈ act)); [|by injection Hj as <-].
  apply IH in Hj; [done|]. pose proof (Z.mod_pos_bound (wrap64 (i + 1)) MAX_AAA_ID ltac:(done)). lia.
Qed.

Lemma free_id_spec act i :
  0 <= i <= MAX_AAA_ID → Z.of_nat (size act) < MAX_AAA_ID →
  ∃ j, free_id (S (size act)) act i = Some j ∧ (j ∉ act) ∧ (0 <= j <= MAX_AAA_ID).
Proof.
  intros Hi Hs. destruct (free_id (S (size act)) act i) as [j|] eqn:E; [eauto using free_id_found|]. exfalso.
  pose proof (subseteq_size (filter (λ j, (j < MAX_AAA_ID)%Z) act) act ltac:(set_solver)) as Hle.
  destruct (decide (i < MAX_AAA_ID)) as [Hlt|Hge].
  - pose proof (visited_size (S (size act)) act i ltac:(lia) ltac:(lia) (free_id_None _ _ _ E ltac:(lia))). lia.
  - cbn [free_id] in E. destruct (decide (i ∈ act)) as [Hin|]; [|done]. assert (Z.of_nat (size act) <= MAX_AAA_ID) as Hs' by lia.
    pose proof (Z.mod_pos_bound (wrap64 (i + 1)) MAX_AAA_ID ltac:(done)) as Hp.
    pose proof (visited_size (size act) act _ Hs' (proj1 Hp) (free_id_None _ _ _ E Hp)) as Hv.
    pose proof (subseteq_size (filter (λ j, (j < MAX_AAA_ID)%Z) act) (act ∖ {[i]}) ltac:(set_solver by lia)) as Hd.
    rewrite size_difference, size_singleton in Hd by set_solver.
    assert (size act ≠ 0%nat) by (intros E0; apply size_empty_inv in E0; set_solver). lia.
Qed.

(** It ends whenever an identifier below [MAX_AAA_ID] is free, and otherwise only if the
    first it looks at is. *)
Lemma free_id_stops act i f : 0 <= i <= MAX_AAA_ID → 0 <= f < MAX_AAA_ID → f ∉ act → free_id (S (size act)) act i ≠ None.
Proof.
  intros Hi Hf Hn E. destruct (decide (Z.of_nat (size act) < MAX_AAA_ID)) as [Hs|Hs].
  { destruct (free_id_spec act i Hi Hs) as (j & Ej & _). congruence. }
  assert (∀ n i0, MAX_AAA_ID <= Z.of_nat n → 0 <= i0 < MAX_AAA_ID → free_id n act i0 ≠ None) as Hall.
  { intros n i0 Hle Hi0 E0. apply Hn. pose proof (Z.mod_pos_bound (f - i0) MAX_AAA_ID ltac:(done)) as Hb.
    pose proof (free_id_None _ _ _ E0 Hi0 ((f - i0) mod MAX_AAA_ID) ltac:(lia)) as Hin.
    rewrite Zplus_mod_idemp_r in Hin. replace (i0 + (f - i0)) with f in Hin by lia. by rewrite Z.mod_small in Hin. }
  destruct (decide (i < MAX_AAA_ID)); [by apply (Hall (S (size act)) i); [lia..|]|].
  cbn [free_id] in E. destruct (decide (i ∈ act)); [|done]. apply (Hall (size act) _) in E; [done|lia|by apply Z.mod_pos_bound].
Qed.

Lemma free_id_loops act i n : 0 <= i <= MAX_AAA_ID → i ∈ act → (∀ j, 0 <= j < MAX_AAA_ID → j ∈ act) → free_id n act i = None.
Proof.
  intros Hi Hin Hall. revert i Hi Hin. induction n as [|n IH]; intros i Hi Hin; [done|]. simpl. rewrite decide_True by done.
  pose proof (Z.mod_pos_bound (wrap64 (i + 1)) MAX_AAA_ID ltac:(done)). apply IH; [lia|]. by apply Hall.
Qed.

(** *** The address *)

Lemma replace_low_byte s x : is_u16 s → is_u8 x → Z.lor (Z.land s 0xFF00) x = s / 256 * 256 + x.
Proof.
  intros Hs Hx. assert (s / 256 * 256 = Z.shiftl (Z.shiftr s 8) 8) as E.
  { by rewrite Z.shiftl_mul_pow2, Z.shiftr_div_pow2 by lia. }
  assert (Z.land s 0xFF00 = s / 256 * 256) as ->.
  { rewrite E. apply Z.bits_inj'. intros n Hn. rewrite Z.land_spec. change 0xFF00 with (Z.shiftl (Z.ones 8) 8).
    destruct (decide (n < 8)); [rewrite !Z.shiftl_spec_low by done; by rewrite andb_false_r|].
    rewrite !Z.shiftl_spec, Z.shiftr_spec by lia. replace (n - 8 + 8) with n by lia.
    destruct (decide (n - 8 < 8)); [rewrite Z.ones_spec_low by lia; by rewrite andb_true_r|].
    rewrite Z.ones_spec_high, andb_false_r by lia. symmetry. apply Z.bits_above_log2; [apply Hs|].
    destruct (decide (s = 0)) as [->|]; [simpl; lia|]. assert (Z.log2 s < 16) by (apply Z.log2_lt_pow2; unfold is_u16 in Hs; lia). lia. }
  rewrite E. rewrite <- Z.add_lor_land. assert (Z.land (Z.shiftl (Z.shiftr s 8) 8) x = 0) as ->; [|lia].
  apply Z.bits_inj'. intros n Hn. rewrite Z.land_spec, Z.bits_0.
  destruct (decide (n < 8)); [by rewrite Z.shiftl_spec_low by done|].
  replace (Z.testbit x n) with false; [by rewrite andb_false_r|]. symmetry. apply Z.bits_above_log2; [apply Hx|].
  destruct (decide (x = 0)) as [->|]; [simpl; lia|]. assert (Z.log2 x < 8) by (apply Z.log2_lt_pow2; unfold is_u8 in Hx; lia). lia.
Qed.

Lemma aaa_bytes_eq base i :
  length base = 16%nat → Forall is_u8 base → 0 <= i <= MAX_AAA_ID → aaa_bytes base i = take 11 base ++ be_put 5 i.
Proof.
  intros Hl Hb Hi. do 16 (destruct base as [|? base]; [done|]). destruct base; [|done]. clear Hl.
  repeat (apply list.Forall_cons in Hb as [? Hb]). unfold aaa_bytes, from_segments, segment. simpl take. simpl drop.
  assert (∀ a b, is_u8 a → is_u8 b → be_put 2 (be_get [a; b]) = [a; b]) as Hseg.
  { intros a b Ha Hb'. apply (be_put_get [a; b]). apply list.Forall_cons; split; [done|]. apply list.Forall_cons; by split. }
  assert (0 <= Z.shiftr i 32 < 256) as Hhi.
  { rewrite Z.shiftr_div_pow2 by lia. unfold MAX_AAA_ID in Hi. change (2 ^ 32) with 4294967296. zmod. }
  assert (Z.land (Z.shiftr i 32) 0xff = Z.shiftr i 32) as ->.
  { change 0xff with (Z.ones 8). rewrite Z.land_ones by lia. by apply Z.mod_small. }
  assert (Z.land i 0xFFFF = i mod 65536) as ->.
  { change 0xFFFF with (Z.ones 16). by rewrite Z.land_ones by lia. }
  rewrite replace_low_byte by (unfold be_get, is_u16, is_u8 in *; simpl; lia).
  cbn -[be_put be_get Z.div Z.shiftr wrap16 Z.modulo Z.mul Z.add]. rewrite !Hseg by done. cbn [app]. do 10 f_equal. rewrite !Z.shiftr_div_pow2 by lia.
  unfold be_get, be_put, wrap16, MAX_AAA_ID in *. simpl.
  repeat (f_equal; [unfold is_u8 in *; zmod|]). f_equal. zmod.
Qed.

(** *** Allocation and release *)

Record pool_wf (p : AddressPool) : Prop := {
  pw_length : length (ipnet_addr p) = 16%nat;
  pw_bytes : Forall is_u8 (ipnet_addr p);
  pw_ids i : i ∈ active p → 0 <= i <= MAX_AAA_ID;
  (** [fd5a:5052:0:aaa::/64] and longer: what [release_address] checks *)
  pw_aaa : nth 6 (ipnet_addr p) 0 = 0x0a ∧ nth 7 (ipnet_addr p) 0 = 0xaa;
}.

(** A pool in any network. *)
Record pool_ok (p : AddressPool) : Prop := {
  po_length : length (ipnet_addr p) = 16%nat;
  po_bytes : Forall is_u8 (ipnet_addr p);
  po_ids i : i ∈ active p → 0 <= i <= MAX_AAA_ID;
}.

(** The network has 0x0aaa in bytes 6 and 7. *)
Definition aaa_network (p : AddressPool) : bool := (nth 6 (ipnet_addr p) 0 =? 0x0a) && (nth 7 (ipnet_addr p) 0 =? 0xaa).

Lemma random_id r : 0 <= r → 0 <= Z.land r MAX_AAA_ID <= MAX_AAA_ID.
Proof.
  intros Hr. change MAX_AAA_ID with (Z.ones 40). rewrite Z.land_ones by lia. change (Z.ones 40) with (2 ^ 40 - 1).
  pose proof (Z.mod_pos_bound r (2 ^ 40) ltac:(lia)). lia.
Qed.

Context {NL : NetDefsLaws}.

Lemma aaa_address_id base i :
  length base = 16%nat → Forall is_u8 base → 0 <= i <= MAX_AAA_ID →
  let a := from_v6 (aaa_bytes base i) in v6 a = take 11 base ++ be_put 5 i ∧ aaa_id a = i.
Proof.
  intros Hl Hb Hi a. assert (v6 a = take 11 base ++ be_put 5 i) as E.
  { unfold a. rewrite aaa_bytes_eq by done. apply v6_from_v6.
    - rewrite length_app, be_put_length, length_take. lia.
    - apply Forall_app. split; [by apply Forall_take|apply be_put_bytes]. }
  split; [done|]. unfold aaa_id. rewrite E, drop_app_length' by (rewrite length_take; lia).
  apply be_get_put. unfold MAX_AAA_ID in Hi. simpl. lia.
Qed.

Lemma get_aaa_address_spec p r :
  pool_wf p → 0 <= r → Z.of_nat (size (active p)) < MAX_AAA_ID →
  ∃ i a, get_aaa_address p r = Some (mk_pool (ipnet_addr p) (ipnet_prefix_len p) ({[ i ]} ∪ active p), a) ∧
    (i ∉ active p) ∧ (0 <= i <= MAX_AAA_ID) ∧ v6 a = take 11 (ipnet_addr p) ++ be_put 5 i ∧ aaa_id a = i.
Proof.
  intros [Hl Hb Hids _] Hr Hs. unfold get_aaa_address.
  pose proof (random_id r Hr) as Hi. destruct (free_id_spec _ _ Hi Hs) as (i & -> & Hn & Hi'). destruct (aaa_address_id _ _ Hl Hb Hi') as [Ev Ei].
  simpl. eexists i, _. done.
Qed.

Lemma pool_wf_alloc p i : pool_wf p → 0 <= i <= MAX_AAA_ID → pool_wf (mk_pool (ipnet_addr p) (ipnet_prefix_len p) ({[ i ]} ∪ active p)).
Proof. intros [Hl Hb Hids Ha] Hi. split; simpl; try done. intros j [->%elem_of_singleton|]%elem_of_union; auto. Qed.

Lemma pool_wf_release p a p' : pool_wf p → release_address p a = inr p' → pool_wf p' ∧ active p' = active p ∖ {[ aaa_id a ]}.
Proof.
  intros [Hl Hb Hids Ha]. unfold release_address. destruct (negb _); [done|]. intros [= <-]. split; [|done].
  split; simpl; try done. intros j [? _]%elem_of_difference. auto.
Qed.

(** What a release does to an address of the pool's network, whether or not the network is
    one it accepts. *)
Lemma release_cases p a i :
  length (ipnet_addr p) = 16%nat → v6 a = take 11 (ipnet_addr p) ++ be_put 5 i → 0 <= i <= MAX_AAA_ID →
  release_address p a =
    if aaa_network p then inr (mk_pool (ipnet_addr p) (ipnet_prefix_len p) (active p ∖ {[ i ]})) else inl InvalidAddress.
Proof.
  intros Hl Hv Hi. unfold release_address, aaa_id, aaa_network. rewrite Hv.
  rewrite !nth_lookup. rewrite !lookup_app_l, !lookup_take_lt by (rewrite ?length_take; lia).
  rewrite drop_app_length' by (rewrite length_take; lia). rewrite be_get_put by (unfold MAX_AAA_ID in Hi; simpl; lia).
  by destruct (_ && _).
Qed.

Lemma release_spec p a i :
  pool_wf p → v6 a = take 11 (ipnet_addr p) ++ be_put 5 i → 0 <= i <= MAX_AAA_ID →
  release_address p a = inr (mk_pool (ipnet_addr p) (ipnet_prefix_len p) (active p ∖ {[ i ]})).
Proof.
  intros [Hl Hb _ [H6 H7]] Hv Hi. rewrite (release_cases p a i) by done. unfold aaa_network. by rewrite H6, H7.
Qed.

(** C30: the address pool, in any network.  If an identifier other than [MAX_AAA_ID] is free, or
    the one that is drawn is, the search ends: the address is in the pool's network, its
    identifier was not active and now is, so no two addresses out are equal; releasing the
    address gives the pool back as it was if the network has 0x0aaa in bytes 6 and 7, and
    otherwise fails.  If not (all are active, or all but [MAX_AAA_ID] and another was
    drawn), the search never ends. *)
Theorem aaa_alloc_release (p : AddressPool) (random : Z) :
  pool_ok p → 0 <= random →
  let drawn := Z.land random MAX_AAA_ID in
  ((drawn ∉ active p) ∨ (∃ i, 0 <= i < MAX_AAA_ID ∧ i ∉ active p) →
    ∃ p' a, get_aaa_address p random = Some (p', a) ∧ pool_ok p' ∧
      take 11 (v6 a) = take 11 (ipnet_addr p) ∧
      (aaa_id a ∉ active p) ∧ active p' = {[ aaa_id a ]} ∪ active p ∧
      release_address p' a = if aaa_network p then inr p else inl InvalidAddress) ∧
  (drawn ∈ active p → (∀ i, 0 <= i < MAX_AAA_ID → i ∈ active p) → ∀ fuel, free_id fuel (active p) drawn = None).
Proof.
  intros [Hl Hb Hids] Hr drawn. pose proof (random_id random Hr) as Hd. fold drawn in Hd. split; [|intros; by apply free_id_loops].
  intros Hfree. unfold get_aaa_address. fold drawn.
  assert (free_id (S (size (active p))) (active p) drawn ≠ None) as Hne.
  { destruct Hfree as [Hn|(f & Hf & Hn)]; [|by eapply free_id_stops]. simpl. by rewrite decide_False. }
  destruct (free_id _ _ drawn) as [i|] eqn:E; [|done]. destruct (free_id_found _ _ _ _ E Hd) as [Hn Hi].
  destruct (aaa_address_id _ _ Hl Hb Hi) as [Hv Hid]. simpl. eexists _, _. split; [done|]. rewrite Hid. split_and!; [..|done|done|].
  - split; simpl; try done. intros j [->%elem_of_singleton|]%elem_of_union; auto.
  - rewrite Hv, take_app_length'; [done|]. by rewrite length_take, Hl.
  - rewrite (release_cases _ _ i) by done. unfold aaa_network. simpl. destruct (_ && _); [|done]. destruct p as [addr len act]. simpl in *.
    do 2 f_equal. set_solver.
Qed.
End pool.

(** ** Latency samples

    [SampleRing<Type, SIZE>] at a type of numbers ([Duration] in the code). *)
Record SampleRing : Type := mk_ring {
  samples : list Z;
  next_sample_idx : nat;
  num_samples : nat
}.

Section ring.
Context (SIZE : nat).

Definition ring_new (init : Z) : SampleRing := mk_ring (replicate SIZE init) 0 0.

Definition ring_add (r : SampleRing) (sample : Z) : SampleRing :=
  mk_ring (<[next_sample_idx r := sample]> (samples r)) ((next_sample_idx r + 1) mod SIZE) (Nat.min SIZE (num_samples r + 1)).

(** [samples[0]] and the loop over [samples[1..num_samples]]. *)
Definition ring_fold (f : Z → Z → Z) (r : SampleRing) : Z :=
  let x := nth 0 (samples r) 0 in
  if (1 <? num_samples r)%nat then fold_left f (drop 1 (take (num_samples r) (samples r))) x else x.

Definition get_min (r : SampleRing) : Z := ring_fold Z.min r.
Definition get_max (r : SampleRing) : Z := ring_fold Z.max r.
Definition get_total_and_count (r : SampleRing) : Z * nat := (ring_fold Z.add r, num_samples r).

(** *** What the ring holds: the most recent samples, oldest first *)

Definition recent (r : SampleRing) : list Z :=
  if (num_samples r <? SIZE)%nat then take (num_samples r) (samples r)
  else drop (next_sample_idx r) (samples r) ++ take (next_sample_idx r) (samples r).

Record ring_wf (r : SampleRing) : Prop := {
  rw_length : length (samples r) = SIZE;
  rw_next : (num_samples r < SIZE)%nat ∧ next_sample_idx r = num_samples r ∨
            num_samples r = SIZE ∧ (next_sample_idx r < SIZE)%nat;
}.

Definition last_n {A} (n : nat) (l : list A) : list A := drop (length l - n) l.

Lemma ring_new_wf init : (0 < SIZE)%nat → ring_wf (ring_new init).
Proof. intros HS. split; simpl; [by rewrite length_replicate|by left]. Qed.

Lemma ring_add_recent r x :
  (0 < SIZE)%nat → ring_wf r → ring_wf (ring_add r x) ∧ recent (ring_add r x) = last_n SIZE (recent r ++ [x]).
Proof.
  intros HS [Hl Hn]. destruct r as [s next num]. simpl in *. split.
  - split; simpl; [by rewrite length_insert|]. destruct Hn as [[Hlt ->]|[-> Hlt]].
    + destruct (decide (num + 1 = SIZE)%nat) as [E|].
      * right. split; [lia|]. apply Nat.mod_upper_bound. lia.
      * left. rewrite Nat.mod_small by lia. lia.
    + right. split; [lia|]. apply Nat.mod_upper_bound. lia.
  - unfold recent, ring_add, last_n. simpl. destruct Hn as [[Hlt ->]|[-> Hlt]].
    + rewrite (proj2 (Nat.ltb_lt num SIZE)) by done. rewrite length_app, length_take. simpl.
      replace (num `min` length s + 1 - SIZE)%nat with 0%nat by lia. rewrite drop_0.
      assert (take (S num) (<[num := x]> s) = take num s ++ [x]) as E.
      { rewrite (take_S_r _ _ x) by (rewrite list_lookup_insert_eq; [done|lia]). by rewrite take_insert_ge by lia. }
      destruct (decide (S num = SIZE)) as [E1|].
      * rewrite Nat.min_l, Nat.ltb_irrefl by lia. replace (num + 1)%nat with SIZE by lia.
        rewrite Nat.Div0.mod_same, drop_0, app_nil_r. rewrite <- E, E1. rewrite take_ge by (rewrite length_insert; lia). done.
      * rewrite Nat.min_r, (proj2 (Nat.ltb_lt _ SIZE)) by lia. by replace (num + 1)%nat with (S num) by lia.
    + rewrite Nat.min_l, Nat.ltb_irrefl by lia. rewrite !length_app, length_drop, length_take. simpl.
      replace (length s - next + next `min` length s + 1 - SIZE)%nat with 1%nat by lia.
      destruct (lookup_lt_is_Some_2 s next ltac:(lia)) as [y Hy]. rewrite (drop_S s y next Hy). simpl. rewrite drop_0.
      destruct (decide (next + 1 = SIZE)%nat) as [E|].
      * rewrite E, Nat.Div0.mod_same, drop_0, app_nil_r. rewrite (drop_ge s (S next)) by lia. simpl.
        rewrite <- (take_insert_ge s next next x) by lia. rewrite <- (take_S_r _ _ x) by (rewrite list_lookup_insert_eq; [done|lia]).
        by rewrite take_ge by (rewrite length_insert; lia).
      * rewrite Nat.mod_small by lia. rewrite drop_insert_lt by lia. replace (next + 1)%nat with (S next) by lia.
        rewrite (take_S_r _ next x) by (rewrite list_lookup_insert_eq; [done|lia]). rewrite take_insert_ge by lia. by rewrite app_assoc.
Qed.

Lemma last_n_last_n {A} n (l : list A) x : last_n n (last_n n l ++ [x]) = last_n n (l ++ [x]).
Proof.
  unfold last_n. rewrite !length_app, length_drop. simpl. destruct (decide (length l <= n)%nat) as [Hle|Hgt].
  - by replace (length l - n)%nat with 0%nat by lia; rewrite drop_0, Nat.sub_0_r.
  - destruct n as [|n].
    + rewrite !drop_ge by (rewrite length_app, ?length_drop; simpl; lia). done.
    + rewrite !drop_app_le by (rewrite ?length_drop; lia). rewrite drop_drop. do 2 f_equal. lia.
Qed.

Lemma ring_all_recent xs init :
  (0 < SIZE)%nat → let r := fold_left ring_add xs (ring_new init) in ring_wf r ∧ recent r = last_n SIZE xs.
Proof.
  intros HS. induction xs as [|x xs IH] using rev_ind; simpl.
  - split; [by apply ring_new_wf|]. unfold recent. simpl. by rewrite (proj2 (Nat.ltb_lt 0 SIZE)) by done.
  - rewrite fold_left_app. simpl. destruct IH as [Hw Hr]. destruct (ring_add_recent _ x HS Hw) as [Hw' Hr'].
    split; [done|]. by rewrite Hr', Hr, last_n_last_n.
Qed.

(** The loops run over the samples that the ring holds, in another order. *)
Lemma ring_fold_perm f r :
  ring_wf r → recent r ≠ [] → ∃ x l, ring_fold f r = fold_left f l x ∧ x :: l ≡ₚ recent r ∧ num_samples r = length (recent r).
Proof.
  intros [Hl Hn] Hne. destruct r as [s next num]. simpl in *.
  assert (take num s ≡ₚ recent (mk_ring s next num) ∧ num = length (recent (mk_ring s next num))) as [Hp Hlen].
  { unfold recent. simpl. destruct Hn as [[Hlt _]|[-> Hlt]].
    - rewrite (proj2 (Nat.ltb_lt num SIZE)) by done. split; [done|]. rewrite length_take. lia.
    - rewrite Nat.ltb_irrefl. split; [|rewrite length_app, length_drop, length_take; lia].
      rewrite take_ge by lia. rewrite <- (take_drop next s) at 1. apply Permutation_app_comm. }
  destruct (take num s) as [|x l] eqn:E; [by apply Permutation_nil in Hp|]. exists x, l. split; [|done].
  unfold ring_fold. simpl. destruct num as [|num]; [done|]. destruct s as [|y s]; [done|]. simpl in E. injection E as <- <-.
  destruct (Nat.ltb_spec 1 (S num)); [by rewrite ?drop_0|]. assert (num = 0%nat) as -> by lia. by rewrite take_0.
Qed.

Lemma fold_least (f : Z → Z → Z) (le : Z → Z → Prop) l x :
  Transitive le → Reflexive le → (∀ a b, (f a b = a ∨ f a b = b) ∧ le (f a b) a ∧ le (f a b) b) →
  fold_left f l x ∈ x :: l ∧ ∀ y, y ∈ x :: l → le (fold_left f l x) y.
Proof.
  intros Ht Hr Hf. revert x. induction l as [|y l IH]; intros x; cbn [fold_left].
  - split; [by left|]. by intros y ->%list_elem_of_singleton.
  - destruct (IH (f x y)) as [Hin Hle], (Hf x y) as (Hor & Hx & Hy). split.
    + apply elem_of_cons in Hin as [->|]; [|by right; right]. destruct Hor as [->| ->]; [by left|by right; left].
    + intros z [->|[->|Hz]%elem_of_cons]%elem_of_cons; [|by etrans; [apply Hle; left|]|by apply Hle; right].
      by etrans; [apply Hle; left|].
Qed.

(** The ring of samples.  After any sequence of samples the ring holds the last
    [SIZE] of them; the minimum, maximum, total and count it reports are those
    of the samples it holds. *)
Theorem ring_reports_recent (init : Z) (xs : list Z) :
  (0 < SIZE)%nat → xs ≠ [] →
  let r := fold_left ring_add xs (ring_new init) in
  let held := last_n SIZE xs in
  recent r = held ∧
  (get_min r ∈ held ∧ ∀ y, y ∈ held → get_min r <= y) ∧
  (get_max r ∈ held ∧ ∀ y, y ∈ held → y <= get_max r) ∧
  get_total_and_count r = (foldr Z.add 0 held, Nat.min SIZE (length xs)).
Proof.
  intros HS Hxs r held. destruct (ring_all_recent xs init HS) as [Hw Hr]. fold r in Hw, Hr. fold held in Hr.
  assert (length held = Nat.min SIZE (length xs)) as Hlen by (unfold held, last_n; rewrite length_drop; lia).
  assert (recent r ≠ []) as Hne.
  { rewrite Hr. intros E. rewrite E in Hlen. destruct xs; [done|]. simpl in Hlen. lia. }
  split; [done|]. unfold get_min, get_max, get_total_and_count.
  destruct (ring_fold_perm Z.min r Hw Hne) as (x & l & -> & Hp & _), (ring_fold_perm Z.max r Hw Hne) as (x' & l' & -> & Hp' & _),
    (ring_fold_perm Z.add r Hw Hne) as (x2 & l2 & -> & Hp2 & ->). rewrite Hr in Hp, Hp', Hp2. split; [|split].
  - destruct (fold_least Z.min Z.le l x) as [Hin Hle]; [apply _|apply _|intros; lia|]. rewrite Hp in Hin. split; [done|].
    intros y. rewrite <- Hp. apply Hle.
  - destruct (fold_least Z.max (flip Z.le) l' x') as [Hin Hle]; [intros ???; simpl; lia|intros ?; simpl; lia|intros; simpl; lia|].
    rewrite Hp' in Hin. split; [done|]. intros y. rewrite <- Hp'. apply Hle.
  - rewrite Hr, Hlen. f_equal. rewrite <- (foldr_permutation (=) Z.add 0 _ _ ltac:(intros; lia) Hp2). simpl.
    clear. revert x2. induction l2 as [|y l2 IH]; intros x2; simpl; [lia|]. rewrite IH. lia.
Qed.
End ring.

Lemma ring_reports_recent_witness :
  get_min (fold_left (ring_add 3) [5; 1; 7; 4; 6] (ring_new 3 0)) ∈ [7; 4; 6].
Proof. apply (ring_reports_recent 3 0 [5; 1; 7; 4; 6]); [lia|done]. Defined.

(** A pool of [fd5a:5052:0:aaa:1234:5600::/88] with one address out. *)
Definition sample_pool : AddressPool :=
  mk_pool [0xfd; 0x5a; 0x50; 0x52; 0; 0; 0x0a; 0xaa; 0x12; 0x34; 0x56; 0; 0; 0; 0; 0] 88 {[ 7 ]}.

Lemma sample_pool_wf : pool_wf sample_pool.
Proof.
  split; simpl; [done| | |done].
  - repeat (apply list.Forall_cons; split; [unfold is_u8; lia|]). by apply list.Forall_nil.
  - intros i ->%elem_of_singleton. unfold MAX_AAA_ID. lia.
Qed.

Lemma sample_pool_ok : pool_ok sample_pool.
Proof. destruct sample_pool_wf. by split. Qed.

Lemma aaa_alloc_release_witness : ∃ p' a, get_aaa_address sample_pool 7 = Some (p', a) ∧ release_address p' a = inr sample_pool.
Proof.
  destruct (aaa_alloc_release sample_pool 7 sample_pool_ok ltac:(lia)) as [H _]. destruct H as (p' & a & E & _ & _ & _ & _ & R).
  - right. exists 8. split; [unfold MAX_AAA_ID; lia|]. apply (bool_decide_unpack _). vm_compute. exact I.
  - exists p', a. split; [exact E|exact R].
Defined.
