(* ===== verification/Link.v ===== *)
(** Links and actors: the link state machine of [src/adapter/ph/src/link_state.rs],
    the actor authorization of [actor_auth.rs], and the parts of [assembly.rs],
    [peer_table.rs] and [special_peers.rs] they use.

    A link is keyed, exchanges hellos, is active, and is closed or reset; while
    it is active, the actor behind it can be authorized and get an address.
    Timers, sends and the visa service are awaited in spawned tasks, which are
    explicit here: an event of a task may come late, also after the task was
    aborted. *)
From S2P Require Import Prelude Zdp Dispatch NetDefs Tlv AddressPool.

(** What [auth.rs] does with evidence (JSON, base64 and RSA), and the random
    challenge. *)
Class AuthApi `{NetDefs} : Type := {
  Challenge : Type;
  AuthBlob : Type;
  (** [ZdpInitAuthenticationPayload::new], from a key and random bytes *)
  challenge_new : bytes → Z → Challenge;
  decode_blob : bytes → option AuthBlob;
  (** [matches!(blob, AuthBlob::SelfSigned(_))] *)
  self_signed : AuthBlob → bool;
  (** the blob's challenge is the one sent, and it was signed with the peer's key *)
  challenge_verified : AuthBlob → Challenge → bytes → bool;
  (** [visa_mgmt::build_connect_request] succeeds *)
  connect_request_ok : AuthBlob → bool;
  (** [IpAddress::UNSPECIFIED] *)
  ip_unspecified : IpAddress;
}.

Inductive LinkState : Type :=
| Inactive | Keying | Helloing | Disconnecting (reason : TerminateReason) | Closing | Resetting | LinkActive | LinkError.

#[global] Instance LinkState_eq_dec : EqDecision LinkState.
Proof. solve_decision. Defined.

Inductive LinkStatus : Type := Up | Down.

#[global] Instance LinkStatus_eq_dec : EqDecision LinkStatus.
Proof. solve_decision. Defined.

Inductive LinkType : Type := Internal | AdapterToNode | NodeToNode | NodeToAdapter.

#[global] Instance LinkType_eq_dec : EqDecision LinkType.
Proof. solve_decision. Defined.

(** The messages of the errors are left out. *)
Inductive LinkStateError : Type :=
| UnexpectedTransition (s : LinkState) | InvalidOperation | NotFound (link_id : Z) | OperationNotSupportedYet.

(** ** The state machine

    The abort handle of a timeout is not kept, as an aborted timeout may still
    fire; nor is the time of the last change, which is only displayed. *)
Record LinkStateMachine : Type := mk_fsm {
  fsm_state : LinkState;
  status : LinkStatus;
  ready : bool;
  silent : bool;
  logical_clock : Z;
  timeout_count : Z;
  (** the time at which the outstanding echo was sent *)
  echo_handle : option Z;
  shutting_down : bool
}.

Definition fsm_new : LinkStateMachine := mk_fsm Inactive Down false false 0 0 None false.

Definition cancel_timeout (f : LinkStateMachine) : LinkStateMachine :=
  mk_fsm (fsm_state f) (status f) (ready f) (silent f) (wrap64 (logical_clock f + 1)) (timeout_count f) (echo_handle f)
    (shutting_down f).

Definition set_state (f : LinkStateMachine) (new_state : LinkState) : LinkStateMachine :=
  let f := mk_fsm new_state (status f) (bool_decide (status f = Up) && bool_decide (new_state = LinkActive))
             (silent f) (logical_clock f) (timeout_count f) (echo_handle f) (shutting_down f) in
  let f := cancel_timeout f in
  mk_fsm (fsm_state f) (status f) (ready f) (silent f) (logical_clock f) 0 (echo_handle f) (shutting_down f).

Definition with_status (f : LinkStateMachine) (st : LinkStatus) : LinkStateMachine :=
  mk_fsm (fsm_state f) st (ready f) (silent f) (logical_clock f) (timeout_count f) (echo_handle f) (shutting_down f).
Definition with_echo (f : LinkStateMachine) (e : option Z) : LinkStateMachine :=
  mk_fsm (fsm_state f) (status f) (ready f) (silent f) (logical_clock f) (timeout_count f) e (shutting_down f).
Definition with_silent (f : LinkStateMachine) (b : bool) : LinkStateMachine :=
  mk_fsm (fsm_state f) (status f) (ready f) b (logical_clock f) (timeout_count f) (echo_handle f) (shutting_down f).
Definition with_shutting_down (f : LinkStateMachine) (b : bool) : LinkStateMachine :=
  mk_fsm (fsm_state f) (status f) (ready f) (silent f) (logical_clock f) (timeout_count f) (echo_handle f) b.

Section link.
Context {ND : NetDefs} {AA : AuthApi}.

Definition LATENCY_SAMPLES : nat := 100.

Record LinkData : Type := mk_link_data {
  echo_success : Z;
  echo_timeout : Z;
  latency_data : SampleRing;
  asa_addresses : option (list SocketAddr);
  installed_aaa : bool
}.

Definition link_data_new : LinkData := mk_link_data 0 0 (ring_new LATENCY_SAMPLES 0) None false.

(** A peer: its link state and data, its security association as the key
    manager established it (with a certificate: verified, of the visa service),
    and its actor. *)
Record Link : Type := mk_link {
  link_type : LinkType;
  fsm : LinkStateMachine;
  link_data : LinkData;
  aaa_address : option IpAddress;
  transport_sa : option (option (bool * bool));
  auth_key : bytes;
  actor_auth : Z
}.

Definition with_fsm (k : Link) (f : LinkStateMachine) : Link :=
  mk_link (link_type k) f (link_data k) (aaa_address k) (transport_sa k) (auth_key k) (actor_auth k).
Definition with_data (k : Link) (d : LinkData) : Link :=
  mk_link (link_type k) (fsm k) d (aaa_address k) (transport_sa k) (auth_key k) (actor_auth k).
Definition with_aaa (k : Link) (a : option IpAddress) : Link :=
  mk_link (link_type k) (fsm k) (link_data k) a (transport_sa k) (auth_key k) (actor_auth k).
Definition with_sa (k : Link) (sa : option (option (bool * bool))) : Link :=
  mk_link (link_type k) (fsm k) (link_data k) (aaa_address k) sa (auth_key k) (actor_auth k).

(** [LinkStateWrapper::new], in a new peer with the actor at [a]. *)
Definition link_new (ty : LinkType) (key : bytes) (a : Z) : Link :=
  let f := match ty with Internal => set_state (with_status fsm_new Up) LinkActive | _ => fsm_new end in
  mk_link ty f link_data_new None None key a.

(** ** Actors *)

Inductive ActorState : Type :=
| WaitingForLink | RequestingAuthentication | AwaitingEvidence | Authenticating | AcquiringAddress | Authorizing
| AbandoningAuthentication | RetryBackoff | Rejected | Authorized.

#[global] Instance ActorState_eq_dec : EqDecision ActorState.
Proof. solve_decision. Defined.

Record AuthenticationOffer : Type := mk_offer {
  offer_status : AuthenticationStatus;
  offer_challenge : option Challenge;
  offer_asa : list SocketAddr
}.

Inductive Reply : Type :=
| ReplyOffer (o : AuthenticationOffer)
| ReplyGrant (st : AuthenticationStatus) (addresses : list IpAddress).

(** Transactions are their identifiers.  A reply channel is open while its
    sender is kept; what was sent waits in [mail]. *)
Record ActorAuthorization : Type := mk_actor {
  ac_id : Z;
  ac_type : LinkType;
  ac_state : ActorState;
  generation : Z;
  ac_txn : option Z;
  remote_txn : option Z;
  challenge : option Challenge;
  ac_reply : bool;
  mail : option Reply;
  installed_address : option IpAddress;
  addresses : list IpAddress
}.

Definition actor_new (id : Z) (ty : LinkType) : ActorAuthorization :=
  mk_actor id ty WaitingForLink 0 None None None false None None [].

Definition owns_address (d : ActorAuthorization) (a : IpAddress) : bool := bool_decide (a ∈ addresses d).

Definition with_state (d : ActorAuthorization) (st : ActorState) : ActorAuthorization :=
  mk_actor (ac_id d) (ac_type d) st (generation d) (ac_txn d) (remote_txn d) (challenge d) (ac_reply d) (mail d)
    (installed_address d) (addresses d).
Definition with_addresses (d : ActorAuthorization) (l : list IpAddress) : ActorAuthorization :=
  mk_actor (ac_id d) (ac_type d) (ac_state d) (generation d) (ac_txn d) (remote_txn d) (challenge d) (ac_reply d) (mail d)
    (installed_address d) l.
(** The exchange with an adapter: transaction and challenge. *)
Definition with_remote (d : ActorAuthorization) (txn : option Z) (c : option Challenge) : ActorAuthorization :=
  mk_actor (ac_id d) (ac_type d) (ac_state d) (generation d) (ac_txn d) txn c (ac_reply d) (mail d) (installed_address d) (addresses d).
(** The exchange with the node: transaction, reply channel, what arrived on it. *)
Definition with_exchange (d : ActorAuthorization) (txn : option Z) (reply : bool) (m : option Reply) : ActorAuthorization :=
  mk_actor (ac_id d) (ac_type d) (ac_state d) (generation d) txn (remote_txn d) (challenge d) reply m (installed_address d) (addresses d).
Definition with_installed (d : ActorAuthorization) (a : option IpAddress) : ActorAuthorization :=
  mk_actor (ac_id d) (ac_type d) (ac_state d) (generation d) (ac_txn d) (remote_txn d) (challenge d) (ac_reply d) (mail d) a (addresses d).
Definition next_generation (d : ActorAuthorization) : ActorAuthorization :=
  mk_actor (ac_id d) (ac_type d) (ac_state d) (wrap64 (generation d + 1)) (ac_txn d) (remote_txn d) (challenge d) (ac_reply d) (mail d)
    (installed_address d) (addresses d).

(** ** Tasks, and what the code sends *)

(** Where the adapter's authorization worker is, with its transaction and the
    next back-off, in milliseconds. *)
Inductive Worker : Type :=
| WOpening (backoff : Z)
| WStarting (txn backoff : Z)
| WOffer (txn backoff : Z)
| WAuthenticating (txn backoff : Z)
| WAcquiring (txn backoff : Z)
| WGrant (txn backoff : Z)
| WAbandoning (txn backoff : Z) (rejected : bool)
| WBackoff (next : Z).

Inductive LinkTask : Type :=
| TTimeout (link_id clock : Z)
| TEcho (link_id : Z)
| TVsStop (link_id : Z)
| TTerminate (link_id : Z)
| TCloseDone (link_id : Z)
| TRestart (link_id : Z)
| TAuthorize (actor generation txn : Z)
| TWorker (actor : Z) (w : Worker).

Inductive LinkMsg : Type :=
| StartKeyManagement (link_id : Z)
| SendHelloRequest (link_id : Z)
| SendHelloError (link_id : Z) (code : ResponseCode)
| SendHelloSuccess (link_id : Z) (aaa : option IpAddress) (is_vs : bool)
| SendEcho (link_id : Z)
| SendTerminate (link_id : Z) (reason : TerminateReason)
| SendInitAuthentication (link_id txn : Z) (c : Challenge)
| SendStartAuthentication (link_id txn : Z)
| SendAcquireAddress (link_id txn : Z)
| SendAbandonAuthentication (link_id txn : Z)
| SendGrantAddress (link_id txn : Z) (st : AuthenticationStatus) (addr : option IpAddress)
| ClearAdapterTables
| TunAdd (a : IpAddress) | TunClear (a : IpAddress) | TunCarrier (b : bool)
(** the visa service's grants, and the disconnections it is notified of *)
| VsGranted (a : IpAddress) | VsDisconnected (a : IpAddress).

Record LinkSys : Type := mk_sys {
  links : gmap Z Link;
  (** the actors, which tasks share with their peers, by address *)
  actors : gmap Z ActorAuthorization;
  address_pool : option AddressPool;
  (** the link of [SpecialPeerName::VisaServiceAdapter] *)
  special_peer : option Z;
  vsconn : bool;
  actor_rejected : bool;
  deferred_vs_connect : option (Z * IpAddress);
  tasks : list LinkTask;
  counters : ManagementCounters;
  out : list LinkMsg
}.

Definition put (s : LinkSys) (l : Z) (k : Link) : LinkSys :=
  mk_sys (<[l := k]> (links s)) (actors s) (address_pool s) (special_peer s) (vsconn s) (actor_rejected s)
    (deferred_vs_connect s) (tasks s) (counters s) (out s).
Definition put_actor (s : LinkSys) (a : Z) (d : ActorAuthorization) : LinkSys :=
  mk_sys (links s) (<[a := d]> (actors s)) (address_pool s) (special_peer s) (vsconn s) (actor_rejected s)
    (deferred_vs_connect s) (tasks s) (counters s) (out s).
Definition with_pool (s : LinkSys) (p : option AddressPool) : LinkSys :=
  mk_sys (links s) (actors s) p (special_peer s) (vsconn s) (actor_rejected s) (deferred_vs_connect s) (tasks s) (counters s) (out s).
Definition with_special (s : LinkSys) (l : option Z) : LinkSys :=
  mk_sys (links s) (actors s) (address_pool s) l (vsconn s) (actor_rejected s) (deferred_vs_connect s) (tasks s) (counters s) (out s).
Definition with_rejected (s : LinkSys) (b : bool) : LinkSys :=
  mk_sys (links s) (actors s) (address_pool s) (special_peer s) (vsconn s) b (deferred_vs_connect s) (tasks s) (counters s) (out s).
Definition with_deferred (s : LinkSys) (x : option (Z * IpAddress)) : LinkSys :=
  mk_sys (links s) (actors s) (address_pool s) (special_peer s) (vsconn s) (actor_rejected s) x (tasks s) (counters s) (out s).
Definition with_tasks (s : LinkSys) (l : list LinkTask) : LinkSys :=
  mk_sys (links s) (actors s) (address_pool s) (special_peer s) (vsconn s) (actor_rejected s) (deferred_vs_connect s) l (counters s) (out s).
Definition count (s : LinkSys) (c : ManagementCounterType) : LinkSys :=
  mk_sys (links s) (actors s) (address_pool s) (special_peer s) (vsconn s) (actor_rejected s) (deferred_vs_connect s) (tasks s)
    (increase_by (counters s) c 1) (out s).
Definition emit (s : LinkSys) (l : list LinkMsg) : LinkSys :=
  mk_sys (links s) (actors s) (address_pool s) (special_peer s) (vsconn s) (actor_rejected s) (deferred_vs_connect s) (tasks s)
    (counters s) (out s ++ l).
Definition spawn (s : LinkSys) (t : LinkTask) : LinkSys := with_tasks s (tasks s ++ [t]).

(** [lookup_special_peer(VisaServiceAdapter)] is this link. *)
Definition is_vs (s : LinkSys) (l : Z) : bool := bool_decide (special_peer s = Some l).

(** What the environment provides to a step: a random number, the time, and the
    results of the TUN operations ([has_address], [add_address], [set_carrier]). *)
Record Env : Type := mk_env { random : Z; now : Z; tun_has : option bool; tun_add : bool; tun_carrier : bool }.

(** ** Actors: losing the link *)

Definition is_worker (a : Z) (t : LinkTask) : bool := match t with TWorker b _ => b =? a | _ => false end.

(** [link_down]; the tasks it returns notify the visa service. *)
Definition link_down (s : LinkSys) (a : Z) : LinkSys :=
  match actors s !! a with
  | None => s
  | Some d =>
      let d' := with_installed (with_state (with_remote (with_exchange (next_generation d) None false None) None None) WaitingForLink) None in
      let s := with_tasks s (filter (λ t, is_worker a t = false) (tasks s)) in
      let s := emit s (TunClear <$> option_list (installed_address d)) in
      let s := if bool_decide (ac_type d = NodeToAdapter) && negb (is_vs s (ac_id d))
               then emit s (VsDisconnected <$> addresses d) else s in
      let s := put_actor s a (with_addresses d' []) in
      if bool_decide (ac_type d = AdapterToNode) then emit s [ClearAdapterTables] else s
  end.

(** ** Links *)

Abbreviation result := (LinkSys * (LinkStateError + unit))%type.
Definition ok (s : LinkSys) : result := (s, inr tt).
Definition err (s : LinkSys) (e : LinkStateError) : result := (s, inl e).

(** [set_timeout]: the timeout carries the clock it was set at. *)
Definition set_timeout (s : LinkSys) (l : Z) (k : Link) : LinkSys :=
  let f := cancel_timeout (fsm k) in spawn (put s l (with_fsm k f)) (TTimeout l (logical_clock f)).

(** In [continue_close] the spawned task sends the terminate message. *)
Definition continue_close (s : LinkSys) (l : Z) (k : Link) (reason : TerminateReason) : result :=
  let s := set_timeout s l (with_fsm k (set_state (fsm k) Closing)) in
  let s := link_down s (actor_auth k) in
  ok (spawn (emit s [SendTerminate l reason]) (TTerminate l)).

Definition maybe_disconnect_visa_service_client (s : LinkSys) (l : Z) (k : Link) (reason : TerminateReason) : result :=
  let f := if reason =? terminate_reason Shutdown then with_shutting_down (fsm k) true else fsm k in
  if bool_decide (link_type k = NodeToAdapter) && is_vs s l && vsconn s
  then ok (spawn (put s l (with_fsm k (set_state f (Disconnecting reason)))) (TVsStop l))
  else continue_close s l (with_fsm k f) reason.

Definition initiate_close (s : LinkSys) (l : Z) (k : Link) (reason : TerminateReason) : result :=
  match link_type k with
  | Internal => err s InvalidOperation
  | _ => maybe_disconnect_visa_service_client s l k reason
  end.

Definition process_disconnect_ack (s : LinkSys) (l : Z) (k : Link) : result :=
  match link_type k, fsm_state (fsm k) with
  | NodeToAdapter, Disconnecting reason => continue_close s l k reason
  | _, _ => err s InvalidOperation
  end.

(** The address goes back to the pool; a failure is logged.  ([clear_peer_state],
    which the clean-up also calls, only calls the empty [PeerForwardingTable::clear].) *)
Definition release_aaa (s : LinkSys) (aaa : IpAddress) : LinkSys :=
  match address_pool s with
  | None => s
  | Some p => match release_address p aaa with inl _ => s | inr p => with_pool s (Some p) end
  end.

Definition clean_up_link_state (s : LinkSys) (l : Z) (k : Link) : LinkSys :=
  match fsm_state (fsm k) with
  | Closing | Resetting =>
      let s := link_down s (actor_auth k) in
      let d := link_data k in
      let s := match aaa_address k with
               | None => s
               | Some aaa =>
                   let s := if bool_decide (link_type k = AdapterToNode) && installed_aaa d then emit s [TunClear aaa] else s in
                   release_aaa s aaa
               end in
      let d := mk_link_data (echo_success d) (echo_timeout d) (latency_data d) None false in
      let s := put s l (with_data (with_aaa k None) d) in
      let s := if bool_decide (link_type k = AdapterToNode) then emit s [TunCarrier false] else s in
      spawn s (TCloseDone l)
  | _ => s
  end.

(** [PeerTable::remove], of [Assembly::drop_peer]; the visas are in [Node.drop_peer]. *)
Definition remove_peer (s : LinkSys) (l : Z) : LinkSys :=
  let s := if is_vs s l then with_special s None else s in
  mk_sys (delete l (links s)) (actors s) (address_pool s) (special_peer s) (vsconn s) (actor_rejected s)
    (deferred_vs_connect s) (tasks s) (counters s) (out s).

Definition complete_close (s : LinkSys) (l : Z) (k : Link) : LinkSys :=
  match fsm_state (fsm k), link_type k with
  | Closing, NodeToAdapter | Resetting, _ => remove_peer s l
  | Closing, _ =>
      let s := put s l (with_fsm k (set_state (with_silent (fsm k) false) Inactive)) in
      if shutting_down (fsm k) then remove_peer s l else spawn s (TRestart l)
  | _, _ => s
  end.

Definition run_active (s : LinkSys) (l : Z) (k : Link) : result :=
  let k := with_fsm k (with_echo (set_state (fsm k) LinkActive) None) in
  ok (set_timeout (count s PeerHandshakeSuccess) l k).

Definition process_start (s : LinkSys) (l : Z) (k : Link) : outcome result :=
  if l =? 0 then Panic
  else
    match fsm_state (fsm k) with
    | Inactive =>
        let k := with_fsm k (set_state (with_status (fsm k) Up) Keying) in
        Ret (match link_type k with
             | AdapterToNode | NodeToAdapter => ok (emit (put s l k) [StartKeyManagement l])
             | NodeToNode => err (put s l (with_fsm k (set_state (fsm k) LinkError))) OperationNotSupportedYet
             | Internal => err (put s l k) InvalidOperation
             end)
    | st => Ret (err s (UnexpectedTransition st))
    end.

(** [assign_special_name], for a verified certificate of the visa service. *)
Definition assign_special_name (s : LinkSys) (l : Z) : LinkSys :=
  match special_peer s with None => with_special s (Some l) | Some _ => s end.

Definition process_keying_done (s : LinkSys) (l : Z) (k : Link) : result :=
  match fsm_state (fsm k) with
  | Keying =>
      match transport_sa k with
      | None => err s (UnexpectedTransition Keying)
      | Some cert =>
          let s := match cert with Some (true, true) => assign_special_name s l | _ => s end in
          let k := with_fsm k (set_state (fsm k) Helloing) in
          ok (match link_type k with
              | AdapterToNode => set_timeout (emit s [SendHelloRequest l]) l k
              | _ => put s l k
              end)
      end
  | st => err s (UnexpectedTransition st)
  end.

(** The pool's search for a free address does not end when there is none:
    [None] of [get_aaa_address] is taken as a failure. *)
Definition process_hello_request (e : Env) (s : LinkSys) (l : Z) (k : Link) : outcome result :=
  match link_type k, fsm_state (fsm k) with
  | NodeToAdapter, Helloing =>
      match address_pool s with
      | None =>
          if is_vs s l then Ret (run_active (emit s [SendHelloSuccess l None true]) l k)
          else Ret (initiate_close (emit s [SendHelloError l (response_code TemporarilyUnavailable)]) l k (terminate_reason TerminateOther))
      | Some p =>
          match get_aaa_address p (random e) with
          | None => Panic
          | Some (p, aaa) =>
              let s := with_pool s (Some p) in
              Ret (run_active (emit s [SendHelloSuccess l (Some aaa) (is_vs s l)]) l (with_aaa k (Some aaa)))
          end
      end
  | _, st => Ret (err s (UnexpectedTransition st))
  end.

Definition BACKOFF_INITIAL : Z := 1000.
Definition BACKOFF_MAX : Z := 30000.

(** [link_ready]: an adapter's worker is started unless one is running. *)
Definition link_ready (s : LinkSys) (a : Z) : LinkSys :=
  match actors s !! a with
  | None => s
  | Some d =>
      if negb (bool_decide (ac_type d = AdapterToNode)) then s
      else if existsb (is_worker a) (tasks s) then s
      else
        let d := next_generation d in
        if actor_rejected s then put_actor s a (with_state d Rejected)
        else spawn (put_actor s a d) (TWorker a (WOpening BACKOFF_INITIAL))
  end.

Record HelloResponse : Type := mk_hello_response {
  hello_code : ResponseCode;
  hello_aaa : option IpAddress;
  hello_asa : option (list SocketAddr);
  vs_bootstrap : bool
}.

Definition process_hello_response (e : Env) (s : LinkSys) (l : Z) (k : Link) (r : HelloResponse) : result :=
  if negb (hello_code r =? response_code ResponseSuccess) then initiate_close s l k (terminate_reason TerminateOther)
  else
    match link_type k, fsm_state (fsm k) with
    | AdapterToNode, Helloing =>
        if bool_decide (hello_aaa r = None) && negb (vs_bootstrap r) then err s InvalidOperation
        else
          let d := link_data k in
          let k := with_aaa (with_data k (mk_link_data (echo_success d) (echo_timeout d) (latency_data d) (hello_asa r) (installed_aaa d)))
                     (hello_aaa r) in
          let finish s k :=
            if negb (tun_carrier e) then err (put s l k) InvalidOperation
            else
              let '(s, res) := run_active (emit s [TunCarrier true]) l k in
              (link_ready s (actor_auth k), res) in
          match hello_aaa r with
          | None => finish s k
          | Some aaa =>
              match tun_has e with
              | None => err (put s l k) InvalidOperation
              | Some exists_ =>
                  if negb (tun_add e) then err (put s l k) InvalidOperation
                  else
                    let d := link_data k in
                    finish (emit s [TunAdd aaa])
                      (with_data k (mk_link_data (echo_success d) (echo_timeout d) (latency_data d) (asa_addresses d) (negb exists_)))
              end
          end
    | _, st => err s (UnexpectedTransition st)
    end.

Definition process_error_response (s : LinkSys) (l : Z) (k : Link) : result :=
  initiate_close (count s PeerHandshakeFailure) l k (terminate_reason TerminateOther).

Definition process_timeout (e : Env) (s : LinkSys) (l : Z) (k : Link) (clock : Z) : result :=
  if negb (clock =? logical_clock (fsm k)) then ok s
  else
    match fsm_state (fsm k), link_type k with
    | Helloing, AdapterToNode =>
        initiate_close s l (with_fsm k (set_state (fsm k) LinkError)) (terminate_reason RequestTimedOut)
    | LinkActive, _ =>
        match echo_handle (fsm k) with
        | Some _ =>
            let d := link_data k in
            let k := with_data k (mk_link_data (echo_success d) (echo_timeout d + 1) (latency_data d) (asa_addresses d) (installed_aaa d)) in
            let k := with_fsm k (set_state (with_echo (fsm k) None) LinkError) in
            match initiate_close s l k (terminate_reason RequestTimedOut) with
            | (s, inl e) => err (put s l k) e
            | r => r
            end
        | None =>
            let k := with_fsm k (with_echo (fsm k) (Some (now e))) in
            ok (set_timeout (spawn (emit s [SendEcho l]) (TEcho l)) l k)
        end
    | Closing, _ => ok (clean_up_link_state s l k)
    | _, _ => err s InvalidOperation
    end.

Definition process_terminate_ack (s : LinkSys) (l : Z) (k : Link) : result :=
  match fsm_state (fsm k) with
  | Closing =>
      let k := with_fsm k (cancel_timeout (fsm k)) in
      ok (clean_up_link_state (put s l k) l k)
  | st => err s (UnexpectedTransition st)
  end.

Definition process_terminate_link (s : LinkSys) (l : Z) (k : Link) : result :=
  let k := with_fsm k (set_state (fsm k) Closing) in ok (clean_up_link_state (put s l k) l k).

Definition process_keep_alive_response (e : Env) (s : LinkSys) (l : Z) (k : Link) : result :=
  match fsm_state (fsm k), echo_handle (fsm k) with
  | LinkActive, Some start =>
      let d := link_data k in
      let d := mk_link_data (echo_success d + 1) (echo_timeout d) (ring_add LATENCY_SAMPLES (latency_data d) (now e - start))
                 (asa_addresses d) (installed_aaa d) in
      ok (set_timeout s l (with_data (with_fsm k (with_echo (fsm k) None)) d))
  | st, _ => err s (UnexpectedTransition st)
  end.

(** [reset], up to the tasks it waits for. *)
Definition reset (s : LinkSys) (l : Z) (k : Link) : LinkSys :=
  let k := with_fsm k (set_state (fsm k) Resetting) in
  clean_up_link_state (emit (put s l k) [SendTerminate l (terminate_reason TerminateReset)]) l k.

Inductive LinkEvent : Type :=
| Start | KeyingDone | ReceivedHelloRequest | AssignedAAA (a : IpAddress) | ReceivedHelloResponse (r : HelloResponse)
| ReceivedKeepAliveResponse | ReceivedTerminateLink (reason : TerminateReason) | ReceivedTerminateAck | ReceivedDisconnectAck
| Close (reason : TerminateReason) | CloseDone | ErrorEvent | Timeout (clock : Z).

Definition process_event (e : Env) (s : LinkSys) (l : Z) (k : Link) (ev : LinkEvent) : outcome result :=
  match ev with
  | Start => process_start s l k
  | KeyingDone => Ret (process_keying_done s l k)
  | ReceivedHelloRequest => process_hello_request e s l k
  | AssignedAAA a => Ret (ok (put s l (with_aaa k (Some a))))
  | ReceivedHelloResponse r => Ret (process_hello_response e s l k r)
  | ReceivedKeepAliveResponse => Ret (process_keep_alive_response e s l k)
  | ReceivedTerminateLink _ => Ret (process_terminate_link s l k)
  | ReceivedTerminateAck => Ret (process_terminate_ack s l k)
  | ReceivedDisconnectAck => Ret (process_disconnect_ack s l k)
  | Close reason => Ret (initiate_close s l k reason)
  | CloseDone => Ret (ok (complete_close s l k))
  | ErrorEvent => Ret (process_error_response s l k)
  | Timeout clock => Ret (process_timeout e s l k clock)
  end.

Definition process_link_state_event (e : Env) (s : LinkSys) (l : Z) (ev : LinkEvent) : outcome result :=
  match links s !! l with
  | None => Ret (err s (NotFound l))
  | Some k => process_event e s l k ev
  end.

(** ** Actors: the node's side *)

Inductive HandleError : Type := ABadStructure | AUnknownTransaction | ANotPermitted | ALinkClosed.
Abbreviation handled := (LinkSys * (HandleError + unit))%type.

Definition is_link_ready (s : LinkSys) (l : Z) : bool :=
  match links s !! l with Some k => ready (fsm k) | None => false end.

Definition require_node_link (s : LinkSys) (d : ActorAuthorization) : bool :=
  bool_decide (ac_type d = NodeToAdapter) && is_link_ready s (ac_id d).

Definition start_remote (e : Env) (s : LinkSys) (a : Z) (d : ActorAuthorization) (txn : Z) : handled :=
  if negb (require_node_link s d) then (s, inl ANotPermitted)
  else
    match links s !! ac_id d with
    | None => (s, inl ALinkClosed)
    | Some k =>
        if bool_decide (is_Some (remote_txn d)) || negb (bool_decide (addresses d = [])) then (s, inl ANotPermitted)
        else
          let c := challenge_new (auth_key k) (random e) in
          let d := with_remote (with_state (next_generation d) AwaitingEvidence) (Some txn) (Some c) in
          (emit (put_actor s a d) [SendInitAuthentication (ac_id d) txn c], inr tt)
    end.

Definition abandon_remote (s : LinkSys) (a : Z) (d : ActorAuthorization) (txn : Z) : handled :=
  if negb (require_node_link s d) then (s, inl ANotPermitted)
  else if negb (bool_decide (ac_state d = AwaitingEvidence) && bool_decide (remote_txn d = Some txn)) then (s, inl AUnknownTransaction)
  else (put_actor s a (with_state (with_remote d None None) WaitingForLink), inr tt).

Definition finish_remote (s : LinkSys) (a : Z) (d : ActorAuthorization) (gen txn : Z) (st : AuthenticationStatus) (addr : option IpAddress)
    : handled :=
  if negb ((generation d =? gen) && bool_decide (remote_txn d = Some txn)) then (s, inl AUnknownTransaction)
  else
    let d := with_state (with_remote d None None)
               (if st =? authentication_status AuthSuccess then Authorized else WaitingForLink) in
    let d := match addr with Some x => with_addresses d [x] | None => d end in
    (emit (put_actor s a d) [SendGrantAddress (ac_id d) txn st addr], inr tt).

Definition acquire_remote (s : LinkSys) (a : Z) (d : ActorAuthorization) (txn : Z) (addrs : list IpAddress) (blob : bytes) : handled :=
  match links s !! ac_id d with
  | None => (s, inl ALinkClosed)
  | Some k =>
      if negb (require_node_link s d) then (s, inl ANotPermitted)
      else if (1 <? length addrs)%nat then (s, inl ABadStructure)
      else if negb (bool_decide (ac_state d = AwaitingEvidence) && bool_decide (remote_txn d = Some txn)) then (s, inl AUnknownTransaction)
      else
        let c := challenge d in
        let d := with_remote (with_state d Authorizing) (remote_txn d) None in
        let s := put_actor s a d in
        match c with
        | None => (s, inl ANotPermitted)
        | Some c =>
            let requested := default ip_unspecified (head addrs) in
            let reject := finish_remote s a d (generation d) txn (authentication_status AuthRejected) None in
            match decode_blob blob with
            | None => reject
            | Some b =>
                if self_signed b && negb (challenge_verified b c (auth_key k)) then reject
                else if negb (connect_request_ok b) then reject
                else if is_vs s (ac_id d) then
                  if bool_decide (requested = ip_unspecified) || negb (self_signed b) then reject
                  else finish_remote (with_deferred s (Some (ac_id d, requested))) a d (generation d) txn
                         (authentication_status AuthSuccess) (Some requested)
                else (spawn s (TAuthorize a (generation d) txn), inr tt)
            end
        end
  end.

(** What the visa service answers: a connection's address, or an error, which
    [authorization_error_status] reads as a rejection or as retryable. *)
Inductive AuthorizeResult : Type := Connected (a : IpAddress) | AuthorizeFailed (rejected : bool).

Definition authorization_error_status (rejected : bool) : AuthenticationStatus :=
  authentication_status (if rejected then AuthRejected else AuthRetryable).

Definition authorization_result (s : LinkSys) (a : Z) (d : ActorAuthorization) (gen txn : Z) (r : AuthorizeResult) : LinkSys :=
  let current := (generation d =? gen) && bool_decide (remote_txn d = Some txn) && bool_decide (ac_state d = Authorizing) in
  match r with
  | Connected x =>
      let s := emit s [VsGranted x] in
      if negb current then emit s [VsDisconnected x]
      else if is_v4 x || bool_decide (x = ip_unspecified) then
        (finish_remote (emit s [VsDisconnected x]) a d gen txn (authentication_status AuthRetryable) None).1
      else
        match finish_remote s a d gen txn (authentication_status AuthSuccess) (Some x) with
        | (s, inr _) => s
        | (s, inl _) => emit s [VsDisconnected x]
        end
  | AuthorizeFailed rejected =>
      if current then (finish_remote s a d gen txn (authorization_error_status rejected) None).1 else s
  end.

(** ** Actors: the adapter's side *)

Definition deliver_reply (s : LinkSys) (a : Z) (d : ActorAuthorization) (txn : Z) (st : ActorState) (r : Reply) : handled :=
  if negb (bool_decide (ac_type d = AdapterToNode) && bool_decide (ac_state d = st) && bool_decide (ac_txn d = Some txn))
  then (s, inl AUnknownTransaction)
  else if negb (ac_reply d) then (s, inl AUnknownTransaction)
  else if negb (existsb (is_worker a) (tasks s)) then (put_actor s a (with_exchange d (ac_txn d) false (mail d)), inl AUnknownTransaction)
  else (put_actor s a (with_exchange d (ac_txn d) false (Some r)), inr tt).

Definition receive_offer (s : LinkSys) (a : Z) (d : ActorAuthorization) (txn : Z) (o : AuthenticationOffer) : handled :=
  deliver_reply s a d txn RequestingAuthentication (ReplyOffer o).

Definition receive_grant (s : LinkSys) (a : Z) (d : ActorAuthorization) (txn : Z) (st : AuthenticationStatus) (l : list IpAddress) : handled :=
  let success := st =? authentication_status AuthSuccess in
  if (success && negb (length l =? 1)%nat) || (negb success && negb (bool_decide (l = []))) then (s, inl ABadStructure)
  else deliver_reply s a d txn AcquiringAddress (ReplyGrant st l).

(** A failure to install the address closes the link. *)
Definition install_address (e : Env) (s : LinkSys) (a : Z) (d : ActorAuthorization) (addr : IpAddress) : outcome LinkSys :=
  let d := with_exchange d None (ac_reply d) (mail d) in
  let fail := r ← process_link_state_event e (put_actor s a d) (ac_id d) ErrorEvent; Ret r.1 in
  let finish s owned :=
    let d := with_addresses (with_state (with_installed d (if (owned : bool) then Some addr else None)) Authorized) [addr] in
    Ret (count (put_actor s a d) ActorAuthorizationSuccess) in
  match tun_has e with
  | None => fail
  | Some true => finish s false
  | Some false => if tun_add e then finish (emit s [TunAdd addr]) true else fail
  end.

(** The delay before a retry is this with up to 250 ms of jitter. *)
Definition next_backoff (backoff : Z) : Z := Z.min (Z.min backoff BACKOFF_MAX * 2) BACKOFF_MAX.

Definition prepare_reply (d : ActorAuthorization) (txn : Z) (st : ActorState) : ActorAuthorization :=
  with_exchange (with_state d st) (Some txn) true None.

(** What a worker waits for. *)
Inductive WorkerInput : Type :=
| Opened (txn : Z)
| Sent (delivered : bool)
| ReplyReady
| Evidence (blob : option unit) (rejected : bool)
| Elapsed.

(** The end of a round of [run]. *)
Definition end_round (s : LinkSys) (a : Z) (d : ActorAuthorization) (backoff : Z) (st : AuthenticationStatus) : LinkSys :=
  let d := with_exchange d None false None in
  if st =? authentication_status AuthRejected then
    count (put_actor (with_rejected s true) a (with_state d Rejected)) ActorAuthorizationRejected
  else
    spawn (count (put_actor s a (with_state d RetryBackoff)) ActorAuthorizationRetry) (TWorker a (WBackoff (next_backoff backoff))).

(** One step of [run]: the worker [w] of actor [a] was taken off the task list.
    Without a matching input the worker goes on waiting. *)
Definition run_step (e : Env) (s : LinkSys) (a : Z) (d : ActorAuthorization) (w : Worker) (i : WorkerInput) : outcome LinkSys :=
  let goto s w := Ret (spawn s (TWorker a w)) in
  match w, i with
  | WOpening b, Opened txn =>
      if bool_decide (is_Some (links s !! ac_id d)) then
        goto (emit (put_actor s a (prepare_reply d txn RequestingAuthentication)) [SendStartAuthentication (ac_id d) txn]) (WStarting txn b)
      else Ret s
  | WStarting txn b, Sent ok => if ok then goto s (WOffer txn b) else Ret s
  | WOffer txn b, ReplyReady =>
      match mail d with
      | Some (ReplyOffer o) =>
          let d := with_exchange d (ac_txn d) (ac_reply d) None in
          if offer_status o =? authentication_status AuthSuccess
          then goto (put_actor s a (with_state d Authenticating)) (WAuthenticating txn b)
          else Ret (end_round s a d b (offer_status o))
      | Some (ReplyGrant _ _) => Ret s
      | None => if ac_reply d then goto s w else Ret s
      end
  | WAuthenticating txn b, Evidence (Some _) _ =>
      goto (emit (put_actor s a (prepare_reply d txn AcquiringAddress)) [SendAcquireAddress (ac_id d) txn]) (WAcquiring txn b)
  | WAuthenticating txn b, Evidence None rejected =>
      let s := if rejected then with_rejected s true else s in
      goto (emit (put_actor s a (with_state d AbandoningAuthentication)) [SendAbandonAuthentication (ac_id d) txn])
        (WAbandoning txn b rejected)
  | WAcquiring txn b, Sent ok => if ok then goto s (WGrant txn b) else Ret s
  | WGrant txn b, ReplyReady =>
      match mail d with
      | Some (ReplyGrant st l) =>
          let d := with_exchange d (ac_txn d) (ac_reply d) None in
          if st =? authentication_status AuthSuccess
          then match l with addr :: _ => install_address e (put_actor s a d) a d addr | [] => Panic end
          else Ret (end_round s a d b st)
      | Some (ReplyOffer _) => Ret s
      | None => if ac_reply d then goto s w else Ret s
      end
  | WAbandoning txn b rejected, Sent ok =>
      if ok then Ret (end_round s a d b (authentication_status (if rejected then AuthRejected else AuthRetryable))) else Ret s
  | WBackoff next, Elapsed => goto s (WOpening next)
  | _, _ => goto s w
  end.

(** ** The system *)

(** What comes from outside: peers' messages, the key manager, the
    administrator, and the progress of the tasks. *)
Inductive LinkOp : Type :=
| LoConnect (link_id : Z) (ty : LinkType) (key : bytes) (actor : Z)
| LoKeyed (link_id : Z) (cert : option (bool * bool))
| LoEvent (link_id : Z) (ev : LinkEvent)
| LoReset (link_id : Z)
| LoConfigure (net : bytes) (prefix_len : Z)
| LoTask (k : nat) (done : bool)
| LoAuthorized (k : nat) (r : AuthorizeResult)
| LoWorker (k : nat) (i : WorkerInput)
| LoStart (link_id txn : Z)
| LoAbandon (link_id txn : Z)
| LoAcquire (link_id txn : Z) (addrs : list IpAddress) (blob : bytes)
| LoOffer (link_id txn : Z) (o : AuthenticationOffer)
| LoGrant (link_id txn : Z) (st : AuthenticationStatus) (l : list IpAddress).

(** The event a task ends with; a task whose message is not delivered, because
    the link is gone, ends without one. *)
Definition task_event (t : LinkTask) (done : bool) : option (Z * LinkEvent) :=
  match t with
  | TTimeout l c => Some (l, Timeout c)
  | TEcho l => if done then Some (l, ReceivedKeepAliveResponse) else None
  | TVsStop l => Some (l, ReceivedDisconnectAck)
  | TTerminate l => if done then Some (l, ReceivedTerminateAck) else None
  | TCloseDone l => Some (l, CloseDone)
  | TRestart l => Some (l, Start)
  | TAuthorize _ _ _ | TWorker _ _ => None
  end.

(** [km_multiplexor::drop_link] clears the security association first. *)
Definition drop_link (s : LinkSys) (t : LinkTask) : LinkSys :=
  match t with
  | TCloseDone l => match links s !! l with Some k => put s l (with_sa k None) | None => s end
  | _ => s
  end.

Definition on_actor (s : LinkSys) (l : Z) (f : Z → ActorAuthorization → handled) : LinkSys :=
  match links s !! l with
  | Some k => match actors s !! actor_auth k with Some d => (f (actor_auth k) d).1 | None => s end
  | None => s
  end.

Definition link_exec (e : Env) (s : LinkSys) (op : LinkOp) : outcome LinkSys :=
  match op with
  | LoConnect l ty key a =>
      if bool_decide (is_Some (links s !! l)) || bool_decide (is_Some (actors s !! a)) then Ret s
      else Ret (put_actor (put s l (link_new ty key a)) a (actor_new l ty))
  | LoKeyed l cert => Ret (match links s !! l with Some k => put s l (with_sa k (Some cert)) | None => s end)
  | LoEvent l ev => r ← process_link_state_event e s l ev; Ret r.1
  | LoReset l => Ret (match links s !! l with Some k => reset s l k | None => s end)
  | LoConfigure net prefix_len =>
      Ret (match address_pool_new net prefix_len with inr p => with_pool s (Some p) | inl _ => s end)
  | LoTask k done =>
      match tasks s !! k with
      | Some t =>
          match t with
          | TAuthorize _ _ _ | TWorker _ _ => Ret s
          | _ =>
              let s := drop_link (with_tasks s (delete k (tasks s))) t in
              match task_event t done with
              | Some (l, ev) => r ← process_link_state_event e s l ev; Ret r.1
              | None => Ret s
              end
          end
      | None => Ret s
      end
  | LoAuthorized k r =>
      match tasks s !! k with
      | Some (TAuthorize a g txn) =>
          let s := with_tasks s (delete k (tasks s)) in
          Ret (match actors s !! a with Some d => authorization_result s a d g txn r | None => s end)
      | _ => Ret s
      end
  | LoWorker k i =>
      match tasks s !! k with
      | Some (TWorker a w) =>
          let s := with_tasks s (delete k (tasks s)) in
          match actors s !! a with Some d => run_step e s a d w i | None => Ret s end
      | _ => Ret s
      end
  | LoStart l txn => Ret (on_actor s l (λ a d, start_remote e s a d txn))
  | LoAbandon l txn => Ret (on_actor s l (λ a d, abandon_remote s a d txn))
  | LoAcquire l txn addrs blob => Ret (on_actor s l (λ a d, acquire_remote s a d txn addrs blob))
  | LoOffer l txn o => Ret (on_actor s l (λ a d, receive_offer s a d txn o))
  | LoGrant l txn st addrs => Ret (on_actor s l (λ a d, receive_grant s a d txn st addrs))
  end.

Fixpoint link_run (s : LinkSys) (ops : list (Env * LinkOp)) : outcome LinkSys :=
  match ops with
  | [] => Ret s
  | (e, op) :: ops => s ← link_exec e s op; link_run s ops
  end.

Definition link_sys_new (vs : bool) : LinkSys := mk_sys ∅ ∅ None None vs false None [] (λ _, 0) [].
End link.
