(* ===== verification/LinkInv.v ===== *)
(** Correctness of links and actors ([Link]) on a node: readiness, authentication
    addresses and the registrations at the visa service. *)
From S2P Require Import Prelude Zdp Dispatch NetDefs Tlv AddressPool Link.

Section link_inv.
Context {ND : NetDefs} {NL : NetDefsLaws} {AA : AuthApi}.
Implicit Types (s : LinkSys) (l a : Z) (k : Link) (d : ActorAuthorization).

(** ** What matters of a link *)

Record Core : Type := mk_core {
  c_type : LinkType; c_state : LinkState; c_status : LinkStatus; c_ready : bool; c_aaa : option IpAddress; c_actor : Z
}.

Definition core k : Core :=
  mk_core (link_type k) (fsm_state (fsm k)) (status (fsm k)) (ready (fsm k)) (aaa_address k) (actor_auth k).
Definition lk s l : option Core := core <$> links s !! l.

Definition c_with_state (c : Core) (st : LinkState) (u : LinkStatus) : Core :=
  mk_core (c_type c) st u (bool_decide (u = Up) && bool_decide (st = LinkActive)) (c_aaa c) (c_actor c).

(** The states in which an actor may hold addresses, and those from which a
    node's link does not come back. *)
Definition open_state (st : LinkState) : bool :=
  match st with LinkActive | Disconnecting _ | LinkError => true | _ => false end.
Definition closed_state (st : LinkState) : bool :=
  match st with Disconnecting _ | Closing | Resetting | LinkError => true | _ => false end.

(** The states before the hello. *)
Definition early_state (st : LinkState) : bool :=
  match st with Inactive | Keying | Helloing => true | _ => false end.

Definition busy d : Prop := addresses d ≠ [] ∨ is_Some (remote_txn d).

(** ** The visa service's log *)

Definition granted_of (ms : list LinkMsg) : list IpAddress := omap (λ m, match m with VsGranted x => Some x | _ => None end) ms.
Definition disconnected_of (ms : list LinkMsg) : list IpAddress := omap (λ m, match m with VsDisconnected x => Some x | _ => None end) ms.

(** The addresses that an actor holds by grant of the visa service. *)
Definition held_of (vs : option Z) d : list IpAddress :=
  if bool_decide (ac_type d = NodeToAdapter) && negb (bool_decide (vs = Some (ac_id d))) then addresses d else [].
Definition held (vs : option Z) (ac : gmap Z ActorAuthorization) : list IpAddress := map_to_list ac ≫= λ ad, held_of vs ad.2.

(** The tasks that the invariant is about. *)
Definition relevant (t : LinkTask) : bool := match t with TCloseDone _ | TAuthorize _ _ _ | TWorker _ _ => true | _ => false end.

(** An address of the pool. *)
Definition pool_address (p : AddressPool) (x : IpAddress) : Prop :=
  v6 x = take 11 (ipnet_addr p) ++ be_put 5 (aaa_id x) ∧ (0 <= aaa_id x <= MAX_AAA_ID).

Record aaa_inv (p : option AddressPool) (lks : Z → option Core) : Prop := {
  aa_none l c : p = None → lks l = Some c → c_aaa c = None;
  aa_wf q : p = Some q → pool_wf q;
  aa_held q l c x : p = Some q → lks l = Some c → c_aaa c = Some x → pool_address q x ∧ aaa_id x ∈ active q;
  aa_inj l l' c c' x x' : lks l = Some c → lks l' = Some c' → c_aaa c = Some x → c_aaa c' = Some x' → aaa_id x = aaa_id x' → l = l';
  aa_owned q i : p = Some q → i ∈ active q → ∃ l c x, lks l = Some c ∧ c_aaa c = Some x ∧ aaa_id x = i;
}.

Record link_inv (N : Z) s : Prop := {
  li_type l c : lk s l = Some c → c_type c ≠ AdapterToNode ∧ l ≠ 0;
  li_ready l c : lk s l = Some c → c_ready c = bool_decide (c_status c = Up) && bool_decide (c_state c = LinkActive);
  li_actor l c : lk s l = Some c → ∃ d, actors s !! c_actor c = Some d ∧ ac_id d = l ∧ ac_type d = c_type c;
  li_inj l l' c c' : lk s l = Some c → lk s l' = Some c' → c_actor c = c_actor c' → l = l';
  li_busy a d : actors s !! a = Some d → busy d →
    ∃ c, lk s (ac_id d) = Some c ∧ c_actor c = a ∧ c_type c = NodeToAdapter ∧ open_state (c_state c) = true;
  li_excl a d : actors s !! a = Some d → is_Some (remote_txn d) → addresses d = [];
  li_atype a d : actors s !! a = Some d → ac_type d ≠ AdapterToNode ∧ installed_address d = None;
  li_gen a d : actors s !! a = Some d → 0 <= generation d <= N;
  (** a link that is cleaned up has given its address back, and stays closed *)
  li_closed l c : TCloseDone l ∈ tasks s → lk s l = Some c →
    c_aaa c = None ∧ (c_type c = NodeToAdapter → closed_state (c_state c) = true);
  (** an authorization that is still wanted is not the visa service's *)
  li_auth a g t : TAuthorize a g t ∈ tasks s → ∃ d, actors s !! a = Some d ∧ g <= generation d ∧
    (g = generation d → remote_txn d = Some t → special_peer s ≠ Some (ac_id d));
  li_worker a w : TWorker a w ∉ tasks s;
  li_aaa_type l c x : lk s l = Some c → c_aaa c = Some x → c_type c = NodeToAdapter;
  (** only a link that has said hello has an address *)
  li_hello l c : lk s l = Some c → early_state (c_state c) = true → c_aaa c = None;
  li_aaa : aaa_inv (address_pool s) (lk s);
  li_vs : granted_of (out s) ≡ₚ disconnected_of (out s) ++ held (special_peer s) (actors s);
}.

Lemma lk_put s l k l' : lk (put s l k) l' = if decide (l' = l) then Some (core k) else lk s l'.
Proof.
  unfold lk. simpl. destruct (decide (l' = l)) as [->|]; [by rewrite lookup_insert_eq|by rewrite lookup_insert_ne].
Qed.

Lemma lk_link s l k : links s !! l = Some k → lk s l = Some (core k).
Proof. intros Hk. unfold lk. by rewrite Hk. Qed.

Lemma core_set_state k st : core (with_fsm k (set_state (fsm k) st)) = c_with_state (core k) st (status (fsm k)).
Proof. done. Qed.

Lemma granted_app ms ms' : granted_of (ms ++ ms') = granted_of ms ++ granted_of ms'.
Proof. apply omap_app. Qed.
Lemma disconnected_app ms ms' : disconnected_of (ms ++ ms') = disconnected_of ms ++ disconnected_of ms'.
Proof. apply omap_app. Qed.
Lemma disconnected_all xs : granted_of (VsDisconnected <$> xs) = [] ∧ disconnected_of (VsDisconnected <$> xs) = xs.
Proof. split; induction xs as [|x xs IH]; [done| |done|]; [exact IH|exact (f_equal (cons x) IH)]. Qed.

(** ** Steps that do not matter *)

Record same s s' : Prop := {
  sm_lk l : lk s' l = lk s l;
  sm_actors : actors s' = actors s;
  sm_pool : address_pool s' = address_pool s;
  sm_special : special_peer s' = special_peer s;
  sm_tasks t : t ∈ tasks s' → relevant t → t ∈ tasks s;
  sm_granted : granted_of (out s') = granted_of (out s);
  sm_disconnected : disconnected_of (out s') = disconnected_of (out s);
}.

Lemma aaa_ext p lks lks' : (∀ l, lks' l = lks l) → aaa_inv p lks → aaa_inv p lks'.
Proof.
  intros E [H1 H2 H3 H4 H5]. split; try setoid_rewrite E; try done. 
Qed.

Lemma same_inv N s s' : same s s' → link_inv N s → link_inv N s'.
Proof.
  intros [El Ea Ep Es Et Eg Ed] [H1 H2 H3 H4 H5 H6 H7 H8 H9 H10 H11 H12 H13 H14 H15].
  split; rewrite ?Ea, ?Es, ?Ep, ?Eg, ?Ed; try setoid_rewrite El; try done; eauto.
  - intros a w Hw. by apply (H11 a w), Et.
  - by eapply aaa_ext.
Qed.

Lemma same_refl s : same s s.
Proof. by split. Qed.

Lemma same_trans s1 s2 s3 : same s1 s2 → same s2 s3 → same s1 s3.
Proof.
  intros [El Ea Ep Es Et Eg Ed] [El' Ea' Ep' Es' Et' Eg' Ed']. split; [intros l; by rewrite El', El|..|by auto| |]; congruence.
Qed.

Lemma same_emit s ms : granted_of ms = [] → disconnected_of ms = [] → same s (emit s ms).
Proof. intros E1 E2. split; simpl; try done; rewrite ?granted_app, ?disconnected_app, ?E1, ?E2, app_nil_r; done. Qed.

Lemma same_spawn s t : relevant t = false → same s (spawn s t).
Proof.
  intros Ht. split; simpl; try done. intros t' [?| ->%list_elem_of_singleton]%elem_of_app; [done|]. by rewrite Ht.
Qed.

Lemma same_put s l k : lk s l = Some (core k) → same s (put s l k).
Proof. intros Hk. split; try done. intros l'. rewrite lk_put. by destruct (decide (l' = l)) as [->|]. Qed.

Lemma same_tasks s ts : (∀ t, t ∈ ts → t ∈ tasks s) → same s (with_tasks s ts).
Proof. intros Ht. split; simpl; try done. auto. Qed.

Lemma same_count s c : same s (count s c).
Proof. by split. Qed.

(** ** A link changes its state *)

Lemma aaa_put p lks lks' l c' :
  (lks l ≫= c_aaa) = c_aaa c' → (∀ l', lks' l' = if decide (l' = l) then Some c' else lks l') →
  aaa_inv p lks → aaa_inv p lks'.
Proof.
  intros Ea E [H1 H2 H3 H4 H5].
  assert (∀ l0 c0 x, lks' l0 = Some c0 → c_aaa c0 = Some x → ∃ c1, lks l0 = Some c1 ∧ c_aaa c1 = Some x) as Hback.
  { intros l0 c0 x. rewrite E. destruct (decide (l0 = l)) as [->|]; [|eauto]. intros [= <-]. rewrite <- Ea. apply bind_Some. }
  split.
  - intros l0 c0 Hp Hl. destruct (c_aaa c0) as [x|] eqn:Ex; [|done]. destruct (Hback _ _ _ Hl Ex) as (c1 & Hl1 & Hx).
    by rewrite (H1 l0 c1 Hp Hl1) in Hx.
  - done.
  - intros q l0 c0 x Hp Hl Hx. destruct (Hback _ _ _ Hl Hx) as (c1 & ? & ?). by eapply H3.
  - intros l0 l1 c0 c1 x x' Hl Hl' Hx Hx'. destruct (Hback _ _ _ Hl Hx) as (? & ? & ?), (Hback _ _ _ Hl' Hx') as (? & ? & ?). by eapply H4.
  - intros q i Hp Hi. destruct (H5 q i Hp Hi) as (l0 & c0 & x & Hl & Hx & <-). destruct (decide (l0 = l)) as [->|Hne].
    + exists l, c', x. rewrite E, decide_True by done. split; [done|]. split; [|done]. rewrite <- Ea, Hl. done.
    + exists l0, c0, x. by rewrite E, decide_False.
Qed.

(** [k] is the link with core [c], in some state. *)
Definition like (c : Core) k : Prop := link_type k = c_type c ∧ aaa_address k = c_aaa c ∧ actor_auth k = c_actor c.

Record link_step s s' l (c c' : Core) : Prop := {
  ls_at : lk s l = Some c;
  ls_to l' : lk s' l' = if decide (l' = l) then Some c' else lk s l';
  ls_same : c_type c' = c_type c ∧ c_actor c' = c_actor c;
  ls_ready : c_ready c' = bool_decide (c_status c' = Up) && bool_decide (c_state c' = LinkActive);
  ls_actors : actors s' = actors s;
  ls_special : special_peer s' = special_peer s;
  ls_tasks t : t ∈ tasks s' → relevant t → t ∈ tasks s ∨ t = TCloseDone l;
  ls_granted : granted_of (out s') = granted_of (out s);
  ls_disconnected : disconnected_of (out s') = disconnected_of (out s);
  ls_busy d : actors s !! c_actor c = Some d → busy d → open_state (c_state c') = true;
  ls_closed : TCloseDone l ∈ tasks s' → c_aaa c' = None ∧ (c_type c = NodeToAdapter → closed_state (c_state c') = true);
  ls_aaa_type x : c_aaa c' = Some x → c_type c = NodeToAdapter;
  ls_hello : early_state (c_state c') = true → c_aaa c' = None;
  ls_aaa : aaa_inv (address_pool s') (lk s');
}.

Lemma inv_link N s s' l c c' : link_inv N s → link_step s s' l c c' → link_inv N s'.
Proof.
  intros [H1 H2 H3 H4 H5 H6 H7 H8 H9 H10 H11 H12 H13 H14 H15] [Hk El [Et Ea] Hre Eac Esp Hts Eg Ed Hb Hc Hat Hh Hp].
  assert (∀ l0 c0, lk s' l0 = Some c0 → ∃ c1, lk s l0 = Some c1 ∧ c_type c0 = c_type c1 ∧ c_actor c0 = c_actor c1) as Hback.
  { intros l0 c0. rewrite El. destruct (decide (l0 = l)) as [->|]; [intros [= <-]; by exists c|eauto]. }
  split; rewrite ?Eac, ?Esp, ?Eg, ?Ed; try done.
  - intros l0 c0 (c1 & Hl & -> & _)%Hback. eauto.
  - intros l0 c0. rewrite El. destruct (decide (l0 = l)) as [->|]; [by intros [= <-]|apply H2].
  - intros l0 c0 (c1 & Hl & -> & ->)%Hback. eauto.
  - intros l0 l1 c0 c1 (c2 & Hl & _ & ->)%Hback (c3 & Hl' & _ & ->)%Hback. eauto.
  - intros a d Hd Hbusy. destruct (H5 a d Hd Hbusy) as (c1 & Hcl & Hca & Hct & Hco). rewrite El.
    destruct (decide (ac_id d = l)) as [E|]; [|eauto]. assert (c1 = c) as -> by congruence.
    exists c'. rewrite Et, Ea. split; [done|]. split; [done|]. split; [done|]. apply (Hb d); [by rewrite Hca|done].
  - intros l0 c0 Ht. rewrite El. destruct (decide (l0 = l)) as [->|]; [intros [= <-]; rewrite Et; auto|].
    destruct (Hts _ Ht I) as [?|[=]]; [|done]. by apply H9.
  - intros a g t Ht. destruct (Hts _ Ht I) as [?|[=]]. eauto.
  - intros a w Ht. destruct (Hts _ Ht I) as [?|[=]]. by apply (H11 a w).
  - intros l0 c0 x. rewrite El. destruct (decide (l0 = l)) as [->|]; [|apply H12]. intros [= <-]. rewrite Et. apply Hat.
  - intros l0 c0. rewrite El. destruct (decide (l0 = l)) as [->|]; [by intros [= <-]|apply H13].
Qed.

Lemma inv_state N s l c k st :
  link_inv N s → lk s l = Some c → like c k →
  fsm_state (fsm k) = st → ready (fsm k) = bool_decide (status (fsm k) = Up) && bool_decide (st = LinkActive) →
  (∀ d, actors s !! c_actor c = Some d → busy d → open_state st = true) →
  (TCloseDone l ∈ tasks s → c_type c = NodeToAdapter → closed_state st = true) →
  (early_state st = true → c_aaa c = None) →
  link_inv N (put s l k).
Proof.
  intros Hi Hk (L1 & L2 & L3) <- Hre Hb Hc Hh. apply (inv_link N s _ l c (core k) Hi).
  split; simpl; rewrite ?L1, ?L2, ?L3; try done; auto using lk_put.
  - intros Ht. split; [by apply (li_closed _ _ Hi l c)|auto].
  - intros x. by eapply (li_aaa_type _ _ Hi).
  - apply (aaa_put (address_pool s) (lk s) _ l (core k)); [by rewrite Hk|apply lk_put|apply Hi].
Qed.

(** ** Losing the link *)

Lemma held_update vs (ac : gmap Z ActorAuthorization) a d d' :
  ac !! a = Some d → held_of vs d ++ held vs (<[a := d']> ac) ≡ₚ held_of vs d' ++ held vs ac.
Proof.
  intros Ha. unfold held. rewrite <- insert_delete_eq.
  rewrite (map_to_list_insert (delete a ac) a d') by (apply lookup_delete_eq).
  rewrite <- (map_to_list_delete ac a d Ha). simpl. rewrite !app_assoc. by rewrite (Permutation_app_comm (held_of vs d)).
Qed.

Lemma link_down_put s l k a : link_down (put s l k) a = put (link_down s a) l k.
Proof.
  unfold link_down. simpl. destruct (actors s !! a) as [d|]; [|done]. unfold is_vs. simpl.
  destruct (bool_decide (ac_type d = NodeToAdapter) && _), (bool_decide (ac_type d = AdapterToNode)); done.
Qed.

Lemma link_down_tasks s a t : t ∈ tasks (link_down s a) → t ∈ tasks s.
Proof.
  unfold link_down. destruct (actors s !! a) as [d|]; [|done].
  destruct (bool_decide (ac_type d = NodeToAdapter) && _), (bool_decide (ac_type d = AdapterToNode)); simpl; by intros [_ ?]%list_elem_of_filter.
Qed.

Lemma link_down_keeps s a :
  links (link_down s a) = links s ∧ address_pool (link_down s a) = address_pool s ∧ special_peer (link_down s a) = special_peer s.
Proof.
  unfold link_down. destruct (actors s !! a) as [d|]; [|done].
  by destruct (bool_decide (ac_type d = NodeToAdapter) && _), (bool_decide (ac_type d = AdapterToNode)).
Qed.

(** What it does to its actor and to the log. *)
Lemma link_down_actor s a d :
  actors s !! a = Some d → installed_address d = None → 
  ∃ d', actors (link_down s a) = <[a := d']> (actors s) ∧
    ac_id d' = ac_id d ∧ ac_type d' = ac_type d ∧ addresses d' = [] ∧ remote_txn d' = None ∧
    generation d' = wrap64 (generation d + 1) ∧ installed_address d' = None ∧
    granted_of (out (link_down s a)) = granted_of (out s) ∧
    disconnected_of (out (link_down s a)) = disconnected_of (out s) ++ held_of (special_peer s) d.
Proof.
  intros Ha Hi. unfold link_down. rewrite Ha, Hi. simpl. rewrite ?app_nil_r.
  eexists. split; [by destruct (bool_decide (ac_type d = NodeToAdapter) && _), (bool_decide (ac_type d = AdapterToNode))|].
  do 6 (split; [done|]). unfold held_of, is_vs. simpl.
  destruct (disconnected_all (addresses d)) as [E1 E2].
  destruct (bool_decide (ac_type d = NodeToAdapter) && _), (bool_decide (ac_type d = AdapterToNode)); simpl;
    rewrite ?granted_app, ?disconnected_app, ?E1, ?E2, ?app_nil_r; done.
Qed.

(** ** An actor changes *)

Lemma perm_swap_held (g e h h' x x' : list IpAddress) : g ++ h ≡ₚ e ++ h' → h ++ x' ≡ₚ h' ++ x → g ++ x ≡ₚ e ++ x'.
Proof.
  intros H1 H2. apply (Permutation_app_inv_l h).
  rewrite (Permutation_app_swap_app h g x), (Permutation_app_swap_app h e x'), H2, !app_assoc, H1. done.
Qed.

Record actor_step (N : Z) s s' a d d' : Prop := {
  as_at : actors s !! a = Some d;
  as_to : actors s' = <[a := d']> (actors s);
  as_same : ac_id d' = ac_id d ∧ ac_type d' = ac_type d ∧ installed_address d' = installed_address d;
  as_gen : generation d <= generation d' <= N;
  as_busy : busy d' → ∃ c, lk s (ac_id d) = Some c ∧ c_actor c = a ∧ c_type c = NodeToAdapter ∧ open_state (c_state c) = true;
  as_excl : is_Some (remote_txn d') → addresses d' = [];
  as_txn t : generation d' = generation d → remote_txn d' = Some t → remote_txn d = Some t;
  as_lk l : lk s' l = lk s l;
  as_pool : address_pool s' = address_pool s;
  as_special : special_peer s' = special_peer s;
  as_tasks t : t ∈ tasks s' → relevant t → t ∈ tasks s ∨ (∃ x, t = TAuthorize a (generation d') x) ∧ special_peer s ≠ Some (ac_id d);
  as_log : ∃ g e, granted_of (out s') = granted_of (out s) ++ g ∧ disconnected_of (out s') = disconnected_of (out s) ++ e ∧
    g ++ held_of (special_peer s) d ≡ₚ e ++ held_of (special_peer s) d';
}.

Lemma inv_actor N N' s s' a d d' : link_inv N s → N <= N' → actor_step N' s s' a d d' → link_inv N' s'.
Proof.
  intros [H1 H2 H3 H4 H5 H6 H7 H8 H9 H10 H11 H12 H13 H14 H15] HN [Ha Ea (Ei & Et & Ein) Hg Hb Hx Htx El Ep Es Hts (g & e & Eg & Ed & Hp)].
  assert (∀ b e', actors s' !! b = Some e' → b = a ∧ e' = d' ∨ b ≠ a ∧ actors s !! b = Some e') as Hback.
  { intros b e'. rewrite Ea, lookup_insert_Some. naive_solver. }
  split; rewrite ?Es, ?Ep; try setoid_rewrite El; try done.
  - intros l c Hl. destruct (H3 l c Hl) as (e' & He & Hid & Hty). rewrite Ea. destruct (decide (c_actor c = a)) as [E|].
    + rewrite E, lookup_insert_eq in *. exists d'. split; [done|]. assert (e' = d) as -> by congruence. split; congruence.
    + rewrite lookup_insert_ne by done. eauto.
  - intros b e' [[-> ->]|[_ He]]%Hback; [rewrite Ei; apply Hb|by apply H5].
  - intros b e' [[-> ->]|[_ He]]%Hback; [done|]. by apply (H6 b).
  - intros b e' [[-> ->]|[_ He]]%Hback; [|by apply (H7 b)]. rewrite Et, Ein. by apply (H7 a d).
  - intros b e' [[-> ->]|[_ He]]%Hback; [specialize (H8 a d Ha)|specialize (H8 b e' He)]; lia.
  - intros l c Hin. destruct (Hts _ Hin I) as [?|[[? [=]] _]]. by apply H9.
  - intros b g' t Hin. destruct (Hts _ Hin I) as [Hold|[[? [= -> -> ->]] Hsp]].
    + destruct (H10 b g' t Hold) as (e' & He & Hg' & Hv). rewrite Ea. destruct (decide (b = a)) as [->|].
      * rewrite lookup_insert_eq. exists d'. split; [done|]. assert (e' = d) as -> by congruence. split; [lia|].
        rewrite Ei. intros -> Hr. apply Hv; [lia|]. apply Htx; [lia|done].
      * rewrite lookup_insert_ne by done. eauto.
    + exists d'. rewrite Ea, lookup_insert_eq, Ei. split; [done|]. split; [lia|done].
  - intros b w Hin. destruct (Hts _ Hin I) as [?|[[? [=]] _]]. by eapply H11.
  - by eapply aaa_ext.
  - rewrite Eg, Ed, Ea, H15, <- !app_assoc. f_equiv. rewrite Permutation_app_comm.
    eapply perm_swap_held; [exact Hp|]. by apply held_update.
Qed.

Lemma inv_mono N N' s : link_inv N s → N <= N' → link_inv N' s.
Proof.
  intros [H1 H2 H3 H4 H5 H6 H7 H8 H9 H10 H11 H12 H13 H14 H15] HN. split; try done. intros b d Hd. specialize (H8 b d Hd). lia.
Qed.

Lemma link_down_inv N s a :
  link_inv N s → N + 1 < U64_MOD →
  link_inv (N + 1) (link_down s a) ∧ (∀ d, actors (link_down s a) !! a = Some d → ¬ busy d).
Proof.
  intros Hi HN. destruct (actors s !! a) as [d|] eqn:Ha.
  - pose proof (li_atype _ _ Hi a d Ha) as [_ Hin]. pose proof (li_gen _ _ Hi a d Ha) as Hg.
    destruct (link_down_actor s a d Ha Hin) as (d' & Ea & Eid & Ety & Ead & Er & Eg & Ein & Egr & Edi).
    rewrite wrap64_small in Eg by (unfold is_u64; lia).
    destruct (link_down_keeps s a) as (El & Ep & Es). split.
    + apply (inv_actor N (N + 1) s _ a d d' Hi ltac:(lia)). split; try done.
      * by rewrite Hin.
      * lia.
      * intros [Hx|[? Hx]]; congruence.
      * intros t. congruence.
      * intros l. unfold lk. by rewrite El.
      * intros t Ht _. left. by eapply link_down_tasks.
      * exists [], (held_of (special_peer s) d). rewrite app_nil_r. split; [done|]. split; [done|].
        assert (held_of (special_peer s) d' = []) as -> by (unfold held_of; rewrite Ead; by destruct (_ && _)).
        by rewrite app_nil_r.
    + intros e'. rewrite Ea, lookup_insert_eq. intros [= <-] [Hx|[? Hx]]; congruence.
  - unfold link_down. rewrite Ha. split; [eapply inv_mono; [done|lia]|]. intros d. by rewrite Ha.
Qed.

(** ** Closing *)

Lemma link_down_spawn s a t : is_worker a t = false → link_down (spawn s t) a = spawn (link_down s a) t.
Proof.
  intros Ht. unfold link_down. simpl. destruct (actors s !! a) as [d|]; [|done]. unfold is_vs. simpl. unfold spawn. simpl.
  rewrite list.filter_app, (list.filter_cons_True _ t [] Ht).
  by destruct (bool_decide (ac_type d = NodeToAdapter) && _), (bool_decide (ac_type d = AdapterToNode)).
Qed.

Lemma continue_close_inv N s l k c reason :
  link_inv N s → N + 1 < U64_MOD → lk s l = Some c → like c k → link_inv (N + 1) (continue_close s l k reason).1.
Proof.
  intros Hi HN Hc Hk. unfold continue_close, set_timeout. simpl.
  rewrite link_down_spawn, link_down_put by done. destruct (link_down_inv N s (actor_auth k) Hi HN) as [Hi' Hidle].
  eapply same_inv; [eapply same_trans; [|by apply same_spawn]; apply same_emit; done|].
  eapply same_inv; [by apply same_spawn|].
  eapply inv_state; [exact Hi'| |exact Hk|done|done| |done|done].
  - unfold lk. by rewrite (proj1 (link_down_keeps _ _)).
  - intros d Hd Hb. destruct Hk as (_ & _ & Ek). rewrite <- Ek in Hd. by apply Hidle in Hd.
Qed.

Lemma initiate_close_inv N s l k c reason :
  link_inv N s → N + 1 < U64_MOD → lk s l = Some c → like c k → link_inv (N + 1) (initiate_close s l k reason).1.
Proof.
  intros Hi HN Hc Hk. unfold initiate_close, maybe_disconnect_visa_service_client.
  set (f := if reason =? terminate_reason Shutdown then _ else _).
  assert (link_inv (N + 1) s) as Hi1 by (eapply inv_mono; [done|lia]).
  assert (like c (with_fsm k f)) as Hk' by exact Hk.
  assert (link_inv (N + 1) (spawn (put s l (with_fsm k (set_state f (Disconnecting reason)))) (TVsStop l))) as Hdis.
  { eapply same_inv; [by apply same_spawn|]. eapply inv_state; [done|done|exact Hk|done..]. }
  destruct (link_type k); [done|..]; (destruct (_ && _ && _); [exact Hdis|by eapply continue_close_inv]).
Qed.

Lemma remove_id p : pool_wf p → ∀ x, pool_address p x →
  release_address p x = inr (mk_pool (ipnet_addr p) (ipnet_prefix_len p) (active p ∖ {[ aaa_id x ]})).
Proof. intros Hp x [Hv Hx]. by apply release_spec. Qed.

(** The address that a link gives back is no longer reserved. *)
Lemma aaa_release p lks lks' l c c' :
  aaa_inv p lks → lks l = Some c → c_aaa c' = None → (∀ l', lks' l' = if decide (l' = l) then Some c' else lks l') →
  aaa_inv (match c_aaa c with
           | Some x => match p with
                       | Some q => match release_address q x with inr q' => Some q' | inl _ => Some q end
                       | None => None
                       end
           | None => p
           end) lks'.
Proof.
  intros Hi Hl Hn E. destruct (c_aaa c) as [x|] eqn:Ex; [|apply (aaa_put p lks lks' l c'); [rewrite Hl; simpl; congruence|done|done]].
  destruct Hi as [H1 H2 H3 H4 H5]. destruct p as [q|]; [|by rewrite (H1 l c eq_refl Hl) in Ex].
  destruct (H3 q l c x eq_refl Hl Ex) as [Hx Hact]. rewrite (remove_id q (H2 q eq_refl) x Hx).
  assert (∀ l0 c0 y, lks' l0 = Some c0 → c_aaa c0 = Some y → l0 ≠ l ∧ lks l0 = Some c0) as Hback.
  { intros l0 c0 y. rewrite E. destruct (decide (l0 = l)) as [->|]; [intros [= <-]; congruence|done]. }
  split; [done|..].
  - intros ? [= <-]. by apply (pool_wf_release q x); [apply H2|apply remove_id; [apply H2|]].
  - intros ? l0 c0 y [= <-] Hl0 Hy. destruct (Hback _ _ _ Hl0 Hy) as [Hne Hold].
    destruct (H3 q l0 c0 y eq_refl Hold Hy) as [Hya Hyi]. split; [done|]. simpl. apply elem_of_difference. split; [done|].
    intros Heq%elem_of_singleton. by apply Hne, (H4 l0 l c0 c y x).
  - intros l0 l1 c0 c1 y y' Hl0 Hl1 Hy Hy'. destruct (Hback _ _ _ Hl0 Hy) as [_ ?], (Hback _ _ _ Hl1 Hy') as [_ ?]. by eapply H4.
  - intros ? i [= <-]. simpl. intros [Hi Hni]%elem_of_difference. destruct (H5 q i eq_refl Hi) as (l0 & c0 & y & Hl0 & Hy & <-).
    exists l0, c0, y. rewrite E, decide_False; [done|]. intros ->. apply Hni, elem_of_singleton. congruence.
Qed.

Lemma put_put s l k k' : put (put s l k) l k' = put s l k'.
Proof. unfold put. simpl. by rewrite insert_insert_eq. Qed.

Lemma put_id s l k : links s !! l = Some k → put s l k = s.
Proof. intros Hk. unfold put. rewrite insert_id by done. by destruct s. Qed.

Lemma release_aaa_put s l k x : release_aaa (put s l k) x = put (release_aaa s x) l k.
Proof. unfold release_aaa. simpl. destruct (address_pool s) as [p|]; [|done]. by destruct (release_address p x). Qed.

Lemma release_aaa_pool s x : address_pool (release_aaa s x) =
  match address_pool s with
  | Some q => match release_address q x with inr q' => Some q' | inl _ => Some q end
  | None => None
  end.
Proof. unfold release_aaa. destruct (address_pool s) as [p|] eqn:E; [|done]. by destruct (release_address p x). Qed.

Lemma clean_up_inv N s l k c :
  link_inv N s → N + 1 < U64_MOD → lk s l = Some c → like c k →
  fsm_state (fsm k) = Closing ∨ fsm_state (fsm k) = Resetting → ready (fsm k) = false →
  link_inv (N + 1) (clean_up_link_state (put s l k) l k).
Proof.
  intros Hi HN Hc Hk Hst Hre. destruct (link_down_inv N s (actor_auth k) Hi HN) as [Hi' Hidle].
  destruct Hk as (L1 & L2 & L3).
  assert (bool_decide (link_type k = AdapterToNode) = false) as Hty.
  { apply bool_decide_eq_false. rewrite L1. by apply (li_type _ _ Hi l c). }
  unfold clean_up_link_state. rewrite link_down_put, Hty. cbn [andb].
  set (s1 := link_down s (actor_auth k)) in *. set (k' := with_data _ _).
  assert (lk s1 l = Some c) as Hc1 by (unfold lk, s1; by rewrite (proj1 (link_down_keeps _ _))).
  set (s2 := match aaa_address k with Some x => release_aaa s1 x | None => s1 end).
  match goal with |- link_inv _ ?t => assert (t = spawn (put s2 l k') (TCloseDone l)) as -> end.
  { unfold s2. destruct (aaa_address k); rewrite ?release_aaa_put, put_put; by destruct Hst as [-> | ->]. }
  assert (links s2 = links s1 ∧ actors s2 = actors s1 ∧ special_peer s2 = special_peer s1 ∧ tasks s2 = tasks s1 ∧ out s2 = out s1) as (E1 & E2 & E3 & E4 & E5).
  { unfold s2, release_aaa. destruct (aaa_address k); [|done]. destruct (address_pool s1); [|done]. by destruct (release_address _ _). }
  assert (∀ l', lk (spawn (put s2 l k') (TCloseDone l)) l' = if decide (l' = l) then Some (core k') else lk s1 l') as El.
  { intros l'. unfold lk at 2. rewrite <- E1. apply lk_put. }
  apply (inv_link (N + 1) s1 _ l c (core k') Hi'). split; simpl; rewrite ?E2, ?E3, ?E4, ?E5; try done.
  - rewrite Hre. by destruct Hst as [-> | ->], (status (fsm k)).
  - intros t [?| ->%list_elem_of_singleton]%elem_of_app _; auto.
  - intros d Hd Hb. rewrite <- L3 in Hd. by apply Hidle in Hd.
  - intros _. split; [done|]. by destruct Hst as [-> | ->].
  - change (address_pool (spawn (put s2 l k') (TCloseDone l))) with (address_pool s2).
    pose proof (aaa_release _ _ _ l c (core k') (li_aaa _ _ Hi') Hc1 eq_refl El) as HA. rewrite <- L2 in HA.
    unfold s2. destruct (aaa_address k); [rewrite release_aaa_pool|]; exact HA.
Qed.

(** ** The end of a link, and its special name *)

Lemma idle_link N s l c :
  link_inv N s → lk s l = Some c → c_type c ≠ NodeToAdapter ∨ open_state (c_state c) = false →
  ∀ a d, actors s !! a = Some d → ac_id d = l → ¬ busy d.
Proof.
  intros Hi Hc Hcl a d Hd Hl Hb. destruct (li_busy _ _ Hi a d Hd Hb) as (c1 & Hc1 & _ & Ht & Ho). rewrite Hl in Hc1.
  assert (c1 = c) as -> by congruence. destruct Hcl; congruence.
Qed.

Lemma idle_actor N s l c :
  link_inv N s → lk s l = Some c → c_type c ≠ NodeToAdapter ∨ open_state (c_state c) = false →
  ∀ d, actors s !! c_actor c = Some d → ¬ busy d.
Proof.
  intros Hi Hc Hcl d Hd. destruct (li_actor _ _ Hi l c Hc) as (d' & Hd' & Hid & _). assert (d' = d) as -> by congruence.
  by eapply idle_link.
Qed.

Lemma held_special vs vs' (ac : gmap Z ActorAuthorization) :
  (∀ a d, ac !! a = Some d → held_of vs d = held_of vs' d) → held vs ac = held vs' ac.
Proof.
  intros Hh. unfold held. assert (∀ ad, ad ∈ map_to_list ac → held_of vs ad.2 = held_of vs' ad.2) as He.
  { intros [a d] Hin%elem_of_map_to_list. by eapply Hh. }
  revert He. induction (map_to_list ac) as [|ad ads IH]; intros He; [done|]. csimpl. rewrite IH, He; [done|by left|].
  intros. apply He. by right.
Qed.

Lemma held_of_idle vs vs' d : ¬ busy d → held_of vs d = held_of vs' d.
Proof.
  intros Hb. unfold held_of. assert (addresses d = []) as ->; [|by destruct (_ && _), (_ && _)].
  destruct (decide (addresses d = [])); [done|]. destruct Hb. by left.
Qed.

(** The link whose name changes has no busy actor. *)
Lemma inv_special N s l vs :
  link_inv N s → (∀ a d, actors s !! a = Some d → ac_id d = l → ¬ busy d) →
  special_peer s = None ∧ vs = Some l ∨ special_peer s = Some l ∧ vs = None →
  link_inv N (with_special s vs).
Proof.
  intros [H1 H2 H3 H4 H5 H6 H7 H8 H9 H10 H11 H12 H13 H14 H15] Hidle Hvs. split; try done; simpl.
  - intros a g t Hin. destruct (H10 a g t Hin) as (d & Hd & Hg & Hv). exists d. split; [done|]. split; [done|].
    intros Eg Er. destruct Hvs as [[_ ->]|[_ ->]]; [|done]. intros [= E]. apply (Hidle a d Hd); [done|]. right. eauto.
  - rewrite H15. f_equiv. erewrite held_special; [done|]. intros a d Hd. destruct (decide (ac_id d = l)) as [E|Hne].
    + apply held_of_idle. by apply (Hidle a).
    + unfold held_of. destruct Hvs as [[-> ->]|[-> ->]];
        rewrite (bool_decide_eq_false_2 (Some l = Some (ac_id d))) by congruence; by rewrite (bool_decide_eq_false_2 (None = Some (ac_id d))) by done.
Qed.

Lemma aaa_delete p lks lks' l c :
  lks l = Some c → c_aaa c = None → (∀ l', lks' l' = if decide (l' = l) then None else lks l') → aaa_inv p lks → aaa_inv p lks'.
Proof.
  intros Hc Hn E [H1 H2 H3 H4 H5].
  assert (∀ l0 c0, lks' l0 = Some c0 → lks l0 = Some c0) as Hback.
  { intros l0 c0. rewrite E. by destruct (decide (l0 = l)). }
  split; eauto 10.
  intros q i Hp Hi. destruct (H5 q i Hp Hi) as (l0 & c0 & x & Hl & Hx & <-). exists l0, c0, x. rewrite E.
  rewrite decide_False; [done|]. intros ->. congruence.
Qed.

Lemma inv_remove N s l c :
  link_inv N s → lk s l = Some c → c_aaa c = None → (∀ a d, actors s !! a = Some d → ac_id d = l → ¬ busy d) →
  link_inv N (remove_peer s l).
Proof.
  intros Hi Hc Hn Hidle. unfold remove_peer. set (s1 := if is_vs s l then _ else _).
  assert (link_inv N s1 ∧ links s1 = links s ∧ actors s1 = actors s) as (Hi1 & E1 & E2).
  { unfold s1, is_vs. case_bool_decide; [|done]. split; [|done]. eapply inv_special; eauto. }
  assert (lk s1 l = Some c) as Hc1 by (unfold lk; by rewrite E1). rewrite <- E2 in Hidle. clearbody s1. clear s Hi Hc E1 E2.
  rename s1 into s. destruct Hi1 as [H1 H2 H3 H4 H5 H6 H7 H8 H9 H10 H11 H12 H13 H14 H15]. set (s' := mk_sys _ _ _ _ _ _ _ _ _ _).
  assert (∀ l', lk s' l' = if decide (l' = l) then None else lk s l') as El.
  { intros l'. unfold lk. simpl. destruct (decide (l' = l)) as [->|]; [by rewrite lookup_delete_eq|by rewrite lookup_delete_ne]. }
  assert (∀ l0 c0, lk s' l0 = Some c0 → lk s l0 = Some c0) as Hback.
  { intros l0 c0. rewrite El. by destruct (decide (l0 = l)). }
  split; simpl; try done; eauto.
  - intros a d Hd Hb. destruct (H5 a d Hd Hb) as (c1 & ? & ?). exists c1. rewrite El, decide_False; [done|].
    intros Hl. by apply (Hidle a d Hd Hl).
  - by eapply aaa_delete.
Qed.

Lemma complete_close_inv N s l k :
  link_inv N s → links s !! l = Some k → aaa_address k = None → link_inv N (complete_close s l k).
Proof.
  intros Hi Hk Hn. pose proof (lk_link s l k Hk) as Hc. unfold complete_close.
  assert (fsm_state (fsm k) = Closing ∨ fsm_state (fsm k) = Resetting → link_inv N (remove_peer s l)) as Hrm.
  { intros Hst. eapply inv_remove; [done|done|done|]. eapply idle_link; [done|done|]. right. simpl. by destruct Hst as [-> | ->]. }
  destruct (fsm_state (fsm k)) eqn:Est; try done; try solve [destruct (link_type k); auto].
  assert (link_type k ≠ NodeToAdapter → link_inv N (put s l (with_fsm k (set_state (with_silent (fsm k) false) Inactive)))) as Hput.
  { intros Hty. eapply inv_state; [done|done|done|done|done| |done|done].
    intros d Hd Hb. exfalso. by apply (idle_actor N s l (core k) Hi Hc (or_introl Hty) d). }
  destruct (link_type k) eqn:Ety; auto;
    (destruct (shutting_down (fsm k)); [|by eapply same_inv; [by apply same_spawn|auto]];
     eapply inv_remove; [by auto|by rewrite lk_put, decide_True|done|]; simpl;
     eapply idle_link; [done|done|]; left; simpl; by rewrite Ety).
Qed.

(** ** Events *)

Lemma aaa_alloc q lks lks' l c c' r q' x :
  aaa_inv (Some q) lks → lks l = Some c → c_aaa c = None → (∀ l', lks' l' = if decide (l' = l) then Some c' else lks l') →
  0 <= r → Z.of_nat (size (active q)) < MAX_AAA_ID → get_aaa_address q r = Some (q', x) → c_aaa c' = Some x →
  aaa_inv (Some q') lks'.
Proof.
  intros [H1 H2 H3 H4 H5] Hl Hn E Hr Hs Hg Hx. specialize (H2 q eq_refl).
  destruct (get_aaa_address_spec q r H2 Hr Hs) as (i & x' & Hg' & Hni & Hi & Hv & Hid). rewrite Hg in Hg'. injection Hg' as -> ->.
  assert (∀ l0 c0 y, lks' l0 = Some c0 → c_aaa c0 = Some y →
    l0 = l ∧ y = x' ∨ lks l0 = Some c0 ∧ pool_address q y ∧ aaa_id y ∈ active q) as Hback.
  { intros l0 c0 y. rewrite E. destruct (decide (l0 = l)) as [->|]; [intros [= <-] ?; left; split; congruence|eauto 10]. }
  split; [done|..].
  - intros ? [= <-]. by apply pool_wf_alloc.
  - intros ? l0 c0 y [= <-] Hl0 Hy. destruct (Hback _ _ _ Hl0 Hy) as [[-> ->]|(_ & Hp & ?)]; simpl.
    + split; [split; simpl; [by rewrite Hid|lia]|]. set_solver.
    + split; [exact Hp|]. set_solver.
  - intros l0 l1 c0 c1 y y' Hl0 Hl1 Hy Hy' Eid.
    destruct (Hback _ _ _ Hl0 Hy) as [[-> ->]|(Ho & _ & Ha)], (Hback _ _ _ Hl1 Hy') as [[-> ->]|(Ho' & _ & Ha')]; [done|..].
    + by rewrite <- Eid, Hid in Ha'.
    + by rewrite Eid, Hid in Ha.
    + by eapply H4.
  - intros ? j [= <-]. simpl. intros [->%elem_of_singleton|Hj]%elem_of_union.
    + exists l, c', x'. by rewrite E, decide_True.
    + destruct (H5 q j eq_refl Hj) as (l0 & c0 & y & Hl0 & Hy & <-). exists l0, c0, y. rewrite E, decide_False; [done|].
      intros ->. congruence.
Qed.

Lemma same_put_core s l k k' : core k' = core k → same (put s l k) (put s l k').
Proof. intros E. rewrite <- (put_put s l k k'). apply same_put. by rewrite lk_put, decide_True, E. Qed.

Lemma same_timeout s l k : same (put s l k) (set_timeout s l k).
Proof. eapply same_trans; [|by apply same_spawn]. by apply same_put_core. Qed.

(** A link that says hello becomes active. *)
Lemma run_active_inv N s l k c :
  link_inv N s → lk s l = Some c → like c k → c_state c = Helloing → c_type c = NodeToAdapter → link_inv N (run_active s l k).1.
Proof.
  intros Hi Hc Hk Hst Hty. unfold run_active. simpl.
  eapply same_inv; [apply same_timeout|]. eapply (inv_state N (count s _)); [by eapply same_inv; [apply same_count|]|exact Hc|exact Hk|done|done|done| |done].
  intros Ht _. destruct (li_closed _ _ Hi l c Ht Hc) as [_ Hcl]. rewrite Hst in Hcl. by discriminate Hcl.
Qed.

Definition hello_ok (e : Env) s : bool :=
  (0 <=? random e) && match address_pool s with Some p => Z.of_nat (size (active p)) <? MAX_AAA_ID | None => true end.

Lemma hello_request_inv N e s l k :
  link_inv N s → N + 1 < U64_MOD → links s !! l = Some k → hello_ok e s = true →
  ∃ r, process_hello_request e s l k = Ret r ∧ link_inv (N + 1) r.1.
Proof.
  intros Hi HN Hk Hok. pose proof (lk_link s l k Hk) as Hc. unfold process_hello_request.
  assert (link_inv (N + 1) s) as Hi1 by (eapply inv_mono; [done|lia]).
  destruct (link_type k) eqn:Ety; try by eexists. destruct (fsm_state (fsm k)) eqn:Est; try by eexists.
  unfold hello_ok in Hok. apply andb_true_iff in Hok as [Hr Hs]. apply Z.leb_le in Hr. destruct (address_pool s) as [p|] eqn:Ep.
  - apply Z.ltb_lt in Hs. pose proof (li_aaa _ _ Hi) as HA. rewrite Ep in HA.
    destruct (get_aaa_address_spec p (random e) (aa_wf _ _ HA p eq_refl) Hr Hs) as (i & x & Hg & _). rewrite Hg.
    eexists. split; [done|]. unfold run_active. simpl. eapply same_inv; [apply same_timeout|].
    match goal with |- link_inv _ (put ?s0 _ ?k0) => set (s' := s0); set (k' := k0) end.
    apply (inv_link (N + 1) s _ l (core k) (core k') Hi1). split; simpl; try done.
    + intros l'. apply (lk_put s').
    + auto.
    + by rewrite granted_app, app_nil_r.
    + by rewrite disconnected_app, app_nil_r.
    + intros Ht. destruct (li_closed _ _ Hi l (core k) Ht Hc) as [_ Hcl]. simpl in Hcl. rewrite Est in Hcl. by discriminate (Hcl Ety).
    + change (address_pool (put s' l k')) with (Some (mk_pool (ipnet_addr p) (ipnet_prefix_len p) ({[i]} ∪ active p))).
      eapply (aaa_alloc p (lk s) _ l (core k) (core k')); [done|done| |apply (lk_put s')|exact Hr|exact Hs|exact Hg|done].
      apply (li_hello _ _ Hi l (core k) Hc). simpl. by rewrite Est.
  - destruct (is_vs s l); eexists; (split; [done|]).
    + eapply run_active_inv; [by eapply same_inv; [by apply same_emit|]|exact Hc|done|done|done].
    + eapply initiate_close_inv; [by eapply same_inv; [by apply same_emit|]|done|exact Hc|done].
Qed.

Lemma keying_done_inv N s l k : link_inv N s → links s !! l = Some k → link_inv N (process_keying_done s l k).1.
Proof.
  intros Hi Hk. pose proof (lk_link s l k Hk) as Hc. unfold process_keying_done.
  destruct (fsm_state (fsm k)) eqn:Est; try done. destruct (transport_sa k) as [cert|]; [|done].
  set (s1 := match cert with Some (true, true) => _ | _ => _ end).
  assert (open_state (c_state (core k)) = false) as Hop by (simpl; by rewrite Est).
  assert (link_inv N s1 ∧ links s1 = links s) as [Hi1 El].
  { assert (link_inv N (assign_special_name s l) ∧ links (assign_special_name s l) = links s) as [H1 H2].
    { unfold assign_special_name. destruct (special_peer s) eqn:Esp; [done|]. split; [|done]. eapply inv_special; [done| |by left].
      eapply idle_link; eauto. }
    unfold s1. by destruct cert as [[[] []]|]. }
  assert (lk s1 l = Some (core k)) as Hc1 by (unfold lk; by rewrite El, Hk).
  assert (link_inv N (put s1 l (with_fsm k (set_state (fsm k) Helloing)))) as Hput.
  { eapply inv_state; [done|exact Hc1|done|done|done|..].
    - intros d Hd Hb. exfalso. by apply (idle_actor N s1 l (core k) Hi1 Hc1 (or_intror Hop) d).
    - intros Ht Hty. destruct (li_closed _ _ Hi1 l (core k) Ht Hc1) as [_ Hcl]. simpl in Hcl. rewrite Est in Hcl. by discriminate (Hcl Hty).
    - intros _. apply (li_hello _ _ Hi l (core k) Hc). simpl. by rewrite Est. }
  simpl. destruct (link_type k); try done. eapply same_inv; [apply same_timeout|].
  eapply (same_inv N (put s1 l _)); [|exact Hput].
  apply (same_emit (put s1 l (with_fsm k (set_state (fsm k) Helloing))) [SendHelloRequest l]); done.
Qed.

Lemma start_inv N s l k : link_inv N s → links s !! l = Some k → ∃ r, process_start s l k = Ret r ∧ link_inv N r.1.
Proof.
  intros Hi Hk. pose proof (lk_link s l k Hk) as Hc. unfold process_start.
  destruct (Z.eqb_spec l 0) as [E|_]; [by destruct (proj2 (li_type _ _ Hi l _ Hc))|].
  destruct (fsm_state (fsm k)) eqn:Est; try by eexists. eexists. split; [done|].
  assert (open_state (c_state (core k)) = false) as Hop by (simpl; by rewrite Est).
  assert (∀ st, st = Keying ∨ (st = LinkError ∧ link_type k = NodeToNode) → link_inv N (put s l (with_fsm k (set_state (with_status (fsm k) Up) st)))) as Hput.
  { intros st Hst. eapply inv_state; [done|exact Hc|done|done|done|..].
    - intros d Hd Hb. exfalso. by apply (idle_actor N s l (core k) Hi Hc (or_intror Hop) d).
    - intros Ht Hty. destruct (li_closed _ _ Hi l (core k) Ht Hc) as [_ Hcl]. simpl in Hcl. rewrite Est in Hcl. by discriminate (Hcl Hty).
    - intros _. apply (li_hello _ _ Hi l (core k) Hc). simpl. by rewrite Est. }
  simpl. destruct (link_type k) eqn:Ety; simpl.
  - apply Hput. by left.
  - eapply same_inv; [by apply same_emit|]. apply Hput. by left.
  - eapply same_inv; [|apply (Hput LinkError); by right]. by apply same_put_core.
  - eapply same_inv; [by apply same_emit|]. apply Hput. by left.
Qed.

Lemma link_like k : like (core k) k.
Proof. done. Qed.

Lemma timeout_inv N e s l k clock :
  link_inv N s → N + 1 < U64_MOD → links s !! l = Some k → link_inv (N + 1) (process_timeout e s l k clock).1.
Proof.
  intros Hi HN Hk. pose proof (lk_link s l k Hk) as Hc. unfold process_timeout.
  assert (link_inv (N + 1) s) as Hi1 by (eapply inv_mono; [done|lia]).
  destruct (negb _); [done|]. destruct (fsm_state (fsm k)) eqn:Est; try done.
  - destruct (link_type k); try done. by eapply initiate_close_inv.
  - simpl. rewrite <- (put_id s l k Hk). eapply clean_up_inv; [done|done|done|done|by left|].
    rewrite (li_ready _ _ Hi l (core k) Hc : ready (fsm k) = _). simpl. rewrite Est. by destruct (status (fsm k)).
  - destruct (echo_handle (fsm k)) as [t|].
    + match goal with |- context [initiate_close s l ?k0 ?r] => set (k' := k0); set (reason := r) end.
      pose proof (initiate_close_inv N s l k' (core k) reason Hi HN Hc (link_like k)) as Hcl.
      assert (link_inv (N + 1) (put s l k')) as Hput by (by eapply inv_state).
      destruct (initiate_close s l k' reason) as [s' [er|[]]] eqn:E; [|exact Hcl].
      assert (s' = s) as ->; [|exact Hput]. unfold initiate_close, maybe_disconnect_visa_service_client in E.
      destruct (link_type k'); [by injection E as <- _|..]; by destruct (_ && _ && _).
    + simpl. eapply same_inv; [apply same_timeout|]. eapply same_inv; [by apply same_put|].
      eapply same_inv; [by apply same_spawn|]. eapply same_inv; [by apply same_emit|done].
Qed.

(** The events that a link gets: the end of the clean-up only when the address
    was given back, a hello only when the pool has an address. *)
Definition event_ok (e : Env) s l (ev : LinkEvent) : Prop :=
  match ev with
  | CloseDone => ∀ k, links s !! l = Some k → aaa_address k = None
  | ReceivedHelloRequest => hello_ok e s = true
  | AssignedAAA _ => False
  | _ => True
  end.

Lemma event_inv N e s l ev :
  link_inv N s → N + 1 < U64_MOD → event_ok e s l ev →
  ∃ r, process_link_state_event e s l ev = Ret r ∧ link_inv (N + 1) r.1.
Proof.
  intros Hi HN Hok. unfold process_link_state_event.
  assert (link_inv (N + 1) s) as Hi1 by (eapply inv_mono; [done|lia]).
  destruct (links s !! l) as [k|] eqn:Hk; [|by eexists]. pose proof (lk_link s l k Hk) as Hc.
  assert (link_type k ≠ AdapterToNode) as Hty by (by apply (li_type _ _ Hi l (core k))).
  assert (∀ reason, link_inv (N + 1) (initiate_close s l k reason).1) as Hcl by (intros; by eapply initiate_close_inv).
  unfold process_event. destruct ev as [| | |x|h| |reason| | |reason| | |clock]; simpl in Hok; try (eexists; split; [done|]).
  - destruct (start_inv N s l k Hi Hk) as (r & -> & Hr). eexists. split; [done|]. eapply inv_mono; [done|lia].
  - eapply inv_mono; [by apply keying_done_inv|lia].
  - by apply hello_request_inv.
  - done.
  - unfold process_hello_response. destruct (negb _); [apply Hcl|]. by destruct (link_type k).
  - unfold process_keep_alive_response. destruct (fsm_state (fsm k)); try done. destruct (echo_handle (fsm k)); [|done].
    simpl. eapply same_inv; [apply same_timeout|]. by eapply same_inv; [apply same_put|].
  - eapply clean_up_inv; [done|done|exact Hc|done|by left|]. simpl. by destruct (status (fsm k)).
  - unfold process_terminate_ack. destruct (fsm_state (fsm k)) eqn:Est; try done.
    eapply clean_up_inv; [done|done|exact Hc|done|by left|]. simpl.
    rewrite (li_ready _ _ Hi l (core k) Hc : ready (fsm k) = _). simpl. rewrite Est. by destruct (status (fsm k)).
  - unfold process_disconnect_ack. destruct (link_type k); try done. destruct (fsm_state (fsm k)); try done.
    by eapply continue_close_inv.
  - apply Hcl.
  - apply complete_close_inv; auto.
  - eapply initiate_close_inv; [by eapply same_inv; [apply same_count|]|done|exact Hc|done].
  - by apply timeout_inv.
Qed.

(** ** Authorizations *)

Lemma emit_emit s ms ms' : emit (emit s ms) ms' = emit s (ms ++ ms').
Proof. unfold emit. simpl. by rewrite app_assoc. Qed.
Lemma emit_nil s : emit s [] = s.
Proof. unfold emit. destruct s. simpl. by rewrite app_nil_r. Qed.

Lemma inv_log N s ms : link_inv N s → granted_of ms ≡ₚ disconnected_of ms → link_inv N (emit s ms).
Proof.
  intros [H1 H2 H3 H4 H5 H6 H7 H8 H9 H10 H11 H12 H13 H14 H15] Hms. split; try done. simpl.
  rewrite granted_app, disconnected_app, H15, Hms, <- !app_assoc. f_equiv. apply Permutation_app_comm.
Qed.

(** The end of an exchange: the address that the actor gets, if the visa service
    gave it, is on record as granted. *)
Lemma finish_inv N s ms a d gen txn st addr :
  link_inv N s → actors s !! a = Some d → (generation d =? gen) && bool_decide (remote_txn d = Some txn) = true →
  granted_of ms ≡ₚ disconnected_of ms ++ (if bool_decide (special_peer s = Some (ac_id d)) then [] else option_list addr) →
  link_inv N (finish_remote (emit s ms) a d gen txn st addr).1 ∧ (finish_remote (emit s ms) a d gen txn st addr).2 = inr tt.
Proof.
  intros Hi Ha Hc Hms. unfold finish_remote. rewrite Hc. simpl. split; [|done].
  apply andb_true_iff in Hc as [_ Htx%bool_decide_eq_true]. assert (busy d) as Hb by (right; eauto).
  pose proof (li_excl _ _ Hi a d Ha ltac:(eauto)) as Hempty.
  destruct (li_busy _ _ Hi a d Ha Hb) as (c & Hc & Hca & Hct & Hco).
  destruct (li_actor _ _ Hi _ c Hc) as (d0 & Hd0 & _ & Hty). rewrite Hca in Hd0. assert (d0 = d) as -> by congruence.
  set (d' := match addr with Some x => _ | None => _ end).
  assert (ac_id d' = ac_id d ∧ ac_type d' = ac_type d ∧ installed_address d' = installed_address d ∧ generation d' = generation d ∧
    remote_txn d' = None ∧ addresses d' = option_list addr) as (E1 & E2 & E3 & E4 & E5 & E6) by (unfold d'; by destruct addr).
  eapply same_inv; [by apply same_emit|]. apply (inv_actor N N s _ a d d' Hi ltac:(lia)). split; simpl; try done.
  - pose proof (li_gen _ _ Hi a d Ha). lia.
  - eauto 10.
  - rewrite E5. intros [? [=]].
  - rewrite E5. intros ? _ [=].
  - auto.
  - exists (granted_of ms), (disconnected_of ms). rewrite granted_app, disconnected_app. split; [done|]. split; [done|].
    unfold held_of. rewrite Hempty, E1, E2, E6, Hty, Hct, Hms. simpl. by destruct (bool_decide (special_peer s = _)); rewrite ?app_nil_r.
Qed.

(** The states in which an actor may open an exchange. *)
Lemma require_node_link_busy N s l k d :
  link_inv N s → links s !! l = Some k → actors s !! actor_auth k = Some d → require_node_link s d = true →
  ∃ c, lk s (ac_id d) = Some c ∧ c_actor c = actor_auth k ∧ c_type c = NodeToAdapter ∧ open_state (c_state c) = true.
Proof.
  intros Hi Hk Hd [Hty%bool_decide_eq_true Hr]%andb_true_iff. pose proof (lk_link s l k Hk) as Hc.
  destruct (li_actor _ _ Hi l (core k) Hc) as (d0 & Hd0 & Hid & Hct). assert (d0 = d) as -> by (simpl in Hd0; congruence).
  exists (core k). rewrite Hid. split; [done|]. split; [done|]. split; [congruence|].
  unfold is_link_ready in Hr. rewrite Hid, Hk in Hr. rewrite (li_ready _ _ Hi l (core k) Hc : ready (fsm k) = _) in Hr.
  apply andb_true_iff in Hr as [_ Hst%bool_decide_eq_true]. by rewrite Hst.
Qed.

Lemma start_remote_inv N e s l k d txn :
  link_inv N s → N + 1 < U64_MOD → links s !! l = Some k → actors s !! actor_auth k = Some d →
  link_inv (N + 1) (start_remote e s (actor_auth k) d txn).1.
Proof.
  intros Hi HN Hk Hd. assert (link_inv (N + 1) s) as Hi1 by (eapply inv_mono; [done|lia]). unfold start_remote.
  destruct (require_node_link s d) eqn:Hreq; [|done]. pose proof (require_node_link_busy N s l k d Hi Hk Hd Hreq) as Hopen.
  destruct (links s !! ac_id d) as [k'|]; [|done]. simpl. destruct (bool_decide (is_Some (remote_txn d)) || _) eqn:Hfree; [done|].
  apply orb_false_iff in Hfree as [_ Hempty%negb_false_iff%bool_decide_eq_true]. simpl.
  eapply same_inv; [by apply same_emit|]. pose proof (li_gen _ _ Hi _ d Hd) as Hg.
  assert (wrap64 (generation d + 1) = generation d + 1) as Ew by (apply wrap64_small; unfold is_u64; lia).
  match goal with |- context [put_actor s _ ?d'] => apply (inv_actor N (N + 1) s _ (actor_auth k) d d' Hi ltac:(lia)) end.
  split; simpl; try done.
  - rewrite Ew. lia.
  - rewrite Ew. intros t. lia.
  - auto.
  - exists [], []. simpl. rewrite !app_nil_r. split; [done|]. split; [done|]. unfold held_of. simpl. done.
Qed.

(** An exchange that goes on or ends without an address. *)
Lemma exchange_inv N s l k d d' :
  link_inv N s → links s !! l = Some k → actors s !! actor_auth k = Some d →
  ac_id d' = ac_id d → ac_type d' = ac_type d → installed_address d' = installed_address d → generation d' = generation d →
  addresses d' = addresses d → remote_txn d' = remote_txn d ∨ remote_txn d' = None → link_inv N (put_actor s (actor_auth k) d').
Proof.
  intros Hi Hk Hd E1 E2 E3 E4 E5 E6. assert (is_Some (remote_txn d') → is_Some (remote_txn d)) as Htx.
  { destruct E6 as [-> | ->]; [done|]. by intros [? [=]]. }
  pose proof (li_gen _ _ Hi _ d Hd) as Hg. eapply (inv_actor N N s _ (actor_auth k) d d' Hi ltac:(lia)). split; simpl; try done.
  - lia.
  - intros Hb. apply (li_busy _ _ Hi _ d Hd). destruct Hb as [Hb|Hb]; [left; congruence|right; auto].
  - intros Hs. rewrite E5. apply (li_excl _ _ Hi _ d Hd). auto.
  - intros t _ Et. destruct E6 as [E|E]; congruence.
  - auto.
  - exists [], []. rewrite !app_nil_r. split; [done|]. split; [done|]. unfold held_of. by rewrite E1, E2, E5.
Qed.

Lemma authorize_task_inv N s a d txn :
  link_inv N s → actors s !! a = Some d → special_peer s ≠ Some (ac_id d) → link_inv N (spawn s (TAuthorize a (generation d) txn)).
Proof.
  intros Hi Hd Hsp. pose proof (li_gen _ _ Hi _ d Hd) as Hg. apply (inv_actor N N s _ a d d Hi ltac:(lia)). split; simpl; try done.
  - by rewrite insert_id.
  - lia.
  - apply (li_busy _ _ Hi a d Hd).
  - apply (li_excl _ _ Hi a d Hd).
  - intros t [?| ->%list_elem_of_singleton]%elem_of_app _; [by left|]. right. split; [by eexists|done].
  - exists [], []. by rewrite !app_nil_r.
Qed.

Lemma acquire_remote_inv N s l k d txn addrs blob :
  link_inv N s → links s !! l = Some k → actors s !! actor_auth k = Some d →
  link_inv N (acquire_remote s (actor_auth k) d txn addrs blob).1.
Proof.
  intros Hi Hk Hd. unfold acquire_remote. destruct (links s !! ac_id d) as [k'|]; [|done].
  destruct (negb _); [done|]. destruct (1 <? length addrs)%nat; [done|].
  destruct (bool_decide (ac_state d = _) && bool_decide (remote_txn d = Some txn)) eqn:Hcur; [|done]. simpl.
  apply andb_true_iff in Hcur as [_ Htx]. set (d1 := with_remote _ _ _).
  assert (link_inv N (put_actor s (actor_auth k) d1)) as Hi1 by (eapply exchange_inv; eauto; by left).
  set (s1 := put_actor s (actor_auth k) d1) in *. assert (actors s1 !! actor_auth k = Some d1) as Hd1 by apply lookup_insert_eq.
  assert ((generation d1 =? generation d1) && bool_decide (remote_txn d1 = Some txn) = true) as Hc1 by (by rewrite Z.eqb_refl).
  destruct (challenge d) as [c|]; [|done].
  assert (link_inv N (finish_remote s1 (actor_auth k) d1 (generation d1) txn (authentication_status AuthRejected) None).1) as Hrej.
  { rewrite <- (emit_nil s1). apply finish_inv; [done..|]. by destruct (bool_decide (special_peer s1 = _)). }
  destruct (decode_blob blob) as [b|]; [|done]. destruct (self_signed b && _); [done|]. destruct (negb (connect_request_ok b)); [done|].
  change (ac_id d) with (ac_id d1). unfold is_vs. destruct (bool_decide (special_peer s1 = Some (ac_id d1))) eqn:Hvs.
  - destruct (_ || _); [done|]. rewrite <- (emit_nil (with_deferred s1 _)).
    apply finish_inv; [eapply (same_inv N s1); [by split|done]|done|done|]. apply bool_decide_eq_true in Hvs. by rewrite bool_decide_eq_true_2.
  - simpl. apply (authorize_task_inv N s1 _ d1); [done|done|]. by apply bool_decide_eq_false in Hvs.
Qed.

Lemma authorization_result_inv N s a d gen txn r :
  link_inv N s → actors s !! a = Some d →
  (gen = generation d → remote_txn d = Some txn → special_peer s ≠ Some (ac_id d)) →
  link_inv N (authorization_result s a d gen txn r).
Proof.
  intros Hi Hd Hsp. unfold authorization_result. set (c0 := (generation d =? gen) && bool_decide (remote_txn d = Some txn)).
  destruct (c0 && bool_decide (ac_state d = Authorizing)) eqn:Hcur.
  - apply andb_true_iff in Hcur as [Hc _]. assert (bool_decide (special_peer s = Some (ac_id d)) = false) as Hns.
    { apply andb_true_iff in Hc as [Hg%Z.eqb_eq Ht%bool_decide_eq_true]. apply bool_decide_eq_false. auto. }
    destruct r as [x|rej]; simpl.
    + destruct (is_v4 x || _).
      * rewrite emit_emit. apply finish_inv; [done..|]. by rewrite Hns.
      * destruct (finish_inv N s [VsGranted x] a d gen txn (authentication_status AuthSuccess) (Some x) Hi Hd Hc) as [H1 H2].
        { by rewrite Hns. }
        destruct (finish_remote _ _ _ _ _ _ _) as [s' r']. simpl in *. by subst r'.
    + rewrite <- (emit_nil s). apply finish_inv; [done..|]. by destruct (bool_decide (special_peer s = _)).
  - destruct r as [x|rej]; simpl; [|done]. rewrite emit_emit. by apply inv_log.
Qed.

(** ** New links and pools *)

Lemma inv_connect N s l ty key a :
  link_inv N s → 0 <= N → links s !! l = None → actors s !! a = None → ty ≠ AdapterToNode → l ≠ 0 → TCloseDone l ∉ tasks s →
  link_inv N (put_actor (put s l (link_new ty key a)) a (actor_new l ty)).
Proof.
  intros [H1 H2 H3 H4 H5 H6 H7 H8 H9 H10 H11 H12 H13 H14 H15] HN Hl Ha Hty H0 Ht. set (s' := put_actor _ _ _).
  assert (∀ l', lk s' l' = if decide (l' = l) then Some (core (link_new ty key a)) else lk s l') as El by (intros; apply (lk_put s)).
  assert (lk s l = None) as Hn by (unfold lk; by rewrite Hl).
  assert (∀ l0 c0, lk s' l0 = Some c0 → l0 = l ∧ c0 = core (link_new ty key a) ∨ l0 ≠ l ∧ lk s l0 = Some c0) as Hback.
  { intros l0 c0. rewrite El. destruct (decide (l0 = l)) as [->|]; [intros [= <-]|]; auto. }
  assert (∀ b e', actors s' !! b = Some e' → b = a ∧ e' = actor_new l ty ∨ b ≠ a ∧ actors s !! b = Some e') as Haback.
  { intros b e'. simpl. rewrite lookup_insert_Some. naive_solver. }
  assert (∀ l0 c0, lk s l0 = Some c0 → c_actor c0 ≠ a) as Hfresh.
  { intros l0 c0 Hc0 E. destruct (H3 l0 c0 Hc0) as (d & Hd & _). congruence. }
  assert (¬ busy (actor_new l ty)) as Hidle by (intros [?|[? [=]]]; done).
  split.
  - intros l0 c0 [[-> ->]|[_ ?]]%Hback; eauto.
  - intros l0 c0 [[-> ->]|[_ ?]]%Hback; [by destruct ty|eauto].
  - intros l0 c0 [[-> ->]|[_ Hc]]%Hback; simpl; [rewrite lookup_insert_eq; by eexists|].
    rewrite lookup_insert_ne by (intros E; by apply (Hfresh l0 c0)). eauto.
  - intros l0 l1 c0 c1 [[-> ->]|[_ Hc]]%Hback [[-> ->]|[_ Hc']]%Hback E; simpl in E; [done|..|eauto].
    + by destruct (Hfresh _ _ Hc').
    + by destruct (Hfresh _ _ Hc).
  - intros b d [[-> ->]|[_ Hd]]%Haback Hb; [done|]. destruct (H5 b d Hd Hb) as (c & Hc & ?). exists c. rewrite El, decide_False; [done|].
    intros E. congruence.
  - intros b d [[-> ->]|[_ Hd]]%Haback; [done|eauto].
  - intros b d [[-> ->]|[_ Hd]]%Haback; [done|eauto].
  - intros b d [[-> ->]|[_ Hd]]%Haback; [simpl; lia|eauto].
  - intros l0 c0 Hin [[-> ->]|[_ Hc]]%Hback; [done|eauto].
  - intros b g t Hin. destruct (H10 b g t Hin) as (d & Hd & ?). exists d. simpl. rewrite lookup_insert_ne; [done|]. intros ->. congruence.
  - done.
  - intros l0 c0 x [[-> ->]|[_ Hc]]%Hback; [done|eauto].
  - intros l0 c0 [[-> ->]|[_ Hc]]%Hback; [done|eauto].
  - eapply aaa_put; [|exact El|done]. by rewrite Hn.
  - simpl. rewrite H15. f_equiv. unfold held. rewrite map_to_list_insert by done. simpl. unfold held_of at 2. simpl. by destruct (_ && _).
Qed.

Lemma inv_configure N s p :
  link_inv N s → pool_wf p → active p = ∅ → (∀ l k, links s !! l = Some k → aaa_address k = None) → link_inv N (with_pool s (Some p)).
Proof.
  intros [H1 H2 H3 H4 H5 H6 H7 H8 H9 H10 H11 H12 H13 H14 H15] Hp Hact Hn.
  assert (∀ l c, lk s l = Some c → c_aaa c = None) as Hc.
  { intros l c (k & Hk & ->)%fmap_Some_1. by apply (Hn l). }
  split; try done. split; try done.
  - intros ? [= <-]. done.
  - intros q l c x _ Hl Hx. change (lk s l = Some c) in Hl. rewrite (Hc l c Hl) in Hx. done.
  - intros l l' c c' x x' Hl _ Hx. change (lk s l = Some c) in Hl. rewrite (Hc l c Hl) in Hx. done.
  - intros ? i [= <-] Hi. rewrite Hact in Hi. by apply elem_of_empty in Hi.
Qed.
End link_inv.
