(* ===== verification/LinkSafe.v ===== *)
(** Every run of a node's links and actors ([Link]) keeps the invariant of
    [LinkInv]. *)
From S2P Require Import Prelude Zdp Dispatch NetDefs Tlv AddressPool Link LinkInv.

Section link_safe.
Context {ND : NetDefs} {NL : NetDefsLaws} {AA : AuthApi}.
Implicit Types (s : LinkSys) (l a : Z) (k : Link) (d : ActorAuthorization).

(** ** What a node is given

    These are conditions on the inputs of each step, in the state in which it is
    taken; they say nothing of what the step does.
    - links are accepted from adapters (or are internal), under an identifier
      that is not 0 and that no task still cleans up;
    - the end of a clean-up is only reported by its task;
    - a hello comes when the pool has an address left;
    - the network of the pool, with 0x0aaa in bytes 6 and 7, is configured while
      no link has an address. *)
Definition net_ok (net : bytes) : bool :=
  (length net =? 16)%nat && forallb in_u8 net && (nth 6 net 0 =? 0x0a) && (nth 7 net 0 =? 0xaa).

Definition lop_ok (e : Env) s (op : LinkOp) : bool :=
  match op with
  | LoConnect l ty _ _ =>
      negb (bool_decide (ty = AdapterToNode)) && negb (l =? 0) &&
      forallb (λ t, match t with TCloseDone l' => negb (l' =? l) | _ => true end) (tasks s)
  | LoEvent _ ev =>
      match ev with
      | CloseDone | AssignedAAA _ => false
      | ReceivedHelloRequest => hello_ok e s
      | _ => true
      end
  | LoConfigure net _ => net_ok net && bool_decide (map_Forall (λ _ k, aaa_address k = None) (links s))
  | _ => true
  end.

(** Each step of the run is given what [lop_ok] asks for; a run that panics is
    asked for nothing further. *)
Fixpoint lrun_ok s (ops : list (Env * LinkOp)) : bool :=
  match ops with
  | [] => true
  | (e, op) :: ops => lop_ok e s op && match link_exec e s op with Ret s => lrun_ok s ops | Panic => true end
  end.

Lemma net_ok_wf net n p : net_ok net = true → address_pool_new net n = inr p → pool_wf p ∧ active p = ∅.
Proof.
  unfold net_ok, address_pool_new. rewrite !andb_true_iff. intros (((Hl%Nat.eqb_eq & Hb) & H6%Z.eqb_eq) & H7%Z.eqb_eq).
  destruct (88 <? n); [done|]. intros [= <-]. split; [|done]. split; simpl; try done.
  apply list.Forall_forall. intros x Hx. rewrite forallb_forall in Hb. specialize (Hb x (proj1 (list_elem_of_In _ _) Hx)).
  unfold in_u8 in Hb. unfold is_u8. lia.
Qed.

Lemma on_actor_inv N s l f :
  link_inv N s → (∀ k d, links s !! l = Some k → actors s !! actor_auth k = Some d → link_inv N (f (actor_auth k) d).1) →
  link_inv N (on_actor s l f).
Proof.
  intros Hi Hf. unfold on_actor. destruct (links s !! l) as [k|]; [|done]. destruct (actors s !! actor_auth k) as [d|] eqn:Hd; [|done].
  by apply Hf.
Qed.

(** The tasks' events. *)
Lemma link_task_inv N e s i t done :
  link_inv N s → N + 1 < U64_MOD → tasks s !! i = Some t →
  let s1 := drop_link (with_tasks s (delete i (tasks s))) t in
  match task_event t done with
  | Some (l, ev) => ∃ r, process_link_state_event e s1 l ev = Ret r ∧ link_inv (N + 1) r.1
  | None => link_inv (N + 1) s1
  end.
Proof.
  intros Hi HN Ht s1. assert (same s s1) as Hs.
  { eapply same_trans; [apply same_tasks; intros t' Ht'; by eapply list_elem_of_delete_inv|]. fold s1.
    unfold s1, drop_link. destruct t; try apply same_refl. destruct (links _ !! link_id) as [k|] eqn:Hk; [|apply same_refl].
    apply same_put. unfold lk. by rewrite Hk. }
  assert (link_inv N s1) as Hi1 by (by eapply same_inv). assert (link_inv (N + 1) s1) as Hi2 by (eapply inv_mono; [done|lia]).
  destruct t; simpl; try done; try (destruct done; [|done]); try (by apply event_inv).
  apply event_inv; [done|done|]. intros k Hk. pose proof (lk_link s1 _ k Hk) as Hc. rewrite (sm_lk _ _ Hs) in Hc.
  apply (li_closed _ _ Hi _ _ ltac:(by eapply list_elem_of_lookup_2) Hc).
Qed.

Lemma link_exec_inv N e s op :
  link_inv N s → 0 <= N → N + 1 < U64_MOD → lop_ok e s op = true → ∃ s', link_exec e s op = Ret s' ∧ link_inv (N + 1) s'.
Proof.
  intros Hi H0 HN Hok. assert (link_inv (N + 1) s) as Hi1 by (eapply inv_mono; [done|lia]).
  destruct op as [l ty key a|l cert|l ev|l|net n|i done|i r|i w|l txn|l txn|l txn addrs blob|l txn o|l txn st addrs]; simpl in *.
  - destruct (bool_decide (is_Some (links s !! l)) || _) eqn:Hfree; [by eexists|]. eexists. split; [done|].
    apply orb_false_iff in Hfree as [Hl%bool_decide_eq_false Ha%bool_decide_eq_false]. apply eq_None_not_Some in Hl, Ha.
    rewrite !andb_true_iff, !negb_true_iff in Hok. destruct Hok as [[Hty%bool_decide_eq_false Hz%Z.eqb_neq] Hts].
    apply inv_connect; [done|lia|done..|]. rewrite forallb_forall in Hts. intros Hin%list_elem_of_In. specialize (Hts _ Hin). simpl in Hts.
    by rewrite Z.eqb_refl in Hts.
  - eexists. split; [done|]. destruct (links s !! l) as [k|] eqn:Hk; [|done]. eapply same_inv; [|done]. apply same_put. unfold lk. by rewrite Hk.
  - destruct (event_inv N e s l ev Hi HN) as (r & -> & Hr); [by destruct ev|]. simpl. by eexists.
  - eexists. split; [done|]. destruct (links s !! l) as [k|] eqn:Hk; [|done]. unfold reset.
    change (emit (put s l ?k') ?ms) with (put (emit s ms) l k').
    eapply clean_up_inv; [by eapply same_inv; [by apply same_emit|]|done|by apply (lk_link s)|done|by right|].
    simpl. by destruct (status (fsm k)).
  - eexists. split; [done|]. apply andb_true_iff in Hok as [Hnet Hno%bool_decide_eq_true].
    destruct (address_pool_new net n) as [|p] eqn:Ep; [done|]. destruct (net_ok_wf _ _ _ Hnet Ep). by apply inv_configure.
  - destruct (tasks s !! i) as [t|] eqn:Ht; [|by eexists]. pose proof (link_task_inv N e s i t done Hi HN Ht) as Hr. simpl in Hr.
    destruct t; simpl in Hr |- *; try (by eexists); try (destruct done; [|by eexists]); destruct Hr as (r & E & Hr); rewrite E; by eexists.
  - destruct (tasks s !! i) as [[]|] eqn:Ht; try by eexists. eexists. split; [done|].
    assert (same s (with_tasks s (delete i (tasks s)))) as Hs by (apply same_tasks; intros t' Ht'; by eapply list_elem_of_delete_inv).
    destruct (li_auth _ _ Hi _ _ _ (list_elem_of_lookup_2 _ _ _ Ht)) as (d & Hd & Hg & Hv). simpl. rewrite Hd.
    apply authorization_result_inv; [by eapply same_inv|done|]. intros ->. by apply Hv.
  - destruct (tasks s !! i) as [[]|] eqn:Ht; try by eexists. by destruct (li_worker _ _ Hi _ _ (list_elem_of_lookup_2 _ _ _ Ht)).
  - eexists. split; [done|]. apply on_actor_inv; [done|]. intros k d Hk Hd. by eapply start_remote_inv.
  - eexists. split; [done|]. apply on_actor_inv; [done|]. intros k d Hk Hd. unfold abandon_remote.
    destruct (negb _); [done|]. destruct (negb _); [done|]. eapply exchange_inv; eauto.
  - eexists. split; [done|]. apply on_actor_inv; [done|]. intros k d Hk Hd. by eapply acquire_remote_inv.
  - eexists. split; [done|]. apply on_actor_inv; [done|]. intros k d Hk Hd. unfold receive_offer, deliver_reply.
    pose proof (li_atype _ _ Hi _ d Hd) as [Hty _]. by rewrite (bool_decide_eq_false_2 _ Hty).
  - eexists. split; [done|]. apply on_actor_inv; [done|]. intros k d Hk Hd. unfold receive_grant, deliver_reply.
    pose proof (li_atype _ _ Hi _ d Hd) as [Hty _]. rewrite (bool_decide_eq_false_2 _ Hty). by destruct (_ || _).
Qed.

Lemma link_new_inv vs : link_inv 0 (link_sys_new vs).
Proof.
  split; try done.
  - by intros l c t Hin%elem_of_nil.
  - by intros l w Hin%elem_of_nil.
Qed.

Lemma link_run_inv N s ops :
  link_inv N s → 0 <= N → N + Z.of_nat (length ops) < U64_MOD → lrun_ok s ops = true →
  ∃ s', link_run s ops = Ret s' ∧ link_inv (N + Z.of_nat (length ops)) s'.
Proof.
  revert N s. induction ops as [|[e op] ops IH]; intros N s Hi H0 HN Hok.
  - exists s. simpl. by rewrite Z.add_0_r.
  - cbn [lrun_ok] in Hok. apply andb_true_iff in Hok as [Hop Hrest]. cbn [length] in HN |- *.
    destruct (link_exec_inv N e s op Hi H0 ltac:(lia) Hop) as (s' & E & Hi'). rewrite E in Hrest. simpl. rewrite E. cbn [mbind outcome_bind].
    destruct (IH (N + 1) s' Hi' ltac:(lia) ltac:(lia) Hrest) as (s2 & -> & Hi2). exists s2. split; [done|].
    by replace (N + Z.of_nat (S (length ops))) with (N + 1 + Z.of_nat (length ops)) by lia.
Qed.

(** C24: the links of a node (to adapters, to nodes, and internal; the link of
    an adapter to its dock is in another process) and their actors, over runs of
    peers' messages, key management, timers, clean-ups and answers of the visa
    service, in any order.  The conditions on the inputs ([lop_ok]) are: the
    pool is configured with a network that has 0x0aaa in bytes 6 and 7, and not
    again while a link has an address; a hello comes only while the pool has a
    free identifier other than the last; a link's identifier is not 0, and
    not reused while its last holder is still cleaned up ([link_address_leaks]
    shows what happens otherwise).  Then nothing panics; a
    link is ready exactly when it is up and active; the addresses that the pool
    has reserved are those of the links, each of one link; an actor has an address,
    or an exchange in progress, only while the link that it belongs to is
    there, is an adapter's and has not gone down; and the connections
    that the visa service granted are those that actors still hold and those
    it was told were disconnected. *)
Theorem link_system_safe (vs : bool) (ops : list (Env * LinkOp)) :
  lrun_ok (link_sys_new vs) ops = true → Z.of_nat (length ops) < U64_MOD →
  ∃ s, link_run (link_sys_new vs) ops = Ret s ∧
    (∀ l k, links s !! l = Some k → ready (fsm k) = true ↔ status (fsm k) = Up ∧ fsm_state (fsm k) = LinkActive) ∧
    (∀ p i, address_pool s = Some p → i ∈ active p ↔ ∃ l k x, links s !! l = Some k ∧ aaa_address k = Some x ∧ aaa_id x = i) ∧
    (∀ l l' k k' x, links s !! l = Some k → links s !! l' = Some k' → aaa_address k = Some x → aaa_address k' = Some x → l = l') ∧
    (∀ a d, actors s !! a = Some d → addresses d ≠ [] ∨ is_Some (remote_txn d) →
      ∃ k, links s !! ac_id d = Some k ∧ actor_auth k = a ∧ link_type k = NodeToAdapter ∧ open_state (fsm_state (fsm k)) = true) ∧
    granted_of (out s) ≡ₚ disconnected_of (out s) ++ held (special_peer s) (actors s).
Proof.
  intros Hok Hlen. destruct (link_run_inv 0 _ ops (link_new_inv vs) ltac:(lia) Hlen Hok) as (s & E & Hi). exists s.
  assert (∀ l c, lk s l = Some c → ∃ k, links s !! l = Some k ∧ c = core k) as Hlk by (intros l c; apply fmap_Some_1).
  pose proof (li_aaa _ _ Hi) as HA. split; [done|]. split; [|split; [|split; [|split]]].
  - intros l k Hk. pose proof (li_ready _ _ Hi l _ (lk_link s l k Hk)) as Hr. simpl in Hr. rewrite Hr, andb_true_iff, !bool_decide_eq_true. done.
  - intros p i Hp. split.
    + intros Hin. destruct (aa_owned _ _ HA p i Hp Hin) as (l & c & x & Hc & Hx & Hid). destruct (Hlk l c Hc) as (k & Hk & ->). by exists l, k, x.
    + intros (l & k & x & Hk & Hx & <-). by apply (aa_held _ _ HA p l (core k) x Hp (lk_link s l k Hk)).
  - intros l l' k k' x Hk Hk' Hx Hx'. by apply (aa_inj _ _ HA l l' (core k) (core k') x x); [apply lk_link..| | |].
  - intros a d Hd Hb. destruct (li_busy _ _ Hi a d Hd Hb) as (c & Hc & Ha & Ht & Ho). destruct (Hlk _ c Hc) as (k & Hk & ->). by exists k.
  - apply (li_vs _ _ Hi).
Qed.
End link_safe.

(** ** Examples

    Challenges are numbers, and a blob is the number it answers. *)
#[export] Instance sample_auth : AuthApi := {|
  Challenge := Z;
  AuthBlob := Z;
  challenge_new _ r := r;
  decode_blob b := head b;
  self_signed _ := true;
  challenge_verified b c _ := b =? c;
  connect_request_ok _ := true;
  ip_unspecified := replicate 16 0;
|}.

Definition env_of (r : Z) : Env := mk_env r 0 (Some false) true true.
Definition at_random (r : Z) (ops : list LinkOp) : list (Env * LinkOp) := (λ op, (env_of r, op)) <$> ops.

(** The adapter on link [l] with actor [a] gets to the hello. *)
Definition connect_ops (l a : Z) : list LinkOp :=
  [LoConnect l NodeToAdapter [] a; LoEvent l Start; LoKeyed l None; LoEvent l KeyingDone; LoEvent l ReceivedHelloRequest].

Definition sample_configure : LinkOp := LoConfigure (ipnet_addr sample_pool) 88.

(** It authorizes itself: transaction 7, challenge 5; the visa service is
    asked in the task after the link's timer. *)
Definition granted_address : @IpAddress sample_net := [0xfd; 0; 0; 0; 0; 0; 0; 0; 0; 0; 0; 0; 0; 0; 0; 9].
Definition authorize_ops (l : Z) : list LinkOp :=
  [LoStart l 7; LoAcquire l 7 [] [5]; LoAuthorized 1 (Connected granted_address)].

Definition authorized : list (Env * LinkOp) := at_random 5 (sample_configure :: connect_ops 1 101 ++ authorize_ops 1).

(** The terminate message of the adapter, and the end of the clean-up. *)
Definition closed : list (Env * LinkOp) := authorized ++ at_random 5 [LoEvent 1 (ReceivedTerminateLink 0); LoTask 1 true].

Definition lrun_of (ops : list (Env * LinkOp)) : option LinkSys :=
  match link_run (link_sys_new false) ops with Ret s => Some s | Panic => None end.

(** What a run leaves: the links with their addresses, the pool's reservations,
    and the granted addresses that are held. *)
Definition summary (ops : list (Env * LinkOp)) : option (list (Z * option Z) * list Z * list (list Z)) :=
  s ← lrun_of ops;
  Some ((λ lk, (lk.1, aaa_id <$> aaa_address lk.2)) <$> map_to_list (links s),
        match address_pool s with Some p => elements (active p) | None => [] end,
        held (special_peer s) (actors s)).

Lemma link_system_safe_witness :
  (∃ s, link_run (link_sys_new false) authorized = Ret s ∧ granted_of (out s) ≡ₚ disconnected_of (out s) ++ held (special_peer s) (actors s)) ∧
  summary authorized = Some ([(1, Some 5)], [5], [granted_address]) ∧ summary closed = Some ([], [], []).
Proof.
  split; [|split; vm_compute; reflexivity].
  destruct (link_system_safe false authorized) as (s & E & _ & _ & _ & _ & Hv); [vm_compute; reflexivity|vm_compute; reflexivity|].
  exists s. split; [exact E|exact Hv].
Defined.

(** what [lrun_ok] rules out loses addresses.  The visa service configures the
    pool again while link 1 has an address: the reservation is forgotten, and link 2
    gets the same address.  A pool whose network lacks 0x0aaa takes no
    address back.  The adapter of link 1 sends its terminate message twice, so
    the link is cleaned up twice; when the second clean-up ends, link 1 is another
    adapter's, whose closing it cuts short, and its address stays reserved. *)
Theorem link_address_leaks :
  summary (at_random 5 (sample_configure :: connect_ops 1 101 ++ sample_configure :: connect_ops 2 102))
    = Some ([(2, Some 5); (1, Some 5)], [5], []) ∧
  (let net := take 6 (ipnet_addr sample_pool) ++ replicate 10 0 in
   summary (at_random 5 (LoConfigure net 88 :: connect_ops 1 101 ++ [LoEvent 1 (ReceivedTerminateLink 0); LoTask 1 true]))
    = Some ([], [5], [])) ∧
  summary (at_random 5 (sample_configure :: connect_ops 1 101 ++
      [LoEvent 1 (ReceivedTerminateLink 0); LoEvent 1 (ReceivedTerminateLink 0); LoTask 1 true] ++
      connect_ops 1 102 ++ [LoEvent 1 (Close 0); LoTask 1 true]))
    = Some ([], [5], []).
Proof. vm_compute. by repeat split. Qed.
