(* ===== verification/Messages.v ===== *)
(** Management messages: the builders of [src/adapter/ph/src/mgmt/requests.rs],
    the headers that [mgmt/core.rs] puts before them, the routing of
    [mgmt_processor_worker.rs], and the decoding half of the handlers of
    [mgmt/handlers.rs].

    Builders work on packets ([PacketBuf]) of the size that the code allocates, so a
    message that does not fit panics.  Handlers are decoded up to the call they
    make; those calls are in [Node], [AdapterTables] and [Link]. *)
From S2P Require Import Prelude Zdp Utf8 Tlv NetDefs IpHeaders PacketBuf Compress Classifier Tc TxnMgr Slab AdapterTables Node.

(** [auth::ZdpInitAuthenticationPayload] *)
Record ZdpInitAuthenticationPayload : Type := mk_payload { nonce : bytes; ctime : Z; hmac : bytes }.

Definition zdpInitAuthenticationPayload : packed ZdpInitAuthenticationPayload :=
  packed_struct (byte_array 8 × U64 × byte_array 32) (λ '(x0, x1, x2), mk_payload x0 x1 x2) (λ h, (nonce h, ctime h, hmac h)).

#[global] Instance zdpInitAuthenticationPayload_laws : PackedLaws zdpInitAuthenticationPayload.
Proof. packed_struct. Qed.

Definition SMALL_PACKET_BUFFER_SIZE : Z := 2048.
Definition DEFAULT_MESSAGE_HEADROOM : Z := 256.
Definition BIND_REQUEST_MAX_PAYLOAD_LENGTH : Z := 256.

(** [L3Type] and [Tcst] on the wire, as the [zpr] crate defines them. *)
Class WireTypes : Type := {
  l3Type : packed Z;
  Tcst : Type;
  tcst_ : packed Tcst;
  Ip5Tuple : Tcst;
  is_ip5tuple : Tcst → bool;
}.

(** [PublicKey::as_bytes] and [PublicKey::from] are those of [TlvExternals]; [Visa]
    is the type of bootstrap visas. *)
Section messages.
Context {ND : NetDefs} {AK : A2aKeys} {Visa : Type} {EXT : TlvExternals PublicKey Visa} {WT : WireTypes}.
Context (MIN_BODY_OFFSET : Z) (zeroed : PacketMetadata).
Abbreviation M := MIN_BODY_OFFSET.
Abbreviation Encoding := (TlvEncoding PublicKey Visa).
Abbreviation Value := (TlvValue PublicKey Visa).

(** ** Building *)

Definition new_heap_packet : outcome Packet :=
  new M (Buffer zeroed (replicate (Z.to_nat (SMALL_PACKET_BUFFER_SIZE - M)) 0)) DEFAULT_MESSAGE_HEADROOM.

(** [alloc_zeroed_header] and the assignment of its fields, and [write_to_buf(..).unwrap()]. *)
Definition front {A} (c : packed A) (h : A) (p : Packet) : outcome Packet := alloc_header M p (as_bytes c h).
Definition back {A} (c : packed A) (h : A) (p : Packet) : outcome Packet := put M p (as_bytes c h).

(** The headers of [send_mgmt_helper]; the sequence number is filled in upon egress. *)
Definition send_mgmt_helper (ty : ZdpPacketType) (sid txn : option Z) (p : Packet) : outcome Packet :=
  assertb (negb (ty =? packet_type KeyManagement))
  (assertb (Bool.eqb (bool_decide (is_Some sid)) (is_per_flow ty))
  (p ← match txn with Some t => front zdpTransactionHeader (mk_ZdpTransactionHeader t) p | None => Ret p end;
   p ← match sid with Some i => front zdpPerFlowHeader (mk_ZdpPerFlowHeader i) p | None => Ret p end;
   p ← front zdpMgmtHeader (mk_ZdpMgmtHeader 0) p;
   front zdpBaseHeader (mk_ZdpBaseHeader ty 0) p)).

Definition send_non_flow_mgmt (n : ZdpPacketTypeName) (p : Packet) : outcome Packet :=
  send_mgmt_helper (packet_type n) None None p.
Definition send_per_flow_mgmt (n : ZdpPacketTypeName) (sid : Z) (p : Packet) : outcome Packet :=
  send_mgmt_helper (packet_type n) (Some sid) None p.
Definition send_per_flow_txn_mgmt (n : ZdpPacketTypeName) (sid txn : Z) (p : Packet) : outcome Packet :=
  send_mgmt_helper (packet_type n) (Some sid) (Some txn) p.
Definition send_non_flow_txn_mgmt (n : ZdpPacketTypeName) (txn : Z) (p : Packet) : outcome Packet :=
  send_mgmt_helper (packet_type n) None (Some txn) p.

(** The sequence number of [build_and_egress_packets]. *)
Definition fill_sequence_number (seq : Z) (p : Packet) : Packet :=
  let b := body M p in
  set_body M p (take 2 b ++ as_bytes zdpMgmtHeader (mk_ZdpMgmtHeader seq) ++ drop 10 b).

Definition put_tlv (e : Encoding) (p : Packet) : outcome Packet := l ← Tlv.put e; put M p l.
Fixpoint put_tlvs (es : list Encoding) (p : Packet) : outcome Packet :=
  match es with
  | [] => Ret p
  | e :: es => p ← put_tlv e p; put_tlvs es p
  end.

(** [helpers::put_window_size_tlv]: the receiver's window, if the peer is there. *)
Definition window_size_tlv (window : option Z) : list Encoding :=
  (λ w, new_window_size (Z.min w 65535)) <$> option_list window.

Definition send_key_management (km_id : Z) (payload : bytes) : outcome Packet :=
  p ← new_heap_packet;
  p ← front zdpKeyManagementHeader (mk_ZdpKeyManagementHeader km_id (wrap16 (zlen payload))) p;
  p ← put M p payload;
  front zdpBaseHeader (mk_ZdpBaseHeader (packet_type KeyManagement) 0) p.

Definition send_discard : outcome Packet := p ← new_heap_packet; send_non_flow_mgmt Discard p.

Definition send_echo_request : outcome Packet :=
  p ← new_heap_packet; p ← front zdpEchoHeader (mk_ZdpEchoHeader 0) p; send_non_flow_mgmt Echo p.

(** [ZdpHelloRequestHeader] is empty. *)
Definition send_hello_request (window : option Z) (key : PublicKey) : outcome Packet :=
  p ← new_heap_packet;
  p ← put_tlvs (window_size_tlv window ++ [new_actor_auth_protocol; new_a2a_dh_pubkey key]) p;
  send_non_flow_mgmt HelloRequest p.

(** [IpAddr::from(IpAddress)] *)
Definition to_std (a : IpAddress) : IpAddr := if is_v4 a then IpV4 (read_as_v4 a) else IpV6 (v6 a).

Definition send_hello_success_response (version : bytes) (window : option Z) (policy_id : Z) (asa_addresses : list SocketAddr)
    (aaa_address : option IpAddress) (vs_bootstrap : bool) : outcome Packet :=
  p ← new_heap_packet;
  p ← front zdpHelloResponseHeader (mk_ZdpHelloResponseHeader (response_code ResponseSuccess)) p;
  p ← put_tlvs ([new_policy_id policy_id; new_version version; new_actor_auth_protocol] ++
                (if vs_bootstrap then [new_vs_bootstrap_link] else []) ++ window_size_tlv window ++
                (new_asa <$> asa_addresses) ++ ((λ a, new_aaa (to_std a)) <$> option_list aaa_address)) p;
  send_non_flow_mgmt HelloResponse p.

Definition send_hello_error_response (status : ResponseCode) : outcome Packet :=
  p ← new_heap_packet;
  p ← front zdpHelloResponseHeader (mk_ZdpHelloResponseHeader status) p;
  p ← put_tlv new_actor_auth_protocol p;
  send_non_flow_mgmt HelloResponse p.

Definition send_start_authentication (txn : Z) : outcome Packet := p ← new_heap_packet; send_non_flow_txn_mgmt StartAuthentication txn p.
Definition send_abandon_authentication (txn : Z) : outcome Packet :=
  p ← new_heap_packet; send_non_flow_txn_mgmt AbandonAuthenticationAttempt txn p.

Definition send_init_authentication_request (txn : Z) (status : AuthenticationStatus) (fl : Z)
    (payload : ZdpInitAuthenticationPayload) (asa_addresses : list SocketAddr) : outcome Packet :=
  p ← new_heap_packet;
  p ← back zdpInitAuthenticationRequestHeader
        (mk_ZdpInitAuthenticationRequestHeader status fl (wrap16 (Z.of_nat (size_of zdpInitAuthenticationPayload)))) p;
  p ← back zdpInitAuthenticationPayload payload p;
  p ← put_tlvs (new_asa <$> asa_addresses) p;
  send_non_flow_txn_mgmt InitAuthenticationRequest txn p.

(** [l3_type] and [octets] of a [std::net::IpAddr]. *)
Definition std_l3_type (a : IpAddr) : Z := match a with IpV4 _ => L3_Ipv4 | IpV6 _ => L3_Ipv6 end.
Definition octets (a : IpAddr) : bytes := match a with IpV4 l => l | IpV6 l => l end.

Definition ip_version_of (addrs : list IpAddr) : Z := match addrs with [] => L3_Ipv6 | a :: _ => std_l3_type a end.

(** The loop over the addresses, which must be of the version of the first. *)
Fixpoint put_addresses (version : Z) (addrs : list IpAddr) (p : Packet) : outcome Packet :=
  match addrs with
  | [] => Ret p
  | a :: addrs =>
      if negb (version =? std_l3_type a) then Panic
      else p ← put M p (octets a); put_addresses version addrs p
  end.

Definition send_acquire_zpr_address_request (txn : Z) (addrs : list IpAddr) (blob : option bytes) : outcome Packet :=
  let blob := default [] blob in
  let version := ip_version_of addrs in
  p ← new_heap_packet;
  p ← back (zdpAcquireZprAddressHeader l3Type) (mk_ZdpAcquireZprAddressHeader (wrap16 (zlen blob)) version (wrap8 (zlen addrs))) p;
  p ← put M p blob;
  p ← put_addresses version addrs p;
  send_non_flow_txn_mgmt AcquireZprAddress txn p.

Inductive AuthError : Type := AuthErrRejected | AuthErrFormat.

Definition validate_acquire_zpr_address_request (addrs : list IpAddr) (blob : bytes) : AuthError + unit :=
  if 1 <? zlen addrs then inl AuthErrRejected
  else
    let address_len := match addrs with IpV4 _ :: _ => 4 | IpV6 _ :: _ => 16 | [] => 0 end in
    let capacity := max_body_size_for M SMALL_PACKET_BUFFER_SIZE - DEFAULT_MESSAGE_HEADROOM in
    let max_blob := capacity - Z.of_nat (size_of (zdpAcquireZprAddressHeader l3Type)) - address_len in
    if (zlen blob =? 0) || (max_blob <? zlen blob) || (65535 <? zlen blob) then inl AuthErrFormat else inr tt.

Definition send_grant_zpr_address_request (txn : Z) (status : AuthenticationStatus) (addrs : list IpAddr) : outcome Packet :=
  let version := ip_version_of addrs in
  p ← new_heap_packet;
  p ← back (zdpGrantZprAddressHeader l3Type) (mk_ZdpGrantZprAddressHeader status version (wrap8 (zlen addrs))) p;
  p ← put_addresses version addrs p;
  send_non_flow_txn_mgmt GrantZprAddress txn p.

Definition send_terminate_link_or_docking_session (reason : TerminateReason) : outcome Packet :=
  p ← new_heap_packet;
  p ← push_header M p (as_bytes zdpTerminateLinkOrDockingSessionHeader (mk_ZdpTerminateLinkOrDockingSessionHeader reason 0));
  send_non_flow_mgmt TerminateLinkOrDockingSession p.

Definition send_bind_actor_address_request (txn l3 : Z) (packet_body : bytes) : outcome Packet :=
  p ← new_heap_packet;
  let n := Z.min BIND_REQUEST_MAX_PAYLOAD_LENGTH (zlen packet_body) in
  p ← front (zdpBindActorAddressRequestHeader l3Type) (mk_ZdpBindActorAddressRequestHeader l3 (wrap16 n)) p;
  p ← put M p (take (Z.to_nat n) packet_body);
  send_per_flow_txn_mgmt BindActorAddressRequest 0 txn p.

(** The public key at the end of a bind message. *)
Definition put_peer_key (key : option PublicKey) (p : Packet) : outcome Packet :=
  match key with
  | Some k => p ← put M p (be_put 2 (wrap16 (zlen (key_as_bytes k)))); put M p (key_as_bytes k)
  | None => put M p (be_put 2 0)
  end.

Definition send_bind_actor_address_success_response (txn tether_id : Z) (tc : Ip5TupleTc) (key : option PublicKey) : outcome Packet :=
  p ← new_heap_packet;
  p ← back zdpBindActorAddressResponseHeader (mk_ZdpBindActorAddressResponseHeader (response_code ResponseSuccess) 0) p;
  p ← back tcst_ Ip5Tuple p;
  l ← Tc.serialize tc;
  p ← put M p l;
  p ← put_peer_key key p;
  send_per_flow_txn_mgmt BindActorAddressResponse tether_id txn p.

(** The reason of a refusal, cut at 255 bytes ([is_char_boundary] or a panic). *)
Definition put_reason (reason : bytes) : outcome (Z * bytes) :=
  let n := Z.min (zlen reason) 255 in
  let cut := take (Z.to_nat n) reason in
  if is_str cut then Ret (wrap8 n, cut) else Panic.

Definition send_bind_actor_address_error_response (txn : Z) (reason : bytes) : outcome Packet :=
  p ← new_heap_packet;
  r ← put_reason reason;
  p ← back zdpBindActorAddressResponseHeader (mk_ZdpBindActorAddressResponseHeader (response_code ResponseOther) r.1) p;
  p ← put M p r.2;
  send_per_flow_txn_mgmt BindActorAddressResponse 0 txn p.

Definition send_stream_id_request (txn visa_id : Z) : outcome Packet :=
  p ← new_heap_packet;
  p ← front zdpStreamIdRequest (mk_ZdpStreamIdRequest visa_id) p;
  send_per_flow_txn_mgmt StreamIdRequest 0 txn p.

Definition send_stream_id_success_response (txn tether_id : Z) : outcome Packet :=
  p ← new_heap_packet;
  p ← back zdpStreamIdResponseHeader (mk_ZdpStreamIdResponseHeader (response_code ResponseSuccess) 0) p;
  send_per_flow_txn_mgmt StreamIdResponse tether_id txn p.

Definition send_stream_id_error_response (txn : Z) (reason : bytes) : outcome Packet :=
  p ← new_heap_packet;
  r ← put_reason reason;
  p ← back zdpStreamIdResponseHeader (mk_ZdpStreamIdResponseHeader (response_code ResponseOther) r.1) p;
  p ← put M p r.2;
  send_per_flow_txn_mgmt StreamIdResponse 0 txn p.

Definition send_bind_egress_stream_request (txn : Z) (tc : Ip5TupleTc) (key : option PublicKey) : outcome Packet :=
  p ← new_heap_packet;
  p ← front (zdpBindEgressStreamRequestHeader tcst_) (mk_ZdpBindEgressStreamRequestHeader Ip5Tuple) p;
  l ← Tc.serialize tc;
  p ← put M p l;
  p ← put_peer_key key p;
  send_per_flow_txn_mgmt BindEgressStreamRequest 0 txn p.

Definition send_bind_egress_stream_success_response (txn tether_id : Z) : outcome Packet :=
  p ← new_heap_packet;
  p ← back zdpBindEgressStreamResponseHeader (mk_ZdpBindEgressStreamResponseHeader (response_code ResponseSuccess) 0) p;
  send_per_flow_txn_mgmt BindEgressStreamResponse tether_id txn p.

Definition send_bind_egress_stream_error_response (txn : Z) (reason : bytes) : outcome Packet :=
  p ← new_heap_packet;
  r ← put_reason reason;
  p ← back zdpBindEgressStreamResponseHeader (mk_ZdpBindEgressStreamResponseHeader (response_code ResponseOther) r.1) p;
  p ← put M p r.2;
  send_per_flow_txn_mgmt BindEgressStreamResponse 0 txn p.

Definition send_report (report : bytes) : outcome Packet :=
  p ← new_heap_packet;
  p ← front zdpReportHeader (mk_ZdpReportHeader (wrap16 (zlen report))) p;
  p ← put M p report;
  send_non_flow_mgmt Report p.

Definition send_unbind_egress_stream_request (sid : Z) : outcome Packet :=
  p ← new_heap_packet; send_per_flow_mgmt UnbindEgressStreamIndication sid p.

(** ** Receiving *)

Inductive MgmtError : Type := UnknownType (ty : Z) | MessageNotPermitted | BadStructure.
Abbreviation decoded A := (MgmtError + A)%type.

(** The handler that a packet is given to, with what is left of the packet. *)
Inductive Routed : Type :=
| ToBindActorAddressRequest (txn : Z) (buf : bytes)
| ToBindActorAddressResponse (txn sid : Z) (buf : bytes)
| ToStreamIdRequest (txn : Z) (buf : bytes)
| ToStreamIdResponse (txn sid : Z) (buf : bytes)
| ToBindEgressStreamRequest (txn : Z) (buf : bytes)
| ToBindEgressStreamResponse (txn sid : Z) (buf : bytes)
| ToUnbindIndication (sid : Z)
| ToStartAuthentication (txn : Z) (buf : bytes)
| ToAbandonAuthentication (txn : Z) (buf : bytes)
| ToInitAuthenticationRequest (txn : Z) (buf : bytes)
| ToAcquireZprAddressRequest (txn : Z) (buf : bytes)
| ToGrantZprAddressRequest (txn : Z) (buf : bytes)
| ToReport (buf : bytes)
| ToDiscard
| ToEchoRequest
| ToTerminate (buf : bytes)
| ToHelloRequest (buf : bytes)
| ToHelloResponse (buf : bytes).

(** The transaction header, for the message types that have one. *)
Definition with_txn (buf : bytes) (k : Z → bytes → Routed) : outcome (decoded Routed) :=
  Ret (match read_from_prefix zdpTransactionHeader buf with
       | None => inl BadStructure
       | Some (h, buf) => inr (k (transaction_id h) buf)
       end).

Definition handle_packet (buf : bytes) : outcome (decoded Routed) :=
  match read_from_prefix zdpBaseHeader buf with
  | None => Ret (inl BadStructure)
  | Some (base, buf) =>
      match read_from_prefix zdpMgmtHeader buf with
      | None => Ret (inl BadStructure)
      | Some (_, buf) =>
          let ty := base_packet_type base in
          let has n := ty =? packet_type n in
          if is_per_flow ty then
            match read_from_prefix zdpPerFlowHeader buf with
            | None => Ret (inl BadStructure)
            | Some (h, buf) =>
                let sid := stream_id h in
                if has TransitPacket then Panic
                else if has BindActorAddressRequest then with_txn buf ToBindActorAddressRequest
                else if has BindActorAddressResponse then with_txn buf (λ t, ToBindActorAddressResponse t sid)
                else if has StreamIdRequest then with_txn buf ToStreamIdRequest
                else if has StreamIdResponse then with_txn buf (λ t, ToStreamIdResponse t sid)
                else if has BindEgressStreamRequest then with_txn buf ToBindEgressStreamRequest
                else if has BindEgressStreamResponse then with_txn buf (λ t, ToBindEgressStreamResponse t sid)
                else if has UnbindEgressStreamIndication then Ret (inr (ToUnbindIndication sid))
                else Ret (inl (UnknownType ty))
            end
          else if has StartAuthentication then with_txn buf ToStartAuthentication
          else if has AbandonAuthenticationAttempt then with_txn buf ToAbandonAuthentication
          else if has InitAuthenticationRequest then with_txn buf ToInitAuthenticationRequest
          else if has AcquireZprAddress then with_txn buf ToAcquireZprAddressRequest
          else if has GrantZprAddress then with_txn buf ToGrantZprAddressRequest
          else if has Report then Ret (inr (ToReport buf))
          else if has Discard then Ret (inr ToDiscard)
          else if has Echo then Ret (inr ToEchoRequest)
          else if has KeyManagement then Panic
          else if has TerminateLinkOrDockingSession then Ret (inr (ToTerminate buf))
          else if has HelloRequest then Ret (inr (ToHelloRequest buf))
          else if has HelloResponse then Ret (inr (ToHelloResponse buf))
          else Ret (inl (UnknownType ty))
      end
  end.

(** *** Reports *)

(** The text that is logged.  [read_from_buf] has already advanced over the
    header when [advance] does it again. *)
Definition handle_report (buf : bytes) : outcome (decoded (option bytes)) :=
  match read_from_prefix zdpReportHeader buf with
  | None => Ret (inl BadStructure)
  | Some (hdr, buf) =>
      r ← copy_to_bytes (Z.of_nat (size_of zdpReportHeader)) buf;
      let n := report_data_length hdr in
      if n <=? zlen r.2 then
        let text := take (Z.to_nat n) r.2 in
        if is_str text then Ret (inr (Some text)) else Panic
      else Ret (inr None)
  end.

(** *** Authentication *)

Definition valid_auth_status (st : AuthenticationStatus) : bool :=
  (st =? authentication_status AuthSuccess) || (st =? authentication_status AuthRejected) || (st =? authentication_status AuthRetryable).

(** The values of a type that must all be socket addresses. *)
Fixpoint socket_addrs (vs : list Value) : option (list SocketAddr) :=
  match vs with
  | [] => Some []
  | TSocketAddr a :: vs => cons a <$> socket_addrs vs
  | _ => None
  end.

Record Offer : Type := mk_auth_offer {
  auth_offer_status : AuthenticationStatus;
  auth_offer_challenge : option ZdpInitAuthenticationPayload;
  auth_offer_asa : list SocketAddr
}.

Definition handle_init_authentication_request (buf : bytes) : outcome (decoded Offer) :=
  match read_from_prefix zdpInitAuthenticationRequestHeader buf with
  | None => Ret (inl BadStructure)
  | Some (hdr, buf) =>
      let success := auth_status hdr =? authentication_status AuthSuccess in
      if negb (valid_auth_status (auth_status hdr)) || negb (Z.land (auth_flags hdr) (Z.lxor BOOTSTRAP_SUPPORT 0xff) =? 0)
         || (negb success && (negb (auth_flags hdr =? 0) || negb (auth_data_len hdr =? 0)))
      then Ret (inl BadStructure)
      else
        let challenge :=
          if negb (Z.land (auth_flags hdr) BOOTSTRAP_SUPPORT =? 0) then
            if negb (auth_data_len hdr =? Z.of_nat (size_of zdpInitAuthenticationPayload)) then None
            else '(payload, buf) ← read_from_prefix zdpInitAuthenticationPayload buf; Some (Some payload, buf)
          else if negb (auth_data_len hdr =? 0) then None
          else Some (None, buf) in
        match challenge with
        | None => Ret (inl BadStructure)
        | Some (challenge, buf) =>
            r ← parse_from_buf buf;
            Ret (match r with
                 | inl _ => inl BadStructure
                 | inr tlvs =>
                     match socket_addrs (default [] (tlvs !! ASA)) with
                     | None => inl BadStructure
                     | Some asa => inr (mk_auth_offer (auth_status hdr) challenge asa)
                     end
                 end)
        end
  end.

(** [handle_start_authentication] and [handle_abandon_authentication] want nothing more. *)
Definition no_more (buf : bytes) : decoded unit := if bool_decide (buf = []) then inr tt else inl BadStructure.

(** The loop over [addr_count] addresses of the given version. *)
Fixpoint read_addresses (version : Z) (count : nat) (buf : bytes) : option (list IpAddress * bytes) :=
  match count with
  | O => Some ([], buf)
  | S count =>
      '(a, buf) ← (if version =? L3_Ipv4 then '(l, buf) ← read_from_prefix (byte_array 4) buf; Some (from_array4 l, buf)
                   else if version =? L3_Ipv6 then '(l, buf) ← read_from_prefix (byte_array 16) buf; Some (from_v6 l, buf)
                   else None);
      '(addrs, buf) ← read_addresses version count buf;
      Some (a :: addrs, buf)
  end.

Definition address_bytes (version : Z) : option Z :=
  if version =? L3_Ipv4 then Some 4 else if version =? L3_Ipv6 then Some 16 else None.

Definition parse_acquire_zpr_address_request (buf : bytes) : outcome (decoded (option (list IpAddress) * bytes)) :=
  match read_from_prefix (zdpAcquireZprAddressHeader l3Type) buf with
  | None => Ret (inl BadStructure)
  | Some (hdr, buf) =>
      let version := acq_ip_version hdr in
      if (1 <? acq_addr_count hdr) || negb (bool_decide (is_Some (address_bytes version))) then Ret (inl BadStructure)
      else if blob_len hdr =? 0 then Ret (inl BadStructure)
      else if zlen buf <? blob_len hdr then Ret (inl BadStructure)
      else
        r ← copy_to_bytes (blob_len hdr) buf;
        let '(blob, buf) := r in
        if negb (is_str blob) then Ret (inl BadStructure)
        else if 0 <? acq_addr_count hdr then
          match address_bytes version with
          | None => Ret (inl BadStructure)
          | Some n =>
              if zlen buf <? n * acq_addr_count hdr then Ret (inl BadStructure)
              else
                Ret (match read_addresses version (Z.to_nat (acq_addr_count hdr)) buf with
                     | Some (addrs, []) => inr (Some addrs, blob)
                     | _ => inl BadStructure
                     end)
          end
        else Ret (match buf with [] => inr (None, blob) | _ => inl BadStructure end)
  end.

(** A status with no addresses, or addresses with a success. *)
Definition parse_grant_zpr_address_request (buf : bytes) : decoded (AuthenticationStatus * list IpAddress) :=
  match read_from_prefix (zdpGrantZprAddressHeader l3Type) buf with
  | None => inl BadStructure
  | Some (hdr, buf) =>
      if negb (valid_auth_status (grant_status_code hdr)) then inl BadStructure
      else if negb (grant_status_code hdr =? authentication_status AuthSuccess) then
        if negb (grant_addr_count hdr =? 0) || negb (bool_decide (buf = [])) then inl BadStructure
        else inr (grant_status_code hdr, [])
      else if negb (grant_addr_count hdr =? 1) then inl BadStructure
      else
        match address_bytes (grant_ip_version hdr) with
        | None => inl BadStructure
        | Some n =>
            if zlen buf <? n * grant_addr_count hdr then inl BadStructure
            else
              match read_addresses (grant_ip_version hdr) (Z.to_nat (grant_addr_count hdr)) buf with
              | Some (addrs, []) => inr (authentication_status AuthSuccess, addrs)
              | _ => inl BadStructure
              end
        end
  end.

Definition handle_terminate_link_or_docking_session (buf : bytes) : decoded TerminateReason :=
  match read_from_prefix zdpTerminateLinkOrDockingSessionHeader buf with
  | None => inl BadStructure
  | Some (hdr, _) => inr (reason_code hdr)
  end.

(** *** Hello *)

Abbreviation TlvMap := (gmap Z (list Value)) (only parsing).

Definition has_actor_auth_protocol (data : TlvMap) : bool :=
  match data !! ACTOR_AUTH_PROTOCOL with Some [TU16 v] => v =? ACTOR_AUTH_PROTOCOL_VERSION | _ => false end.

(** What a hello does: [adjust_window_size] of the peer, its public key, the
    [send_hello_error_response] to one with another protocol, and the log of the
    peer's version and policy. *)
Inductive HelloEffect : Type :=
| ApplyWindow (n : Z) | ApplyKey (k : PublicKey) | ReplyError (status : ResponseCode) | LogVersion (v : Value) | LogPolicyId (v : Value).

Fixpoint process_window_size_tlv (vs : list Value) : list HelloEffect * bool :=
  match vs with
  | [] => ([], true)
  | TU16 n :: vs => let '(es, ok) := process_window_size_tlv vs in (if n <? 1 then es else ApplyWindow n :: es, ok)
  | _ => ([], false)
  end.

Fixpoint process_a2a_dh_pubkey_tlv (vs : list Value) : list HelloEffect * bool :=
  match vs with
  | [] => ([], true)
  | TX25519PubKey k :: vs => let '(es, ok) := process_a2a_dh_pubkey_tlv vs in (ApplyKey k :: es, ok)
  | _ => ([], false)
  end.

(** The loops go over a hash map: [order] is the order of its keys. *)
Fixpoint hello_request_loop (m : TlvMap) (order : list Z) : list HelloEffect * bool :=
  match order with
  | [] => ([], true)
  | t :: order =>
      let vs := default [] (m !! t) in
      let '(es, ok) := if t =? WINDOW_SIZE then process_window_size_tlv vs
                       else if t =? A2A_DH_PUBKEY then process_a2a_dh_pubkey_tlv vs
                       else ([], true) in
      if negb ok then (es, false) else let '(es', ok) := hello_request_loop m order in (es ++ es', ok)
  end.

(** The effects on the peer, and then the event or the error. *)
Definition handle_hello_request (node_mode : bool) (hash_order : TlvMap → list Z) (buf : bytes) : outcome (list HelloEffect * decoded unit) :=
  if negb node_mode then Ret ([], inl MessageNotPermitted)
  else
    r ← parse_from_buf buf;
    Ret (match r with
         | inl _ => ([], inl BadStructure)
         | inr m =>
             if negb (has_actor_auth_protocol m) then ([ReplyError (response_code UnsupportedProtocol)], inl MessageNotPermitted)
             else let '(es, ok) := hello_request_loop m (hash_order m) in (es, if ok then inr tt else inl BadStructure)
         end).

Record HelloState : Type := mk_hello { hs_effects : list HelloEffect; hs_asa : list SocketAddr; hs_aaa : option IpAddress }.

(** The addresses of type [AAA]: at most one over the whole message. *)
Fixpoint aaa_loop (aaa : option IpAddress) (vs : list Value) : option (option IpAddress) :=
  match vs with
  | [] => Some aaa
  | v :: vs =>
      match aaa, v with
      | None, TIpv4Addr l => aaa_loop (Some (new_from_v4 l)) vs
      | None, TIpv6Addr l => aaa_loop (Some (from_v6 l)) vs
      | _, _ => None
      end
  end.

(** One type; [tlv_value[0]] of the version and the policy is logged. *)
Definition hello_response_entry (st : HelloState) (t : Z) (vs : list Value) : outcome (HelloState * bool) :=
  if t =? VERSION then
    match vs with [] => Panic | v :: _ => Ret (mk_hello (hs_effects st ++ [LogVersion v]) (hs_asa st) (hs_aaa st), true) end
  else if t =? POLICY_ID then
    match vs with [] => Panic | v :: _ => Ret (mk_hello (hs_effects st ++ [LogPolicyId v]) (hs_asa st) (hs_aaa st), true) end
  else if t =? WINDOW_SIZE then
    let '(es, ok) := process_window_size_tlv vs in Ret (mk_hello (hs_effects st ++ es) (hs_asa st) (hs_aaa st), ok)
  else if t =? ASA then
    Ret (match socket_addrs vs with
         | Some l => (mk_hello (hs_effects st) (hs_asa st ++ l) (hs_aaa st), true)
         | None => (st, false)
         end)
  else if t =? AAA then
    Ret (match aaa_loop (hs_aaa st) vs with
         | Some aaa => (mk_hello (hs_effects st) (hs_asa st) aaa, true)
         | None => (st, false)
         end)
  else Ret (st, true).

Fixpoint hello_response_loop (m : TlvMap) (order : list Z) (st : HelloState) : outcome (HelloState * bool) :=
  match order with
  | [] => Ret (st, true)
  | t :: order =>
      r ← hello_response_entry st t (default [] (m !! t));
      let '(st, ok) := r in
      if negb ok then Ret (st, false) else hello_response_loop m order st
  end.

(** The fields of [LinkEvent::ReceivedHelloResponse]. *)
Record HelloFields : Type := mk_hello_fields {
  hf_status : ResponseCode;
  hf_aaa : option IpAddress;
  hf_asa : option (list SocketAddr);
  hf_bootstrap : bool
}.

Definition handle_hello_response (hash_order : TlvMap → list Z) (buf : bytes) : outcome (list HelloEffect * decoded HelloFields) :=
  match read_from_prefix zdpHelloResponseHeader buf with
  | None => Ret ([], inl BadStructure)
  | Some (hdr, buf) =>
      r ← parse_from_buf buf;
      match r with
      | inl _ => Ret ([], inl BadStructure)
      | inr m =>
          if negb (has_actor_auth_protocol m) then Ret ([], inl MessageNotPermitted)
          else
            match match m !! VS_BOOTSTRAP_LINK with
                  | None => Some false
                  | Some [TU16 v] => if v =? 1 then Some true else None
                  | _ => None
                  end with
            | None => Ret ([], inl BadStructure)
            | Some boot =>
                r ← hello_response_loop m (hash_order m) (mk_hello [] [] None);
                let st := r.1 in
                Ret (hs_effects st,
                     if (r.2 : bool) then inr (mk_hello_fields (hello_status hdr) (hs_aaa st)
                                       (match hs_asa st with [] => None | l => Some l end) boot)
                     else inl BadStructure)
            end
      end
  end.

(** *** Binding *)

(** [handle_bind_actor_address_request], up to the packet it is about; see
    [Node.handle_bind_actor_address_request]. *)
Definition parse_bind_request (buf : bytes) : decoded (Z * bytes) :=
  match read_from_prefix (zdpBindActorAddressRequestHeader l3Type) buf with
  | None => inl BadStructure
  | Some (hdr, buf) =>
      if zlen buf <? endpoint_packet_length hdr then inl BadStructure
      else inr (Zdp.l3_type hdr, take (Z.to_nat (endpoint_packet_length hdr)) buf)
  end.

Definition parse_stream_id_request (buf : bytes) : decoded Z :=
  match read_from_prefix zdpStreamIdRequest buf with
  | None => inl BadStructure
  | Some (req, _) => inr (req_visa_id req)
  end.

(** [handle_bind_egress_stream_request], up to [adapter::bind_egress_stream]. *)
Definition parse_bind_egress_stream_request (buf : bytes) : outcome (decoded (Ip5TupleTc * option PublicKey)) :=
  match read_from_prefix (zdpBindEgressStreamRequestHeader tcst_) buf with
  | None => Ret (inl BadStructure)
  | Some (hdr, buf) =>
      if negb (is_ip5tuple (egress_tcst hdr)) then Ret (inl BadStructure)
      else
        r ← Tc.deserialize buf;
        Ret (match r with
             | None => inl BadStructure
             | Some (tc, buf) =>
                 match parse_peer_key buf with
                 | None => inl BadStructure
                 | Some key => inr (tc, key)
                 end
             end)
  end.

(** *** All of it: what a message makes its receiver do *)

Inductive Decoded : Type :=
| DBindRequest (txn l3 : Z) (packet : bytes)
| DBindResponse (txn sid : Z) (r : BindResponse)
| DStreamRequest (txn visa_id : Z)
| DStreamResponse (txn sid : Z) (refused : option bytes)
| DEgressRequest (txn : Z) (tc : Ip5TupleTc) (key : option PublicKey)
| DEgressResponse (txn sid : Z) (refused : option bytes)
| DUnbind (sid : Z)
| DStartAuthentication (txn : Z)
| DAbandonAuthentication (txn : Z)
| DOffer (txn : Z) (o : Offer)
| DAcquire (txn : Z) (addrs : option (list IpAddress)) (blob : bytes)
| DGrant (txn : Z) (st : AuthenticationStatus) (addrs : list IpAddress)
| DReport (text : option bytes)
| DDiscard
| DEcho
| DTerminate (reason : TerminateReason)
| DHelloRequest (es : list HelloEffect)
| DHelloResponse (es : list HelloEffect) (f : HelloFields).

Definition decoded_map {A B} (f : A → B) (r : decoded A) : decoded B := match r with inl e => inl e | inr a => inr (f a) end.
Definition of_option {A} (o : option A) : decoded A := match o with None => inl BadStructure | Some a => inr a end.

Definition handle_routed (node_mode : bool) (hash_order : TlvMap → list Z) (r : Routed) : outcome (decoded Decoded) :=
  match r with
  | ToBindActorAddressRequest t buf => Ret (decoded_map (λ x, DBindRequest t x.1 x.2) (parse_bind_request buf))
  | ToBindActorAddressResponse t i buf =>
      p ← parse_bind_response tcst_ is_ip5tuple buf; Ret (decoded_map (DBindResponse t i) (of_option p))
  | ToStreamIdRequest t buf => Ret (decoded_map (DStreamRequest t) (parse_stream_id_request buf))
  | ToStreamIdResponse t i buf => Ret (decoded_map (DStreamResponse t i) (of_option (parse_tether_response buf)))
  | ToBindEgressStreamRequest t buf =>
      p ← parse_bind_egress_stream_request buf; Ret (decoded_map (λ x, DEgressRequest t x.1 x.2) p)
  | ToBindEgressStreamResponse t i buf => Ret (decoded_map (DEgressResponse t i) (of_option (parse_tether_response buf)))
  | ToUnbindIndication i => Ret (inr (DUnbind i))
  | ToStartAuthentication t buf => Ret (decoded_map (λ _, DStartAuthentication t) (no_more buf))
  | ToAbandonAuthentication t buf => Ret (decoded_map (λ _, DAbandonAuthentication t) (no_more buf))
  | ToInitAuthenticationRequest t buf => p ← handle_init_authentication_request buf; Ret (decoded_map (DOffer t) p)
  | ToAcquireZprAddressRequest t buf => p ← parse_acquire_zpr_address_request buf; Ret (decoded_map (λ x, DAcquire t x.1 x.2) p)
  | ToGrantZprAddressRequest t buf => Ret (decoded_map (λ x, DGrant t x.1 x.2) (parse_grant_zpr_address_request buf))
  | ToReport buf => p ← handle_report buf; Ret (decoded_map DReport p)
  | ToDiscard => Ret (inr DDiscard)
  | ToEchoRequest => Ret (inr DEcho)
  | ToTerminate buf => Ret (decoded_map DTerminate (handle_terminate_link_or_docking_session buf))
  | ToHelloRequest buf => p ← handle_hello_request node_mode hash_order buf; Ret (decoded_map (λ _, DHelloRequest p.1) p.2)
  | ToHelloResponse buf => p ← handle_hello_response hash_order buf; Ret (decoded_map (DHelloResponse p.1) p.2)
  end.

Definition receive (node_mode : bool) (hash_order : TlvMap → list Z) (buf : bytes) : outcome (decoded Decoded) :=
  r ← handle_packet buf;
  match r with inl e => Ret (inl e) | inr r => handle_routed node_mode hash_order r end.
End messages.
