(* ===== verification/Wire.v ===== *)
(** Management messages are understood: what the builders of [Messages] write, its
    handlers read. *)
From S2P Require Import Prelude Zdp Utf8 Tlv NetDefs IpHeaders PacketBuf Compress Classifier Tc TxnMgr Slab AdapterTables Node Messages.

(** The wire types' encodings can be read back, and the two views of a public
    key are of the same function. *)
Class WireLaws `{ND : NetDefs} `{AK : A2aKeys} {Visa : Type} `{EXT : !TlvExternals PublicKey Visa} `{WT : WireTypes} : Prop := {
  l3Type_laws :: PackedLaws l3Type;
  tcst_laws :: PackedLaws tcst_;
  l3_in_range : in_range l3Type L3_Ipv4 ∧ in_range l3Type L3_Ipv6;
  ip5tuple_ok : in_range tcst_ Ip5Tuple ∧ is_ip5tuple Ip5Tuple = true;
  l3Type_size : size_of l3Type = 1%nat;
  tcst_size : size_of tcst_ = 1%nat;
  key_agrees l : key_from_bytes l = key_from (Visa := Visa) l;
}.

#[local] Arguments be_put : simpl never.
#[local] Arguments be_get : simpl never.

Section wire.
Context {ND : NetDefs} {NL : NetDefsLaws} {AK : A2aKeys} {Visa : Type} {EXT : TlvExternals PublicKey Visa}
  {TL : TlvExternalsLaws PublicKey Visa} {WT : WireTypes} {WL : WireLaws (Visa := Visa)}.
Context (M : Z) (zeroed : PacketMetadata) (HM : 0 <= M <= 1024).
Abbreviation Encoding := (TlvEncoding PublicKey Visa).
Abbreviation Value := (TlvValue PublicKey Visa).
Abbreviation values m t := (default [] (m !! (t : Z))).

(** ** Packets under construction *)

(** Room for the body of a message. *)
Definition capacity : Z := SMALL_PACKET_BUFFER_SIZE - M - DEFAULT_MESSAGE_HEADROOM.

(** A packet with body [b], of which [u] bytes were put in front. *)
Definition built (p : Packet) (b : bytes) (u : Z) : Prop :=
  ∃ md h t, p = of_view M md h b t ∧ zlen h = DEFAULT_MESSAGE_HEADROOM - u ∧ zlen t = capacity - (zlen b - u).

Lemma built_new : ∃ p, new_heap_packet M zeroed = Ret p ∧ built p [] 0.
Proof using HM.
  unfold new_heap_packet, new, new_with_existing_data, SMALL_PACKET_BUFFER_SIZE, DEFAULT_MESSAGE_HEADROOM in *.
  cbn [buf_len]. set (d := replicate _ 0). assert (zlen d = 2048 - M) as Hd by (unfold zlen, d; rewrite length_replicate; lia).
  rewrite Hd. rewrite wrap64_small by (unfold is_u64; lia). unfold assertb.
  rewrite !(proj2 (Z.leb_le _ _)) by lia. eexists. split; [done|].
  exists (mk_metadata (M + 256) 0 (five_tuple zeroed) (ingress_lane_id zeroed) (flags zeroed) 0 (egress_link_id zeroed) 0 (seq_num zeroed)),
    (take 256 d), (drop 256 d). unfold zlen in *. rewrite length_take, length_drop. split; [|clearbody d; split; cbn [length]; unfold capacity, SMALL_PACKET_BUFFER_SIZE, DEFAULT_MESSAGE_HEADROOM; lia].
  unfold of_view, move_extent. cbn [app]. rewrite take_drop. f_equal. unfold set_extent, zlen. cbn [length]. f_equal.
  rewrite length_take. lia.
Qed.

Lemma built_put p b u l :
  built p b u → zlen b - u + zlen l <= capacity → ∃ p', put M p l = Ret p' ∧ built p' (b ++ l) u.
Proof.
  intros (md & h & t & -> & Hh & Ht) Hl. rewrite put_view, (proj2 (Z.leb_le _ _)) by lia. eexists. split; [done|].
  eexists md, h, _. split; [done|]. split; [done|]. rewrite zlen_app. unfold zlen in *. rewrite length_drop. lia.
Qed.

Lemma built_front {A} (c : packed A) `{!PackedLaws c} (x : A) p b u :
  built p b u → in_range c x → u + Z.of_nat (size_of c) <= DEFAULT_MESSAGE_HEADROOM →
  ∃ p', front M c x p = Ret p' ∧ built p' (as_bytes c x ++ b) (u + Z.of_nat (size_of c)).
Proof.
  intros (md & h & t & -> & Hh & Ht) Hx Hu. assert (zlen (as_bytes c x) = Z.of_nat (size_of c)) as Hl.
  { unfold zlen. by rewrite packed_length. }
  destruct (headroom_split h (zlen (as_bytes c x))) as (h1 & h2 & -> & Hh2); [lia|]. unfold front.
  rewrite alloc_header_view by done. eexists. split; [done|]. eexists md, h1, t. split; [done|].
  rewrite zlen_app in Hh |- *. lia.
Qed.

Lemma built_push {A} (c : packed A) `{!PackedLaws c} (x : A) p b u :
  built p b u → in_range c x → u + Z.of_nat (size_of c) <= DEFAULT_MESSAGE_HEADROOM →
  ∃ p', push_header M p (as_bytes c x) = Ret p' ∧ built p' (as_bytes c x ++ b) (u + Z.of_nat (size_of c)).
Proof.
  intros (md & h & t & -> & Hh & Ht) Hx Hu. assert (zlen (as_bytes c x) = Z.of_nat (size_of c)) as Hl.
  { unfold zlen. by rewrite packed_length. }
  destruct (headroom_split h (zlen (as_bytes c x))) as (h1 & h2 & -> & Hh2); [lia|].
  rewrite push_view by done. eexists. split; [done|]. eexists md, h1, t. split; [done|].
  rewrite zlen_app in Hh |- *. lia.
Qed.

Lemma built_back {A} (c : packed A) `{!PackedLaws c} (x : A) p b u :
  built p b u → in_range c x → zlen b - u + Z.of_nat (size_of c) <= capacity →
  ∃ p', back M c x p = Ret p' ∧ built p' (b ++ as_bytes c x) u.
Proof. intros Hp Hx Hc. apply built_put; [done|]. unfold zlen at 2. by rewrite packed_length. Qed.

(** ** The headers of a message *)

Definition headers (ty : Z) (seq : Z) (sid txn : option Z) : bytes :=
  as_bytes zdpBaseHeader (mk_ZdpBaseHeader ty 0) ++ as_bytes zdpMgmtHeader (mk_ZdpMgmtHeader seq) ++
  match sid with Some i => as_bytes zdpPerFlowHeader (mk_ZdpPerFlowHeader i) | None => [] end ++
  match txn with Some t => as_bytes zdpTransactionHeader (mk_ZdpTransactionHeader t) | None => [] end.

(** A packet that carries the body [b] of a message. *)
Definition message (p : Packet) (n : ZdpPacketTypeName) (sid txn : option Z) (b : bytes) : Prop :=
  ∀ seq, body M (fill_sequence_number M seq p) = headers (packet_type n) seq sid txn ++ b.

Lemma send_helper n sid txn p b u :
  built p b u → u <= 128 → n ≠ KeyManagement → bool_decide (is_Some sid) = is_per_flow (packet_type n) →
  (∀ i, sid = Some i → is_u32 i) → (∀ t, txn = Some t → is_u16 t) →
  ∃ p', send_mgmt_helper M (packet_type n) sid txn p = Ret p' ∧ message p' n sid txn b.
Proof.
  intros Hp Hu Hkm Hflow Hsid Htxn. unfold send_mgmt_helper. rewrite Hflow, eqb_reflx. unfold DEFAULT_MESSAGE_HEADROOM in *.
  assert ((packet_type n =? packet_type KeyManagement) = false) as -> by (by destruct n). simpl.
  set (tb := match txn with Some t => as_bytes zdpTransactionHeader (mk_ZdpTransactionHeader t) | None => [] end).
  set (fb := match sid with Some i => as_bytes zdpPerFlowHeader (mk_ZdpPerFlowHeader i) | None => [] end).
  assert (∃ p1 u1, (match txn with Some t => front M zdpTransactionHeader (mk_ZdpTransactionHeader t) p | None => Ret p end) = Ret p1 ∧
    built p1 (tb ++ b) u1 ∧ u1 <= 130) as (p1 & u1 & -> & H1 & Hu1).
  { destruct txn as [t|]; [|by exists p, u; split; [done|]; split; [done|lia]].
    destruct (built_front zdpTransactionHeader (mk_ZdpTransactionHeader t) p b u Hp) as (p1 & -> & H1); [by apply Htxn|simpl; unfold DEFAULT_MESSAGE_HEADROOM; lia|].
    exists p1, (u + 2). split; [done|]; split; [done|lia]. }
  cbn [mbind outcome_bind].
  assert (∃ p2 u2, (match sid with Some i => front M zdpPerFlowHeader (mk_ZdpPerFlowHeader i) p1 | None => Ret p1 end) = Ret p2 ∧
    built p2 (fb ++ tb ++ b) u2 ∧ u2 <= 134) as (p2 & u2 & -> & H2 & Hu2).
  { destruct sid as [i|]; [|by exists p1, u1; split; [done|]; split; [done|lia]].
    destruct (built_front zdpPerFlowHeader (mk_ZdpPerFlowHeader i) p1 _ u1 H1) as (p2 & -> & H2); [by apply Hsid|simpl; unfold DEFAULT_MESSAGE_HEADROOM; lia|].
    exists p2, (u1 + 4). split; [done|]; split; [done|lia]. }
  cbn [mbind outcome_bind].
  destruct (built_front zdpMgmtHeader (mk_ZdpMgmtHeader 0) p2 _ u2 H2) as (p3 & -> & H3); [simpl; lia|simpl; unfold DEFAULT_MESSAGE_HEADROOM; lia|].
  cbn [mbind outcome_bind].
  destruct (built_front zdpBaseHeader (mk_ZdpBaseHeader (packet_type n) 0) p3 _ _ H3) as (p4 & -> & H4);
    [by destruct n; simpl; lia|simpl; unfold DEFAULT_MESSAGE_HEADROOM; lia|].
  exists p4. split; [done|]. intros seq. destruct H4 as (md & h & t & -> & _ & _). unfold fill_sequence_number.
  rewrite of_view_body, set_body_view, of_view_body.
  - unfold headers. fold fb tb. rewrite <- !app_assoc.
    rewrite take_app_length' by done. f_equal.
  - unfold zlen. rewrite !length_app, length_take, length_drop, !length_app. simpl. lia.
Qed.

(** The handler for each type of message. *)
Definition expected (n : ZdpPacketTypeName) (sid txn : option Z) (b : bytes) : option Routed :=
  match n, sid, txn with
  | BindActorAddressRequest, Some _, Some t => Some (ToBindActorAddressRequest t b)
  | BindActorAddressResponse, Some i, Some t => Some (ToBindActorAddressResponse t i b)
  | StreamIdRequest, Some _, Some t => Some (ToStreamIdRequest t b)
  | StreamIdResponse, Some i, Some t => Some (ToStreamIdResponse t i b)
  | BindEgressStreamRequest, Some _, Some t => Some (ToBindEgressStreamRequest t b)
  | BindEgressStreamResponse, Some i, Some t => Some (ToBindEgressStreamResponse t i b)
  | UnbindEgressStreamIndication, Some i, None => Some (ToUnbindIndication i)
  | StartAuthentication, None, Some t => Some (ToStartAuthentication t b)
  | AbandonAuthenticationAttempt, None, Some t => Some (ToAbandonAuthentication t b)
  | InitAuthenticationRequest, None, Some t => Some (ToInitAuthenticationRequest t b)
  | AcquireZprAddress, None, Some t => Some (ToAcquireZprAddressRequest t b)
  | GrantZprAddress, None, Some t => Some (ToGrantZprAddressRequest t b)
  | Report, None, None => Some (ToReport b)
  | Discard, None, None => Some ToDiscard
  | Echo, None, None => Some ToEchoRequest
  | TerminateLinkOrDockingSession, None, None => Some (ToTerminate b)
  | HelloRequest, None, None => Some (ToHelloRequest b)
  | HelloResponse, None, None => Some (ToHelloResponse b)
  | _, _, _ => None
  end.

Lemma route_message n seq sid txn b r :
  is_u64 seq → (∀ i, sid = Some i → is_u32 i) → (∀ t, txn = Some t → is_u16 t) → expected n sid txn b = Some r →
  handle_packet (headers (packet_type n) seq sid txn ++ b) = Ret (inr r).
Proof.
  intros Hseq Hsid Htxn He. unfold handle_packet, headers. rewrite <- !app_assoc.
  rewrite (read_as_bytes zdpBaseHeader) by (by destruct n; simpl; lia).
  rewrite (read_as_bytes zdpMgmtHeader) by done. cbn [base_packet_type].
  destruct n; try discriminate He; destruct sid as [i|], txn as [x|]; try discriminate He; injection He as <-;
    cbn -[read_from_prefix as_bytes zdpPerFlowHeader zdpTransactionHeader]; unfold with_txn;
    rewrite ?(read_as_bytes zdpPerFlowHeader) by (by apply Hsid);
    rewrite ?(read_as_bytes zdpTransactionHeader) by (by apply Htxn); done.
Qed.

(** ** TLVs *)

Definition tlv_map (es : list Encoding) : gmap Z (list Value) := fold_left (λ m e, push_entry m (tlv_type e) (value e)) es ∅.

Lemma tlv_map_lookup es t :
  tlv_map es !! t = match value <$> filter (λ e, tlv_type e = t) es with [] => None | vs => Some vs end.
Proof.
  pose proof (push_lookup es ∅ t) as Hd. rewrite lookup_empty in Hd. simpl in Hd. fold (tlv_map es) in Hd.
  assert (∀ (es : list Encoding) (m : gmap Z (list Value)), (∀ t, m !! t ≠ Some []) → fold_left (λ m e, push_entry m (tlv_type e) (value e)) es m !! t ≠ Some []) as Hne.
  { clear. intros es. induction es as [|e es IH]; intros m Hm; [apply Hm|]. cbn [fold_left]. apply IH. intros t'.
    unfold push_entry. destruct (decide (tlv_type e = t')) as [<-|]; [rewrite lookup_insert_eq; by destruct (default [] _)|by rewrite lookup_insert_ne]. }
  specialize (Hne es ∅ ltac:(intros t'; by rewrite lookup_empty)). fold (tlv_map es) in Hne.
  destruct (tlv_map es !! t) as [vs|]; simpl in Hd; rewrite <- Hd; [|done]. by destruct vs.
Qed.

Definition tlvs_size (es : list Encoding) : Z := match put_all es with Ret l => zlen l | Panic => 0 end.

Lemma built_tlvs es p b u :
  Forall encoding_ok es → built p b u → zlen b - u + tlvs_size es <= capacity →
  ∃ p' l, put_tlvs M es p = Ret p' ∧ built p' (b ++ l) u ∧ parse_from_buf l = Ret (inr (tlv_map es)).
Proof.
  intros Hes Hp Hc. assert (∃ p' l, put_tlvs M es p = Ret p' ∧ built p' (b ++ l) u ∧ put_all es = Ret l) as (p' & l & E & Hb & Hl).
  { revert p b Hp Hc. induction Hes as [|e es He Hes IH]; intros p b Hp Hc.
    - exists p, []. rewrite app_nil_r. done.
    - destruct (put_field e He) as (l & Hl & _). unfold tlvs_size in Hc. cbn [put_all fold_right] in Hc |- *. fold (put_all es) in Hc |- *.
      destruct (put_all_fields es Hes) as (fs & Hfs & _). rewrite Hl, Hfs in Hc |- *. cbn [mbind outcome_bind] in Hc |- *.
      rewrite zlen_app in Hc. pose proof (zlen_nonneg (fields_bytes fs)).
      destruct (built_put p b u l Hp) as (p1 & E1 & Hb1); [lia|].
      destruct (IH p1 (b ++ l) Hb1) as (p2 & l2 & E2 & Hb2 & Hl2); [unfold tlvs_size; rewrite Hfs, zlen_app; lia|].
      exists p2, (l ++ l2). cbn [put_tlvs]. unfold put_tlv. rewrite Hl. cbn [mbind outcome_bind]. rewrite E1. cbn [mbind outcome_bind].
      rewrite app_assoc. split; [done|]. split; [done|]. rewrite Hl2 in Hfs. by injection Hfs as ->. }
  exists p', l. split; [done|]. split; [done|]. destruct (put_all_fields es Hes) as (fs & Hfs & Hok & Hm). rewrite Hl in Hfs. injection Hfs as ->.
  unfold parse_from_buf. rewrite parse_fields by done. by rewrite Hm.
Qed.

(** ** Requests, and what they mean to their receiver *)

Inductive Request : Type :=
| RDiscard
| REcho
| RHelloRequest (window : option Z) (key : PublicKey)
| RHelloSuccess (version : bytes) (window : option Z) (policy_id : Z) (asa : list SocketAddr) (aaa : option IpAddress) (boot : bool)
| RHelloError (status : ResponseCode)
| RStartAuthentication (txn : Z)
| RAbandonAuthentication (txn : Z)
| RInitAuthentication (txn : Z) (payload : ZdpInitAuthenticationPayload) (asa : list SocketAddr)
| RAcquire (txn : Z) (addrs : list IpAddr) (blob : bytes)
| RGrant (txn : Z) (st : AuthenticationStatus) (addrs : list IpAddr)
| RTerminate (reason : TerminateReason)
| RBindRequest (txn l3 : Z) (packet : bytes)
| RBindSuccess (txn tether_id : Z) (tc : Ip5TupleTc) (key : option PublicKey)
| RBindError (txn : Z) (reason : bytes)
| RStreamRequest (txn visa_id : Z)
| RStreamSuccess (txn tether_id : Z)
| RStreamError (txn : Z) (reason : bytes)
| REgressRequest (txn : Z) (tc : Ip5TupleTc) (key : option PublicKey)
| REgressSuccess (txn tether_id : Z)
| REgressError (txn : Z) (reason : bytes)
| RUnbind (sid : Z)
| RReport (report : bytes).

Definition build (r : Request) : outcome Packet :=
  match r with
  | RDiscard => send_discard M zeroed
  | REcho => send_echo_request M zeroed
  | RHelloRequest w k => send_hello_request (Visa := Visa) M zeroed w k
  | RHelloSuccess v w pid asa aaa boot => send_hello_success_response (Visa := Visa) M zeroed v w pid asa aaa boot
  | RHelloError st => send_hello_error_response (Visa := Visa) M zeroed st
  | RStartAuthentication t => send_start_authentication M zeroed t
  | RAbandonAuthentication t => send_abandon_authentication M zeroed t
  | RInitAuthentication t payload asa =>
      send_init_authentication_request (Visa := Visa) M zeroed t (authentication_status AuthSuccess) BOOTSTRAP_SUPPORT payload asa
  | RAcquire t addrs blob => send_acquire_zpr_address_request M zeroed t addrs (Some blob)
  | RGrant t st addrs => send_grant_zpr_address_request M zeroed t st addrs
  | RTerminate reason => send_terminate_link_or_docking_session M zeroed reason
  | RBindRequest t l3 packet => send_bind_actor_address_request M zeroed t l3 packet
  | RBindSuccess t i tc key => send_bind_actor_address_success_response (Visa := Visa) M zeroed t i tc key
  | RBindError t reason => send_bind_actor_address_error_response M zeroed t reason
  | RStreamRequest t v => send_stream_id_request M zeroed t v
  | RStreamSuccess t i => send_stream_id_success_response M zeroed t i
  | RStreamError t reason => send_stream_id_error_response M zeroed t reason
  | REgressRequest t tc key => send_bind_egress_stream_request (Visa := Visa) M zeroed t tc key
  | REgressSuccess t i => send_bind_egress_stream_success_response M zeroed t i
  | REgressError t reason => send_bind_egress_stream_error_response M zeroed t reason
  | RUnbind i => send_unbind_egress_stream_request M zeroed i
  | RReport report => send_report M zeroed report
  end.

(** [IpAddress::from] *)
Definition from_std (a : IpAddr) : IpAddress := match a with IpV4 l => from_array4 l | IpV6 l => from_v6 l end.

Definition applied_window (w : option Z) : list (HelloEffect (Visa := Visa)) :=
  match w with Some w => if w <? 1 then [] else [ApplyWindow (Z.min w 65535)] | None => [] end.

(** What the receiver does; of a report, nothing is left. *)
Definition meaning (r : Request) (d : Decoded (Visa := Visa)) : Prop :=
  match r with
  | RDiscard => d = DDiscard
  | REcho => d = DEcho
  | RHelloRequest w k => ∃ es, d = DHelloRequest es ∧ es ≡ₚ applied_window w ++ [ApplyKey k]
  | RHelloSuccess v w pid asa aaa boot => ∃ es, es ≡ₚ applied_window w ++ [LogVersion (TStr v)] ++ [LogPolicyId (TI64 pid)] ∧
      d = DHelloResponse es (mk_hello_fields (response_code ResponseSuccess) aaa (match asa with [] => None | _ => Some asa end) boot)
  | RHelloError st => d = DHelloResponse [] (mk_hello_fields st None None false)
  | RStartAuthentication t => d = DStartAuthentication t
  | RAbandonAuthentication t => d = DAbandonAuthentication t
  | RInitAuthentication t payload asa => d = DOffer t (mk_auth_offer (authentication_status AuthSuccess) (Some payload) asa)
  | RAcquire t addrs blob => d = DAcquire t (match addrs with [] => None | _ => Some (from_std <$> addrs) end) blob
  | RGrant t st addrs => d = DGrant t st (from_std <$> addrs)
  | RTerminate reason => d = DTerminate reason
  | RBindRequest t l3 packet => d = DBindRequest t l3 (take (Z.to_nat BIND_REQUEST_MAX_PAYLOAD_LENGTH) packet)
  | RBindSuccess t i tc key => d = DBindResponse t i (BindSuccess tc key)
  | RBindError t reason => d = DBindResponse t 0 (BindOther (take 255 reason))
  | RStreamRequest t v => d = DStreamRequest t v
  | RStreamSuccess t i => d = DStreamResponse t i None
  | RStreamError t reason => d = DStreamResponse t 0 (Some (take 255 reason))
  | REgressRequest t tc key => d = DEgressRequest t tc key
  | REgressSuccess t i => d = DEgressResponse t i None
  | REgressError t reason => d = DEgressResponse t 0 (Some (take 255 reason))
  | RUnbind i => d = DUnbind i
  | RReport _ => d = DReport None
  end.

(** *** Arguments in range, and messages that fit *)

Definition key_ok (k : PublicKey) : Prop := Forall is_u8 (key_as_bytes (Visa := Visa) k).
Definition asa_ok (a : SocketAddr) : Prop := encoding_ok (new_asa a : Encoding).
Definition std_ok (a : IpAddr) : Prop :=
  Forall is_u8 (octets a) ∧ length (octets a) = match a with IpV4 _ => 4%nat | IpV6 _ => 16%nat end.
Definition window_ok (w : option Z) : Prop := match w with Some w => 0 <= w | None => True end.
Definition reason_ok (reason : bytes) : Prop := is_str (take 255 reason) = true.

Definition asa_size (asa : list SocketAddr) : Z := tlvs_size (new_asa <$> asa).

Definition req_ok (r : Request) : Prop :=
  match r with
  | RDiscard | REcho => True
  | RHelloRequest w k => window_ok w ∧ key_ok k
  | RHelloSuccess v w pid asa aaa _ =>
      is_str v = true ∧ zlen v < 256 ∧ Forall is_u8 v ∧ window_ok w ∧ - I64_MOD <= pid < I64_MOD ∧ Forall asa_ok asa ∧
      (∀ a, aaa = Some a → ip_wf a) ∧ 300 + asa_size asa <= capacity
  | RHelloError st => is_u8 st
  | RStartAuthentication t | RAbandonAuthentication t => is_u16 t
  | RInitAuthentication t payload asa =>
      is_u16 t ∧ in_range zdpInitAuthenticationPayload payload ∧ Forall asa_ok asa ∧ 52 + asa_size asa <= capacity
  | RAcquire t addrs blob =>
      is_u16 t ∧ Forall std_ok addrs ∧ is_str blob = true ∧ validate_acquire_zpr_address_request M addrs blob = inr tt
  | RGrant t st addrs =>
      is_u16 t ∧ Forall std_ok addrs ∧
      (st = authentication_status AuthSuccess ∧ length addrs = 1%nat ∨
       (st = authentication_status AuthRejected ∨ st = authentication_status AuthRetryable) ∧ addrs = [])
  | RTerminate reason => is_u8 reason
  | RBindRequest t l3 packet => is_u16 t ∧ in_range l3Type l3
  | RBindSuccess t i tc key => is_u16 t ∧ is_u32 i ∧ tc_wf tc
  | RBindError t reason | RStreamError t reason | REgressError t reason => is_u16 t ∧ reason_ok reason
  | RStreamRequest t v => is_u16 t ∧ is_u64 v
  | RStreamSuccess t i | REgressSuccess t i => is_u16 t ∧ is_u32 i
  | REgressRequest t tc key => is_u16 t ∧ tc_wf tc
  | RUnbind i => is_u32 i
  | RReport report => 2 <= zlen report <= capacity
  end.

(** [r] is built into a message of the given type with body [b]. *)
Definition builds (r : Request) (n : ZdpPacketTypeName) (sid txn : option Z) (b : bytes) : Prop :=
  ∃ p, build r = Ret p ∧ message p n sid txn b.

Lemma capacity_ge : 768 <= capacity.
Proof using HM. unfold capacity, SMALL_PACKET_BUFFER_SIZE, DEFAULT_MESSAGE_HEADROOM. lia. Qed.

Context (hash_order : gmap Z (list Value) → list Z) (Hord : ∀ m, hash_order m ≡ₚ (map_to_list m).*1).

(** A node or adapter that gets the message of [r] does what [r] means. *)
Definition understood (r : Request) : Prop :=
  ∀ seq, is_u64 seq → ∃ p d, build r = Ret p ∧ receive true hash_order (body M (fill_sequence_number M seq p)) = Ret (inr d) ∧ meaning r d.

Lemma understood_of r n sid txn b rt d :
  builds r n sid txn b → (∀ i, sid = Some i → is_u32 i) → (∀ t, txn = Some t → is_u16 t) → expected n sid txn b = Some rt →
  handle_routed true hash_order rt = Ret (inr d) → meaning r d → understood r.
Proof.
  intros (p & E & Hm) Hsid Htxn He Hh Hd seq Hseq. exists p, d. split; [done|]. split; [|done]. unfold receive.
  rewrite Hm, (route_message n seq sid txn b rt) by done. done.
Qed.

(** One step of a builder. *)
Ltac fits := pose proof capacity_ge; unfold zlen, DEFAULT_MESSAGE_HEADROOM in *; rewrite ?length_app, ?be_put_length in *;
  simpl; autorewrite with zlen; lia.
Ltac range := repeat match goal with H : is_u8 _ |- _ => unfold is_u8 in H | H : is_u16 _ |- _ => unfold is_u16 in H
  | H : is_u32 _ |- _ => unfold is_u32 in H | H : is_u64 _ |- _ => unfold is_u64 in H end; simpl; try done; repeat split; try done; try lia.
Ltac start := destruct built_new as (?p & ?E & ?Hp); unfold builds, build.
Ltac do_front c x := match goal with H : built ?p _ _ |- _ =>
  destruct (built_front c x p _ _ H) as (?p & ?E & ?Hp); [range|fits|clear H] end.
Ltac do_back c x := match goal with H : built ?p _ _ |- _ =>
  destruct (built_back c x p _ _ H) as (?p & ?E & ?Hp); [range|fits|clear H] end.
Ltac do_put l := match goal with H : built ?p _ _ |- _ =>
  destruct (built_put p _ _ l H) as (?p & ?E & ?Hp); [fits|clear H] end.
Ltac finish n sid txn := match goal with H : built ?p _ _ |- _ =>
  destruct (send_helper n sid txn p _ _ H) as (?p & ?E & ?Hm);
  [first [done|simpl; lia]|done|done|first [done|intros ? [= <-]; done]|first [done|intros ? [= <-]; done]|] end;
  repeat match goal with E : _ = Ret _ |- _ => rewrite E; cbn [mbind outcome_bind]; clear E end;
  eexists; split; [done|]; first [eassumption|rewrite ?app_nil_r in *; eassumption].

Lemma builds_discard : builds RDiscard Discard None None [].
Proof using HM. start. unfold send_discard, send_non_flow_mgmt. finish Discard (@None Z) (@None Z). Qed.

Lemma builds_echo : builds REcho Echo None None (as_bytes zdpEchoHeader (mk_ZdpEchoHeader 0)).
Proof using HM.
  start. do_front zdpEchoHeader (mk_ZdpEchoHeader 0). unfold send_echo_request, send_non_flow_mgmt. finish Echo (@None Z) (@None Z).
Qed.

Lemma understood_plain : understood RDiscard ∧ understood REcho ∧ (∀ t, is_u16 t → understood (RStartAuthentication t)) ∧
  (∀ t, is_u16 t → understood (RAbandonAuthentication t)) ∧ (∀ i, is_u32 i → understood (RUnbind i)).
Proof using HM.
  split_and!.
  - by eapply understood_of; [apply builds_discard|done..].
  - by eapply understood_of; [apply builds_echo|done..].
  - intros t Ht. eapply (understood_of _ StartAuthentication None (Some t) []); [|done|by intros ? [= <-]|done..].
    start. unfold send_start_authentication, send_non_flow_txn_mgmt. finish StartAuthentication (@None Z) (Some t).
  - intros t Ht. eapply (understood_of _ AbandonAuthenticationAttempt None (Some t) []); [|done|by intros ? [= <-]|done..].
    start. unfold send_abandon_authentication, send_non_flow_txn_mgmt. finish AbandonAuthenticationAttempt (@None Z) (Some t).
  - intros i Hi. eapply (understood_of _ UnbindEgressStreamIndication (Some i) None []); [|by intros ? [= <-]|done..].
    start. unfold send_unbind_egress_stream_request, send_per_flow_mgmt. finish UnbindEgressStreamIndication (Some i) (@None Z).
Qed.

Lemma understood_terminate reason : is_u8 reason → understood (RTerminate reason).
Proof using HM.
  intros Hr. set (h := mk_ZdpTerminateLinkOrDockingSessionHeader reason 0).
  eapply (understood_of _ TerminateLinkOrDockingSession None None (as_bytes zdpTerminateLinkOrDockingSessionHeader h)); [|done|done|done| |done].
  - start. destruct (built_push zdpTerminateLinkOrDockingSessionHeader h _ _ _ Hp) as (p1 & E1 & Hp1); [range|fits|]. clear Hp.
    unfold send_terminate_link_or_docking_session, send_non_flow_mgmt. fold h. finish TerminateLinkOrDockingSession (@None Z) (@None Z).
  - cbn [handle_routed]. unfold handle_terminate_link_or_docking_session. rewrite <- (app_nil_r (as_bytes _ h)).
    by rewrite (read_as_bytes zdpTerminateLinkOrDockingSessionHeader) by range.
Qed.

Lemma understood_stream_request t v : is_u16 t → is_u64 v → understood (RStreamRequest t v).
Proof using HM.
  intros Ht Hv. set (h := mk_ZdpStreamIdRequest v).
  eapply (understood_of _ StreamIdRequest (Some 0) (Some t) (as_bytes zdpStreamIdRequest h));
    [|by intros ? [= <-]|by intros ? [= <-]|done| |done].
  - start. do_front zdpStreamIdRequest h. unfold send_stream_id_request, send_per_flow_txn_mgmt. fold h.
    finish StreamIdRequest (Some 0) (Some t).
  - cbn [handle_routed]. unfold parse_stream_id_request. rewrite <- (app_nil_r (as_bytes _ h)).
    by rewrite (read_as_bytes zdpStreamIdRequest) by range.
Qed.

(** The two answers of a next hop. *)
Lemma tether_success : parse_tether_response (as_bytes zdpBindActorAddressResponseHeader (mk_ZdpBindActorAddressResponseHeader 0 0)) = Some None.
Proof. done. Qed.

Lemma understood_successes t i : is_u16 t → is_u32 i → understood (RStreamSuccess t i) ∧ understood (REgressSuccess t i).
Proof using HM.
  intros Ht Hi. split.
  - eapply (understood_of _ StreamIdResponse (Some i) (Some t) [0; 0]); [|by intros ? [= <-]|by intros ? [= <-]|done|done|done].
    start. do_back zdpStreamIdResponseHeader (mk_ZdpStreamIdResponseHeader 0 0).
    unfold send_stream_id_success_response, send_per_flow_txn_mgmt. simpl response_code. finish StreamIdResponse (Some i) (Some t).
  - eapply (understood_of _ BindEgressStreamResponse (Some i) (Some t) [0; 0]); [|by intros ? [= <-]|by intros ? [= <-]|done|done|done].
    start. do_back zdpBindEgressStreamResponseHeader (mk_ZdpBindEgressStreamResponseHeader 0 0).
    unfold send_bind_egress_stream_success_response, send_per_flow_txn_mgmt. simpl response_code. finish BindEgressStreamResponse (Some i) (Some t).
Qed.

(** *** Refusals *)

Lemma take_cut (reason : bytes) : take (Z.to_nat (Z.min (zlen reason) 255)) reason = take 255 reason.
Proof.
  unfold zlen. destruct (decide (length reason <= 255)%nat) as [Hle|Hgt].
  - rewrite (take_ge reason 255) by done. apply take_ge. lia.
  - f_equal. lia.
Qed.

Lemma put_reason_ok reason :
  reason_ok reason → put_reason reason = Ret (zlen (take 255 reason), take 255 reason) ∧ 0 <= zlen (take 255 reason) <= 255.
Proof.
  unfold reason_ok, put_reason. rewrite take_cut. intros ->. unfold zlen. rewrite length_take. split; [|lia].
  do 2 f_equal. unfold wrap8. rewrite Z.mod_small; lia.
Qed.

Lemma tether_refused n msg :
  zlen msg = n → 0 <= n <= 255 → is_str msg = true →
  parse_tether_response (as_bytes zdpBindActorAddressResponseHeader (mk_ZdpBindActorAddressResponseHeader (response_code ResponseOther) n) ++ msg)
  = Some (Some msg).
Proof.
  intros Hn Hr Hs. unfold parse_tether_response. rewrite (read_as_bytes zdpBindActorAddressResponseHeader) by range.
  cbn [mbind option_bind bind_status_code bind_info_len]. simpl (_ =? _). cbv iota. rewrite Hn, Z.ltb_irrefl. cbn zeta.
  rewrite <- Hn. unfold zlen. rewrite Nat2Z.id, firstn_all. by rewrite Hs.
Qed.

Lemma understood_refusals t reason :
  is_u16 t → reason_ok reason → understood (RBindError t reason) ∧ understood (RStreamError t reason) ∧ understood (REgressError t reason).
Proof using HM.
  intros Ht Hr. destruct (put_reason_ok reason Hr) as [Er Hn]. set (msg := take 255 reason) in *.
  assert (is_str msg = true) as Hs by exact Hr. split_and!.
  - set (h := mk_ZdpBindActorAddressResponseHeader (response_code ResponseOther) (zlen msg)).
    eapply (understood_of _ BindActorAddressResponse (Some 0) (Some t) (as_bytes zdpBindActorAddressResponseHeader h ++ msg));
      [|by intros ? [= <-]|by intros ? [= <-]|done| |done].
    + start. do_back zdpBindActorAddressResponseHeader h. do_put msg.
      unfold send_bind_actor_address_error_response, send_per_flow_txn_mgmt. rewrite Er. cbn [mbind outcome_bind fst snd]. fold h.
      finish BindActorAddressResponse (Some 0) (Some t).
    + cbn [handle_routed]. unfold parse_bind_response. rewrite (read_as_bytes zdpBindActorAddressResponseHeader) by range.
      cbn [bind_status_code bind_info_len h]. simpl (_ =? _). cbv iota. rewrite Z.ltb_irrefl. unfold zlen. rewrite Nat2Z.id, firstn_all.
      by rewrite Hs.
  - set (h := mk_ZdpStreamIdResponseHeader (response_code ResponseOther) (zlen msg)).
    eapply (understood_of _ StreamIdResponse (Some 0) (Some t) (as_bytes zdpStreamIdResponseHeader h ++ msg));
      [|by intros ? [= <-]|by intros ? [= <-]|done| |done].
    + start. do_back zdpStreamIdResponseHeader h. do_put msg.
      unfold send_stream_id_error_response, send_per_flow_txn_mgmt. rewrite Er. cbn [mbind outcome_bind fst snd]. fold h. finish StreamIdResponse (Some 0) (Some t).
    + cbn [handle_routed]. change (as_bytes _ h) with
        (as_bytes zdpBindActorAddressResponseHeader (mk_ZdpBindActorAddressResponseHeader (response_code ResponseOther) (zlen msg))).
      by rewrite (tether_refused (zlen msg) msg).
  - set (h := mk_ZdpBindEgressStreamResponseHeader (response_code ResponseOther) (zlen msg)).
    eapply (understood_of _ BindEgressStreamResponse (Some 0) (Some t) (as_bytes zdpBindEgressStreamResponseHeader h ++ msg));
      [|by intros ? [= <-]|by intros ? [= <-]|done| |done].
    + start. do_back zdpBindEgressStreamResponseHeader h. do_put msg.
      unfold send_bind_egress_stream_error_response, send_per_flow_txn_mgmt. rewrite Er. cbn [mbind outcome_bind fst snd]. fold h.
      finish BindEgressStreamResponse (Some 0) (Some t).
    + cbn [handle_routed]. change (as_bytes _ h) with
        (as_bytes zdpBindActorAddressResponseHeader (mk_ZdpBindActorAddressResponseHeader (response_code ResponseOther) (zlen msg))).
      by rewrite (tether_refused (zlen msg) msg).
Qed.

(** *** Binding *)

Lemma understood_bind_request t l3 packet : is_u16 t → in_range l3Type l3 → understood (RBindRequest t l3 packet).
Proof using HM WL.
  intros Ht Hl3. set (n := Z.min BIND_REQUEST_MAX_PAYLOAD_LENGTH (zlen packet)). set (b := take (Z.to_nat n) packet).
  assert (0 <= n <= 256) as Hn by (unfold n, BIND_REQUEST_MAX_PAYLOAD_LENGTH; pose proof (zlen_nonneg packet); lia).
  assert (zlen b = n) as Hb by (unfold b; rewrite zlen_take; [done|unfold n; lia]).
  assert (wrap16 n = n) as Hw by (unfold wrap16; rewrite Z.mod_small; lia).
  set (h := mk_ZdpBindActorAddressRequestHeader l3 n).
  assert (in_range (zdpBindActorAddressRequestHeader l3Type) h) as Hh by (split; [done|simpl; lia]).
  assert (size_of (zdpBindActorAddressRequestHeader l3Type) = 3%nat) as Hsz by (simpl; by rewrite l3Type_size).
  eapply (understood_of _ BindActorAddressRequest (Some 0) (Some t) (as_bytes (zdpBindActorAddressRequestHeader l3Type) h ++ b));
    [|by intros ? [= <-]|by intros ? [= <-]|done| |].
  - start. destruct (built_front (zdpBindActorAddressRequestHeader l3Type) h _ _ _ Hp Hh) as (p1 & E1 & Hp1); [rewrite Hsz; fits|]. clear Hp.
    destruct (built_put p1 _ _ b Hp1) as (p2 & E2 & Hp2).
    { pose proof capacity_ge. rewrite app_nil_r. unfold zlen at 1. rewrite packed_length, Hb by done. lia. }
    rewrite app_nil_r in Hp2. clear Hp1. rewrite Hsz in Hp2.
    unfold send_bind_actor_address_request, send_per_flow_txn_mgmt. cbn zeta. fold n. rewrite Hw. fold h b.
    finish BindActorAddressRequest (Some 0) (Some t).
  - cbn [handle_routed]. unfold parse_bind_request. rewrite (read_as_bytes (zdpBindActorAddressRequestHeader l3Type)) by done.
    cbn [endpoint_packet_length Zdp.l3_type h]. rewrite Hb, Z.ltb_irrefl. done.
  - cbn [meaning decoded_map fst snd]. f_equal. unfold b at 1. rewrite take_take. rewrite Nat.min_id.
    unfold n, BIND_REQUEST_MAX_PAYLOAD_LENGTH, zlen. destruct (decide (length packet <= 256)%nat).
    + by rewrite !take_ge by lia.
    + f_equal. lia.
Qed.

Definition key_field (key : option PublicKey) : bytes :=
  match key with Some k => be_put 2 32 ++ key_as_bytes (Visa := Visa) k | None => be_put 2 0 end.

Lemma built_key key p b u :
  built p b u → zlen b - u + 34 <= capacity → ∃ p', put_peer_key (Visa := Visa) M key p = Ret p' ∧ built p' (b ++ key_field key) u.
Proof using TL.
  intros Hp Hc. destruct key as [k|]; cbn [put_peer_key key_field].
  - unfold zlen at 1. rewrite key_length. change (wrap16 (Z.of_nat 32)) with 32.
    destruct (built_put p b u (be_put 2 32) Hp) as (p1 & -> & Hp1); [unfold zlen in *; rewrite be_put_length; lia|]. cbn [mbind outcome_bind].
    destruct (built_put p1 _ u (key_as_bytes k) Hp1) as (p2 & -> & Hp2).
    { unfold zlen in *. rewrite length_app, be_put_length, key_length. lia. }
    exists p2. by rewrite app_assoc.
  - apply built_put; [done|]. unfold zlen in *. rewrite be_put_length. lia.
Qed.

Lemma parse_key key : parse_peer_key (key_field key) = Some key.
Proof using TL WL.
  destruct key as [k|]; cbn [key_field]; [|done]. unfold parse_peer_key. rewrite length_app, be_put_length.
  rewrite take_app_length', drop_app_length' by (by rewrite be_put_length). rewrite be_get_put by (simpl; lia).
  unfold zlen. rewrite key_length. simpl. rewrite take_ge by (by rewrite key_length). by rewrite key_agrees, key_from_as.
Qed.

Lemma understood_bind_success t i tc key :
  is_u16 t → is_u32 i → tc_wf tc → understood (RBindSuccess t i tc key).
Proof using HM WL TL NL.
  intros Ht Hi Htc. destruct (tc_wire tc (key_field key) Htc) as (l & El & Hl & Ed). pose proof ip5tuple_ok as [Hip His].
  set (h := mk_ZdpBindActorAddressResponseHeader (response_code ResponseSuccess) 0). pose proof (zlen_nonneg l).
  eapply (understood_of _ BindActorAddressResponse (Some i) (Some t) (as_bytes zdpBindActorAddressResponseHeader h ++ as_bytes tcst_ Ip5Tuple ++ l ++ key_field key));
    [|by intros ? [= <-]|by intros ? [= <-]|done| |done].
  - start. do_back zdpBindActorAddressResponseHeader h.
    destruct (built_back tcst_ Ip5Tuple _ _ _ Hp0 Hip) as (p1 & E1 & Hp1); [rewrite tcst_size; fits|]. clear Hp0.
    assert (zlen ((([] ++ as_bytes zdpBindActorAddressResponseHeader h) ++ as_bytes tcst_ Ip5Tuple)) = 3) as H3.
    { unfold zlen. rewrite length_app, (packed_length (c := tcst_)), tcst_size by done. done. }
    pose proof capacity_ge. destruct (built_put p1 _ _ l Hp1) as (p2 & E2 & Hp2); [rewrite H3; lia|]. clear Hp1.
    destruct (built_key key p2 _ _ Hp2) as (p3 & E3 & Hp3); [rewrite zlen_app, H3; lia|]. clear Hp2. rewrite <- !app_assoc in Hp3.
    unfold send_bind_actor_address_success_response, send_per_flow_txn_mgmt. fold h. rewrite El. cbn [mbind outcome_bind].
    finish BindActorAddressResponse (Some i) (Some t).
  - cbn [handle_routed]. unfold parse_bind_response. rewrite (read_as_bytes zdpBindActorAddressResponseHeader) by range.
    cbn [bind_status_code h]. rewrite Z.eqb_refl. rewrite (read_as_bytes tcst_) by done. rewrite His. cbn [negb]. rewrite Ed.
    cbn [mbind outcome_bind]. by rewrite parse_key.
Qed.

Lemma understood_egress_request t tc key : is_u16 t → tc_wf tc → understood (REgressRequest t tc key).
Proof using HM WL TL NL.
  intros Ht Htc. destruct (tc_wire tc (key_field key) Htc) as (l & El & Hl & Ed). pose proof ip5tuple_ok as [Hip His].
  set (h := mk_ZdpBindEgressStreamRequestHeader Ip5Tuple). pose proof (zlen_nonneg l).
  assert (zlen (as_bytes tcst_ Ip5Tuple) = 1) as H1 by (unfold zlen; rewrite packed_length, tcst_size by done; done).
  eapply (understood_of _ BindEgressStreamRequest (Some 0) (Some t) (as_bytes (zdpBindEgressStreamRequestHeader tcst_) h ++ l ++ key_field key));
    [|by intros ? [= <-]|by intros ? [= <-]|done| |done].
  - start. destruct (built_front (zdpBindEgressStreamRequestHeader tcst_) h _ _ _ Hp Hip) as (p1 & E1 & Hp1); [cbn [size_of zdpBindEgressStreamRequestHeader packed_struct]; rewrite tcst_size; fits|].
    clear Hp. rewrite app_nil_r in Hp1. cbn [size_of zdpBindEgressStreamRequestHeader packed_struct] in Hp1. rewrite tcst_size in Hp1.
    pose proof capacity_ge. change (as_bytes (zdpBindEgressStreamRequestHeader tcst_) h) with (as_bytes tcst_ Ip5Tuple) in *.
    destruct (built_put p1 _ _ l Hp1) as (p2 & E2 & Hp2); [rewrite H1; lia|]. clear Hp1.
    destruct (built_key key p2 _ _ Hp2) as (p3 & E3 & Hp3); [rewrite zlen_app, H1; lia|]. clear Hp2. rewrite <- !app_assoc in Hp3.
    unfold send_bind_egress_stream_request, send_per_flow_txn_mgmt. fold h. rewrite El. cbn [mbind outcome_bind].
    finish BindEgressStreamRequest (Some 0) (Some t).
  - cbn [handle_routed]. unfold parse_bind_egress_stream_request. rewrite (read_as_bytes (zdpBindEgressStreamRequestHeader tcst_)) by exact Hip.
    cbn [egress_tcst h]. rewrite His. cbn [negb]. rewrite Ed. cbn [mbind outcome_bind]. by rewrite parse_key.
Qed.

(** *** Actor addresses *)

Definition address_field (addrs : list IpAddr) : bytes := addrs ≫= octets.

Lemma ip_version_range addrs : in_range l3Type (ip_version_of addrs) ∧ is_Some (address_bytes (ip_version_of addrs)).
Proof using NL WL.
  pose proof l3_in_range as [H4 H6]. unfold address_bytes.
  destruct addrs as [|[l|l] ?]; cbn [ip_version_of std_l3_type]; (split; [done|]); rewrite ?Z.eqb_refl; try case_match; by eexists.
Qed.

Lemma built_addresses addrs p b u :
  Forall std_ok addrs → (length addrs <= 1)%nat → built p b u → zlen b - u + zlen (address_field addrs) <= capacity →
  ∃ p', put_addresses M (ip_version_of addrs) addrs p = Ret p' ∧ built p' (b ++ address_field addrs) u.
Proof.
  intros Hok Hl Hp Hc. destruct addrs as [|a [|]]; [| |simpl in Hl; lia].
  - exists p. by rewrite app_nil_r.
  - unfold address_field in *. cbn [mbind list_bind ip_version_of put_addresses] in *. rewrite app_nil_r in *. rewrite Z.eqb_refl. cbn [negb].
    destruct (built_put p b u (octets a) Hp Hc) as (p1 & -> & Hp1). by exists p1.
Qed.

Lemma read_address_field a :
  std_ok a → read_addresses (std_l3_type a) 1 (octets a ++ []) = Some ([from_std a], []) ∧
  address_bytes (std_l3_type a) = Some (zlen (octets a)).
Proof using NL.
  intros [Hb Hl]. unfold address_bytes. pose proof L3_distinct as Hd. destruct a as [l|l]; cbn [std_l3_type octets read_addresses from_std] in *.
  - rewrite Z.eqb_refl. rewrite (read_as_bytes (byte_array 4) l) by done. unfold zlen. by rewrite Hl.
  - destruct (Z.eqb_spec L3_Ipv6 L3_Ipv4) as [E|_]; [congruence|]. rewrite Z.eqb_refl.
    rewrite (read_as_bytes (byte_array 16) l) by done. unfold zlen. by rewrite Hl.
Qed.

Lemma validated addrs blob :
  validate_acquire_zpr_address_request M addrs blob = inr tt → Forall std_ok addrs →
  (length addrs <= 1)%nat ∧ 0 < zlen blob <= 65535 ∧ 4 + zlen blob + zlen (address_field addrs) <= capacity.
Proof using HM WL.
  unfold validate_acquire_zpr_address_request. destruct (Z.ltb_spec 1 (zlen addrs)) as [|Hl]; [done|].
  intros Hv Hok. unfold max_body_size_for in Hv. rewrite wrap64_small in Hv by (unfold is_u64, SMALL_PACKET_BUFFER_SIZE; lia).
  cbn [size_of zdpAcquireZprAddressHeader packed_struct packed_pair U16 uint u8] in Hv. rewrite l3Type_size in Hv.
  destruct (Z.eqb_spec (zlen blob) 0); [done|]. destruct (Z.ltb_spec 65535 (zlen blob)); [by rewrite orb_true_r in Hv|].
  rewrite orb_false_r in Hv. cbn [orb] in Hv. case_match eqn:Hm; [done|]. apply Z.ltb_ge in Hm. pose proof (zlen_nonneg blob).
  split; [unfold zlen in Hl; lia|]. split; [lia|]. unfold capacity.
  destruct Hok as [|[l|l] ? [_ Ha] Hok]; [simpl; unfold zlen at 2; simpl; lia|..];
    (destruct Hok; [|unfold zlen in Hl; simpl in Hl; lia]);
    unfold address_field; cbn [mbind list_bind octets] in *; rewrite app_nil_r; unfold zlen at 2; rewrite Ha; lia.
Qed.

Lemma understood_acquire t addrs blob : req_ok (RAcquire t addrs blob) → understood (RAcquire t addrs blob).
Proof using HM WL NL.
  intros (Ht & Hok & Hs & Hv). destruct (validated addrs blob Hv Hok) as (Hl & Hb & Hc).
  set (h := mk_ZdpAcquireZprAddressHeader (zlen blob) (ip_version_of addrs) (zlen addrs)).
  destruct (ip_version_range addrs) as [Hir Hsome].
  assert (wrap16 (zlen blob) = zlen blob ∧ wrap8 (zlen addrs) = zlen addrs) as [Hw1 Hw2].
  { unfold wrap16, wrap8. rewrite !Z.mod_small; [done|unfold zlen in *; lia..]. }
  assert (in_range (zdpAcquireZprAddressHeader l3Type) h) as Hh by (unfold h; split; [split; [simpl; lia|done]|unfold zlen; simpl; lia]).
  assert (size_of (zdpAcquireZprAddressHeader l3Type) = 4%nat) as Hsz by (simpl; by rewrite l3Type_size).
  pose proof (zlen_nonneg (address_field addrs)).
  eapply (understood_of _ AcquireZprAddress None (Some t) (as_bytes (zdpAcquireZprAddressHeader l3Type) h ++ blob ++ address_field addrs));
    [|done|by intros ? [= <-]|done| |done].
  - start. destruct (built_back (zdpAcquireZprAddressHeader l3Type) h _ _ _ Hp Hh) as (p1 & E1 & Hp1); [rewrite Hsz; fits|]. clear Hp.
    assert (zlen (as_bytes (zdpAcquireZprAddressHeader l3Type) h) = 4) as H4 by (unfold zlen; rewrite packed_length, Hsz by done; done).
    cbn [app] in Hp1. destruct (built_put p1 _ _ blob Hp1) as (p2 & E2 & Hp2); [lia|]. clear Hp1.
    destruct (built_addresses addrs p2 _ _ Hok Hl Hp2) as (p3 & E3 & Hp3); [rewrite zlen_app; lia|]. clear Hp2. rewrite <- app_assoc in Hp3.
    unfold send_acquire_zpr_address_request, send_non_flow_txn_mgmt. change (default [] (Some blob)) with blob. cbn zeta. rewrite Hw1, Hw2. fold h.
    finish AcquireZprAddress (@None Z) (Some t).
  - cbn [handle_routed]. unfold parse_acquire_zpr_address_request. rewrite (read_as_bytes (zdpAcquireZprAddressHeader l3Type)) by done.
    cbn [acq_ip_version acq_addr_count blob_len h]. rewrite (bool_decide_eq_true_2 _ Hsome).
    destruct (Z.ltb_spec 1 (zlen addrs)) as [Hx|_]; [unfold zlen in Hx; lia|]. cbn [negb orb].
    destruct (Z.eqb_spec (zlen blob) 0) as [Hx|_]; [lia|]. rewrite zlen_app.
    destruct (Z.ltb_spec (zlen blob + zlen (address_field addrs)) (zlen blob)) as [Hx|_]; [lia|].
    rewrite copy_exact by done. cbn [mbind outcome_bind]. rewrite Hs. cbn [negb]. destruct addrs as [|a [|]]; [done| |simpl in Hl; lia].
    apply list.Forall_cons in Hok as [Ha _]. destruct (read_address_field a Ha) as [Hr Hn].
    cbn [ip_version_of]. change (0 <? zlen [a]) with true. cbv iota. rewrite Hn. unfold address_field. cbn [mbind list_bind].
    rewrite Z.mul_1_r, app_nil_r, Z.ltb_irrefl. change (Z.to_nat (zlen [a])) with 1%nat. rewrite app_nil_r in Hr. by rewrite Hr.
Qed.

Lemma understood_grant t st addrs : req_ok (RGrant t st addrs) → understood (RGrant t st addrs).
Proof using HM WL NL.
  intros (Ht & Hok & Hst). assert (length addrs <= 1)%nat as Hl by (destruct Hst as [[_ ->]|[_ ->]]; simpl; lia).
  assert (is_u8 st ∧ valid_auth_status st = true) as [Hu Hvs] by (destruct Hst as [[-> _]|[[-> | ->] _]]; by unfold is_u8).
  set (h := mk_ZdpGrantZprAddressHeader st (ip_version_of addrs) (zlen addrs)). destruct (ip_version_range addrs) as [Hir Hsome].
  assert (wrap8 (zlen addrs) = zlen addrs) as Hw by (unfold wrap8; rewrite Z.mod_small; [done|unfold zlen in *; lia]).
  assert (in_range (zdpGrantZprAddressHeader l3Type) h) as Hh by (unfold h; split; [split; [done|done]|unfold zlen; simpl; lia]).
  assert (size_of (zdpGrantZprAddressHeader l3Type) = 3%nat) as Hsz by (simpl; by rewrite l3Type_size).
  eapply (understood_of _ GrantZprAddress None (Some t) (as_bytes (zdpGrantZprAddressHeader l3Type) h ++ address_field addrs));
    [|done|by intros ? [= <-]|done| |done].
  - start. pose proof capacity_ge. assert (0 <= zlen (address_field addrs) <= 16) as Hsize.
    { destruct addrs as [|a [|]]; [done| |simpl in Hl; lia]. apply list.Forall_cons in Hok as [[_ Ha] _]. unfold address_field.
      cbn [mbind list_bind]. rewrite app_nil_r. unfold zlen. rewrite Ha. destruct a; lia. }
    destruct (built_back (zdpGrantZprAddressHeader l3Type) h _ _ _ Hp Hh) as (p1 & E1 & Hp1); [rewrite Hsz; fits|]. clear Hp. cbn [app] in Hp1.
    destruct (built_addresses addrs p1 _ _ Hok Hl Hp1) as (p2 & E2 & Hp2).
    { unfold zlen at 1. rewrite packed_length, Hsz by done. lia. } clear Hp1.
    unfold send_grant_zpr_address_request, send_non_flow_txn_mgmt. cbn zeta. rewrite Hw. fold h. finish GrantZprAddress (@None Z) (Some t).
  - cbn [handle_routed]. unfold parse_grant_zpr_address_request. rewrite (read_as_bytes (zdpGrantZprAddressHeader l3Type)) by done.
    cbn [grant_status_code grant_ip_version grant_addr_count h]. rewrite Hvs. cbn [negb].
    destruct Hst as [[-> Hl1]|[Hst ->]].
    + destruct addrs as [|a [|]]; [done| |done]. apply list.Forall_cons in Hok as [Ha _]. destruct (read_address_field a Ha) as [Hr Hn].
      rewrite Z.eqb_refl. cbn [negb ip_version_of]. change (zlen [a] =? 1) with true. cbn [negb]. rewrite Hn.
      unfold address_field. cbn [mbind list_bind]. rewrite Z.mul_1_r, app_nil_r, Z.ltb_irrefl. change (Z.to_nat (zlen [a])) with 1%nat.
      rewrite app_nil_r in Hr. by rewrite Hr.
    + destruct (Z.eqb_spec st (authentication_status AuthSuccess)) as [E|_]; [by destruct Hst as [-> | ->]|]. done.
Qed.

(** *** Authentication offers *)

Lemma tlv_map_default es t : default [] (tlv_map es !! t) = value <$> filter (λ e, tlv_type e = t) es.
Proof. unfold tlv_map. rewrite push_lookup, lookup_empty. done. Qed.

Lemma filter_same {A} (f : A → Encoding) t (l : list A) :
  (∀ a, tlv_type (f a) = t) → ∀ t', filter (λ e, tlv_type e = t') (f <$> l) = if decide (t = t') then f <$> l else [].
Proof.
  intros Hf t'. induction l as [|a l IH]; [by destruct (decide _)|]. cbn [fmap list_fmap]. rewrite filter_cons, IH, Hf. by destruct (decide (t = t')).
Qed.

Lemma socket_addrs_asa asa : socket_addrs (Visa := Visa) (value <$> (new_asa <$> asa)) = Some asa.
Proof. induction asa as [|a asa IH]; [done|]. cbn [fmap list_fmap value new_asa socket_addrs] in *. by rewrite IH. Qed.

Lemma understood_init t payload asa : req_ok (RInitAuthentication t payload asa) → understood (RInitAuthentication t payload asa).
Proof using HM TL.
  intros (Ht & Hp & Hasa & Hc).
  set (h := mk_ZdpInitAuthenticationRequestHeader (authentication_status AuthSuccess) BOOTSTRAP_SUPPORT 48).
  assert (Forall encoding_ok (new_asa <$> asa : list Encoding)) as Hes by (by apply Forall_fmap).
  assert (∃ l, builds (RInitAuthentication t payload asa) InitAuthenticationRequest None (Some t)
    (as_bytes zdpInitAuthenticationRequestHeader h ++ as_bytes zdpInitAuthenticationPayload payload ++ l) ∧
    parse_from_buf l = Ret (inr (tlv_map (new_asa <$> asa)))) as (l & Hb & Hl).
  { start. do_back zdpInitAuthenticationRequestHeader h.
    destruct (built_back zdpInitAuthenticationPayload payload _ _ _ Hp1 Hp) as (p2 & E2 & Hp2); [fits|]. clear Hp1.
    destruct (built_tlvs (new_asa <$> asa) p2 _ _ Hes Hp2) as (p3 & l & E3 & Hp3 & Hl).
    { rewrite zlen_app. unfold zlen at 2. rewrite (packed_length (c := zdpInitAuthenticationPayload)) by done.
      change (zlen ([] ++ as_bytes zdpInitAuthenticationRequestHeader h)) with 4.
      change (Z.of_nat (size_of zdpInitAuthenticationPayload)) with 48. unfold asa_size in Hc. lia. }
    clear Hp2. rewrite <- !app_assoc in Hp3. cbn [app] in Hp3. exists l. split; [|done].
    unfold send_init_authentication_request, send_non_flow_txn_mgmt.
    change (wrap16 (Z.of_nat (size_of zdpInitAuthenticationPayload))) with 48. fold h. clear Hl.
    finish InitAuthenticationRequest (@None Z) (Some t). }
  eapply (understood_of _ InitAuthenticationRequest None (Some t)); [exact Hb|done|by intros ? [= <-]|done| |done].
  cbn [handle_routed]. unfold handle_init_authentication_request. rewrite (read_as_bytes zdpInitAuthenticationRequestHeader) by done.
  cbn [auth_status auth_flags auth_data_len h]. simpl (valid_auth_status _). simpl (_ =? _). cbn [negb andb orb].
  rewrite (read_as_bytes zdpInitAuthenticationPayload) by done. cbn [mbind option_bind]. rewrite Hl. cbn [mbind outcome_bind].
  rewrite tlv_map_default, (filter_same new_asa ASA) by done. rewrite decide_True by done. by rewrite socket_addrs_asa.
Qed.

(** *** Hellos *)

Lemma tlvs_size_cons (e : Encoding) es :
  encoding_ok e → Forall encoding_ok es → ∃ l, Tlv.put e = Ret l ∧ tlvs_size (e :: es) = zlen l + tlvs_size es.
Proof using TL.
  intros (l & Hl & _)%put_field (fs & Hfs & _)%put_all_fields. exists l. split; [done|]. unfold tlvs_size.
  cbn [put_all fold_right]. fold (put_all es). rewrite Hl, Hfs. cbn [mbind outcome_bind]. apply zlen_app.
Qed.

Lemma tlvs_size_app es es' : Forall encoding_ok es → Forall encoding_ok es' → tlvs_size (es ++ es') = tlvs_size es + tlvs_size es'.
Proof using TL.
  intros Hes Hes'. induction Hes as [|e es He Hes IH]; [done|]. cbn [app].
  destruct (tlvs_size_cons e es He Hes) as (l & Hl & ->), (tlvs_size_cons e (es ++ es') He) as (l' & Hl' & ->); [by apply Forall_app|].
  rewrite IH. rewrite Hl in Hl'. injection Hl' as ->. lia.
Qed.

Lemma bind_one {A} (eff : Z → list A) order a :
  NoDup order → (∀ t, t ≠ a → eff t = []) → (a ∉ order → eff a = []) → order ≫= eff = eff a.
Proof.
  intros Hnd Hother. induction Hnd as [|t order Ht Hnd IH]; intros Ha; [symmetry; apply Ha, not_elem_of_nil|]. cbn [mbind list_bind].
  destruct (decide (t = a)) as [->|Hne].
  - assert (order ≫= eff = []) as ->; [|apply app_nil_r]. clear - Hother Ht. induction order as [|t order IH]; [done|]. cbn [mbind list_bind].
    apply not_elem_of_cons in Ht as [Hne Ht]. by rewrite Hother, IH.
  - rewrite Hother by done. apply IH. intros Hn. apply Ha. by apply not_elem_of_cons.
Qed.

(** Only the type [a] has effects [l]. *)
Definition only {A} (a : Z) (l : list A) (t : Z) : list A := if t =? a then l else [].

Lemma only_same {A} a (l : list A) : only a l a = l.
Proof. unfold only. by rewrite Z.eqb_refl. Qed.
Lemma only_other {A} a (l : list A) t : t ≠ a → only a l t = [].
Proof. unfold only. by destruct (Z.eqb_spec t a). Qed.

Lemma bind_only {A} (a : Z) (l : list A) order : NoDup order → (a ∉ order → l = []) → order ≫= only a l = l.
Proof.
  intros Hnd Hl. rewrite (bind_one (only a l) order a Hnd); [apply only_same|intros; by apply only_other|]. by rewrite only_same.
Qed.

Lemma bind_app_perm {A} (f g : Z → list A) order : order ≫= (λ t, f t ++ g t) ≡ₚ (order ≫= f) ++ (order ≫= g).
Proof. induction order as [|t order IH]; [done|]. cbn [mbind list_bind]. rewrite IH. solve_Permutation. Qed.

Lemma order_nodup m : NoDup (hash_order m).
Proof using Hord. rewrite Hord. apply NoDup_fst_map_to_list. Qed.

Lemma order_elem m t : t ∈ hash_order m ↔ is_Some (m !! t).
Proof using Hord.
  rewrite Hord, list_elem_of_fmap. split.
  - intros ([t' vs] & -> & H). apply elem_of_map_to_list in H. by eexists.
  - intros [vs H]. exists (t, vs). split; [done|]. by apply elem_of_map_to_list.
Qed.

Lemma order_absent m t : t ∉ hash_order m → values m t = [].
Proof using Hord. rewrite order_elem. by destruct (m !! t) as [vs|]; [intros []; eexists|]. Qed.

Lemma hello_request_loop_ok (m : gmap Z (list Value)) order W K :
  process_window_size_tlv (values m WINDOW_SIZE) = (W, true) →
  process_a2a_dh_pubkey_tlv (values m A2A_DH_PUBKEY) = (K, true) →
  hello_request_loop m order = (order ≫= (λ t, only WINDOW_SIZE W t ++ only A2A_DH_PUBKEY K t), true).
Proof.
  intros HW HK. induction order as [|t order IH]; [done|]. cbn [hello_request_loop mbind list_bind]. rewrite IH.
  destruct (Z.eqb_spec t WINDOW_SIZE) as [->|Hw].
  { rewrite HW, only_same, (only_other A2A_DH_PUBKEY) by done. cbn [negb]. by rewrite app_nil_r. }
  rewrite (only_other WINDOW_SIZE) by done. destruct (Z.eqb_spec t A2A_DH_PUBKEY) as [->|Hk]; [by rewrite HK, only_same|].
  by rewrite only_other.
Qed.

Lemma aaa_after (m : gmap Z (list Value)) aaa : aaa_loop None (values m AAA) = Some aaa → AAA ∉ hash_order m → aaa = None.
Proof using Hord. intros H Ha. rewrite order_absent in H by done. by injection H as <-. Qed.

(** What is logged of the version and of the policy. *)
Definition logged_version (m : gmap Z (list Value)) : list (HelloEffect (Visa := Visa)) := LogVersion <$> option_list (hd_error (values m VERSION)).
Definition logged_policy (m : gmap Z (list Value)) : list (HelloEffect (Visa := Visa)) := LogPolicyId <$> option_list (hd_error (values m POLICY_ID)).

Section hello_response.
Context (m : gmap Z (list Value)) (W : list (HelloEffect (Visa := Visa))) (L : list SocketAddr) (aaa : option IpAddress).
Context (HW : process_window_size_tlv (values m WINDOW_SIZE) = (W, true))
  (HL : socket_addrs (values m ASA) = Some L) (HA : aaa_loop None (values m AAA) = Some aaa).

Lemma hello_response_entry_ok t st :
  values m t ≠ [] → (t = AAA → hs_aaa st = None) →
  hello_response_entry st t (values m t) =
    Ret (mk_hello (hs_effects st ++ only WINDOW_SIZE W t ++ only VERSION (logged_version m) t ++ only POLICY_ID (logged_policy m) t) (hs_asa st ++ only ASA L t) (if t =? AAA then aaa else hs_aaa st), true).
Proof using HW HL HA.
  intros Hne Haaa. unfold hello_response_entry. destruct (Z.eqb_spec t VERSION) as [->|Hv].
  { rewrite only_same, !only_other, !app_nil_r by done. unfold logged_version. by destruct (values m VERSION). }
  destruct (Z.eqb_spec t POLICY_ID) as [->|Hp].
  { rewrite only_same, !only_other, !app_nil_r by done. unfold logged_policy. by destruct (values m POLICY_ID). }
  rewrite (only_other VERSION), (only_other POLICY_ID), !app_nil_r by done.
  destruct (Z.eqb_spec t WINDOW_SIZE) as [->|Hw]; [rewrite HW, only_same, only_other by done; by rewrite app_nil_r|].
  destruct (Z.eqb_spec t ASA) as [->|Hs]; [rewrite HL, only_same, only_other by done; by rewrite app_nil_r|].
  rewrite !only_other, !app_nil_r by done. destruct (Z.eqb_spec t AAA) as [->|_]; [by rewrite Haaa, HA|]. by destruct st.
Qed.

Lemma hello_response_loop_ok order st :
  NoDup order → (∀ t, t ∈ order → values m t ≠ []) → (AAA ∈ order → hs_aaa st = None) →
  hello_response_loop m order st =
    Ret (mk_hello (hs_effects st ++ (order ≫= λ t, only WINDOW_SIZE W t ++ only VERSION (logged_version m) t ++ only POLICY_ID (logged_policy m) t)) (hs_asa st ++ (order ≫= only ASA L))
           (if bool_decide (AAA ∈ order) then aaa else hs_aaa st), true).
Proof using HW HL HA.
  intros Hnd Hne Haaa. revert st Haaa. induction Hnd as [|t order Ht Hnd IH]; intros st Haaa.
  { cbn [mbind list_bind hello_response_loop]. rewrite !app_nil_r. by destruct st. }
  cbn [hello_response_loop mbind list_bind].
  rewrite hello_response_entry_ok; [|apply Hne; left|intros ->; apply Haaa; left]. cbn [mbind outcome_bind negb].
  rewrite IH; [|intros; apply Hne; by right|cbn [hs_aaa]]; cbn [hs_effects hs_asa hs_aaa].
  - rewrite <- !app_assoc. do 3 f_equal. destruct (Z.eqb_spec t AAA) as [->|Hx].
    + rewrite bool_decide_eq_false_2, bool_decide_eq_true_2 by (done || left). done.
    + rewrite (bool_decide_ext (AAA ∈ t :: order) (AAA ∈ order)) by (clear - Hx; rewrite elem_of_cons; naive_solver). done.
  - intros Hin. destruct (Z.eqb_spec t AAA) as [->|]; [done|]. apply Haaa. by right.
Qed.
End hello_response.

Definition window_encodings (w : option Z) : list Encoding := window_size_tlv w.

Lemma window_encodings_ok w : window_ok w → Forall encoding_ok (window_encodings w) ∧ 0 <= tlvs_size (window_encodings w) <= 4.
Proof.
  destruct w as [w|]; [|done]. cbn [window_ok]. intros Hw. split; [|done]. constructor; [|done].
  unfold encoding_ok, is_u16. cbn [value tlv_type new_window_size]. split; [lia|by left].
Qed.

Lemma process_window w : window_ok w → process_window_size_tlv (value <$> window_encodings w) = (applied_window w, true).
Proof.
  destruct w as [w|]; [|done]. cbn [window_ok]. intros Hw. cbn. unfold applied_window.
  destruct (Z.ltb_spec w 1), (Z.ltb_spec (Z.min w 65535) 1); try done; lia.
Qed.

Lemma proto_ok : encoding_ok (new_actor_auth_protocol : Encoding) ∧ tlvs_size [new_actor_auth_protocol] = 4.
Proof. split; [|done]. split; [done|by right; left]. Qed.

Lemma key_encoding_ok k : key_ok k → encoding_ok (new_a2a_dh_pubkey k : Encoding) ∧ tlvs_size [new_a2a_dh_pubkey k] = 34.
Proof using TL.
  intros Hk. split; [done|]. unfold tlvs_size. cbn. unfold put_x25519_pubkey, zlen. rewrite app_nil_r, length_app, key_length. done.
Qed.

Lemma understood_hello_request w k : req_ok (RHelloRequest w k) → understood (RHelloRequest w k).
Proof using HM TL Hord.
  intros [Hw Hk]. destruct (window_encodings_ok w Hw) as [Hwes Hws], proto_ok as [Hpe Hps], (key_encoding_ok k Hk) as [Hke Hks].
  assert (Forall encoding_ok ([new_actor_auth_protocol] ++ [new_a2a_dh_pubkey k] : list Encoding)) as Hes2.
  { apply list.Forall_cons. split; [done|]. by apply Forall_singleton. }
  set (es := window_encodings w ++ [new_actor_auth_protocol] ++ [new_a2a_dh_pubkey k]).
  assert (Forall encoding_ok es) as Hes by (by apply Forall_app).
  assert (tlvs_size es <= 42) as Hsize.
  { unfold es. rewrite !tlvs_size_app by first [done|by apply Forall_singleton]. lia. }
  assert (∃ l, builds (RHelloRequest w k) HelloRequest None None l ∧ parse_from_buf l = Ret (inr (tlv_map es))) as (l & Hb & Hl).
  { start. pose proof capacity_ge. destruct (built_tlvs es p _ _ Hes Hp) as (p1 & l & E1 & Hp1 & Hl); [change (zlen []) with 0; lia|]. clear Hp.
    exists l. split; [|done]. unfold send_hello_request, send_non_flow_mgmt. change (window_size_tlv w ++ [new_actor_auth_protocol; new_a2a_dh_pubkey k]) with es.
    clear Hl. cbn [app] in Hp1. finish HelloRequest (@None Z) (@None Z). }
  set (m := tlv_map es) in *.
  assert (process_window_size_tlv (values m WINDOW_SIZE) = (applied_window w, true)) as HW.
  { rewrite <- (process_window w Hw). unfold m. rewrite tlv_map_default. by destruct w. }
  assert (process_a2a_dh_pubkey_tlv (values m A2A_DH_PUBKEY) = ([ApplyKey k], true)) as HK.
  { unfold m. rewrite tlv_map_default. by destruct w. }
  assert (has_actor_auth_protocol m = true) as Hproto.
  { unfold has_actor_auth_protocol, m. rewrite tlv_map_lookup. by destruct w. }
  eapply (understood_of _ HelloRequest None None l); [exact Hb|done|done|done| |].
  - cbn [handle_routed]. unfold handle_hello_request. cbn [negb]. rewrite Hl. cbn [mbind outcome_bind]. rewrite Hproto. cbn [negb].
    by rewrite (hello_request_loop_ok m _ _ _ HW HK).
  - cbn [meaning]. eexists. split; [done|]. cbn [fst]. rewrite bind_app_perm.
    rewrite !bind_only; [done|apply order_nodup| |apply order_nodup|]; intros Ha; rewrite order_absent in * by done; by simplify_eq/=.
Qed.

(** *** Answers to a hello *)

Definition boot_encodings (boot : bool) : list Encoding := if boot then [new_vs_bootstrap_link] else [].
Definition aaa_encodings (aaa : option IpAddress) : list Encoding := (λ a, new_aaa (to_std a)) <$> option_list aaa.

Definition hello_encodings (v : bytes) (w : option Z) (pid : Z) (asa : list SocketAddr) (aaa : option IpAddress) (boot : bool) : list Encoding :=
  [new_policy_id pid; new_version v; new_actor_auth_protocol] ++ boot_encodings boot ++ window_encodings w ++ (new_asa <$> asa) ++ aaa_encodings aaa.

Lemma fixed_encodings_ok pid v :
  is_str v = true → zlen v < 256 → Forall is_u8 v → - I64_MOD <= pid < I64_MOD →
  Forall encoding_ok [new_policy_id pid : Encoding; new_version v; new_actor_auth_protocol] ∧
  tlvs_size [new_policy_id pid; new_version v; new_actor_auth_protocol] = 16 + zlen v.
Proof.
  intros Hs Hl Hv Hp. split; [apply list.Forall_cons; split; [done|]; apply list.Forall_cons; split; [done|]; apply Forall_singleton, proto_ok|].
  unfold tlvs_size. cbn. unfold put_i64, put_str, put_u16. pose proof (zlen_nonneg v).
  destruct (Z.ltb_spec 255 (zlen v)); [lia|]. unfold wrap8. rewrite Z.mod_small by lia.
  unfold zlen in *. repeat rewrite ?length_app, ?be_put_length, ?length_take. cbn [length]. simpl (length (tlv_hdr _ _)). lia.
Qed.

Lemma boot_encodings_ok boot : Forall encoding_ok (boot_encodings boot) ∧ 0 <= tlvs_size (boot_encodings boot) <= 4.
Proof. destruct boot; [|done]. split; [|done]. apply Forall_singleton. split; [done|by right; right]. Qed.

Lemma new_from_v4_read a : ip_wf a → is_v4 a = true → new_from_v4 (read_as_v4 a) = a.
Proof using NL.
  intros Ha H4. destruct (new_from_v4_wf (read_as_v4 a)) as (Hw & Hw4 & Hr); [by apply read_as_v4_length|by apply read_as_v4_bytes|].
  rewrite <- (from_array4_read _ Hw Hw4), Hr. by apply from_array4_read.
Qed.

Lemma aaa_encodings_ok aaa : (∀ a, aaa = Some a → ip_wf a) →
  Forall encoding_ok (aaa_encodings aaa) ∧ 0 <= tlvs_size (aaa_encodings aaa) <= 18 ∧ aaa_loop None (value <$> aaa_encodings aaa) = Some aaa.
Proof using NL.
  destruct aaa as [a|]; [|done]. intros Ha. specialize (Ha a eq_refl). change (aaa_encodings (Some a)) with [new_aaa (to_std a) : Encoding]. unfold to_std.
  destruct (is_v4 a) eqn:H4; cbn [new_aaa value].
  - pose proof (read_as_v4_length a Ha) as Hl. split_and!.
    + apply Forall_singleton. split; [done|]. split; [by apply read_as_v4_bytes|by left].
    + unfold tlvs_size. cbn. unfold zlen. lia.
    + unfold tlvs_size. cbn. unfold zlen. rewrite app_nil_r. unfold put_ipv4addr. rewrite length_app, Hl. done.
    + cbn [fmap list_fmap value aaa_loop]. by rewrite new_from_v4_read.
  - pose proof (v6_length a Ha) as Hl. split_and!.
    + apply Forall_singleton. split; [done|]. split; [by apply v6_bytes|by left].
    + unfold tlvs_size. cbn. unfold zlen. lia.
    + unfold tlvs_size. cbn. unfold zlen. rewrite app_nil_r. unfold put_ipv6addr. rewrite length_app, Hl. done.
    + cbn [fmap list_fmap value aaa_loop]. by rewrite from_v6_v6.
Qed.

Lemma tlv_map_values es (t : Z) : tlv_map es !! t = match values (tlv_map es) t with [] => None | vs => Some vs end.
Proof. by rewrite tlv_map_default, tlv_map_lookup. Qed.

Lemma tlv_map_nonempty es t : t ∈ hash_order (tlv_map es) → values (tlv_map es) t ≠ [].
Proof using Hord. rewrite order_elem, tlv_map_values. intros [vs H]. by destruct (values (tlv_map es) t). Qed.

(** The answer to a hello, from the values of each type. *)
Lemma hello_response_read l es st W L aaa (boot : bool) :
  is_u8 st → parse_from_buf l = Ret (inr (tlv_map es)) →
  values (tlv_map es) ACTOR_AUTH_PROTOCOL = [TU16 ACTOR_AUTH_PROTOCOL_VERSION] →
  values (tlv_map es) VS_BOOTSTRAP_LINK = (if boot then [TU16 1] else []) →
  process_window_size_tlv (values (tlv_map es) WINDOW_SIZE) = (W, true) →
  socket_addrs (values (tlv_map es) ASA) = Some L → aaa_loop None (values (tlv_map es) AAA) = Some aaa →
  ∃ effs, effs ≡ₚ W ++ logged_version (tlv_map es) ++ logged_policy (tlv_map es) ∧
  handle_hello_response hash_order (as_bytes zdpHelloResponseHeader (mk_ZdpHelloResponseHeader st) ++ l) =
    Ret (effs, inr (mk_hello_fields st aaa (match L with [] => None | _ => Some L end) boot)).
Proof using Hord.
  intros Hst Hl Hp Hb HW HL HA. unfold handle_hello_response. rewrite (read_as_bytes zdpHelloResponseHeader) by done.
  rewrite Hl. cbn [mbind outcome_bind]. unfold has_actor_auth_protocol.
  pose proof (tlv_map_values es ACTOR_AUTH_PROTOCOL) as Hp'. pose proof (tlv_map_values es VS_BOOTSTRAP_LINK) as Hb'. rewrite Hp in Hp'.
  rewrite Hb in Hb'. unfold TlvType in *. rewrite Hp', Hb'. rewrite Z.eqb_refl. cbn [negb].
  rewrite (hello_response_loop_ok _ W L aaa HW HL HA); [|apply order_nodup|intros; by apply tlv_map_nonempty|done].
  cbn [hs_effects hs_asa hs_aaa app outcome_bind fst snd].
  exists (hash_order (tlv_map es) ≫= λ t, only WINDOW_SIZE W t ++ only VERSION (logged_version (tlv_map es)) t ++ only POLICY_ID (logged_policy (tlv_map es)) t). split.
  { rewrite !bind_app_perm, !bind_only; [done|apply order_nodup| |apply order_nodup| |apply order_nodup|]; intros Ha; unfold logged_version, logged_policy; rewrite ?order_absent in * by done; by simplify_eq/=. }
  rewrite !bind_only; [|apply order_nodup|]; [|intros Ha; rewrite order_absent in * by done; by simplify_eq/=].
  assert ((if bool_decide (AAA ∈ hash_order (tlv_map es)) then aaa else None) = aaa) as ->.
  { case_bool_decide as Ha; [done|]. symmetry. by eapply aaa_after. }
  by destruct boot, L.
Qed.

Section hello_success.
Context (v : bytes) (w : option Z) (pid : Z) (asa : list SocketAddr) (aaa : option IpAddress) (boot : bool).
Abbreviation es := (hello_encodings v w pid asa aaa boot).

Lemma hello_values (t : Z) : values (tlv_map es) t = value <$>
  filter (λ e, tlv_type e = t) [new_policy_id pid : Encoding; new_version v; new_actor_auth_protocol] ++
  filter (λ e, tlv_type e = t) (boot_encodings boot) ++ filter (λ e, tlv_type e = t) (window_encodings w) ++
  (if decide (ASA = t) then new_asa <$> asa else []) ++ filter (λ e, tlv_type e = t) (aaa_encodings aaa).
Proof. rewrite tlv_map_default. unfold hello_encodings. rewrite !list.filter_app. by rewrite (filter_same new_asa ASA). Qed.

Lemma aaa_filter t : filter (λ e, tlv_type e = t) (aaa_encodings aaa) = if decide (AAA = t) then aaa_encodings aaa else [].
Proof.
  destruct aaa as [a|]; [|by destruct (decide _)]. change (aaa_encodings (Some a)) with [new_aaa (to_std a) : Encoding]. unfold to_std.
  rewrite filter_cons, filter_nil. destruct (is_v4 a); done.
Qed.

Lemma hello_windows : values (tlv_map es) WINDOW_SIZE = value <$> window_encodings w.
Proof. rewrite hello_values, aaa_filter. by destruct boot, w. Qed.
Lemma hello_asas : values (tlv_map es) ASA = value <$> (new_asa <$> asa : list Encoding).
Proof. rewrite hello_values, aaa_filter. rewrite decide_True by done. destruct boot, w; cbn; by rewrite app_nil_r. Qed.
Lemma hello_aaas : values (tlv_map es) AAA = value <$> aaa_encodings aaa.
Proof. rewrite hello_values, aaa_filter. by destruct boot, w. Qed.
Lemma hello_version : values (tlv_map es) VERSION = [TStr v].
Proof. rewrite hello_values, aaa_filter. by destruct boot, w. Qed.
Lemma hello_policy : values (tlv_map es) POLICY_ID = [TI64 pid].
Proof. rewrite hello_values, aaa_filter. by destruct boot, w. Qed.
Lemma hello_proto : values (tlv_map es) ACTOR_AUTH_PROTOCOL = [TU16 ACTOR_AUTH_PROTOCOL_VERSION].
Proof. rewrite hello_values, aaa_filter. by destruct boot, w. Qed.
Lemma hello_boot : values (tlv_map es) VS_BOOTSTRAP_LINK = if boot then [TU16 1] else [].
Proof. rewrite hello_values, aaa_filter. by destruct boot, w. Qed.
End hello_success.

Lemma built_hello_response es st p :
  is_u8 st → Forall encoding_ok es → tlvs_size es <= capacity → built p [] 0 →
  ∃ p2 l, (p ← front M zdpHelloResponseHeader (mk_ZdpHelloResponseHeader st) p; p ← put_tlvs M es p; send_non_flow_mgmt M HelloResponse p) = Ret p2 ∧
    message p2 HelloResponse None None (as_bytes zdpHelloResponseHeader (mk_ZdpHelloResponseHeader st) ++ l) ∧
    parse_from_buf l = Ret (inr (tlv_map es)).
Proof using HM TL.
  intros Hst Hes Hc Hp. do_front zdpHelloResponseHeader (mk_ZdpHelloResponseHeader st).
  destruct (built_tlvs es _ _ _ Hes Hp0) as (p1 & l & E1 & Hp1 & Hl).
  { rewrite app_nil_r. change (zlen (as_bytes zdpHelloResponseHeader (mk_ZdpHelloResponseHeader st))) with 1. simpl size_of. lia. }
  destruct (send_helper HelloResponse None None p1 _ _ Hp1) as (p2 & E2 & Hm); [simpl; lia|done|done|done|done|].
  exists p2, l. rewrite E. cbn [mbind outcome_bind]. rewrite E1. cbn [mbind outcome_bind]. rewrite app_nil_r in Hm. done.
Qed.

Lemma understood_hello_success v w pid asa aaa boot :
  req_ok (RHelloSuccess v w pid asa aaa boot) → understood (RHelloSuccess v w pid asa aaa boot).
Proof using HM TL NL Hord.
  intros (Hs & Hl & Hv & Hw & Hpid & Hasa & Haaa & Hc). set (es := hello_encodings v w pid asa aaa boot).
  destruct (fixed_encodings_ok pid v Hs Hl Hv Hpid) as [He1 Hs1], (boot_encodings_ok boot) as [He2 Hs2],
    (window_encodings_ok w Hw) as [He3 Hs3], (aaa_encodings_ok aaa Haaa) as (He5 & Hs5 & HA).
  assert (Forall encoding_ok (new_asa <$> asa : list Encoding)) as He4 by (by apply Forall_fmap).
  assert (Forall encoding_ok es ∧ tlvs_size es <= capacity) as [Hes Hsize].
  { unfold es, hello_encodings. split; [by repeat (apply Forall_app; split)|].
    rewrite !tlvs_size_app by (repeat (apply Forall_app; split); done). unfold asa_size in Hc. lia. }
  destruct built_new as (p & E & Hp). destruct (built_hello_response es (response_code ResponseSuccess) p) as (p2 & l & E2 & Hm & Hl2); [done..|].
  destruct (hello_response_read l es (response_code ResponseSuccess) (applied_window w) asa aaa boot) as (effs & Heffs & Hread); [done|done|..].
    + apply hello_proto.
    + apply hello_boot.
    + unfold es. rewrite hello_windows. by apply process_window.
    + unfold es. rewrite hello_asas. apply socket_addrs_asa.
    + unfold es. by rewrite hello_aaas.
    + unfold es in Heffs. unfold logged_version, logged_policy in Heffs. rewrite hello_version, hello_policy in Heffs. eapply (understood_of _ HelloResponse None None); [|done|done|done| |].
      * exists p2. split; [|exact Hm]. unfold build, send_hello_success_response. rewrite E. exact E2.
      * cbn [handle_routed]. by rewrite Hread.
      * exists effs. by split.
Qed.

Lemma understood_hello_error st : is_u8 st → understood (RHelloError st).
Proof using HM TL Hord.
  intros Hst. set (es := [new_actor_auth_protocol : Encoding]). destruct proto_ok as [He Hs]. pose proof capacity_ge.
  assert (Forall encoding_ok es) as Hes by (by apply Forall_singleton).
  destruct built_new as (p & E & Hp). destruct (built_hello_response es st p) as (p2 & l & E2 & Hm & Hl2); [done|done|fold es in Hs; lia|done|].
  eapply (understood_of _ HelloResponse None None); [|done|done|done| |].
  - exists p2. split; [|exact Hm]. unfold build, send_hello_error_response. rewrite E. cbn [mbind outcome_bind] in E2 |- *.
    destruct (front _ _ _ p) as [p1|]; [|done]. cbn [mbind outcome_bind put_tlvs es] in E2 |- *. by destruct (put_tlv _ _ p1).
  - cbn [handle_routed]. destruct (hello_response_read l es st [] [] None false) as (effs & ->%Permutation_nil_r & ->); done.
  - done.
Qed.

(** *** Reports

    The receiver skips the report header a second time: it then finds fewer bytes than
    the header promises, and logs nothing. *)
Lemma report_received report (node_mode : bool) seq : zlen report <= capacity → is_u64 seq →
  ∃ p, send_report M zeroed report = Ret p ∧
    receive node_mode hash_order (body M (fill_sequence_number M seq p)) = if zlen report <? 2 then Panic else Ret (inr (DReport None)).
Proof using HM.
  intros Hc Hseq. destruct built_new as (p & E & Hp). pose proof (zlen_nonneg report).
  assert (wrap16 (zlen report) = zlen report) as Hw.
  { unfold wrap16, capacity, SMALL_PACKET_BUFFER_SIZE, DEFAULT_MESSAGE_HEADROOM in *. rewrite Z.mod_small; lia. }
  assert (is_u16 (zlen report)) as Hr by (unfold is_u16; rewrite <- Hw; unfold wrap16; apply Z.mod_pos_bound; lia).
  set (h := mk_ZdpReportHeader (zlen report)).
  destruct (built_front zdpReportHeader h p _ _ Hp) as (p1 & E1 & Hp1); [done|unfold DEFAULT_MESSAGE_HEADROOM; simpl; lia|].
  destruct (built_put p1 _ _ report Hp1) as (p2 & E2 & Hp2).
  { rewrite app_nil_r. unfold zlen at 1. rewrite (packed_length (c := zdpReportHeader)) by done. simpl. lia. }
  destruct (send_helper Report None None p2 _ _ Hp2) as (p3 & E3 & Hm); [simpl; lia|done..|].
  exists p3. unfold send_report, send_non_flow_mgmt. rewrite Hw. fold h. rewrite E. cbn [mbind outcome_bind]. rewrite E1. cbn [mbind outcome_bind].
  rewrite E2. cbn [mbind outcome_bind]. split; [done|]. unfold receive. rewrite Hm, app_nil_r.
  rewrite (route_message Report seq None None _ (ToReport (as_bytes zdpReportHeader h ++ report))) by done. cbn [mbind outcome_bind handle_routed].
  unfold handle_report. rewrite (read_as_bytes zdpReportHeader) by done. unfold copy_to_bytes. change (Z.of_nat (size_of zdpReportHeader)) with 2.
  destruct (Z.ltb_spec (zlen report) 2); [done|]. cbn [mbind outcome_bind snd report_data_length h].
  destruct (Z.leb_spec (zlen report) (zlen (drop (Z.to_nat 2) report))) as [Hle|]; [|done].
  unfold zlen in *. rewrite length_drop in Hle. lia.
Qed.

Lemma understood_report report : req_ok (RReport report) → understood (RReport report).
Proof using HM.
  intros [H2 Hc] seq Hseq. destruct (report_received report true seq Hc Hseq) as (p & E & Hr).
  rewrite (proj2 (Z.ltb_ge _ _)) in Hr by lia. by exists p, (DReport None).
Qed.

(** *** All requests *)

Lemma understood_all r : req_ok r → understood r.
Proof using HM TL NL WL Hord.
  destruct understood_plain as (Hd & He & Hst & Hab & Hun). destruct r as
    [| |w k|v w pid asa aaa boot|st|t|t|t payload asa|t addrs blob|t st addrs|reason|t l3 packet|t i tc key|t reason|t v|t i|t reason|t tc key|t i|t reason|i|report].
  - done.
  - done.
  - apply understood_hello_request.
  - apply understood_hello_success.
  - apply understood_hello_error.
  - apply Hst.
  - apply Hab.
  - apply understood_init.
  - apply understood_acquire.
  - apply understood_grant.
  - apply understood_terminate.
  - intros [Ht Hl]. exact (understood_bind_request t l3 packet Ht Hl).
  - intros (Ht & Hi & Htc). exact (understood_bind_success t i tc key Ht Hi Htc).
  - intros [Ht Hr]. exact (proj1 (understood_refusals t reason Ht Hr)).
  - intros [Ht Hv]. exact (understood_stream_request t v Ht Hv).
  - intros [Ht Hi]. exact (proj1 (understood_successes t i Ht Hi)).
  - intros [Ht Hr]. exact (proj1 (proj2 (understood_refusals t reason Ht Hr))).
  - intros [Ht Htc]. exact (understood_egress_request t tc key Ht Htc).
  - intros [Ht Hi]. exact (proj2 (understood_successes t i Ht Hi)).
  - intros [Ht Hr]. exact (proj2 (proj2 (understood_refusals t reason Ht Hr))).
  - apply Hun.
  - apply understood_report.
Qed.
End wire.

(** ** Properties *)

(** C26: management messages are understood, except reports.  Every request of a
    node or adapter, with arguments in range and a body that fits, is built without
    a panic; and whatever sequence number it is sent with and in whatever order the
    receiver's hash map lists its types, the receiver's routing and handlers read
    from the bytes exactly what the sender put in ([meaning]): the same transaction
    and stream, the same addresses, classifier, key, status and reason (cut to 255
    bytes, and the packet of a bind request to 256), window size (up to 65535; 0
    is ignored), and of a hello's answer also the version and policy, which it logs.
    Of a report of two bytes or more the receiver logs nothing; a shorter one, which
    [req_ok] excludes, panics it. *)
Theorem messages_understood {ND : NetDefs} {NL : NetDefsLaws} {AK : A2aKeys} {Visa : Type} {EXT : TlvExternals PublicKey Visa}
    {TL : TlvExternalsLaws PublicKey Visa} {WT : WireTypes} {WL : WireLaws (Visa := Visa)}
    (MIN_BODY_OFFSET : Z) (zeroed : PacketMetadata) (hash_order : gmap Z (list (TlvValue PublicKey Visa)) → list Z) (r : Request) (seq : Z) :
  0 <= MIN_BODY_OFFSET <= 1024 → (∀ m, hash_order m ≡ₚ (map_to_list m).*1) → req_ok MIN_BODY_OFFSET r → is_u64 seq →
  ∃ p d, build MIN_BODY_OFFSET zeroed r = Ret p ∧
    receive true hash_order (body MIN_BODY_OFFSET (fill_sequence_number MIN_BODY_OFFSET seq p)) = Ret (inr d) ∧ meaning r d.
Proof. intros HM Hord Hr. by apply understood_all. Qed.

Lemma byte_list l : forallb (λ x, (0 <=? x) && (x <? 256)) l = true → Forall is_u8 l.
Proof.
  intros Hl. apply list.Forall_forall. intros x Hx. rewrite forallb_forall in Hl. apply list_elem_of_In in Hx.
  specialize (Hl x Hx). unfold is_u8. lia.
Qed.

(** Keys of 32 bytes, and layer-3 types and classifier types of one byte. *)
#[local] Instance wire_keys : A2aKeys := {|
  PublicKey := { k : bytes | length k = 32%nat }; SharedSecret := bytes; key_from_bytes := key_from (TlvExternals := byte_externals);
  diffie_hellman k := `k; derive_key l := l |}.
#[local] Existing Instance byte_externals.
#[local] Existing Instance byte_externals_laws.

#[local] Instance wire_types : WireTypes := {| l3Type := u8; Tcst := Z; tcst_ := u8; Ip5Tuple := 1; is_ip5tuple t := t =? 1 |}.

#[local] Instance wire_laws : WireLaws (AK := wire_keys) (EXT := byte_externals).
Proof. split; try apply _; done. Qed.

(** A node's welcome, with a visa service and an address. *)
Definition welcome : Request (AK := wire_keys) :=
  RHelloSuccess [49; 46; 48] (Some 70000) (-1) [SockV4 [10; 0; 0; 1] 443] (Some (v4_prefix ++ [10; 0; 0; 9])) true.

Lemma messages_understood_witness :
  ∃ p d, build (EXT := byte_externals) 96 sample_metadata welcome = Ret p ∧
    receive (EXT := byte_externals) true (λ m, (map_to_list m).*1) (body 96 (fill_sequence_number 96 5 p)) = Ret (inr d) ∧
    ∃ es, es ≡ₚ [ApplyWindow 65535; LogVersion (TStr [49; 46; 48]); LogPolicyId (TI64 (-1))] ∧
      d = DHelloResponse es (mk_hello_fields 0 (Some (v4_prefix ++ [10; 0; 0; 9])) (Some [SockV4 [10; 0; 0; 1] 443]) true).
Proof.
  apply (messages_understood (AK := wire_keys) (EXT := byte_externals) 96 sample_metadata (λ m, (map_to_list m).*1) welcome 5); [lia|done| |done].
  unfold welcome, req_ok.
  split_and!; try done; [by apply byte_list| |].
  - apply Forall_singleton. split_and!; [done|by apply byte_list|done|done].
  - intros a [= <-]. split; [done|by apply byte_list].
Defined.
