(* ===== verification/Intake.v ===== *)
(** Receiving management messages from any peer: which packets make the handlers
    of [Messages] panic, and what becomes of reports. *)
From S2P Require Import Prelude Zdp Utf8 Tlv NetDefs IpHeaders PacketBuf Compress Classifier Tc TxnMgr Slab AdapterTables Node Messages Wire.

Section panics.
Context {ND : NetDefs} {AK : A2aKeys} {Visa : Type} {EXT : TlvExternals PublicKey Visa} {WT : WireTypes}.
Context (hash_order : gmap Z (list (TlvValue PublicKey Visa)) → list Z) (Hord : ∀ m, hash_order m ≡ₚ (map_to_list m).*1).

(** ** Handlers that always answer *)

Lemma read_rest {A} (c : packed A) l a rest : read_from_prefix c l = Some (a, rest) → rest = drop (size_of c) l.
Proof. unfold read_from_prefix. case_match; [done|]. by intros [= _ <-]. Qed.

Lemma read_bytes {A} (c : packed A) l a rest : Forall is_u8 l → read_from_prefix c l = Some (a, rest) → Forall is_u8 rest.
Proof. intros Hl ->%read_rest. by apply Forall_drop. Qed.

(** A parsed map has no type without values. *)
Lemma parse_total (buf : bytes) : Forall is_u8 buf →
  ∃ r, parse_from_buf (PublicKey := PublicKey) (Visa := Visa) buf = Ret r ∧ ∀ m, r = inr m → ∀ t, m !! t ≠ Some [].
Proof.
  intros Hb. destruct (parse_cases (PublicKey := PublicKey) (Visa := Visa) (length buf) buf ∅ Hb ltac:(done)) as [He|(fs & Hfs & ->)].
  - exists (inl TlvBadStructure). done.
  - exists (inr (fold_left add_field fs ∅)). split; [by apply parse_fields|]. intros m [= <-].
    assert (∀ m : gmap Z (list (TlvValue PublicKey Visa)), (∀ t, m !! t ≠ Some []) → ∀ t, fold_left add_field fs m !! t ≠ Some []) as H;
      [|apply H; intros t; by rewrite lookup_empty].
    clear. induction fs as [|f fs IH]; intros m Hm; [done|]. cbn [fold_left]. apply IH. destruct f as [|t v]; [done|]. cbn [add_field].
    destruct (value_of t v) as [[x|]|]; [|done|done]. intros t'. unfold push_entry.
    destruct (decide (t = t')) as [<-|]; [rewrite lookup_insert_eq; by destruct (default [] _)|by rewrite lookup_insert_ne].
Qed.

Lemma hello_response_loop_total (m : gmap Z (list (TlvValue PublicKey Visa))) order st :
  (∀ t, t ∈ order → default [] (m !! t) ≠ []) → ∃ r, hello_response_loop m order st = Ret r.
Proof.
  revert st. induction order as [|t order IH]; intros st Hm; [by eexists|]. cbn [hello_response_loop].
  assert (∃ r, hello_response_entry st t (default [] (m !! t)) = Ret r) as [[st' ok] ->].
  { specialize (Hm t (list_elem_of_here _ _)). unfold hello_response_entry.
    destruct (t =? VERSION); [destruct (default [] (m !! t)); [done|by eexists]|].
    destruct (t =? POLICY_ID); [destruct (default [] (m !! t)); [done|by eexists]|].
    destruct (t =? WINDOW_SIZE); [destruct (process_window_size_tlv _); by eexists|].
    destruct (t =? ASA); [by eexists|]. destruct (t =? AAA); by eexists. }
  cbn [mbind outcome_bind]. destruct (negb ok); [by eexists|]. apply IH. intros t' Ht'. apply Hm. by right.
Qed.

Lemma hello_response_total buf : Forall is_u8 buf → ∃ r, handle_hello_response hash_order buf = Ret r.
Proof using Hord.
  intros Hb. unfold handle_hello_response. destruct (read_from_prefix _ buf) as [[h l]|] eqn:E; [|by eexists].
  destruct (parse_total l (read_bytes _ _ _ _ Hb E)) as ([e|m] & -> & Hm); [by eexists|]. specialize (Hm m eq_refl).
  cbn [mbind outcome_bind]. destruct (negb _); [by eexists|]. case_match; [|by eexists].
  destruct (hello_response_loop_total m (hash_order m) (mk_hello [] [] None)) as [r ->]; [|by eexists].
  intros t Ht. rewrite Hord in Ht. apply list_elem_of_fmap in Ht as ([t' vs] & -> & Hin%elem_of_map_to_list). cbn [fst].
  rewrite Hin. cbn. intros ->. by apply (Hm t').
Qed.

Lemma hello_request_total nm buf : Forall is_u8 buf → ∃ r, handle_hello_request nm hash_order buf = Ret r.
Proof.
  intros Hb. unfold handle_hello_request. destruct (negb nm); [by eexists|]. destruct (parse_total buf Hb) as (r & -> & _). by eexists.
Qed.

Lemma init_authentication_total buf : Forall is_u8 buf → ∃ r, handle_init_authentication_request (Visa := Visa) buf = Ret r.
Proof.
  intros Hb. unfold handle_init_authentication_request. destruct (read_from_prefix _ buf) as [[h l]|] eqn:E; [|by eexists].
  apply read_bytes in E; [|done]. destruct (_ || _ || _); [by eexists|]. cbn zeta.
  assert (∀ ch l', Forall is_u8 l' → ∃ r, (r ← parse_from_buf (PublicKey := PublicKey) (Visa := Visa) l';
    Ret match r with inl _ => inl BadStructure | inr tlvs => match socket_addrs (default [] (tlvs !! ASA)) with None => inl BadStructure
      | Some asa => inr (mk_auth_offer (auth_status h) ch asa) end end) = Ret r) as H.
  { intros ch l' Hl'. destruct (parse_total l' Hl') as (r & -> & _). by eexists. }
  destruct (negb (Z.land _ BOOTSTRAP_SUPPORT =? 0)).
  - destruct (negb _); [by eexists|]. destruct (read_from_prefix _ l) as [[payload l']|] eqn:E'; [|by eexists].
    apply H. by eapply read_bytes.
  - destruct (negb _); [by eexists|]. by apply H.
Qed.

Lemma acquire_total buf : ∃ r, parse_acquire_zpr_address_request buf = Ret r.
Proof.
  unfold parse_acquire_zpr_address_request. destruct (read_from_prefix _ buf) as [[h l]|]; [|by eexists].
  destruct (_ || _); [by eexists|]. destruct (_ =? 0); [by eexists|]. destruct (zlen l <? blob_len h) eqn:Hl; [by eexists|].
  unfold copy_to_bytes. rewrite Hl. cbn [mbind outcome_bind]. destruct (negb _); [by eexists|].
  destruct (0 <? _); [|by eexists]. destruct (address_bytes _); [|by eexists]. case_match; by eexists.
Qed.

Lemma egress_request_total buf : ∃ r, parse_bind_egress_stream_request buf = Ret r.
Proof.
  unfold parse_bind_egress_stream_request. destruct (read_from_prefix _ buf) as [[h l]|]; [|by eexists].
  destruct (negb _); [by eexists|]. destruct (deserialize_total l) as [r ->]. by eexists.
Qed.

(** ** Reports *)

(** A report with no two bytes after its header, or whose text, taken two bytes
    too late, is not UTF-8. *)
Definition bad_report (buf : bytes) : Prop :=
  ∃ h l, read_from_prefix zdpReportHeader buf = Some (h, l) ∧
    (zlen l < 2 ∨ report_data_length h <= zlen l - 2 ∧ is_str (take (Z.to_nat (report_data_length h)) (drop 2 l)) = false).

Lemma report_panics buf : handle_report buf = Panic ↔ bad_report buf.
Proof.
  unfold handle_report, bad_report. destruct (read_from_prefix _ buf) as [[h l]|]; [|split; [done|by intros (? & ? & ? & _)]].
  unfold copy_to_bytes. change (Z.of_nat (size_of zdpReportHeader)) with 2. split.
  - intros H. exists h, l. split; [done|]. destruct (Z.ltb_spec (zlen l) 2); [by left|]. right. cbn [mbind outcome_bind snd] in H.
    change (Z.to_nat 2) with 2%nat in H. destruct (Z.leb_spec (report_data_length h) (zlen (drop 2 l))) as [Hle|]; [|done].
    unfold zlen in *. rewrite length_drop in Hle. split; [lia|]. by destruct (is_str _).
  - intros (h' & l' & [= <- <-] & [Hs|[Hle Hs]]); [by rewrite (proj2 (Z.ltb_lt _ _) Hs)|].
    destruct (Z.ltb_spec (zlen l) 2); [done|]. cbn [mbind outcome_bind snd]. change (Z.to_nat 2) with 2%nat.
    rewrite (proj2 (Z.leb_le _ _)) by (unfold zlen in *; rewrite length_drop; lia). by rewrite Hs.
Qed.

(** ** All handlers *)

Definition routed_buf (r : Routed) : bytes :=
  match r with
  | ToBindActorAddressRequest _ b | ToBindActorAddressResponse _ _ b | ToStreamIdRequest _ b | ToStreamIdResponse _ _ b
  | ToBindEgressStreamRequest _ b | ToBindEgressStreamResponse _ _ b | ToStartAuthentication _ b | ToAbandonAuthentication _ b
  | ToInitAuthenticationRequest _ b | ToAcquireZprAddressRequest _ b | ToGrantZprAddressRequest _ b | ToReport b | ToTerminate b
  | ToHelloRequest b | ToHelloResponse b => b
  | _ => []
  end.

Lemma routed_panics nm r : Forall is_u8 (routed_buf r) → handle_routed nm hash_order r = Panic ↔ ∃ b, r = ToReport b ∧ bad_report b.
Proof using Hord.
  intros Hb. assert (∀ o : outcome (MgmtError + Decoded (Visa := Visa)), (∃ x, o = Ret x) → (∀ b, r ≠ ToReport b) →
    o = Panic ↔ ∃ b, r = ToReport b ∧ bad_report b) as Hret by (intros o [x ->] Hr; split; [done|intros (b & -> & _); by destruct (Hr b)]).
  assert (∀ A (o : outcome A) (f : A → MgmtError + Decoded (Visa := Visa)), (∃ x, o = Ret x) → ∃ y, (x ← o; Ret (f x)) = Ret y) as Hbind
    by (intros A o f [x ->]; by eexists).
  destruct r as [| | | | | | | | | | | |b| | | | |]; cbn [handle_routed routed_buf] in *;
    try (apply Hret; [first [by eexists|apply Hbind]|done]).
  - apply parse_bind_response_total.
  - apply egress_request_total.
  - by apply init_authentication_total.
  - apply acquire_total.
  - clear Hret Hbind. assert ((x ← handle_report b; Ret (decoded_map DReport x)) = Panic ↔ handle_report b = Panic) as -> by (by destruct (handle_report b)).
    rewrite report_panics. split; [by exists b|by intros (b' & [= <-] & ?)].
  - by apply hello_request_total.
  - by apply hello_response_total.
Qed.

(** ** Routing *)

(** The packet reaches the handlers with a type that its dispatcher never lets through. *)
Definition misrouted (ty : Z) (buf : bytes) : Prop :=
  ty = packet_type TransitPacket ∧ is_Some (read_from_prefix zdpPerFlowHeader buf) ∨ ty = packet_type KeyManagement.

(** A decision that is made, and not for [handle_report]. *)
Definition harmless (o : outcome (MgmtError + Routed)) : Prop :=
  ∃ r, o = Ret r ∧ ∀ rt, r = inr rt → Forall is_u8 (routed_buf rt) ∧ ∀ b, rt ≠ ToReport b.

Lemma harmless_error e : harmless (Ret (inl e)).
Proof. by eexists. Qed.

Lemma harmless_ret rt : Forall is_u8 (routed_buf rt) → (∀ b, rt ≠ ToReport b) → harmless (Ret (inr rt)).
Proof. intros H1 H2. eexists. split; [done|]. by intros rt' [= <-]. Qed.

Lemma harmless_txn buf k :
  Forall is_u8 buf → (∀ t b, Forall is_u8 b → Forall is_u8 (routed_buf (k t b))) → (∀ t b b', k t b ≠ ToReport b') → harmless (with_txn buf k).
Proof.
  intros Hb Hk Hr. unfold with_txn. destruct (read_from_prefix _ buf) as [[h l]|] eqn:E; [|apply harmless_error].
  apply harmless_ret; [|intros b; apply Hr]. by apply Hk, (read_bytes _ _ _ _ Hb E).
Qed.

Lemma handle_packet_cases base mh buf l l' :
  read_from_prefix zdpBaseHeader buf = Some (base, l) → read_from_prefix zdpMgmtHeader l = Some (mh, l') → Forall is_u8 l' →
  let ty := base_packet_type base in
  (misrouted ty l' ∧ handle_packet buf = Panic) ∨ (ty = packet_type Report ∧ handle_packet buf = Ret (inr (ToReport l'))) ∨
  (¬ misrouted ty l' ∧ ty ≠ packet_type Report ∧ harmless (handle_packet buf)).
Proof.
  intros E1 E2 Hl. unfold handle_packet. rewrite E1, E2. generalize (base_packet_type base) as ty. intros ty. clear E1 E2. cbn zeta.
  destruct (decide (ty = packet_type Report)) as [->|Hrep]; [right; left; done|].
  destruct (decide (ty = packet_type KeyManagement)) as [->|Hkm]; [left; split; [by right|done]|]. unfold misrouted.
  destruct (is_per_flow ty) eqn:Hf.
  - destruct (read_from_prefix zdpPerFlowHeader l') as [[h l2]|] eqn:E.
    2: { right; right. split; [by intros [[_ []]|]|]. split; [done|apply harmless_error]. }
    apply read_bytes in E; [|done]. destruct (Z.eqb_spec ty (packet_type TransitPacket)) as [Ht|Ht]; [left; by split; [left|]|].
    right; right. split; [by intros [[]|]|]. split; [done|].
    repeat match goal with |- harmless (if ?b then _ else _) => destruct b end;
      first [apply harmless_error|by apply harmless_ret|by apply harmless_txn].
  - right; right. split; [intros [[-> _]|]; done|]. split; [done|].
    destruct (Z.eqb_spec ty (packet_type Report)), (Z.eqb_spec ty (packet_type KeyManagement)); try done.
    repeat match goal with |- harmless (if ?b then _ else _) => destruct b end;
      first [apply harmless_error|by apply harmless_ret|by apply harmless_txn].
Qed.

(** The packets that make [mgmt_processor_worker] panic. *)
Definition panicking (buf : bytes) : Prop :=
  ∃ base mh l l', read_from_prefix zdpBaseHeader buf = Some (base, l) ∧ read_from_prefix zdpMgmtHeader l = Some (mh, l') ∧
    (misrouted (base_packet_type base) l' ∨ base_packet_type base = packet_type Report ∧ bad_report l').

Lemma receive_panics_iff nm buf : Forall is_u8 buf → receive nm hash_order buf = Panic ↔ panicking buf.
Proof using Hord.
  intros Hb. unfold receive. destruct (read_from_prefix zdpBaseHeader buf) as [[base l]|] eqn:E1.
  2: { unfold handle_packet. rewrite E1. split; [done|]. intros (? & ? & ? & ? & E & _). congruence. }
  destruct (read_from_prefix zdpMgmtHeader l) as [[mh l']|] eqn:E2.
  2: { unfold handle_packet. rewrite E1, E2. split; [done|]. intros (? & ? & ? & ? & E & E' & _). congruence. }
  assert (panicking buf ↔ misrouted (base_packet_type base) l' ∨ base_packet_type base = packet_type Report ∧ bad_report l') as ->.
  { split; [intros (? & ? & ? & ? & E & E' & H); congruence|]. intros H. by exists base, mh, l, l'. }
  assert (Forall is_u8 l') as Hl' by (by eapply read_bytes, E2; eapply read_bytes, E1).
  destruct (handle_packet_cases base mh buf l l' E1 E2 Hl') as [[Hm ->]|[[Hr ->]|(Hm & Hr & r & -> & Hrt)]]; cbn [mbind outcome_bind].
  - naive_solver.
  - rewrite (routed_panics nm (ToReport l') Hl'), Hr. unfold misrouted. split.
    + intros (b & [= <-] & H). by right.
    + intros [[[? _]|?]|[_ ?]]; [done|done|by exists l'].
  - destruct r as [e|rt]; [naive_solver|]. destruct (Hrt rt eq_refl) as [Hbytes Hne]. rewrite (routed_panics nm rt Hbytes).
    naive_solver.
Qed.
End panics.

(** ** Properties *)

(** what a peer can crash the management processor with.  On any bytes, every
    handler but the one for reports returns, with a decoded message or an error;
    the processor panics exactly on the two packet types that the receiver
    dispatches elsewhere, on a report with fewer than two bytes of text, and on
    one whose text, read two bytes too late, is not UTF-8. *)
Theorem receive_panics_exactly {ND : NetDefs} {AK : A2aKeys} {Visa : Type} {EXT : TlvExternals PublicKey Visa} {WT : WireTypes}
    (hash_order : gmap Z (list (TlvValue PublicKey Visa)) → list Z) (node_mode : bool) (buf : bytes) :
  (∀ m, hash_order m ≡ₚ (map_to_list m).*1) → Forall is_u8 buf →
  receive node_mode hash_order buf = Panic ↔
  ∃ base mh l l', read_from_prefix zdpBaseHeader buf = Some (base, l) ∧ read_from_prefix zdpMgmtHeader l = Some (mh, l') ∧
    (misrouted (base_packet_type base) l' ∨ base_packet_type base = packet_type Report ∧ bad_report l').
Proof. intros Hord Hb. by apply receive_panics_iff. Qed.

(** A report of one byte. *)
Definition short_report : bytes := [132; 0] ++ replicate 8 0 ++ [0; 1; 65].

Lemma receive_panics_exactly_witness :
  receive (AK := wire_keys) (EXT := byte_externals) (WT := wire_types) true (λ m, (map_to_list m).*1) short_report = Panic.
Proof.
  apply (receive_panics_exactly (AK := wire_keys) (EXT := byte_externals) (WT := wire_types) (λ m, (map_to_list m).*1) true short_report).
  - done.
  - by apply byte_list.
  - exists (mk_ZdpBaseHeader 132 0), (mk_ZdpMgmtHeader 0), (replicate 8 0 ++ [0; 1; 65]), [0; 1; 65]. split; [done|]. split; [done|].
    right. split; [done|]. exists (mk_ZdpReportHeader 1), [65]. split; [done|]. by left.
Defined.

(** no report is ever logged.  Whatever text [send_report] sends, the receiver
    skips the report header a second time: it then finds fewer bytes than the
    header promises and logs nothing, or, when the text has fewer than two bytes,
    panics. *)
Theorem reports_are_lost {ND : NetDefs} {AK : A2aKeys} {Visa : Type} {EXT : TlvExternals PublicKey Visa} {WT : WireTypes}
    (MIN_BODY_OFFSET : Z) (zeroed : PacketMetadata) (hash_order : gmap Z (list (TlvValue PublicKey Visa)) → list Z) (node_mode : bool)
    (seq : Z) (report : bytes) :
  0 <= MIN_BODY_OFFSET <= 1024 → zlen report <= capacity MIN_BODY_OFFSET → is_u64 seq →
  ∃ p, send_report MIN_BODY_OFFSET zeroed report = Ret p ∧
    receive node_mode hash_order (body MIN_BODY_OFFSET (fill_sequence_number MIN_BODY_OFFSET seq p)) =
      if zlen report <? 2 then Panic else Ret (inr (DReport None)).
Proof. intros HM Hc Hseq. by apply report_received. Qed.

Lemma reports_are_lost_witness :
  ∃ p, send_report 96 sample_metadata [111; 107; 33] = Ret p ∧
    receive (AK := wire_keys) (EXT := byte_externals) (WT := wire_types) true (λ m, (map_to_list m).*1) (body 96 (fill_sequence_number 96 5 p)) =
      Ret (inr (DReport None)).
Proof.
  apply (reports_are_lost (AK := wire_keys) (EXT := byte_externals) (WT := wire_types) 96 sample_metadata (λ m, (map_to_list m).*1) true 5 [111; 107; 33]);
    [lia|done|done].
Defined.
