(* ===== verification/Transport.v ===== *)
(** Transport security of a link: the security association of
    [src/adapter/ph/src/km.rs], and the three ways in which
    [src/adapter/ph/src/fastpath.rs] protects a packet: a checksum (ZPI 0), a MAC,
    or full encryption in the packet's own tailroom. *)
From S2P Require Import Prelude Zdp NetDefs PacketBuf.

(** [km::EncryptionError] and [km::DecryptionError] *)
Inductive EncryptionError : Type := EncInternalError | EncMessageTooLarge | EncParseError.
Inductive DecryptionError : Type := DecInternalError | DecMessageTooShort | DecParseError | DecDecryptFailed.

Record ZPIPair : Type := mk_zpi_pair { encr : Z; hmac : Z }.
Definition zpi_pair_zero : ZPIPair := mk_zpi_pair 0 0.

(** The trait [Codec].  An operation gets a payload and a buffer, and gives the
    buffer it leaves and the number of bytes it wrote to its front.  An
    implementation may change its own state between calls (a nonce): a value
    is the codec as one call finds it. *)
Record Codec : Type := mk_codec {
  max_overhead : Z;
  encrypt_transport_stateless : bytes → bytes → bytes * (EncryptionError + Z);
  decrypt_transport_stateless : bytes → bytes → bytes * (DecryptionError + Z);
}.

Definition UnimplCodec : Codec := mk_codec 0 (λ _ m, (m, inl EncInternalError)) (λ _ m, (m, inl DecInternalError)).

(** [KmTransportSA], over the peer's certificate. *)
Record KmTransportSA (Certificate : Type) : Type := mk_sa {
  sa_id : Z;
  recv_zpis : ZPIPair;
  send_zpis : ZPIPair;
  send_hmac_key : bytes;
  recv_hmac_key : bytes;
  codec : Codec;
  peer_cert : option Certificate;
}.
Arguments mk_sa {_} _ _ _ _ _ _ _.
Arguments sa_id {_} _.
Arguments recv_zpis {_} _.
Arguments send_zpis {_} _.
Arguments send_hmac_key {_} _.
Arguments recv_hmac_key {_} _.
Arguments codec {_} _.
Arguments peer_cert {_} _.

Definition sa_default {C} : KmTransportSA C :=
  mk_sa 0 zpi_pair_zero zpi_pair_zero (replicate 32 0) (replicate 32 0) UnimplCodec None.
Definition sa_new {C} (send_zpis recv_zpis : ZPIPair) (send_key recv_key : bytes) (codec : Codec) (peer_cert : option C) : KmTransportSA C :=
  mk_sa 0 recv_zpis send_zpis send_key recv_key codec peer_cert.

(** [PartialEq for KmTransportSA] leaves out identifier, codec and certificate. *)
Definition zpi_pair_eqb (a b : ZPIPair) : bool := (encr a =? encr b) && (hmac a =? hmac b).
Definition sa_eqb {C} (a b : KmTransportSA C) : bool :=
  zpi_pair_eqb (send_zpis a) (send_zpis b) && zpi_pair_eqb (recv_zpis a) (recv_zpis b) &&
  bool_decide (send_hmac_key a = send_hmac_key b) && bool_decide (recv_hmac_key a = recv_hmac_key b).

(** The [blake3] crate. *)
Class Blake3 : Type := {
  blake3_hash : bytes → bytes;
  blake3_keyed_hash : bytes → bytes → bytes;
}.

Class Blake3Laws `{Blake3} : Prop := {
  blake3_hash_length l : length (blake3_hash l) = 32%nat;
  blake3_keyed_hash_length k l : length (blake3_keyed_hash k l) = 32%nat;
}.

Definition ZPI_0 : Z := 0.
Definition PACKET_BUFFER_SIZE : Z := 4096 * 3.
Definition NOISE_NONCE_LEN : Z := 8.
Definition NOISE_PADLEN : Z := 16 + NOISE_NONCE_LEN.

Section transport.
Context {ND : NetDefs} {B3 : Blake3} (MIN_BODY_OFFSET : Z).
Abbreviation M := MIN_BODY_OFFSET.

(** Writing through [body_and_tailroom_mut]. *)
Definition set_tail (p : Packet) (t : bytes) : Packet := mk_packet (metadata p) (head M p ++ body M p ++ t).

(** [l[n..]], which panics when [n] is out of range, and [l[..n]]. *)
Definition slice_from (l : bytes) (n : nat) : outcome bytes := if (length l <? n)%nat then Panic else Ret (drop n l).
Definition slice_to (l : bytes) (n : Z) : outcome bytes := if zlen l <? n then Panic else Ret (take (Z.to_nat n) l).

Definition encap_zpi (z : Z) (p : Packet) : outcome Packet := alloc_header M p (as_bytes zdpZpiHeader (mk_ZdpZpiHeader z)).

(** The checksum, with its bytes swapped behind an odd number of bytes. *)
Definition null_checksum (l : bytes) : bytes :=
  let csum := be_put 2 (ip4sum l) in
  if (length l `mod` 2 =? 0)%nat then csum else rev csum.

Definition encrypt_null (p : Packet) : outcome Packet :=
  l ← slice_from (body M p) 1;
  put M p (null_checksum l).

Definition link_mac (key l : bytes) : bytes := take ZDP_PACKET_MAC_SIZE (blake3_keyed_hash key l).

Definition encrypt_hmac (key : bytes) (p : Packet) : outcome Packet := put M p (link_mac key (body M p)).

Definition encrypt_full (c : Codec) (p : Packet) : outcome (Packet * (EncryptionError + unit)) :=
  if zlen (body M p) <? 1 then Ret (p, inl EncParseError)
  else
    let encr_len := zlen (body M p) - 1 in
    if encr_len + max_overhead c <=? tailroom_available M p then
      let '(t, r) := encrypt_transport_stateless c (drop 1 (body M p)) (tail M p) in
      let p := set_tail p t in
      match r with
      | inl e => Ret (p, inl e)
      | inr n => p ← adopt_tailroom_with_header M p 1 n; Ret (p, inr tt)
      end
    else
      let '(enc_buf, r) := encrypt_transport_stateless c (drop 1 (body M p)) (replicate (Z.to_nat PACKET_BUFFER_SIZE) 0) in
      match r with
      | inl e => Ret (p, inl e)
      | inr n =>
          p ← shrink_by p encr_len;
          l ← slice_to enc_buf n;
          p ← put M p l;
          Ret (p, inr tt)
      end.

Inductive DecryptError : Type := DeBadStructure | DeUnknownZpi | DeDecryptionFailure | DeMicvFailure | DeBadChecksum.

Definition decrypt_null (p : Packet) : outcome (Packet * (DecryptError + unit)) :=
  if zlen (body M p) <? 1 + 2 then Ret (p, inl DeBadStructure)
  else
    l ← slice_from (body M p) 1;
    if negb (ip4sum l =? 0) then Ret (p, inl DeBadChecksum)
    else p ← shrink_by p 2; Ret (p, inr tt).

Definition decrypt_hmac (key : bytes) (p : Packet) : outcome (Packet * (DecryptError + unit)) :=
  let n := Z.of_nat ZDP_PACKET_MAC_SIZE in
  if zlen (body M p) <? n then Ret (p, inl DeBadStructure)
  else
    mac ← slice_from (body M p) (length (body M p) - ZDP_PACKET_MAC_SIZE);
    p ← shrink_by p n;
    Ret (p, if bool_decide (link_mac key (body M p) = mac) then inr tt else inl DeMicvFailure).

Definition decrypt_full (c : Codec) (padlen : Z) (p : Packet) : outcome (Packet * (DecryptError + unit)) :=
  if zlen (body M p) <? 1 then Ret (p, inl DeBadStructure)
  else
    let encr_len := zlen (body M p) - 1 in
    if encr_len <? padlen then Ret (p, inl DeBadStructure)
    else if encr_len <=? tailroom_available M p then
      let '(t, r) := decrypt_transport_stateless c (drop 1 (body M p)) (tail M p) in
      let p := set_tail p t in
      match r with
      | inr n => p ← adopt_tailroom_with_header M p 1 n; Ret (p, inr tt)
      | inl _ => Ret (p, inl DeDecryptionFailure)
      end
    else
      let '(decr_buf, r) := decrypt_transport_stateless c (drop 1 (body M p)) (replicate (Z.to_nat PACKET_BUFFER_SIZE) 0) in
      match r with
      | inr n =>
          p ← shrink_by p encr_len;
          l ← slice_to decr_buf n;
          p ← put M p l;
          Ret (p, inr tt)
      | inl _ => Ret (p, inl DeDecryptionFailure)
      end.

(** [km_noise] is [config.km_impl == KM_ID_NOISE]. *)
Definition decrypt_with_sa {C} (km_noise : bool) (z : Z) (sa : KmTransportSA C) (p : Packet) : outcome (Packet * (DecryptError + unit)) :=
  if z =? hmac (recv_zpis sa) then decrypt_hmac (recv_hmac_key sa) p
  else if z =? encr (recv_zpis sa) then decrypt_full (codec sa) (if km_noise then NOISE_PADLEN else 0) p
  else Ret (p, inl DeUnknownZpi).

(** What [KmTransportSA] protects a packet with: the association's MAC for
    transit packets, its codec for the rest, a checksum without one. *)
Definition protect {C} (sa : option (KmTransportSA C)) (transit : bool) (p : Packet) : outcome (Packet * (EncryptionError + unit)) :=
  match sa with
  | Some sa => if transit then p ← encrypt_hmac (send_hmac_key sa) p; Ret (p, inr tt) else encrypt_full (codec sa) p
  | None => p ← encrypt_null p; Ret (p, inr tt)
  end.
End transport.

(** ** What is protected can be read *)

(** [ip4sum::checksum] computes the Internet checksum of RFC 1071 (of the sum of
    16-bit big-endian words, an odd last byte padded with 0). *)
Class ChecksumLaws `{NetDefs} : Prop := {
  ip4sum_rfc1071 l : Forall is_u8 l → zlen l < 65536 → ip4sum l = rfc1071 l;
}.

Lemma sum16_app_even l m : Nat.Even (length l) → sum16 (l ++ m) = sum16 l + sum16 m.
Proof.
  intros [k Hk]. revert l Hk. induction k as [|k IH]; intros l Hk; [by destruct l|].
  destruct l as [|a [|b l]]; cbn [length] in Hk; [lia|lia|]. cbn [app sum16]. rewrite IH by lia. lia.
Qed.

Lemma sum16_bound l : Forall is_u8 l → 0 <= sum16 l <= 65535 * zlen l.
Proof.
  remember (length l) as n eqn:En. revert l En. induction n as [n IH] using lt_wf_ind. intros l -> Hl. unfold is_u8, zlen in *.
  destruct l as [|a [|b l]]; cbn [sum16 length]; [lia|apply list.Forall_cons in Hl as [? _]; lia|].
  apply list.Forall_cons in Hl as [? Hl]. apply list.Forall_cons in Hl as [? Hl]. specialize (IH (length l) ltac:(cbn; lia) l eq_refl Hl). lia.
Qed.

Lemma fold16_range z : 0 <= z < 2 ^ 32 → 0 <= fold16 z <= 65535 ∧ (fold16 z - z) mod 65535 = 0 ∧ (0 < z → 0 < fold16 z).
Proof.
  intros Hz. unfold fold16. cbv zeta. remember (z / 65536) as q eqn:Eq. remember (z mod 65536) as r eqn:Er. assert (z = 65536 * q + r ∧ 0 <= r < 65536 ∧ 0 <= q < 65536) as (E & Hr & Hq).
  { subst q r. split; [apply Z.div_mod; lia|]. split; [apply Z.mod_pos_bound; lia|]. split; [apply Z.div_pos; lia|apply Z.div_lt_upper_bound; lia]. }
  remember (r + q) as y eqn:Ey. assert (y < 65536 ∧ y / 65536 = 0 ∧ y mod 65536 = y ∨ 65536 <= y ∧ y / 65536 = 1 ∧ y mod 65536 = y - 65536) as Hy.
  { destruct (decide (y < 65536)); [left|right].
    - split; [done|]. split; [apply Z.div_small|apply Z.mod_small]; lia.
    - split; [lia|]. split; [symmetry; apply (Z.div_unique _ _ _ (y - 65536))|symmetry; apply (Z.mod_unique _ _ 1)]; lia. }
  destruct Hy as [(Hy & -> & ->)|(Hy & -> & ->)]; (split; [lia|]; split; [|lia]).
  - replace (y + 0 - z) with (- q * 65535) by lia. apply Z.mod_mul. lia.
  - replace (y - 65536 + 1 - z) with ((- q - 1) * 65535) by lia. apply Z.mod_mul. lia.
Qed.

Lemma sum16_checksum `{NetDefs} l : sum16 (l ++ null_checksum l) = sum16 l + be_get (be_put 2 (ip4sum l)).
Proof.
  unfold null_checksum. generalize (be_put_length 2 (ip4sum l)). destruct (be_put 2 (ip4sum l)) as [|hi [|lo []]]; try done. intros _. cbn [be_get fold_left rev app].
  destruct (Nat.Even_or_Odd (length l)) as [He|[k Ho]].
  - assert (length l `mod` 2 = 0)%nat as ->. { destruct He as [k ->]. rewrite Nat.mul_comm. apply Nat.Div0.mod_mul. }
    rewrite sum16_app_even by done. cbn [Nat.eqb sum16]. unfold be_get. cbn [fold_left]. lia.
  - assert (length l `mod` 2 = 1)%nat as ->. { rewrite Ho, Nat.add_comm, Nat.mul_comm, Nat.Div0.mod_add. done. }
    assert (∃ l' a, l = l' ++ [a] ∧ Nat.Even (length l')) as (l' & a & -> & He).
    { destruct (exists_last (l := l)) as (l' & a & ->); [intros ->; cbn in Ho; lia|]. exists l', a. split; [done|]. rewrite length_app in Ho. cbn in Ho. exists k. lia. }
    rewrite <- app_assoc, (sum16_app_even l' ([a] ++ _)), (sum16_app_even l' [a]) by done. cbn [Nat.eqb rev app sum16]. unfold be_get. cbn [fold_left]. lia.
Qed.

Lemma null_checksum_bytes `{NetDefs} l : Forall is_u8 (null_checksum l).
Proof. unfold null_checksum. case_match; [apply be_put_bytes|]. apply Forall_rev, be_put_bytes. Qed.

(** The checksum of what fits a packet with its checksum appended, swapped behind
    an odd number of bytes, is 0. *)
Lemma ip4sum_appended `{NetDefs} {CL : ChecksumLaws} l :
  Forall is_u8 l → zlen l <= PACKET_BUFFER_SIZE → ip4sum (l ++ null_checksum l) = 0.
Proof.
  intros Hl Hsz. unfold PACKET_BUFFER_SIZE in Hsz.
  assert (zlen (null_checksum l) = 2) as Hn by (unfold zlen, null_checksum; case_match; rewrite ?length_rev, be_put_length; done).
  rewrite ip4sum_rfc1071; [|apply Forall_app; split; [done|apply null_checksum_bytes]|rewrite zlen_app; lia].
  unfold rfc1071. rewrite sum16_checksum, (ip4sum_rfc1071 l Hl) by lia.
  pose proof (sum16_bound l Hl) as Hb. set (S := sum16 l) in *. destruct (fold16_range S) as (Hf & Hm & _); [lia|].
  assert (rfc1071 l = 65535 - fold16 S) as -> by (unfold rfc1071; fold S; apply Z.mod_small; lia). rewrite be_get_put by lia.
  set (X := S + (65535 - fold16 S)). destruct (fold16_range X) as (Hf' & Hm' & Hp); [unfold X; lia|].
  assert (0 < X) as HX. { unfold X. destruct (decide (S = 0)) as [E|]; [rewrite E; vm_compute; reflexivity|lia]. }
  specialize (Hp HX). assert (fold16 X mod 65535 = 0) as Hz.
  { replace (fold16 X) with (fold16 X - X + (65535 - (fold16 S - S))) by (unfold X; lia). rewrite Z.add_mod, Hm', Zminus_mod, Hm by lia. done. }
  assert (fold16 X = 65535) as ->; [|done]. destruct (decide (fold16 X = 65535)); [done|]. rewrite Z.mod_small in Hz by lia. lia.
Qed.

(** The length that a Noise message is limited to. *)
Definition NOISE_MAXMSGLEN : Z := 65535.

(** [d] reads what [c] writes. *)
Definition codec_pair (padlen : Z) (c d : Codec) : Prop :=
  ∀ l m, Forall is_u8 l → zlen l + max_overhead c <= NOISE_MAXMSGLEN → zlen l + max_overhead c <= zlen m → ∃ e, encrypt_transport_stateless c l m = (e ++ drop (length e) m, inr (zlen e)) ∧
    padlen <= zlen e <= zlen l + max_overhead c ∧
    ∀ m', zlen e <= zlen m' → decrypt_transport_stateless d e m' = (l ++ drop (length l) m', inr (zlen l)) ∧ zlen l <= zlen m'.

Section views.
Context {ND : NetDefs} {B3 : Blake3} {BL : Blake3Laws} (M : Z) (HM : 0 < M).
Implicit Types (md : PacketMetadata) (h b t : bytes).

Lemma set_tail_view md h b t t' : set_tail M (of_view M md h b t) t' = of_view M md h b t'.
Proof. unfold set_tail. by rewrite of_view_head, of_view_body. Qed.

Lemma tailroom_view md h b t : tailroom_available M (of_view M md h b t) = zlen t.
Proof. unfold tailroom_available, of_view, destroy. cbn. rewrite !zlen_app. lia. Qed.

Lemma null_checksum_length l : length (null_checksum l) = 2%nat.
Proof. unfold null_checksum. case_match; [|rewrite length_rev]; apply be_put_length. Qed.

Lemma encap_view z md h b t : 0 < zlen h → ∃ g, encap_zpi M z (of_view M md h b t) = Ret (of_view M md g (as_bytes zdpZpiHeader (mk_ZdpZpiHeader z) ++ b) t) ∧ zlen g = zlen h - 1.
Proof.
  intros Hh. assert (zlen (as_bytes zdpZpiHeader (mk_ZdpZpiHeader z)) = 1) as Hl by done.
  destruct (headroom_split h 1) as (g & x & -> & Hx); [lia|]. exists g. unfold encap_zpi.
  rewrite alloc_header_view by lia. split; [done|]. rewrite zlen_app in *. lia.
Qed.

Lemma shrink_app md h b m t : shrink_by (of_view M md h (b ++ m) t) (zlen m) = Ret (of_view M md h b (m ++ t)).
Proof.
  rewrite shrink_view by apply zlen_nonneg. rewrite zlen_app. pose proof (zlen_nonneg b).
  destruct (Z.leb_spec (zlen m) (zlen b + zlen m)); [|lia].
  replace (Z.to_nat (zlen b + zlen m - zlen m)) with (length b) by (unfold zlen; lia). by rewrite take_app_length, drop_app_length.
Qed.

Lemma encrypt_null_view md h x l t : 2 <= zlen t →
  encrypt_null M (of_view M md h (x :: l) t) = Ret (of_view M md h (x :: l ++ null_checksum l) (drop 2 t)).
Proof.
  intros Ht. unfold encrypt_null. rewrite of_view_body. cbn. rewrite put_view. unfold zlen at 1. rewrite null_checksum_length.
  by rewrite (proj2 (Z.leb_le _ _)) by (unfold zlen in *; lia).
Qed.

Lemma decrypt_null_view md h x l t : Forall is_u8 l → zlen l <= PACKET_BUFFER_SIZE → ChecksumLaws →
  decrypt_null M (of_view M md h (x :: l ++ null_checksum l) t) = Ret (of_view M md h (x :: l) (null_checksum l ++ t), inr tt).
Proof.
  intros Hl Hsz HC. unfold decrypt_null. rewrite of_view_body. assert (zlen (null_checksum l) = 2) as Hn by (unfold zlen; by rewrite null_checksum_length).
  rewrite zlen_cons, zlen_app, Hn. pose proof (zlen_nonneg l). destruct (Z.ltb_spec (zlen l + 2 + 1) (1 + 2)); [lia|].
  unfold slice_from. cbn [length Nat.ltb Nat.leb drop mbind outcome_bind]. rewrite ?drop_0, ip4sum_appended by done. cbn [Z.eqb negb].
  rewrite <- Hn, app_comm_cons, shrink_app. done.
Qed.

Lemma link_mac_length k l : length (link_mac k l) = 8%nat.
Proof using BL. unfold link_mac. by rewrite length_take, blake3_keyed_hash_length. Qed.

Lemma encrypt_hmac_view key md h b t : 8 <= zlen t →
  encrypt_hmac M key (of_view M md h b t) = Ret (of_view M md h (b ++ link_mac key b) (drop 8 t)).
Proof using BL.
  intros Ht. unfold encrypt_hmac. rewrite of_view_body, put_view. unfold zlen at 1. rewrite link_mac_length.
  by rewrite (proj2 (Z.leb_le _ _)) by (unfold zlen in *; lia).
Qed.

Lemma decrypt_hmac_view key md h b m t : length m = 8%nat →
  decrypt_hmac M key (of_view M md h (b ++ m) t) =
    Ret (of_view M md h b (m ++ t), if bool_decide (link_mac key b = m) then inr tt else inl DeMicvFailure).
Proof.
  intros Hm. unfold decrypt_hmac. rewrite of_view_body, zlen_app. pose proof (zlen_nonneg b). change (Z.of_nat ZDP_PACKET_MAC_SIZE) with 8.
  assert (zlen m = 8) as Hz by (unfold zlen; lia). destruct (Z.ltb_spec (zlen b + zlen m) 8); [lia|].
  unfold slice_from. rewrite length_app, Hm. change ZDP_PACKET_MAC_SIZE with 8%nat.
  replace (length b + 8 - 8)%nat with (length b) by lia. destruct (Nat.ltb_spec (length b + 8) (length b)); [lia|].
  cbn [mbind outcome_bind]. rewrite drop_app_length, <- Hz, shrink_app. cbn [mbind outcome_bind]. by rewrite of_view_body.
Qed.

Lemma decrypt_hmac_short key md h b t : zlen b < 8 → decrypt_hmac M key (of_view M md h b t) = Ret (of_view M md h b t, inl DeBadStructure).
Proof. intros Hb. unfold decrypt_hmac. rewrite of_view_body. change (Z.of_nat ZDP_PACKET_MAC_SIZE) with 8. destruct (Z.ltb_spec (zlen b) 8); [done|lia]. Qed.

(** Both paths of [encrypt_full], in place and through a buffer. *)
Lemma encrypt_full_view padlen c d md h x l t :
  Forall is_u8 l → codec_pair padlen c d → 0 <= max_overhead c <= zlen t → zlen l + max_overhead c <= PACKET_BUFFER_SIZE →
  ∃ e g t', encrypt_full M c (of_view M md h (x :: l) t) = Ret (of_view M md g (x :: e) t', inr tt) ∧
    padlen <= zlen e <= zlen l + max_overhead c ∧ zlen h <= zlen g ∧ zlen h + zlen l + zlen t = zlen g + zlen e + zlen t' ∧
    (∀ m', zlen e <= zlen m' → decrypt_transport_stateless d e m' = (l ++ drop (length l) m', inr (zlen l)) ∧ zlen l <= zlen m').
Proof using HM.
  intros Hl Hp Ho Hsize. assert (zlen l + max_overhead c <= NOISE_MAXMSGLEN) as Hn by (unfold PACKET_BUFFER_SIZE, NOISE_MAXMSGLEN in *; lia). unfold encrypt_full. rewrite of_view_body, tailroom_view, zlen_cons. pose proof (zlen_nonneg l).
  destruct (Z.ltb_spec (zlen l + 1) 1); [lia|]. cbn [drop]. rewrite ?drop_0. replace (zlen l + 1 - 1) with (zlen l) by lia.
  destruct (Z.leb_spec (zlen l + max_overhead c) (zlen t)) as [Hin|Hout].
  - rewrite of_view_tail. destruct (Hp l t Hl Hn Hin) as (e & -> & He & Hd). cbv beta iota zeta. rewrite set_tail_view. pose proof (zlen_nonneg e).
    destruct (adopt_view M md h [x] l (drop (length e) t) e HM) as (g & E & Hg). change (zlen [x]) with 1 in E.
    change ([x] ++ l) with (x :: l) in E. rewrite E. cbn [mbind outcome_bind].
    exists e, g, (drop (length e) t). split; [done|]. split; [lia|]. split; [lia|]. split; [|done].
    rewrite Hg. unfold zlen in *. rewrite length_drop. lia.
  - destruct (Hp l (replicate (Z.to_nat PACKET_BUFFER_SIZE) 0) Hl Hn) as (e & -> & He & Hd).
    { unfold zlen at 2. rewrite length_replicate. unfold PACKET_BUFFER_SIZE in *. lia. }
    cbv beta iota zeta. change (x :: l) with ([x] ++ l). rewrite shrink_app. cbn [mbind outcome_bind]. pose proof (zlen_nonneg e).
    unfold slice_to. rewrite zlen_app. destruct (Z.ltb_spec (zlen e + zlen (drop (length e) (replicate (Z.to_nat PACKET_BUFFER_SIZE) 0))) (zlen e)) as [Hx|_];
      [pose proof (zlen_nonneg (drop (length e) (replicate (Z.to_nat PACKET_BUFFER_SIZE) 0))); lia|].
    cbn [mbind outcome_bind]. rewrite take_app_length' by (unfold zlen; lia). rewrite put_view, zlen_app.
    destruct (Z.leb_spec (zlen e) (zlen l + zlen t)); [|lia]. cbn [mbind outcome_bind].
    exists e, h, (drop (length e) (l ++ t)). split; [done|]. split; [lia|]. split; [lia|]. split; [|done].
    unfold zlen in *. rewrite length_drop, length_app. lia.
Qed.

Lemma decrypt_full_view d padlen md h x e l t :
  padlen <= zlen e <= PACKET_BUFFER_SIZE →
  (∀ m', zlen e <= zlen m' → decrypt_transport_stateless d e m' = (l ++ drop (length l) m', inr (zlen l)) ∧ zlen l <= zlen m') →
  ∃ g t', decrypt_full M d padlen (of_view M md h (x :: e) t) = Ret (of_view M md g (x :: l) t', inr tt) ∧
    zlen h <= zlen g ∧ zlen h + zlen e + zlen t = zlen g + zlen l + zlen t'.
Proof using HM.
  intros Hp Hd. unfold decrypt_full. rewrite of_view_body, tailroom_view, zlen_cons. pose proof (zlen_nonneg e). pose proof (zlen_nonneg l).
  destruct (Z.ltb_spec (zlen e + 1) 1); [lia|]. replace (zlen e + 1 - 1) with (zlen e) by lia.
  destruct (Z.ltb_spec (zlen e) padlen); [lia|]. cbn [drop]. rewrite ?drop_0.
  assert (zlen l <= zlen e) as Hle.
  { destruct (Hd (replicate (length e) 0)) as [_ Hx]; unfold zlen in *; rewrite length_replicate in *; lia. }
  destruct (Z.leb_spec (zlen e) (zlen t)) as [Hin|Hout].
  - rewrite of_view_tail. destruct (Hd t Hin) as [-> _]. cbv beta iota zeta. rewrite set_tail_view.
    destruct (adopt_view M md h [x] e (drop (length l) t) l HM) as (g & E & Hg). change (zlen [x]) with 1 in E.
    change ([x] ++ e) with (x :: e) in E. rewrite E. cbn [mbind outcome_bind]. exists g, (drop (length l) t). split; [done|]. split; [lia|].
    rewrite Hg. unfold zlen in *. rewrite length_drop. lia.
  - destruct (Hd (replicate (Z.to_nat PACKET_BUFFER_SIZE) 0)) as [-> _].
    { unfold zlen at 2. rewrite length_replicate. unfold PACKET_BUFFER_SIZE in *. lia. }
    cbv beta iota zeta. change (x :: e) with ([x] ++ e). rewrite shrink_app. cbn [mbind outcome_bind].
    unfold slice_to. rewrite zlen_app. destruct (Z.ltb_spec (zlen l + zlen (drop (length l) (replicate (Z.to_nat PACKET_BUFFER_SIZE) 0))) (zlen l)) as [Hx|_];
      [pose proof (zlen_nonneg (drop (length l) (replicate (Z.to_nat PACKET_BUFFER_SIZE) 0))); lia|].
    cbn [mbind outcome_bind]. rewrite take_app_length' by (unfold zlen; lia). rewrite put_view, zlen_app.
    pose proof (zlen_nonneg t). destruct (Z.leb_spec (zlen l) (zlen e + zlen t)); [|lia]. cbn [mbind outcome_bind].
    exists h, (drop (length l) (e ++ t)). split; [done|]. split; [lia|]. unfold zlen in *. rewrite length_drop, length_app. lia.
Qed.
End views.

(** C7: What one end of a link protects, the other end reads, in each of the
    three ways: a MAC for transit packets, the codec's encryption for the other
    messages (in the packet's own tailroom or through a buffer, on either side),
    and without an association the checksum, whose bytes are swapped behind an odd
    number of bytes so that the whole sums to zero.  Whatever the buffers are, the
    receiver has the ZPI and the message, byte for byte. *)
Theorem protect_decrypt {ND : NetDefs} {B3 : Blake3} {BL : Blake3Laws} {CL : ChecksumLaws} {C : Type} (M : Z) (noise transit : bool)
    (sa : option (KmTransportSA C * KmTransportSA C)) (z : Z) (l : bytes) (md : PacketMetadata) (h t : bytes) :
  0 < M → Forall is_u8 l → 8 <= zlen t → zlen l <= PACKET_BUFFER_SIZE →
  (∀ out in_, sa = Some (out, in_) →
     recv_zpis in_ = send_zpis out ∧ recv_hmac_key in_ = send_hmac_key out ∧ hmac (send_zpis out) ≠ encr (send_zpis out) ∧
     z = (if transit then hmac else encr) (send_zpis out) ∧
     codec_pair (if noise then NOISE_PADLEN else 0) (codec out) (codec in_) ∧ 0 <= max_overhead (codec out) <= zlen t ∧
     zlen l + max_overhead (codec out) <= PACKET_BUFFER_SIZE) →
  ∃ q, protect M (fst <$> sa) transit (of_view M md h (z :: l) t) = Ret (q, inr tt) ∧
    ∀ md' h' t', ∃ q', body M q' = z :: l ∧
      match sa with
      | Some (_, in_) => decrypt_with_sa M noise z in_
      | None => decrypt_null M
      end (of_view M md' h' (body M q) t') = Ret (q', inr tt).
Proof.
  intros HM Hl Ht Hsz Hsa. destruct sa as [[out in_]|]; cbn [fmap option_fmap option_map fst protect].
  - destruct (Hsa _ _ eq_refl) as (Hz & Hk & Hne & -> & Hc & Ho & Hsz'). unfold decrypt_with_sa. rewrite Hz, Hk. destruct transit.
    + rewrite encrypt_hmac_view by done. cbn [mbind outcome_bind]. eexists. split; [done|]. intros md' h' t'. rewrite of_view_body, Z.eqb_refl.
      rewrite decrypt_hmac_view, bool_decide_true by (done || apply link_mac_length). eexists. split; [|done]. apply of_view_body.
    + destruct (encrypt_full_view M HM _ _ _ md h (encr (send_zpis out)) l t Hl Hc Ho Hsz') as (e & g & t1 & -> & He & _ & _ & Hd). eexists. split; [done|].
      intros md' h' t'. rewrite of_view_body, (proj2 (Z.eqb_neq _ _) (not_eq_sym Hne)), Z.eqb_refl.
      destruct (decrypt_full_view M HM (codec in_) (if noise then NOISE_PADLEN else 0) md' h' (encr (send_zpis out)) e l t') as (g' & t2 & -> & _); [lia|done|].
      eexists. split; [|done]. apply of_view_body.
  - rewrite encrypt_null_view by lia. cbn [mbind outcome_bind]. eexists. split; [done|]. intros md' h' t'. rewrite of_view_body, decrypt_null_view by done.
    eexists. split; [|done]. apply of_view_body.
Qed.

(** ** A concrete hash and codec, for examples

    The hash is a polynomial in the bytes, the codec adds its key to each byte
    and appends one byte. *)
Definition poly (l : bytes) : Z := fold_left (λ acc b, (acc * 257 + b + 1) mod 2 ^ 256) l 7.

#[export] Instance sample_blake3 : Blake3 := {|
  blake3_hash l := rev (be_put 32 (poly l));
  blake3_keyed_hash k l := rev (be_put 32 (poly (k ++ l)));
|}.

#[export] Instance sample_blake3_laws : Blake3Laws.
Proof. split; [intros l; change (length (rev (be_put 32 (poly l))) = 32%nat)|intros k l; change (length (rev (be_put 32 (poly (k ++ l)))) = 32%nat)]; by rewrite length_rev, be_put_length. Qed.

(** [e] written to the front of [m], when it fits. *)
Definition write_front {E} (e m : bytes) (too_small : E) : bytes * (E + Z) :=
  if zlen m <? zlen e then (m, inl too_small) else (e ++ drop (length e) m, inr (zlen e)).

Definition shift_codec (k : Z) : Codec := mk_codec 1
  (λ l m, write_front (map (λ b, (b + k) mod 256) l ++ [k mod 256]) m EncMessageTooLarge)
  (λ l m, write_front (map (λ b, (b - k) mod 256) (take (length l - 1) l)) m DecMessageTooShort).

#[export] Instance sample_checksum_laws : ChecksumLaws.
Proof. by split. Qed.

Lemma shift_codec_pair k : 0 <= k → codec_pair 0 (shift_codec k) (shift_codec k).
Proof.
  intros Hk l m Hl _ Hm. cbn [max_overhead shift_codec encrypt_transport_stateless decrypt_transport_stateless] in *.
  set (e := map (λ b, (b + k) mod 256) l ++ [k mod 256]). assert (length e = S (length l)) as He by (unfold e; rewrite length_app, length_map; cbn; lia).
  assert (zlen e = zlen l + 1) as Hz by (unfold zlen; lia). exists e. unfold write_front. pose proof (zlen_nonneg l). destruct (Z.ltb_spec (zlen m) (zlen e)); [lia|].
  split; [done|]. split; [lia|]. intros m' Hm'. rewrite He. replace (S (length l) - 1)%nat with (length l) by lia. unfold e. rewrite take_app_length' by (by rewrite length_map).
  rewrite map_map. assert (map (λ x, ((x + k) mod 256 - k) mod 256) l = l) as ->.
  { clear -Hl. induction Hl as [|x l Hx Hl IH]; [done|]. cbn [map]. rewrite IH. f_equal. rewrite Zminus_mod_idemp_l. replace (x + k - k) with x by lia. apply Z.mod_small, Hx. }
  destruct (Z.ltb_spec (zlen m') (zlen l)); [lia|]. split; [done|lia].
Qed.

Definition sample_out : KmTransportSA unit := sa_new (mk_zpi_pair 1 2) (mk_zpi_pair 3 4) (replicate 32 5) (replicate 32 6) (shift_codec 9) None.
Definition sample_in : KmTransportSA unit := sa_new (mk_zpi_pair 3 4) (mk_zpi_pair 1 2) (replicate 32 6) (replicate 32 5) (shift_codec 9) None.

Lemma protect_decrypt_witness :
  (∃ q, protect 96 (Some sample_out) false (of_view 96 sample_metadata [] [1; 130; 7; 8] (replicate 16 0)) = Ret (q, inr tt) ∧
    ∀ md' h' t', ∃ q', body 96 q' = [1; 130; 7; 8] ∧ decrypt_with_sa 96 false 1 sample_in (of_view 96 md' h' (body 96 q) t') = Ret (q', inr tt)) ∧
  ∃ q, protect 96 (None : option (KmTransportSA unit)) false (of_view 96 sample_metadata [] [0; 130; 7; 8] (replicate 16 0)) = Ret (q, inr tt) ∧
    ∀ md' h' t', ∃ q', body 96 q' = [0; 130; 7; 8] ∧ decrypt_null 96 (of_view 96 md' h' (body 96 q) t') = Ret (q', inr tt).
Proof.
  split; [|apply (protect_decrypt 96 false false (None : option (KmTransportSA unit * KmTransportSA unit)) 0 [130; 7; 8] sample_metadata [] (replicate 16 0));
    [lia|repeat constructor; lia|vm_compute; congruence|vm_compute; congruence|done]].
  apply (protect_decrypt 96 false false (Some (sample_out, sample_in)) 1 [130; 7; 8] sample_metadata [] (replicate 16 0));
    [lia|repeat constructor; lia|vm_compute; congruence|vm_compute; congruence|].
  intros out in_ [= <- <-]. split_and!; try reflexivity; try (vm_compute; congruence). apply shift_codec_pair. lia.
Defined.
