(* ===== verification/Queues.v ===== *)
(** The queues between management and the fast path:
    [src/adapter/ph/src/sys/posix/notify.rs], [packet_queue.rs] and
    [two_way_queue.rs].

    A queue is a channel of the [tokio] crate with a [Notify] beside it, which the
    receiver polls.  The operations are whole functions; [Race] takes them apart
    into the accesses that other threads can come between. *)
From S2P Require Import Prelude Zdp NetDefs PacketBuf.

(** ** [Notify]: a pipe that holds some bytes or none *)

Definition PIPE_READ : Z := 4096.

Section notify.
(** The capacity of the pipe. *)
Context (pipe_capacity : Z).

(** The bytes in the pipe. *)
Definition Notify : Type := Z.
Definition notify_new : Notify := 0.

Definition post (n : Notify) : Notify := if n <? pipe_capacity then n + 1 else n.

(** The loop that reads what was there when [FIONREAD] was asked. *)
Fixpoint drain (fuel : nat) (remaining : Z) (n : Notify) : option Notify :=
  if remaining <=? 0 then Some n
  else
    match fuel with
    | O => None
    | S fuel =>
        if n =? 0 then Some n
        else if n <? PIPE_READ then Some 0
        else drain fuel (remaining - PIPE_READ) (n - PIPE_READ)
    end.

Definition consume (n : Notify) : Notify * bool :=
  if n =? 0 then (0, false)
  else if n <? PIPE_READ then (0, true)
  else
    let n := n - PIPE_READ in
    (default n (drain (Z.to_nat n) n n), true).

Lemma drain_empties fuel n : 0 <= n → (Z.to_nat n <= fuel)%nat → drain fuel n n = Some 0.
Proof.
  revert n. induction fuel as [|fuel IH]; intros n Hn Hf; cbn [drain]; destruct (Z.leb_spec n 0); [f_equal; lia|lia|f_equal; lia|].
  destruct (Z.eqb_spec n 0); [f_equal; lia|]. unfold PIPE_READ in *. destruct (Z.ltb_spec n 4096); [done|]. apply IH; lia.
Qed.

(** [consume] terminates, takes every notification, and says whether there was one. *)
Lemma consume_all n : 0 <= n → consume n = (0, 0 <? n).
Proof.
  intros Hn. unfold consume, PIPE_READ. destruct (Z.eqb_spec n 0) as [->|]; [done|]. destruct (Z.ltb_spec 0 n); [|lia].
  destruct (Z.ltb_spec n 4096); [done|]. by rewrite drain_empties by lia.
Qed.

Lemma post_pos n : 0 < pipe_capacity → 0 <= n → 0 < post n.
Proof. unfold post. destruct (Z.ltb_spec n pipe_capacity); lia. Qed.

(** ** [tokio::sync::mpsc] *)

Record Chan (A : Type) : Type := mk_chan { chan_cap : Z; chan_msgs : list A; chan_closed : bool }.
#[global] Arguments mk_chan {A} _ _ _.
#[global] Arguments chan_cap {A} _.
#[global] Arguments chan_msgs {A} _.
#[global] Arguments chan_closed {A} _.

Definition chan_new {A} (cap : Z) : Chan A := mk_chan cap [] false.
Definition with_msgs {A} (c : Chan A) (l : list A) : Chan A := mk_chan (chan_cap c) l (chan_closed c).

Inductive ChanError : Type := ChanFull | ChanClosed.

Definition chan_try_send {A} (c : Chan A) (a : A) : ChanError + Chan A :=
  if chan_closed c then inl ChanClosed
  else if chan_cap c <=? zlen (chan_msgs c) then inl ChanFull
  else inr (with_msgs c (chan_msgs c ++ [a])).

Definition chan_try_recv {A} (c : Chan A) : option (A * Chan A) :=
  match chan_msgs c with [] => None | a :: l => Some (a, with_msgs c l) end.

(** ** [packet_queue]: copies of packets, from management to the fast path *)

Section packet_queue.
Context {ND : NetDefs} (MIN_BODY_OFFSET : Z) (BUFSIZE : Z).

Record PacketQueue : Type := mk_packet_queue { pq_chan : Chan PacketBuffer; pq_notify : Notify }.

Definition packet_queue (depth : Z) : PacketQueue := mk_packet_queue (chan_new depth) notify_new.

Inductive TrySendError : Type := TsFull | TsClosed | TsOversize.

(** [packet.serialize(&mut [0u8; BUFSIZE][..])] *)
Definition serialize_array (p : Packet) : option PacketBuffer :=
  match PacketBuf.serialize MIN_BODY_OFFSET p BUFSIZE with
  | Some (Buffer md b) => Some (Buffer md (b ++ replicate (Z.to_nat (BUFSIZE - MIN_BODY_OFFSET - zlen b)) 0))
  | r => r
  end.

Definition pq_try_send (q : PacketQueue) (p : Packet) : PacketQueue * (TrySendError + unit) :=
  match serialize_array p with
  | None => (q, inl TsOversize)
  | Some buf =>
      match chan_try_send (pq_chan q) buf with
      | inl ChanFull => (q, inl TsFull)
      | inl ChanClosed => (q, inl TsClosed)
      | inr c => (mk_packet_queue c (post (pq_notify q)), inr tt)
      end
  end.

Inductive TryRecvError : Type := TrEmpty (buf : PacketBuffer) | TrDisconnected (buf : PacketBuffer) | TrOversize (buf : PacketBuffer).

Definition pq_try_recv (q : PacketQueue) (pkt_buf : PacketBuffer) : outcome (PacketQueue * (TryRecvError + Packet)) :=
  let '(n, there) := consume (pq_notify q) in
  let q := mk_packet_queue (pq_chan q) n in
  if negb there then Ret (q, inl (TrEmpty pkt_buf))
  else
    let avail := zlen (chan_msgs (pq_chan q)) in
    if avail =? 0 then Ret (q, inl (TrEmpty pkt_buf))
    else
      match chan_try_recv (pq_chan q) with
      | None => Ret (q, inl (TrEmpty pkt_buf))
      | Some (buf, c) =>
          let q := mk_packet_queue c (if 1 <? avail then post (pq_notify q) else pq_notify q) in
          match deserialize_into MIN_BODY_OFFSET buf pkt_buf with
          | inr pkt => Ret (q, inr pkt)
          | inl (BufferTooSmall pkt_buf) => Ret (q, inl (TrOversize pkt_buf))
          | inl (InvalidSerialization _) => Panic
          end
      end.
End packet_queue.

(** ** [two_way_queue]: packets lent to management, whose buffers come back *)

Section two_way_queue.
Context {T U : Type} (convert : T → U).

Record ReturnQueue : Type := mk_return_queue { incoming_return_q : list U; rq_notify : Notify; outstanding : Z }.

Definition return_queue_new : ReturnQueue := mk_return_queue [] notify_new 0.

(** Items carry the return queue they go back to, by its number. *)
Definition ServiceQueue : Type := Chan (T * nat).

Inductive TwoWaySendError : Type := TwFull (item : T) | TwClosed (item : T).

Definition tw_try_send (c : ServiceQueue) (r : ReturnQueue) (me : nat) (item : T)
    : ServiceQueue * ReturnQueue * (TwoWaySendError + unit) :=
  match chan_try_send c (item, me) with
  | inr c => (c, mk_return_queue (incoming_return_q r) (rq_notify r) (wrap64 (outstanding r + 1)), inr tt)
  | inl ChanFull => (c, r, inl (TwFull item))
  | inl ChanClosed => (c, r, inl (TwClosed item))
  end.

(** [recv] and [try_recv]: the guard is the item with its return queue. *)
Definition tw_recv (c : ServiceQueue) : option ((T * nat) * ServiceQueue) := chan_try_recv c.

(** [Drop for ItemGuard] *)
Definition guard_drop (r : ReturnQueue) (item : T) : ReturnQueue :=
  mk_return_queue (incoming_return_q r ++ [convert item]) (post (rq_notify r)) (outstanding r).

Definition try_recv_return (r : ReturnQueue) : ReturnQueue * option U :=
  let '(n, there) := consume (rq_notify r) in
  if negb there then (mk_return_queue (incoming_return_q r) n (outstanding r), None)
  else
    let avail := zlen (incoming_return_q r) in
    match incoming_return_q r with
    | [] => (mk_return_queue [] n (outstanding r), None)
    | u :: l => (mk_return_queue l (if 1 <? avail then post n else n) (wrap64 (outstanding r - 1)), Some u)
    end.

(** [blocking_recv_many] takes what is there, up to the limit. *)
Definition try_recv_many_returns (r : ReturnQueue) (limit : nat) : ReturnQueue * list U :=
  let '(n, there) := consume (rq_notify r) in
  if negb there then (mk_return_queue (incoming_return_q r) n (outstanding r), [])
  else
    let avail := zlen (incoming_return_q r) in
    if avail =? 0 then (mk_return_queue (incoming_return_q r) n (outstanding r), [])
    else
      let returns := take limit (incoming_return_q r) in
      (mk_return_queue (drop limit (incoming_return_q r)) (if zlen returns <? avail then post n else n)
         (wrap64 (outstanding r - zlen returns)), returns).
End two_way_queue.

Lemma nil_or_not {X} (l : list X) : l = [] ∨ l ≠ [].
Proof. destruct l; [by left|by right]. Qed.

(** ** [Race]: the receiver's accesses, with senders in between *)

Section race.
Context {A : Type} (limit : nat) (early : bool).

(** Where the receiver is in [try_recv], [try_recv_return] or
    [try_recv_many_returns]: outside; in [consume] after a full first read; in
    its loop; after it; knowing [avail]; having taken [k] items. *)
Inductive rx_pc : Type :=
| RxIdle
| RxFullRead
| RxDraining (remaining : Z)
| RxConsumed
| RxCounted (avail : nat)
| RxTook (avail k : nat).

(** The pipe, the channel, the senders between [send] and [post], the
    receiver, and the items sent and received so far. *)
Record race : Type := mk_race {
  r_pipe : Z;
  r_chan : list A;
  r_owed : nat;
  r_pc : rx_pc;
  r_sent : list A;
  r_recvd : list A;
}.

Definition race_init : race := mk_race 0 [] 0 RxIdle [] [].

Definition at_pc (s : race) (pipe : Z) (pc : rx_pc) : race := mk_race pipe (r_chan s) (r_owed s) pc (r_sent s) (r_recvd s).

(** The receiver's next access.  [early] is the return when there are no items
    ([try_recv], [try_recv_many_returns]); [limit] is 1 but for the last. *)
Definition rx_step (s : race) : race :=
  let n := r_pipe s in
  match r_pc s with
  | RxIdle =>
      if n =? 0 then s
      else if n <? PIPE_READ then at_pc s 0 RxConsumed
      else at_pc s (n - PIPE_READ) RxFullRead
  | RxFullRead => at_pc s n (RxDraining n)
  | RxDraining remaining =>
      if remaining <=? 0 then at_pc s n RxConsumed
      else if n =? 0 then at_pc s n RxConsumed
      else if n <? PIPE_READ then at_pc s 0 RxConsumed
      else at_pc s (n - PIPE_READ) (RxDraining (remaining - PIPE_READ))
  | RxConsumed =>
      let avail := length (r_chan s) in
      if early && (avail =? 0)%nat then at_pc s n RxIdle else at_pc s n (RxCounted avail)
  | RxCounted avail =>
      let got := take limit (r_chan s) in
      mk_race n (drop limit (r_chan s)) (r_owed s) (RxTook avail (length got)) (r_sent s) (r_recvd s ++ got)
  | RxTook avail k => at_pc s (if (k <? avail)%nat then post n else n) RxIdle
  end.

(** A sender's [send] and its later [post], and the receiver's next access. *)
Inductive race_step : race → race → Prop :=
| rs_send s a :
    race_step s (mk_race (r_pipe s) (r_chan s ++ [a]) (S (r_owed s)) (r_pc s) (r_sent s ++ [a]) (r_recvd s))
| rs_post s owed :
    r_owed s = S owed →
    race_step s (mk_race (post (r_pipe s)) (r_chan s) owed (r_pc s) (r_sent s) (r_recvd s))
| rs_recv s : race_step s (rx_step s).

Definition reachable (s : race) : Prop := rtc race_step race_init s.

(** A wake-up is there or on its way. *)
Definition signalled (s : race) : Prop := 0 < r_pipe s ∨ (0 < r_owed s)%nat.

Record race_inv (s : race) : Prop := mk_race_inv {
  inv_pipe : 0 <= r_pipe s;
  inv_order : r_recvd s ++ r_chan s = r_sent s;
  inv_wake :
    match r_pc s with
    | RxIdle => r_chan s ≠ [] → signalled s
    | RxCounted avail => (avail <= length (r_chan s))%nat ∧ ((avail < length (r_chan s))%nat → signalled s)
    | RxTook avail k => (avail <= k)%nat → r_chan s ≠ [] → signalled s
    | _ => True
    end;
}.

Lemma race_init_inv : race_inv race_init.
Proof. split; [done|done|]. by intros ?. Qed.

Lemma post_nonneg n : 0 <= n → 0 <= post n.
Proof. unfold post. case_match; lia. Qed.

Lemma send_inv s a : race_inv s → race_inv (mk_race (r_pipe s) (r_chan s ++ [a]) (S (r_owed s)) (r_pc s) (r_sent s ++ [a]) (r_recvd s)).
Proof.
  intros [Hp Ho Hw]. split; cbn; [done|by rewrite <- Ho, app_assoc|].
  assert (∀ s' : race, (0 < r_owed s')%nat → signalled s') as Hs by (intros; by right).
  destruct (r_pc s); try done; try (intros; apply Hs; cbn; lia). rewrite length_app. split; [lia|]. intros. apply Hs. cbn. lia.
Qed.

Hypothesis Hcap : 0 < pipe_capacity.

Lemma post_signals s owed : 0 <= r_pipe s → signalled (mk_race (post (r_pipe s)) (r_chan s) owed (r_pc s) (r_sent s) (r_recvd s)).
Proof using Hcap. intros Hp. left. cbn. by apply post_pos. Qed.

Lemma post_inv s owed : race_inv s → race_inv (mk_race (post (r_pipe s)) (r_chan s) owed (r_pc s) (r_sent s) (r_recvd s)).
Proof using Hcap.
  intros [Hp Ho Hw]. pose proof (post_signals s owed Hp) as Hs. split; cbn; [by apply post_nonneg|done|].
  destruct (r_pc s); try done. by destruct Hw.
Qed.

Hypothesis Hlimit : (0 < limit)%nat.

Lemma receive_inv s : race_inv s → race_inv (rx_step s).
Proof using Hcap Hlimit.
  intros [Hp Ho Hw]. unfold rx_step, PIPE_READ. destruct (r_pc s) eqn:Epc.
  - destruct (Z.eqb_spec (r_pipe s) 0); [split; rewrite ?Epc; done|]. destruct (Z.ltb_spec (r_pipe s) 4096); split; cbn; done || lia.
  - by split.
  - repeat case_match; split; cbn; try done; lia.
  - destruct (early && _) eqn:E; split; cbn; try done.
    + apply andb_true_iff in E as [_ E]. apply Nat.eqb_eq, length_zero_iff_nil in E. by rewrite E.
    + split; [lia|]. lia.
  - destruct Hw as [Ha Hs]. split; cbn; [done|by rewrite <- app_assoc, take_drop|].
    intros Hk Hne. apply Hs. rewrite length_take in Hk. destruct (decide (limit < length (r_chan s))%nat); [lia|].
    rewrite drop_ge in Hne by lia. done.
  - destruct (Nat.ltb_spec k avail); split; cbn; try done.
    + by apply post_nonneg.
    + intros _. left. by apply post_pos.
    + intros Hne. by apply Hw.
Qed.

Lemma reachable_inv s : reachable s → race_inv s.
Proof using Hcap Hlimit.
  apply (rtc_ind_r (λ s, race_inv s)); [apply race_init_inv|]. intros s1 s2 _ [s' a|s' owed ?|s'] Hi; [by apply send_inv|by apply post_inv|by apply receive_inv].
Qed.

(** The receiver on its own. *)
Fixpoint rx_run (fuel : nat) (s : race) : race := match fuel with O => s | S fuel => rx_run fuel (rx_step s) end.

Lemma rx_run_add n m s : rx_run (n + m) s = rx_run m (rx_run n s).
Proof. revert s. induction n as [|n IH]; intros s; cbn; [done|apply IH]. Qed.

Lemma rx_run_steps n s : rtc race_step s (rx_run n s).
Proof. revert s. induction n as [|n IH]; intros s; cbn; [done|]. eapply rtc_l; [apply rs_recv|apply IH]. Qed.

Lemma drain_run s r : r_pc s = RxDraining r → 0 <= r_pipe s <= r → ∃ n, rx_run n s = at_pc s 0 RxConsumed.
Proof using.
  clear Hcap Hlimit.   remember (Z.to_nat r) as k eqn:Ek. revert s r Ek. induction k as [k IH] using lt_wf_ind. intros s r -> Epc Hp.
  assert (∀ s', rx_step s = s' → (∃ n, rx_run n s' = at_pc s 0 RxConsumed) → ∃ n, rx_run n s = at_pc s 0 RxConsumed) as Hstep.
  { intros s' <- [n Hn]. by exists (S n). }
  destruct (decide (r_pipe s < 4096)) as [Hlt|Hge].
  - exists 1%nat. cbn. unfold rx_step, PIPE_READ. rewrite Epc.
    destruct (Z.leb_spec r 0); [f_equal; lia|]. destruct (Z.eqb_spec (r_pipe s) 0) as [->|]; [done|]. destruct (Z.ltb_spec (r_pipe s) 4096); [done|lia].
  - eapply Hstep; [unfold rx_step, PIPE_READ; rewrite Epc|].
    { destruct (Z.leb_spec r 0); [lia|]. destruct (Z.eqb_spec (r_pipe s) 0); [lia|]. destruct (Z.ltb_spec (r_pipe s) 4096); [lia|]. done. }
    destruct (IH (Z.to_nat (r - 4096)) ltac:(lia) (at_pc s (r_pipe s - 4096) (RxDraining (r - 4096))) (r - 4096)) as [n Hn]; [done|done|cbn; lia|].
    exists n. by rewrite Hn.
Qed.

Lemma consume_run s : r_pc s = RxIdle → 0 <= r_pipe s → ∃ n, rx_run n s = if 0 <? r_pipe s then at_pc s 0 RxConsumed else s.
Proof using.
  clear Hcap Hlimit.   intros Epc Hp. destruct (Z.ltb_spec 0 (r_pipe s)); [|by exists 0%nat]. destruct (decide (r_pipe s < 4096)) as [Hlt|Hge].
  - exists 1%nat. cbn. unfold rx_step, PIPE_READ. rewrite Epc. destruct (Z.eqb_spec (r_pipe s) 0); [lia|]. destruct (Z.ltb_spec (r_pipe s) 4096); [done|lia].
  - destruct (drain_run (at_pc s (r_pipe s - 4096) (RxDraining (r_pipe s - 4096))) (r_pipe s - 4096)) as [m Hm]; [done|cbn; lia|].
    exists (S (S m)). cbn [rx_run]. unfold rx_step at 2, PIPE_READ. rewrite Epc. destruct (Z.eqb_spec (r_pipe s) 0); [lia|]. destruct (Z.ltb_spec (r_pipe s) 4096); [lia|].
    exact Hm.
Qed.

(** What one whole call does when nothing comes between its accesses. *)
Definition rx_call (s : race) : race :=
  if 0 <? r_pipe s then
    let got := take limit (r_chan s) in
    mk_race (if (length got <? length (r_chan s))%nat then post 0 else 0) (drop limit (r_chan s)) (r_owed s) RxIdle (r_sent s) (r_recvd s ++ got)
  else s.

Lemma call_run s : r_pc s = RxIdle → 0 <= r_pipe s → ∃ n, rx_run n s = rx_call s.
Proof using.
  intros Epc Hp. destruct (consume_run s Epc Hp) as [n Hn]. unfold rx_call. destruct (0 <? r_pipe s); [|by exists n].
  destruct (early && (length (r_chan s) =? 0)%nat) eqn:E.
  - exists (n + 1)%nat. rewrite rx_run_add, Hn. cbn. rewrite E. apply andb_true_iff in E as [_ E].
    apply Nat.eqb_eq, length_zero_iff_nil in E. rewrite E, take_nil, drop_nil, app_nil_r. unfold at_pc. cbn. by rewrite E.
  - exists (n + 3)%nat. rewrite rx_run_add, Hn. cbn [rx_run]. unfold rx_step at 3. cbn [r_pc at_pc r_chan]. by rewrite E.
Qed.

(** Called often enough, the receiver gets everything that was sent. *)
Lemma calls_deliver k s : (length (r_chan s) <= k)%nat → r_pc s = RxIdle → 0 <= r_pipe s → (r_chan s ≠ [] → 0 < r_pipe s) →
  ∃ n, r_chan (rx_run n s) = [] ∧ r_recvd (rx_run n s) = r_recvd s ++ r_chan s.
Proof using Hcap Hlimit.
  revert s. induction k as [|k IH]; intros s Hk Epc Hp Hw.
  { exists 0%nat. destruct (r_chan s) eqn:E; cbn in *; [|lia]. by rewrite app_nil_r. }
  destruct (nil_or_not (r_chan s)) as [E|E]; [exists 0%nat; cbn; by rewrite E, app_nil_r|]. specialize (Hw E).
  destruct (call_run s Epc Hp) as [n Hn]. unfold rx_call in Hn. destruct (Z.ltb_spec 0 (r_pipe s)); [|lia]. cbv zeta in Hn.
  assert (0 < length (r_chan s))%nat as Hl by (destruct (r_chan s); cbn; [done|lia]).
  destruct (IH (rx_run n s)) as (m & H1 & H2).
  - rewrite Hn. cbn. rewrite length_drop. lia.
  - by rewrite Hn.
  - rewrite Hn. cbn [r_pipe]. case_match; [by apply post_nonneg|lia].
  - rewrite Hn. cbn [r_pipe r_chan]. intros Hne. rewrite length_take. destruct (Nat.ltb_spec (limit `min` length (r_chan s)) (length (r_chan s))); [by apply post_pos|].
    rewrite drop_ge in Hne by lia. done.
  - exists (n + m)%nat. rewrite rx_run_add, H1, H2, Hn. cbn. by rewrite <- app_assoc, take_drop.
Qed.
End race.
End notify.

(** C14: A wake-up between a sender and the polling receiver is never lost,
    however [send] and [post] of any number of senders and the accesses of the
    receiver interleave: items arrive once, in order; when the receiver is
    outside its calls, every sender has posted and items are queued, the pipe
    is readable; and then the receiver alone gets every one of them. *)
Theorem no_lost_wakeup {A : Type} (pipe_capacity : Z) (limit : nat) (early : bool) (s : @race A) :
  0 < pipe_capacity → (0 < limit)%nat → reachable pipe_capacity limit early s →
  r_recvd s ++ r_chan s = r_sent s ∧
  (r_pc s = RxIdle → r_owed s = 0%nat →
     (r_chan s ≠ [] → 0 < r_pipe s) ∧
     ∃ n, r_recvd (rx_run pipe_capacity limit early n s) = r_sent s).
Proof.
  intros Hc Hl Hr. destruct (reachable_inv pipe_capacity limit early Hc Hl s Hr) as [Hp Ho Hw]. split; [done|]. intros Epc Hd.
  rewrite Epc in Hw. assert (r_chan s ≠ [] → 0 < r_pipe s) as Hw' by (intros Hne; destruct (Hw Hne); lia). split; [done|].
  destruct (calls_deliver pipe_capacity limit early Hc Hl (length (r_chan s)) s) as (n & _ & Hn); [lia|done|done|done|]. exists n. by rewrite Hn.
Qed.

(** Two items sent, the first notification consumed before the second item is
    sent, and the second sender's [post] last. *)
Definition sample_race : race := mk_race 1 [8] 0 RxIdle [7; 8] [7].

Lemma sample_race_reachable : reachable 65536 1 true sample_race.
Proof.
  unfold reachable. eapply rtc_l; [apply (rs_send _ _ _ _ 7)|]. eapply rtc_l; [by apply (rs_post _ _ _ _ 0)|].
  eapply rtc_l; [apply rs_recv|]. eapply rtc_l; [apply rs_recv|]. eapply rtc_l; [apply (rs_send _ _ _ _ 8)|].
  eapply rtc_l; [apply rs_recv|]. eapply rtc_l; [apply rs_recv|]. eapply rtc_l; [by apply (rs_post _ _ _ _ 0)|]. apply rtc_refl.
Qed.

Lemma no_lost_wakeup_witness :
  r_recvd sample_race ++ r_chan sample_race = r_sent sample_race ∧
  (r_pc sample_race = RxIdle → r_owed sample_race = 0%nat →
     (r_chan sample_race ≠ [] → 0 < r_pipe sample_race) ∧
     ∃ n, r_recvd (rx_run 65536 1 true n sample_race) = r_sent sample_race).
Proof. apply (no_lost_wakeup 65536 1 true sample_race); [lia|lia|exact sample_race_reachable]. Defined.

(** *** The functions are runs of the accesses *)

Lemma many_returns_call {U} (cap : Z) (limit : nat) (early : bool) (r : @ReturnQueue U) (sent recvd : list U) :
  0 <= rq_notify r →
  let '(r', got) := try_recv_many_returns cap r limit in
  rx_call cap limit (mk_race (rq_notify r) (incoming_return_q r) 0 RxIdle sent recvd) =
    mk_race (rq_notify r') (incoming_return_q r') 0 RxIdle sent (recvd ++ got).
Proof.
  intros Hn. unfold try_recv_many_returns, rx_call. rewrite consume_all by done. cbn [r_pipe r_chan r_owed r_sent r_recvd].
  destruct (Z.ltb_spec 0 (rq_notify r)) as [Hp|Hp]; cbn [negb].
  - destruct (Z.eqb_spec (zlen (incoming_return_q r)) 0) as [E|E]; cbv zeta; cbn [rq_notify incoming_return_q].
    + destruct (incoming_return_q r) as [|? q]; [by rewrite take_nil, drop_nil|]. rewrite zlen_cons in E. pose proof (zlen_nonneg q). lia.
    + f_equal. unfold zlen. destruct (Nat.ltb_spec (length (take limit (incoming_return_q r))) (length (incoming_return_q r))),
        (Z.ltb_spec (Z.of_nat (length (take limit (incoming_return_q r)))) (Z.of_nat (length (incoming_return_q r)))); done || lia.
  - cbn. assert (rq_notify r = 0) as -> by lia. by rewrite app_nil_r.
Qed.

Lemma one_return_call {U} (cap : Z) (r : @ReturnQueue U) : 0 <= rq_notify r →
  try_recv_return cap r = let '(r', got) := try_recv_many_returns cap r 1 in (r', hd_error got).
Proof.
  intros Hn. unfold try_recv_return, try_recv_many_returns. rewrite consume_all by done. destruct (0 <? rq_notify r); cbn; [|done].
  destruct (incoming_return_q r) as [|u q]; cbn; [done|]. rewrite zlen_cons. pose proof (zlen_nonneg q).
  destruct (Z.eqb_spec (zlen q + 1) 0); [lia|]. by rewrite take_0, drop_0.
Qed.

(** *** Packets through a [packet_queue] *)

Section packets.
Context {ND : NetDefs} (cap M BUFSIZE : Z) (Hcap : 0 < cap) (HM : 0 < M).

Fixpoint send_all (q : PacketQueue) (ps : list Packet) : option PacketQueue :=
  match ps with
  | [] => Some q
  | p :: ps => match pq_try_send cap M BUFSIZE q p with (q, inr tt) => send_all q ps | _ => None end
  end.

Fixpoint recv_all (q : PacketQueue) (bufs : list PacketBuffer) : outcome (PacketQueue * list Packet) :=
  match bufs with
  | [] => Ret (q, [])
  | buf :: bufs =>
      r ← pq_try_recv cap M q buf;
      match r.2 with
      | inr p => r ← recv_all r.1 bufs; Ret (r.1, p :: r.2)
      | inl _ => Ret (r.1, [])
      end
  end.

(** A packet that fits, in a buffer with [n] bytes behind the metadata. *)
Definition fits (n : Z) (p : Packet) : Prop := valid M p ∧ zlen (data p) = n ∧ M + len (metadata p) <= BUFSIZE.

Definition sized (n : Z) (buf : PacketBuffer) : Prop := ∃ md d, buf = Buffer md d ∧ zlen d = n.

Lemma deserialize_pad md b z buf : len md = zlen b → deserialize_into M (Buffer md (b ++ z)) buf = deserialize_into M (Buffer md b) buf.
Proof.
  intros Hl. unfold deserialize_into. destruct buf as [|md' d]; [done|]. case_match; [done|]. rewrite zlen_app, Hl, Z.ltb_irrefl.
  pose proof (zlen_nonneg z). destruct (Z.ltb_spec (zlen b + zlen z) (zlen b)); [lia|]. do 2 f_equal. unfold zlen. rewrite Nat2Z.id.
  by rewrite take_app_length, firstn_all.
Qed.

(** What the queue holds for a packet. *)
Definition queued (p : Packet) : PacketBuffer :=
  Buffer (metadata p) (body M p ++ replicate (Z.to_nat (BUFSIZE - M - zlen (body M p))) 0).

Lemma serialize_fits n p : fits n p → serialize_array M BUFSIZE p = Some (queued p).
Proof.
  intros (Hv & Hn & Hs). unfold serialize_array, PacketBuf.serialize. destruct (Z.ltb_spec BUFSIZE (M + len (metadata p))); [lia|]. done.
Qed.

Lemma deserialize_queued n p buf : fits n p → sized n buf → ∃ p', deserialize_into M (queued p) buf = inr p' ∧ packet_eqb M p' p = true.
Proof using HM.
  intros (Hv & Hn & Hs) (md' & d' & -> & Hd). rewrite (valid_view M p Hv) in *.
  generalize dependent (tail M p). generalize dependent (body M p). generalize dependent (head M p).
  generalize (metadata p). clear p Hv. intros md h b t Hn Hs. cbn in Hn, Hs. rewrite !zlen_app in Hn.
  destruct (split_like d' h b t) as (h' & b' & t' & -> & Hh & Hb & Ht); [lia|]. unfold queued. rewrite of_view_body, deserialize_pad by done.
  eexists. split; [by eapply deserialize_view|]. by apply packet_eqb_view.
Qed.

Lemma send_all_msgs n q ps : Forall (fits n) ps → chan_closed (pq_chan q) = false → 0 <= pq_notify q →
  zlen (chan_msgs (pq_chan q)) + zlen ps <= chan_cap (pq_chan q) →
  ∃ q', send_all q ps = Some q' ∧ chan_msgs (pq_chan q') = chan_msgs (pq_chan q) ++ (queued <$> ps) ∧
    0 <= pq_notify q' ∧ (ps ≠ [] → 0 < pq_notify q').
Proof using Hcap.
  intros Hf. revert q. induction Hf as [|p ps Hp Hf IH]; intros q Hc Hn Hl; cbn [send_all].
  { exists q. split; [done|]. rewrite app_nil_r. done. }
  rewrite zlen_cons in Hl. pose proof (zlen_nonneg ps). unfold pq_try_send. rewrite (serialize_fits n p Hp). unfold chan_try_send. rewrite Hc.
  destruct (Z.leb_spec (chan_cap (pq_chan q)) (zlen (chan_msgs (pq_chan q)))); [lia|].
  pose proof (post_pos cap (pq_notify q) Hcap Hn) as Hpost.
  destruct (IH (mk_packet_queue (with_msgs (pq_chan q) (chan_msgs (pq_chan q) ++ [queued p])) (post cap (pq_notify q)))) as (q' & E & Hm & Hn' & Hp').
  - done.
  - cbn. lia.
  - cbn. rewrite zlen_app. change (zlen [queued p]) with 1. lia.
  - exists q'. split; [done|]. rewrite Hm. cbn. rewrite <- app_assoc. split; [done|]. split; [done|]. intros _.
    destruct ps; [|by apply Hp']. cbn in E. injection E as <-. cbn. lia.
Qed.

Lemma recv_all_msgs n ps : Forall (fits n) ps → ∀ q bufs, chan_msgs (pq_chan q) = queued <$> ps → 0 <= pq_notify q → (ps ≠ [] → 0 < pq_notify q) →
  Forall (sized n) bufs → length bufs = length ps →
  ∃ q' out, recv_all q bufs = Ret (q', out) ∧ Forall2 (λ p' p, packet_eqb M p' p = true) out ps ∧ chan_msgs (pq_chan q') = [].
Proof using HM Hcap.
  induction 1 as [|p ps Hp Hf IH]; intros q bufs Hm Hn Hw Hb Hl.
  { destruct bufs; [|done]. by exists q, []. }
  destruct bufs as [|buf bufs]; [done|]. apply list.Forall_cons in Hb as [Hb Hbs]. cbn [recv_all]. unfold pq_try_recv.
  rewrite consume_all by done. destruct (Z.ltb_spec 0 (pq_notify q)); [|by specialize (Hw ltac:(done)); lia]. cbn [negb pq_chan]. rewrite Hm. cbn [fmap list_fmap].
  rewrite zlen_cons. pose proof (zlen_nonneg (queued <$> ps)). destruct (Z.eqb_spec (zlen (queued <$> ps) + 1) 0); [lia|].
  unfold chan_try_recv. rewrite Hm. cbn [fmap list_fmap]. destruct (deserialize_queued n p buf Hp Hb) as (p' & Hd & He). rewrite Hd. cbn [mbind outcome_bind fst snd].
  match goal with |- context [recv_all ?q' bufs] => destruct (IH q' bufs) as (q2 & out & E & Ho & Hm') end; [done| | |done|cbn in Hl; lia|].
  - cbn. case_match; [|done]. by apply post_nonneg.
  - cbn. intros Hne. destruct (Z.ltb_spec 1 (zlen (queued <$> ps) + 1)) as [|Hx]; [by apply post_pos|].
    destruct ps; [done|]. rewrite fmap_cons, zlen_cons in Hx. pose proof (zlen_nonneg (queued <$> ps)). lia.
  - rewrite E. cbn. exists q2, (p' :: out). split; [done|]. split; [by constructor|done].
Qed.
End packets.

(** A queue of packets from management to the fast path loses and reorders
    nothing: packets that fit its slots, no more than its depth, are accepted,
    and as many receives give packets equal to them, in order; no receive finds
    the queue without a notification. *)
Theorem packet_queue_fifo {ND : NetDefs} (cap M BUFSIZE depth n : Z) (ps : list Packet) (bufs : list PacketBuffer) :
  0 < cap → 0 < M → Forall (fits M BUFSIZE n) ps → zlen ps <= depth → Forall (sized n) bufs → length bufs = length ps →
  ∃ q q' out, send_all cap M BUFSIZE (packet_queue depth) ps = Some q ∧ recv_all cap M q bufs = Ret (q', out) ∧
    Forall2 (λ p' p, packet_eqb M p' p = true) out ps ∧ chan_msgs (pq_chan q') = [].
Proof.
  intros Hcap HM Hf Hd Hb Hl. destruct (send_all_msgs cap M BUFSIZE Hcap n (packet_queue depth) ps Hf) as (q & E & Hm & Hn & Hw); [done|done|exact Hd|].
  destruct (recv_all_msgs cap M BUFSIZE Hcap HM n ps Hf q bufs Hm Hn Hw Hb Hl) as (q' & out & E' & Ho & Hm'). by exists q, q', out.
Qed.

Lemma packet_queue_fifo_witness :
  ∃ q q' out, send_all 65536 96 200 (packet_queue 4) [of_view 96 sample_metadata [0; 0] [1; 2; 3] [9]; of_view 96 sample_metadata [0] [4; 5] [9; 9; 9]] = Some q ∧
    recv_all 65536 96 q [Buffer sample_metadata (replicate 6 0); Buffer sample_metadata (replicate 6 0)] = Ret (q', out) ∧
    Forall2 (λ p' p, packet_eqb 96 p' p = true) out [of_view 96 sample_metadata [0; 0] [1; 2; 3] [9]; of_view 96 sample_metadata [0] [4; 5] [9; 9; 9]] ∧
    chan_msgs (pq_chan q') = [].
Proof.
  apply (packet_queue_fifo 65536 96 200 4 6); [lia|lia| |vm_compute; congruence| |done].
  - repeat constructor; try apply of_view_valid; try done; vm_compute; congruence.
  - repeat constructor; by exists sample_metadata, (replicate 6 0).
Defined.
