(* ===== verification/PacketKeep.v ===== *)
(** What every operation on a packet leaves alone: the size of its buffer, and
    all of its metadata but where the body is.  Compression and expansion are
    built of the operations of [PacketBuf], and keep the buffer too, whatever
    the bytes are. *)
From S2P Require Import Prelude Zdp NetDefs IpHeaders PacketBuf Compress.

Section keep.
Context {ND : NetDefs} (M : Z).
Implicit Types p q : Packet.

Definition kept p q : Prop :=
  valid M q ∧ zlen (data q) = zlen (data p) ∧ set_extent (metadata q) 0 0 = set_extent (metadata p) 0 0.

Lemma kept_refl p : valid M p → kept p p.
Proof. done. Qed.

Lemma kept_trans p q r : kept p q → kept q r → kept p r.
Proof. intros (_ & H1 & H2) (Hv & H3 & H4). split; [done|]. split; congruence. Qed.

Lemma kept_valid p q : kept p q → valid M q.
Proof. by intros []. Qed.

Lemma kept_view p md h b t md' h' b' t' : p = of_view M md h b t → zlen h' + zlen b' + zlen t' = zlen h + zlen b + zlen t →
  set_extent md' 0 0 = set_extent md 0 0 → kept p (of_view M md' h' b' t').
Proof.
  intros -> Hz Hm. split; [apply of_view_valid|]. cbn. rewrite !zlen_app. split; [lia|]. exact Hm.
Qed.

Ltac as_view p Hv := rewrite (valid_view M p Hv) in *; generalize dependent (tail M p); generalize dependent (body M p); generalize dependent (head M p);
  generalize (metadata p); clear p Hv.

Lemma zlen_take_drop n (l : bytes) : zlen (take n l) + zlen (drop n l) = zlen l.
Proof. rewrite <- zlen_app. by rewrite take_drop. Qed.

Lemma advance_kept p n q : valid M p → 0 <= n → advance p n = Ret q → kept p q.
Proof.
  intros Hv Hn. as_view p Hv. intros md h b t. rewrite advance_view by done. case_match; [|done]. intros [= <-].
  eapply kept_view; [done| |done]. rewrite zlen_app. pose proof (zlen_take_drop (Z.to_nat n) b). lia.
Qed.

Lemma shrink_kept p n q : valid M p → 0 <= n → shrink_by p n = Ret q → kept p q.
Proof.
  intros Hv Hn. as_view p Hv. intros md h b t. rewrite shrink_view by done. case_match; [|done]. intros [= <-].
  eapply kept_view; [done| |done]. rewrite zlen_app. pose proof (zlen_take_drop (Z.to_nat (zlen b - n)) b). lia.
Qed.

Lemma push_kept p l q : valid M p → push_header M p l = Ret q → kept p q.
Proof.
  intros Hv. as_view p Hv. intros md h b t. destruct (decide (zlen l <= zlen h)) as [Hl|Hl]; [|by rewrite push_panics by lia].
  pose proof (zlen_nonneg l). destruct (headroom_split h (zlen l)) as (h1 & h2 & -> & Hh); [lia|]. rewrite push_view by done. intros [= <-].
  eapply kept_view; [done| |done]. rewrite !zlen_app. lia.
Qed.

Lemma alloc_panics md h b t l : zlen h < zlen l → alloc_header M (of_view M md h b t) l = Panic.
Proof.
  intros Hl. unfold alloc_header, alloc_zeroed_headroom, extend_front, headroom_available, assertb. cbn.
  by destruct (Z.leb_spec (zlen l) (M + zlen h - M)); [lia|].
Qed.

Lemma alloc_header_kept p l q : valid M p → alloc_header M p l = Ret q → kept p q.
Proof.
  intros Hv. as_view p Hv. intros md h b t. destruct (decide (zlen l <= zlen h)) as [Hl|Hl]; [|by rewrite alloc_panics by lia].
  pose proof (zlen_nonneg l). destruct (headroom_split h (zlen l)) as (h1 & h2 & -> & Hh); [lia|]. rewrite alloc_header_view by done. intros [= <-].
  eapply kept_view; [done| |done]. rewrite !zlen_app. lia.
Qed.

Lemma alloc_zeroed_kept p n q : valid M p → 0 <= n → alloc_zeroed_headroom M p n = Ret q → kept p q.
Proof.
  intros Hv Hn. as_view p Hv. intros md h b t. destruct (decide (n <= zlen h)) as [Hl|Hl].
  - destruct (headroom_split h n) as (h1 & h2 & -> & <-); [lia|]. rewrite alloc_zeroed_view. intros [= <-].
    eapply kept_view; [done| |done]. rewrite !zlen_app. unfold zlen. rewrite length_replicate. lia.
  - unfold alloc_zeroed_headroom, extend_front, headroom_available, assertb. cbn. by destruct (Z.leb_spec n (M + zlen h - M)); [lia|].
Qed.

Lemma put_kept p l q : valid M p → put M p l = Ret q → kept p q.
Proof.
  intros Hv. as_view p Hv. intros md h b t. rewrite put_view. destruct (Z.leb_spec (zlen l) (zlen t)) as [Hl|]; [|done]. intros [= <-].
  eapply kept_view; [done| |done]. rewrite zlen_app. unfold zlen in *. rewrite length_drop. lia.
Qed.

Lemma get_array_kept p n r : valid M p → 0 <= n → get_array M n p = Ret r → kept p r.2.
Proof.
  intros Hv Hn. as_view p Hv. intros md h b t. destruct (decide (n <= zlen b)) as [Hl|Hl]; [|by rewrite get_array_short by lia].
  rewrite <- (take_drop (Z.to_nat n) b), get_array_view by (apply zlen_take; lia). intros [= <-].
  eapply kept_view; [by rewrite take_drop| |done]. rewrite zlen_app. pose proof (zlen_take_drop (Z.to_nat n) b). lia.
Qed.

Lemma set_body_kept p b' : valid M p → zlen b' = zlen (body M p) → kept p (set_body M p b').
Proof.
  intros Hv. as_view p Hv. intros md h b t Hb. rewrite of_view_body in Hb. rewrite set_body_view by done. eapply kept_view; [done| |done]. lia.
Qed.

Lemma write_prefix_kept p l : valid M p → zlen l <= zlen (body M p) → kept p (write_prefix M p l).
Proof.
  intros Hv Hl. apply set_body_kept; [done|]. rewrite zlen_app. unfold zlen in *. rewrite length_drop. lia.
Qed.

Lemma copy_within_kept p src n dst q : valid M p → body_copy_within M p src n dst = Ret q → kept p q.
Proof.
  intros Hv. unfold body_copy_within. destruct (_ || _) eqn:E; [done|]. intros [= <-]. rewrite !orb_false_iff, !Nat.ltb_ge in E.
  apply set_body_kept; [done|]. unfold zlen. rewrite !length_app, !length_take, !length_drop. lia.
Qed.

Lemma set_field2_kept p size off v q : valid M p → (off + 2 <= size)%nat → length v = 2%nat → set_field2 M p size off v = Ret q → kept p q.
Proof.
  intros Hv Ho Hl. unfold set_field2. destruct (Nat.ltb_spec (length (body M p)) size); [done|]. intros [= <-].
  apply set_body_kept; [done|]. unfold zlen. rewrite !length_app, length_take, length_drop, Hl. lia.
Qed.

End keep.

(** ** What a computation ensures when it returns *)

Definition ensures {A} (m : outcome A) (Q : A → Prop) : Prop := ∀ a, m = Ret a → Q a.

Lemma ensures_ret {A} (a : A) (Q : A → Prop) : Q a → ensures (Ret a) Q.
Proof. by intros ? ? [= <-]. Qed.
Lemma ensures_panic {A} (Q : A → Prop) : ensures Panic Q.
Proof. done. Qed.
Lemma ensures_bind {A B} (m : outcome A) (f : A → outcome B) (Q : A → Prop) (R : B → Prop) :
  ensures m Q → (∀ a, Q a → ensures (f a) R) → ensures (m ≫= f) R.
Proof. intros Hm Hf b Hb. apply outcome_bind_Ret in Hb as (a & Ha & Hb). by apply (Hf a); [apply Hm|]. Qed.
Lemma ensures_bind_any {A B} (m : outcome A) (f : A → outcome B) (R : B → Prop) :
  (∀ a, m = Ret a → ensures (f a) R) → ensures (m ≫= f) R.
Proof. intros Hf b Hb. apply outcome_bind_Ret in Hb as (a & Ha & Hb). by apply (Hf a). Qed.
Lemma ensures_assert {A} (c : bool) (m : outcome A) (Q : A → Prop) : (c = true → ensures m Q) → ensures (assertb c m) Q.
Proof. destruct c; [auto|]. intros _. apply ensures_panic. Qed.
Lemma ensures_if {A} (c : bool) (m m' : outcome A) (Q : A → Prop) :
  (c = true → ensures m Q) → (c = false → ensures m' Q) → ensures (if c then m else m') Q.
Proof. destruct c; auto. Qed.
Lemma ensures_mono {A} (m : outcome A) (Q R : A → Prop) : ensures m Q → (∀ a, Q a → R a) → ensures m R.
Proof. intros Hm HQ a Ha. by apply HQ, Hm. Qed.

(** Each operation, from a packet that is [p] with its buffer kept. *)
Section ensures.
Context {ND : NetDefs} (M : Z).
Implicit Types p q : Packet.

Lemma advance_ensures p q n : kept M p q → 0 <= n → ensures (advance q n) (kept M p).
Proof. intros Hk Hn r Hr. eapply kept_trans; [done|]. eapply advance_kept; [by eapply kept_valid|done|done]. Qed.
Lemma shrink_ensures p q n : kept M p q → 0 <= n → ensures (shrink_by q n) (kept M p).
Proof. intros Hk Hn r Hr. eapply kept_trans; [done|]. eapply shrink_kept; [by eapply kept_valid|done|done]. Qed.
Lemma push_ensures p q l : kept M p q → ensures (push_header M q l) (kept M p).
Proof. intros Hk r Hr. eapply kept_trans; [done|]. eapply push_kept; [by eapply kept_valid|done]. Qed.
Lemma push_u16_ensures p q v : kept M p q → ensures (push_u16 M q v) (kept M p).
Proof. apply push_ensures. Qed.
Lemma alloc_header_ensures p q l : kept M p q → ensures (alloc_header M q l) (kept M p).
Proof. intros Hk r Hr. eapply kept_trans; [done|]. eapply alloc_header_kept; [by eapply kept_valid|done]. Qed.
Lemma alloc_zeroed_ensures p q n : kept M p q → 0 <= n → ensures (alloc_zeroed_headroom M q n) (kept M p).
Proof. intros Hk Hn r Hr. eapply kept_trans; [done|]. eapply alloc_zeroed_kept; [by eapply kept_valid|done|done]. Qed.
Lemma put_ensures p q l : kept M p q → ensures (put M q l) (kept M p).
Proof. intros Hk r Hr. eapply kept_trans; [done|]. eapply put_kept; [by eapply kept_valid|done]. Qed.
Lemma get_array_ensures p q n : kept M p q → 0 <= n → ensures (get_array M n q) (λ r, kept M p r.2).
Proof. intros Hk Hn r Hr. eapply kept_trans; [done|]. eapply get_array_kept; [by eapply kept_valid|done|done]. Qed.
Lemma get_u16_ensures p q : kept M p q → ensures (get_u16 M q) (λ r, kept M p r.2).
Proof. intros Hk. eapply ensures_bind; [by apply get_array_ensures; [exact Hk|lia]|]. intros a Ha. by apply ensures_ret. Qed.
Lemma get_u8_ensures p q : kept M p q → ensures (get_u8 M q) (λ r, kept M p r.2).
Proof. intros Hk. eapply ensures_bind; [by apply get_array_ensures; [exact Hk|lia]|]. intros a Ha. by apply ensures_ret. Qed.
Lemma copy_within_ensures p q src n dst : kept M p q → ensures (body_copy_within M q src n dst) (kept M p).
Proof. intros Hk r Hr. eapply kept_trans; [done|]. eapply copy_within_kept; [by eapply kept_valid|done]. Qed.
Lemma set_field2_ensures p q size off v : kept M p q → (off + 2 <= size)%nat → length v = 2%nat → ensures (set_field2 M q size off v) (kept M p).
Proof. intros Hk Ho Hl r Hr. eapply kept_trans; [done|]. eapply set_field2_kept; [by eapply kept_valid|done|done|done]. Qed.
End ensures.

Create HintDb keep.
#[export] Hint Resolve ensures_ret ensures_panic kept_refl kept_valid advance_ensures shrink_ensures push_ensures push_u16_ensures alloc_header_ensures
  alloc_zeroed_ensures put_ensures get_array_ensures get_u16_ensures get_u8_ensures copy_within_ensures : keep.
#[export] Hint Extern 1 (_ <= _) => lia : keep.
#[export] Hint Extern 2 (ensures (set_field2 _ _ _ _ _) _) =>
  apply set_field2_ensures; [eassumption|cbn; lia|first [done|apply inet_l4_checksum_length|apply be_put_length]] : keep.

(** Follows the buffer through the steps of a computation. *)
Ltac keep_step :=
  match goal with
  | |- ensures (assertb _ _) _ => apply ensures_assert; intros ?
  | |- ensures (if _ then _ else _) _ => apply ensures_if; intros ?
  | |- ensures (mbind _ _) _ => first
      [ eapply ensures_bind; [solve [eauto with keep]|]; intros ? ?
      | apply ensures_bind_any; intros ? _ ]
  | |- ensures (match ?r with _ => _ end) _ => is_var r; destruct r as [? ?]; cbn [fst snd] in *
  | |- ensures _ _ => solve [eauto with keep]
  end.
Ltac keeps := repeat keep_step.

Section compression.
Context {ND : NetDefs} {NL : NetDefsLaws} (M : Z).
Implicit Types p q : Packet.

Lemma push_if_ensures p q (c : bool) v : kept M p q → ensures (if c then push_u16 M q v else Ret q) (kept M p).
Proof. intros. keeps. Qed.
Lemma get_if_ensures p q (c : bool) v : kept M p q → ensures (if c then get_u16 M q else Ret (v, q)) (λ r, kept M p r.2).
Proof. intros. keeps. Qed.
#[local] Hint Resolve push_if_ensures get_if_ensures : keep.

Lemma compress_l4_ensures p q mode l4 : kept M p q → ensures (compress_l4 M mode l4 q) (kept M p).
Proof. intros Hk. unfold compress_l4, compress_tcp, compress_udp. keeps. Qed.

Lemma expand_ports_ensures p q mode ft : kept M p q → ensures (expand_ports M mode ft q) (λ r, kept M p r.2).
Proof.
  intros Hk. unfold expand_ports.
  assert (∀ q (c : bool) v, kept M p q → ensures (if c then Ret (v, q) else get_u16 M q) (λ r, kept M p r.2)) as Hp by (intros; keeps).
  eapply ensures_bind; [by apply Hp|]. intros [? ?] ?. eapply ensures_bind; [by apply Hp|]. intros [? ?] ?. by apply ensures_ret.
Qed.
#[local] Hint Resolve expand_ports_ensures : keep.

Lemma expand_l4_ensures p q mode ft : kept M p q → ensures (expand_l4 M mode ft q) (kept M p).
Proof using NL.
  intros Hk. unfold expand_l4, expand_tcp, expand_udp. keeps.
Qed.
#[local] Hint Resolve compress_l4_ensures expand_l4_ensures : keep.

Lemma compress_ensures p q mode l3 l4 : kept M p q → ensures (compress M mode l3 l4 q) (kept M p).
Proof.
  intros Hk. unfold compress, compress_ipv4, compress_ipv6. keeps.
Qed.

Lemma expand_ensures p q mode ft : kept M p q → ensures (expand M mode ft q) (kept M p).
Proof using NL. intros Hk. unfold expand, expand_ipv4, expand_ipv6. keeps. Qed.
End compression.
