(* ===== verification/FastPath.v ===== *)
(** The fast path, [src/adapter/ph/src/fastpath.rs]: what a worker does with a
    packet from the substrate, from the actor, or for the substrate.

    A worker owns its buffers, queues and counters; everything else it only reads:
    [Assembly] is the state of the other components as one call finds it.  The
    release build is modelled, without the feature [enable-security-testing]. *)
From S2P Require Import Prelude Zdp Dispatch TxnMgr Slab Utf8 Tlv NetDefs IpHeaders PacketBuf Compress Classifier Tc AdapterTables Node Transport Queues.

(** ** Counters, [src/adapter/ph/src/counters.rs] *)

Inductive FastpathCounterType : Type :=
| InPacksRec | InPacksDrop | InPacksSent | OutPacksRec | OutPacksDrop | OutPacksSent
| RequeuedPacketsReceived | MgmtPacketsSent
| InCapPacksWrite | OutCapPacksWrite | InCapPacksDrop | OutCapPacksDrop | InCapPacksFilt | OutCapPacksFilt
| DroppedOversize | QueueBackpressure | DroppedAwaitingBind | DispatchedToMgmt | ActorSlowpath
| UnknownPeer | PeerRemoved
| UnknownZpi | MicvFailure | BadChecksum | DecryptionFailure | EncryptionFailure | UnknownStreamId | BadStructure | OtherError
| TtlExpired.

#[global] Instance FastpathCounterType_eq_dec : EqDecision FastpathCounterType.
Proof. solve_decision. Defined.

Definition FastpathCounters : Type := FastpathCounterType → Z.
Definition counters_default : FastpathCounters := λ _, 0.
Definition counter_increase_by (cs : FastpathCounters) (c : FastpathCounterType) (n : Z) : FastpathCounters :=
  λ c', if decide (c' = c) then wrap64 (cs c + n) else cs c'.
Definition increment (cs : FastpathCounters) (c : FastpathCounterType) : FastpathCounters := counter_increase_by cs c 1.

(** [From<DecryptError> for FastpathCounterType] *)
Definition decrypt_error_counter (e : DecryptError) : FastpathCounterType :=
  match e with
  | DeBadStructure => BadStructure
  | DeUnknownZpi => UnknownZpi
  | DeDecryptionFailure => DecryptionFailure
  | DeMicvFailure => MicvFailure
  | DeBadChecksum => BadChecksum
  end.

Inductive PhMode : Type := PhAdapter | PhNode.
Inductive Direction : Type := Inbound | Outbound.

(** [zdp_ll] *)
Definition encode_direction (d : Direction) : Z := match d with Inbound => 0 | Outbound => 1 end.

Definition DEFAULT_MESSAGE_HEADROOM : Z := 256.
Definition PRIORITY : Z := 1.
Definition CONFIRM : Z := 2.

Definition le_put (n : nat) (z : Z) : bytes := rev (be_put n z).

(** [PcaprecHdr::new], the time as seconds and microseconds (little endian). *)
Definition pcaprec_hdr (ts : Z * Z) (incl_len orig_len : Z) : bytes :=
  le_put 4 (wrap32 ts.1) ++ le_put 4 (wrap32 ts.2) ++ le_put 4 (Z.min incl_len (2 ^ 32 - 1)) ++ le_put 4 (Z.min orig_len (2 ^ 32 - 1)).

Definition adapter_next_hop_link (ingress_link_id : Z) : Z := ingress_link_id `mod` 2 + 1.

Lemma adapter_next_hops :
  adapter_next_hop_link LOCAL_ACTOR_LINK_ID = DOCK_LINK_ID ∧ adapter_next_hop_link DOCK_LINK_ID = LOCAL_ACTOR_LINK_ID.
Proof. done. Qed.

Definition set_flowinfo (a : SocketAddr) (flowinfo : Z) : SocketAddr :=
  match a with SockV4 _ _ => a | SockV6 ip port _ scope => SockV6 ip port flowinfo scope end.
Definition is_unspecified (a : SocketAddr) : bool :=
  match a with SockV4 ip _ | SockV6 ip _ _ _ => forallb (Z.eqb 0) ip end.

#[global] Instance SocketAddr_eq_dec : EqDecision SocketAddr.
Proof. solve_decision. Defined.

Section fastpath.
Context {ND : NetDefs} {SL : Slab} {AK : A2aKeys} {B3 : Blake3} (MIN_BODY_OFFSET : Z).
Context {ScopedIpAddr Certificate : Type} `{EqDecision ScopedIpAddr} (intf_unspecified : ScopedIpAddr → bool).
Context (LINK_ID_UNKNOWN : Z) (a2aSaid : packed Z).
Abbreviation M := MIN_BODY_OFFSET.
Implicit Types pkt : Packet.

(** ** What the fast path reads *)

Record FpPeer : Type := mk_fp_peer {
  fp_substrate_addr : SocketAddr;
  fp_interface_addr : ScopedIpAddr;
  fp_transport_sa : option (KmTransportSA Certificate);
  fp_pft : PeerForwardingTable;
  fp_ready : bool;
  fp_addresses : list IpAddress;
  fp_aaa_address : option IpAddress;
}.

Record Assembly : Type := mk_assembly {
  ph_mode : PhMode;
  km_noise : bool;
  peer_slab : slab FpPeer;
  sa_to_link : list ((SocketAddr * ScopedIpAddr) * Z);
  asm_elt : EndpointLookupTable;
  asm_dlt : DockLookupTable;
  capture_program : option (bytes → Z);
}.

(** [PeerTable::get] and [lookup_peer] *)
Definition peer_get (asm : Assembly) (link_id : Z) : option FpPeer := slab_get (peer_slab asm) (stream_key link_id).
Definition lookup_peer (asm : Assembly) (sa : SocketAddr) (intf : ScopedIpAddr) : option Z :=
  snd <$> find (λ e, bool_decide (e.1 = (sa, intf))) (sa_to_link asm).

Definition adapter_owns_address (asm : Assembly) (a : IpAddress) : bool :=
  match peer_get asm DOCK_LINK_ID with
  | Some peer => fp_ready peer && (bool_decide (a ∈ fp_addresses peer) || bool_decide (fp_aaa_address peer = Some a))
  | None => false
  end.

(** ** The worker *)

Inductive MgmtDispatchMessage : Type :=
| WithLink (pkt : Packet)
| WithAddr (peer_sa : SocketAddr) (interface_addr : ScopedIpAddr) (pkt : Packet).
Inductive AdapterManagerMessage : Type := RequestTetherId (pkt : Packet).

(** [TwoWayReturnable::convert] of both *)
Definition dispatch_message_buffer (m : MgmtDispatchMessage) : PacketBuffer :=
  match m with WithLink pkt | WithAddr _ _ pkt => destroy pkt end.
Definition manager_message_buffer (m : AdapterManagerMessage) : PacketBuffer :=
  match m with RequestTetherId pkt => destroy pkt end.

Record QueuedEgressPacket : Type := mk_queued { q_pkt : Packet; q_dst : SocketAddr; q_src : ScopedIpAddr }.

(** The capture socket: the datagrams it still takes, and those it took. *)
Record Capture : Type := mk_capture { cap_room : nat; cap_sent : list bytes; cap_closed : bool }.

Record FastpathWorker : Type := mk_worker {
  worker_index : Z;
  buffers : list PacketBuffer;
  batch_counters : FastpathCounters;
  return_q : @ReturnQueue PacketBuffer;
  adapter_manager : @ServiceQueue AdapterManagerMessage;
  mgmt_dispatch : @ServiceQueue MgmtDispatchMessage;
  actor_input_q : list Packet;
  substrate_egress_q : list QueuedEgressPacket;
  capture_queue : Capture;
}.

Definition with_buffers (w : FastpathWorker) (l : list PacketBuffer) : FastpathWorker :=
  mk_worker (worker_index w) l (batch_counters w) (return_q w) (adapter_manager w) (mgmt_dispatch w) (actor_input_q w) (substrate_egress_q w) (capture_queue w).
Definition count (w : FastpathWorker) (c : FastpathCounterType) (n : Z) : FastpathWorker :=
  mk_worker (worker_index w) (buffers w) (counter_increase_by (batch_counters w) c n) (return_q w) (adapter_manager w) (mgmt_dispatch w) (actor_input_q w) (substrate_egress_q w) (capture_queue w).
Definition with_manager (w : FastpathWorker) (q : ServiceQueue) (r : ReturnQueue) : FastpathWorker :=
  mk_worker (worker_index w) (buffers w) (batch_counters w) r q (mgmt_dispatch w) (actor_input_q w) (substrate_egress_q w) (capture_queue w).
Definition with_dispatch (w : FastpathWorker) (q : ServiceQueue) (r : ReturnQueue) : FastpathWorker :=
  mk_worker (worker_index w) (buffers w) (batch_counters w) r (adapter_manager w) q (actor_input_q w) (substrate_egress_q w) (capture_queue w).
Definition with_input (w : FastpathWorker) (l : list Packet) : FastpathWorker :=
  mk_worker (worker_index w) (buffers w) (batch_counters w) (return_q w) (adapter_manager w) (mgmt_dispatch w) l (substrate_egress_q w) (capture_queue w).
Definition with_egress (w : FastpathWorker) (l : list QueuedEgressPacket) : FastpathWorker :=
  mk_worker (worker_index w) (buffers w) (batch_counters w) (return_q w) (adapter_manager w) (mgmt_dispatch w) (actor_input_q w) l (capture_queue w).
Definition with_capture (w : FastpathWorker) (c : Capture) (cs : FastpathCounters) : FastpathWorker :=
  mk_worker (worker_index w) (buffers w) cs (return_q w) (adapter_manager w) (mgmt_dispatch w) (actor_input_q w) (substrate_egress_q w) c.

(** [FastpathWorker::new], its queues to the two services given. *)
Definition worker_new (buffer_count : nat) (index : Z) (zero : PacketBuffer) (am : ServiceQueue) (md : ServiceQueue) (c : Capture) : FastpathWorker :=
  mk_worker index (replicate buffer_count zero) counters_default return_queue_new am md [] [] c.

Definition drop_and_count (w : FastpathWorker) (pkt : Packet) (reason : FastpathCounterType) : FastpathWorker :=
  count (with_buffers w (buffers w ++ [destroy pkt])) reason 1.

(** The last [n] buffers, last first, as fresh packets. *)
Definition get_fresh_packets (w : FastpathWorker) (n : nat) : outcome (FastpathWorker * list Packet) :=
  let nbufs := Nat.min (length (buffers w)) n in
  let keep := (length (buffers w) - nbufs)%nat in
  ps ← foldr (λ b acc, ps ← acc; p ← new M b DEFAULT_MESSAGE_HEADROOM; Ret (p :: ps)) (Ret []) (rev (drop keep (buffers w)));
  Ret (with_buffers w (take keep (buffers w)), ps).

(** ** Headers and metadata *)

Definition read_from_buf {A} (c : packed A) (pkt : Packet) : outcome (option (A * Packet)) :=
  match read_from_prefix c (body M pkt) with
  | None => Ret None
  | Some (a, _) => pkt ← advance pkt (Z.of_nat (size_of c)); Ret (Some (a, pkt))
  end.

Definition upd_metadata (pkt : Packet) (f : PacketMetadata → PacketMetadata) : Packet := mk_packet (f (metadata pkt)) (data pkt).
Definition set_ingress_link (l : Z) (md : PacketMetadata) : PacketMetadata :=
  mk_metadata (offset md) (len md) (five_tuple md) (ingress_lane_id md) (flags md) l (egress_link_id md) (ingress_stream_id md) (seq_num md).
Definition set_ingress_lane (l : Z) (md : PacketMetadata) : PacketMetadata :=
  mk_metadata (offset md) (len md) (five_tuple md) l (flags md) (ingress_link_id md) (egress_link_id md) (ingress_stream_id md) (seq_num md).
Definition set_egress_link (l : Z) (md : PacketMetadata) : PacketMetadata :=
  mk_metadata (offset md) (len md) (five_tuple md) (ingress_lane_id md) (flags md) (ingress_link_id md) l (ingress_stream_id md) (seq_num md).
Definition set_ingress_stream (s : Z) (md : PacketMetadata) : PacketMetadata :=
  mk_metadata (offset md) (len md) (five_tuple md) (ingress_lane_id md) (flags md) (ingress_link_id md) (egress_link_id md) s (seq_num md).
Definition set_five_tuple (ft : FiveTuple) (md : PacketMetadata) : PacketMetadata :=
  mk_metadata (offset md) (len md) ft (ingress_lane_id md) (flags md) (ingress_link_id md) (egress_link_id md) (ingress_stream_id md) (seq_num md).

(** ** Capture, [Capture::try_enqueue_packet] and [maybe_capture_batch] *)

Definition PCAPREC_HDR_SIZE : Z := 16.

Definition capture_try_enqueue (c : Capture) (pkt : Packet) (ts : Z * Z) (incl_len : Z) : outcome (Capture * Packet * bool) :=
  let incl_len := Z.min incl_len (packet_len pkt) in
  pkt ← push_header M pkt (pcaprec_hdr ts incl_len (packet_len pkt));
  l ← slice_to (body M pkt) (PCAPREC_HDR_SIZE + incl_len);
  pkt ← advance pkt PCAPREC_HDR_SIZE;
  if cap_closed c then Panic
  else match cap_room c with
       | O => Ret (c, pkt, false)
       | S n => Ret (mk_capture n (cap_sent c ++ [l]) false, pkt, true)
       end.

(** The packets as they are left, and how many were captured, filtered and
    dropped. *)
Fixpoint capture_loop (program : bytes → Z) (dir : Direction) (ts : Z * Z) (c : Capture) (pkts : list Packet)
    : outcome (Capture * list Packet * (Z * Z * Z)) :=
  match pkts with
  | [] => Ret (c, [], (0, 0, 0))
  | pkt :: rest =>
      pkt ← alloc_header M pkt [encode_direction dir];
      let caplen := program (body M pkt) in
      if 0 <? caplen then
        r ← capture_try_enqueue c pkt ts caplen;
        let '(c, pkt, ok) := r in
        pkt ← advance pkt 1;
        if (ok : bool) then
          r ← capture_loop program dir ts c rest;
          let '(c, pkts, (cap, filt, drp)) := r in
          Ret (c, pkt :: pkts, (cap + 1, filt, drp))
        else Ret (c, pkt :: rest, (0, 0, zlen rest))
      else
        pkt ← advance pkt 1;
        r ← capture_loop program dir ts c rest;
        let '(c, pkts, (cap, filt, drp)) := r in
        Ret (c, pkt :: pkts, (cap, filt + 1, drp))
  end.

Definition maybe_capture_batch (asm : Assembly) (dir : Direction) (ts : Z * Z) (w : FastpathWorker) (pkts : list Packet)
    : outcome (FastpathWorker * list Packet) :=
  match capture_program asm with
  | None => Ret (w, pkts)
  | Some program =>
      r ← capture_loop program dir ts (capture_queue w) pkts;
      let '(c, pkts, (cap, filt, drp)) := r in
      let cs := batch_counters w in
      let cs := match dir with
                | Inbound => counter_increase_by (counter_increase_by (counter_increase_by cs InCapPacksWrite cap) InCapPacksDrop drp) InCapPacksFilt filt
                | Outbound => counter_increase_by (counter_increase_by (counter_increase_by cs OutCapPacksWrite cap) OutCapPacksDrop drp) OutCapPacksFilt filt
                end in
      Ret (with_capture w c cs, pkts)
  end.

Definition maybe_capture (asm : Assembly) (dir : Direction) (ts : Z * Z) (w : FastpathWorker) (pkt : Packet) : outcome (FastpathWorker * Packet) :=
  r ← maybe_capture_batch asm dir ts w [pkt];
  match r.2 with pkt :: _ => Ret (r.1, pkt) | [] => Panic end.

(** ** Queues to management, [src/adapter/ph/src/queues.rs] *)

Definition try_dispatch_mgmt_packet (w : FastpathWorker) (m : MgmtDispatchMessage) : outcome (FastpathWorker * option MgmtDispatchMessage) :=
  let '(q, r, res) := tw_try_send (mgmt_dispatch w) (return_q w) (Z.to_nat (worker_index w)) m in
  match res with
  | inr _ => Ret (with_dispatch w q r, None)
  | inl (TwClosed _) => Panic
  | inl (TwFull m) => Ret (w, Some m)
  end.

Definition try_dispatch_mgmt_packet_with_link (w : FastpathWorker) (pkt : Packet) : outcome (FastpathWorker * option Packet) :=
  r ← try_dispatch_mgmt_packet w (WithLink pkt);
  match r.2 with
  | None => Ret (r.1, None)
  | Some (WithLink pkt) => Ret (r.1, Some pkt)
  | Some _ => Panic
  end.

Definition try_dispatch_mgmt_packet_with_addr (w : FastpathWorker) (sa : SocketAddr) (intf : ScopedIpAddr) (pkt : Packet)
    : outcome (FastpathWorker * option Packet) :=
  r ← try_dispatch_mgmt_packet w (WithAddr sa intf pkt);
  match r.2 with
  | None => Ret (r.1, None)
  | Some (WithAddr _ _ pkt) => Ret (r.1, Some pkt)
  | Some _ => Panic
  end.

Definition try_request_tether_id (w : FastpathWorker) (pkt : Packet) : outcome (FastpathWorker * option Packet) :=
  let '(q, r, res) := tw_try_send (adapter_manager w) (return_q w) (Z.to_nat (worker_index w)) (RequestTetherId pkt) in
  match res with
  | inr _ => Ret (with_manager w q r, None)
  | inl (TwClosed _) => Panic
  | inl (TwFull (RequestTetherId pkt)) => Ret (w, Some pkt)
  end.

(** [Ok(()) => counter.increment(), Err(Full(pkt)) => drop_and_count(pkt, QueueBackpressure)] *)
Definition sent_or_dropped (r : FastpathWorker * option Packet) (c : FastpathCounterType) : FastpathWorker :=
  match r.2 with
  | None => count r.1 c 1
  | Some pkt => drop_and_count r.1 pkt QueueBackpressure
  end.

(** ** Egress *)

Definition decrypt (asm : Assembly) (z : Z) (pkt : Packet) : outcome (Packet * (DecryptError + unit)) :=
  let link := ingress_link_id (metadata pkt) in
  match (peer ← peer_get asm link; fp_transport_sa peer) with
  | Some sa => decrypt_with_sa M (km_noise asm) z sa pkt
  | None =>
      if negb (z =? ZPI_0) && negb (link =? LINK_ID_UNKNOWN) then Ret (pkt, inl DeUnknownZpi)
      else decrypt_null M pkt
  end.

(** The packet as it is left, and where it goes, [None] without a peer. *)
Definition substrate_egress_common (asm : Assembly) (ts : Z * Z) (link_id : Z) (w : FastpathWorker) (pkt : Packet)
    : outcome (FastpathWorker * Packet * (EncryptionError + option (SocketAddr * ScopedIpAddr))) :=
  match read_from_prefix zdpBaseHeader (body M pkt) with
  | None => Ret (w, pkt, inl EncParseError)
  | Some (zdp_hdr, _) =>
      let transit := base_packet_type zdp_hdr =? packet_type TransitPacket in
      match peer_get asm link_id with
      | None => Ret (w, pkt, inr None)
      | Some peer =>
          let transport_sa := if base_packet_type zdp_hdr =? packet_type KeyManagement then None else fp_transport_sa peer in
          let real_zpi := match transport_sa with
                          | Some sa => if transit then hmac (send_zpis sa) else encr (send_zpis sa)
                          | None => ZPI_0
                          end in
          assertb (match transport_sa with Some _ => negb (real_zpi =? ZPI_0) | None => true end)
          (pkt ← encap_zpi M real_zpi pkt;
           r ← maybe_capture asm Outbound ts w pkt;
           let '(w, pkt) := r in
           r ← protect M transport_sa transit pkt;
           match r with
           | (pkt, inl err) => Ret (w, pkt, inl err)
           | (pkt, inr _) => Ret (w, pkt, inr (Some (set_flowinfo (fp_substrate_addr peer) (flowhash pkt), fp_interface_addr peer)))
           end)
      end
  end.

Definition substrate_egress (asm : Assembly) (ts : Z * Z) (w : FastpathWorker) (pkt : Packet) : outcome FastpathWorker :=
  r ← substrate_egress_common asm ts (egress_link_id (metadata pkt)) w pkt;
  match r with
  | (w, pkt, inr (Some (dest_sa, src_intf))) =>
      assertb (negb (is_unspecified dest_sa))
      (assertb (negb (intf_unspecified src_intf))
      (Ret (with_egress w (substrate_egress_q w ++ [mk_queued pkt dest_sa src_intf]))))
  | (w, pkt, inr None) => Ret (drop_and_count w pkt PeerRemoved)
  | (w, pkt, inl _) => Ret (drop_and_count w pkt EncryptionFailure)
  end.

Definition substrate_egress_packets_queued (w : FastpathWorker) : bool := negb (bool_decide (length (substrate_egress_q w) = 0%nat)).

(** [aggregate], into the shared counters of this worker. *)
Definition aggregate (shared : FastpathCounters) (w : FastpathWorker) : FastpathCounters * FastpathWorker :=
  (λ c, wrap64 (shared c + batch_counters w c),
   mk_worker (worker_index w) (buffers w) counters_default (return_q w) (adapter_manager w) (mgmt_dispatch w) (actor_input_q w) (substrate_egress_q w) (capture_queue w)).

(** ** To the actor *)

(** The first bytes of the A2A MICV of a packet's body. *)
Definition a2a_micv (key : option bytes) (l : bytes) : bytes :=
  take ZDP_A2A_MAC_SIZE (match key with Some k => blake3_keyed_hash k l | None => blake3_hash l end).

Definition actor_input (asm : Assembly) (w : FastpathWorker) (tether_id : Z) (pkt : Packet) : outcome FastpathWorker :=
  r ← read_from_buf (zdpA2aHeader a2aSaid) pkt;
  match r with
  | None => Ret (drop_and_count w pkt BadStructure)
  | Some (a2a_hdr, pkt) =>
      if negb (a2a_said a2a_hdr =? 0) then Panic
      else if zlen (body M pkt) <? Z.of_nat ZDP_A2A_MAC_SIZE then Ret (drop_and_count w pkt BadStructure)
      else
        a2a_mac ← slice_from (body M pkt) (length (body M pkt) - ZDP_A2A_MAC_SIZE);
        pkt ← shrink_by pkt (Z.of_nat ZDP_A2A_MAC_SIZE);
        match dlt_get (asm_dlt asm) tether_id with
        | None => Ret (drop_and_count w pkt UnknownStreamId)
        | Some pep =>
            if (match ph_mode asm with PhAdapter => true | PhNode => false end) && negb (adapter_owns_address asm (dst_address (tc_five_tuple (dlt_tc pep))))
            then Ret (drop_and_count w pkt OtherError)
            else
              pkt ← expand M (compression_mode (dlt_tc pep)) (tc_five_tuple (dlt_tc pep)) pkt;
              if bool_decide (a2a_micv (dlt_a2a_micv_key pep) (body M pkt) = a2a_mac)
              then Ret (with_input w (actor_input_q w ++ [pkt]))
              else Ret (drop_and_count w pkt MicvFailure)
        end
  end.

(** ** Forwarding *)

(** The next hop on the adapter, and in the ingress peer's forwarding table on
    the node; or why there is none. *)
Definition next_hop (asm : Assembly) (pkt : Packet) : FastpathCounterType + ForwardingEntry :=
  let md := metadata pkt in
  match ph_mode asm with
  | PhAdapter => inr (adapter_next_hop_link (ingress_link_id md), ingress_stream_id md)
  | PhNode =>
      match peer_get asm (ingress_link_id md) with
      | None => inl UnknownPeer
      | Some peer =>
          match pft_get (fp_pft peer) (ingress_stream_id md) with
          | None => inl UnknownStreamId
          | Some pep => inr (pft_next_hop pep)
          end
      end
  end.

Definition forward (asm : Assembly) (ts : Z * Z) (w : FastpathWorker) (pkt : Packet) : outcome FastpathWorker :=
  match next_hop asm pkt with
  | inl reason => Ret (drop_and_count w pkt reason)
  | inr (egress_link_id, egress_stream_id) =>
      if egress_link_id =? LOCAL_ACTOR_LINK_ID then actor_input asm w egress_stream_id pkt
      else
        pkt ← alloc_header M pkt (as_bytes zdpPerFlowHeader (mk_ZdpPerFlowHeader egress_stream_id));
        pkt ← alloc_header M pkt (as_bytes zdpBaseHeader (mk_ZdpBaseHeader (packet_type TransitPacket) 0));
        substrate_egress asm ts w (upd_metadata pkt (set_egress_link egress_link_id))
  end.

(** ** From the actor *)

Definition set_ttl (h : IPv4Header) (t : Z) : IPv4Header :=
  mk_IPv4Header (vhl h) (dscp h) (total_length h) (frag_id h) (frag_offset h) t (proto h) (header_checksum h) (ip4_src_address h) (ip4_dst_address h).
Definition set_hop_limit (h : IPv6Header) (t : Z) : IPv6Header :=
  mk_IPv6Header (version_and_tc_upper h) (tc_lower_and_fl_upper h) (fl_lower h) (payload_length h) (next_header h) t (ip6_src_address h) (ip6_dst_address h).

Definition decrement_ttl (pkt : Packet) : outcome (Packet * bool) :=
  let l3 := NetDefs.l3_type (five_tuple (metadata pkt)) in
  if l3 =? L3_Ipv4 then
    hdr ← slice_to (body M pkt) (Z.of_nat (size_of ipv4Header));
    let h := from_bytes ipv4Header hdr in
    let t := if 0 <? ttl h then ttl h - 1 else ttl h in
    Ret (write_prefix M pkt (as_bytes ipv4Header (set_ttl h t)), t =? 0)
  else if l3 =? L3_Ipv6 then
    hdr ← slice_to (body M pkt) (Z.of_nat (size_of ipv6Header));
    let h := from_bytes ipv6Header hdr in
    let t := if 0 <? hop_limit h then hop_limit h - 1 else hop_limit h in
    Ret (write_prefix M pkt (as_bytes ipv6Header (set_hop_limit h t)), t =? 0)
  else Ret (pkt, false).

(** An active entry: MICV, compression, A2A trailer and header, then on. *)
Definition actor_output_active (asm : Assembly) (ts : Z * Z) (w : FastpathWorker) (pep : EltPep) (pkt : Packet) : outcome FastpathWorker :=
  let ft := five_tuple (metadata pkt) in
  let a2a_mac := a2a_micv (elt_a2a_micv_key pep) (body M pkt) in
  pkt ← compress M (elt_compression_mode pep) (NetDefs.l3_type ft) (l4_protocol ft) pkt;
  pkt ← put M pkt a2a_mac;
  pkt ← alloc_header M pkt (as_bytes (zdpA2aHeader a2aSaid) (mk_ZdpA2aHeader 0));
  forward asm ts w (upd_metadata pkt (set_ingress_stream (elt_tether_id pep))).

Definition actor_output_post_classify (asm : Assembly) (ts : Z * Z) (w : FastpathWorker) (pkt : Packet) (allow_bind_request : bool) : outcome FastpathWorker :=
  let ft := five_tuple (metadata pkt) in
  if (match ph_mode asm with PhAdapter => true | PhNode => false end) && negb (adapter_owns_address asm (src_address ft))
  then Ret (drop_and_count w pkt OtherError)
  else
    match table (asm_elt asm) !! ft with
    | None =>
        if negb allow_bind_request then Ret (drop_and_count w pkt OtherError)
        else r ← try_request_tether_id w pkt; Ret (sent_or_dropped r ActorSlowpath)
    | Some (Active pep) => actor_output_active asm ts w pep pkt
    | Some (Pending _ _) => Ret (drop_and_count w pkt DroppedAwaitingBind)
    end.

Definition actor_output (asm : Assembly) (ts : Z * Z) (w : FastpathWorker) (pkt : Packet) : outcome FastpathWorker :=
  let pkt := upd_metadata pkt (set_ingress_link LOCAL_ACTOR_LINK_ID) in
  let pkt := upd_metadata pkt (set_ingress_lane (worker_index w mod 256)) in
  r ← classify (five_tuple (metadata pkt)) (body M pkt);
  let pkt := upd_metadata pkt (set_five_tuple r.1) in
  match r.2 with
  | inl _ => Ret (drop_and_count w pkt InPacksDrop)
  | inr (FirstFragment | SubsequentFragment) => Ret (drop_and_count w pkt InPacksDrop)
  | inr NonIP => Ret (drop_and_count w pkt InPacksDrop)
  | inr (OK | UnclassifiedL4) =>
      r ← decrement_ttl pkt;
      if (r.2 : bool) then Ret (drop_and_count w r.1 TtlExpired)
      else actor_output_post_classify asm ts w r.1 true
  end.

(** ** From the substrate *)

(** Behind the ZPI header of a packet on a known link. *)
Definition ingress_link_packet (asm : Assembly) (ts : Z * Z) (w : FastpathWorker) (z : Z) (pkt : Packet) : outcome FastpathWorker :=
  r ← read_from_buf zdpBaseHeader pkt;
  match r with
  | None => Ret (drop_and_count w pkt BadStructure)
  | Some (base_hdr, pkt) =>
      if (z =? ZPI_0) && negb (base_packet_type base_hdr =? packet_type KeyManagement) then Ret (drop_and_count w pkt OtherError)
      else if negb (base_packet_type base_hdr =? packet_type TransitPacket) then
        pkt ← alloc_header M pkt (as_bytes zdpBaseHeader base_hdr);
        r ← try_dispatch_mgmt_packet_with_link w pkt;
        Ret (sent_or_dropped r DispatchedToMgmt)
      else
        r ← read_from_buf zdpPerFlowHeader pkt;
        match r with
        | None => Ret (drop_and_count w pkt BadStructure)
        | Some (per_flow_hdr, pkt) => forward asm ts w (upd_metadata pkt (set_ingress_stream (stream_id per_flow_hdr)))
        end
  end.

Definition substrate_ingress (asm : Assembly) (ts : Z * Z) (w : FastpathWorker) (peer_sa : SocketAddr) (interface_addr : ScopedIpAddr) (pkt : Packet)
    : outcome FastpathWorker :=
  let pkt := upd_metadata pkt (set_ingress_link (default 0 (lookup_peer asm peer_sa interface_addr))) in
  match read_from_prefix zdpZpiHeader (body M pkt) with
  | None => Ret (drop_and_count w pkt BadStructure)
  | Some (zpi_hdr, _) =>
      r ← decrypt asm (zpi zpi_hdr) pkt;
      match r with
      | (pkt, inl err) => Ret (drop_and_count w pkt (decrypt_error_counter err))
      | (pkt, inr _) =>
          r ← maybe_capture asm Inbound ts w pkt;
          let '(w, pkt) := r in
          r ← read_from_buf zdpZpiHeader pkt;
          match r with
          | None => Ret (drop_and_count w pkt BadStructure)
          | Some (_, pkt) =>
              if ingress_link_id (metadata pkt) =? LINK_ID_UNKNOWN then
                r ← try_dispatch_mgmt_packet_with_addr w peer_sa interface_addr pkt;
                Ret (sent_or_dropped r DispatchedToMgmt)
              else ingress_link_packet asm ts w (zpi zpi_hdr) pkt
          end
      end
  end.
End fastpath.

(** ** A concrete network, for examples

    Two adapters, with their docks at the links 3 and 4 of a node; the flow
    [ft] is bound from the first (tether 5) to the second (tether 9). *)
Definition sa_adapter (k : Z) : KmTransportSA unit := sa_new (mk_zpi_pair 1 2) (mk_zpi_pair 3 4) (replicate 32 k) (replicate 32 (k + 1)) (shift_codec k) None.
Definition sa_node (k : Z) : KmTransportSA unit := sa_new (mk_zpi_pair 3 4) (mk_zpi_pair 1 2) (replicate 32 (k + 1)) (replicate 32 k) (shift_codec k) None.

Definition addr (n : Z) : SocketAddr := SockV4 [10; 9; 0; n] 5000.

Definition sample_peer (a : SocketAddr) (sa : KmTransportSA unit) (pft : PeerForwardingTable) (owned : list IpAddress) : @FpPeer _ _ Z unit :=
  mk_fp_peer a 7 (Some sa) pft true owned None.

Definition slab_of {A} (l : list (Z * A)) : slab A := mk_map_slab (list_to_map ((λ e, (stream_key e.1, e.2)) <$> l)) 1024.

Definition sample_secret : option SharedSecret := Some [1; 2; 3].

Definition sample_adapter (ft : FiveTuple) (k : Z) (mine : IpAddress) : @Assembly _ _ _ Z unit :=
  mk_assembly PhAdapter true (slab_of [(DOCK_LINK_ID, sample_peer (addr 1) (sa_adapter k) (slab_of []) [mine])])
    [((addr 1, 7), DOCK_LINK_ID)]
    (mk_elt {[ ft := Active (elt_pep_new 3 5 sample_secret) ]} ∅)
    (slab_of [(9, dlt_pep_new (mk_tc ft) sample_secret)]) (Some (λ _, 20)).

Definition sample_node : @Assembly _ _ _ Z unit :=
  mk_assembly PhNode true
    (slab_of [(3, sample_peer (addr 2) (sa_node 20) (slab_of [(5, mk_pft_pep (4, 9) 77)]) []); (4, sample_peer (addr 3) (sa_node 30) (slab_of []) [])])
    [((addr 2, 7), 3); ((addr 3, 7), 4)] elt_new (slab_of []) None.

Definition sample_worker : @FastpathWorker _ Z :=
  worker_new 2 0 (Buffer sample_metadata (replicate 200 0)) (chan_new 4) (chan_new 4) (mk_capture 1 [] false).

(** A packet of 200 bytes with the body [l]. *)
Definition rx (l : bytes) : Packet := of_view 96 sample_metadata (replicate 64 0) l (replicate (136 - length l) 0).

Definition sent_body (w : @FastpathWorker _ Z) : bytes := match substrate_egress_q w with [q] => body 96 (q_pkt q) | _ => [] end.

(** A packet of the flow over the three: the packets queued for the second actor, and
    the second adapter's MICV failures. *)
Definition across (ft : FiveTuple) (p : bytes) : outcome (list bytes * Z) :=
  wA ← actor_output 96 (Z.eqb 0) u8 (sample_adapter ft 20 (src_address ft)) (1, 2) sample_worker (rx p);
  wN ← substrate_ingress 96 (Z.eqb 0) 0 u8 sample_node (1, 2) sample_worker (addr 2) 7 (rx (sent_body wA));
  wB ← substrate_ingress 96 (Z.eqb 0) 0 u8 (sample_adapter ft 30 (dst_address ft)) (1, 2) sample_worker (addr 1) 7 (rx (sent_body wN));
  Ret (body 96 <$> actor_input_q wB, batch_counters wB MicvFailure).

Definition v6_hdr (hops : Z) : IPv6Header := mk_IPv6Header 0x60 0 [0; 0] 11 17 hops (src_address ext_flow) (dst_address ext_flow).
Definition v6_packet (hops : Z) : bytes := as_bytes ipv6Header (v6_hdr hops) ++ sample_seg.

Example across_v6 : across ext_flow (v6_packet 64) = Ret ([v6_packet 63], 0).
Proof. vm_compute. reflexivity. Qed.

Example across_v4 : across sample_flow sample_packet = Ret ([], 1).
Proof. vm_compute. reflexivity. Qed.
