(* ===== verification/FastPathSafe.v ===== *)
(** The fast path neither leaks nor duplicates a buffer: every packet it is
    given ends in exactly one place, with its buffer whole. *)
From S2P Require Import Prelude Zdp Dispatch TxnMgr Slab Utf8 Tlv NetDefs IpHeaders PacketBuf Compress Classifier Tc AdapterTables Node Transport Queues PacketKeep FastPath.

(** A codec writes into the slice it is given, and reports a length. *)
Definition codec_ok (c : Codec) : Prop :=
  ∀ l m, zlen (encrypt_transport_stateless c l m).1 = zlen m ∧ zlen (decrypt_transport_stateless c l m).1 = zlen m ∧
    match (encrypt_transport_stateless c l m).2 with inr n => 0 <= n | inl _ => True end ∧
    match (decrypt_transport_stateless c l m).2 with inr n => 0 <= n | inl _ => True end.

(** ** Transport *)

Section transport_keep.
Context {ND : NetDefs} {B3 : Blake3} (M : Z) (HM : 0 < M).
Implicit Types p q : Packet.

Lemma tailroom_tail p : valid M p → tailroom_available M p = zlen (tail M p).
Proof. intros Hv. rewrite (valid_view M p Hv) at 1. apply tailroom_view. Qed.

Lemma set_tail_ensures p q t : kept M p q → zlen t = zlen (tail M q) → kept M p (set_tail M q t).
Proof.
  intros Hk Ht. eapply kept_trans; [done|]. apply kept_valid in Hk as Hv. rewrite (valid_view M q Hv) at 2. rewrite set_tail_view.
  eapply kept_view; [by apply valid_view|lia|done].
Qed.

Lemma adopt_ensures p q hl n : kept M p q → 0 <= hl → 0 <= n → ensures (adopt_tailroom_with_header M q hl n) (kept M p).
Proof using HM.
  intros Hk Hh Hn r Hr. apply kept_valid in Hk as Hv. eapply kept_trans; [done|]. revert Hr.
  destruct (decide (hl <= zlen (body M q) ∧ n <= zlen (tail M q))) as [[Hb Ht]|Hno].
  - rewrite (valid_view M q Hv) at 1.
    rewrite <- (take_drop (Z.to_nat hl) (body M q)), <- (take_drop (Z.to_nat n) (tail M q)).
    pose proof (zlen_take hl (body M q) ltac:(lia)) as E1. pose proof (zlen_take n (tail M q) ltac:(lia)) as E2.
    destruct (adopt_view M (metadata q) (head M q) (take (Z.to_nat hl) (body M q)) (drop (Z.to_nat hl) (body M q))
      (drop (Z.to_nat n) (tail M q)) (take (Z.to_nat n) (tail M q)) HM) as (g & E & Hg).
    rewrite E1, E2 in E. rewrite E. intros [= <-]. eapply kept_view; [by apply valid_view| |done].
    rewrite zlen_app. pose proof (zlen_take_drop (Z.to_nat hl) (body M q)). pose proof (zlen_take_drop (Z.to_nat n) (tail M q)). lia.
  - unfold adopt_tailroom_with_header, assertb. rewrite tailroom_tail by done.
    assert (len (metadata q) = zlen (body M q)) as -> by (rewrite (valid_view M q Hv) at 1; done).
    destruct (Z.leb_spec hl (zlen (body M q))); [|done]. destruct (Z.leb_spec n (zlen (tail M q))); [lia|done].
Qed.

Lemma encap_ensures p q z : kept M p q → ensures (encap_zpi M z q) (kept M p).
Proof. apply alloc_header_ensures. Qed.

#[local] Hint Resolve set_tail_ensures adopt_ensures encap_ensures : keep.

Lemma encrypt_full_ensures p q c : codec_ok c → kept M p q → ensures (encrypt_full M c q) (λ r, kept M p r.1).
Proof using HM.
  intros Hc Hk. unfold encrypt_full. apply ensures_if; intros Hl; [by apply ensures_ret|]. apply Z.ltb_ge in Hl. cbv zeta. apply ensures_if; intros _.
  - destruct (Hc (drop 1 (body M q)) (tail M q)) as (Ht & _ & Hn & _). destruct (encrypt_transport_stateless c (drop 1 (body M q)) (tail M q)) as [t r].
    cbn [fst snd] in *. destruct r as [e|n]; [apply ensures_ret; cbn; by apply set_tail_ensures|]. pose proof (set_tail_ensures p q t Hk Ht). keeps.
  - destruct (encrypt_transport_stateless c _ _) as [t r]. destruct r as [e|n]; [by apply ensures_ret|].
    eapply ensures_bind; [apply shrink_ensures; [done|lia]|]. intros a Ha. keeps.
Qed.

Lemma protect_ensures {C} p q (sa : option (KmTransportSA C)) transit : (∀ s, sa = Some s → codec_ok (codec s)) → kept M p q →
  ensures (protect M sa transit q) (λ r, kept M p r.1).
Proof using HM.
  intros Hc Hk. unfold protect. destruct sa as [s|].
  - apply ensures_if; intros _; [|by apply encrypt_full_ensures; [apply Hc|]]. unfold encrypt_hmac. keeps.
  - unfold encrypt_null. eapply ensures_bind; [eapply ensures_bind_any; intros; by apply put_ensures|]. intros a Ha. by apply ensures_ret.
Qed.

Lemma decrypt_null_ensures p q : kept M p q → ensures (decrypt_null M q) (λ r, kept M p r.1).
Proof. intros Hk. unfold decrypt_null. keeps. Qed.

Lemma decrypt_hmac_ensures p q key : kept M p q → ensures (decrypt_hmac M key q) (λ r, kept M p r.1).
Proof. intros Hk. unfold decrypt_hmac. keeps. Qed.

Lemma decrypt_full_ensures p q c n : codec_ok c → kept M p q → ensures (decrypt_full M c n q) (λ r, kept M p r.1).
Proof using HM.
  intros Hc Hk. unfold decrypt_full. apply ensures_if; intros Hl; [by apply ensures_ret|]. apply Z.ltb_ge in Hl. cbv zeta.
  apply ensures_if; intros _; [by apply ensures_ret|]. apply ensures_if; intros _.
  - destruct (Hc (drop 1 (body M q)) (tail M q)) as (_ & Ht & _ & Hn). destruct (decrypt_transport_stateless c (drop 1 (body M q)) (tail M q)) as [t r].
    cbn [fst snd] in *. destruct r as [e|k]; [apply ensures_ret; cbn; by apply set_tail_ensures|]. pose proof (set_tail_ensures p q t Hk Ht). keeps.
  - destruct (decrypt_transport_stateless c _ _) as [t r]. destruct r as [e|k]; [by apply ensures_ret|].
    eapply ensures_bind; [apply shrink_ensures; [done|lia]|]. intros a Ha. keeps.
Qed.

Lemma decrypt_with_sa_ensures {C} p q noise z (sa : KmTransportSA C) : codec_ok (codec sa) → kept M p q →
  ensures (decrypt_with_sa M noise z sa q) (λ r, kept M p r.1).
Proof using HM.
  intros Hc Hk. unfold decrypt_with_sa.
  apply ensures_if; intros _; [by apply decrypt_hmac_ensures|]. apply ensures_if; intros _; [by apply decrypt_full_ensures|by apply ensures_ret].
Qed.
End transport_keep.

(** ** The worker *)

Section pool.
Context {ND : NetDefs} {NL : NetDefsLaws} {SL : Slab} {AK : A2aKeys} {B3 : Blake3} (M : Z) (HM : 0 < M).
Context {ScopedIpAddr Certificate : Type} `{EqDecision ScopedIpAddr} (intf_unspecified : ScopedIpAddr → bool).
Context (LINK_ID_UNKNOWN : Z) (a2aSaid : packed Z).
Abbreviation Asm := (@Assembly ND SL AK ScopedIpAddr Certificate).
Abbreviation Worker := (@FastpathWorker ND ScopedIpAddr).
Implicit Types (w : Worker) (p q : Packet) (asm : Asm) (n : Z).

(** The buffers a worker answers for. *)
Definition pool w : Z := zlen (buffers w) + zlen (actor_input_q w) + zlen (substrate_egress_q w) + outstanding (return_q w).

Definition in_pool n p : Prop := valid M p ∧ zlen (data p) = n.

Record worker_wf n w : Prop := mk_worker_wf {
  wf_buffers : Forall (sized n) (buffers w);
  wf_input : Forall (in_pool n) (actor_input_q w);
  wf_egress : Forall (λ e, in_pool n (q_pkt e)) (substrate_egress_q w);
  wf_dispatch : Forall (λ m, sized n (dispatch_message_buffer m.1)) (chan_msgs (mgmt_dispatch w));
  wf_manager : Forall (λ m, sized n (manager_message_buffer m.1)) (chan_msgs (adapter_manager w));
  wf_outstanding : 0 <= outstanding (return_q w);
}.

(** [w'] answers for the buffers of [w] and one more. *)
Definition took n w w' : Prop := worker_wf n w' ∧ pool w' = pool w + 1.
(** [w'] answers for the buffers of [w]. *)
Definition same_pool n w w' : Prop := worker_wf n w' ∧ pool w' = pool w.

Lemma in_pool_kept n p q : in_pool n p → kept M p q → in_pool n q.
Proof. intros [_ <-] (Hv & Hd & _). done. Qed.

Lemma in_pool_sized n p : in_pool n p → sized n (destroy p).
Proof. intros [_ Hn]. by exists (metadata p), (data p). Qed.

Lemma in_pool_upd n p f : in_pool n p → (∀ md, offset (f md) = offset md ∧ len (f md) = len md) → in_pool n (upd_metadata p f).
Proof. intros [Hv Hn] Hf. destruct (Hf (metadata p)) as [Ho Hl]. split; [|done]. unfold valid in *. cbn. rewrite Ho, Hl. done. Qed.

Lemma drop_took n w p c : worker_wf n w → in_pool n p → took n w (drop_and_count w p c).
Proof.
  intros [] Hp. split; [split; try done|].
  - cbn. apply list.Forall_app. split; [done|]. apply list.Forall_singleton. by apply in_pool_sized.
  - unfold pool. cbn. rewrite zlen_app. change (zlen [destroy p]) with 1. lia.
Qed.

Lemma count_same n w c k : worker_wf n w → same_pool n w (count w c k).
Proof. intros []. split; [by split|done]. Qed.

Lemma took_same n w w1 w2 : same_pool n w w1 → took n w1 w2 → took n w w2.
Proof. intros [_ E1] [H E2]. split; [done|]. lia. Qed.

Lemma took_count n w w' c k : took n w w' → took n w (count w' c k).
Proof. intros [H E]. destruct (count_same n w' c k H) as [H' E']. split; [done|]. lia. Qed.

Lemma advance_pool n p k : in_pool n p → 0 <= k → ensures (advance p k) (in_pool n).
Proof. intros Hp Hk. eapply ensures_mono; [apply (advance_ensures M p p); [apply kept_refl, Hp|done]|]. intros. by eapply in_pool_kept. Qed.
Lemma alloc_header_pool n p l : in_pool n p → ensures (alloc_header M p l) (in_pool n).
Proof. intros Hp. eapply ensures_mono; [apply (alloc_header_ensures M p p); apply kept_refl, Hp|]. intros. by eapply in_pool_kept. Qed.
Lemma push_pool n p l : in_pool n p → ensures (push_header M p l) (in_pool n).
Proof. intros Hp. eapply ensures_mono; [apply (push_ensures M p p); apply kept_refl, Hp|]. intros. by eapply in_pool_kept. Qed.
Lemma put_pool n p l : in_pool n p → ensures (put M p l) (in_pool n).
Proof. intros Hp. eapply ensures_mono; [apply (put_ensures M p p); apply kept_refl, Hp|]. intros. by eapply in_pool_kept. Qed.
Lemma shrink_pool n p k : in_pool n p → 0 <= k → ensures (shrink_by p k) (in_pool n).
Proof. intros Hp Hk. eapply ensures_mono; [apply (shrink_ensures M p p); [apply kept_refl, Hp|done]|]. intros. by eapply in_pool_kept. Qed.
Lemma compress_pool n p mode l3 l4 : in_pool n p → ensures (compress M mode l3 l4 p) (in_pool n).
Proof. intros Hp. eapply ensures_mono; [apply (compress_ensures M p p); apply kept_refl, Hp|]. intros. by eapply in_pool_kept. Qed.
Lemma expand_pool n p mode ft : in_pool n p → ensures (expand M mode ft p) (in_pool n).
Proof using NL. intros Hp. eapply ensures_mono; [apply (expand_ensures M p p); apply kept_refl, Hp|]. intros. by eapply in_pool_kept. Qed.
Lemma write_prefix_pool n p l : in_pool n p → zlen l <= zlen (body M p) → in_pool n (write_prefix M p l).
Proof. intros Hp Hl. eapply in_pool_kept; [done|]. apply write_prefix_kept; [apply Hp|done]. Qed.

Lemma read_from_buf_pool {A} n p (c : packed A) : in_pool n p → ensures (read_from_buf M c p) (λ r, ∀ a p', r = Some (a, p') → in_pool n p').
Proof.
  intros Hp. unfold read_from_buf. destruct (read_from_prefix c (body M p)) as [[a l]|]; [|by apply ensures_ret].
  eapply ensures_bind; [apply advance_pool; [done|lia]|]. intros p' Hp'. apply ensures_ret. by intros ? ? [= <- <-].
Qed.

(** Packets that are captured are materially unchanged. *)
Lemma capture_enqueue_pool n c p ts k : in_pool n p → ensures (capture_try_enqueue M c p ts k) (λ r, in_pool n r.1.2).
Proof.
  intros Hp. unfold capture_try_enqueue. cbv zeta. eapply ensures_bind; [by apply push_pool|]. intros p1 H1. apply ensures_bind_any. intros l _.
  eapply ensures_bind; [by apply advance_pool|]. intros p2 H2. apply ensures_if; intros _; [apply ensures_panic|]. destruct (cap_room c); by apply ensures_ret.
Qed.

Lemma capture_loop_pool n prog dir ts c ps : Forall (in_pool n) ps →
  ensures (capture_loop M prog dir ts c ps) (λ r, Forall (in_pool n) r.1.2 ∧ length r.1.2 = length ps).
Proof.
  intros Hps. revert c. induction Hps as [|p ps Hp Hps IH]; intros c; cbn [capture_loop]; [by apply ensures_ret|].
  eapply ensures_bind; [by apply alloc_header_pool|]. intros p1 H1. cbv zeta. apply ensures_if; intros _.
  - eapply ensures_bind; [by apply capture_enqueue_pool|]. intros [[c1 p2] ok] H2. cbn [fst snd] in H2.
    eapply ensures_bind; [apply advance_pool; [done|lia]|]. intros p3 H3. apply ensures_if; intros _.
    + eapply ensures_bind; [apply IH|]. intros [[c2 ps2] [[a b] d]] [HF HL]. apply ensures_ret. cbn in *. split; [by constructor|lia].
    + apply ensures_ret. cbn. split; [by constructor|done].
  - eapply ensures_bind; [apply advance_pool; [done|lia]|]. intros p3 H3. eapply ensures_bind; [apply IH|].
    intros [[c2 ps2] [[a b] d]] [HF HL]. apply ensures_ret. cbn in *. split; [by constructor|lia].
Qed.

Lemma with_capture_same n w c cs : worker_wf n w → same_pool n w (with_capture w c cs).
Proof. intros []. split; [by split|done]. Qed.

Lemma maybe_capture_pool n asm dir ts w p : worker_wf n w → in_pool n p →
  ensures (maybe_capture M asm dir ts w p) (λ r, same_pool n w r.1 ∧ in_pool n r.2).
Proof.
  intros Hw Hp. unfold maybe_capture, maybe_capture_batch. destruct (capture_program asm) as [prog|].
  - apply ensures_bind_any. intros [w' ps] E. apply outcome_bind_Ret in E as ([[c ps'] [[a b] d]] & E & [= <- <-]).
    destruct (capture_loop_pool n prog dir ts (capture_queue w) [p] ltac:(by constructor) _ E) as [HF HL]. cbn [fst snd] in *.
    destruct ps' as [|p' ps']; [done|]. apply ensures_ret. apply list.Forall_cons in HF as [HF _]. split; [by apply with_capture_same|done].
  - cbn. apply ensures_ret. by split; [split|].
Qed.

Lemma dispatch_took n w m : worker_wf n w → pool w + 1 < U64_MOD → sized n (dispatch_message_buffer m) →
  ensures (try_dispatch_mgmt_packet w m) (λ r, match r.2 with None => took n w r.1 | Some m' => r.1 = w ∧ m' = m end).
Proof.
  intros Hw Hp Hm. unfold try_dispatch_mgmt_packet, tw_try_send, chan_try_send.
  destruct (chan_closed _); [apply ensures_panic|]. destruct (_ <=? _); [by apply ensures_ret|]. apply ensures_ret. cbn. destruct Hw.
  unfold pool in *. pose proof (zlen_nonneg (buffers w)). pose proof (zlen_nonneg (actor_input_q w)). pose proof (zlen_nonneg (substrate_egress_q w)).
  assert (wrap64 (outstanding (return_q w) + 1) = outstanding (return_q w) + 1) as E by (apply wrap64_small; unfold is_u64; lia).
  split; [split; try done|].
  - cbn. apply list.Forall_app. split; [done|]. by apply list.Forall_singleton.
  - cbn. rewrite E. lia.
  - unfold pool. cbn. rewrite E. lia.
Qed.

Lemma sent_or_dropped_took n w r c : worker_wf n w → (match r.2 with None => took n w r.1 | Some p => r.1 = w ∧ in_pool n p end) →
  took n w (sent_or_dropped r c).
Proof.
  intros Hw Hr. unfold sent_or_dropped. destruct r as [w' [p|]]; cbn in *; [|by apply took_count]. destruct Hr as [-> Hp]. by apply drop_took.
Qed.

Lemma dispatch_link_took n w p c : worker_wf n w → pool w + 1 < U64_MOD → in_pool n p →
  ensures (r ← try_dispatch_mgmt_packet_with_link w p; Ret (sent_or_dropped r c)) (took n w).
Proof.
  intros Hw Hn Hp. eapply ensures_bind.
  - eapply ensures_bind; [apply dispatch_took; [done|done|by apply in_pool_sized]|]. intros [w' [m|]] Hr; cbn [fst snd] in *.
    + destruct Hr as [-> ->]. apply ensures_ret. instantiate (1 := λ r, match r.2 with None => took n w r.1 | Some p => r.1 = w ∧ in_pool n p end). done.
    + by apply ensures_ret.
  - intros r Hr. apply ensures_ret. by apply sent_or_dropped_took.
Qed.

Lemma dispatch_addr_took n w sa intf p c : worker_wf n w → pool w + 1 < U64_MOD → in_pool n p →
  ensures (r ← try_dispatch_mgmt_packet_with_addr w sa intf p; Ret (sent_or_dropped r c)) (took n w).
Proof.
  intros Hw Hn Hp. eapply ensures_bind.
  - eapply ensures_bind; [apply dispatch_took; [done|done|by apply in_pool_sized]|]. intros [w' [m|]] Hr; cbn [fst snd] in *.
    + destruct Hr as [-> ->]. apply ensures_ret. instantiate (1 := λ r, match r.2 with None => took n w r.1 | Some p => r.1 = w ∧ in_pool n p end). done.
    + by apply ensures_ret.
  - intros r Hr. apply ensures_ret. by apply sent_or_dropped_took.
Qed.

Lemma request_took n w p c : worker_wf n w → pool w + 1 < U64_MOD → in_pool n p →
  ensures (r ← try_request_tether_id w p; Ret (sent_or_dropped r c)) (took n w).
Proof.
  intros Hw Hn Hp. eapply (ensures_bind _ _ (λ r, match r.2 with None => took n w r.1 | Some p => r.1 = w ∧ in_pool n p end)).
  - unfold try_request_tether_id, tw_try_send, chan_try_send. destruct (chan_closed _); [apply ensures_panic|].
    destruct (_ <=? _); [by apply ensures_ret|]. apply ensures_ret. cbn. destruct Hw.
    unfold pool in *. pose proof (zlen_nonneg (buffers w)). pose proof (zlen_nonneg (actor_input_q w)). pose proof (zlen_nonneg (substrate_egress_q w)).
    assert (wrap64 (outstanding (return_q w) + 1) = outstanding (return_q w) + 1) as E by (apply wrap64_small; unfold is_u64; lia).
    split; [split; try done|].
    + cbn. apply list.Forall_app. split; [done|]. apply list.Forall_singleton. by apply in_pool_sized.
    + cbn. rewrite E. lia.
    + unfold pool. cbn. rewrite E. lia.
  - intros r Hr. apply ensures_ret. by apply sent_or_dropped_took.
Qed.

(** Every association the assembly holds has a codec that keeps to its slices. *)
Definition codecs_ok asm : Prop := ∀ l peer sa, peer_get asm l = Some peer → fp_transport_sa peer = Some sa → codec_ok (codec sa).

Lemma egress_common_pool n asm ts l w p : codecs_ok asm → worker_wf n w → in_pool n p →
  ensures (substrate_egress_common M asm ts l w p) (λ r, same_pool n w r.1.1 ∧ in_pool n r.1.2).
Proof using HM.
  intros Hc Hw Hp. assert (same_pool n w w) as Hs by by split. unfold substrate_egress_common.
  destruct (read_from_prefix _ _) as [[hdr rest]|]; [|by apply ensures_ret]. cbv zeta. destruct (peer_get asm l) as [peer|] eqn:Ep; [|by apply ensures_ret].
  set (sa := if base_packet_type hdr =? packet_type KeyManagement then None else fp_transport_sa peer).
  assert (∀ s, sa = Some s → codec_ok (codec s)) as Hsa.
  { intros s' E. unfold sa in E. destruct (_ =? packet_type KeyManagement); [done|]. by eapply Hc. }
  clearbody sa. apply ensures_assert. intros _. eapply ensures_bind; [by apply alloc_header_pool|]. intros p1 H1.
  eapply ensures_bind; [by apply maybe_capture_pool|]. intros [w1 p2] [Hw1 H2]. cbn [fst snd] in *.
  eapply ensures_bind; [apply (protect_ensures M HM p2 p2); [exact Hsa|apply kept_refl, H2]|]. intros [p3 r] H3. cbn [fst] in H3.
  destruct r as [e|[]]; apply ensures_ret; cbn; (split; [done|by eapply in_pool_kept]).
Qed.

Lemma substrate_egress_took n asm ts w p : codecs_ok asm → worker_wf n w → in_pool n p → ensures (substrate_egress M intf_unspecified asm ts w p) (took n w).
Proof using HM.
  intros Hc Hw Hp. unfold substrate_egress. eapply ensures_bind; [by apply egress_common_pool|]. intros [[w1 p1] r] [Hs H1]. cbn [fst snd] in *.
  assert (∀ c, took n w (drop_and_count w1 p1 c)) as Hd by (intros c; eapply took_same; [done|by apply drop_took; [apply Hs|]]).
  destruct r as [e|[[dst src]|]]; [by apply ensures_ret| |by apply ensures_ret]. do 2 (apply ensures_assert; intros _). apply ensures_ret.
  destruct Hs as [[] Hpool]. split; [split; try done|].
  - cbn. apply list.Forall_app. split; [done|]. by apply list.Forall_singleton.
  - rewrite <- Hpool. unfold pool. cbn. rewrite zlen_app. change (zlen [mk_queued p1 dst src]) with 1. lia.
Qed.

Lemma actor_input_took n asm w tether p : worker_wf n w → in_pool n p → ensures (actor_input M a2aSaid asm w tether p) (took n w).
Proof using NL.
  intros Hw Hp. assert (∀ q c, in_pool n q → ensures (Ret (drop_and_count w q c)) (took n w)) as Hd by (intros; by apply ensures_ret, drop_took).
  unfold actor_input. eapply ensures_bind; [by apply read_from_buf_pool|]. intros [[hdr p1]|] H1; [|by apply Hd]. specialize (H1 _ _ eq_refl).
  apply ensures_if; intros _; [apply ensures_panic|]. apply ensures_if; intros _; [by apply Hd|]. apply ensures_bind_any. intros mac _.
  eapply ensures_bind; [apply shrink_pool; [done|lia]|]. intros p2 H2. destruct (dlt_get _ _) as [pep|]; [|by apply Hd].
  apply ensures_if; intros _; [by apply Hd|]. eapply ensures_bind; [by apply expand_pool|]. intros p3 H3.
  apply ensures_if; intros _; [|by apply Hd]. apply ensures_ret. destruct Hw. split; [split; try done|].
  - cbn. apply list.Forall_app. split; [done|]. by apply list.Forall_singleton.
  - unfold pool. cbn. rewrite zlen_app. change (zlen [p3]) with 1. lia.
Qed.

Lemma forward_took n asm ts w p : codecs_ok asm → worker_wf n w → in_pool n p → ensures (forward M intf_unspecified a2aSaid asm ts w p) (took n w).
Proof using HM NL.
  intros Hc Hw Hp. unfold forward. destruct (next_hop asm p) as [c|[l s]]; [by apply ensures_ret, drop_took|].
  apply ensures_if; intros _; [by apply actor_input_took|]. eapply ensures_bind; [by apply alloc_header_pool|]. intros p1 H1.
  eapply ensures_bind; [by apply alloc_header_pool|]. intros p2 H2. apply substrate_egress_took; [done|done|]. by apply in_pool_upd.
Qed.

Lemma output_active_took n asm ts w pep p : codecs_ok asm → worker_wf n w → in_pool n p →
  ensures (actor_output_active M intf_unspecified a2aSaid asm ts w pep p) (took n w).
Proof using HM NL.
  intros Hc Hw Hp. unfold actor_output_active. cbv zeta. eapply ensures_bind; [by apply compress_pool|]. intros p1 H1.
  eapply ensures_bind; [by apply put_pool|]. intros p2 H2. eapply ensures_bind; [by apply alloc_header_pool|]. intros p3 H3.
  apply forward_took; [done|done|]. by apply in_pool_upd.
Qed.

Lemma post_classify_took n asm ts w p allow : codecs_ok asm → worker_wf n w → pool w + 1 < U64_MOD → in_pool n p →
  ensures (actor_output_post_classify M intf_unspecified a2aSaid asm ts w p allow) (took n w).
Proof using HM NL.
  intros Hc Hw Hn Hp. unfold actor_output_post_classify. cbv zeta.
  apply ensures_if; intros _; [by apply ensures_ret, drop_took|]. destruct (_ !! _) as [[pkt txn|pep]|].
  - by apply ensures_ret, drop_took.
  - by apply output_active_took.
  - apply ensures_if; intros _; [by apply ensures_ret, drop_took|]. by apply request_took.
Qed.

Lemma set_ttl_range h t : in_range ipv4Header h → 0 <= t <= ttl h → in_range ipv4Header (set_ttl h t).
Proof. destruct h. cbn. intros. destruct_and!. split_and!; try done; lia. Qed.
Lemma set_hop_limit_range h t : in_range ipv6Header h → 0 <= t <= hop_limit h → in_range ipv6Header (set_hop_limit h t).
Proof. destruct h. cbn. intros. destruct_and!. split_and!; try done; lia. Qed.

Lemma one_less_range x : 0 <= x → 0 <= (if 0 <? x then x - 1 else x) <= x.
Proof. destruct (Z.ltb_spec 0 x); lia. Qed.

Lemma patch_header_pool {A} n p (c : packed A) (f : A → A) l : PackedLaws c → (∀ h, in_range c h → in_range c (f h)) →
  Forall is_u8 (body M p) → in_pool n p → slice_to (body M p) (Z.of_nat (size_of c)) = Ret l → in_pool n (write_prefix M p (as_bytes c (f (from_bytes c l)))).
Proof.
  intros HL Hf Hb Hp. unfold slice_to. destruct (Z.ltb_spec (zlen (body M p)) (Z.of_nat (size_of c))); [done|]. intros [= <-].
  apply write_prefix_pool; [done|]. rewrite Nat2Z.id. unfold zlen in *. rewrite packed_length; [lia|].
  apply Hf, packed_range; [rewrite length_take; lia|by apply list.Forall_take].
Qed.

Lemma decrement_ttl_pool n p : Forall is_u8 (body M p) → in_pool n p → ensures (decrement_ttl M p) (λ r, in_pool n r.1).
Proof using NL.
  intros Hb Hp. unfold decrement_ttl. cbv zeta. apply ensures_if; intros _; [|apply ensures_if; intros _; [|by apply ensures_ret]].
  - apply ensures_bind_any. intros l El. apply ensures_ret. cbn [fst].
    apply (patch_header_pool n p ipv4Header (λ h, set_ttl h (if 0 <? ttl h then ttl h - 1 else ttl h))); [apply _| |done|done|done].
    intros h Hr. apply set_ttl_range; [done|]. apply one_less_range. destruct h; cbn in *; lia.
  - apply ensures_bind_any. intros l El. apply ensures_ret. cbn [fst].
    apply (patch_header_pool n p ipv6Header (λ h, set_hop_limit h (if 0 <? hop_limit h then hop_limit h - 1 else hop_limit h))); [apply _| |done|done|done].
    intros h Hr. apply set_hop_limit_range; [done|]. apply one_less_range. destruct h; cbn in *; lia.
Qed.

Lemma upd_body p f : (∀ md, offset (f md) = offset md ∧ len (f md) = len md) → body M (upd_metadata p f) = body M p.
Proof. intros Hf. destruct (Hf (metadata p)) as [Ho Hl]. unfold body. cbn. by rewrite Ho, Hl. Qed.

Lemma actor_output_took n asm ts w p : codecs_ok asm → worker_wf n w → pool w + 1 < U64_MOD → in_pool n p → Forall is_u8 (body M p) →
  ensures (actor_output M intf_unspecified a2aSaid asm ts w p) (took n w).
Proof using HM NL.
  intros Hc Hw Hn Hp Hb. unfold actor_output. cbv zeta. apply ensures_bind_any. intros [ft res] _. cbn [fst snd].
  match goal with |- context [decrement_ttl M ?q] => assert (in_pool n q ∧ body M q = body M p) as [Hq Eq] end.
  { split; [repeat apply in_pool_upd; done|]. by rewrite !upd_body. }
  destruct res as [e|[]]; try (by apply ensures_ret, drop_took).
  all: eapply ensures_bind; [apply decrement_ttl_pool; [by rewrite Eq|exact Hq]|]; intros [p1 b] H1; cbn [fst snd] in *;
    apply ensures_if; intros _; [by apply ensures_ret, drop_took|by apply post_classify_took].
Qed.

Lemma ingress_link_took n asm ts w z p : codecs_ok asm → worker_wf n w → pool w + 1 < U64_MOD → in_pool n p →
  ensures (ingress_link_packet M intf_unspecified a2aSaid asm ts w z p) (took n w).
Proof using HM NL.
  intros Hc Hw Hn Hp. unfold ingress_link_packet. eapply ensures_bind; [by apply read_from_buf_pool|]. intros [[hdr p1]|] H1; [|by apply ensures_ret, drop_took].
  specialize (H1 _ _ eq_refl). apply ensures_if; intros _; [by apply ensures_ret, drop_took|]. apply ensures_if; intros _.
  - eapply ensures_bind; [by apply alloc_header_pool|]. intros p2 H2. by apply dispatch_link_took.
  - eapply ensures_bind; [by apply read_from_buf_pool|]. intros [[fl p2]|] H2; [|by apply ensures_ret, drop_took]. specialize (H2 _ _ eq_refl).
    apply forward_took; [done|done|]. by apply in_pool_upd.
Qed.

Lemma decrypt_pool n asm z p : codecs_ok asm → in_pool n p → ensures (decrypt M LINK_ID_UNKNOWN asm z p) (λ r, in_pool n r.1).
Proof using HM.
  intros Hc Hp. unfold decrypt. cbv zeta. destruct (peer_get asm _) as [peer|] eqn:Ep; cbn [mbind option_bind].
  - destruct (fp_transport_sa peer) as [sa|] eqn:Es.
    + eapply ensures_mono; [apply (decrypt_with_sa_ensures M HM p p); [by eapply Hc|apply kept_refl, Hp]|]. intros. by eapply in_pool_kept.
    + apply ensures_if; intros _; [by apply ensures_ret|]. eapply ensures_mono; [apply (decrypt_null_ensures M p p), kept_refl, Hp|]. intros. by eapply in_pool_kept.
  - apply ensures_if; intros _; [by apply ensures_ret|]. eapply ensures_mono; [apply (decrypt_null_ensures M p p), kept_refl, Hp|]. intros. by eapply in_pool_kept.
Qed.

Lemma substrate_ingress_took n asm ts w sa intf p : codecs_ok asm → worker_wf n w → pool w + 1 < U64_MOD → in_pool n p →
  ensures (substrate_ingress M intf_unspecified LINK_ID_UNKNOWN a2aSaid asm ts w sa intf p) (took n w).
Proof using HM NL.
  intros Hc Hw Hn Hp. unfold substrate_ingress. cbv zeta.
  match goal with |- context [decrypt M _ asm _ ?q] => assert (in_pool n q) as Hq by by apply in_pool_upd end.
  destruct (read_from_prefix _ _) as [[zh rest]|]; [|by apply ensures_ret, drop_took].
  eapply ensures_bind; [by apply decrypt_pool|]. intros [p1 [e|[]]] H1; cbn [fst] in H1; [by apply ensures_ret, drop_took|].
  eapply ensures_bind; [by apply maybe_capture_pool|]. intros [w1 p2] [Hs H2]. cbn [fst snd] in *.
  eapply ensures_mono; [|intros ? ?; eapply took_same; [exact Hs|done]]. destruct Hs as [Hw1 Hpool].
  eapply ensures_bind; [by apply read_from_buf_pool|]. intros [[h p3]|] H3; [|by apply ensures_ret, drop_took]. specialize (H3 _ _ eq_refl).
  apply ensures_if; intros _; [apply dispatch_addr_took|apply ingress_link_took]; try done; lia.
Qed.
End pool.

(** Every operation of a fast-path worker accounts for the buffer of the
    packet it is given: on every path that returns, the buffer is in exactly one
    of the pool, the actor's queue, the egress queue and the queues to
    management (counted as outstanding), and every buffer and queued packet has
    the size it had, with its body within the buffer. *)
Theorem fastpath_keeps_buffers {ND : NetDefs} {NL : NetDefsLaws} {SL : Slab} {AK : A2aKeys} {B3 : Blake3} {ScopedIpAddr Certificate : Type}
    `{EqDecision ScopedIpAddr} (M unknown n : Z) (unspec : ScopedIpAddr → bool) (said : packed Z)
    (asm : @Assembly ND SL AK ScopedIpAddr Certificate) (ts : Z * Z) (w w' : FastpathWorker) (sa : SocketAddr) (intf : ScopedIpAddr) (p : Packet) :
  0 < M → codecs_ok asm → worker_wf M n w → pool w + 1 < U64_MOD → in_pool M n p → Forall is_u8 (body M p) →
  substrate_ingress M unspec unknown said asm ts w sa intf p = Ret w' ∨ actor_output M unspec said asm ts w p = Ret w' ∨
  (∃ allow, actor_output_post_classify M unspec said asm ts w p allow = Ret w') ∨ substrate_egress M unspec asm ts w p = Ret w' →
  worker_wf M n w' ∧ pool w' = pool w + 1.
Proof.
  intros HM Hc Hw Hn Hp Hb [E|[E|[[allow E]|E]]]; revert E.
  - by apply substrate_ingress_took.
  - by apply actor_output_took.
  - by apply post_classify_took.
  - by apply substrate_egress_took.
Qed.

Lemma write_front_ok {E} (e m : bytes) (x : E) : zlen (write_front e m x).1 = zlen m ∧ match (write_front e m x).2 with inr n => 0 <= n | inl _ => True end.
Proof.
  unfold write_front. destruct (Z.ltb_spec (zlen m) (zlen e)); [done|]. cbn [fst snd]. split; [|apply zlen_nonneg].
  rewrite zlen_app. unfold zlen in *. rewrite length_drop. lia.
Qed.

Lemma shift_codec_ok k : codec_ok (shift_codec k).
Proof. intros l m. cbn [encrypt_transport_stateless decrypt_transport_stateless shift_codec]. split_and!; apply write_front_ok. Qed.

Lemma slab_of_get {A} (l : list (Z * A)) k x : slab_get (slab_of l) k = Some x → (k, x) ∈ ((λ e, (stream_key e.1, e.2)) <$> l).
Proof. apply elem_of_list_to_map_2. Qed.

Lemma sample_node_codecs : codecs_ok sample_node.
Proof.
  intros l peer sa Hp Hs. unfold peer_get in Hp. change (peer_slab sample_node) with (slab_of [(3, sample_peer (addr 2) (sa_node 20) (slab_of [(5, mk_pft_pep (4, 9) 77)]) []); (4, sample_peer (addr 3) (sa_node 30) (slab_of []) [])]) in Hp.
  apply slab_of_get in Hp. cbn [fmap list_fmap] in Hp.
  repeat (apply elem_of_cons in Hp as [E%(f_equal snd)|Hp]; [cbn in E; subst peer; cbn in Hs; injection Hs as <-; exact (shift_codec_ok _)|]). by inversion Hp.
Qed.

(** The frame of the first adapter, in a buffer of the node. *)
Definition sample_frame : Packet :=
  rx (match actor_output 96 (Z.eqb 0) u8 (sample_adapter ext_flow 20 (src_address ext_flow)) (1, 2) sample_worker (rx (v6_packet 64)) with
      | Ret w => sent_body w | Panic => [] end).

Lemma sample_frame_valid : valid 96 sample_frame.
Proof. apply of_view_valid. Qed.

Lemma bytes_in_u8 (l : bytes) : forallb in_u8 l = true → Forall is_u8 l.
Proof. rewrite forallb_forall. intros Hl. apply list.Forall_forall. intros x Hx%list_elem_of_In%Hl. unfold in_u8 in Hx. unfold is_u8. lia. Qed.

Lemma fastpath_keeps_buffers_witness :
  match substrate_ingress 96 (Z.eqb 0) 0 u8 sample_node (1, 2) sample_worker (addr 2) 7 sample_frame with
  | Ret w' => pool w' = pool sample_worker + 1
  | Panic => False
  end.
Proof.
  assert (is_ret (substrate_ingress 96 (Z.eqb 0) 0 u8 sample_node (1, 2) sample_worker (addr 2) 7 sample_frame) = true) as Hr by (vm_compute; reflexivity).
  destruct (substrate_ingress 96 (Z.eqb 0) 0 u8 sample_node (1, 2) sample_worker (addr 2) 7 sample_frame) as [w'|] eqn:E; [|done].
  apply (fastpath_keeps_buffers 96 0 200 (Z.eqb 0) u8 sample_node (1, 2) sample_worker w' (addr 2) 7 sample_frame);
    [lia|apply sample_node_codecs| |vm_compute; reflexivity|split; [apply of_view_valid|vm_compute; reflexivity]| |by left].
  - split; [|constructor|constructor|constructor|constructor|vm_compute; discriminate].
    change (buffers sample_worker) with (replicate 2 (Buffer sample_metadata (replicate 200 0))).
    apply list.Forall_replicate. exists sample_metadata, (replicate 200 0). split; [reflexivity|vm_compute; reflexivity].
  - apply bytes_in_u8. vm_compute. reflexivity.
Defined.
