(* ===== verification/FastPathAuth.v ===== *)
(** What the fast path accepts from the substrate.  Capture leaves packets
    materially unchanged; a packet that goes on is the message that the
    association of its link verified, or a key-management message on a link without
    association, or comes from an address without a link and goes to management as such. *)
From S2P Require Import Prelude Zdp Dispatch TxnMgr Slab Utf8 Tlv NetDefs IpHeaders PacketBuf Compress Classifier Tc AdapterTables Node Transport Queues PacketKeep FastPath FastPathSafe.

Section capture.
Context {ND : NetDefs} {SL : Slab} {AK : A2aKeys} (M : Z).
Context {ScopedIpAddr Certificate : Type}.
Abbreviation Asm := (@Assembly ND SL AK ScopedIpAddr Certificate).
Abbreviation Worker := (@FastpathWorker ND ScopedIpAddr).
Implicit Types (p q : Packet) (asm : Asm) (w : Worker).

(** The same packet, but for the bytes of the headroom. *)
Definition same_content p q : Prop := ∃ md h h' b t, p = of_view M md h b t ∧ q = of_view M md h' b t ∧ zlen h' = zlen h.

Lemma same_content_refl p : valid M p → same_content p p.
Proof. intros Hv. exists (metadata p), (head M p), (head M p), (body M p), (tail M p). split; [by apply valid_view|]. split; [by apply valid_view|done]. Qed.

Lemma same_content_valid p q : same_content p q → valid M q.
Proof. intros (md & h & h' & b & t & _ & -> & _). apply of_view_valid. Qed.

Lemma same_content_body p q : same_content p q → body M q = body M p ∧ metadata q = metadata p.
Proof. intros (md & h & h' & b & t & -> & -> & Hh). rewrite !of_view_body. split; [done|]. unfold of_view. cbn. by rewrite Hh. Qed.

Lemma same_content_trans p q r : same_content p q → same_content q r → same_content p r.
Proof.
  intros (md & h & h' & b & t & -> & -> & Hh) (md2 & h2 & h2' & b2 & t2 & E & -> & Hh2).
  assert (b2 = b) as -> by (by rewrite <- (of_view_body M md h' b t), E, of_view_body).
  assert (t2 = t) as -> by (by rewrite <- (of_view_tail M md h' b t), E, of_view_tail).
  assert (h2 = h') as -> by (by rewrite <- (of_view_head M md h' b t), E, of_view_head).
  exists md, h, h2', b, t. split; [done|]. split; [|lia]. unfold of_view in E. injection E as E. unfold of_view. f_equal.
  destruct md, md2. unfold set_extent in *. cbn in *. naive_solver lia.
Qed.

(** A header put in front of the body and taken off again. *)
Lemma header_off p l q r : valid M p → push_header M p l = Ret q ∨ alloc_header M p l = Ret q → advance q (zlen l) = Ret r → same_content p r ∧ body M q = l ++ body M p.
Proof.
  intros Hv Hq. rewrite (valid_view M p Hv) in *. generalize dependent (tail M p). generalize dependent (body M p). generalize dependent (head M p).
  generalize (metadata p). clear p Hv. intros md h b t Hq Hr. rewrite of_view_body. pose proof (zlen_nonneg l).
  destruct (decide (zlen l <= zlen h)) as [Hl|Hl].
  - destruct (headroom_split h (zlen l)) as (h1 & h2 & -> & Hh); [lia|].
    rewrite push_view, alloc_header_view in Hq by done. assert (q = of_view M md h1 (l ++ b) t) as -> by by destruct Hq as [[= <-]|[= <-]].
    rewrite of_view_body. split; [|done]. rewrite advance_view, zlen_app in Hr by lia. pose proof (zlen_nonneg b).
    destruct (Z.leb_spec (zlen l) (zlen l + zlen b)); [|lia]. injection Hr as <-. replace (Z.to_nat (zlen l)) with (length l) by (unfold zlen; lia).
    rewrite take_app_length, drop_app_length. exists md, (h1 ++ h2), (h1 ++ l), b, t. rewrite !zlen_app. split; [done|]. split; [done|lia].
  - rewrite push_panics, alloc_panics in Hq by lia. by destruct Hq.
Qed.

Lemma pcaprec_hdr_length ts a b : zlen (pcaprec_hdr ts a b) = 16.
Proof. unfold pcaprec_hdr, le_put, zlen. rewrite !length_app, !length_rev, !be_put_length. done. Qed.

Lemma capture_enqueue_content c p ts k : valid M p → ensures (capture_try_enqueue M c p ts k) (λ r, same_content p r.1.2).
Proof.
  intros Hv. unfold capture_try_enqueue. cbv zeta. apply ensures_bind_any. intros q Hq. apply ensures_bind_any. intros l _. apply ensures_bind_any. intros r Hr.
  assert (same_content p r) as Hs.
  { eapply header_off; [done|by left|]. by rewrite pcaprec_hdr_length. }
  apply ensures_if; intros _; [apply ensures_panic|]. destruct (cap_room c); by apply ensures_ret.
Qed.

Lemma off_after p q r s l : valid M p → alloc_header M p l = Ret q → same_content q r → advance r (zlen l) = Ret s → same_content p s.
Proof.
  intros Hv Hq Hr Hs. assert (valid M q) as Hvq by (eapply kept_valid, alloc_header_kept; done).
  pose proof (same_content_body q r Hr) as [Hb Hm].
  destruct (advance q (zlen l)) as [q'|] eqn:Eq.
  - destruct (header_off p l q q' Hv (or_intror Hq) Eq) as [Hpq _]. eapply same_content_trans; [done|].
    destruct Hr as (md & h & h' & b & t & -> & -> & Hh). pose proof (zlen_nonneg l). rewrite advance_view in Eq, Hs by lia.
    destruct (zlen l <=? zlen b); [|done]. injection Eq as <-. injection Hs as <-.
    exists md, (h ++ take (Z.to_nat (zlen l)) b), (h' ++ take (Z.to_nat (zlen l)) b), (drop (Z.to_nat (zlen l)) b), t. rewrite !zlen_app. split; [done|]. split; [done|lia].
  - unfold advance, assertb, packet_len in *. rewrite Hm in Hs. by destruct (zlen l <=? len (metadata q)).
Qed.

Lemma capture_loop_content prog dir ts c ps : Forall (valid M) ps → ensures (capture_loop M prog dir ts c ps) (λ r, Forall2 same_content ps r.1.2).
Proof.
  intros Hps. revert c. induction Hps as [|p ps Hp Hps IH]; intros c; cbn [capture_loop]; [by apply ensures_ret|].
  apply ensures_bind_any. intros p1 H1. assert (valid M p1) as Hv1 by (eapply kept_valid, alloc_header_kept; done). cbv zeta. apply ensures_if; intros _.
  - eapply ensures_bind; [by apply capture_enqueue_content|]. intros [[c1 p2] ok] H2. cbn [fst snd] in H2. apply ensures_bind_any. intros p3 H3.
    assert (same_content p p3) as Hs by (eapply (off_after p p1 p2 p3 [encode_direction dir]); done). apply ensures_if; intros _.
    + eapply ensures_bind; [apply IH|]. intros [[c2 ps2] [[a b] d]] HF. apply ensures_ret. by constructor.
    + apply ensures_ret. constructor; [done|]. clear -Hps. induction Hps; constructor; [by apply same_content_refl|done].
  - apply ensures_bind_any. intros p3 H3. assert (same_content p p3) as Hs.
    { eapply (off_after p p1 p1 p3 [encode_direction dir]); [done|done|by apply same_content_refl|done]. }
    eapply ensures_bind; [apply IH|]. intros [[c2 ps2] [[a b] d]] HF. apply ensures_ret. by constructor.
Qed.

(** What capture leaves alone in the worker. *)
Definition same_queues w w' : Prop :=
  buffers w' = buffers w ∧ return_q w' = return_q w ∧ adapter_manager w' = adapter_manager w ∧ mgmt_dispatch w' = mgmt_dispatch w ∧
  actor_input_q w' = actor_input_q w ∧ substrate_egress_q w' = substrate_egress_q w ∧ worker_index w' = worker_index w.

Lemma same_queues_trans w w1 w2 : same_queues w w1 → same_queues w1 w2 → same_queues w w2.
Proof. unfold same_queues. intros (-> & -> & -> & -> & -> & -> & ->). done. Qed.

Lemma maybe_capture_content asm dir ts w p : valid M p → ensures (maybe_capture M asm dir ts w p) (λ r, same_queues w r.1 ∧ same_content p r.2).
Proof.
  intros Hv. unfold maybe_capture, maybe_capture_batch. destruct (capture_program asm) as [prog|].
  - apply ensures_bind_any. intros [w' ps] E. apply outcome_bind_Ret in E as ([[c ps'] [[a b] d]] & E & [= <- <-]).
    pose proof (capture_loop_content prog dir ts (capture_queue w) [p] ltac:(by constructor) _ E) as HF. cbn [fst snd] in *.
    destruct ps' as [|p' ps']; [by inversion HF|]. apply ensures_ret. inversion HF; subst. by split.
  - cbn. apply ensures_ret. split; [by repeat split|by apply same_content_refl].
Qed.
End capture.

Section auth.
Context {ND : NetDefs} {SL : Slab} {AK : A2aKeys} {B3 : Blake3} {BL : Blake3Laws} (M : Z) (HM : 0 < M).
Context {ScopedIpAddr Certificate : Type} `{EqDecision ScopedIpAddr} (intf_unspecified : ScopedIpAddr → bool).
Context (LINK_ID_UNKNOWN : Z) (a2aSaid : packed Z).
Abbreviation Asm := (@Assembly ND SL AK ScopedIpAddr Certificate).
Abbreviation Worker := (@FastpathWorker ND ScopedIpAddr).
Implicit Types (p q : Packet) (asm : Asm) (w : Worker).

(** [m] is what the association verified behind the ZPI [z] in [l]: its MAC
    follows the message, or its codec decrypted the message. *)
Definition verified (sa : KmTransportSA Certificate) (z : Z) (l m : bytes) : Prop :=
  (z = hmac (recv_zpis sa) ∧ l = m ++ link_mac (recv_hmac_key sa) (z :: m)) ∨
  (z = encr (recv_zpis sa) ∧ ∃ buf t n, decrypt_transport_stateless (codec sa) l buf = (t, inr n) ∧ m = take (Z.to_nat n) t).

Lemma slice_to_Ret l n r : slice_to l n = Ret r → r = take (Z.to_nat n) l ∧ n <= zlen l.
Proof. unfold slice_to. destruct (Z.ltb_spec (zlen l) n); [done|]. by intros [= <-]. Qed.

Lemma adopt_body p n q : valid M p → 0 <= n → 1 <= zlen (body M p) → adopt_tailroom_with_header M p 1 n = Ret q → body M q = take 1 (body M p) ++ take (Z.to_nat n) (tail M p).
Proof using HM.
  intros Hv Hn Hb Hq. assert (n <= zlen (tail M p)) as Ht.
  { revert Hq. unfold adopt_tailroom_with_header, assertb. rewrite tailroom_tail by done. destruct (_ <=? _); [|done]. by destruct (Z.leb_spec n (zlen (tail M p))). }
  revert Hq. rewrite (valid_view M p Hv) at 1.
  rewrite <- (take_drop 1 (body M p)), <- (take_drop (Z.to_nat n) (tail M p)).
  pose proof (zlen_take 1 (body M p) ltac:(lia)) as E1. pose proof (zlen_take n (tail M p) ltac:(lia)) as E2. change (Z.to_nat 1) with 1%nat in E1.
  destruct (adopt_view M (metadata p) (head M p) (take 1 (body M p)) (drop 1 (body M p)) (drop (Z.to_nat n) (tail M p)) (take (Z.to_nat n) (tail M p)) HM) as (g & E & Hg).
  rewrite E1, E2 in E. rewrite E. intros [= <-]. rewrite of_view_body. by rewrite !take_drop.
Qed.

Lemma decrypt_full_body c k p q : codec_ok c → valid M p → decrypt_full M c k p = Ret (q, inr tt) → ∀ z l, body M p = z :: l →
  ∃ buf t n, decrypt_transport_stateless c l buf = (t, inr n) ∧ body M q = z :: take (Z.to_nat n) t.
Proof using HM.
  intros Hc Hv Hq z l Hb. revert Hq. unfold decrypt_full. cbv zeta. rewrite Hb. cbn [drop]. rewrite ?drop_0. rewrite zlen_cons. pose proof (zlen_nonneg l).
  destruct (Z.ltb_spec (zlen l + 1) 1); [lia|]. destruct (_ <? k); [done|]. destruct (_ <=? _).
  - destruct (Hc l (tail M p)) as (_ & Ht & _ & Hn). destruct (decrypt_transport_stateless c l (tail M p)) as [t [e|n]] eqn:Ed; [done|]. cbn in Ht, Hn.
    destruct (adopt_tailroom_with_header M _ 1 n) as [q'|] eqn:Eq; [|done]. intros [= <-]. exists (tail M p), t, n. split; [done|].
    rewrite (valid_view M p Hv), set_tail_view in Eq.
    apply adopt_body in Eq; [|apply of_view_valid|done|rewrite of_view_body, Hb, zlen_cons; lia]. rewrite Eq, of_view_body, of_view_tail, Hb. done.
  - destruct (decrypt_transport_stateless c l _) as [t [e|n]] eqn:Ed; [done|]. replace (zlen l + 1 - 1) with (zlen l) by lia.
    rewrite (valid_view M p Hv), Hb. change (z :: l) with ([z] ++ l). rewrite shrink_app. cbn [mbind outcome_bind].
    destruct (slice_to t n) as [r|] eqn:Er; [|done]. apply slice_to_Ret in Er as [-> Hn]. cbn [mbind outcome_bind]. rewrite put_view. destruct (_ <=? _); [|done].
    intros [= <-]. rewrite of_view_body. by exists (replicate (Z.to_nat PACKET_BUFFER_SIZE) 0), t, n.
Qed.

Lemma decrypt_hmac_body key p q : valid M p → decrypt_hmac M key p = Ret (q, inr tt) → body M p = body M q ++ link_mac key (body M q).
Proof using BL.
  intros Hv. rewrite (valid_view M p Hv) in *. generalize dependent (tail M p). generalize dependent (body M p). generalize dependent (head M p).
  generalize (metadata p). clear p Hv. intros md h b t. rewrite of_view_body. destruct (decide (zlen b < 8)); [by rewrite decrypt_hmac_short|].
  rewrite <- (take_drop (length b - 8) b) at 1. rewrite decrypt_hmac_view by (rewrite length_drop; unfold zlen in *; lia).
  case_bool_decide as E; [|done]. intros [= <-]. by rewrite of_view_body, E, take_drop.
Qed.

Lemma decrypt_sa_verified noise z sa p q l : codec_ok (codec sa) → valid M p → body M p = z :: l → decrypt_with_sa M noise z sa p = Ret (q, inr tt) →
  ∀ z' m, body M q = z' :: m → verified sa z l m.
Proof using HM BL.
  intros Hc Hv Hb. unfold decrypt_with_sa. destruct (Z.eqb_spec z (hmac (recv_zpis sa))) as [->|_]; [|destruct (Z.eqb_spec z (encr (recv_zpis sa))) as [->|_]; [|done]].
  - intros Hd z' m Hm. apply decrypt_hmac_body in Hd; [|done]. rewrite Hb, Hm in Hd. injection Hd as <- E. left. by split.
  - intros Hd z' m Hm. eapply decrypt_full_body in Hd as (buf & t & n & E & Eq); [|done|done|exact Hb]. rewrite Hm in Eq. injection Eq as -> ->.
    right. split; [done|]. by exists buf, t, n.
Qed.

(** The queues that lead out of the fast path. *)
Definition unsent w w' : Prop := actor_input_q w' = actor_input_q w ∧ substrate_egress_q w' = substrate_egress_q w.
Definition nothing w w' : Prop := unsent w w' ∧ mgmt_dispatch w' = mgmt_dispatch w.

Lemma nothing_after w w1 w2 : same_queues w w1 → nothing w1 w2 → nothing w w2.
Proof. unfold same_queues, nothing, unsent. intros (_ & _ & _ & -> & -> & -> & _) [[-> ->] ->]. done. Qed.
Lemma unsent_after w w1 w2 : same_queues w w1 → unsent w1 w2 → unsent w w2.
Proof. unfold same_queues, unsent. intros (_ & _ & _ & _ & -> & -> & _) [-> ->]. done. Qed.

(** The queue to management gets one more message, the others nothing. *)
Definition dispatched w w' (m : MgmtDispatchMessage) : Prop :=
  unsent w w' ∧ mgmt_dispatch w' = with_msgs (mgmt_dispatch w) (chan_msgs (mgmt_dispatch w) ++ [(m, Z.to_nat (worker_index w))]).

Lemma dispatched_after w w1 w2 m : same_queues w w1 → dispatched w1 w2 m → dispatched w w2 m.
Proof. unfold same_queues, dispatched, unsent. intros (_ & _ & _ & -> & -> & -> & ->) [[-> ->] ->]. done. Qed.

Lemma dispatch_effect w m : ensures (try_dispatch_mgmt_packet w m) (λ r, nothing w r.1 ∧ r.2 = Some m ∨ dispatched w r.1 m ∧ r.2 = None).
Proof.
  unfold try_dispatch_mgmt_packet, tw_try_send, chan_try_send. destruct (chan_closed _); [apply ensures_panic|]. destruct (_ <=? _); apply ensures_ret; [by left|by right].
Qed.

Lemma sent_effect w r c m : nothing w r.1 ∧ r.2 ≠ None ∨ dispatched w r.1 m ∧ r.2 = None → nothing w (sent_or_dropped r c) ∨ dispatched w (sent_or_dropped r c) m.
Proof. unfold sent_or_dropped. intros [[Hr Hn]|[Hr ->]]; [left; by destruct (r.2)|by right]. Qed.

Lemma link_effect w p c : ensures (r ← try_dispatch_mgmt_packet_with_link w p; Ret (sent_or_dropped r c)) (λ w', nothing w w' ∨ dispatched w w' (WithLink p)).
Proof.
  eapply (ensures_bind _ _ (λ r, nothing w r.1 ∧ r.2 ≠ None ∨ dispatched w r.1 (WithLink p) ∧ r.2 = None)); [|intros r Hr; by apply ensures_ret, sent_effect].
  eapply ensures_bind; [apply dispatch_effect|]. intros [w1 r] [[H E]|[H E]]; cbn [fst snd] in *; subst r; apply ensures_ret; [by left|by right].
Qed.
Lemma addr_effect w sa intf p c : ensures (r ← try_dispatch_mgmt_packet_with_addr w sa intf p; Ret (sent_or_dropped r c)) (λ w', nothing w w' ∨ dispatched w w' (WithAddr sa intf p)).
Proof.
  eapply (ensures_bind _ _ (λ r, nothing w r.1 ∧ r.2 ≠ None ∨ dispatched w r.1 (WithAddr sa intf p) ∧ r.2 = None)); [|intros r Hr; by apply ensures_ret, sent_effect].
  eapply ensures_bind; [apply dispatch_effect|]. intros [w1 r] [[H E]|[H E]]; cbn [fst snd] in *; subst r; apply ensures_ret; [by left|by right].
Qed.

Definition message_type (m : bytes) : option Z := base_packet_type ∘ fst <$> read_from_prefix zdpBaseHeader m.

(** Management gets the message [m] of [link]: its base header and the rest. *)
Definition to_management w w' (link : Z) (m : bytes) : Prop :=
  ∃ q hdr rest, dispatched w w' (WithLink q) ∧ ingress_link_id (metadata q) = link ∧
    read_from_prefix zdpBaseHeader m = Some (hdr, rest) ∧ body M q = as_bytes zdpBaseHeader hdr ++ rest.

(** The transit packet [m] of [link] is forwarded: what is behind its two headers, in the
    stream that the second names. *)
Definition forwarded asm ts w w' (link : Z) (m : bytes) : Prop :=
  ∃ w1 q hdr fl rest, same_queues w w1 ∧ forward M intf_unspecified a2aSaid asm ts w1 q = Ret w' ∧
    ingress_link_id (metadata q) = link ∧ ingress_stream_id (metadata q) = stream_id fl ∧
    read_from_prefix zdpBaseHeader m = Some (hdr, rest) ∧ read_from_prefix zdpPerFlowHeader rest = Some (fl, body M q).

Lemma alloc_body p l q : valid M p → alloc_header M p l = Ret q → body M q = l ++ body M p ∧ ingress_link_id (metadata q) = ingress_link_id (metadata p).
Proof.
  intros Hv Hq. pose proof (alloc_header_kept M p l q Hv Hq) as (_ & _ & Hm). split; [|by injection Hm].
  rewrite (valid_view M p Hv) in *. rewrite of_view_body. destruct (decide (zlen l <= zlen (head M p))) as [Hl|Hl]; [|by rewrite alloc_panics in Hq by lia].
  pose proof (zlen_nonneg l). destruct (headroom_split (head M p) (zlen l)) as (h1 & h2 & E & Hh); [lia|]. rewrite E, alloc_header_view in Hq by done.
  injection Hq as <-. by rewrite of_view_body.
Qed.

Lemma read_from_buf_body {A} (c : packed A) p : valid M p → ensures (read_from_buf M c p) (λ r, ∀ a q, r = Some (a, q) →
  read_from_prefix c (body M p) = Some (a, body M q) ∧ valid M q ∧ set_extent (metadata q) 0 0 = set_extent (metadata p) 0 0).
Proof.
  intros Hv. unfold read_from_buf. destruct (read_from_prefix c (body M p)) as [[a l]|] eqn:Er; [|by apply ensures_ret].
  apply ensures_bind_any. intros q Hq. apply ensures_ret. intros ? ? [= <- <-]. destruct (advance_kept M p (Z.of_nat (size_of c)) q Hv ltac:(lia) Hq) as (Hvq & _ & Hm).
  split; [|done]. do 2 f_equal. unfold read_from_prefix in Er. case_match; [done|]. injection Er as <- <-.
  rewrite (valid_view M p Hv), advance_view in Hq by lia. destruct (_ <=? _); [|done]. injection Hq as <-. by rewrite of_view_body, Nat2Z.id.
Qed.

(** What a packet of a known link does, by the type of the message in it. *)
Lemma ingress_link_effect asm ts w z p : valid M p → ensures (ingress_link_packet M intf_unspecified a2aSaid asm ts w z p) (λ w',
  nothing w w' ∨
  (to_management w w' (ingress_link_id (metadata p)) (body M p) ∧ (z = ZPI_0 → message_type (body M p) = Some (packet_type KeyManagement))) ∨
  (z ≠ ZPI_0 ∧ message_type (body M p) = Some (packet_type TransitPacket) ∧ forwarded asm ts w w' (ingress_link_id (metadata p)) (body M p))).
Proof.
  intros Hv. unfold ingress_link_packet. eapply ensures_bind; [by apply read_from_buf_body|]. intros [[hdr p1]|] H1; [|apply ensures_ret; by left].
  destruct (H1 _ _ eq_refl) as (E1 & Hv1 & Hm1). unfold message_type. rewrite E1. cbn [fmap option_fmap option_map compose fst].
  assert (ingress_link_id (metadata p1) = ingress_link_id (metadata p)) as Hl1 by by injection Hm1.
  assert (ensures (p2 ← alloc_header M p1 (as_bytes zdpBaseHeader hdr); r ← try_dispatch_mgmt_packet_with_link w p2; Ret (sent_or_dropped r DispatchedToMgmt))
    (λ w', nothing w w' ∨ to_management w w' (ingress_link_id (metadata p)) (body M p))) as Hman.
  { apply ensures_bind_any. intros p2 H2. destruct (alloc_body _ _ _ Hv1 H2) as [Hb2 Hl2]. eapply ensures_mono; [apply link_effect|]. intros w' [Hw|Hw]; [by left|right].
    exists p2, hdr, (body M p1). by rewrite Hl2, Hl1, E1. }
  destruct (Z.eqb_spec z ZPI_0) as [Hz|Hz]; cbn [andb].
  - destruct (Z.eqb_spec (base_packet_type hdr) (packet_type KeyManagement)) as [Ek|Ek]; cbn [negb]; [|apply ensures_ret; by left].
    rewrite Ek. change (packet_type KeyManagement =? packet_type TransitPacket) with false. cbn [negb].
    eapply ensures_mono; [exact Hman|]. intros w' [Hw|Hw]; [by left|]. right; left. by split.
  - destruct (Z.eqb_spec (base_packet_type hdr) (packet_type TransitPacket)) as [Et|Et]; cbn [negb].
    + eapply ensures_bind; [by apply read_from_buf_body|]. intros [[fl p2]|] H2; [|apply ensures_ret; by left]. destruct (H2 _ _ eq_refl) as (E2 & Hv2 & Hm2).
      intros w' Hw. right; right. split; [done|]. split; [by rewrite Et|]. exists w, (upd_metadata p2 (set_ingress_stream (stream_id fl))), hdr, fl, (body M p1).
      split; [by repeat split|]. split; [done|]. split; [cbn; injection Hm2; intros; congruence|]. split; [done|]. split; [done|]. by rewrite E2, upd_body.
    + eapply ensures_mono; [exact Hman|]. intros w' [Hw|Hw]; [by left|]. right; left. by split.
Qed.

Lemma zpi_prefix l : read_from_prefix zdpZpiHeader l = match l with [] => None | z :: r => Some (mk_ZdpZpiHeader z, r) end.
Proof. destruct l as [|z r]; [done|]. unfold read_from_prefix. cbn. by rewrite drop_0. Qed.

(** [m] with the two bytes of a checksum that is right. *)
Definition checksummed (l m : bytes) : Prop := ip4sum l = 0 ∧ ∃ ck, length ck = 2%nat ∧ l = m ++ ck.

Lemma decrypt_null_body p q z l : valid M p → body M p = z :: l → decrypt_null M p = Ret (q, inr tt) → ∃ ck, length ck = 2%nat ∧ body M p = body M q ++ ck ∧ ip4sum l = 0.
Proof.
  intros Hv Hb. unfold decrypt_null. rewrite Hb. destruct (Z.ltb_spec (zlen (z :: l)) (1 + 2)); [done|]. unfold slice_from. cbn [length Nat.ltb Nat.leb drop mbind outcome_bind]. rewrite drop_0.
  destruct (Z.eqb_spec (ip4sum l) 0); cbn [negb]; [|done]. rewrite (valid_view M p Hv) at 1. rewrite Hb, shrink_view by lia. destruct (_ <=? _); [|done]. intros [= <-]. rewrite of_view_body.
  eexists. split; [|split; [by rewrite take_drop|done]]. rewrite length_drop. unfold zlen in *. lia.
Qed.

Definition association asm (link : Z) : option (KmTransportSA Certificate) := peer ← peer_get asm link; fp_transport_sa peer.

(** What a decrypted packet says of the one received. *)
Definition accepted asm (link z : Z) (l m : bytes) : Prop :=
  match association asm link with
  | Some assoc => verified assoc z l m
  | None => (z = ZPI_0 ∨ link = LINK_ID_UNKNOWN) ∧ checksummed l m
  end.

Lemma decrypt_accepted asm z l p q : codecs_ok asm → valid M p → body M p = z :: l → decrypt M LINK_ID_UNKNOWN asm z p = Ret (q, inr tt) →
  (∀ z' m, body M q = z' :: m → accepted asm (ingress_link_id (metadata p)) z l m) ∧ valid M q ∧ ingress_link_id (metadata q) = ingress_link_id (metadata p).
Proof using HM BL.
  intros Hc Hv Hb Hd. assert (kept M p q) as Hk.
  { revert Hd. unfold decrypt. cbv zeta. destruct (peer_get asm _) as [peer|] eqn:Ep; cbn [mbind option_bind]; [destruct (fp_transport_sa peer) as [sa|] eqn:Es|].
    - intros E. exact (decrypt_with_sa_ensures M HM p p _ _ sa (Hc _ _ _ Ep Es) (kept_refl M p Hv) _ E).
    - destruct (_ && _); [done|]. intros E. exact (decrypt_null_ensures M p p (kept_refl M p Hv) _ E).
    - destruct (_ && _); [done|]. intros E. exact (decrypt_null_ensures M p p (kept_refl M p Hv) _ E). }
  destruct Hk as (Hvq & _ & Hm). split; [|split; [done|by injection Hm]]. intros z' m Hm'. unfold accepted, association. revert Hd. unfold decrypt. cbv zeta.
  assert (decrypt_null M p = Ret (q, inr tt) → checksummed l m) as Hnull.
  { intros E. eapply decrypt_null_body in E as (ck & Hck & E & H0); [|done|exact Hb]. rewrite Hb, Hm' in E. injection E as _ E. split; [done|]. by exists ck. }
  assert (∀ link, (if negb (z =? ZPI_0) && negb (link =? LINK_ID_UNKNOWN) then Ret (p, inl DeUnknownZpi) else decrypt_null M p) = Ret (q, inr tt) →
    (z = ZPI_0 ∨ link = LINK_ID_UNKNOWN) ∧ checksummed l m) as Hno.
  { intros link. destruct (Z.eqb_spec z ZPI_0) as [Hz|Hz], (Z.eqb_spec link LINK_ID_UNKNOWN) as [Hl|Hl]; cbn [negb andb]; try done; intros E; (split; [by auto|by apply Hnull]). }
  destruct (peer_get asm _) as [peer|] eqn:Ep; cbn [mbind option_bind]; [destruct (fp_transport_sa peer) as [sa|] eqn:Es|]; [|apply Hno|apply Hno].
  intros E. exact (decrypt_sa_verified _ z sa p q l (Hc _ _ _ Ep Es) Hv Hb E z' m Hm').
Qed.

Lemma ingress_effect asm ts w sa intf p : codecs_ok asm → valid M p →
  ensures (substrate_ingress M intf_unspecified LINK_ID_UNKNOWN a2aSaid asm ts w sa intf p) (λ w',
    let link := default 0 (lookup_peer asm sa intf) in
    nothing w w' ∨ ∃ z l m, body M p = z :: l ∧ accepted asm link z l m ∧
      ((link = LINK_ID_UNKNOWN ∧ ∃ q, dispatched w w' (WithAddr sa intf q) ∧ body M q = m) ∨
       (link ≠ LINK_ID_UNKNOWN ∧ to_management w w' link m ∧ (z = ZPI_0 → message_type m = Some (packet_type KeyManagement))) ∨
       (link ≠ LINK_ID_UNKNOWN ∧ z ≠ ZPI_0 ∧ message_type m = Some (packet_type TransitPacket) ∧ forwarded asm ts w w' link m))).
Proof using HM BL.
  intros Hc Hv. unfold substrate_ingress. cbv zeta. set (link := default 0 (lookup_peer asm sa intf)). set (q := upd_metadata p (set_ingress_link link)).
  assert (body M q = body M p) as Eb by by apply upd_body. assert (valid M q) as Hq by exact Hv. rewrite zpi_prefix.
  destruct (body M q) as [|z l] eqn:Ebq; [apply ensures_ret; left; done|]. cbn [zpi].
  apply ensures_bind_any. intros [p1 [e|[]]] Hd; [apply ensures_ret; by left|].
  destruct (decrypt_accepted asm z l q p1 Hc Hq Ebq Hd) as (Hacc & Hv1 & Hl1). change (ingress_link_id (metadata q)) with link in *.
  eapply ensures_bind; [by apply maybe_capture_content|]. intros [w1 p2] [Hs H2]. cbn [fst snd] in *.
  destruct (same_content_body M p1 p2 H2) as [Eb2 Em2]. apply same_content_valid in H2 as Hv2.
  eapply ensures_bind; [by apply read_from_buf_body|]. intros [[h p3]|] H3; [|apply ensures_ret; left; eapply nothing_after; [exact Hs|done]].
  destruct (H3 _ _ eq_refl) as (Er & Hv3 & Hm3). rewrite Eb2, zpi_prefix in Er. destruct (body M p1) as [|z' m] eqn:Em; [done|]. injection Er as <- ->.
  assert (ingress_link_id (metadata p3) = link) as Hl3 by (injection Hm3; intros; congruence). rewrite Hl3. specialize (Hacc _ _ eq_refl).
  destruct (Z.eqb_spec link LINK_ID_UNKNOWN) as [Hl|Hl].
  - eapply ensures_mono; [apply addr_effect|]. intros w' [Hw|Hw]; [left; by eapply nothing_after|]. right. exists z, l, (body M p3). split; [done|]. split; [done|]. left.
    split; [done|]. exists p3. split; [by eapply dispatched_after|done].
  - eapply ensures_mono; [by apply ingress_link_effect|]. cbv beta. rewrite Hl3.
    intros w' [Hw|[[(q2 & hdr & rest & Hw & Hq2) Hk]|(Hz & Ht & (w2 & q2 & hdr & fl & rest & Hw & Hq2))]]; [left; by eapply nothing_after| |];
      right; exists z, l, (body M p3); (split; [done|]; split; [done|]); right; [left|right].
    + split; [done|]. split; [|done]. exists q2, hdr, rest. split; [by eapply dispatched_after|done].
    + split; [done|]. split; [done|]. split; [done|]. exists w2, q2, hdr, fl, rest. split; [|done]. eapply same_queues_trans; [exact Hs|exact Hw].
Qed.
End auth.

(** C6: What a frame from the substrate can do.  Whatever packet comes from whatever
    address, the worker queues nothing, or one of these holds.  The address has no
    link: management gets the packet together with its address, and nothing else
    happens; a checksum is all that was checked.  Its link has no established
    association: management gets the message, which is key management under ZPI 0 with a
    right checksum, and nothing else happens.  Its link has an association:
    the message verified under it, that is, the MAC keyed for this direction follows the
    message or the codec decrypted it; and either management gets exactly that
    message, or the message is a transit packet under a ZPI other than 0 and exactly what
    is behind its headers is forwarded, in the stream its header names. *)
Theorem ingress_verified {ND : NetDefs} {SL : Slab} {AK : A2aKeys} {B3 : Blake3} {BL : Blake3Laws} {ScopedIpAddr Certificate : Type}
    `{EqDecision ScopedIpAddr} (M unknown : Z) (unspec : ScopedIpAddr → bool) (said : packed Z)
    (asm : @Assembly ND SL AK ScopedIpAddr Certificate) (ts : Z * Z) (w w' : FastpathWorker) (sa : SocketAddr) (intf : ScopedIpAddr) (p : Packet) :
  0 < M → codecs_ok asm → valid M p → substrate_ingress M unspec unknown said asm ts w sa intf p = Ret w' →
  let link := default 0 (lookup_peer asm sa intf) in
  actor_input_q w' = actor_input_q w ∧ substrate_egress_q w' = substrate_egress_q w ∧ mgmt_dispatch w' = mgmt_dispatch w ∨
  ∃ z l m, body M p = z :: l ∧
    ((link = unknown ∧ (association asm link = None → checksummed l m) ∧ ∃ q, dispatched w w' (WithAddr sa intf q) ∧ body M q = m) ∨
     (link ≠ unknown ∧ association asm link = None ∧ z = ZPI_0 ∧ checksummed l m ∧ message_type m = Some (packet_type KeyManagement) ∧
        to_management M w w' link m) ∨
     (link ≠ unknown ∧ ∃ assoc, association asm link = Some assoc ∧ verified assoc z l m ∧
        (to_management M w w' link m ∨
         z ≠ ZPI_0 ∧ message_type m = Some (packet_type TransitPacket) ∧ forwarded M unspec said asm ts w w' link m))).
Proof.
  intros HM Hc Hv E link. destruct (ingress_effect M HM unspec unknown said asm ts w sa intf p Hc Hv _ E) as [[[H1 H2] H3]|(z & l & m & Hb & Ha & Hcase)]; [by left|].
  right. exists z, l, m. split; [done|]. fold link in Ha, Hcase. unfold accepted in Ha. destruct (association asm link) as [assoc|].
  - destruct Hcase as [[Hl Hu]|[(Hl & Hu & _)|(Hl & Hu)]]; [by left| |]; right; right; (split; [done|]); exists assoc; by auto.
  - destruct Ha as [Hz Hck]. destruct Hcase as [[Hl Hu]|[(Hl & Hu & Hk)|(Hl & Hnz & _)]]; [by left| |].
    + right; left. assert (z = ZPI_0) as Hz0 by by destruct Hz. by auto 10.
    + by destruct Hz.
Qed.

Lemma ingress_verified_witness :
  match substrate_ingress 96 (Z.eqb 0) 0 u8 sample_node (1, 2) sample_worker (addr 2) 7 sample_frame with
  | Ret w' => ∃ z l m, body 96 sample_frame = z :: l ∧ verified (sa_node 20) z l m ∧ z ≠ ZPI_0 ∧
      message_type m = Some (packet_type TransitPacket) ∧ forwarded 96 (Z.eqb 0) u8 sample_node (1, 2) sample_worker w' 3 m
  | Panic => False
  end.
Proof.
  assert (match substrate_ingress 96 (Z.eqb 0) 0 u8 sample_node (1, 2) sample_worker (addr 2) 7 sample_frame with
          | Ret w' => length (substrate_egress_q w') = 1%nat | Panic => False end) as Hr by (vm_compute; reflexivity).
  destruct (substrate_ingress 96 (Z.eqb 0) 0 u8 sample_node (1, 2) sample_worker (addr 2) 7 sample_frame) as [w'|] eqn:E; [|done].
  assert (¬ unsent sample_worker w') as Hu by (intros [_ Hq]; by rewrite Hq in Hr).
  pose proof (ingress_verified 96 0 (Z.eqb 0) u8 sample_node (1, 2) sample_worker w' (addr 2) 7 sample_frame ltac:(lia) sample_node_codecs sample_frame_valid E) as H.
  cbv zeta in H. change (default 0 (lookup_peer sample_node (addr 2) 7)) with 3 in H. change (association sample_node 3) with (Some (sa_node 20)) in H.
  destruct H as [(H1 & H2 & _)|(z & l & m & Hb & [[Hl _]|[(_ & Ha & _)|(_ & assoc & [= <-] & Hv & [(q & hdr & rest & [? _] & _)|(Hz & Ht & Hf)])]])].
  - destruct Hu. split; assumption.
  - discriminate Hl.
  - discriminate Ha.
  - destruct Hu. assumption.
  - exists z, l, m. split; [exact Hb|]. split; [exact Hv|]. split; [exact Hz|]. split; [exact Ht|exact Hf].
Defined.
