(* ===== verification/FastPathFlow.v ===== *)
(** A packet of a flow from an actor to an actor: out of the first adapter,
    through the node, into the second adapter.

    The lemmas follow the bytes: [link_frame] is what a link carries,
    [transit_msg] the transit packet in it, [a2a_msg] what the adapters
    exchange in that. *)
From S2P Require Import Prelude Zdp Dispatch TxnMgr Slab Utf8 Tlv NetDefs IpHeaders PacketBuf Compress Classifier Tc AdapterTables Node Transport Queues PacketKeep FastPath FastPathSafe FastPathAuth.

Section flow.
Context {ND : NetDefs} {NL : NetDefsLaws} {SL : Slab} {AK : A2aKeys} {B3 : Blake3} {BL : Blake3Laws} (M : Z) (HM : 0 < M).
Context {ScopedIpAddr Certificate : Type} `{EqDecision ScopedIpAddr} (intf_unspecified : ScopedIpAddr → bool).
Context (LINK_ID_UNKNOWN : Z) (a2aSaid : packed Z) {SA : PackedLaws a2aSaid} (Hsaid : in_range a2aSaid 0).
Abbreviation Asm := (@Assembly ND SL AK ScopedIpAddr Certificate).
Abbreviation Worker := (@FastpathWorker ND ScopedIpAddr).
Implicit Types (md : PacketMetadata) (h b t l : bytes) (p q : Packet) (asm : Asm) (w : Worker).

Definition link_frame (z : Z) (key m : bytes) : bytes :=
  let l := as_bytes zdpZpiHeader (mk_ZdpZpiHeader z) ++ m in l ++ link_mac key l.
Definition transit_msg (s : Z) (payload : bytes) : bytes :=
  as_bytes zdpBaseHeader (mk_ZdpBaseHeader (packet_type TransitPacket) 0) ++ as_bytes zdpPerFlowHeader (mk_ZdpPerFlowHeader s) ++ payload.
Definition a2a_msg (key : option bytes) (c p : bytes) : bytes := as_bytes (zdpA2aHeader a2aSaid) (mk_ZdpA2aHeader 0) ++ c ++ a2a_micv key p.

Definition capturing w : Prop := cap_closed (capture_queue w) = false.

Lemma upd_view md h b t f : (∀ md o n, f (set_extent md o n) = set_extent (f md) o n) → upd_metadata (of_view M md h b t) f = of_view M (f md) h b t.
Proof. intros Hf. unfold upd_metadata, of_view. cbn. by rewrite Hf. Qed.

(** Capture goes through when there is headroom for its two headers. *)
Lemma capture_view asm dir ts w md h b t : 17 <= zlen h → capturing w →
  ∃ w' h', maybe_capture M asm dir ts w (of_view M md h b t) = Ret (w', of_view M md h' b t) ∧ zlen h' = zlen h ∧ same_queues w w' ∧ capturing w'.
Proof.
  intros Hh Hc. assert (∃ w' q, maybe_capture M asm dir ts w (of_view M md h b t) = Ret (w', q) ∧ capturing w') as (w' & q & E & Hc').
  { unfold maybe_capture, maybe_capture_batch. destruct (capture_program asm) as [prog|]; [|by exists w, (of_view M md h b t)]. cbn [capture_loop].
    destruct (headroom_split h 1) as (h1 & h2 & -> & Hh2); [lia|]. rewrite zlen_app in Hh. rewrite alloc_header_view by done. cbn [mbind outcome_bind].
    rewrite of_view_body. destruct (0 <? prog _).
    - unfold capture_try_enqueue. cbv zeta. destruct (headroom_split h1 16) as (h3 & h4 & -> & Hh4); [lia|].
      rewrite push_view by (by rewrite pcaprec_hdr_length). cbn [mbind outcome_bind]. rewrite of_view_body.
      set (hdr := pcaprec_hdr _ _ _). assert (zlen hdr = 16) as Hz by apply pcaprec_hdr_length.
      clearbody hdr. unfold slice_to, PCAPREC_HDR_SIZE, packet_len. cbn [metadata of_view len set_extent]. rewrite (zlen_app hdr), Hz.
      match goal with |- context [Z.ltb ?x ?y] => destruct (Z.ltb_spec x y); [lia|] end. cbn [mbind outcome_bind].
      rewrite advance_view, (zlen_app hdr), Hz by lia. pose proof (zlen_nonneg ([encode_direction dir] ++ b)). 
      match goal with |- context [Z.leb ?x ?y] => destruct (Z.leb_spec x y); [|lia] end. cbn [mbind outcome_bind]. rewrite Hc.
      rewrite drop_app_length' by (unfold zlen in Hz; lia).
      destruct (cap_room (capture_queue w)); cbn [mbind outcome_bind];
        (rewrite advance_view, zlen_app by lia; change (zlen [encode_direction dir]) with 1; pose proof (zlen_nonneg b);
         match goal with |- context [Z.leb ?x ?y] => destruct (Z.leb_spec x y); [|lia] end; cbn [mbind outcome_bind capture_loop snd fst]; eexists _, _; done).
    - rewrite advance_view, zlen_app by lia. change (zlen [encode_direction dir]) with 1. pose proof (zlen_nonneg b).
      match goal with |- context [Z.leb ?x ?y] => destruct (Z.leb_spec x y); [|lia] end. cbn [mbind outcome_bind snd fst]. by eexists _, _. }
  destruct (maybe_capture_content M asm dir ts w _ (of_view_valid M md h b t) _ E) as [Hs Hq]. cbn [fst snd] in *.
  destruct Hq as (md2 & h2 & h2' & b2 & t2 & Ev & -> & Hh2). exists w', h2'.
  assert (b2 = b) as -> by (by rewrite <- (of_view_body M md h b t), Ev, of_view_body).
  assert (t2 = t) as -> by (by rewrite <- (of_view_tail M md h b t), Ev, of_view_tail).
  assert (h2 = h) as -> by (by rewrite <- (of_view_head M md h b t), Ev, of_view_head).
  split; [|done]. rewrite E. do 2 f_equal. unfold of_view in *. injection Ev as Ev. f_equal. rewrite Hh2.
  destruct md, md2. unfold set_extent in *. cbn in *. naive_solver.
Qed.

(** ** Out *)

Lemma set_flowinfo_unspecified a f : is_unspecified (set_flowinfo a f) = is_unspecified a.
Proof. by destruct a. Qed.

Lemma base_transit rest : read_from_prefix zdpBaseHeader (as_bytes zdpBaseHeader (mk_ZdpBaseHeader (packet_type TransitPacket) 0) ++ rest) =
  Some (mk_ZdpBaseHeader (packet_type TransitPacket) 0, rest).
Proof. apply read_as_bytes; [apply _|]. cbn. lia. Qed.

(** A peer packets can be sent to, under the association [sa]. *)
Definition sends_to asm (link : Z) (peer : FpPeer) (sa : KmTransportSA Certificate) : Prop :=
  peer_get asm link = Some peer ∧ fp_transport_sa peer = Some sa ∧ hmac (send_zpis sa) ≠ ZPI_0 ∧
  is_unspecified (fp_substrate_addr peer) = false ∧ intf_unspecified (fp_interface_addr peer) = false.

(** [w'] has sent [l] to [peer]. *)
Definition sent w w' (peer : @FpPeer ND SL ScopedIpAddr Certificate) (l : bytes) : Prop :=
  ∃ p f, substrate_egress_q w' = substrate_egress_q w ++ [mk_queued p (set_flowinfo (fp_substrate_addr peer) f) (fp_interface_addr peer)] ∧ body M p = l ∧
    actor_input_q w' = actor_input_q w.

Lemma egress_transit asm ts w md h s payload t peer sa :
  sends_to asm (egress_link_id md) peer sa → capturing w → 18 <= zlen h → 8 <= zlen t →
  ∃ w', substrate_egress M intf_unspecified asm ts w (of_view M md h (transit_msg s payload) t) = Ret w' ∧
    sent w w' peer (link_frame (hmac (send_zpis sa)) (send_hmac_key sa) (transit_msg s payload)).
Proof using BL.
  intros (Hp & Hsa & Hz & Hd & Hi) Hc Hh Ht. unfold substrate_egress, substrate_egress_common.
  change (egress_link_id (metadata (of_view M md h (transit_msg s payload) t))) with (egress_link_id md).
  rewrite of_view_body. unfold transit_msg at 1. rewrite base_transit. cbv beta iota zeta. rewrite Hp. cbn [base_packet_type].
  change (packet_type TransitPacket =? packet_type TransitPacket) with true. change (packet_type TransitPacket =? packet_type KeyManagement) with false.
  cbv iota. rewrite Hsa. cbv iota. rewrite (proj2 (Z.eqb_neq _ _) Hz). cbn [negb assertb].
  destruct (encap_view M (hmac (send_zpis sa)) md h (transit_msg s payload) t) as (g & -> & Hg); [lia|]. cbn [mbind outcome_bind].
  destruct (capture_view asm Outbound ts w md g (as_bytes zdpZpiHeader (mk_ZdpZpiHeader (hmac (send_zpis sa))) ++ transit_msg s payload) t) as (w1 & g' & -> & Hg' & Hs & _); [lia|done|].
  cbn [mbind outcome_bind protect]. rewrite encrypt_hmac_view by done. cbn [mbind outcome_bind]. rewrite set_flowinfo_unspecified, Hd, Hi. cbn [negb assertb].
  eexists. split; [done|]. destruct Hs as (_ & _ & _ & _ & Ei & Ee & _). eexists _, _. cbn. rewrite Ee, Ei. split; [done|]. split; [|done].
  by rewrite of_view_body.
Qed.

Lemma as_bytes_zlen {A} (c : packed A) `{!PackedLaws c} x : in_range c x → zlen (as_bytes c x) = Z.of_nat (size_of c).
Proof. intros Hx. unfold zlen. by rewrite packed_length. Qed.

Lemma forward_out asm ts w md h payload t link s peer sa :
  next_hop asm (of_view M md h payload t) = inr (link, s) → link ≠ LOCAL_ACTOR_LINK_ID → sends_to asm link peer sa → capturing w → 24 <= zlen h → 8 <= zlen t →
  ∃ w', forward M intf_unspecified a2aSaid asm ts w (of_view M md h payload t) = Ret w' ∧
    sent w w' peer (link_frame (hmac (send_zpis sa)) (send_hmac_key sa) (transit_msg s payload)).
Proof using BL.
  intros Hn Hl Hp Hc Hh Ht. unfold forward. rewrite Hn. rewrite (proj2 (Z.eqb_neq _ _) Hl).
  destruct (alloc_header_room M md h payload t (as_bytes zdpPerFlowHeader (mk_ZdpPerFlowHeader s))) as (g1 & -> & Hg1); [change (zlen (as_bytes zdpPerFlowHeader (mk_ZdpPerFlowHeader s))) with 4; lia|].
  change (zlen (as_bytes zdpPerFlowHeader (mk_ZdpPerFlowHeader s))) with 4 in Hg1. cbn [mbind outcome_bind].
  destruct (alloc_header_room M md g1 (as_bytes zdpPerFlowHeader (mk_ZdpPerFlowHeader s) ++ payload) t
    (as_bytes zdpBaseHeader (mk_ZdpBaseHeader (packet_type TransitPacket) 0))) as (g2 & -> & Hg2); [change (zlen (as_bytes zdpBaseHeader (mk_ZdpBaseHeader (packet_type TransitPacket) 0))) with 2; lia|].
  change (zlen (as_bytes zdpBaseHeader (mk_ZdpBaseHeader (packet_type TransitPacket) 0))) with 2 in Hg2. cbn [mbind outcome_bind].
  rewrite upd_view by done. apply (egress_transit asm ts w (set_egress_link link md) g2 s payload t peer sa Hp Hc); [lia|lia].
Qed.

(** ** In *)

(** A link packets come from, under the association [sa]. *)
Definition comes_from asm (addr : SocketAddr) (intf : ScopedIpAddr) (link : Z) (sa : KmTransportSA Certificate) : Prop :=
  lookup_peer asm addr intf = Some link ∧ link ≠ LINK_ID_UNKNOWN ∧ association asm link = Some sa.

(** What one end sends under its association, the other end accepts. *)
Definition paired (out in_ : KmTransportSA Certificate) : Prop :=
  hmac (recv_zpis in_) = hmac (send_zpis out) ∧ recv_hmac_key in_ = send_hmac_key out ∧ is_u8 (hmac (send_zpis out)) ∧ hmac (send_zpis out) ≠ ZPI_0.

Lemma read_from_buf_view {A} (c : packed A) `{!PackedLaws c} md h x rest t : in_range c x →
  read_from_buf M c (of_view M md h (as_bytes c x ++ rest) t) = Ret (Some (x, of_view M md (h ++ as_bytes c x) rest t)).
Proof. intros Hx. unfold read_from_buf. rewrite of_view_body, read_as_bytes by done. by rewrite skip_header. Qed.

Lemma ingress_transit asm ts w addr intf md h s payload t link out sa :
  comes_from asm addr intf link sa → paired out sa → capturing w → 17 <= zlen h → is_u32 s →
  ∃ w1 h' t', substrate_ingress M intf_unspecified LINK_ID_UNKNOWN a2aSaid asm ts w addr intf
      (of_view M md h (link_frame (hmac (send_zpis out)) (send_hmac_key out) (transit_msg s payload)) t)
    = forward M intf_unspecified a2aSaid asm ts w1 (of_view M (set_ingress_stream s (set_ingress_link link md)) h' payload t') ∧
    same_queues w w1 ∧ capturing w1 ∧ zlen h' = zlen h + 7 ∧ zlen t <= zlen t'.
Proof using BL.
  intros (Hl & Hu & Ha) (Hz & Hk & Hz8 & Hz0) Hc Hh Hs. unfold substrate_ingress. rewrite Hl. change (default 0 (Some link)) with link. rewrite upd_view by done. rewrite of_view_body.
  unfold link_frame at 1. cbv zeta. rewrite <- app_assoc. assert (in_range zdpZpiHeader (mk_ZdpZpiHeader (hmac (send_zpis out)))) as Hr by (cbn; unfold is_u8 in *; lia).
  rewrite read_as_bytes by (done || apply _). unfold decrypt. cbv zeta.
  match goal with |- context [peer_get asm ?x] => change x with link end.
  unfold association in Ha. rewrite Ha. unfold decrypt_with_sa. cbn [zpi]. rewrite <- Hz, Z.eqb_refl. rewrite Hk. unfold link_frame. cbv zeta.
  rewrite decrypt_hmac_view by apply link_mac_length. rewrite bool_decide_true by done. cbn [mbind outcome_bind].
  match goal with |- context [of_view M _ h ?b ?t'] => destruct (capture_view asm Inbound ts w (set_ingress_link link md) h b t') as (w1 & h1 & -> & Hh1 & Hs1 & Hc1); [lia|done|] end.
  cbn [mbind outcome_bind]. rewrite Hz. rewrite read_from_buf_view by (done || apply _). cbn [mbind outcome_bind].
  match goal with |- context [ingress_link_id (metadata ?q)] => change (ingress_link_id (metadata q)) with link end. rewrite (proj2 (Z.eqb_neq _ _) Hu).
  unfold ingress_link_packet, transit_msg. cbn [zpi].
  rewrite read_from_buf_view by (apply _ || (cbn; lia)). cbn [mbind outcome_bind base_packet_type]. rewrite (proj2 (Z.eqb_neq _ _) Hz0). cbn [andb].
  rewrite Z.eqb_refl. cbn [negb]. rewrite read_from_buf_view by (apply _ || (cbn; unfold is_u32 in *; lia)). cbn [mbind outcome_bind stream_id]. rewrite upd_view by done.
  eexists w1, _, _. split; [reflexivity|]. split; [done|]. split; [done|]. rewrite !zlen_app, Hh1. split; [|pose proof (zlen_nonneg (link_mac (send_hmac_key out) (as_bytes zdpZpiHeader {| zpi := hmac (send_zpis out) |} ++ as_bytes zdpBaseHeader {| base_packet_type := packet_type TransitPacket; excess_length := 0 |} ++ as_bytes zdpPerFlowHeader {| stream_id := s |} ++ payload))); lia].
  change (zlen (as_bytes zdpZpiHeader _)) with 1. change (zlen (as_bytes zdpBaseHeader _)) with 2. change (zlen (as_bytes zdpPerFlowHeader _)) with 4. lia.
Qed.

(** ** The ends *)

Lemma a2a_micv_length key l : length (a2a_micv key l) = 8%nat.
Proof using BL. unfold a2a_micv. destruct key; by rewrite length_take, ?blake3_keyed_hash_length, ?blake3_hash_length. Qed.

Lemma a2a_range : in_range (zdpA2aHeader a2aSaid) (mk_ZdpA2aHeader 0).
Proof using Hsaid. done. Qed.

(** [c] is a compressed form of [p1], and [p2] what it expands to. *)
Definition carries (mode l3 l4 : Z) (ft : FiveTuple) (p1 c p2 : bytes) : Prop :=
  zlen c <= zlen p1 ∧
  (∀ md h t, ∃ g, compress M mode l3 l4 (of_view M md h p1 t) = Ret (of_view M md g c t)) ∧
  (∀ md h t, 46 <= zlen h → ∃ g, expand M mode ft (of_view M md h c t) = Ret (of_view M md g p2 t)).

(** Where a tether ends: what is delivered is what arrives if the two MICVs agree. *)
Definition ends_tether asm (tether mode : Z) (ft : FiveTuple) (key : option bytes) : Prop :=
  ∃ pep, dlt_get (asm_dlt asm) tether = Some pep ∧ compression_mode (dlt_tc pep) = mode ∧ tc_five_tuple (dlt_tc pep) = ft ∧ dlt_a2a_micv_key pep = key ∧
    (ph_mode asm = PhAdapter → adapter_owns_address asm (dst_address ft) = true).

Lemma actor_input_view asm w tether md h key (p1 c p2 : bytes) t (mode l3 l4 : Z) ft : ends_tether asm tether mode ft key → carries mode l3 l4 ft p1 c p2 → 46 <= zlen h →
  ∃ q, body M q = p2 ∧ actor_input M a2aSaid asm w tether (of_view M md h (a2a_msg key c p1) t) =
    Ret (if bool_decide (a2a_micv key p2 = a2a_micv key p1) then with_input w (actor_input_q w ++ [q]) else drop_and_count w q MicvFailure).
Proof using BL SA Hsaid.
  intros (pep & Hd & <- & <- & <- & Ho) (_ & _ & He) Hh. unfold actor_input, a2a_msg. rewrite read_from_buf_view by (apply _ || apply a2a_range).
  cbn [mbind outcome_bind a2a_said]. change (negb (0 =? 0)) with false. cbv iota. rewrite of_view_body. set (mac := a2a_micv _ p1).
  assert (length mac = 8%nat) as Hm by apply a2a_micv_length. change ZDP_A2A_MAC_SIZE with 8%nat. assert (zlen mac = 8) as Hz by (unfold zlen; lia).
  rewrite zlen_app, Hz. pose proof (zlen_nonneg c). destruct (Z.ltb_spec (zlen c + 8) (Z.of_nat 8)); [lia|]. unfold slice_from. rewrite length_app, Hm.
  replace (length c + 8 - 8)%nat with (length c) by lia. destruct (Nat.ltb_spec (length c + 8) (length c)); [lia|]. cbn [mbind outcome_bind].
  rewrite drop_app_length. change (Z.of_nat 8) with 8. rewrite <- Hz, shrink_app. cbn [mbind outcome_bind]. rewrite Hd.
  assert ((match ph_mode asm with PhAdapter => true | PhNode => false end) && negb (adapter_owns_address asm (dst_address (tc_five_tuple (dlt_tc pep)))) = false) as ->.
  { destruct (ph_mode asm); [|done]. by rewrite Ho. }
  match goal with |- context [of_view M md ?h' c ?t'] => destruct (He md h' t') as (g & ->); [rewrite zlen_app; pose proof (zlen_nonneg (as_bytes (zdpA2aHeader a2aSaid) (mk_ZdpA2aHeader 0))); lia|] end.
  cbn [mbind outcome_bind]. rewrite of_view_body. eexists. split; [apply (of_view_body M md g)|]. by case_bool_decide.
Qed.

Lemma output_active_view asm ts w pep md h (p1 c p2 : bytes) t ft : carries (elt_compression_mode pep) (NetDefs.l3_type (five_tuple md)) (l4_protocol (five_tuple md)) ft p1 c p2 →
  Z.of_nat (size_of a2aSaid) <= zlen h → 8 <= zlen t →
  ∃ h' t', actor_output_active M intf_unspecified a2aSaid asm ts w pep (of_view M md h p1 t) =
      forward M intf_unspecified a2aSaid asm ts w (of_view M (set_ingress_stream (elt_tether_id pep) md) h' (a2a_msg (elt_a2a_micv_key pep) c p1) t') ∧
    zlen h - Z.of_nat (size_of a2aSaid) <= zlen h' ∧ zlen t' = zlen t - 8.
Proof using BL SA Hsaid.
  intros (Hl & Hc & _) Hh Ht. unfold actor_output_active. cbv zeta. rewrite of_view_body. change (five_tuple (metadata (of_view M md h p1 t))) with (five_tuple md).
  destruct (Hc md h t) as (g & Eg). rewrite Eg. cbn [mbind outcome_bind].
  assert (zlen h <= zlen g) as Hg.
  { destruct (compress_ensures M _ _ _ _ _ (kept_refl M _ (of_view_valid M md h p1 t)) _ Eg) as (_ & Hz & _). cbn in Hz. rewrite !zlen_app in Hz. lia. }
  rewrite put_view. unfold zlen at 1. rewrite a2a_micv_length. destruct (Z.leb_spec (Z.of_nat 8) (zlen t)); [|lia]. cbn [mbind outcome_bind].
  pose proof (as_bytes_zlen (zdpA2aHeader a2aSaid) _ a2a_range) as Hz. change (size_of (zdpA2aHeader a2aSaid)) with (size_of a2aSaid) in Hz.
  edestruct (alloc_header_room M md g) as (g2 & -> & Hg2); [|]; [rewrite Hz; lia|]. cbn [mbind outcome_bind]. rewrite upd_view by done.
  eexists _, _. split; [unfold a2a_msg; reflexivity|]. split; [lia|]. unfold zlen in *. rewrite length_drop. lia.
Qed.

(** Where a flow enters: the entry of its five-tuple. *)
Definition starts_tether asm (ft : FiveTuple) (pep : EltPep) : Prop :=
  table (asm_elt asm) !! ft = Some (Active pep) ∧ (ph_mode asm = PhAdapter → adapter_owns_address asm (src_address ft) = true).

(** The packet [p] of the flow [ft] and what is left of it after the hop: the
    classifier accepts it and its lifetime does not end here. *)
Definition hop (ft : FiveTuple) (p p1 : bytes) : Prop :=
  (∀ ft0, ∃ r, classify ft0 p = Ret (ft, inr r) ∧ (r = OK ∨ r = UnclassifiedL4)) ∧
  (∀ md h t, five_tuple md = ft → decrement_ttl M (of_view M md h p t) = Ret (of_view M md h p1 t, false)).

Lemma actor_output_view asm ts w md h (p p1 : bytes) t ft pep : starts_tether asm ft pep → hop ft p p1 →
  actor_output M intf_unspecified a2aSaid asm ts w (of_view M md h p t) =
  actor_output_active M intf_unspecified a2aSaid asm ts w pep
    (of_view M (set_five_tuple ft (set_ingress_lane (worker_index w mod 256) (set_ingress_link LOCAL_ACTOR_LINK_ID md))) h p1 t).
Proof.
  intros (He & Ho) (Hc & Hd). unfold actor_output. cbv zeta. rewrite !upd_view by done. rewrite of_view_body.
  match goal with |- context [classify ?x p] => destruct (Hc x) as (r & -> & Hr) end. cbn [mbind outcome_bind fst snd].
  rewrite upd_view by done.
  assert (∀ X Y : outcome Worker, match r with OK | UnclassifiedL4 => X | _ => Y end = X) as Hm by (by intros; destruct Hr as [-> | ->]).
  transitivity (r0 ← decrement_ttl M (of_view M (set_five_tuple ft (set_ingress_lane (worker_index w mod 256) (set_ingress_link LOCAL_ACTOR_LINK_ID md))) h p t);
    if (r0.2 : bool) then Ret (drop_and_count w r0.1 TtlExpired) else actor_output_post_classify M intf_unspecified a2aSaid asm ts w r0.1 true); [by destruct Hr as [-> | ->]|].
  rewrite Hd by done. cbn [mbind outcome_bind fst snd]. unfold actor_output_post_classify. cbv zeta.
  change (five_tuple (metadata (of_view M (set_five_tuple ft _) h p1 t))) with ft. rewrite He.
  assert ((match ph_mode asm with PhAdapter => true | PhNode => false end) && negb (adapter_owns_address asm (src_address ft)) = false) as ->; [|done].
  destruct (ph_mode asm); [|done]. by rewrite Ho.
Qed.

(** ** The route of a flow over one node *)

Record route (asmA asmN asmB : Asm) (ft ft' : FiveTuple) (pep : EltPep) (dock peerB : FpPeer) (addrA addrN : SocketAddr) (intfA intfN : ScopedIpAddr) : Prop := {
  rt_A : ph_mode asmA = PhAdapter ∧ starts_tether asmA ft pep;
  rt_AN : ∃ out in_ link, sends_to asmA DOCK_LINK_ID dock out ∧ paired out in_ ∧ comes_from asmN addrA intfA link in_ ∧
    ∃ peer fwd, peer_get asmN link = Some peer ∧ pft_get (fp_pft peer) (elt_tether_id pep) = Some fwd ∧
    ∃ out' in', sends_to asmN (pft_next_hop fwd).1 peerB out' ∧ (pft_next_hop fwd).1 ≠ LOCAL_ACTOR_LINK_ID ∧ is_u32 (pft_next_hop fwd).2 ∧
      paired out' in' ∧ comes_from asmB addrN intfN DOCK_LINK_ID in' ∧
      ends_tether asmB (pft_next_hop fwd).2 (elt_compression_mode pep) ft' (elt_a2a_micv_key pep);
  rt_N : ph_mode asmN = PhNode;
  rt_B : ph_mode asmB = PhAdapter;
  rt_tether : is_u32 (elt_tether_id pep);
}.

(** What the receiver does with the packet [q] that arrives. *)
Definition arrives w w' (key : option bytes) (p1 p2 : bytes) : Prop :=
  (a2a_micv key p2 = a2a_micv key p1 ∧ ∃ q, actor_input_q w' = actor_input_q w ++ [q] ∧ body M q = p2) ∨
  (a2a_micv key p2 ≠ a2a_micv key p1 ∧ nothing w w').

Lemma crossing asmA asmN asmB ft ft' pep dock peerB addrA addrN intfA intfN (p p1 c p2 : bytes) ts :
  route asmA asmN asmB ft ft' pep dock peerB addrA addrN intfA intfN → hop ft p p1 →
  carries (elt_compression_mode pep) (NetDefs.l3_type ft) (l4_protocol ft) ft' p1 c p2 →
  ∀ wA md h t, capturing wA → 24 + Z.of_nat (size_of a2aSaid) <= zlen h → 16 <= zlen t →
  ∃ wA' l1, actor_output M intf_unspecified a2aSaid asmA ts wA (of_view M md h p t) = Ret wA' ∧ sent wA wA' dock l1 ∧
  ∀ wN md h t, capturing wN → 17 <= zlen h → 8 <= zlen t →
  ∃ wN' l2, substrate_ingress M intf_unspecified LINK_ID_UNKNOWN a2aSaid asmN ts wN addrA intfA (of_view M md h l1 t) = Ret wN' ∧ sent wN wN' peerB l2 ∧
  ∀ wB md h t, capturing wB → 46 <= zlen h →
  ∃ wB', substrate_ingress M intf_unspecified LINK_ID_UNKNOWN a2aSaid asmB ts wB addrN intfN (of_view M md h l2 t) = Ret wB' ∧
    arrives wB wB' (elt_a2a_micv_key pep) p1 p2.
Proof using BL SA Hsaid.
  intros [(HA & Hst) (out & in_ & link & Hout & Hpair & Hfrom & peer & fwd & Hpeer & Hpft & out' & in' & Hout' & Hloc & Hs & Hpair' & Hfrom' & Hend) HN HB Htether]
    Hhop Hcar wA md h t HcA Hh Ht. rewrite (actor_output_view asmA ts wA md h p p1 t ft pep Hst Hhop).
  destruct (output_active_view asmA ts wA pep (set_five_tuple ft (set_ingress_lane (worker_index wA mod 256) (set_ingress_link LOCAL_ACTOR_LINK_ID md)))
    h p1 c p2 t ft' Hcar) as (h1 & t1 & -> & Hh1 & Ht1); [lia|lia|].
  set (md1 := set_ingress_stream _ _).
  destruct (forward_out asmA ts wA md1 h1 (a2a_msg (elt_a2a_micv_key pep) c p1) t1 DOCK_LINK_ID (elt_tether_id pep) dock out) as (wA' & EA & HsentA);
    [unfold next_hop; by rewrite HA|done|done|done|lia|lia|].
  exists wA', (link_frame (hmac (send_zpis out)) (send_hmac_key out) (transit_msg (elt_tether_id pep) (a2a_msg (elt_a2a_micv_key pep) c p1))).
  split; [done|]. split; [done|]. clear dependent wA h t h1 t1 md. intros wN md h t HcN Hh Ht.
  destruct (ingress_transit asmN ts wN addrA intfA md h (elt_tether_id pep) (a2a_msg (elt_a2a_micv_key pep) c p1) t link out in_ Hfrom Hpair HcN) as
    (w1 & h1 & t1 & -> & Hs1 & Hc1 & Hh1 & Ht1); [lia|done|].
  destruct (forward_out asmN ts w1 (set_ingress_stream (elt_tether_id pep) (set_ingress_link link md)) h1 (a2a_msg (elt_a2a_micv_key pep) c p1) t1
    (pft_next_hop fwd).1 (pft_next_hop fwd).2 peerB out') as (wN' & EN & HsentN); [|done|done|done|lia|lia|].
  { unfold next_hop. cbn. rewrite HN, Hpeer, Hpft. by destruct (pft_next_hop fwd). }
  exists wN', (link_frame (hmac (send_zpis out')) (send_hmac_key out') (transit_msg (pft_next_hop fwd).2 (a2a_msg (elt_a2a_micv_key pep) c p1))).
  split; [done|]. split. { destruct HsentN as (q & f & Hq & Hb & Hi). destruct Hs1 as (_ & _ & _ & _ & Ei & Ee & _). exists q, f. rewrite <- Ei, <- Ee. done. }
  clear dependent wN h t h1 t1 md wN'. intros wB md h t HcB Hh.
  destruct (ingress_transit asmB ts wB addrN intfN md h (pft_next_hop fwd).2 (a2a_msg (elt_a2a_micv_key pep) c p1) t DOCK_LINK_ID out' in' Hfrom' Hpair' HcB) as
    (w2 & h1 & t1 & -> & Hs2 & Hc2 & Hh1 & _); [lia|done|].
  unfold forward, next_hop. rewrite HB. cbn [metadata of_view set_extent ingress_link_id ingress_stream_id set_ingress_stream set_ingress_link].
  change (adapter_next_hop_link DOCK_LINK_ID =? LOCAL_ACTOR_LINK_ID) with true. cbv iota.
  destruct (actor_input_view asmB w2 (pft_next_hop fwd).2 (set_ingress_stream (pft_next_hop fwd).2 (set_ingress_link DOCK_LINK_ID md)) h1
    (elt_a2a_micv_key pep) p1 c p2 t1 _ _ _ _ Hend Hcar) as (q & Hq & ->); [lia|].
  eexists. split; [done|]. case_bool_decide as E.
  - left. split; [done|]. exists q. split; [|done]. cbn. destruct Hs2 as (_ & _ & _ & _ & -> & _). done.
  - right. split; [done|]. eapply nothing_after; [exact Hs2|]. done.
Qed.

(** ** IPv6 and IPv4 packets *)

Lemma l4_seg_shorter mode ft seg comp : l4_seg mode ft seg comp → zlen comp <= zlen seg.
Proof.
  unfold l4_seg. destruct (_ =? TCP); [|destruct (_ =? UDP)].
  - intros (sp & dp & r1 & ck & rest & _ & _ & _ & _ & -> & ->). rewrite !zlen_app, !be_put_zlen. pose proof (zlen_nonneg ck).
    pose proof (opt_port_zlen mode cm_SOURCE_PORT_PRESENT sp). pose proof (opt_port_zlen mode cm_DESTINATION_PORT_PRESENT dp). lia.
  - intros (sp & dp & rest & _ & _ & _ & -> & ->). rewrite !zlen_app, !be_put_zlen.
    pose proof (opt_port_zlen mode cm_SOURCE_PORT_PRESENT sp). pose proof (opt_port_zlen mode cm_DESTINATION_PORT_PRESENT dp). lia.
  - by intros ->.
Qed.

Lemma patch_header_view {A} (c : packed A) `{!PackedLaws c} md h x y rest t : in_range c x → in_range c y →
  slice_to (body M (of_view M md h (as_bytes c x ++ rest) t)) (Z.of_nat (size_of c)) = Ret (as_bytes c x) ∧
  write_prefix M (of_view M md h (as_bytes c x ++ rest) t) (as_bytes c y) = of_view M md h (as_bytes c y ++ rest) t.
Proof.
  intros Hx Hy. pose proof (as_bytes_zlen c x Hx) as Zx. pose proof (as_bytes_zlen c y Hy) as Zy. split.
  - rewrite of_view_body. unfold slice_to. rewrite zlen_app, Zx. pose proof (zlen_nonneg rest). destruct (Z.ltb_spec (Z.of_nat (size_of c) + zlen rest) (Z.of_nat (size_of c))); [lia|].
    rewrite Nat2Z.id, take_app_length'; [done|]. unfold zlen in Zx. lia.
  - apply write_prefix_view. lia.
Qed.

Lemma decrement_v6 md h hdr rest t : NetDefs.l3_type (five_tuple md) = L3_Ipv6 → in_range ipv6Header hdr → 1 < hop_limit hdr →
  decrement_ttl M (of_view M md h (as_bytes ipv6Header hdr ++ rest) t) = Ret (of_view M md h (as_bytes ipv6Header (set_hop_limit hdr (hop_limit hdr - 1)) ++ rest) t, false).
Proof using NL.
  intros Hl Hr Ht. unfold decrement_ttl. cbv zeta. change (five_tuple (metadata (of_view M md h _ t))) with (five_tuple md). rewrite Hl.
  pose proof L3_distinct. destruct (Z.eqb_spec L3_Ipv6 L3_Ipv4); [by destruct L3_distinct|]. rewrite Z.eqb_refl.
  destruct (patch_header_view ipv6Header md h hdr (set_hop_limit hdr (hop_limit hdr - 1)) rest t Hr) as [-> Ew]; [apply set_hop_limit_range; [done|lia]|].
  cbn [mbind outcome_bind]. rewrite packed_from_as by done. destruct (Z.ltb_spec 0 (hop_limit hdr)); [|lia]. rewrite Ew. do 2 f_equal. apply Z.eqb_neq. lia.
Qed.

Lemma decrement_v4 md h hdr rest t : NetDefs.l3_type (five_tuple md) = L3_Ipv4 → in_range ipv4Header hdr → 1 < ttl hdr →
  decrement_ttl M (of_view M md h (as_bytes ipv4Header hdr ++ rest) t) = Ret (of_view M md h (as_bytes ipv4Header (set_ttl hdr (ttl hdr - 1)) ++ rest) t, false).
Proof.
  intros Hl Hr Ht. unfold decrement_ttl. cbv zeta. change (five_tuple (metadata (of_view M md h _ t))) with (five_tuple md). rewrite Hl, Z.eqb_refl.
  destruct (patch_header_view ipv4Header md h hdr (set_ttl hdr (ttl hdr - 1)) rest t Hr) as [-> Ew]; [apply set_ttl_range; [done|lia]|].
  cbn [mbind outcome_bind]. rewrite packed_from_as by done. destruct (Z.ltb_spec 0 (ttl hdr)); [|lia]. rewrite Ew. do 2 f_equal. apply Z.eqb_neq. lia.
Qed.

Lemma carries_v6 mode ft hdr seg comp : NetDefs.l3_type ft = L3_Ipv6 → ipv6_packet mode ft hdr seg comp →
  carries mode L3_Ipv6 (l4_protocol ft) ft (as_bytes ipv6Header hdr ++ seg) (ipv6_compressed hdr comp) (as_bytes ipv6Header hdr ++ seg).
Proof using NL.
  intros Hl Hp. pose proof Hp as (Hr & _ & _ & _ & _ & Hseg). pose proof L3_distinct as Hd. split; [|split].
  - unfold ipv6_compressed. rewrite !zlen_app. rewrite (as_bytes_zlen ipv6Header hdr Hr), (as_bytes_zlen compressedIPv6Header _ (compressed_range hdr Hr)).
    apply l4_seg_shorter in Hseg. change (size_of ipv6Header) with 40%nat. change (size_of compressedIPv6Header) with 5%nat. lia.
  - intros. unfold compress. destruct (Z.eqb_spec L3_Ipv6 L3_Ipv4); [by destruct Hd|]. rewrite Z.eqb_refl. by apply compress_ipv6_view.
  - intros. unfold expand. rewrite Hl. destruct (Z.eqb_spec L3_Ipv6 L3_Ipv4); [by destruct Hd|]. rewrite Z.eqb_refl. by apply expand_ipv6_view.
Qed.

(** The header with the checksum its other fields imply. *)
Definition fix_checksum (hdr : IPv4Header) : IPv4Header :=
  mk_IPv4Header (vhl hdr) (dscp hdr) (total_length hdr) (frag_id hdr) (frag_offset hdr) (ttl hdr) (proto hdr)
    (be_put 2 (ip4sum (as_bytes ipv4Header (zero_checksum hdr)))) (ip4_src_address hdr) (ip4_dst_address hdr).

Lemma set_checksum_range hdr ck : in_range ipv4Header hdr → length ck = 2%nat → Forall is_u8 ck →
  in_range ipv4Header (mk_IPv4Header (vhl hdr) (dscp hdr) (total_length hdr) (frag_id hdr) (frag_offset hdr) (ttl hdr) (proto hdr) ck (ip4_src_address hdr) (ip4_dst_address hdr)).
Proof. destruct hdr. cbn. intros Hr Hl Hf. destruct_and!. by split_and!. Qed.

Lemma carries_v4 mode ft hdr seg comp (t : Z) : NetDefs.l3_type ft = L3_Ipv4 → ipv4_packet mode ft hdr seg comp → 0 <= t <= ttl hdr →
  carries mode L3_Ipv4 (l4_protocol ft) ft (as_bytes ipv4Header (set_ttl hdr t) ++ seg) (ipv4_compressed (set_ttl hdr t) comp) (as_bytes ipv4Header (fix_checksum (set_ttl hdr t)) ++ seg).
Proof using NL.
  intros Hl Hp Ht. pose proof Hp as (Hr & Hv & Htl & Hpr & Hs & Hd & _ & Hseg). pose proof (set_ttl_range hdr t Hr Ht) as Hr1.
  assert (in_range ipv4Header (fix_checksum (set_ttl hdr t))) as Hr2 by (apply set_checksum_range; [done|apply be_put_length|apply be_put_bytes]).
  assert (ipv4_packet mode ft (fix_checksum (set_ttl hdr t)) seg comp) as Hp2 by (destruct hdr; by split_and!).
  split; [|split].
  - rewrite zlen_app, (as_bytes_zlen ipv4Header _ Hr1). apply l4_seg_shorter in Hseg. change (size_of ipv4Header) with 20%nat.
    unfold ipv4_compressed. rewrite !zlen_app. assert (zlen (frag_id (set_ttl hdr t)) = 2) as -> by (destruct hdr; cbn in *; unfold zlen; destruct_and!; lia).
    unfold zlen in *. case_match; cbn [length app] in *; rewrite ?be_put_length in *; lia.
  - intros md h t'. unfold compress. rewrite Z.eqb_refl.
    destruct (compress_l4_view M md (h ++ as_bytes ipv4Header (set_ttl hdr t)) t' mode ft seg comp Hseg) as (g & Eg & Hg).
    eapply compress_ipv4_gen; [done|done|]. rewrite zlen_app, (as_bytes_zlen ipv4Header _ Hr1) in Hg. change (size_of ipv4Header) with 20%nat in Hg. pose proof (zlen_nonneg h). lia.
  - intros md h t' Hh. unfold expand. rewrite Hl, Z.eqb_refl.
    change (ipv4_compressed (set_ttl hdr t) comp) with (ipv4_compressed (fix_checksum (set_ttl hdr t)) comp). apply expand_ipv4_view; [done|lia].
Qed.

Lemma ipv4_checksum_eq (a b : IPv4Header) (rest rest' : bytes) : in_range ipv4Header a → in_range ipv4Header b → as_bytes ipv4Header a ++ rest = as_bytes ipv4Header b ++ rest' → header_checksum a = header_checksum b.
Proof.
  intros Ha Hb E. apply app_inj_1 in E as [E _]; [|by rewrite !packed_length].
  by rewrite <- (packed_from_as (c := ipv4Header) a Ha), E, packed_from_as.
Qed.
End flow.

(** A link's receiving buffers, as [get_fresh_packets] makes them, are large enough. *)
Definition roomy (h t : bytes) : Prop := 64 <= zlen h ∧ 16 <= zlen t.

(** C5: An IPv6 packet of a bound flow crosses from actor to actor.  The first
    adapter's [actor_output] sends one frame to its dock; the node's
    [substrate_ingress] of that frame sends one frame to the second adapter;
    the second adapter's [substrate_ingress] of that frame queues, for its actor,
    the packet byte for byte with the hop limit one less.  For every packet that
    the classifier puts in the flow, whatever capture does on the way, and
    whatever else the workers hold. *)
Theorem ipv6_end_to_end {ND : NetDefs} {NL : NetDefsLaws} {SL : Slab} {AK : A2aKeys} {B3 : Blake3} {BL : Blake3Laws} {ScopedIpAddr Certificate : Type}
    `{EqDecision ScopedIpAddr} (M unknown : Z) (unspec : ScopedIpAddr → bool) (said : packed Z) `{!PackedLaws said}
    (asmA asmN asmB : @Assembly ND SL AK ScopedIpAddr Certificate) (ft ft' : FiveTuple) (pep : EltPep) (dock peerB : FpPeer)
    (addrA addrN : SocketAddr) (intfA intfN : ScopedIpAddr) (hdr : IPv6Header) (seg comp : bytes) (ts : Z * Z) :
  in_range said 0 → size_of said = 1%nat → route unspec unknown asmA asmN asmB ft ft' pep dock peerB addrA addrN intfA intfN →
  NetDefs.l3_type ft = L3_Ipv6 → NetDefs.l3_type ft' = L3_Ipv6 → l4_protocol ft' = l4_protocol ft →
  ipv6_packet (elt_compression_mode pep) ft' hdr seg comp → 1 < hop_limit hdr →
  (∀ ft0, ∃ r, classify ft0 (as_bytes ipv6Header hdr ++ seg) = Ret (ft, inr r) ∧ (r = OK ∨ r = UnclassifiedL4)) →
  ∀ wA md h t, capturing wA → roomy h t →
  ∃ wA' l1, actor_output M unspec said asmA ts wA (of_view M md h (as_bytes ipv6Header hdr ++ seg) t) = Ret wA' ∧ sent M wA wA' dock l1 ∧
  ∀ wN md h t, capturing wN → roomy h t →
  ∃ wN' l2, substrate_ingress M unspec unknown said asmN ts wN addrA intfA (of_view M md h l1 t) = Ret wN' ∧ sent M wN wN' peerB l2 ∧
  ∀ wB md h t, capturing wB → roomy h t →
  ∃ wB' q, substrate_ingress M unspec unknown said asmB ts wB addrN intfN (of_view M md h l2 t) = Ret wB' ∧
    actor_input_q wB' = actor_input_q wB ++ [q] ∧ body M q = as_bytes ipv6Header (set_hop_limit hdr (hop_limit hdr - 1)) ++ seg.
Proof.
  intros Hs Hs1 Hr Hl Hl' Hl4 Hp Ht Hc wA md h t HcA [Hh Htt].
  set (hdr1 := set_hop_limit hdr (hop_limit hdr - 1)).
  assert (ipv6_packet (elt_compression_mode pep) ft' hdr1 seg comp) as Hp1.
  { destruct Hp as (Hrg & Hp). split; [apply set_hop_limit_range; [done|lia]|exact Hp]. }
  assert (hop M ft (as_bytes ipv6Header hdr ++ seg) (as_bytes ipv6Header hdr1 ++ seg)) as Hhop.
  { split; [exact Hc|]. intros md' h' t' E. apply decrement_v6; [by rewrite E|apply Hp|done]. }
  pose proof (carries_v6 M _ _ _ _ _ Hl' Hp1) as Hcar. rewrite Hl4, <- Hl in Hcar.
  destruct (crossing M unspec unknown said Hs asmA asmN asmB ft ft' pep dock peerB addrA addrN intfA intfN _ _ _ _ ts Hr Hhop Hcar wA md h t HcA) as
    (wA' & l1 & EA & HA & HN); [rewrite Hs1; lia|lia|]. exists wA', l1. split; [done|]. split; [done|]. clear dependent wA md h t.
  intros wN md h t HcN [Hh Htt]. destruct (HN wN md h t HcN) as (wN' & l2 & EN & HsN & HB); [lia|lia|]. exists wN', l2. split; [done|]. split; [done|].
  clear dependent wN md h t. intros wB md h t HcB [Hh Htt]. destruct (HB wB md h t HcB) as (wB' & EB & [[_ (q & Hq & Hbq)]|[Hne _]]); [lia| |done].
  by exists wB', q.
Qed.

(** The route of the concrete network. *)
Lemma sample_route ft : (ft = ext_flow ∨ ft = sample_flow) →
  route (Z.eqb 0) 0 (sample_adapter ft 20 (src_address ft)) sample_node (sample_adapter ft 30 (dst_address ft)) ft ft (elt_pep_new 3 5 sample_secret)
    (sample_peer (addr 1) (sa_adapter 20) (slab_of []) [src_address ft]) (sample_peer (addr 3) (sa_node 30) (slab_of []) []) (addr 2) (addr 1) 7 7.
Proof.
  intros Hft.
  assert (∀ k out, out = sa_adapter k ∨ out = sa_node k → is_u8 (hmac (send_zpis out)) ∧ hmac (send_zpis out) ≠ ZPI_0) as Hz.
  { intros k out [-> | ->]; cbn; unfold is_u8, ZPI_0; lia. }
  split; [|exists (sa_adapter 20), (sa_node 20), 3|reflexivity|reflexivity|cbn; unfold is_u32; lia].
  - split; [reflexivity|]. split; [apply lookup_singleton_eq|]. intros _. destruct Hft as [-> | ->]; vm_compute; reflexivity.
  - split; [split_and!; [reflexivity|reflexivity|apply (Hz 20); by left|reflexivity|reflexivity]|]. split; [split_and!; [reflexivity|reflexivity|apply (Hz 20); by left|apply (Hz 20); by left]|].
    split; [split_and!; [reflexivity|done|reflexivity]|].
    exists (sample_peer (addr 2) (sa_node 20) (slab_of [(5, mk_pft_pep (4, 9) 77)]) []), (mk_pft_pep (4, 9) 77). split; [reflexivity|]. split; [reflexivity|].
    exists (sa_node 30), (sa_adapter 30). split; [split_and!; [reflexivity|reflexivity|apply (Hz 30); by right|reflexivity|reflexivity]|]. split; [done|]. split; [cbn; unfold is_u32; lia|].
    split; [split_and!; [reflexivity|reflexivity|apply (Hz 30); by right|apply (Hz 30); by right]|]. split; [split_and!; [reflexivity|done|reflexivity]|].
    exists (dlt_pep_new (mk_tc ft) sample_secret). split; [reflexivity|]. split; [by destruct Hft as [-> | ->]|]. split; [reflexivity|]. split; [reflexivity|].
    intros _. destruct Hft as [-> | ->]; vm_compute; reflexivity.
Qed.

Lemma classify_v6 ft0 : classify ft0 (v6_packet 64) = Ret (ext_flow, inr OK).
Proof. destruct ft0. vm_cast_no_check (eq_refl (Ret (ext_flow, inr OK) : outcome (FiveTuple * (ClassifierError + ClassifierResult)))). Qed.
Lemma classify_v4 ft0 : classify ft0 sample_packet = Ret (sample_flow, inr OK).
Proof. destruct ft0. vm_cast_no_check (eq_refl (Ret (sample_flow, inr OK) : outcome (FiveTuple * (ClassifierError + ClassifierResult)))). Qed.

(** The UDP segment of both packets, and both packets of their flows. *)
Lemma sample_l4_seg ft : src_port ft = 1000 → dst_port ft = 53 → l4_protocol ft = 17 → l4_seg 3 ft sample_seg [0; 0; 1; 2; 3].
Proof.
  intros Hs Hd Hl. unfold l4_seg. rewrite Hl. exists 1000, 53, [0; 0; 1; 2; 3]. rewrite Hs, Hd. split_and!; try done; unfold is_u16, zlen; simpl; lia.
Qed.

Lemma v6_flow : ipv6_packet 3 ext_flow (v6_hdr 64) sample_seg [0; 0; 1; 2; 3].
Proof.
  split; [|split_and!; try reflexivity; by apply sample_l4_seg]. cbn. unfold is_u8. split_and!; try lia; try reflexivity; repeat constructor; lia.
Qed.
Lemma v4_flow : ipv4_packet 3 sample_flow sample_hdr sample_seg [0; 0; 1; 2; 3].
Proof.
  split; [vm_compute; repeat split; (discriminate || (repeat constructor; discriminate))|]. split_and!; try reflexivity. by apply sample_l4_seg.
Qed.

Lemma ipv6_end_to_end_witness :
  ∃ wA' l1, actor_output 96 (Z.eqb 0) u8 (sample_adapter ext_flow 20 (src_address ext_flow)) (1, 2) sample_worker (rx (v6_packet 64)) = Ret wA' ∧
    sent 96 sample_worker wA' (sample_peer (addr 1) (sa_adapter 20) (slab_of []) [src_address ext_flow]) l1.
Proof.
  destruct (ipv6_end_to_end 96 0 (Z.eqb 0) u8 (sample_adapter ext_flow 20 (src_address ext_flow)) sample_node (sample_adapter ext_flow 30 (dst_address ext_flow)) ext_flow ext_flow
    (elt_pep_new 3 5 sample_secret) (sample_peer (addr 1) (sa_adapter 20) (slab_of []) [src_address ext_flow]) (sample_peer (addr 3) (sa_node 30) (slab_of []) [])
    (addr 2) (addr 1) 7 7 (v6_hdr 64) sample_seg [0; 0; 1; 2; 3] (1, 2) ltac:(vm_compute; split; congruence) eq_refl (sample_route ext_flow (or_introl eq_refl)) eq_refl eq_refl eq_refl)
    with (wA := sample_worker) (md := sample_metadata) (h := replicate 64 0) (t := replicate (136 - length (v6_packet 64)) 0) as (wA' & l1 & E & Hs & _).
  - exact v6_flow.
  - vm_compute. reflexivity.
  - intros ft0. exists OK. split; [apply classify_v6|by left].
  - done.
  - split; vm_compute; congruence.
  - exists wA', l1. split; [exact E|exact Hs].
Defined.

(** *** A smaller TTL has another checksum *)

Lemma sum16_ttl (hdr : IPv4Header) t : in_range ipv4Header hdr → 0 <= t < 256 →
  sum16 (as_bytes ipv4Header (zero_checksum (set_ttl hdr t))) = sum16 (as_bytes ipv4Header (zero_checksum (set_ttl hdr 0))) + 256 * t.
Proof.
  destruct hdr as [v d tl fi fo tt pr hc src dst]. cbn. intros (((((((((Hv & Hd) & Htl) & (Hfi & _)) & Hfo) & _) & Hpr) & _) & (Hs & _)) & (Hdst & _)) Ht.
  destruct fi as [|f1 [|f2 []]]; try discriminate Hfi. cbn.
  change (2 ^ (8 * Z.of_nat 0)) with 1. rewrite !Z.div_1_r, (Z.mod_small t) by lia. change (0 `mod` 256) with 0. ring.
Qed.

Lemma ttl_checksum `{NetDefs} {CL : ChecksumLaws} hdr : in_range ipv4Header hdr → 0 < ttl hdr →
  ip4sum (as_bytes ipv4Header (zero_checksum (set_ttl hdr (ttl hdr - 1)))) ≠ ip4sum (as_bytes ipv4Header (zero_checksum hdr)).
Proof.
  intros Hr Ht. assert (0 <= ttl hdr < 256) as Hu by (destruct hdr; cbn in *; destruct_and!; lia).
  assert (hdr = set_ttl hdr (ttl hdr)) as E by by destruct hdr. rewrite E at 3.
  assert (∀ t, 0 <= t <= ttl hdr → Forall is_u8 (as_bytes ipv4Header (zero_checksum (set_ttl hdr t))) ∧ zlen (as_bytes ipv4Header (zero_checksum (set_ttl hdr t))) = 20) as Hb.
  { intros t Hlt. assert (in_range ipv4Header (zero_checksum (set_ttl hdr t))) as Hr'.
    { apply set_checksum_range; [by apply set_ttl_range|done|repeat constructor; unfold is_u8; lia]. }
    split; [by apply packed_bytes|by rewrite (as_bytes_zlen ipv4Header _ Hr')]. }
  destruct (Hb (ttl hdr - 1)) as [B1 L1]; [lia|]. destruct (Hb (ttl hdr)) as [B2 L2]; [lia|].
  rewrite !ip4sum_rfc1071 by (done || lia). unfold rfc1071. pose proof (sum16_bound _ B1) as S1. pose proof (sum16_bound _ B2) as S2. rewrite L1 in S1. rewrite L2 in S2.
  rewrite (sum16_ttl hdr (ttl hdr - 1)) in * by (done || lia). rewrite (sum16_ttl hdr (ttl hdr)) in * by (done || lia).
  set (X := sum16 _) in *.
  destruct (fold16_range (X + 256 * (ttl hdr - 1))) as (F1 & M1 & _); [lia|]. destruct (fold16_range (X + 256 * ttl hdr)) as (F2 & M2 & _); [lia|].
  rewrite !Z.mod_small by lia. intros Heq. apply Z.mod_divide in M1, M2; [|lia|lia]. destruct M1 as [k1 E1], M2 as [k2 E2]. lia.
Qed.

(** What the first adapter computes the MICV over: the TTL is smaller, the checksum is
    not.  What the second adapter makes of the compressed packet. *)
Definition stale_packet (hdr : IPv4Header) (seg : bytes) : bytes := as_bytes ipv4Header (set_ttl hdr (ttl hdr - 1)) ++ seg.
Definition rebuilt_packet `{NetDefs} (hdr : IPv4Header) (seg : bytes) : bytes := as_bytes ipv4Header (fix_checksum (set_ttl hdr (ttl hdr - 1))) ++ seg.

Lemma rebuilt_differs `{NetDefs} {NL : NetDefsLaws} {CL : ChecksumLaws} mode ft hdr seg comp : ipv4_packet mode ft hdr seg comp → 1 < ttl hdr →
  rebuilt_packet hdr seg ≠ stale_packet hdr seg.
Proof.
  intros (Hrg & _ & _ & _ & _ & _ & Hcs & _) Ht E. symmetry in E. set (hdr1 := set_ttl hdr (ttl hdr - 1)) in *.
  assert (in_range ipv4Header hdr1) as Hr1 by (apply set_ttl_range; [done|lia]).
  apply ipv4_checksum_eq in E; [|done|apply set_checksum_range; [done|apply be_put_length|apply be_put_bytes]]. cbn [header_checksum fix_checksum] in E.
  change (header_checksum (set_ttl hdr (ttl hdr - 1))) with (header_checksum hdr) in E. rewrite Hcs in E. apply (ttl_checksum hdr Hrg ltac:(lia)).
  pose proof (ip4sum_u16 (as_bytes ipv4Header (zero_checksum hdr))) as H1. pose proof (ip4sum_u16 (as_bytes ipv4Header (zero_checksum (set_ttl hdr (ttl hdr - 1))))) as H2.
  apply (f_equal be_get) in E. rewrite !be_get_put in E by (unfold is_u16 in *; lia). done.
Qed.

(** C37: An IPv4 packet of a bound flow does not arrive, unless the truncated MICVs of
    two different packets happen to be equal: the first adapter decrements the TTL but keeps
    the header checksum, and computes the MICV over that packet ([stale_packet]); the
    second adapter rebuilds the packet with the right checksum ([rebuilt_packet]), which
    is always another one, and queues it for its actor exactly if it has the same MICV;
    otherwise it queues nothing. *)
Theorem ipv4_never_arrives {ND : NetDefs} {NL : NetDefsLaws} {CL : ChecksumLaws} {SL : Slab} {AK : A2aKeys} {B3 : Blake3} {BL : Blake3Laws} {ScopedIpAddr Certificate : Type}
    `{EqDecision ScopedIpAddr} (M unknown : Z) (unspec : ScopedIpAddr → bool) (said : packed Z) `{!PackedLaws said}
    (asmA asmN asmB : @Assembly ND SL AK ScopedIpAddr Certificate) (ft ft' : FiveTuple) (pep : EltPep) (dock peerB : FpPeer)
    (addrA addrN : SocketAddr) (intfA intfN : ScopedIpAddr) (hdr : IPv4Header) (seg comp : bytes) (ts : Z * Z) :
  in_range said 0 → size_of said = 1%nat → route unspec unknown asmA asmN asmB ft ft' pep dock peerB addrA addrN intfA intfN →
  NetDefs.l3_type ft = L3_Ipv4 → NetDefs.l3_type ft' = L3_Ipv4 → l4_protocol ft' = l4_protocol ft →
  ipv4_packet (elt_compression_mode pep) ft' hdr seg comp → 1 < ttl hdr →
  (∀ ft0, ∃ r, classify ft0 (as_bytes ipv4Header hdr ++ seg) = Ret (ft, inr r) ∧ (r = OK ∨ r = UnclassifiedL4)) →
  let micv := a2a_micv (elt_a2a_micv_key pep) in
  rebuilt_packet hdr seg ≠ stale_packet hdr seg ∧
  ∀ wA md h t, capturing wA → roomy h t →
  ∃ wA' l1, actor_output M unspec said asmA ts wA (of_view M md h (as_bytes ipv4Header hdr ++ seg) t) = Ret wA' ∧ sent M wA wA' dock l1 ∧
  ∀ wN md h t, capturing wN → roomy h t →
  ∃ wN' l2, substrate_ingress M unspec unknown said asmN ts wN addrA intfA (of_view M md h l1 t) = Ret wN' ∧ sent M wN wN' peerB l2 ∧
  ∀ wB md h t, capturing wB → roomy h t →
  ∃ wB', substrate_ingress M unspec unknown said asmB ts wB addrN intfN (of_view M md h l2 t) = Ret wB' ∧
    (micv (rebuilt_packet hdr seg) ≠ micv (stale_packet hdr seg) ∧ actor_input_q wB' = actor_input_q wB ∧
       substrate_egress_q wB' = substrate_egress_q wB ∧ mgmt_dispatch wB' = mgmt_dispatch wB ∨
     micv (rebuilt_packet hdr seg) = micv (stale_packet hdr seg) ∧
       ∃ q, actor_input_q wB' = actor_input_q wB ++ [q] ∧ body M q = rebuilt_packet hdr seg).
Proof.
  intros Hs Hs1 Hr Hl Hl' Hl4 Hp Ht Hc micv. split; [by eapply rebuilt_differs|]. pose proof (proj1 Hp) as Hrg. set (hdr1 := set_ttl hdr (ttl hdr - 1)).
  intros wA md h t HcA [Hh Htt].
  assert (hop M ft (as_bytes ipv4Header hdr ++ seg) (as_bytes ipv4Header hdr1 ++ seg)) as Hhop.
  { split; [exact Hc|]. intros md' h' t' E. apply decrement_v4; [by rewrite E|done|done]. }
  assert (0 <= ttl hdr - 1 <= ttl hdr) as Htr by lia. pose proof (carries_v4 M _ _ _ _ _ (ttl hdr - 1) Hl' Hp Htr) as Hcar. rewrite Hl4, <- Hl in Hcar.
  destruct (crossing M unspec unknown said Hs asmA asmN asmB ft ft' pep dock peerB addrA addrN intfA intfN _ _ _ _ ts Hr Hhop Hcar wA md h t HcA) as
    (wA' & l1 & EA & HA & HN); [rewrite Hs1; lia|lia|]. exists wA', l1. split; [done|]. split; [done|]. clear dependent wA md h t.
  intros wN md h t HcN [Hh Htt]. destruct (HN wN md h t HcN) as (wN' & l2 & EN & HsN & HB); [lia|lia|]. exists wN', l2. split; [done|]. split; [done|].
  clear dependent wN md h t. intros wB md h t HcB [Hh Htt]. destruct (HB wB md h t HcB) as (wB' & EB & [Heq|[Hne [[Hi He] Hm]]]); [lia| |]; exists wB'; (split; [done|]); [by right|by left].
Qed.

Lemma ipv4_never_arrives_witness :
  ∃ wA' l1 wN' l2 wB', actor_output 96 (Z.eqb 0) u8 (sample_adapter sample_flow 20 (src_address sample_flow)) (1, 2) sample_worker (rx sample_packet) = Ret wA' ∧
    sent 96 sample_worker wA' (sample_peer (addr 1) (sa_adapter 20) (slab_of []) [src_address sample_flow]) l1 ∧
    substrate_ingress 96 (Z.eqb 0) 0 u8 sample_node (1, 2) sample_worker (addr 2) 7 (of_view 96 sample_metadata (replicate 64 0) l1 (replicate 16 0)) = Ret wN' ∧
    sent 96 sample_worker wN' (sample_peer (addr 3) (sa_node 30) (slab_of []) []) l2 ∧
    substrate_ingress 96 (Z.eqb 0) 0 u8 (sample_adapter sample_flow 30 (dst_address sample_flow)) (1, 2) sample_worker (addr 1) 7
      (of_view 96 sample_metadata (replicate 64 0) l2 (replicate 16 0)) = Ret wB' ∧
    actor_input_q wB' = [].
Proof.
  destruct (ipv4_never_arrives 96 0 (Z.eqb 0) u8 (sample_adapter sample_flow 20 (src_address sample_flow)) sample_node (sample_adapter sample_flow 30 (dst_address sample_flow)) sample_flow sample_flow
    (elt_pep_new 3 5 sample_secret) (sample_peer (addr 1) (sa_adapter 20) (slab_of []) [src_address sample_flow]) (sample_peer (addr 3) (sa_node 30) (slab_of []) [])
    (addr 2) (addr 1) 7 7 sample_hdr sample_seg [0; 0; 1; 2; 3] (1, 2) ltac:(vm_compute; split; congruence) eq_refl (sample_route sample_flow (or_intror eq_refl)) eq_refl eq_refl eq_refl)
    as [_ H].
  - exact v4_flow.
  - vm_compute. reflexivity.
  - intros ft0. exists OK. split; [apply classify_v4|by left].
  - assert (roomy (replicate 64 0) (replicate 16 0)) as Hroom by (split; vm_compute; congruence).
    destruct (H sample_worker sample_metadata (replicate 64 0) (replicate (136 - length sample_packet) 0)) as (wA' & l1 & EA & HsA & HN); [done|split; vm_compute; congruence|].
    destruct (HN sample_worker sample_metadata (replicate 64 0) (replicate 16 0) ltac:(done) Hroom) as (wN' & l2 & EN & HsN & HB).
    destruct (HB sample_worker sample_metadata (replicate 64 0) (replicate 16 0) ltac:(done) Hroom) as (wB' & EB & [(_ & Hq & _)|[Heq _]]).
    + exists wA', l1, wN', l2, wB'. split; [exact EA|]. split; [exact HsA|]. split; [exact EN|]. split; [exact HsN|]. split; [exact EB|exact Hq].
    + exfalso. revert Heq. vm_compute. discriminate.
Defined.

Section crash.
Context {ND : NetDefs} {NL : NetDefsLaws} {SL : Slab} {AK : A2aKeys} {B3 : Blake3} {BL : Blake3Laws} (M : Z).
Context {ScopedIpAddr Certificate : Type} `{EqDecision ScopedIpAddr} (unspec : ScopedIpAddr → bool) (unknown : Z) (said : packed Z) {SA : PackedLaws said} (Hsaid : in_range said 0).

(** An A2A security association other than 0, or a compressed packet of less
    than five bytes. *)
Definition bad_payload (ft : FiveTuple) (l : bytes) : Prop :=
  (∃ v rest, in_range said v ∧ v ≠ 0 ∧ l = as_bytes (zdpA2aHeader said) (mk_ZdpA2aHeader v) ++ rest) ∨
  (∃ c mac, l = as_bytes (zdpA2aHeader said) (mk_ZdpA2aHeader 0) ++ c ++ mac ∧ zlen c < 5 ∧ length mac = 8%nat ∧
     (NetDefs.l3_type ft = L3_Ipv4 ∨ NetDefs.l3_type ft = L3_Ipv6)).

Lemma actor_input_panics (asm : @Assembly ND SL AK ScopedIpAddr Certificate) w tether mode ft key md h l t :
  ends_tether asm tether mode ft key → bad_payload ft l → actor_input M said asm w tether (of_view M md h l t) = Panic.
Proof using SA Hsaid.
  intros (pep & Hd & <- & <- & _ & Ho) [(v & rest & Hv & Hv0 & ->)|(c & mac & -> & Hc & Hm & Hl)]; unfold actor_input.
  - rewrite read_from_buf_view by (done || apply _). cbn [mbind outcome_bind a2a_said]. by rewrite (proj2 (Z.eqb_neq _ _) Hv0).
  - rewrite read_from_buf_view by (done || apply _). cbn [mbind outcome_bind a2a_said]. change (negb (0 =? 0)) with false. cbv iota. rewrite of_view_body.
    change ZDP_A2A_MAC_SIZE with 8%nat. assert (zlen mac = 8) as Hz by (unfold zlen; lia). rewrite zlen_app, Hz. pose proof (zlen_nonneg c).
    destruct (Z.ltb_spec (zlen c + 8) (Z.of_nat 8)); [lia|]. unfold slice_from. rewrite length_app, Hm. destruct (Nat.ltb_spec (length c + 8) (length c + 8 - 8)); [lia|].
    cbn [mbind outcome_bind]. change (Z.of_nat 8) with 8. rewrite <- Hz, shrink_app. cbn [mbind outcome_bind]. rewrite Hd.
    assert ((match ph_mode asm with PhAdapter => true | PhNode => false end) && negb (adapter_owns_address asm (dst_address (tc_five_tuple (dlt_tc pep)))) = false) as ->.
    { destruct (ph_mode asm); [|done]. by rewrite Ho. }
    by rewrite expand_short_panics.
Qed.
End crash.

(** C38: An adapter can stop another: over any bound flow it can send, under its
    own association, a transit packet that the node forwards and that panics
    the receiving adapter before the end-to-end MICV is checked: one with an
    A2A security association other than 0 (which reaches a [todo!]), or one
    with a compressed packet of less than five bytes. *)
Theorem remote_adapter_panics {ND : NetDefs} {NL : NetDefsLaws} {SL : Slab} {AK : A2aKeys} {B3 : Blake3} {BL : Blake3Laws} {ScopedIpAddr Certificate : Type}
    `{EqDecision ScopedIpAddr} (M unknown : Z) (unspec : ScopedIpAddr → bool) (said : packed Z) `{!PackedLaws said}
    (asmA asmN asmB : @Assembly ND SL AK ScopedIpAddr Certificate) (ft ft' : FiveTuple) (pep : EltPep) (dock peerB : FpPeer)
    (addrA addrN : SocketAddr) (intfA intfN : ScopedIpAddr) (payload : bytes) (ts : Z * Z) :
  in_range said 0 → route unspec unknown asmA asmN asmB ft ft' pep dock peerB addrA addrN intfA intfN → bad_payload said ft' payload →
  ∃ out, sends_to unspec asmA DOCK_LINK_ID dock out ∧
  ∀ wN md h t, capturing wN → roomy h t →
  ∃ wN' l2, substrate_ingress M unspec unknown said asmN ts wN addrA intfA
      (of_view M md h (link_frame (hmac (send_zpis out)) (send_hmac_key out) (transit_msg (elt_tether_id pep) payload)) t) = Ret wN' ∧ sent M wN wN' peerB l2 ∧
  ∀ wB md h t, capturing wB → roomy h t → substrate_ingress M unspec unknown said asmB ts wB addrN intfN (of_view M md h l2 t) = Panic.
Proof.
  intros Hs [(HA & Hst) (out & in_ & link & Hout & Hpair & Hfrom & peer & fwd & Hpeer & Hpft & out' & in' & Hout' & Hloc & Hs32 & Hpair' & Hfrom' & Hend) HN HB Htether] Hbad.
  exists out. split; [done|]. intros wN md h t HcN [Hh Ht].
  destruct (ingress_transit M unspec unknown said asmN ts wN addrA intfA md h (elt_tether_id pep) payload t link out in_ Hfrom Hpair HcN) as
    (w1 & h1 & t1 & -> & Hs1 & Hc1 & Hh1 & Ht1); [lia|done|].
  destruct (forward_out M unspec said asmN ts w1 (set_ingress_stream (elt_tether_id pep) (set_ingress_link link md)) h1 payload t1
    (pft_next_hop fwd).1 (pft_next_hop fwd).2 peerB out') as (wN' & EN & HsentN); [|done|done|done|lia|lia|].
  { unfold next_hop. cbn. rewrite HN, Hpeer, Hpft. by destruct (pft_next_hop fwd). }
  exists wN', (link_frame (hmac (send_zpis out')) (send_hmac_key out') (transit_msg (pft_next_hop fwd).2 payload)).
  split; [done|]. split. { destruct HsentN as (q & f & Hq & Hb & Hi). destruct Hs1 as (_ & _ & _ & _ & Ei & Ee & _). exists q, f. rewrite <- Ei, <- Ee. done. }
  clear dependent wN h t h1 t1 md wN'. intros wB md h t HcB [Hh _].
  destruct (ingress_transit M unspec unknown said asmB ts wB addrN intfN md h (pft_next_hop fwd).2 payload t DOCK_LINK_ID out' in' Hfrom' Hpair' HcB) as
    (w2 & h1 & t1 & -> & Hs2 & Hc2 & Hh1 & _); [lia|done|].
  unfold forward, next_hop. rewrite HB. cbn [metadata of_view set_extent ingress_link_id ingress_stream_id set_ingress_stream set_ingress_link].
  change (adapter_next_hop_link DOCK_LINK_ID =? LOCAL_ACTOR_LINK_ID) with true. cbv iota. by eapply actor_input_panics.
Qed.

Lemma remote_adapter_panics_witness : ∃ out, sends_to (Z.eqb 0) (sample_adapter ext_flow 20 (src_address ext_flow)) DOCK_LINK_ID
    (sample_peer (addr 1) (sa_adapter 20) (slab_of []) [src_address ext_flow]) out.
Proof.
  destruct (remote_adapter_panics 96 0 (Z.eqb 0) u8 (sample_adapter ext_flow 20 (src_address ext_flow)) sample_node (sample_adapter ext_flow 30 (dst_address ext_flow)) ext_flow ext_flow
    (elt_pep_new 3 5 sample_secret) (sample_peer (addr 1) (sa_adapter 20) (slab_of []) [src_address ext_flow]) (sample_peer (addr 3) (sa_node 30) (slab_of []) [])
    (addr 2) (addr 1) 7 7 [1] (1, 2) ltac:(vm_compute; split; congruence) (sample_route ext_flow (or_introl eq_refl))) as (out & Hout & _).
  - left. exists 1, []. split; [vm_compute; split; congruence|]. split; [lia|reflexivity].
  - exists out. exact Hout.
Defined.

(** Once both ends of a link have an association, key management on it is
    lost: a key-management message always leaves under ZPI 0, and the other end
    drops every packet under ZPI 0 when its association receives under others. *)
Theorem km_lost_once_established {ND : NetDefs} {SL : Slab} {AK : A2aKeys} {B3 : Blake3} {ScopedIpAddr Certificate : Type}
    `{EqDecision ScopedIpAddr} (M unknown : Z) (unspec : ScopedIpAddr → bool) (said : packed Z)
    (asmA asmB : @Assembly ND SL AK ScopedIpAddr Certificate) (link : Z) (peer : FpPeer) (addrA : SocketAddr) (intfA : ScopedIpAddr) (sa : KmTransportSA Certificate)
    (md : PacketMetadata) (h m t : bytes) (w : FastpathWorker) (ts : Z * Z) :
  peer_get asmA link = Some peer → egress_link_id md = link → message_type m = Some (packet_type KeyManagement) →
  is_unspecified (fp_substrate_addr peer) = false → unspec (fp_interface_addr peer) = false → capturing w → 18 <= zlen h → 2 <= zlen t →
  association asmB (default 0 (lookup_peer asmB addrA intfA)) = Some sa → hmac (recv_zpis sa) ≠ ZPI_0 → encr (recv_zpis sa) ≠ ZPI_0 →
  ∃ w' l, substrate_egress M unspec asmA ts w (of_view M md h m t) = Ret w' ∧ sent M w w' peer (ZPI_0 :: l) ∧
    ∀ wB p, valid M p → body M p = ZPI_0 :: l →
      substrate_ingress M unspec unknown said asmB ts wB addrA intfA p =
        Ret (drop_and_count wB (upd_metadata p (set_ingress_link (default 0 (lookup_peer asmB addrA intfA)))) UnknownZpi).
Proof.
  intros Hp <- Hm Hd Hi Hc Hh Ht Ha Hz1 Hz2. unfold substrate_egress, substrate_egress_common.
  change (egress_link_id (metadata (of_view M md h m t))) with (egress_link_id md). rewrite of_view_body. unfold message_type in Hm.
  destruct (read_from_prefix zdpBaseHeader m) as [[hdr rest]|]; [|done]. injection Hm as Hm. cbv zeta. rewrite Hp, Hm. rewrite Z.eqb_refl. cbn [assertb].
  destruct (encap_view M ZPI_0 md h m t) as (g & -> & Hg); [lia|]. cbn [mbind outcome_bind].
  destruct (capture_view M asmA Outbound ts w md g (as_bytes zdpZpiHeader (mk_ZdpZpiHeader ZPI_0) ++ m) t) as (w1 & g' & -> & Hg' & Hs & _); [lia|done|].
  cbn [mbind outcome_bind protect]. change (as_bytes zdpZpiHeader (mk_ZdpZpiHeader ZPI_0) ++ m) with (ZPI_0 :: m). rewrite encrypt_null_view by done. cbn [mbind outcome_bind].
  rewrite set_flowinfo_unspecified, Hd, Hi. cbn [negb assertb]. eexists _, (m ++ null_checksum m). split; [done|].
  destruct Hs as (_ & _ & _ & _ & Ei & Ee & _). split.
  { eexists _, _. cbn. rewrite Ee, Ei. split; [done|]. split; [apply of_view_body|done]. }
  intros wB p Hv Hb. unfold substrate_ingress. cbv zeta. set (lk := default 0 _) in *. set (q := upd_metadata p (set_ingress_link lk)).
  assert (body M q = ZPI_0 :: m ++ null_checksum m) as Hbq by (unfold q; by rewrite upd_body). rewrite Hbq, zpi_prefix. cbn [zpi]. unfold decrypt. cbv zeta.
  change (ingress_link_id (metadata q)) with lk. unfold association in Ha. rewrite Ha. unfold decrypt_with_sa.
  rewrite (proj2 (Z.eqb_neq _ _) (not_eq_sym Hz1)), (proj2 (Z.eqb_neq _ _) (not_eq_sym Hz2)). done.
Qed.

Lemma km_lost_once_established_witness :
  ∃ w' l, substrate_egress 96 (Z.eqb 0) (sample_adapter ext_flow 20 (src_address ext_flow)) (1, 2) sample_worker
      (of_view 96 (set_egress_link DOCK_LINK_ID sample_metadata) (replicate 64 0) [packet_type KeyManagement; 0; 9] (replicate 8 0)) = Ret w' ∧
    sent 96 sample_worker w' (sample_peer (addr 1) (sa_adapter 20) (slab_of []) [src_address ext_flow]) (ZPI_0 :: l).
Proof.
  destruct (km_lost_once_established 96 0 (Z.eqb 0) u8 (sample_adapter ext_flow 20 (src_address ext_flow)) sample_node DOCK_LINK_ID
    (sample_peer (addr 1) (sa_adapter 20) (slab_of []) [src_address ext_flow]) (addr 2) 7 (sa_node 20) (set_egress_link DOCK_LINK_ID sample_metadata) (replicate 64 0)
    [packet_type KeyManagement; 0; 9] (replicate 8 0) sample_worker (1, 2)) as (w' & l & E & Hs & _);
    [reflexivity|reflexivity|reflexivity|reflexivity|reflexivity|reflexivity|vm_compute; congruence|vm_compute; congruence|reflexivity|vm_compute; congruence|vm_compute; congruence|].
  exists w', l. split; [exact E|exact Hs].
Defined.
