(* ===== verification/BatchIo.v ===== *)
(** Batches of non-blocking operations, [src/adapter/ph/src/batch_io.rs]: the
    loops of the two engines around the operating system's results. *)
From S2P Require Import Prelude.

(** The kinds of [std::io::Error] the callers tell apart. *)
Inductive IoErrorKind : Type := WouldBlock | ResourceBusy | ConnectionRefused | OtherIoError.

#[global] Instance IoErrorKind_eq_dec : EqDecision IoErrorKind.
Proof. solve_decision. Defined.

Definition io_result (A : Type) : Type := IoErrorKind + A.

(** What an engine returns: an error of the whole batch, or the results that
    were appended (their number is what it counts). *)
Definition batch_result (A : Type) : Type := IoErrorKind + list (io_result A).

Section engines.
Context {A : Type}.
Implicit Types (ops results : list (io_result A)).

(** *** [posix_unbatched]: the results of the operations one by one *)

Fixpoint posix_loop (completed : nat) ops results : batch_result A :=
  match ops with
  | [] => inr results
  | inl err :: _ => if (completed =? 0)%nat then inl err else inr results
  | inr a :: ops => posix_loop (S completed) ops (results ++ [inr a])
  end.

Definition posix_batch ops : batch_result A := posix_loop 0 ops [].

(** *** [io_uring]: completions with the index of their operation, in any order *)

(** [resize_with(n, || Err(EWOULDBLOCK))], for a larger [n]. *)
Definition resize_blocked results (n : nat) : list (io_result A) := results ++ replicate (n - length results) (inl WouldBlock).

Definition uring_one results (c : nat * io_result A) : list (io_result A) :=
  match c.2 with
  | inl WouldBlock => results
  | r =>
      let results := if (length results <=? c.1)%nat then resize_blocked results (S c.1) else results in
      <[c.1 := r]> results
  end.

(** The operations that fit into the submission queue. *)
Definition uring_submitted {B} (max_to_submit : nat) (items : list B) : list B := take max_to_submit items.

Definition uring_batch (completions : list (nat * io_result A)) : batch_result A := inr (foldl uring_one [] completions).

(** Whole batches come to the first operation's error, or to the results before the
    first error. *)
Fixpoint successes ops : list (io_result A) := match ops with inr a :: ops => inr a :: successes ops | _ => [] end.

Lemma posix_batch_successes ops : posix_batch ops = match ops with inl err :: _ => inl err | _ => inr (successes ops) end.
Proof.
  assert (∀ k l results, posix_loop (S k) l results = inr (results ++ successes l)) as H.
  { intros k l. revert k. induction l as [|[e|a] l IH]; intros k results; cbn; [by rewrite app_nil_r|by rewrite app_nil_r|]. rewrite IH, <- app_assoc. done. }
  destruct ops as [|[e|a] ops]; [done|done|]. unfold posix_batch. cbn [posix_loop]. by rewrite H.
Qed.

(** What a caller wants: the results in the order of the operations, up to the
    last that did not block. *)
Fixpoint strip_blocked ops : list (io_result A) :=
  match ops with
  | [] => []
  | r :: ops =>
      match strip_blocked ops, r with
      | [], inl WouldBlock => []
      | rest, _ => r :: rest
      end
  end.

(** ** Completions in any order *)

Definition blocked (r : io_result A) : Prop := r = inl WouldBlock.

#[local] Instance blocked_dec r : Decision (blocked r).
Proof. unfold blocked. destruct r as [[]|]; try (by right); by left. Defined.

(** The results after some completions, as a function of the index: the last
    index that did not block, and what is at each. *)
Definition uring_inv (seen : list (nat * io_result A)) results : Prop :=
  (∀ i r, (i, r) ∈ seen → ¬ blocked r → results !! i = Some r) ∧
  (∀ i, (i < length results)%nat → results !! i = Some (inl WouldBlock) ∨ ∃ r, (i, r) ∈ seen ∧ ¬ blocked r ∧ results !! i = Some r) ∧
  (results ≠ [] → ∃ r, (pred (length results), r) ∈ seen ∧ ¬ blocked r).

Lemma uring_step_inv seen results i r :
  uring_inv seen results → (∀ r', (i, r') ∈ seen → False) → uring_inv (seen ++ [(i, r)]) (uring_one results (i, r)).
Proof.
  intros (H1 & H2 & H3) Hnew. destruct (decide (blocked r)) as [Hb|Hb].
  { rewrite Hb. cbn [uring_one snd]. split; [|split].
    - intros j s Hin Hs. apply elem_of_app in Hin as [Hin|Hin]; [by apply H1|]. apply list_elem_of_singleton in Hin as [= -> ->]. by destruct Hs.
    - intros j Hj. destruct (H2 j Hj) as [?|(s & Hs & ?)]; [by left|right]. exists s. rewrite elem_of_app. auto.
    - intros Hne. destruct (H3 Hne) as (s & Hs & ?). exists s. rewrite elem_of_app. auto. }
  set (res := if (length results <=? i)%nat then resize_blocked results (S i) else results).
  assert (uring_one results (i, r) = <[i := r]> res) as -> by (destruct r as [[]|]; done || by destruct Hb).
  assert ((i < length res)%nat ∧ (length results <= length res)%nat ∧ (length res = length results ∨ length res = S i) ∧
    (∀ j x, results !! j = Some x → res !! j = Some x) ∧ (∀ j, (length results <= j < length res)%nat → res !! j = Some (inl WouldBlock))) as (Hi & Hl & Hlen & Hold & Hfill).
  { unfold res, resize_blocked. destruct (Nat.leb_spec (length results) i).
    - rewrite length_app, length_replicate. split_and!; try lia.
      + intros j x Hj. by apply lookup_app_l_Some.
      + intros j Hj. rewrite lookup_app_r by apply Hj. apply lookup_replicate. split; [done|]. unfold io_result in *. lia.
    - split_and!; try done; lia. }
  clearbody res. split; [|split].
  - intros j s Hin Hs. apply elem_of_app in Hin as [Hin|Hin].
    + destruct (decide (j = i)) as [->|Hji]; [by destruct (Hnew s)|]. rewrite list_lookup_insert_ne by done. apply Hold. by apply H1.
    + apply list_elem_of_singleton in Hin as [= -> ->]. by apply list_lookup_insert_eq.
  - rewrite length_insert. intros j Hj. destruct (decide (j = i)) as [->|Hji].
    + right. exists r. rewrite list_lookup_insert_eq by done. split; [|done]. rewrite elem_of_app, list_elem_of_singleton. by right.
    + destruct (decide (j < length results)%nat) as [Hlt|Hge].
      * destruct (H2 j Hlt) as [?|(s & Hs & Hsb & Hsl)]; [left; rewrite list_lookup_insert_ne by done; by apply Hold|right].
        exists s. rewrite elem_of_app, list_lookup_insert_ne by done. auto.
      * left. rewrite list_lookup_insert_ne by done. apply Hfill. lia.
  - rewrite length_insert. intros _. destruct Hlen as [Hlen|Hlen].
    + rewrite Hlen. destruct (H3 ltac:(intros ->; cbn in *; lia)) as (s & Hs & Hsb). exists s. rewrite elem_of_app. auto.
    + rewrite Hlen. exists r. cbn. rewrite elem_of_app, list_elem_of_singleton. auto.
Qed.

Lemma uring_fold_inv seen results todo : NoDup ((seen ++ todo).*1) → uring_inv seen results → uring_inv (seen ++ todo) (foldl uring_one results todo).
Proof.
  revert seen results. induction todo as [|[i r] todo IH]; intros seen results Hnd Hi; cbn [foldl]; [by rewrite app_nil_r|].
  replace (seen ++ (i, r) :: todo) with ((seen ++ [(i, r)]) ++ todo) in * by (by rewrite <- app_assoc). apply IH; [done|]. apply uring_step_inv; [done|].
  intros r' Hin. rewrite <- app_assoc, fmap_app in Hnd. apply list.NoDup_app in Hnd as (_ & Hnd & _). apply (Hnd i); [|by left].
  apply list_elem_of_fmap. by exists (i, r').
Qed.

(** Up to the last operation that did not block. *)
Lemma strip_blocked_take ops n : (∀ i r, (n <= i)%nat → ops !! i = Some r → blocked r) →
  match n with O => True | S m => ∃ r, ops !! m = Some r ∧ ¬ blocked r end → strip_blocked ops = take n ops.
Proof.
  revert n. induction ops as [|r ops IH]; intros n Hb Hn; cbn [strip_blocked]; [by rewrite take_nil|]. destruct n as [|n].
  - rewrite (IH 0%nat); [|intros i s Hi; apply (Hb (S i)); lia|done]. assert (r = inl WouldBlock) as -> by (apply (Hb 0%nat); [lia|done]). done.
  - rewrite (IH n); [|intros i s Hi; apply (Hb (S i)); lia|by destruct n]. cbn [take]. destruct Hn as (s & Hs & Hsb). destruct n as [|n].
    + cbn in Hs. injection Hs as ->. rewrite take_0. destruct s as [[]|]; done || by destruct Hsb.
    + destruct ops as [|o ops]; [done|]. cbn [take]. done.
Qed.

(** A list is determined by such a description. *)
Lemma uring_inv_unique ops seen results : (∀ i r, (i, r) ∈ seen ↔ ops !! i = Some r) → uring_inv seen results → results = strip_blocked ops.
Proof.
  intros Hseen (H1 & H2 & H3).
  assert (∀ i r, (length results <= i)%nat → ops !! i = Some r → blocked r) as Hafter.
  { intros i r Hi Hr. destruct (decide (blocked r)) as [|Hb]; [done|]. apply Hseen in Hr. apply H1 in Hr; [|done]. apply lookup_lt_Some in Hr. lia. }
  assert (match length results with O => True | S m => ∃ r, ops !! m = Some r ∧ ¬ blocked r end) as Hlast.
  { destruct (length results) eqn:El; [done|]. destruct H3 as (r & Hr & Hb); [by intros ->|]. exists r. split; [by apply Hseen|done]. }
  rewrite (strip_blocked_take ops (length results) Hafter Hlast). apply list_eq_same_length with (length results); [|done|].
  - rewrite length_take. assert (length results <= length ops)%nat; [|lia]. destruct (length results) as [|m]; [lia|]. destruct Hlast as (r & Hr & _). apply lookup_lt_Some in Hr. lia.
  - intros i x y Hi Hx Hy. rewrite lookup_take_lt in Hy by done. destruct (H2 i Hi) as [Hw|(r & Hr & Hb & Hl)].
    + pose proof (eq_trans (eq_sym Hx) Hw) as E. injection E as ->. destruct (decide (blocked y)) as [Hb|Hb]; [by rewrite Hb|].
      apply Hseen, H1 in Hy; [|done]. pose proof (eq_trans (eq_sym Hx) Hy) as E. by injection E as <-.
    + apply Hseen in Hr. pose proof (eq_trans (eq_sym Hx) Hl) as E. pose proof (eq_trans (eq_sym Hy) Hr) as E'. injection E as ->. by injection E' as ->.
Qed.
End engines.

(** C15: The results of an [io_uring] batch do not depend on the order in which the
    submitted operations complete: they are the operations' results in the order of
    submission, up to the last operation that did not block. *)
Theorem uring_in_order {A : Type} (max_to_submit : nat) (items : list (io_result A)) (completions : list (nat * io_result A)) :
  let ops := uring_submitted max_to_submit items in
  completions ≡ₚ zip (seq 0 (length ops)) ops → uring_batch completions = inr (strip_blocked ops).
Proof.
  cbv zeta. generalize (uring_submitted max_to_submit items). intros ops Hp. unfold uring_batch. f_equal. apply (uring_inv_unique ops completions).
  - intros i r. rewrite Hp, list_elem_of_lookup. split.
    + intros [k Hk]. apply lookup_zip_Some in Hk as [Hi Hr]. apply lookup_seq in Hi as [-> _]. done.
    + intros Hr. exists i. apply lookup_zip_Some. split; [|done]. apply lookup_seq. apply lookup_lt_Some in Hr. done.
  - apply (uring_fold_inv [] [] completions).
    + cbn. rewrite Hp, fst_zip by (by rewrite length_seq). apply NoDup_seq.
    + split; [|split].
      * intros i r Hin. by apply elem_of_nil in Hin.
      * cbn. lia.
      * done.
Qed.

Lemma uring_in_order_witness : uring_batch [(2%nat, inr 7); (0%nat, inr 5); (3%nat, inl WouldBlock); (1%nat, inl WouldBlock)] = inr [inr 5; inl WouldBlock; inr 7].
Proof.
  apply (uring_in_order 4 [inr 5; inl WouldBlock; inr 7; inl WouldBlock; inr 9]). cbn.
  apply (NoDup_Permutation _ _); [repeat constructor; set_solver|repeat constructor; set_solver|set_solver].
Defined.
