(* ===== verification/MgmtQueues.v ===== *)
(** Management's side of the queues, [src/adapter/ph/src/queues.rs]. *)
From S2P Require Import Prelude Zdp Dispatch TxnMgr Slab Utf8 Tlv NetDefs IpHeaders PacketBuf Compress Classifier Tc AdapterTables Node Transport Queues FastPath.

Section mgmt_queues.
Context {ND : NetDefs} (pipe_capacity MIN_BODY_OFFSET PACKET_BUFFER_SIZE : Z).
Abbreviation M := MIN_BODY_OFFSET.
Implicit Types (q : PacketQueue) (pkt : Packet).

(** [packet.metadata_mut().egress_link_id = link_id] is [set_egress_link]; [flags |= f]. *)
Definition or_flags (f : Z) (md : PacketMetadata) : PacketMetadata :=
  mk_metadata (offset md) (len md) (five_tuple md) (ingress_lane_id md) (Z.lor (flags md) f) (ingress_link_id md) (egress_link_id md) (ingress_stream_id md) (seq_num md).

(** [MgmtSubstrateEgress::enqueue_packet]: the packet as it is left, and the queue once it
    has room ([None] while it has not). *)
Definition egress_enqueue_packet q (link_id : Z) pkt : outcome (Packet * option PacketQueue) :=
  let pkt := upd_metadata (upd_metadata pkt (set_egress_link link_id)) (or_flags PRIORITY) in
  match pq_try_send pipe_capacity M PACKET_BUFFER_SIZE q pkt with
  | (q, inr _) => Ret (pkt, Some q)
  | (_, inl TsFull) => Ret (pkt, None)
  | (_, inl _) => Panic
  end.

(** [MgmtSubstrateEgress::try_enqueue_packet] *)
Definition egress_try_enqueue_packet q (link_id : Z) pkt : outcome (Packet * PacketQueue * bool) :=
  let pkt := upd_metadata pkt (set_egress_link link_id) in
  match pq_try_send pipe_capacity M PACKET_BUFFER_SIZE q pkt with
  | (q, inr _) => Ret (pkt, q, true)
  | (q, inl TsFull) => Ret (pkt, q, false)
  | (_, inl _) => Panic
  end.

(** [ActorOutputRequeue]: one queue per worker. *)
Definition select_queue (queues : list PacketQueue) pkt : outcome (nat * PacketQueue) :=
  let i := Z.to_nat (ingress_lane_id (metadata pkt)) in
  match queues !! i with Some q => Ret (i, q) | None => Panic end.

Definition requeue_try_enqueue_packet (queues : list PacketQueue) pkt : outcome (list PacketQueue * option Packet) :=
  r ← select_queue queues pkt;
  let '(i, q) := r in
  match pq_try_send pipe_capacity M PACKET_BUFFER_SIZE q pkt with
  | (q, inr _) => Ret (<[i := q]> queues, None)
  | (_, inl TsFull) => Ret (queues, Some pkt)
  | (_, inl _) => Panic
  end.

(** [MgmtProcessor::try_enqueue_packet] and
    [MgmtHairpinDispatch::try_dispatch_mgmt_packet_with_link] *)
Definition chan_try_enqueue (c : Chan Packet) pkt : outcome (Chan Packet * option Packet) :=
  match chan_try_send c pkt with
  | inr c => Ret (c, None)
  | inl ChanFull => Ret (c, Some pkt)
  | inl ChanClosed => Panic
  end.
Definition processor_try_enqueue_packet := chan_try_enqueue.
Definition hairpin_try_dispatch := chan_try_enqueue.
End mgmt_queues.

(** A packet a worker gave to management and management requeues goes back to that
    worker, and to no other. *)
Lemma requeued_to_its_lane {ND : NetDefs} (cap M size : Z) (queues queues' : list PacketQueue) (pkt : Packet) (r : option Packet) :
  requeue_try_enqueue_packet cap M size queues pkt = Ret (queues', r) →
  length queues' = length queues ∧ ∀ i, i ≠ Z.to_nat (ingress_lane_id (metadata pkt)) → queues' !! i = queues !! i.
Proof.
  unfold requeue_try_enqueue_packet, select_queue. cbv zeta. destruct (queues !! _) as [q|] eqn:Eq; [|done]. cbn [mbind outcome_bind].
  destruct (pq_try_send cap M size q pkt) as [q' [[]|[]]]; try done; intros [= <- <-]; [done|].
  split; [by rewrite length_insert|]. intros i Hi. by rewrite list_lookup_insert_ne.
Qed.
