(* ===== verification/FastPathIo.v ===== *)
(** A worker's input and output, [src/adapter/ph/src/fastpath_io.rs] and
    [fastpath_worker.rs], with the packet information of the TUN device,
    [sys/mod.rs] and [sys/linux/tun_pi.rs].

    The system's answers are arguments: what a batch of operations returned
    ([BatchIo]), and [env], the other components and the clock as the [i]-th packet
    of a batch finds them. *)
From S2P Require Import Prelude Zdp Dispatch TxnMgr Slab Utf8 Tlv NetDefs IpHeaders PacketBuf Compress Classifier Tc AdapterTables Node Transport Queues FastPath BatchIo.

(** ** [TunPi] *)

Definition PI_SIZE : Z := 4.
Definition TUN_PKT_STRIP : Z := 1.

Record TunPi : Type := mk_tun_pi { pi_strip : bool; pi_proto : Z }.

(** [From<TunPiImpl> for TunPi], on the four bytes of the structure. *)
Definition tun_pi_of_bytes (l : bytes) : TunPi :=
  mk_tun_pi (negb (Z.land (be_get (rev (take 2 l))) TUN_PKT_STRIP =? 0)) (be_get (take 2 (drop 2 l))).
Definition tun_pi_to_bytes (pi : TunPi) : bytes := [0; 0] ++ be_put 2 (pi_proto pi).

(** [Vec::pop] *)
Definition vec_pop {A} (l : list A) : option (list A * A) := match rev l with [] => None | a :: l => Some (rev l, a) end.

(** [Vec::swap] *)
Definition vec_swap {A} (l : list A) (i j : nat) : outcome (list A) :=
  match l !! i, l !! j with
  | Some a, Some b => Ret (<[j := a]> (<[i := b]> l))
  | _, _ => Panic
  end.

Section io.
Context {ND : NetDefs} {SL : Slab} {AK : A2aKeys} {B3 : Blake3} (MIN_BODY_OFFSET pipe_capacity : Z).
Context {ScopedIpAddr Certificate : Type} `{EqDecision ScopedIpAddr} (intf_unspecified : ScopedIpAddr → bool).
Context (LINK_ID_UNKNOWN : Z) (a2aSaid : packed Z).
(** [net_defs::ethertype], and [ip_ethertype(ip_version(body))]. *)
Context (ethertype_IP ethertype_IPV6 : Z) (body_ethertype : bytes → Z).
Abbreviation M := MIN_BODY_OFFSET.
Abbreviation Env := (nat → @Assembly ND SL AK ScopedIpAddr Certificate * (Z * Z)).
Implicit Types (env : nat → @Assembly ND SL AK ScopedIpAddr Certificate * (Z * Z)) (w : @FastpathWorker ND ScopedIpAddr) (pkt : Packet) (batch_size : nat).

Definition read_pi pkt : outcome (TunPi * Packet) := r ← get_array M PI_SIZE pkt; Ret (tun_pi_of_bytes r.1, r.2).
Definition is_ip (pi : TunPi) : bool := (pi_proto pi =? ethertype_IP) || (pi_proto pi =? ethertype_IPV6).

(** [ReceivedPacket], with the bytes that were written into the buffer. *)
Record ReceivedPacket : Type := mk_received {
  rp_data : bytes;
  rp_truncated : bool;
  rp_source : option SocketAddr;
  rp_destination : option ScopedIpAddr;
}.

(** The system writes into [chunk_mut], at most all of it, then [advance_mut]. *)
Definition fill pkt (l : bytes) : outcome Packet := put M pkt (take (Z.to_nat (tailroom_available M pkt)) l).

Definition push_buffer w (buf : PacketBuffer) : FastpathWorker := with_buffers w (buffers w ++ [buf]).

(** [self.packets.drain(n..).rev()] go back to the pool; the first [n] are left. *)
Definition return_unused w (n : nat) (pkts : list Packet) : outcome (FastpathWorker * list Packet) :=
  assertb (n <=? length pkts)%nat (Ret (with_buffers w (buffers w ++ (destroy <$> rev (drop n pkts))), take n pkts)).

(** [for (pkt, result) in packets.zip(results)] *)
Fixpoint for_each {A} (f : nat → FastpathWorker → Packet → A → outcome FastpathWorker) (i : nat) w (pkts : list Packet) (results : list A) : outcome FastpathWorker :=
  match pkts, results with
  | pkt :: pkts, r :: results => w ← f i w pkt r; for_each f (S i) w pkts results
  | _, _ => Ret w
  end.

(** ** Input *)

Definition clear_flowinfo (a : SocketAddr) : SocketAddr := set_flowinfo a 0.

Definition substrate_packet_in env (i : nat) w pkt (result : io_result ReceivedPacket) : outcome FastpathWorker :=
  match result with
  | inr res =>
      pkt ← fill pkt (rp_data res);
      if rp_truncated res then Ret (drop_and_count w pkt DroppedOversize)
      else match rp_source res, rp_destination res with
           | Some sender, Some dest =>
               substrate_ingress M intf_unspecified LINK_ID_UNKNOWN a2aSaid (env i).1 (env i).2 (count w InPacksRec 1) (clear_flowinfo sender) dest pkt
           | _, _ => Panic
           end
  | inl (WouldBlock | ResourceBusy | ConnectionRefused) => Ret (push_buffer w (destroy pkt))
  | inl OtherIoError => Panic
  end.

Definition process_substrate_socket_in env batch_size w (received : batch_result ReceivedPacket) : outcome FastpathWorker :=
  r ← get_fresh_packets M w batch_size;
  match received with
  | inl _ => Panic
  | inr results =>
      r ← return_unused r.1 (length results) r.2;
      for_each (substrate_packet_in env) 0 r.1 r.2 results
  end.

Definition tun_packet_in env (i : nat) w pkt (result : io_result bytes) : outcome FastpathWorker :=
  match result with
  | inl (WouldBlock | ResourceBusy) => Ret (push_buffer w (destroy pkt))
  | inl _ => Panic
  | inr l =>
      pkt ← fill pkt l;
      r ← read_pi pkt;
      let '(pi, pkt) := r in
      if pi_strip pi || negb (is_ip pi) then Ret (drop_and_count w pkt OutPacksDrop)
      else actor_output M intf_unspecified a2aSaid (env i).1 (env i).2 (count w OutPacksRec 1) pkt
  end.

Definition process_actor_tun_in env batch_size w (read : batch_result bytes) : outcome FastpathWorker :=
  r ← get_fresh_packets M w batch_size;
  match read with
  | inl _ => Panic
  | inr results =>
      r ← return_unused r.1 (length results) r.2;
      for_each (tun_packet_in env) 0 r.1 r.2 results
  end.

Fixpoint batch_process_packet_queue (limit : nat) (process_fn : nat → FastpathWorker → Packet → outcome FastpathWorker) (i : nat) w (q : PacketQueue)
    : outcome (FastpathWorker * PacketQueue) :=
  match limit with
  | O => Ret (w, q)
  | S limit =>
      match vec_pop (buffers w) with
      | None => Ret (w, q)
      | Some (bufs, buf) =>
          let w := with_buffers w bufs in
          r ← pq_try_recv pipe_capacity M q buf;
          match r with
          | (q, inr pkt) => w ← process_fn i w pkt; batch_process_packet_queue limit process_fn (S i) w q
          | (q, inl (TrEmpty buf)) => Ret (push_buffer w buf, q)
          | (_, inl _) => Panic
          end
      end
  end.

Definition process_requeue_in env batch_size w (requeue_outq : PacketQueue) : outcome (FastpathWorker * PacketQueue) :=
  batch_process_packet_queue batch_size
    (λ i w pkt, actor_output_post_classify M intf_unspecified a2aSaid (env i).1 (env i).2 (count w RequeuedPacketsReceived 1) pkt false) 0 w requeue_outq.

Definition process_mgmt_substrate_in env batch_size w (mgmt_substrate_outq : PacketQueue) : outcome (FastpathWorker * PacketQueue) :=
  batch_process_packet_queue batch_size
    (λ i w pkt, substrate_egress M intf_unspecified (env i).1 (env i).2 (count w MgmtPacketsSent 1) pkt) 0 w mgmt_substrate_outq.

(** ** Output *)

Definition write_pi pkt : outcome Packet :=
  let proto := body_ethertype (body M pkt) in
  pkt ← alloc_zeroed_headroom M pkt PI_SIZE;
  Ret (write_prefix M pkt (tun_pi_to_bytes (mk_tun_pi false proto))).

Fixpoint map_outcome {A B} (f : A → outcome B) (l : list A) : outcome (list B) :=
  match l with [] => Ret [] | a :: l => b ← f a; l ← map_outcome f l; Ret (b :: l) end.

(** How many of the operations would have blocked. *)
Fixpoint tally_writes (results : list (io_result unit)) : outcome nat :=
  match results with
  | [] => Ret 0%nat
  | inr _ :: results => tally_writes results
  | inl WouldBlock :: results => n ← tally_writes results; Ret (S n)
  | inl _ :: _ => Panic
  end.

Definition process_actor_input_queue w (written : batch_result unit) : outcome FastpathWorker :=
  q ← map_outcome write_pi (actor_input_q w);
  match written with
  | inl _ => Panic
  | inr results =>
      blocked ← tally_writes results;
      let dropped := zlen q - zlen results + Z.of_nat blocked in
      let w := count (count w InPacksSent (zlen q - dropped)) InPacksDrop dropped in
      Ret (with_input (with_buffers w (buffers w ++ (destroy <$> q))) [])
  end.

(** Whether the [i]-th packet was sent. *)
Definition was_sent (results : list (io_result unit)) (i : nat) : outcome bool :=
  match results !! i with
  | Some (inr _) => Ret true
  | Some (inl WouldBlock) => Ret false
  | Some (inl _) => Panic
  | None => Ret false
  end.

Definition is_priority (e : @QueuedEgressPacket ND ScopedIpAddr) : bool := negb (Z.land (flags (metadata (q_pkt e))) PRIORITY =? 0).

(** The loop over the indices from [i], [k] of them. *)
Fixpoint retain_loop (k i : nat) (results : list (io_result unit)) (q : list (@QueuedEgressPacket ND ScopedIpAddr)) (dropped retained : nat)
    : outcome (list QueuedEgressPacket * nat * nat) :=
  match k with
  | O => Ret (q, dropped, retained)
  | S k =>
      sent ← was_sent results i;
      if (sent : bool) then retain_loop k (S i) results q dropped retained
      else
        match q !! i with
        | None => Panic
        | Some e =>
            if is_priority e then
              q ← vec_swap q i retained;
              retain_loop k (S i) results q dropped (S retained)
            else retain_loop k (S i) results q (S dropped) retained
        end
  end.

Definition process_substrate_egress_queue w (sent : batch_result unit) : outcome FastpathWorker :=
  results ← (match sent with inr results => Ret results | inl WouldBlock => Ret [] | inl _ => Panic end);
  r ← retain_loop (length (substrate_egress_q w)) 0 results (substrate_egress_q w) 0 0;
  let '(q, dropped, retained) := r in
  let w := count (count w OutPacksSent (zlen q - Z.of_nat dropped - Z.of_nat retained)) OutPacksDrop (Z.of_nat dropped) in
  Ret (with_egress (with_buffers w (buffers w ++ (destroy ∘ q_pkt <$> drop retained q))) (take retained q)).

Definition process_out_queues w (written sent : batch_result unit) : outcome FastpathWorker :=
  w ← process_actor_input_queue w written;
  process_substrate_egress_queue w sent.

(** [get_confirm_flag] on Linux, [MSG_CONFIRM] given. *)
Definition get_confirm_flag (MSG_CONFIRM : Z) pkt : Z := if negb (Z.land (flags (metadata pkt)) CONFIRM =? 0) then MSG_CONFIRM else 0.

(** What goes to [try_send_to_from_batch]. *)
Definition egress_items (MSG_CONFIRM : Z) w : list (bytes * SocketAddr * option ScopedIpAddr * Z) :=
  (λ e, (body M (q_pkt e), q_dst e, Some (q_src e), get_confirm_flag MSG_CONFIRM (q_pkt e))) <$> substrate_egress_q w.

(** ** The main loop *)

(** What one turn of the loop is told: the events, if [poll] was not interrupted,
    and the results of the operations it may do. *)
Record Turn : Type := mk_turn {
  t_written : batch_result unit;
  t_sent : batch_result unit;
  t_interrupted : bool;
  t_returns : bool;
  t_substrate_out : bool;
  t_mgmt_substrate : bool;
  t_requeue : bool;
  t_tun : bool;
  t_substrate_in : bool;
  t_sent_priority : batch_result unit;
  t_read : batch_result bytes;
  t_received : batch_result ReceivedPacket;
  t_env_mgmt : Env;
  t_env_requeue : Env;
  t_env_tun : Env;
  t_env_substrate : Env;
}.

(** The worker with its two queues from management, and its counters that are shared. *)
Record WorkerState : Type := mk_worker_state {
  ws_worker : @FastpathWorker ND ScopedIpAddr;
  ws_requeue_outq : PacketQueue;
  ws_mgmt_substrate_outq : PacketQueue;
  ws_shared : FastpathCounters;
}.

Definition recv_returns (buffer_count : nat) w : FastpathWorker :=
  let '(r, l) := try_recv_many_returns pipe_capacity (return_q w) buffer_count in
  mk_worker (worker_index w) (buffers w ++ l) (batch_counters w) r (adapter_manager w) (mgmt_dispatch w) (actor_input_q w) (substrate_egress_q w) (capture_queue w).

(** The events [poll] is asked for. *)
Definition recv_polled w : bool := match buffers w with [] => false | _ => true end.
Definition send_polled w : bool := substrate_egress_packets_queued w.

Definition when {A} (c : bool) (f : A → outcome A) (a : A) : outcome A := if c then f a else Ret a.

Definition fastpath_turn (batch_size buffer_count : nat) (t : Turn) (s : WorkerState) : outcome WorkerState :=
  w ← process_out_queues (ws_worker s) (t_written t) (t_sent t);
  if t_interrupted t then Ret (mk_worker_state w (ws_requeue_outq s) (ws_mgmt_substrate_outq s) (ws_shared s))
  else
    let recv := recv_polled w in
    let send := send_polled w in
    let w := if t_returns t then recv_returns buffer_count w else w in
    w ← when (send && t_substrate_out t) (λ w, process_substrate_egress_queue w (t_sent_priority t)) w;
    r ← when (recv && t_mgmt_substrate t) (λ r, process_mgmt_substrate_in (t_env_mgmt t) batch_size r.1 r.2) (w, ws_mgmt_substrate_outq s);
    let '(w, mgmt_q) := r in
    r ← when (recv && t_requeue t) (λ r, process_requeue_in (t_env_requeue t) batch_size r.1 r.2) (w, ws_requeue_outq s);
    let '(w, requeue_q) := r in
    w ← when (recv && t_tun t) (λ w, process_actor_tun_in (t_env_tun t) batch_size w (t_read t)) w;
    w ← when (recv && t_substrate_in t) (λ w, process_substrate_socket_in (t_env_substrate t) batch_size w (t_received t)) w;
    let '(shared, w) := aggregate (ws_shared s) w in
    Ret (mk_worker_state w requeue_q mgmt_q shared).

Fixpoint fastpath_turns (batch_size buffer_count : nat) (ts : list Turn) (s : WorkerState) : outcome WorkerState :=
  match ts with
  | [] => Ret s
  | t :: ts => s ← fastpath_turn batch_size buffer_count t s; fastpath_turns batch_size buffer_count ts s
  end.

Definition fastpath_main (batch_size buffer_count : nat) (ts : list Turn) (s : WorkerState) : outcome WorkerState :=
  assertb (5 * batch_size <=? buffer_count)%nat (fastpath_turns batch_size buffer_count ts s).
End io.
