(* ===== verification/FastPathIoSafe.v ===== *)
(** What a worker's input and output do with packets and buffers. *)
From S2P Require Import Prelude Zdp Dispatch TxnMgr Slab Utf8 Tlv NetDefs IpHeaders PacketBuf Compress Classifier Tc AdapterTables Node Transport Queues PacketKeep FastPath FastPathSafe BatchIo MgmtQueues FastPathIo.

(** ** Packets that could not be sent *)

Section retain.
Context {ND : NetDefs} {ScopedIpAddr : Type}.
Abbreviation Queued := (@QueuedEgressPacket ND ScopedIpAddr).
Implicit Types (results : list (io_result unit)) (q front mid todo : list Queued) (e : Queued).

(** An operation that succeeded or would have blocked. *)
Definition sent_or_blocked (r : io_result unit) : Prop := match r with inr _ | inl WouldBlock => True | inl _ => False end.

Definition is_unsent results (i : nat) : bool := match results !! i with Some (inr _) => false | _ => true end.

(** The PRIORITY packets that were not sent, in the order of the queue. *)
Fixpoint held_back results (i : nat) q : list Queued :=
  match q with
  | [] => []
  | e :: q => if is_unsent results i && is_priority e then e :: held_back results (S i) q else held_back results (S i) q
  end.

(** How many others were not sent. *)
Fixpoint lost results (i : nat) q : nat :=
  match q with
  | [] => 0%nat
  | e :: q => ((if is_unsent results i && negb (is_priority e) then 1 else 0) + lost results (S i) q)%nat
  end.

Lemma was_sent_ret results i : Forall sent_or_blocked results → was_sent results i = Ret (negb (is_unsent results i)).
Proof.
  intros Hf. unfold was_sent, is_unsent. destruct (results !! i) as [[[]|]|] eqn:E; try done.
  all: by apply (Forall_lookup_1 _ _ _ _ Hf) in E.
Qed.

(** The element that changes places with the first one that is not kept. *)
Definition rotate mid : list Queued := match mid with [] => [] | m :: mid => mid ++ [m] end.

Lemma rotate_perm mid : rotate mid ≡ₚ mid.
Proof. destruct mid as [|m mid]; [done|]. cbn. symmetry. apply Permutation_cons_append. Qed.

Lemma insert_at {A} (l l' : list A) (x y : A) : <[length l := y]> (l ++ x :: l') = l ++ y :: l'.
Proof. rewrite <- (Nat.add_0_r (length l)), insert_app_r. done. Qed.

Lemma swap_to_front front mid e todo :
  vec_swap (front ++ mid ++ e :: todo) (length front + length mid) (length front) = Ret ((front ++ [e]) ++ rotate mid ++ todo).
Proof.
  assert ((front ++ mid ++ e :: todo) !! (length front + length mid)%nat = Some e) as E.
  { rewrite app_assoc. apply list_lookup_middle. by rewrite length_app. }
  unfold vec_swap. rewrite E. destruct mid as [|m mid].
  - cbn [length app] in *. rewrite Nat.add_0_r in *. rewrite E, !insert_at. cbn. by rewrite <- app_assoc.
  - cbn [app]. rewrite list_lookup_middle by done. rewrite insert_app_r. cbn [length].
    change (<[S (length mid) := m]> (m :: mid ++ e :: todo)) with (m :: <[length mid := m]> (mid ++ e :: todo)).
    rewrite !insert_at. cbn [rotate]. by rewrite <- !app_assoc.
Qed.

Lemma retain_loop_spec results todo : Forall sent_or_blocked results → ∀ front mid dropped,
  ∃ rest, retain_loop (length todo) (length front + length mid) results (front ++ mid ++ todo) dropped (length front)
    = Ret (front ++ held_back results (length front + length mid) todo ++ rest,
           (dropped + lost results (length front + length mid) todo)%nat,
           (length front + length (held_back results (length front + length mid) todo))%nat)
  ∧ front ++ held_back results (length front + length mid) todo ++ rest ≡ₚ front ++ mid ++ todo.
Proof.
  intros Hf. induction todo as [|e todo IH]; intros front mid dropped; cbn [length retain_loop held_back lost].
  { exists mid. rewrite !Nat.add_0_r, app_nil_r. done. }
  rewrite was_sent_ret by done. cbn [mbind outcome_bind].
  assert (∀ x, front ++ mid ++ x :: todo = front ++ (mid ++ [x]) ++ todo) as Eq by (intros; by rewrite <- !app_assoc).
  assert (S (length front + length mid) = (length front + length (mid ++ [e]))%nat) as El by (rewrite length_app; cbn; lia).
  destruct (is_unsent results (length front + length mid)); cbn [negb andb].
  - rewrite app_assoc, list_lookup_middle by (by rewrite length_app). rewrite <- app_assoc. destruct (is_priority e); cbn [negb].
    + rewrite swap_to_front. cbn [mbind outcome_bind].
      assert (S (length front + length mid) = (length (front ++ [e]) + length (rotate mid))%nat) as ->.
      { rewrite length_app, (Permutation_length (rotate_perm mid)). cbn. lia. }
      replace (S (length front)) with (length (front ++ [e])) by (rewrite length_app; cbn; lia).
      destruct (IH (front ++ [e]) (rotate mid) dropped) as (rest & -> & Hp). exists rest. rewrite <- !app_assoc in *. split.
      * f_equal. f_equal. cbn [length]. rewrite (length_app front [e]). cbn [length]. lia.
      * cbn [app] in *. rewrite Hp. rewrite rotate_perm. apply Permutation_app_head, Permutation_middle.
    + rewrite Eq, El. destruct (IH front (mid ++ [e]) (S dropped)) as (rest & -> & Hp). exists rest. split; [|done]. f_equal. f_equal. f_equal. cbn. lia.
  - rewrite Eq, El. apply IH.
Qed.
End retain.

(** ** Output *)

Section output.
Context {ND : NetDefs} {ScopedIpAddr : Type} (M : Z) (body_ethertype : bytes → Z).
Abbreviation Worker := (@FastpathWorker ND ScopedIpAddr).
Implicit Types (w : Worker) (p : Packet) (results : list (io_result unit)).

Definition would_block (r : io_result unit) : bool := match r with inl WouldBlock => true | _ => false end.

Lemma tally_writes_ret results : Forall sent_or_blocked results → tally_writes results = Ret (length (filter would_block results)).
Proof.
  induction 1 as [|r results Hr _ IH]; [done|]. rewrite filter_cons. destruct r as [[]|[]]; try done; cbn [tally_writes]; rewrite IH; done.
Qed.

Lemma map_outcome_ret {A B} (f : A → outcome B) (l : list A) : Forall (λ a, ∃ b, f a = Ret b) l → ∃ l', map_outcome f l = Ret l' ∧ Forall2 (λ a b, f a = Ret b) l l'.
Proof.
  induction 1 as [|a l [b Hb] _ (l' & E & HF)]; cbn [map_outcome]; [by exists []|]. rewrite Hb. cbn [mbind outcome_bind]. rewrite E. exists (b :: l'). by constructor; [|constructor].
Qed.

Lemma write_pi_view md h h' b t : zlen h' = PI_SIZE →
  write_pi M body_ethertype (of_view M md (h ++ h') b t) = Ret (of_view M md h (tun_pi_to_bytes (mk_tun_pi false (body_ethertype b)) ++ b) t).
Proof.
  intros Hh. unfold write_pi. rewrite of_view_body. cbv zeta. rewrite <- Hh, alloc_zeroed_view. cbn [mbind outcome_bind]. f_equal.
  rewrite write_prefix_view; [done|]. unfold zlen. rewrite length_replicate. change (length (tun_pi_to_bytes _)) with 4%nat. unfold zlen, PI_SIZE in Hh. lia.
Qed.

Definition has_pi_room p : Prop := valid M p ∧ PI_SIZE <= zlen (head M p).

(** The packet as it is written to the TUN device. *)
Definition with_pi p p' : Prop := body M p' = tun_pi_to_bytes (mk_tun_pi false (body_ethertype (body M p))) ++ body M p.

Lemma write_pi_ret p : has_pi_room p → ∃ p', write_pi M body_ethertype p = Ret p' ∧ kept M p p' ∧ with_pi p p'.
Proof.
  intros [Hv Hh]. destruct (headroom_split (head M p) PI_SIZE) as (h1 & h2 & E & El); [unfold PI_SIZE in *; lia|].
  rewrite (valid_view M p Hv), E, write_pi_view by done. eexists. split; [done|]. split.
  - eapply kept_view; [done| |done]. rewrite !zlen_app, El. change (zlen (tun_pi_to_bytes _)) with 4. unfold PI_SIZE. lia.
  - unfold with_pi. by rewrite !of_view_body.
Qed.

Lemma write_pis_ret l : Forall has_pi_room l → ∃ l', map_outcome (write_pi M body_ethertype) l = Ret l' ∧ Forall2 (λ p p', kept M p p' ∧ with_pi p p') l l'.
Proof.
  intros Hf. destruct (map_outcome_ret (write_pi M body_ethertype) l) as (l' & E & HF).
  { eapply list.Forall_impl; [exact Hf|]. intros p Hp. destruct (write_pi_ret p Hp) as (p' & ? & _). by exists p'. }
  exists l'. split; [done|]. clear E. induction HF as [|p p' l l' Hp _ IH]; [constructor|]. apply list.Forall_cons in Hf as [Hp' Hf].
  constructor; [|by apply IH]. destruct (write_pi_ret p Hp') as (p'' & E & ?). rewrite Hp in E. by injection E as <-.
Qed.

(** What the results of a batch of [sendmsg] amount to. *)
Definition send_outcome (sent : batch_result unit) results : Prop := sent = inr results ∨ sent = inl WouldBlock ∧ results = [].

Lemma egress_queue_spec w sent results : send_outcome sent results → Forall sent_or_blocked results →
  ∃ gone, substrate_egress_q w ≡ₚ held_back results 0 (substrate_egress_q w) ++ gone ∧
    process_substrate_egress_queue w sent = Ret (with_egress (with_buffers
      (count (count w OutPacksSent (zlen gone - Z.of_nat (lost results 0 (substrate_egress_q w)))) OutPacksDrop (Z.of_nat (lost results 0 (substrate_egress_q w))))
      (buffers w ++ (destroy ∘ q_pkt <$> gone))) (held_back results 0 (substrate_egress_q w))).
Proof.
  intros Hs Hf. destruct (retain_loop_spec results (substrate_egress_q w) Hf [] [] 0%nat) as (gone & E & Hp). cbn [app length Nat.add] in *. exists gone.
  split; [done|]. unfold process_substrate_egress_queue. replace (match sent with inr results => _ | inl WouldBlock => _ | inl _ => _ end) with (Ret results).
  - cbn [mbind outcome_bind]. rewrite E. cbn [mbind outcome_bind]. rewrite take_app_length, drop_app_length.
    match goal with |- Ret (with_egress (with_buffers (count (count w _ ?x) _ _) _) _) = Ret (with_egress (with_buffers (count (count w _ ?y) _ _) _) _) => replace x with y; [done|] end.
    rewrite zlen_app. unfold zlen. cbn [Nat.add]. lia.
  - by destruct Hs as [->|[-> ->]].
Qed.
End output.

(** Sending what is queued.  If every operation succeeds or would block, the
    worker goes on: the queue to the actor is empty, and every packet of it was
    offered to the TUN device behind its packet information; the egress queue
    holds exactly the PRIORITY packets that were not sent, in their order; the
    buffer of every other packet is back in the pool; and the counters say how
    many were lost. *)
Theorem out_queues_flushed {ND : NetDefs} {ScopedIpAddr : Type} (M : Z) (eth : bytes → Z) (w : @FastpathWorker ND ScopedIpAddr)
    (written results : list (io_result unit)) (sent : batch_result unit) :
  Forall (has_pi_room M) (actor_input_q w) → Forall sent_or_blocked written → send_outcome sent results → Forall sent_or_blocked results →
  ∃ w' input gone, process_out_queues M eth w (inr written) sent = Ret w' ∧
    Forall2 (with_pi M eth) (actor_input_q w) input ∧ actor_input_q w' = [] ∧
    substrate_egress_q w' = held_back results 0 (substrate_egress_q w) ∧ substrate_egress_q w ≡ₚ substrate_egress_q w' ++ gone ∧
    buffers w' = buffers w ++ (destroy <$> input) ++ (destroy ∘ q_pkt <$> gone) ∧
    batch_counters w' InPacksDrop = wrap64 (batch_counters w InPacksDrop + (zlen input - zlen written + zlen (filter would_block written))) ∧
    batch_counters w' OutPacksDrop = wrap64 (batch_counters w OutPacksDrop + Z.of_nat (lost results 0 (substrate_egress_q w))).
Proof.
  intros Hi Hw Hs Hr. destruct (write_pis_ret M eth _ Hi) as (input & E & HF). unfold process_out_queues, process_actor_input_queue.
  rewrite E. cbn [mbind outcome_bind]. rewrite tally_writes_ret by done. cbn [mbind outcome_bind]. cbv zeta.
  match goal with |- context [process_substrate_egress_queue ?x sent] => destruct (egress_queue_spec x sent results Hs Hr) as (gone & Hp & ->); set (w1 := x) in * end.
  do 3 eexists. split; [done|]. cbn [actor_input_q substrate_egress_q buffers batch_counters with_egress with_buffers count with_input w1].
  change (substrate_egress_q w1) with (substrate_egress_q w) in *. split_and!; try done.
  - eapply list.Forall2_impl; [exact HF|]. by intros ? ? [].
  - by rewrite <- app_assoc.
Qed.

(** Two packets for the substrate, the second marked PRIORITY, and one for the actor. *)
Definition priority_packet : Packet :=
  upd_metadata (rx [1; 2; 3]) (λ md, mk_metadata (offset md) (len md) (five_tuple md) (ingress_lane_id md) PRIORITY (ingress_link_id md) 4 (ingress_stream_id md) (seq_num md)).
Definition sample_out : @FastpathWorker _ Z :=
  with_input (with_egress sample_worker [mk_queued (rx [9; 9]) (addr 2) 7; mk_queued priority_packet (addr 3) 7]) [rx [69; 0; 1]].

Lemma out_queues_flushed_witness :
  ∃ w', process_out_queues 96 (λ _, 0x800) sample_out (inr [inl WouldBlock]) (inl WouldBlock) = Ret w' ∧
    substrate_egress_q w' = [mk_queued priority_packet (addr 3) 7] ∧ batch_counters w' InPacksDrop = 1 ∧ batch_counters w' OutPacksDrop = 1.
Proof.
  destruct (out_queues_flushed 96 (λ _, 0x800) sample_out [inl WouldBlock] [] (inl WouldBlock)) as (w' & input & gone & E & HF & _ & Hq & _ & _ & Hi & Ho).
  - constructor; [|constructor]. split; [apply of_view_valid|vm_compute; discriminate].
  - by constructor.
  - by right.
  - constructor.
  - exists w'. split; [exact E|]. split; [exact Hq|]. apply Forall2_length in HF. cbn in HF. split; [|exact Ho].
    rewrite Hi. unfold zlen at 1. rewrite <- HF. reflexivity.
Defined.

(** ** Buffers *)

Section io_pool.
Context {ND : NetDefs} {NL : NetDefsLaws} {SL : Slab} {AK : A2aKeys} {B3 : Blake3} (M : Z) (HM : 0 < M) (cap : Z).
Context {ScopedIpAddr Certificate : Type} `{EqDecision ScopedIpAddr} (intf_unspecified : ScopedIpAddr → bool).
Context (LINK_ID_UNKNOWN : Z) (a2aSaid : packed Z) (ethertype_IP ethertype_IPV6 : Z) (body_ethertype : bytes → Z).
Abbreviation Env := (nat → @Assembly ND SL AK ScopedIpAddr Certificate * (Z * Z)).
Abbreviation Worker := (@FastpathWorker ND ScopedIpAddr).
Implicit Types (w : Worker) (p q : Packet) (n : Z) (ps : list Packet) (env : Env).
Abbreviation wf := (worker_wf M).

Definition fresh n p : Prop := in_pool M n p ∧ body M p = [].

(** The worker answers for [k] buffers more than [w]. *)
Definition gained n w (k : Z) w' : Prop := wf n w' ∧ pool w' = pool w + k.

Lemma new_fresh n b h : sized n b → ensures (new M b h) (fresh n).
Proof.
  intros (md & d & -> & Hd) p. unfold new, new_with_existing_data, assertb. cbn [buf_len].
  destruct (M <=? M + zlen d); [|done]. destruct (Z.leb_spec M (wrap64 (M + h))); [|done]. destruct (0 <=? M + zlen d); [|done].
  destruct (Z.leb_spec (wrap64 (M + h)) (M + zlen d - 0)); [|done]. intros [= <-]. split; [|done]. split; [|done]. unfold valid. cbn. lia.
Qed.

Lemma news_fresh n (l : list PacketBuffer) : Forall (sized n) l →
  ensures (foldr (λ b acc, ps ← acc; p ← new M b DEFAULT_MESSAGE_HEADROOM; Ret (p :: ps)) (Ret []) l) (λ ps, Forall (fresh n) ps ∧ length ps = length l).
Proof.
  induction 1 as [|b l Hb _ IH]; [by apply ensures_ret|]. cbn [foldr]. eapply ensures_bind; [exact IH|]. intros ps [HF HL].
  eapply ensures_bind; [by apply new_fresh|]. intros p Hp. apply ensures_ret. split; [by constructor|cbn; lia].
Qed.

Lemma with_buffers_wf n w l : wf n w → Forall (sized n) l → wf n (with_buffers w l).
Proof. by intros []. Qed.

Lemma get_fresh_pool n w k : wf n w → ensures (get_fresh_packets M w k) (λ r, gained n w (- zlen r.2) r.1 ∧ Forall (fresh n) r.2).
Proof.
  intros Hw. unfold get_fresh_packets. cbv zeta. set (keep := (length (buffers w) - _)%nat). pose proof (wf_buffers M n w Hw) as HB.
  rewrite <- (take_drop keep (buffers w)) in HB. apply list.Forall_app in HB as [Ht Hd].
  eapply ensures_bind; [apply (news_fresh n)|].
  { apply list.Forall_forall. intros b Hb%list_elem_of_In%in_rev%list_elem_of_In. by apply (proj1 (list.Forall_forall _ _) Hd). }
  intros ps [HF HL]. apply ensures_ret. cbn [fst snd]. split; [|done]. split; [by apply with_buffers_wf|]. unfold pool. cbn.
  rewrite length_rev in HL. unfold zlen. rewrite HL. pose proof (f_equal length (take_drop keep (buffers w))) as E. rewrite length_app in E. lia.
Qed.

Lemma push_took n w p : wf n w → in_pool M n p → took M n w (push_buffer w (destroy p)).
Proof.
  intros Hw Hp. split; [apply with_buffers_wf; [done|]|].
  - apply list.Forall_app. split; [by apply (wf_buffers M n w)|]. apply list.Forall_singleton. by eapply in_pool_sized.
  - unfold pool. cbn. rewrite zlen_app. change (zlen [destroy p]) with 1. lia.
Qed.

Lemma destroy_sized n ps : Forall (in_pool M n) ps → Forall (sized n) (destroy <$> ps).
Proof. induction 1; constructor; [by eapply in_pool_sized|done]. Qed.

Lemma fresh_pool n ps : Forall (fresh n) ps → Forall (in_pool M n) ps.
Proof. intros H. eapply list.Forall_impl; [exact H|]. by intros p []. Qed.

Lemma return_unused_pool n w k ps : wf n w → Forall (fresh n) ps →
  ensures (return_unused w k ps) (λ r, gained n w (zlen ps - zlen r.2) r.1 ∧ Forall (fresh n) r.2 ∧ length r.2 = k).
Proof.
  intros Hw Hf. unfold return_unused. apply ensures_assert. intros Hk%Nat.leb_le. apply ensures_ret. cbn [fst snd].
  rewrite <- (take_drop k ps) in Hf. apply list.Forall_app in Hf as [Ht Hd]. split; [|split; [done|rewrite length_take; lia]]. split.
  - apply with_buffers_wf; [done|]. apply list.Forall_app. split; [by apply (wf_buffers M n w)|]. apply destroy_sized, fresh_pool.
    apply list.Forall_forall. intros b Hb%list_elem_of_In%in_rev%list_elem_of_In. by apply (proj1 (list.Forall_forall _ _) Hd).
  - unfold pool. cbn. rewrite zlen_app. unfold zlen. rewrite length_fmap, length_rev, length_drop, length_take. lia.
Qed.

(** A loop whose body takes one packet each. *)
Lemma for_each_pool {A} n (f : nat → Worker → Packet → A → outcome Worker) (P : A → Prop) :
  (∀ i w p a, wf n w → pool w + 1 < U64_MOD → fresh n p → P a → ensures (f i w p a) (took M n w)) →
  ∀ ps l i w, wf n w → pool w + zlen ps < U64_MOD → Forall (fresh n) ps → Forall P l → length ps = length l →
  ensures (for_each f i w ps l) (gained n w (zlen ps)).
Proof.
  intros Hf. induction ps as [|p ps IH]; intros [|a l] i w Hw Hn Hps HP HL; try done; cbn [for_each].
  - apply ensures_ret. split; [done|]. change (zlen (@nil Packet)) with 0. lia.
  - apply list.Forall_cons in Hps as [Hp Hps], HP as [Ha HP]. pose proof (zlen_nonneg ps). pose proof (zlen_cons p ps) as Ec.
    eapply ensures_bind; [apply Hf; try done; lia|]. intros w1 [Hw1 E1]. eapply ensures_mono; [apply IH; try done; [lia|by injection HL]|].
    intros w2 [Hw2 E2]. split; [done|]. lia.
Qed.

(** What the system wrote is bytes. *)
Lemma fill_pool n p l : fresh n p → Forall is_u8 l → ensures (fill M p l) (λ q, in_pool M n q ∧ Forall is_u8 (body M q)).
Proof.
  intros [Hp Hb] Hl q Hq. split; [revert Hq; by apply (put_pool M n p)|]. unfold fill in Hq. destruct Hp as [Hv _].
  rewrite (valid_view M p Hv), Hb, put_view in Hq. destruct (_ <=? _); [|done]. injection Hq as <-. rewrite of_view_body. cbn. by apply list.Forall_take.
Qed.

Lemma substrate_in_took n env i w p r : (∀ j, codecs_ok (env j).1) → wf n w → pool w + 1 < U64_MOD → fresh n p →
  match r with inr res => Forall is_u8 (rp_data res) | inl _ => True end →
  ensures (substrate_packet_in M intf_unspecified LINK_ID_UNKNOWN a2aSaid env i w p r) (took M n w).
Proof using HM NL.
  intros Hc Hw Hn Hp Hr. unfold substrate_packet_in. destruct r as [e|res].
  - destruct e; [apply ensures_ret; by apply push_took; [|apply Hp]..|apply ensures_panic].
  - eapply ensures_bind; [by apply fill_pool|]. intros q [Hq _]. apply ensures_if; intros _; [by apply ensures_ret, drop_took|].
    destruct (rp_source res) as [src|]; [|apply ensures_panic]. destruct (rp_destination res) as [dst|]; [|apply ensures_panic].
    eapply ensures_mono; [apply (substrate_ingress_took M HM); [by apply Hc|by apply count_same|done|exact Hq]|].
    intros w' Hw'. eapply took_same; [by apply count_same|done].
Qed.

Lemma tun_in_took n env i w p r : (∀ j, codecs_ok (env j).1) → wf n w → pool w + 1 < U64_MOD → fresh n p →
  match r with inr l => Forall is_u8 l | inl _ => True end →
  ensures (tun_packet_in M intf_unspecified a2aSaid ethertype_IP ethertype_IPV6 env i w p r) (took M n w).
Proof using HM NL.
  intros Hc Hw Hn Hp Hr. unfold tun_packet_in. destruct r as [e|l].
  - destruct e; [apply ensures_ret; by apply push_took; [|apply Hp]..|apply ensures_panic|apply ensures_panic].
  - eapply ensures_bind; [by apply fill_pool|]. intros q [Hq Hu]. unfold read_pi.
    apply ensures_bind_any. intros [pi q1] E. apply outcome_bind_Ret in E as ([l1 q2] & E & [= <- <-]).
    assert (in_pool M n q2 ∧ body M q2 = drop 4 (body M q)) as [Hq2 Eb].
    { destruct Hq as [Hv Hz]. pose proof (get_array_kept M q PI_SIZE _ Hv ltac:(unfold PI_SIZE; lia) E) as Hk. split; [by eapply in_pool_kept|].
      rewrite (valid_view M q Hv) in E. destruct (Z.ltb_spec (zlen (body M q)) PI_SIZE) as [Hs|Hs]; [by rewrite get_array_short in E|].
      pose proof (zlen_take PI_SIZE (body M q) ltac:(unfold PI_SIZE in *; lia)) as El.
      rewrite <- (take_drop (Z.to_nat PI_SIZE) (body M q)) in E. rewrite get_array_view in E by done. injection E as <- <-. by rewrite of_view_body. }
    cbn [snd]. apply ensures_if; intros _; [by apply ensures_ret, drop_took|].
    eapply ensures_mono; [apply (actor_output_took M HM); [by apply Hc|by apply count_same|done|exact Hq2|]|].
    + rewrite Eb. by apply list.Forall_drop.
    + intros w' Hw'. eapply took_same; [by apply count_same|done].
Qed.

Lemma socket_in_pool n env k w received : (∀ j, codecs_ok (env j).1) → wf n w → pool w < U64_MOD →
  (∀ l, received = inr l → Forall (λ r, match r with inr res => Forall is_u8 (rp_data res) | inl _ => True end) l) →
  ensures (process_substrate_socket_in M intf_unspecified LINK_ID_UNKNOWN a2aSaid env k w received) (same_pool M n w).
Proof using HM NL.
  intros Hc Hw Hn Hr. unfold process_substrate_socket_in. eapply ensures_bind; [by apply get_fresh_pool|]. intros [w1 ps] [[Hw1 E1] Hps]. cbn [fst snd] in *.
  destruct received as [e|l]; [apply ensures_panic|]. eapply ensures_bind; [by apply return_unused_pool|]. intros [w2 ps2] ([Hw2 E2] & Hps2 & HL). cbn [fst snd] in *.
  eapply ensures_mono; [apply (for_each_pool n _ (λ r, match r with inr res => Forall is_u8 (rp_data res) | inl _ => True end)); try done|].
  - intros. by apply substrate_in_took.
  - lia.
  - by apply Hr.
  - intros w3 [Hw3 E3]. split; [done|]. lia.
Qed.

Lemma tun_in_pool n env k w read : (∀ j, codecs_ok (env j).1) → wf n w → pool w < U64_MOD →
  (∀ l, read = inr l → Forall (λ r, match r with inr l => Forall is_u8 l | inl _ => True end) l) →
  ensures (process_actor_tun_in M intf_unspecified a2aSaid ethertype_IP ethertype_IPV6 env k w read) (same_pool M n w).
Proof using HM NL.
  intros Hc Hw Hn Hr. unfold process_actor_tun_in. eapply ensures_bind; [by apply get_fresh_pool|]. intros [w1 ps] [[Hw1 E1] Hps]. cbn [fst snd] in *.
  destruct read as [e|l]; [apply ensures_panic|]. eapply ensures_bind; [by apply return_unused_pool|]. intros [w2 ps2] ([Hw2 E2] & Hps2 & HL). cbn [fst snd] in *.
  eapply ensures_mono; [apply (for_each_pool n _ (λ r, match r with inr l => Forall is_u8 l | inl _ => True end)); try done|].
  - intros. by apply tun_in_took.
  - lia.
  - by apply Hr.
  - intros w3 [Hw3 E3]. split; [done|]. lia.
Qed.

(** *** The queues from management *)

(** Lengths are not negative. *)
Definition message_ok (b : PacketBuffer) : Prop := match b with Buffer md _ => 0 <= len md | ShortBuffer _ => True end.
Definition queue_ok (q : PacketQueue) : Prop := Forall message_ok (chan_msgs (pq_chan q)).

Lemma deserialize_pool n src b : sized n b → message_ok src → match deserialize_into M src b with inr p => in_pool M n p | inl _ => True end.
Proof.
  intros (md' & d & -> & Hd) Hm. unfold deserialize_into. destruct src as [k|md rest]; [done|]. cbv zeta. destruct (metadata_is_valid M _) eqn:Hv; [|done].
  cbn [negb]. destruct (Z.ltb_spec (zlen rest) (len md)) as [|Hl]; [done|]. apply metadata_is_valid_iff in Hv as Hv'; [|done].
  apply (in_pool_kept M n (mk_packet md d)); [by split|]. apply set_body_kept; [done|]. cbn in Hm. rewrite zlen_take by lia.
  exact (f_equal (λ p, len (metadata p)) (valid_view M _ Hv')).
Qed.

Lemma pq_recv_pool n (q : PacketQueue) b : queue_ok q → sized n b →
  ensures (pq_try_recv cap M q b) (λ r, queue_ok r.1 ∧ match r.2 with inr p => in_pool M n p | inl (TrEmpty b') => b' = b | inl _ => True end).
Proof.
  intros Hq Hb. unfold pq_try_recv. destruct (consume (pq_notify q)) as [k there]. apply ensures_if; intros _; [by apply ensures_ret|].
  cbv zeta. apply ensures_if; intros _; [by apply ensures_ret|]. unfold chan_try_recv. cbn [pq_chan]. unfold queue_ok in *.
  destruct (chan_msgs (pq_chan q)) as [|m l] eqn:El; [apply ensures_ret; cbn [fst snd pq_chan]; by rewrite El|]. apply list.Forall_cons in Hq as [Hm Hq].
  pose proof (deserialize_pool n m b Hb Hm) as Hd. destruct (deserialize_into M m b) as [[]|p]; [apply ensures_panic|by apply ensures_ret|by apply ensures_ret].
Qed.

Lemma vec_pop_Some {A} (l l' : list A) a : vec_pop l = Some (l', a) → l = l' ++ [a].
Proof. unfold vec_pop. destruct (rev l) as [|x r] eqn:E; [done|]. intros [= <- <-]. rewrite <- (rev_involutive l), E. done. Qed.

Lemma batch_queue_pool n (f : nat → Worker → Packet → outcome Worker) : (∀ i w p, wf n w → pool w + 1 < U64_MOD → in_pool M n p → ensures (f i w p) (took M n w)) →
  ∀ limit i w (q : PacketQueue), wf n w → pool w < U64_MOD → queue_ok q →
  ensures (batch_process_packet_queue M cap limit f i w q) (λ r, same_pool M n w r.1 ∧ queue_ok r.2).
Proof.
  intros Hf. induction limit as [|limit IH]; intros i w q Hw Hn Hq; cbn [batch_process_packet_queue]; [apply ensures_ret; by split; [split|]|].
  destruct (vec_pop (buffers w)) as [[bufs b]|] eqn:Ep; [|apply ensures_ret; by split; [split|]]. apply vec_pop_Some in Ep. cbv zeta.
  pose proof (wf_buffers M n w Hw) as HB. rewrite Ep in HB. apply list.Forall_app in HB as [HB Hb]. apply list.Forall_cons in Hb as [Hb _].
  assert (pool (with_buffers w bufs) + 1 = pool w) as Ew by (unfold pool; cbn; rewrite Ep, zlen_app; change (zlen [b]) with 1; lia).
  assert (wf n (with_buffers w bufs)) as Hw1 by by apply with_buffers_wf.
  eapply ensures_bind; [apply (pq_recv_pool n); [exact Hq|exact Hb]|]. intros [q1 r] [Hq1 Hr]. cbn [fst snd] in *. destruct r as [[b'|b'|b']|p].
  - subst b'. apply ensures_ret. cbn [fst snd]. split; [|done]. unfold push_buffer. cbn. rewrite <- Ep. split; [|done]. by apply with_buffers_wf, (wf_buffers M n w).
  - apply ensures_panic.
  - apply ensures_panic.
  - eapply ensures_bind; [apply Hf; try done; lia|]. intros w2 [Hw2 E2]. eapply ensures_mono; [apply IH; [done|lia|done]|].
    intros [w3 q3] [[Hw3 E3] Hq3]. split; [|done]. split; [done|]. cbn in *. lia.
Qed.

Lemma requeue_pool n env k w (q : PacketQueue) : (∀ j, codecs_ok (env j).1) → wf n w → pool w < U64_MOD → queue_ok q →
  ensures (process_requeue_in M cap intf_unspecified a2aSaid env k w q) (λ r, same_pool M n w r.1 ∧ queue_ok r.2).
Proof using HM NL.
  intros Hc Hw Hn Hq. apply batch_queue_pool; [|done|done|done]. intros i w' p Hw' Hn' Hp.
  eapply ensures_mono; [apply (post_classify_took M HM); [by apply Hc|by apply count_same|done|exact Hp]|]. intros w2 ?. eapply took_same; [by apply count_same|done].
Qed.

Lemma mgmt_in_pool n env k w (q : PacketQueue) : (∀ j, codecs_ok (env j).1) → wf n w → pool w < U64_MOD → queue_ok q →
  ensures (process_mgmt_substrate_in M cap intf_unspecified env k w q) (λ r, same_pool M n w r.1 ∧ queue_ok r.2).
Proof using HM.
  intros Hc Hw Hn Hq. apply batch_queue_pool; [|done|done|done]. intros i w' p Hw' Hn' Hp.
  eapply ensures_mono; [apply (substrate_egress_took M HM); [by apply Hc|by apply count_same|exact Hp]|]. intros w2 ?. eapply took_same; [by apply count_same|done].
Qed.

(** *** Output *)

Lemma write_pi_pool n p : in_pool M n p → ensures (write_pi M body_ethertype p) (in_pool M n).
Proof.
  intros Hp. unfold write_pi. cbv zeta. apply ensures_bind_any. intros q E. apply ensures_ret. destruct Hp as [Hv Hz].
  pose proof (alloc_zeroed_kept M p PI_SIZE q Hv ltac:(unfold PI_SIZE; lia) E) as Hk. apply write_prefix_pool; [by eapply in_pool_kept|].
  assert (len (metadata q) = len (metadata p) + 4) as El.
  { unfold alloc_zeroed_headroom, extend_front, assertb in E. destruct (_ <=? _); [|done]. cbn in E. injection E as <-. done. }
  rewrite (valid_view M q (proj1 Hk)) in El. cbn in El. change (zlen (tun_pi_to_bytes _)) with 4. destruct Hv as (_ & ? & _). lia.
Qed.

Lemma map_outcome_pool n ps : Forall (in_pool M n) ps → ensures (map_outcome (write_pi M body_ethertype) ps) (λ ps', Forall (in_pool M n) ps' ∧ length ps' = length ps).
Proof.
  induction 1 as [|p ps Hp _ IH]; cbn [map_outcome]; [by apply ensures_ret|]. eapply ensures_bind; [by apply write_pi_pool|]. intros p' Hp'.
  eapply ensures_bind; [exact IH|]. intros ps' [? ?]. apply ensures_ret. split; [by constructor|cbn; lia].
Qed.

Lemma input_queue_pool n w written : wf n w → ensures (process_actor_input_queue M body_ethertype w written) (same_pool M n w).
Proof.
  intros Hw. unfold process_actor_input_queue. eapply ensures_bind; [apply (map_outcome_pool n), Hw|]. intros ps [Hps HL].
  destruct written as [e|results]; [apply ensures_panic|]. apply ensures_bind_any. intros k _. cbv zeta. apply ensures_ret. destruct Hw. split; [split; try done|].
  - cbn. apply list.Forall_app. split; [done|]. by apply destroy_sized.
  - unfold pool, zlen. cbn. rewrite length_app, length_fmap. lia.
Qed.

Lemma retain_perm results (todo : list (@QueuedEgressPacket ND ScopedIpAddr)) : ∀ front mid dropped,
  ensures (retain_loop (length todo) (length front + length mid) results (front ++ mid ++ todo) dropped (length front))
    (λ r, r.1.1 ≡ₚ front ++ mid ++ todo ∧ (r.2 <= length r.1.1)%nat).
Proof.
  induction todo as [|e todo IH]; intros front mid dropped; cbn [length retain_loop].
  { apply ensures_ret. cbn. split; [done|]. rewrite length_app. lia. }
  apply ensures_bind_any. intros sent _.
  assert (∀ x, front ++ mid ++ x :: todo = front ++ (mid ++ [x]) ++ todo) as Eq by (intros; by rewrite <- !app_assoc).
  assert (S (length front + length mid) = (length front + length (mid ++ [e]))%nat) as El by (rewrite length_app; cbn; lia).
  apply ensures_if; intros _; [by rewrite Eq, El|]. rewrite app_assoc, list_lookup_middle by (by rewrite length_app). rewrite <- app_assoc.
  apply ensures_if; intros _; [|by rewrite Eq, El]. rewrite swap_to_front. cbn [mbind outcome_bind].
  assert (S (length front + length mid) = (length (front ++ [e]) + length (rotate mid))%nat) as ->.
  { rewrite length_app, (Permutation_length (rotate_perm mid)). cbn. lia. }
  replace (S (length front)) with (length (front ++ [e])) by (rewrite length_app; cbn; lia).
  eapply ensures_mono; [apply IH|]. intros r [Hp Hl]. split; [|done]. rewrite Hp, rotate_perm, <- !app_assoc. cbn [app]. apply Permutation_app_head, Permutation_middle.
Qed.

Lemma egress_queue_pool n w sent : wf n w → ensures (process_substrate_egress_queue w sent) (same_pool M n w).
Proof.
  intros Hw. unfold process_substrate_egress_queue. apply ensures_bind_any. intros results _.
  eapply ensures_bind; [apply (retain_perm results (substrate_egress_q w) [] [] 0)|]. intros [[q d] k] [Hp Hk]. cbn [fst snd app] in *. apply ensures_ret.
  assert (Forall (λ e, in_pool M n (q_pkt e)) q) as Hq by (rewrite Hp; apply Hw).
  rewrite <- (take_drop k q) in Hq. apply list.Forall_app in Hq as [Ht Hd]. destruct Hw. split; [split; try done|].
  - cbn. apply list.Forall_app. split; [done|]. clear -Hd. induction Hd; constructor; [by eapply in_pool_sized|done].
  - apply Permutation_length in Hp. unfold pool, zlen. cbn. rewrite length_app, length_fmap, length_drop, length_take. lia.
Qed.

(** *** A turn of the loop *)

(** Every buffer that came back is one that was lent. *)
Definition returns_ok n w : Prop := Forall (sized n) (incoming_return_q (return_q w)) ∧ zlen (incoming_return_q (return_q w)) <= outstanding (return_q w).

Lemma recv_returns_pool n k w : wf n w → returns_ok n w → pool w < U64_MOD → same_pool M n w (recv_returns cap k w).
Proof.
  intros [] [HR HL] Hn. unfold recv_returns, try_recv_many_returns. destruct (consume _) as [c there]. unfold pool in Hn.
  pose proof (zlen_nonneg (buffers w)). pose proof (zlen_nonneg (actor_input_q w)). pose proof (zlen_nonneg (substrate_egress_q w)).
  destruct there; cbn [negb]; [|by split; [split; try done; cbn; by rewrite app_nil_r|unfold pool; cbn; by rewrite app_nil_r]].
  cbv zeta. destruct (_ =? 0); [by split; [split; try done; cbn; by rewrite app_nil_r|unfold pool; cbn; by rewrite app_nil_r]|].
  set (l := take k (incoming_return_q (return_q w))).
  assert (0 <= zlen l <= zlen (incoming_return_q (return_q w))) as Hl by (unfold l, zlen; rewrite length_take; lia).
  assert (wrap64 (outstanding (return_q w) - zlen l) = outstanding (return_q w) - zlen l) as E by (apply wrap64_small; unfold is_u64; lia).
  split; [split; try done|].
  - cbn. apply list.Forall_app. split; [done|]. by apply list.Forall_take.
  - cbn. rewrite E. lia.
  - unfold pool. cbn. rewrite E, zlen_app. lia.
Qed.

Lemma out_queues_pool n w written sent : wf n w → ensures (process_out_queues M body_ethertype w written sent) (λ w', same_pool M n w w' ∧ return_q w' = return_q w).
Proof.
  intros Hw. unfold process_out_queues. apply ensures_bind_any. intros w1 E1. destruct (input_queue_pool n w written Hw w1 E1) as [Hw1 P1]. intros w2 E2.
  destruct (egress_queue_pool n w1 sent Hw1 w2 E2) as [Hw2 P2]. split; [split; [done|lia]|]. unfold process_actor_input_queue, process_substrate_egress_queue in *.
  apply outcome_bind_Ret in E1 as (ps & _ & E1), E2 as (rs & _ & E2). destruct written; [done|]. apply outcome_bind_Ret in E1 as (k & _ & [= <-]).
  apply outcome_bind_Ret in E2 as ([[q' d] r] & _ & [= <-]). done.
Qed.

Lemma ensures_when {A} (c : bool) (f : A → outcome A) a (Q : A → Prop) : Q a → ensures (f a) Q → ensures (when c f a) Q.
Proof. intros Ha Hf. unfold when. destruct c; [done|by apply ensures_ret]. Qed.

(** The other components hold codecs that keep to their slices, and the system wrote bytes. *)
Record turn_ok (t : @Turn ND SL AK ScopedIpAddr Certificate) : Prop := mk_turn_ok {
  to_mgmt : ∀ j, codecs_ok (t_env_mgmt t j).1;
  to_requeue : ∀ j, codecs_ok (t_env_requeue t j).1;
  to_tun : ∀ j, codecs_ok (t_env_tun t j).1;
  to_substrate : ∀ j, codecs_ok (t_env_substrate t j).1;
  to_read : ∀ l, t_read t = inr l → Forall (λ r, match r with inr l => Forall is_u8 l | inl _ => True end) l;
  to_received : ∀ l, t_received t = inr l → Forall (λ r, match r with inr res => Forall is_u8 (rp_data res) | inl _ => True end) l;
}.

Definition state_ok n (s : @WorkerState ND ScopedIpAddr) : Prop :=
  wf n (ws_worker s) ∧ pool (ws_worker s) < U64_MOD ∧ queue_ok (ws_requeue_outq s) ∧ queue_ok (ws_mgmt_substrate_outq s).

Lemma turn_pool n batch_size buffer_count t s : state_ok n s → returns_ok n (ws_worker s) → turn_ok t →
  ensures (fastpath_turn M cap intf_unspecified LINK_ID_UNKNOWN a2aSaid ethertype_IP ethertype_IPV6 body_ethertype batch_size buffer_count t s)
    (λ s', state_ok n s' ∧ pool (ws_worker s') = pool (ws_worker s)).
Proof using HM NL.
  intros (Hw & Hn & Hq1 & Hq2) Hret []. unfold fastpath_turn. eapply ensures_bind; [by apply out_queues_pool|]. intros w1 [[Hw1 E1] Hr1].
  assert (pool w1 < U64_MOD) as Hn1 by lia.
  apply ensures_if; intros _; [apply ensures_ret; cbn; done|]. cbv zeta.
  assert (same_pool M n w1 (if t_returns t then recv_returns cap buffer_count w1 else w1)) as [Hw2 E2].
  { destruct (t_returns t); [|done]. apply recv_returns_pool; [done| |done]. unfold returns_ok. by rewrite Hr1. }
  generalize dependent (if t_returns t then recv_returns cap buffer_count w1 else w1). intros w2 Hw2 E2.
  eapply ensures_bind; [apply (ensures_when _ _ _ (same_pool M n w2)); [done|by apply egress_queue_pool]|]. intros w3 [Hw3 E3].
  eapply (ensures_bind _ _ (λ r, same_pool M n w3 r.1 ∧ queue_ok r.2)); [apply ensures_when; [done|apply mgmt_in_pool; try done; lia]|].
  intros [w4 q4] [[Hw4 E4] Hq4]. cbn [fst snd] in *.
  eapply (ensures_bind _ _ (λ r, same_pool M n w4 r.1 ∧ queue_ok r.2)); [apply ensures_when; [done|apply requeue_pool; try done; lia]|].
  intros [w5 q5] [[Hw5 E5] Hq5]. cbn [fst snd] in *.
  eapply (ensures_bind _ _ (same_pool M n w5)); [apply ensures_when; [done|apply tun_in_pool; try done; lia]|]. intros w6 [Hw6 E6].
  eapply (ensures_bind _ _ (same_pool M n w6)); [apply ensures_when; [done|apply socket_in_pool; try done; lia]|]. intros w7 [[] E7].
  apply ensures_ret. unfold state_ok. cbn [ws_worker ws_requeue_outq ws_mgmt_substrate_outq].
  assert (pool (aggregate (ws_shared s) w7).2 = pool w7) as E8 by done. cbn [aggregate snd] in E8. rewrite E8. split_and!; try done; lia.
Qed.
End io_pool.

(** C13: A turn of a worker's loop neither loses nor duplicates a buffer: whatever the
    system reports (short batches, blocked and failed operations, truncated
    packets, an interrupted [poll]), if the turn does not panic the worker answers
    for as many buffers as before, each of the size it had, and the packets left
    in its queues are whole. *)
Theorem worker_turn_keeps_buffers {ND : NetDefs} {NL : NetDefsLaws} {SL : Slab} {AK : A2aKeys} {B3 : Blake3} {ScopedIpAddr Certificate : Type}
    `{EqDecision ScopedIpAddr} (M cap unknown n ip ipv6 : Z) (unspec : ScopedIpAddr → bool) (said : packed Z) (eth : bytes → Z)
    (batch_size buffer_count : nat) (t : @Turn ND SL AK ScopedIpAddr Certificate) (s s' : WorkerState) :
  0 < M → state_ok M n s → returns_ok n (ws_worker s) → turn_ok t →
  fastpath_turn M cap unspec unknown said ip ipv6 eth batch_size buffer_count t s = Ret s' →
  state_ok M n s' ∧ pool (ws_worker s') = pool (ws_worker s).
Proof. intros HM Hs Hr Ht. exact (turn_pool M HM cap unspec unknown said ip ipv6 eth n batch_size buffer_count t s Hs Hr Ht s'). Qed.

(** ** A node, its worker with five buffers and a batch of one *)

Definition io_worker : @FastpathWorker _ Z :=
  worker_new 5 0 (Buffer sample_metadata (replicate 500 0)) (chan_new 4) (chan_new 4) (mk_capture 1 [] false).

Definition node_env : nat → @Assembly _ _ _ Z unit * (Z * Z) := λ _, (sample_node, (1, 2)).

(** A turn with these operations: what was sent, and what arrived from where. *)
Definition sample_turn (sent : batch_result unit) (mgmt : bool) (frame : option bytes) : @Turn _ _ _ Z unit :=
  mk_turn (inr []) sent false true false mgmt false false (match frame with Some _ => true | None => false end) (inr []) (inr [])
    (inr (match frame with Some l => [inr (mk_received l false (Some (addr 2)) (Some 7))] | None => [] end)) node_env node_env node_env node_env.

(** The queue to the worker, with a packet for link 4 that management enqueued to be
    sent for sure. *)
Definition mgmt_packet : Packet := rx (as_bytes zdpBaseHeader (mk_ZdpBaseHeader 9 0) ++ [1; 2; 3]).
Definition mgmt_queue : PacketQueue :=
  match egress_enqueue_packet 16 96 600 (packet_queue 4) 4 mgmt_packet with Ret (_, Some q) => q | _ => packet_queue 4 end.

Definition io_state (q : PacketQueue) : WorkerState := mk_worker_state io_worker (packet_queue 4) q counters_default.

Definition node_turns (ts : list (@Turn _ _ _ Z unit)) (s : WorkerState) : outcome WorkerState :=
  fastpath_main 96 16 (Z.eqb 0) 0 u8 0x800 0x86dd (λ _, 0x86dd) 1 5 ts s.

(** A frame with a packet of the flow, from the first adapter. *)
Definition flow_frame : bytes :=
  match actor_output 96 (Z.eqb 0) u8 (sample_adapter ext_flow 20 (src_address ext_flow)) (1, 2) sample_worker (rx (v6_packet 64)) with
  | Ret w => sent_body w | Panic => [] end.

(** The packets held back, and those dropped. *)
Definition left_over (r : outcome (@WorkerState _ Z)) : option (list (bool * Z) * Z) :=
  match r with
  | Ret s => Some ((λ e, (is_priority e, packet_len (q_pkt e))) <$> substrate_egress_q (ws_worker s), ws_shared s OutPacksDrop)
  | Panic => None
  end.

Definition blocked_after (q : PacketQueue) : option (list (bool * Z) * Z) :=
  left_over (node_turns [sample_turn (inr []) true None; sample_turn (inr [inr tt]) false (Some flow_frame); sample_turn (inl WouldBlock) false None] (io_state q)).

(** The mark PRIORITY stays with a buffer.  A fresh packet has the flags of the
    buffer's last use; so an actor's packet that the node receives in the
    buffer of a packet that management sent with [enqueue_packet] is PRIORITY
    itself, and is held back when the substrate blocks, where the same packet in
    another buffer is dropped. *)
Theorem priority_is_sticky :
  (∀ (ND : NetDefs) M (p p' : Packet) h, new M (destroy p) h = Ret p' → flags (metadata p') = flags (metadata p)) ∧
  blocked_after mgmt_queue = Some ([(true, zlen flow_frame)], 0) ∧ blocked_after (packet_queue 4) = Some ([], 1).
Proof.
  split_and!.
  - intros ND M p p' h. unfold new, new_with_existing_data, assertb. repeat (destruct (_ <=? _); [|done]). by intros [= <-].
  - vm_compute. reflexivity.
  - vm_compute. reflexivity.
Qed.

(** Every operation of a batch would have blocked. *)
Definition all_would_block {A} (completed : list (nat * io_result A)) : Prop := Forall (λ c, c.2 = inl WouldBlock) completed.

Lemma all_blocked {A} (cs : list (nat * io_result A)) : all_would_block cs → uring_batch cs = inr [].
Proof. intros H. unfold uring_batch. f_equal. induction H as [|[i r] cs Hr _ IH]; [done|]. cbn in Hr. subst r. exact IH. Qed.

(** An operation that would block, or is refused, as the first of a batch.  With
    [posix_unbatched] the batch is an error and the worker panics, on input from
    the substrate and from the TUN device and on output to it; with [io_uring], in
    whatever order the operations complete, the batch is empty, the worker goes
    on, and its buffers are back in the pool. *)
Theorem blocked_batch_depends_on_engine {ND : NetDefs} {SL : Slab} {AK : A2aKeys} {B3 : Blake3} {ScopedIpAddr Certificate : Type}
    `{EqDecision ScopedIpAddr} (M unknown ip ipv6 : Z) (unspec : ScopedIpAddr → bool) (said : packed Z) (eth : bytes → Z) (batch_size : nat)
    (env : nat → @Assembly ND SL AK ScopedIpAddr Certificate * (Z * Z)) (w w1 : FastpathWorker) (ps : list Packet) (e : IoErrorKind)
    received read written (completed : list (nat * io_result ReceivedPacket)) (completed' : list (nat * io_result bytes)) :
  get_fresh_packets M w batch_size = Ret (w1, ps) →
  all_would_block completed → all_would_block completed' →
  process_substrate_socket_in M unspec unknown said env batch_size w (posix_batch (inl e :: received)) = Panic ∧
  process_actor_tun_in M unspec said ip ipv6 env batch_size w (posix_batch (inl e :: read)) = Panic ∧
  process_actor_input_queue M eth w (posix_batch (inl e :: written)) = Panic ∧
  process_substrate_socket_in M unspec unknown said env batch_size w (uring_batch completed) = Ret (with_buffers w1 (buffers w1 ++ (destroy <$> rev ps))) ∧
  process_actor_tun_in M unspec said ip ipv6 env batch_size w (uring_batch completed') = Ret (with_buffers w1 (buffers w1 ++ (destroy <$> rev ps))).
Proof.
  intros Hg H1 H2. rewrite !all_blocked by done. unfold process_substrate_socket_in, process_actor_tun_in, process_actor_input_queue. rewrite Hg.
  cbn [mbind outcome_bind posix_batch posix_loop Nat.eqb]. split_and!; try done. by destruct (map_outcome _ _).
Qed.

Lemma blocked_batch_depends_on_engine_witness :
  ∃ w', process_substrate_socket_in 96 (Z.eqb 0) 0 u8 node_env 1 io_worker (posix_batch [inl WouldBlock]) = Panic ∧
        process_substrate_socket_in 96 (Z.eqb 0) 0 u8 node_env 1 io_worker (uring_batch [(0%nat, inl WouldBlock)]) = Ret w' ∧ length (buffers w') = 5%nat.
Proof.
  destruct (get_fresh_packets 96 io_worker 1) as [[w1 ps]|] eqn:E; [|discriminate E].
  destruct (blocked_batch_depends_on_engine 96 0 0x800 0x86dd (Z.eqb 0) u8 (λ _, 0x800) 1 node_env io_worker w1 ps WouldBlock [] [] []
    [(0%nat, inl WouldBlock)] [] E ltac:(by constructor) ltac:(constructor)) as (H1 & _ & _ & H2 & _).
  exists (with_buffers w1 (buffers w1 ++ (destroy <$> rev ps))). split; [exact H1|]. split; [exact H2|].
  apply (f_equal (λ o, match o with Ret r => length (buffers r.1 ++ (destroy <$> rev r.2)) | Panic => 0%nat end)) in E. cbn [fst snd] in E. cbn [buffers with_buffers]. rewrite <- E. reflexivity.
Defined.

Lemma sample_turn_ok sent mgmt : turn_ok (sample_turn sent mgmt (Some flow_frame)).
Proof.
  assert (∀ j, codecs_ok (node_env j).1) as Hc by (intros; apply sample_node_codecs). split; try exact Hc.
  - by intros l [= <-].
  - intros l [= <-]. constructor; [|constructor]. apply bytes_in_u8. vm_compute. reflexivity.
Qed.

Lemma worker_turn_keeps_buffers_witness :
  match fastpath_turn 96 16 (Z.eqb 0) 0 u8 0x800 0x86dd (λ _, 0x86dd) 1 5 (sample_turn (inr []) true (Some flow_frame)) (io_state mgmt_queue) with
  | Ret s' => pool (ws_worker s') = 5
  | Panic => False
  end.
Proof.
  assert (is_ret (fastpath_turn 96 16 (Z.eqb 0) 0 u8 0x800 0x86dd (λ _, 0x86dd) 1 5 (sample_turn (inr []) true (Some flow_frame)) (io_state mgmt_queue)) = true) as Hr by (vm_compute; reflexivity).
  destruct (fastpath_turn _ _ _ _ _ _ _ _ _ _ _ _) as [s'|] eqn:E; [|discriminate Hr].
  apply (worker_turn_keeps_buffers 96 16 0 500 0x800 0x86dd (Z.eqb 0) u8 (λ _, 0x86dd) 1 5 (sample_turn (inr []) true (Some flow_frame)) (io_state mgmt_queue) s');
    [lia| |split; [constructor|vm_compute; discriminate]|apply sample_turn_ok|exact E].
  split; [|split; [vm_compute; reflexivity|split; [constructor|constructor; [vm_compute; discriminate|constructor]]]].
  split; [|constructor|constructor|constructor|constructor|vm_compute; discriminate].
  change (buffers (ws_worker (io_state mgmt_queue))) with (replicate 5 (Buffer sample_metadata (replicate 500 0))).
  apply list.Forall_replicate. exists sample_metadata, (replicate 500 0). split; [reflexivity|vm_compute; reflexivity].
Defined.
