(* ===== verification/Steering.v ===== *)
(** Which worker a frame goes to, [src/adapter/ph/src/packet_steering.rs], and whether it is
    captured, [src/adapter/ph/src/flow_control.rs]. *)
From S2P Require Import Prelude Zdp.

(** ** Capture control; a program is a function from a packet to the length to capture *)

Record FlowControl : Type := mk_flow_control { flow : option (bytes → Z) }.

Definition flow_control_new : FlowControl := mk_flow_control None.
Definition set_program (fc : FlowControl) (program : bytes → Z) : FlowControl := mk_flow_control (Some program).
Definition delete_program (fc : FlowControl) : FlowControl := mk_flow_control None.
Definition check_packet (fc : FlowControl) (packet : bytes) : Z := match flow fc with Some program => program packet | None => 0 end.
Definition program_exists (fc : FlowControl) : bool := match flow fc with Some _ => true | None => false end.

(** ** Classic BPF, as far as the program uses it *)

Inductive bpf_code : Type := LD_H_ABS | LD_W_ABS | JMP_JSET_K | JMP_JEQ_K | ALU_MOD_K | RET_K | RET_A.

Record sock_filter : Type := sf { code : bpf_code; jt : nat; jf : nat; sf_k : Z }.

(** [n] bytes at an absolute offset, in network order. *)
Definition bpf_load (n : nat) (pkt : bytes) (k : Z) : option Z :=
  if (Z.to_nat k + n <=? length pkt)%nat then Some (be_get (take n (drop (Z.to_nat k) pkt))) else None.

(** The value returned: a load beyond the packet returns 0, as a program without an end
    would (none is accepted).  Jumps go forward only, so that the length of the program is
    fuel enough. *)
Fixpoint bpf_run (fuel : nat) (prog : list sock_filter) (pkt : bytes) (pc : nat) (a : Z) : Z :=
  match fuel, prog !! pc with
  | S fuel, Some i =>
      match code i with
      | LD_H_ABS => match bpf_load 2 pkt (sf_k i) with Some v => bpf_run fuel prog pkt (S pc) v | None => 0 end
      | LD_W_ABS => match bpf_load 4 pkt (sf_k i) with Some v => bpf_run fuel prog pkt (S pc) v | None => 0 end
      | JMP_JSET_K => bpf_run fuel prog pkt (S pc + (if negb (Z.land a (sf_k i) =? 0) then jt i else jf i)) a
      | JMP_JEQ_K => bpf_run fuel prog pkt (S pc + (if a =? sf_k i then jt i else jf i)) a
      | ALU_MOD_K => bpf_run fuel prog pkt (S pc) (a mod sf_k i)
      | RET_K => sf_k i
      | RET_A => a
      end
  | _, _ => 0
  end.

Definition bpf_filter (prog : list sock_filter) (pkt : bytes) : Z := bpf_run (length prog) prog pkt 0 0.

(** ** The programs *)

Inductive SteeringMethod : Type := OsDefault | PacketHash | ZdpStreamId.

Definition U32_MAX : Z := 2 ^ 32 - 1.

Section steering.
(** A flag of the [zpr] crate. *)
Context (ZPI_ENCRYPTED_HEADER_FLAG : Z).

(** The program [set_steering] attaches. *)
Definition steering_program (num_queues : Z) (method : SteeringMethod) : list sock_filter :=
  match method with
  | OsDefault | PacketHash => [sf RET_K 0 0 U32_MAX]
  | ZdpStreamId =>
      [ sf LD_H_ABS 0 0 0;
        sf JMP_JSET_K 5 0 (Z.lor (Z.shiftl ZPI_ENCRYPTED_HEADER_FLAG 8) ZDP_PACKET_TYPE_NON_FLOW_FLAG);
        sf LD_W_ABS 0 0 (Z.of_nat (size_of zdpZpiHeader + size_of zdpBaseHeader));
        sf JMP_JEQ_K 1 0 (packet_type TransitPacket);
        sf LD_W_ABS 0 0 (Z.of_nat (size_of zdpZpiHeader + size_of zdpBaseHeader + size_of zdpMgmtHeader));
        sf ALU_MOD_K 0 0 num_queues;
        sf RET_A 0 0 0;
        sf RET_K 0 0 U32_MAX ]
  end.

(** The queue the system selects, [None] when it falls back to its hash. *)
Definition steer (num_queues : Z) (method : SteeringMethod) (frame : bytes) : option Z :=
  let r := bpf_filter (steering_program num_queues method) frame in
  if r <? num_queues then Some r else None.

(** A frame of a flow that the program looks into: neither flag is set. *)
Definition plain_flow (z : Z) (t : ZdpPacketType) : Prop :=
  Z.land (be_get [z; t]) (Z.lor (Z.shiftl ZPI_ENCRYPTED_HEADER_FLAG 8) ZDP_PACKET_TYPE_NON_FLOW_FLAG) = 0.

(** The frame of a message behind the two headers. *)
Definition steered_frame (z : Z) (t : ZdpPacketType) (excess : Z) (msg : bytes) : bytes :=
  as_bytes zdpZpiHeader (mk_ZdpZpiHeader z) ++ as_bytes zdpBaseHeader (mk_ZdpBaseHeader t excess) ++ msg.

Lemma one_byte x : is_u8 x → be_put 1 x = [x].
Proof. intros Hx. cbn [be_put]. rewrite Z.div_1_r, Z.mod_small; [done|]. unfold is_u8 in Hx. lia. Qed.

Lemma steered_frame_bytes z t excess msg : is_u8 z → is_u8 t → is_u8 excess → steered_frame z t excess msg = z :: t :: excess :: msg.
Proof.
  intros Hz Ht He. unfold steered_frame. change (as_bytes zdpZpiHeader _) with (be_put 1 z). change (as_bytes zdpBaseHeader _) with (be_put 1 t ++ be_put 1 excess).
  by rewrite !one_byte.
Qed.

(** One instruction. *)
Lemma bpf_run_step fuel prog pkt pc a i : prog !! pc = Some i →
  bpf_run (S fuel) prog pkt pc a =
  match code i with
  | LD_H_ABS => match bpf_load 2 pkt (sf_k i) with Some v => bpf_run fuel prog pkt (S pc) v | None => 0 end
  | LD_W_ABS => match bpf_load 4 pkt (sf_k i) with Some v => bpf_run fuel prog pkt (S pc) v | None => 0 end
  | JMP_JSET_K => bpf_run fuel prog pkt (S pc + (if negb (Z.land a (sf_k i) =? 0) then jt i else jf i)) a
  | JMP_JEQ_K => bpf_run fuel prog pkt (S pc + (if a =? sf_k i then jt i else jf i)) a
  | ALU_MOD_K => bpf_run fuel prog pkt (S pc) (a mod sf_k i)
  | RET_K => sf_k i
  | RET_A => a
  end.
Proof. intros Hi. cbn [bpf_run]. by rewrite Hi. Qed.

Ltac bpf_step := erewrite bpf_run_step by reflexivity; cbn [code sf_k jt jf negb Nat.add].

(** What the program does with such a frame: it takes the word behind the base header for
    the packet type. *)
Lemma flow_run n z t excess w rest : is_u8 z → is_u8 t → is_u8 excess → plain_flow z t → length w = 4%nat →
  bpf_filter (steering_program n ZdpStreamId) (steered_frame z t excess (w ++ rest)) =
  if be_get w =? 0 then be_get w mod n else default 0 ((λ v, v mod n) <$> bpf_load 4 rest 4).
Proof.
  intros Hz Ht He Hp Hw. rewrite steered_frame_bytes by done. unfold plain_flow in Hp. destruct w as [|a [|b [|c [|d [|]]]]]; try done.
  unfold bpf_filter, steering_program. set (mask := Z.lor _ _) in *. change (length _) with 8%nat.
  assert (bpf_load 2 (z :: t :: excess :: [a; b; c; d] ++ rest) 0 = Some (be_get [z; t])) as E0 by done.
  assert (bpf_load 4 (z :: t :: excess :: [a; b; c; d] ++ rest) 3 = Some (be_get [a; b; c; d])) as E1 by done.
  assert (bpf_load 4 (z :: t :: excess :: [a; b; c; d] ++ rest) 11 = bpf_load 4 rest 4) as E2 by done.
  generalize dependent (z :: t :: excess :: [a; b; c; d] ++ rest). intros frame E0 E1 E2.
  change (Z.of_nat (size_of zdpZpiHeader + size_of zdpBaseHeader + size_of zdpMgmtHeader)) with 11.
  change (Z.of_nat (size_of zdpZpiHeader + size_of zdpBaseHeader)) with 3. change (packet_type TransitPacket) with 0.
  assert ((Z.land (be_get [z; t]) mask =? 0) = true) as Hm by (apply Z.eqb_eq; exact Hp). clearbody mask.
  bpf_step. rewrite E0. bpf_step. rewrite Hm. bpf_step. rewrite E1. bpf_step.
  destruct (be_get [a; b; c; d] =? 0); bpf_step; [by bpf_step|]. rewrite E2. destruct (bpf_load 4 rest 4); [|done]. bpf_step. by bpf_step.
Qed.
End steering.

Lemma be_put_high m x : (4 <= m)%nat → 0 <= x < 2 ^ 32 → be_put (S m) x = 0 :: be_put m x.
Proof.
  intros Hm Hx. cbn [be_put]. rewrite Z.div_small; [done|]. split; [lia|]. eapply Z.lt_le_trans; [apply Hx|]. apply Z.pow_le_mono_r; lia.
Qed.

(** Steering by stream.  A frame of a flow that is not encrypted should go to the
    worker of its stream, [stream_id mod num_queues].  A transit frame of a
    stream other than 0 goes instead where four bytes of its payload say (to the
    first worker if it is too short), and a management frame of a flow to the
    first worker, whatever its stream, until its sequence number has 33 bits. *)
Theorem steering_ignores_stream (flag n z excess sid seqno : Z) (msg : bytes) (t : ZdpPacketType) :
  is_u8 z → is_u8 t → is_u8 excess → 0 < n → 0 < sid < 2 ^ 32 → 0 <= seqno < 2 ^ 32 →
  plain_flow flag z (packet_type TransitPacket) → plain_flow flag z t →
  steer flag n ZdpStreamId (steered_frame z (packet_type TransitPacket) excess (as_bytes zdpPerFlowHeader (mk_ZdpPerFlowHeader sid) ++ msg))
    = Some (default 0 ((λ v, v mod n) <$> bpf_load 4 msg 4)) ∧
  steer flag n ZdpStreamId (steered_frame z t excess (as_bytes zdpMgmtHeader (mk_ZdpMgmtHeader seqno) ++ as_bytes zdpPerFlowHeader (mk_ZdpPerFlowHeader sid) ++ msg))
    = Some 0.
Proof.
  intros Hz Ht He Hn Hs Hq Hp Hp'. unfold steer. split.
  - rewrite flow_run; [|done..|apply be_put_length]. change (as_bytes zdpPerFlowHeader _) with (be_put 4 sid). rewrite be_get_put by lia.
    destruct (Z.eqb_spec sid 0); [lia|]. assert (0 <= default 0 ((λ v, v mod n) <$> bpf_load 4 msg 4) < n) as Hr.
    { destruct (bpf_load 4 msg 4) as [v|]; cbn; [by apply Z.mod_pos_bound|lia]. }
    destruct (Z.ltb_spec (default 0 ((λ v, v mod n) <$> bpf_load 4 msg 4)) n); [done|lia].
  - change (as_bytes zdpMgmtHeader _) with (be_put 8 seqno). replace (be_put 8 seqno) with (be_put 4 0 ++ be_put 4 seqno).
    + rewrite <- app_assoc, flow_run; [|done..]. change (be_get (be_put 4 0)) with 0. cbn [Z.eqb]. rewrite Z.mod_0_l by lia. destruct (Z.ltb_spec 0 n); [done|lia].
    + by rewrite (be_put_high 7), (be_put_high 6), (be_put_high 5), (be_put_high 4) by (done || lia).
Qed.

(** Two frames of stream 5, and one of stream 6, with four workers. *)
Lemma steering_ignores_stream_witness :
  steer 0x80 4 ZdpStreamId (steered_frame 2 (packet_type TransitPacket) 0 (as_bytes zdpPerFlowHeader (mk_ZdpPerFlowHeader 5) ++ [0; 0; 0; 0; 0; 0; 0; 1])) = Some 1 ∧
  steer 0x80 4 ZdpStreamId (steered_frame 2 (packet_type TransitPacket) 0 (as_bytes zdpPerFlowHeader (mk_ZdpPerFlowHeader 5) ++ [0; 0; 0; 0; 0; 0; 0; 2])) = Some 2.
Proof.
  assert (∀ b, steer 0x80 4 ZdpStreamId (steered_frame 2 (packet_type TransitPacket) 0 (as_bytes zdpPerFlowHeader (mk_ZdpPerFlowHeader 5) ++ [0; 0; 0; 0; 0; 0; 0; b]))
    = Some (default 0 ((λ v, v mod 4) <$> bpf_load 4 [0; 0; 0; 0; 0; 0; 0; b] 4))) as H.
  { intros b. apply (steering_ignores_stream 0x80 4 2 0 5 0 [0; 0; 0; 0; 0; 0; 0; b] (packet_type TransitPacket)); unfold is_u8; done || lia || reflexivity. }
  split; [exact (H 1)|exact (H 2)].
Defined.
