(* ===== verification/KmNoise.v ===== *)
(** Key agreement: the certificate exchange of
    [src/adapter/ph/src/km_cert_exchange.rs] inside the Noise handshake of
    [src/adapter/ph/src/km_noise.rs].  The crates [snow] and [x509-cert] are interfaces;
    clocks and random values are arguments. *)
From S2P Require Import Prelude Zdp NetDefs PacketBuf Transport.

Inductive KmError : Type :=
| KmConfigurationError | KmInvalidState | KmHandshakeError | KmCertExchangeError | KmEnqueueFailed | KmMachineError.

(** ** Certificates *)

Class Pki : Type := {
  Certificate : Type;
  from_der : bytes → option Certificate;
  to_der : Certificate → option bytes;
  public_key_bytes : Certificate → bytes;
  (** the first, against the key of the second; an error counts as [false] *)
  pki_verify : Certificate → Certificate → bool;
}.

Class PkiLaws {P : Pki} : Prop := {
  der_roundtrip c l : to_der c = Some l → from_der l = Some c;
  der_nonempty c l : to_der c = Some l → l ≠ [] ∧ Forall is_u8 l;
}.

Inductive PeerCertificate {P : Pki} : Type := Verified (c : Certificate) | Unverified (c : Certificate).

Definition get_cert {P : Pki} (c : PeerCertificate) : Certificate := match c with Verified c | Unverified c => c end.
Definition is_verified {P : Pki} (c : PeerCertificate) : bool := match c with Verified _ => true | Unverified _ => false end.

Inductive CertExchangeError : Type :=
| CertificateFormatError | CertificateParseError | InvalidPayloadError | ShortPayloadError | BufferSizeError | KeyMismatchError.

Section cert_exchange.
Context {P : Pki}.

Record KmCertExchange : Type := mk_certx { local_cert : option Certificate; authority_cert : option Certificate }.

(** [CertExchgHdr] *)
Definition certExchgHdr : packed Z := U16.
#[local] Instance certExchgHdr_laws : PackedLaws certExchgHdr := uint_laws 2.

(** The bytes written into a buffer with [remaining_mut] bytes of room. *)
Definition write_payload (x : KmCertExchange) (remaining_mut : Z) : CertExchangeError + bytes :=
  match (match local_cert x with Some cert => to_der cert | None => Some [] end) with
  | None => inl CertificateFormatError
  | Some cert_der =>
      if 65535 <? zlen cert_der then inl CertificateFormatError
      else if remaining_mut <? Z.of_nat (size_of certExchgHdr) + zlen cert_der then inl BufferSizeError
      else inr (as_bytes certExchgHdr (zlen cert_der) ++ cert_der)
  end.

Definition process_payload (x : KmCertExchange) (payload expected_peer_public_key : bytes) : CertExchangeError + option PeerCertificate :=
  match read_from_prefix certExchgHdr payload with
  | None => inl ShortPayloadError
  | Some (cert_len, rest) =>
      if cert_len =? 0 then inr None
      else if zlen payload <? Z.of_nat (size_of certExchgHdr) + cert_len then inl ShortPayloadError
      else match from_der (take (Z.to_nat cert_len) rest) with
           | None => inl CertificateParseError
           | Some initiator_cert =>
               let verified := match authority_cert x with Some a => pki_verify initiator_cert a | None => false end in
               if negb (bool_decide (public_key_bytes initiator_cert = expected_peer_public_key)) then inl KeyMismatchError
               else inr (Some (if verified then Verified initiator_cert else Unverified initiator_cert))
           end
  end.

Definition requires_verification (x : KmCertExchange) : bool := match authority_cert x with Some _ => true | None => false end.

(** A certificate that is presented arrives, and is verified as the receiver would. *)
Lemma cert_exchange_roundtrip {PL : PkiLaws} (x y : KmCertExchange) remaining l key :
  write_payload x remaining = inr l → (∀ c, local_cert x = Some c → public_key_bytes c = key) →
  process_payload y l key = inr ((λ c, if (match authority_cert y with Some a => pki_verify c a | None => false end) then Verified c else Unverified c) <$> local_cert x).
Proof.
  unfold write_payload, process_payload. destruct (local_cert x) as [c|].
  - destruct (to_der c) as [der|] eqn:Ed; [|done]. destruct (Z.ltb_spec 65535 (zlen der)); [done|]. destruct (_ <? _); [done|]. intros Hl Hk.
    assert (l = as_bytes certExchgHdr (zlen der) ++ der) as -> by congruence. clear Hl.
    destruct (der_nonempty c der Ed) as [Hne _]. apply der_roundtrip in Ed. pose proof (zlen_nonneg der).
    assert (in_range certExchgHdr (zlen der)) as Hr by (cbn; lia). rewrite (read_as_bytes certExchgHdr _ _ Hr). destruct (Z.eqb_spec (zlen der) 0) as [E0|_].
    { destruct der; [done|]. rewrite zlen_cons in E0. pose proof (zlen_nonneg der). lia. }
    rewrite zlen_app. assert (zlen (as_bytes certExchgHdr (zlen der)) = 2) as -> by done. destruct (Z.ltb_spec (2 + zlen der) (Z.of_nat (size_of certExchgHdr) + zlen der)) as [Hl|_].
    { cbn in Hl. lia. }
    rewrite take_ge by (unfold zlen; lia). rewrite Ed, bool_decide_true by (by apply Hk). done.
  - destruct (_ <? _); [done|]. destruct (_ <? _); [done|]. intros [= <-] _. done.
Qed.
End cert_exchange.

(** ** Noise, the crate [snow] *)

Inductive SnowReadError : Type := SnowDecrypt | SnowOther.

Class Snow : Type := {
  HandshakeState : Type;
  TransportState : Type;
  (** the public part of a private key *)
  derive_public_key : bytes → bytes;
  (** as initiator or responder of the pattern, with a private key, drawing on given randomness *)
  build_handshake : bool → bytes → bytes → option HandshakeState;
  (** into a buffer of this size; the state is changed in place *)
  hs_write_message : HandshakeState → bytes → Z → HandshakeState * option bytes;
  hs_read_message : HandshakeState → bytes → Z → HandshakeState * option bytes;
  get_remote_static : HandshakeState → option bytes;
  is_handshake_finished : HandshakeState → bool;
  into_stateless_transport_mode : HandshakeState → option TransportState;
  (** a nonce, a payload and a buffer: the buffer it leaves, and the number of bytes, [None]
      for [Error::Input], when they do not fit; the errors on which the codec panics (a pattern of
      one direction, the reserved nonce) are not among the results *)
  ts_write_message : TransportState → Z → bytes → bytes → bytes * option Z;
  ts_read_message : TransportState → Z → bytes → bytes → bytes * (SnowReadError + Z);
}.

Definition MSG_BUF_SIZE : Z := 4096.
(** In milliseconds. *)
Definition HANDSHAKE_TIMEOUT : Z := 15000.
Definition HMAC_KEY_LEN : nat := 32.

(** What one end writes the other end reads, and a message is 16 bytes longer, of at most
    65535 bytes, under any nonce but the last, which Noise reserves. *)
Definition transport_pair {SN : Snow} (t t' : TransportState) : Prop :=
  ∀ nonce l m, 0 <= nonce < U64_MOD - 1 → zlen l + 16 <= NOISE_MAXMSGLEN → zlen l + 16 <= zlen m → ∃ e, ts_write_message t nonce l m = (e ++ drop (length e) m, Some (zlen e)) ∧ zlen e = zlen l + 16 ∧
    ∀ m', zlen l <= zlen m' → ts_read_message t' nonce e m' = (l ++ drop (length l) m', inr (zlen l)).

(** The pattern XX: three messages with their payloads, the last two carry the static
    keys. *)
Class SnowLaws {SN : Snow} : Prop := {
  xx_builds initiate private seed : length private = 32%nat → ∃ hs, build_handshake initiate private seed = Some hs ∧ is_handshake_finished hs = false;
  xx_run private_i private_r seed_i seed_r hi hr p1 p2 :
    build_handshake true private_i seed_i = Some hi → build_handshake false private_r seed_r = Some hr →
    zlen p1 <= 3800 → zlen p2 <= 3800 →
    ∃ hi1 m0 hr1 hr2 m1 hi2 hi3 m2 hr3 ti tr,
      hs_write_message hi [] MSG_BUF_SIZE = (hi1, Some m0) ∧ is_handshake_finished hi1 = false ∧
      hs_read_message hr m0 MSG_BUF_SIZE = (hr1, Some []) ∧ is_handshake_finished hr1 = false ∧
      hs_write_message hr1 p1 MSG_BUF_SIZE = (hr2, Some m1) ∧ is_handshake_finished hr2 = false ∧
      hs_read_message hi1 m1 MSG_BUF_SIZE = (hi2, Some p1) ∧ is_handshake_finished hi2 = false ∧
      get_remote_static hi2 = Some (derive_public_key private_r) ∧
      hs_write_message hi2 p2 MSG_BUF_SIZE = (hi3, Some m2) ∧ is_handshake_finished hi3 = true ∧ into_stateless_transport_mode hi3 = Some ti ∧
      hs_read_message hr2 m2 MSG_BUF_SIZE = (hr3, Some p2) ∧ is_handshake_finished hr3 = true ∧
      get_remote_static hr3 = Some (derive_public_key private_i) ∧ into_stateless_transport_mode hr3 = Some tr ∧
      transport_pair ti tr ∧ transport_pair tr ti;
}.

(** A handshake of the pattern has three messages. *)
Class SnowCounts {SN : Snow} : Type := {
  hs_count : HandshakeState → Z;
  count_build initiate private seed hs : build_handshake initiate private seed = Some hs → hs_count hs = 0;
  count_write hs p n hs' m : hs_write_message hs p n = (hs', Some m) → hs_count hs' = hs_count hs + 1;
  count_read hs m n hs' p : hs_read_message hs m n = (hs', Some p) → hs_count hs' = hs_count hs + 1;
  count_finished hs : is_handshake_finished hs = (hs_count hs =? 3);
}.

(** ** Codecs *)

(** [NoiseCodec] as an operation finds it: the transport state and the value of the nonce
    counter, which an encryption increments ([noise_nonce]); what is shown of a codec holds for
    every value but the reserved one ([noise_codec_pair]).  Both callers give a buffer that holds at least [max_overhead] bytes. *)
Definition noise_codec {SN : Snow} (t : TransportState) (nonce : Z) : Codec :=
  mk_codec NOISE_PADLEN
    (λ payload message,
       let n := Z.to_nat NOISE_NONCE_LEN in
       match ts_write_message t nonce payload (drop n message) with
       | (rest, Some len) => (be_put n nonce ++ rest, inr (len + NOISE_NONCE_LEN))
       | (rest, None) => (be_put n nonce ++ rest, inl EncMessageTooLarge)
       end)
    (λ payload message,
       let n := Z.to_nat NOISE_NONCE_LEN in
       if zlen payload <? NOISE_NONCE_LEN then (message, inl DecMessageTooShort)
       else match ts_read_message t (be_get (take n payload)) (drop n payload) message with
            | (message, inr len) => (message, inr len)
            | (message, inl SnowDecrypt) => (message, inl DecDecryptFailed)
            | (message, inl SnowOther) => (message, inl DecInternalError)
            end).

(** [NoiseCodec::new], and the counter after [n] encryptions. *)
Definition noise_nonce (n : nat) : Z := wrap64 (1 + Z.of_nat n).

Definition NullCodec : Codec :=
  mk_codec 0
    (λ payload message, if zlen message <? zlen payload then (message, inl EncParseError) else (payload ++ drop (length payload) message, inr (zlen payload)))
    (λ payload message, if zlen message <? zlen payload then (message, inl DecParseError) else (payload ++ drop (length payload) message, inr (zlen payload))).

Lemma noise_codec_pair {SN : Snow} t t' n n' : transport_pair t t' → 0 <= n < U64_MOD - 1 → codec_pair NOISE_PADLEN (noise_codec t n) (noise_codec t' n').
Proof.
  intros Hp Hn l m Hl Hx Hm. cbn [max_overhead noise_codec encrypt_transport_stateless decrypt_transport_stateless] in *. unfold NOISE_PADLEN, NOISE_NONCE_LEN in *.
  change (Z.to_nat 8) with 8%nat. pose proof (zlen_nonneg l).
  destruct (Hp n l (drop 8 m) Hn) as (e & -> & He & Hr). { lia. } { unfold zlen in *. rewrite length_drop. lia. }
  exists (be_put 8 n ++ e). assert (length (be_put 8 n) = 8%nat) as E8 by apply be_put_length.
  assert (zlen (be_put 8 n ++ e) = zlen l + 24) as El by (rewrite zlen_app; unfold zlen at 1; lia). rewrite El. split; [|split; [lia|]].
  - rewrite length_app, E8, <- app_assoc, drop_drop, He. f_equal. f_equal. lia.
  - intros m' Hm'. split; [|lia]. destruct (Z.ltb_spec (zlen l + 24) 8); [lia|]. rewrite take_app_length', drop_app_length' by done.
    rewrite be_get_put by (cbn; lia). rewrite Hr by lia. done.
Qed.

Lemma null_codec_pair : codec_pair 0 NullCodec NullCodec.
Proof.
  intros l m Hl _ Hm. cbn [max_overhead NullCodec encrypt_transport_stateless decrypt_transport_stateless] in *. exists l. pose proof (zlen_nonneg l).
  destruct (Z.ltb_spec (zlen m) (zlen l)); [lia|]. split; [done|]. split; [lia|]. intros m' Hm'. destruct (Z.ltb_spec (zlen m') (zlen l)); [lia|]. done.
Qed.

(** ** The state machine *)

Inductive KmSMState {C : Type} : Type := Configuring | TransportMode (sa : KmTransportSA C) | ErrorState.
Arguments KmSMState : clear implicits.

(** [PartialEq for KmSMState] *)
Definition km_state_eqb {C} (a b : KmSMState C) : bool :=
  match a, b with
  | Configuring, Configuring | ErrorState, ErrorState => true
  | TransportMode x, TransportMode y => sa_eqb x y
  | _, _ => false
  end.

(** [KeyMsg] *)
Record KeyMsg : Type := mk_key_msg { zpi_full_encr : Z; zpi_transit_hmac : Z; hmac_key : bytes }.
Definition keyMsg : packed KeyMsg :=
  packed_struct (u8 × u8 × byte_array HMAC_KEY_LEN) (λ '(x0, x1, x2), mk_key_msg x0 x1 x2) (λ h, (zpi_full_encr h, zpi_transit_hmac h, hmac_key h)).

#[global] Instance keyMsg_laws : PackedLaws keyMsg.
Proof. packed_struct. Qed.

Record NoiseKeypair : Type := mk_keypair { private : bytes; public : bytes }.

Definition msg_carries_zpi_payload (msg_nr : Z) : bool := (msg_nr =? 1) || (msg_nr =? 2).

Section noise.
Context {P : Pki} {SN : Snow} (KM_ID_NOISE KM_ID_NULL : Z).
Abbreviation SMState := (KmSMState PeerCertificate).

Definition keypair_new (k : bytes) : NoiseKeypair := mk_keypair k (derive_public_key k).

Record KmNoise : Type := mk_noise {
  n_state : SMState;
  msg_nr : Z;
  initiate : bool;
  verify_cert : bool;
  local_keypair : NoiseKeypair;
  hs_sent_t : option Z;
  hs_state : option HandshakeState;
  n_recv_hmac_key : bytes;
  n_send_hmac_key : option bytes;
  n_recv_zpis : ZPIPair;
  n_send_zpis : option ZPIPair;
  certx : KmCertExchange;
  n_peer_cert : option PeerCertificate;
}.

Definition with_state (n : KmNoise) (s : SMState) : KmNoise :=
  mk_noise s (msg_nr n) (initiate n) (verify_cert n) (local_keypair n) (hs_sent_t n) (hs_state n) (n_recv_hmac_key n) (n_send_hmac_key n) (n_recv_zpis n) (n_send_zpis n) (certx n) (n_peer_cert n).
Definition with_hs (n : KmNoise) (t : option Z) (hs : option HandshakeState) : KmNoise :=
  mk_noise (n_state n) (msg_nr n) (initiate n) (verify_cert n) (local_keypair n) t hs (n_recv_hmac_key n) (n_send_hmac_key n) (n_recv_zpis n) (n_send_zpis n) (certx n) (n_peer_cert n).
Definition with_msg_nr (n : KmNoise) (k : Z) : KmNoise :=
  mk_noise (n_state n) k (initiate n) (verify_cert n) (local_keypair n) (hs_sent_t n) (hs_state n) (n_recv_hmac_key n) (n_send_hmac_key n) (n_recv_zpis n) (n_send_zpis n) (certx n) (n_peer_cert n).
Definition with_peer (n : KmNoise) (z : option ZPIPair) (k : option bytes) (c : option PeerCertificate) : KmNoise :=
  mk_noise (n_state n) (msg_nr n) (initiate n) (verify_cert n) (local_keypair n) (hs_sent_t n) (hs_state n) (n_recv_hmac_key n) k (n_recv_zpis n) z (certx n) c.

(** [KmNoise::new], the keypair given or generated. *)
Definition noise_new (initiate verify_cert : bool) (keypair : NoiseKeypair) (zpis : ZPIPair) (certx : KmCertExchange) : KmNoise :=
  mk_noise Configuring 0 initiate verify_cert keypair None None (replicate HMAC_KEY_LEN 0) None zpis None certx None.

(** Room left in a [BytesMut], which grows. *)
Definition BYTES_MUT_MAX : Z := 2 ^ 64 - 1.

Definition create_hs_message (n : KmNoise) (hs : HandshakeState) : KmNoise * HandshakeState * (KmError + bytes) :=
  match
    (if msg_carries_zpi_payload (msg_nr n) then
       match write_payload (certx n) (BYTES_MUT_MAX - Z.of_nat (size_of keyMsg)) with
       | inl _ => inl KmCertExchangeError
       | inr l => inr (as_bytes keyMsg (mk_key_msg (encr (n_recv_zpis n)) (hmac (n_recv_zpis n)) (n_recv_hmac_key n)) ++ l)
       end
     else inr [])
  with
  | inl err => (n, hs, inl err)
  | inr payload =>
      match hs_write_message hs payload MSG_BUF_SIZE with
      | (hs, Some m) => (with_msg_nr n ((msg_nr n + 1) mod 256), hs, inr m)
      | (hs, None) => (n, hs, inl KmHandshakeError)
      end
  end.

Definition parse_km_payload (n : KmNoise) (payload peer_public_key : bytes) : KmNoise * (KmError + unit) :=
  match read_from_prefix keyMsg payload with
  | None => (n, inl KmHandshakeError)
  | Some (km, rest) =>
      let n := with_peer n (Some (mk_zpi_pair (zpi_full_encr km) (zpi_transit_hmac km))) (Some (hmac_key km)) (n_peer_cert n) in
      match process_payload (certx n) rest peer_public_key with
      | inl _ => (n, inl KmCertExchangeError)
      | inr peer_cert => (with_peer n (n_send_zpis n) (n_send_hmac_key n) peer_cert, inr tt)
      end
  end.

(** [reset], with the HMAC key and the randomness it draws. *)
Definition noise_reset (now : Z) (hmac_key seed : bytes) (n : KmNoise) : KmNoise * (KmError + option bytes) :=
  let n := mk_noise Configuring 0 (initiate n) (verify_cert n) (local_keypair n) (hs_sent_t n) (hs_state n) hmac_key None (n_recv_zpis n) (n_send_zpis n) (certx n) (n_peer_cert n) in
  match build_handshake (initiate n) (private (local_keypair n)) seed with
  | None => (with_state n ErrorState, inl KmMachineError)
  | Some hs =>
      if initiate n then
        match create_hs_message n hs with
        | (n, _, inl _) => (with_state n ErrorState, inl KmHandshakeError)
        | (n, hs, inr m) => (with_hs n (Some now) (Some hs), inr (Some m))
        end
      else (with_hs n None (Some hs), inr None)
  end.

(** The end of [handle_message]: the association, when the handshake is finished. *)
Definition finish_handshake (km_impl : Z) (n : KmNoise) (hs : HandshakeState) (hs_msg : option bytes) : KmNoise * (KmError + option bytes) :=
  match n_send_zpis n, n_send_hmac_key n with
  | Some send_zpis, Some send_key =>
      match into_stateless_transport_mode hs with
      | None => (with_state n ErrorState, inl KmHandshakeError)
      | Some t =>
          let established codec := (with_state n (TransportMode (sa_new send_zpis (n_recv_zpis n) send_key (n_recv_hmac_key n) codec (n_peer_cert n))), inr hs_msg) in
          if km_impl =? KM_ID_NOISE then established (noise_codec t (noise_nonce 0))
          else if km_impl =? KM_ID_NULL then established NullCodec
          else (n, inl KmHandshakeError)
      end
  | _, _ => (with_state n ErrorState, inl KmHandshakeError)
  end.

(** Behind a message that was read: an answer if the handshake goes on. *)
Definition answer_handshake (now km_impl : Z) (n : KmNoise) (hs : HandshakeState) : KmNoise * (KmError + option bytes) :=
  let go_on n hs hs_msg := if is_handshake_finished hs then finish_handshake km_impl n hs hs_msg else (with_hs n (hs_sent_t n) (Some hs), inr hs_msg) in
  if is_handshake_finished hs then go_on n hs None
  else
    match create_hs_message n hs with
    | (n, hs, inl _) => (with_state (with_hs n (hs_sent_t n) (Some hs)) ErrorState, inl KmHandshakeError)
    | (n, hs, inr m) => go_on (with_hs n (Some now) (hs_state n)) hs (Some m)
    end.

Definition noise_handle_message (now : Z) (message : bytes) (km_impl : Z) (n : KmNoise) : outcome (KmNoise * (KmError + option bytes)) :=
  match n_state n with
  | Configuring =>
      match hs_state n with
      | None => Panic
      | Some hs =>
          let n := with_hs n None None in
          match hs_read_message hs message MSG_BUF_SIZE with
          | (hs, None) => Ret (with_state (with_hs n None (Some hs)) ErrorState, inl KmHandshakeError)
          | (hs, Some payload) =>
              let nr := msg_nr n in
              let n := with_msg_nr n ((nr + 1) mod 256) in
              if msg_carries_zpi_payload nr then
                match get_remote_static hs with
                | None => Ret (with_state (with_hs n None (Some hs)) ErrorState, inl KmCertExchangeError)
                | Some peer_pubkey =>
                    match parse_km_payload n payload peer_pubkey with
                    | (n, inl _) => Ret (with_state (with_hs n None (Some hs)) ErrorState, inl KmHandshakeError)
                    | (n, inr _) =>
                        if verify_cert n && requires_verification (certx n) && negb (match n_peer_cert n with Some c => is_verified c | None => false end)
                        then Ret (with_state (with_hs n None (Some hs)) ErrorState, inl KmCertExchangeError)
                        else Ret (answer_handshake now km_impl n hs)
                    end
                end
              else Ret (answer_handshake now km_impl n hs)
          end
      end
  | _ => Ret (n, inl KmInvalidState)
  end.

Definition noise_tick (now : Z) (n : KmNoise) : KmNoise * (KmError + option bytes) :=
  match n_state n, hs_state n, hs_sent_t n with
  | Configuring, Some _, Some t =>
      if HANDSHAKE_TIMEOUT <? now - t then (with_state (with_hs n None None) ErrorState, inl KmHandshakeError)
      else (n, inr None)
  | _, _, _ => (n, inr None)
  end.
End noise.
