(* ===== verification/KmSafe.v ===== *)
(** The Noise key agreement: two ends that can agree do, and an end that insists on a
    verified certificate gets one. *)
From S2P Require Import Prelude Zdp NetDefs PacketBuf Transport KmNoise.

Ltac km_cbn := cbn [n_state msg_nr initiate verify_cert local_keypair hs_sent_t hs_state n_recv_hmac_key n_send_hmac_key n_recv_zpis n_send_zpis certx n_peer_cert
  with_state with_hs with_msg_nr with_peer].

Section handshake.
Context {P : Pki} {PL : PkiLaws} {SN : Snow} {SL : SnowLaws} (KM_ID_NOISE KM_ID_NULL : Z).
Implicit Types (n : KmNoise) (k : bytes).
Abbreviation handle := (noise_handle_message KM_ID_NOISE KM_ID_NULL).

(** ** Two ends that agree *)

(** An end with the HMAC key [k] that it draws: its keys are keys, and its certificate, if it
    has one, is for its Noise key and fits into a message. *)
Record party_ok n k : Prop := mk_party_ok {
  po_private : length (private (local_keypair n)) = 32%nat;
  po_hmac : length k = 32%nat ∧ Forall is_u8 k;
  po_zpis : is_u8 (encr (n_recv_zpis n)) ∧ is_u8 (hmac (n_recv_zpis n));
  po_payload : ∃ l, write_payload (certx n) (BYTES_MUT_MAX - Z.of_nat (size_of keyMsg)) = inr l ∧ zlen l <= 3700;
  po_cert : ∀ c, local_cert (certx n) = Some c → public_key_bytes c = derive_public_key (private (local_keypair n));
}.

(** The certificate [n] takes [m]'s for. *)
Definition presented n m : option PeerCertificate :=
  (λ c, if (match authority_cert (certx n) with Some a => pki_verify c a | None => false end) then Verified c else Unverified c) <$> local_cert (certx m).

(** [n] does not insist on a certificate, or can verify [m]'s. *)
Definition accepts n m : Prop :=
  verify_cert n && requires_verification (certx n) = true → ∃ c, presented n m = Some (Verified c).

(** Two associations, each the other's mirror image. *)
Definition mirrored (padlen : Z) (a b : KmTransportSA PeerCertificate) : Prop :=
  send_zpis a = recv_zpis b ∧ recv_zpis a = send_zpis b ∧ send_hmac_key a = recv_hmac_key b ∧ recv_hmac_key a = send_hmac_key b ∧
  codec_pair padlen (codec a) (codec b) ∧ codec_pair padlen (codec b) (codec a).

Definition key_payload n k : KeyMsg := mk_key_msg (encr (n_recv_zpis n)) (hmac (n_recv_zpis n)) k.

Lemma key_payload_range n k : party_ok n k → in_range keyMsg (key_payload n k).
Proof. intros [_ [Hk Hb] [He Hh] _ _]. unfold is_u8 in *. cbn. split_and!; try done; lia. Qed.

(** What [n] writes into a message that carries its parameters. *)
Lemma create_carries n k l hs hs' m : n_recv_hmac_key n = k → msg_carries_zpi_payload (msg_nr n) = true →
  write_payload (certx n) (BYTES_MUT_MAX - Z.of_nat (size_of keyMsg)) = inr l →
  hs_write_message hs (as_bytes keyMsg (key_payload n k) ++ l) MSG_BUF_SIZE = (hs', Some m) →
  create_hs_message n hs = (with_msg_nr n ((msg_nr n + 1) mod 256), hs', inr m).
Proof. intros Hk Hc Hl Hw. unfold create_hs_message. unfold key_payload in Hw. rewrite Hc, Hl, Hk. by rewrite Hw. Qed.

(** ... and [m] reads out of it. *)
Lemma parse_carries n m km l : party_ok m km → write_payload (certx m) (BYTES_MUT_MAX - Z.of_nat (size_of keyMsg)) = inr l →
  parse_km_payload n (as_bytes keyMsg (key_payload m km) ++ l) (derive_public_key (private (local_keypair m)))
  = (with_peer n (Some (n_recv_zpis m)) (Some km) (presented n m), inr tt).
Proof using PL.
  intros Hm Hl. unfold parse_km_payload. rewrite (read_as_bytes keyMsg _ _ (key_payload_range m km Hm)). cbn [key_payload zpi_full_encr zpi_transit_hmac hmac_key].
  rewrite (cert_exchange_roundtrip (certx m) (certx (with_peer n _ _ _)) _ l _ Hl) by apply Hm. unfold presented. cbn. by destruct (n_recv_zpis m).
Qed.

Lemma accepted n m z (ko : option bytes) : accepts n m →
  verify_cert n && requires_verification (certx n) && negb (match n_peer_cert (with_peer n z ko (presented n m)) with Some c => is_verified c | None => false end) = false.
Proof.
  intros Ha. destruct (verify_cert n && requires_verification (certx n)) eqn:E; [|done]. destruct (Ha E) as [c Hc]. cbn [n_peer_cert with_peer]. by rewrite Hc.
Qed.

(** The responder reads the first message and answers with its parameters. *)
Lemma handle_first now impl n hs hs1 hs2 l m m' : n_state n = Configuring → hs_state n = Some hs → msg_nr n = 0 →
  hs_read_message hs m MSG_BUF_SIZE = (hs1, Some []) → is_handshake_finished hs1 = false →
  write_payload (certx n) (BYTES_MUT_MAX - Z.of_nat (size_of keyMsg)) = inr l →
  hs_write_message hs1 (as_bytes keyMsg (key_payload n (n_recv_hmac_key n)) ++ l) MSG_BUF_SIZE = (hs2, Some m') → is_handshake_finished hs2 = false →
  handle now m impl n = Ret (with_hs (with_msg_nr n 2) (Some now) (Some hs2), inr (Some m')).
Proof.
  intros Hs Hh Hn Hr F1 Hl Hw F2. unfold noise_handle_message. rewrite Hs, Hh, Hr. cbv zeta. km_cbn. rewrite Hn. cbn [msg_carries_zpi_payload Z.eqb orb].
  unfold answer_handshake. rewrite F1. cbv zeta.
  rewrite (create_carries _ (n_recv_hmac_key n) l hs1 hs2 m') by done. cbn [fst snd]. rewrite F2. by km_cbn.
Qed.

(** The last message is read, or written: the association. *)
Lemma finish_established impl n hs t z k out : n_send_zpis n = Some z → n_send_hmac_key n = Some k → into_stateless_transport_mode hs = Some t → impl = KM_ID_NOISE ∨ impl = KM_ID_NULL →
  finish_handshake KM_ID_NOISE KM_ID_NULL impl n hs out =
  (with_state n (TransportMode (sa_new z (n_recv_zpis n) k (n_recv_hmac_key n) (if impl =? KM_ID_NOISE then noise_codec t (noise_nonce 0) else NullCodec) (n_peer_cert n))), inr out).
Proof.
  intros Hz Hk Ht Hi. unfold finish_handshake. rewrite Hz, Hk, Ht. cbv zeta. destruct (Z.eqb_spec impl KM_ID_NOISE) as [->|Hne]; [done|].
  destruct Hi as [->| ->]; [done|]. by rewrite Z.eqb_refl.
Qed.

(** The initiator reads the second message and answers; the handshake is finished. *)
Lemma handle_second now impl n m km hs hs1 hs2 l l' msg msg' t : n_state n = Configuring → hs_state n = Some hs → msg_nr n = 1 → party_ok m km →
  write_payload (certx m) (BYTES_MUT_MAX - Z.of_nat (size_of keyMsg)) = inr l' →
  hs_read_message hs msg MSG_BUF_SIZE = (hs1, Some (as_bytes keyMsg (key_payload m km) ++ l')) → is_handshake_finished hs1 = false →
  get_remote_static hs1 = Some (derive_public_key (private (local_keypair m))) → accepts n m →
  write_payload (certx n) (BYTES_MUT_MAX - Z.of_nat (size_of keyMsg)) = inr l →
  hs_write_message hs1 (as_bytes keyMsg (key_payload n (n_recv_hmac_key n)) ++ l) MSG_BUF_SIZE = (hs2, Some msg') → is_handshake_finished hs2 = true →
  into_stateless_transport_mode hs2 = Some t → impl = KM_ID_NOISE ∨ impl = KM_ID_NULL →
  ∃ n', handle now msg impl n = Ret (n', inr (Some msg')) ∧
    n_state n' = TransportMode (sa_new (n_recv_zpis m) (n_recv_zpis n) km (n_recv_hmac_key n) (if impl =? KM_ID_NOISE then noise_codec t (noise_nonce 0) else NullCodec) (presented n m)).
Proof using PL.
  intros Hs Hh Hn Pm Hl' Hr F1 Hst Ha Hl Hw F2 Ht Hi. unfold noise_handle_message. rewrite Hs, Hh, Hr. cbv zeta. km_cbn. rewrite Hn. cbn [msg_carries_zpi_payload Z.eqb orb].
  rewrite Hst, (parse_carries _ m km l' Pm Hl'). change (presented (with_msg_nr (with_hs n None None) _) m) with (presented n m).
  pose proof (accepted n m (Some (n_recv_zpis m)) (Some km) Ha) as E. cbn [n_peer_cert with_peer] in E. km_cbn. rewrite E.
  unfold answer_handshake. rewrite F1. cbv zeta. rewrite (create_carries _ (n_recv_hmac_key n) l hs1 hs2 msg') by done. rewrite F2.
  erewrite finish_established by done. eexists. split; [done|]. by km_cbn.
Qed.

(** The responder reads the third; it is finished too. *)
Lemma handle_third now impl n m km hs hs1 l' msg t : n_state n = Configuring → hs_state n = Some hs → msg_nr n = 2 → party_ok m km →
  write_payload (certx m) (BYTES_MUT_MAX - Z.of_nat (size_of keyMsg)) = inr l' →
  hs_read_message hs msg MSG_BUF_SIZE = (hs1, Some (as_bytes keyMsg (key_payload m km) ++ l')) → is_handshake_finished hs1 = true →
  get_remote_static hs1 = Some (derive_public_key (private (local_keypair m))) → accepts n m →
  into_stateless_transport_mode hs1 = Some t → impl = KM_ID_NOISE ∨ impl = KM_ID_NULL →
  ∃ n', handle now msg impl n = Ret (n', inr None) ∧
    n_state n' = TransportMode (sa_new (n_recv_zpis m) (n_recv_zpis n) km (n_recv_hmac_key n) (if impl =? KM_ID_NOISE then noise_codec t (noise_nonce 0) else NullCodec) (presented n m)).
Proof using PL.
  intros Hs Hh Hn Pm Hl' Hr F1 Hst Ha Ht Hi. unfold noise_handle_message. rewrite Hs, Hh, Hr. cbv zeta. km_cbn. rewrite Hn. cbn [msg_carries_zpi_payload Z.eqb orb].
  rewrite Hst, (parse_carries _ m km l' Pm Hl'). change (presented (with_msg_nr (with_hs n None None) _) m) with (presented n m).
  pose proof (accepted n m (Some (n_recv_zpis m)) (Some km) Ha) as E. cbn [n_peer_cert with_peer] in E. km_cbn. rewrite E.
  unfold answer_handshake. rewrite F1. cbv zeta. erewrite finish_established by done. eexists. split; [done|]. by km_cbn.
Qed.

Lemma handshake_run nowA nowB seedA seedB kA kB impl a b :
  initiate a = true → initiate b = false → party_ok a kA → party_ok b kB → accepts a b → accepts b a → impl = KM_ID_NOISE ∨ impl = KM_ID_NULL →
  ∃ a1 a2 b1 b2 b3 m0 m1 m2 saA saB,
    noise_reset nowA kA seedA a = (a1, inr (Some m0)) ∧ noise_reset nowB kB seedB b = (b1, inr None) ∧
    handle nowB m0 impl b1 = Ret (b2, inr (Some m1)) ∧ handle nowA m1 impl a1 = Ret (a2, inr (Some m2)) ∧ handle nowB m2 impl b2 = Ret (b3, inr None) ∧
    n_state a2 = TransportMode saA ∧ n_state b3 = TransportMode saB ∧
    mirrored (if impl =? KM_ID_NOISE then NOISE_PADLEN else 0) saA saB ∧
    send_zpis saA = n_recv_zpis b ∧ recv_zpis saA = n_recv_zpis a ∧ send_hmac_key saA = kB ∧ recv_hmac_key saA = kA ∧
    peer_cert saA = presented a b ∧ peer_cert saB = presented b a.
Proof using PL SL.
  intros Ia Ib Pa Pb Aab Aba Himpl.
  destruct (po_payload a kA Pa) as (la & Hla & Sla), (po_payload b kB Pb) as (lb & Hlb & Slb).
  destruct (xx_builds true _ seedA (po_private a kA Pa)) as (hi & Hi & _), (xx_builds false _ seedB (po_private b kB Pb)) as (hr & Hr & _).
  assert (∀ n k l, party_ok n k → zlen l <= 3700 → zlen (as_bytes keyMsg (key_payload n k) ++ l) <= 3800) as Hsz.
  { intros n k l Hn Hl. rewrite zlen_app. unfold zlen at 1. rewrite packed_length by (by apply key_payload_range). change (size_of keyMsg) with 34%nat. lia. }
  destruct (xx_run _ _ _ _ hi hr (as_bytes keyMsg (key_payload b kB) ++ lb) (as_bytes keyMsg (key_payload a kA) ++ la) Hi Hr ltac:(by apply Hsz) ltac:(by apply Hsz))
    as (hi1 & m0 & hr1 & hr2 & m1 & hi2 & hi3 & m2 & hr3 & ti & tr & W0 & F0 & R0 & F1 & W1 & F2 & R1 & F3 & S1 & W2 & F4 & T1 & R2 & F5 & S2 & T2 & Pt & Pt').
  set (a0 := mk_noise Configuring 0 true (verify_cert a) (local_keypair a) (hs_sent_t a) (hs_state a) kA None (n_recv_zpis a) (n_send_zpis a) (certx a) (n_peer_cert a)).
  set (b0 := mk_noise Configuring 0 false (verify_cert b) (local_keypair b) (hs_sent_t b) (hs_state b) kB None (n_recv_zpis b) (n_send_zpis b) (certx b) (n_peer_cert b)).
  assert (noise_reset nowA kA seedA a = (with_hs (with_msg_nr a0 1) (Some nowA) (Some hi1), inr (Some m0))) as Ra.
  { unfold noise_reset. cbv zeta. km_cbn. rewrite Ia, Hi. unfold create_hs_message. km_cbn. cbn [msg_carries_zpi_payload Z.eqb orb]. by rewrite W0. }
  assert (noise_reset nowB kB seedB b = (with_hs b0 None (Some hr), inr None)) as Rb.
  { unfold noise_reset. cbv zeta. km_cbn. by rewrite Ib, Hr. }
  pose proof (handle_first nowB impl (with_hs b0 None (Some hr)) hr hr1 hr2 lb m0 m1 eq_refl eq_refl eq_refl R0 F1 Hlb W1 F2) as H1.
  destruct (handle_second nowA impl (with_hs (with_msg_nr a0 1) (Some nowA) (Some hi1)) b kB hi1 hi2 hi3 la lb m1 m2 ti eq_refl eq_refl eq_refl Pb Hlb R1 F3 S1 Aab Hla W2 F4 T1 Himpl) as (a2 & H2 & Sa).
  destruct (handle_third nowB impl (with_hs (with_msg_nr (with_hs b0 None (Some hr)) 2) (Some nowB) (Some hr2)) a kA hr2 hr3 la m2 tr eq_refl eq_refl eq_refl Pa Hla R2 F5 S2 Aba T2 Himpl) as (b3 & H3 & Sb).
  do 10 eexists. split; [exact Ra|]. split; [exact Rb|]. split; [exact H1|]. split; [exact H2|]. split; [exact H3|]. split; [exact Sa|]. split; [exact Sb|].
  split; [|done]. unfold mirrored. cbn [send_zpis recv_zpis send_hmac_key recv_hmac_key codec sa_new]. km_cbn. split_and!; try done.
  - destruct (impl =? KM_ID_NOISE); [by apply noise_codec_pair|apply null_codec_pair].
  - destruct (impl =? KM_ID_NOISE); [by apply noise_codec_pair|apply null_codec_pair].
Qed.
End handshake.

(** ** Authentication *)

Section authentication.
Context {P : Pki} {SN : Snow} {SC : SnowCounts} (KM_ID_NOISE KM_ID_NULL impl : Z) (Himpl : impl = KM_ID_NOISE ∨ impl = KM_ID_NULL).
Implicit Types n : KmNoise.
Abbreviation handle := (noise_handle_message KM_ID_NOISE KM_ID_NULL).

(** What the key manager does with its machine: a reset first, then messages from
    anywhere, ticks and resets. *)
Inductive noise_run : KmNoise → Prop :=
| run_start now k seed n0 n r : noise_reset now k seed n0 = (n, r) → noise_run n
| run_message now m n n' r : noise_run n → handle now m impl n = Ret (n', r) → noise_run n'
| run_tick now n n' r : noise_run n → noise_tick now n = (n', r) → noise_run n'
| run_reset now k seed n n' r : noise_run n → noise_reset now k seed n = (n', r) → noise_run n'.

(** While it configures, it has a handshake that is not finished, and counts its messages. *)
Definition noise_inv n : Prop := n_state n = Configuring → ∃ hs, hs_state n = Some hs ∧ hs_count hs = msg_nr n ∧ 0 <= msg_nr n < 3.

Lemma create_counts n hs n' hs' r : 0 <= msg_nr n < 3 → hs_count hs = msg_nr n → create_hs_message n hs = (n', hs', r) →
  match r with
  | inr m => n' = with_msg_nr n (msg_nr n + 1) ∧ hs_count hs' = msg_nr n + 1
  | inl _ => n_state n' = n_state n
  end.
Proof.
  intros Hn Hc. unfold create_hs_message. destruct (if msg_carries_zpi_payload (msg_nr n) then _ else _) as [e|payload]; [by intros [= <- <- <-]|].
  destruct (hs_write_message hs payload MSG_BUF_SIZE) as [hs1 [m|]] eqn:E; intros [= <- <- <-]; [|done]. apply count_write in E. rewrite Z.mod_small by lia. split; [done|lia].
Qed.

Lemma noise_reset_inv now k seed n n' r : noise_reset now k seed n = (n', r) → noise_inv n'.
Proof.
  unfold noise_reset. cbv zeta. set (n0 := mk_noise _ _ _ _ _ _ _ _ _ _ _ _ _). destruct (build_handshake _ _ _) as [hs|] eqn:Eb; [|by intros [= <- <-]].
  apply count_build in Eb. destruct (initiate n0).
  - destruct (create_hs_message n0 hs) as [[n1 hs1] [e|m]] eqn:Ec; [by intros [= <- <-]|]. apply create_counts in Ec as [-> Ec]; [|cbn; lia|done].
    intros [= <- <-] _. exists hs1. cbn in *. split; [done|]. lia.
  - intros [= <- <-] _. exists hs. cbn in *. split; [done|]. lia.
Qed.

Lemma tick_inv now n n' r : noise_inv n → noise_tick now n = (n', r) → noise_inv n'.
Proof.
  intros Hi. unfold noise_tick. destruct (n_state n) eqn:Es, (hs_state n) as [hs|] eqn:Eh, (hs_sent_t n) as [t|] eqn:Et; try (by intros [= <- <-]).
  destruct (_ <? _); by intros [= <- <-].
Qed.

(** What follows a message that was read. *)
Lemma answer_inv now n hs n' r : n_state n = Configuring → hs_count hs = msg_nr n → 1 <= msg_nr n <= 3 → answer_handshake KM_ID_NOISE KM_ID_NULL now impl n hs = (n', r) →
  noise_inv n' ∧ ∀ sa, n_state n' = TransportMode sa → 2 <= msg_nr n ∧ peer_cert sa = n_peer_cert n ∧ Some (send_zpis sa) = n_send_zpis n ∧
    Some (send_hmac_key sa) = n_send_hmac_key n ∧ recv_zpis sa = n_recv_zpis n ∧ recv_hmac_key sa = n_recv_hmac_key n.
Proof using Himpl.
  intros Hs Hc Hn. unfold answer_handshake. cbv zeta.
  assert (∀ x hs0 out n1 r1, n_state x = Configuring → finish_handshake KM_ID_NOISE KM_ID_NULL impl x hs0 out = (n1, r1) →
    noise_inv n1 ∧ ∀ sa, n_state n1 = TransportMode sa → peer_cert sa = n_peer_cert x ∧ Some (send_zpis sa) = n_send_zpis x ∧
      Some (send_hmac_key sa) = n_send_hmac_key x ∧ recv_zpis sa = n_recv_zpis x ∧ recv_hmac_key sa = n_recv_hmac_key x) as Hfin.
  { intros x hs0 out n1 r1 Hx. unfold finish_handshake. destruct (n_send_zpis x) as [z|] eqn:Ez; [|by intros [= <- <-]]. destruct (n_send_hmac_key x) as [k|] eqn:Ek; [|by intros [= <- <-]].
    destruct (into_stateless_transport_mode hs0) as [t|]; [|by intros [= <- <-]]. cbv zeta.
    destruct (Z.eqb_spec impl KM_ID_NOISE) as [->|Hne]; [|destruct (Z.eqb_spec impl KM_ID_NULL) as [->|Hne']; [|by destruct Himpl]]; intros [= <- <-]; (split; [done|]); by intros sa [= <-]. }
  rewrite count_finished, Hc. destruct (Z.eqb_spec (msg_nr n) 3) as [E3|Hne].
  { intros E. apply Hfin in E as [Hi Ht]; [|done]. split; [done|]. intros sa Hsa. split; [lia|]. by apply Ht. }
  destruct (create_hs_message n hs) as [[n1 hs1] [e|m]] eqn:Ec; [by intros [= <- <-]|]. apply create_counts in Ec as [-> Ec]; [|lia|done].
  rewrite count_finished, Ec. destruct (Z.eqb_spec (msg_nr n + 1) 3) as [E3|Hne3].
  - intros E. apply Hfin in E as [Hi Ht]; [|done]. split; [done|]. intros sa Hsa. split; [lia|]. by apply Ht.
  - intros [= <- <-]. split.
    + intros _. exists hs1. cbn. split; [done|]. lia.
    + intros sa. cbn. by rewrite Hs.
Qed.

(** The parameters and the certificate of a payload, and how far they were checked. *)
Definition authenticated n (payload pk : bytes) (sa : KmTransportSA PeerCertificate) : Prop :=
  (∃ km rest, read_from_prefix keyMsg payload = Some (km, rest) ∧ send_zpis sa = mk_zpi_pair (zpi_full_encr km) (zpi_transit_hmac km) ∧ send_hmac_key sa = hmac_key km ∧
     process_payload (certx n) rest pk = inr (peer_cert sa)) ∧
  recv_zpis sa = n_recv_zpis n ∧ recv_hmac_key sa = n_recv_hmac_key n ∧
  (∀ c, peer_cert sa = Some c → public_key_bytes (get_cert c) = pk) ∧
  (verify_cert n = true → ∀ a, authority_cert (certx n) = Some a → ∃ c, peer_cert sa = Some (Verified c) ∧ pki_verify c a = true).

Lemma process_payload_key x payload pk c : process_payload x payload pk = inr (Some c) →
  public_key_bytes (get_cert c) = pk ∧ (is_verified c = true → ∃ a, authority_cert x = Some a ∧ pki_verify (get_cert c) a = true).
Proof.
  unfold process_payload. destruct (read_from_prefix _ _) as [[l rest]|]; [|done]. destruct (l =? 0); [done|]. destruct (_ <? _); [done|].
  destruct (from_der _) as [cert|]; [|done]. cbv zeta. destruct (bool_decide _) eqn:Eb; [|done]. apply bool_decide_eq_true in Eb. cbn [negb].
  destruct (authority_cert x) as [a|]; [destruct (pki_verify cert a) eqn:Ev|]; intros [= <-]; cbn; (split; [done|]); naive_solver.
Qed.

Lemma parse_ok n payload pk n' : parse_km_payload n payload pk = (n', inr tt) → ∃ km rest cert, read_from_prefix keyMsg payload = Some (km, rest) ∧
  process_payload (certx n) rest pk = inr cert ∧ n' = with_peer n (Some (mk_zpi_pair (zpi_full_encr km) (zpi_transit_hmac km))) (Some (hmac_key km)) cert.
Proof.
  unfold parse_km_payload. destruct (read_from_prefix keyMsg payload) as [[km rest]|]; [|done]. cbv zeta. km_cbn.
  destruct (process_payload (certx n) rest pk) as [e|cert] eqn:Ep; [done|]. intros [= <-]. by exists km, rest, cert.
Qed.

(** The step that ends the handshake is a step that reads parameters and certificate. *)
Lemma handle_step now m n n' r : noise_inv n → n_state n = Configuring → handle now m impl n = Ret (n', r) →
  noise_inv n' ∧ ∀ sa, n_state n' = TransportMode sa → ∃ hs hs1 payload pk, hs_state n = Some hs ∧ hs_read_message hs m MSG_BUF_SIZE = (hs1, Some payload) ∧
    get_remote_static hs1 = Some pk ∧ authenticated n payload pk sa.
Proof using Himpl.
  intros Hi Hs. destruct (Hi Hs) as (hs & Hh & Hc & Hn). unfold noise_handle_message. rewrite Hs, Hh. cbv zeta.
  destruct (hs_read_message hs m MSG_BUF_SIZE) as [hs1 [payload|]] eqn:Er; [|by intros [= <- <-]]. km_cbn. apply count_read in Er as Hc1.
  rewrite Z.mod_small by lia. destruct (msg_carries_zpi_payload (msg_nr n)) eqn:Ec.
  - destruct (get_remote_static hs1) as [pk|] eqn:Ek; [|by intros [= <- <-]].
    set (n1 := with_msg_nr _ _). destruct (parse_km_payload n1 payload pk) as [n2 [e|[]]] eqn:Ep; [by intros [= <- <-]|].
    apply parse_ok in Ep as (km & rest & cert & Hkm & Hcert & ->). km_cbn.
    destruct (verify_cert n1 && _ && _) eqn:Ev; [by intros [= <- <-]|]. intros [=E]. apply answer_inv in E as [Hi' Ht]; [|by cbn|cbn; lia|cbn; lia].
    split; [done|]. intros sa Hsa. destruct (Ht sa Hsa) as (_ & Hpc & Hz & Hk & Hrz & Hrk). cbn in Hpc, Hz, Hk, Hrz, Hrk. injection Hz as Hz. injection Hk as Hk.
    exists hs, hs1, payload, pk. split; [done|]. split; [done|]. split; [done|]. change (certx n1) with (certx n) in *. change (verify_cert n1) with (verify_cert n) in Ev.
    split; [exists km, rest; by rewrite Hpc|]. split; [done|]. split; [done|]. rewrite Hpc. split.
    + intros c ->. by apply process_payload_key in Hcert as [? _].
    + intros Hv a Ha. unfold requires_verification in Ev. rewrite Hv, Ha in Ev. destruct cert as [c|]; [|done]. apply process_payload_key in Hcert as [_ Hver].
      destruct c as [c|c]; [|done]. exists c. split; [done|]. destruct (Hver eq_refl) as (a' & Ha' & ?). naive_solver.
  - intros [=E]. apply answer_inv in E as [Hi' Ht]; [|by cbn|cbn; lia|cbn; lia]. split; [done|]. intros sa Hsa. destruct (Ht sa Hsa) as [H2 _]. cbn in H2.
    unfold msg_carries_zpi_payload in Ec. destruct (Z.eqb_spec (msg_nr n) 1), (Z.eqb_spec (msg_nr n) 2); try done; lia.
Qed.

Lemma run_inv n : noise_run n → noise_inv n.
Proof using Himpl.
  induction 1 as [now k seed n0 n r E|now m n n' r _ IH E|now n n' r _ IH E|now k seed n n' r _ IH E]; [by eapply noise_reset_inv| |by eapply tick_inv|by eapply noise_reset_inv].
  destruct (n_state n) eqn:Es; [by apply (handle_step now m n n' r)| |].
  all: unfold noise_handle_message in E; rewrite Es in E; by injection E as <- <-.
Qed.

Lemma tick_transport now n n' r sa : noise_tick now n = (n', r) → n_state n' = TransportMode sa → n_state n = TransportMode sa.
Proof.
  unfold noise_tick. destruct (n_state n) eqn:Es, (hs_state n) as [hs|], (hs_sent_t n) as [t|]; try (intros [= <- <-]; by rewrite Es). destruct (_ <? _); intros [= <- <-]; [done|by rewrite Es].
Qed.

Lemma reset_transport now k seed n n' r sa : noise_reset now k seed n = (n', r) → n_state n' = TransportMode sa → False.
Proof.
  unfold noise_reset. cbv zeta. set (n0 := mk_noise _ _ _ _ _ _ _ _ _ _ _ _ _). destruct (build_handshake _ _ _) as [hs|]; [|by intros [= <- <-]]. destruct (initiate n0); [|by intros [= <- <-]].
  unfold create_hs_message. change (msg_nr n0) with 0. cbn [msg_carries_zpi_payload Z.eqb orb]. destruct (hs_write_message hs [] MSG_BUF_SIZE) as [hs1 [m|]]; by intros [= <- <-].
Qed.
End authentication.

(** ** A toy pattern with three messages, for examples *)

Definition sample_public (k : bytes) : bytes := take 32 (k ++ replicate 32 0).

Record sample_hs : Type := mk_sample_hs { sh_initiate : bool; sh_private : bytes; sh_count : Z; sh_remote : option bytes }.

(** Whose turn it is to write. *)
Definition sample_turn_of (hs : sample_hs) : bool := Bool.eqb (sh_initiate hs) (Z.even (sh_count hs)) && (sh_count hs <? 3).

Definition sample_write (hs : sample_hs) (p : bytes) (room : Z) : sample_hs * option bytes :=
  let m := (if sh_count hs =? 0 then [] else sample_public (sh_private hs)) ++ p in
  if sample_turn_of hs && (zlen m <=? room) then (mk_sample_hs (sh_initiate hs) (sh_private hs) (sh_count hs + 1) (sh_remote hs), Some m) else (hs, None).

Definition sample_read (hs : sample_hs) (m : bytes) (room : Z) : sample_hs * option bytes :=
  if negb (sample_turn_of hs) && (sh_count hs <? 3) && (zlen m <=? room) then
    if sh_count hs =? 0 then (mk_sample_hs (sh_initiate hs) (sh_private hs) 1 (sh_remote hs), Some m)
    else if zlen m <? 32 then (hs, None)
    else (mk_sample_hs (sh_initiate hs) (sh_private hs) (sh_count hs + 1) (Some (take 32 m)), Some (drop 32 m))
  else (hs, None).

#[global] Instance sample_snow : Snow := {|
  HandshakeState := sample_hs;
  TransportState := unit;
  derive_public_key := sample_public;
  build_handshake initiate private _ := Some (mk_sample_hs initiate private 0 None);
  hs_write_message := sample_write;
  hs_read_message := sample_read;
  get_remote_static := sh_remote;
  is_handshake_finished hs := sh_count hs =? 3;
  into_stateless_transport_mode _ := Some tt;
  ts_write_message _ _ l m := if zlen m <? zlen l + 16 then (m, None) else (l ++ replicate 16 0 ++ drop (length l + 16) m, Some (zlen l + 16));
  ts_read_message _ _ e m := let l := take (length e - 16) e in if zlen m <? zlen l then (m, inl SnowOther) else (l ++ drop (length l) m, inr (zlen l));
|}.

Lemma sample_public_length k : length (sample_public k) = 32%nat.
Proof. unfold sample_public. rewrite length_take, length_app, length_replicate. lia. Qed.

Lemma sample_pair : transport_pair tt tt.
Proof.
  intros nonce l m _ _ Hm. exists (l ++ replicate 16 0). cbn [ts_write_message ts_read_message sample_snow]. pose proof (zlen_nonneg l).
  assert (zlen (l ++ replicate 16 0) = zlen l + 16) as E by (rewrite zlen_app; done). destruct (Z.ltb_spec (zlen m) (zlen l + 16)); [lia|].
  split; [|split; [done|]].
  - rewrite E, length_app, length_replicate, <- app_assoc. done.
  - intros m' Hm'. rewrite length_app, length_replicate. replace (length l + 16 - 16)%nat with (length l) by lia. rewrite take_app_length.
    destruct (Z.ltb_spec (zlen m') (zlen l)); [lia|done].
Qed.

Lemma sample_written priv count remote initiate p : initiate = Z.even count → 0 <= count < 3 → zlen p <= 3800 →
  sample_write (mk_sample_hs initiate priv count remote) p MSG_BUF_SIZE
  = (mk_sample_hs initiate priv (count + 1) remote, Some ((if count =? 0 then [] else sample_public priv) ++ p)).
Proof.
  intros -> Hc Hp. unfold sample_write, sample_turn_of, MSG_BUF_SIZE. cbn [sh_count sh_initiate sh_private sh_remote]. rewrite Bool.eqb_reflx.
  destruct (Z.ltb_spec count 3); [|lia]. cbn [andb]. rewrite zlen_app. assert (zlen (if count =? 0 then [] else sample_public priv) <= 32) as Hl.
  { destruct (count =? 0); [unfold zlen; cbn; lia|]. unfold zlen. rewrite sample_public_length. lia. }
  destruct (Z.leb_spec (zlen (if count =? 0 then [] else sample_public priv) + zlen p) 4096); [done|lia].
Qed.

Lemma sample_got priv count remote initiate k p : initiate = negb (Z.even count) → 0 < count < 3 → zlen p <= 3800 →
  sample_read (mk_sample_hs initiate priv count remote) (sample_public k ++ p) MSG_BUF_SIZE = (mk_sample_hs initiate priv (count + 1) (Some (sample_public k)), Some p).
Proof.
  intros -> Hc Hp. unfold sample_read, sample_turn_of, MSG_BUF_SIZE. cbn [sh_count sh_initiate sh_private sh_remote].
  assert (Bool.eqb (negb (Z.even count)) (Z.even count) = false) as -> by (by destruct (Z.even count)). cbn [andb negb]. destruct (Z.ltb_spec count 3); [|lia]. cbn [andb].
  rewrite zlen_app. assert (zlen (sample_public k) = 32) as E by (unfold zlen; by rewrite sample_public_length). rewrite E. pose proof (zlen_nonneg p).
  destruct (Z.leb_spec (32 + zlen p) 4096); [|lia]. destruct (Z.eqb_spec count 0); [lia|]. destruct (Z.ltb_spec (32 + zlen p) 32); [lia|].
  by rewrite take_app_length', drop_app_length' by (symmetry; apply sample_public_length).
Qed.

#[global] Instance sample_snow_laws : SnowLaws.
Proof.
  split.
  - intros i k seed _. eexists. done.
  - intros ki kr si sr hi hr p1 p2 [= <-] [= <-] H1 H2.
    eexists _, _, _, _, _, _, _, _, _, tt, tt. cbn [hs_write_message hs_read_message is_handshake_finished get_remote_static derive_public_key into_stateless_transport_mode sample_snow].
    split; [by apply sample_written|]. split; [done|]. split; [done|]. split; [done|]. split; [by apply sample_written|]. split; [done|].
    split; [by apply sample_got|]. split; [done|]. split; [done|]. split; [by apply sample_written|]. split; [done|]. split; [done|].
    split; [by apply sample_got|]. split; [done|]. split; [done|]. split; [done|]. split; apply sample_pair.
Qed.

#[global] Instance sample_snow_counts : SnowCounts.
Proof.
  refine {| hs_count := sh_count |}.
  - by intros i k seed hs [= <-].
  - intros hs p n hs' m. cbn [hs_write_message sample_snow]. unfold sample_write. cbv zeta. destruct (_ && _); by intros [= <- <-].
  - intros hs m n hs' p. cbn [hs_read_message sample_snow]. unfold sample_read. destruct (_ && _ && _); [|done]. destruct (Z.eqb_spec (sh_count hs) 0) as [E|]; [by intros [= <- <-]; rewrite E|].
    destruct (_ <? _); by intros [= <- <-].
  - done.
Defined.

(** Certificates are a key and the number of their signer. *)
#[global] Instance sample_pki : Pki := {|
  Certificate := bytes * Z;
  from_der l := match l with s :: k => Some (k, s) | [] => None end;
  to_der c := if forallb in_u8 (c.2 :: c.1) then Some (c.2 :: c.1) else None;
  public_key_bytes := fst;
  pki_verify c a := c.2 =? a.2;
|}.

#[global] Instance sample_pki_laws : PkiLaws.
Proof.
  split; intros [k s] l; cbn [to_der sample_pki fst snd]; destruct (forallb _ _) eqn:E; try done; intros [= <-]; [done|]. split; [done|].
  rewrite forallb_forall in E. apply list.Forall_forall. intros x Hx%list_elem_of_In%E. unfold in_u8 in Hx. unfold is_u8. lia.
Qed.

(** An adapter that insists on a certificate signed by 9, and a node that has one. *)
Definition sample_key (b : Z) : bytes := replicate 32 b.
Definition sample_adapter_km : KmNoise :=
  noise_new true true (keypair_new (sample_key 1)) (mk_zpi_pair 130 3) (mk_certx None (Some ([], 9))).
Definition sample_node_km : KmNoise :=
  noise_new false false (keypair_new (sample_key 2)) (mk_zpi_pair 132 5) (mk_certx (Some (sample_key 2, 9)) None).

(** C8: Key agreement.  An initiator and a responder whose certificates satisfy each
    other are, after the three messages of the handshake, both in transport
    mode, with associations that mirror each other: what one sends under (ZPIs,
    HMAC key, codec) is what the other receives under, each with the parameters
    the other chose, and each with the other's certificate. *)
Theorem handshake_agrees {P : Pki} {PL : PkiLaws} {SN : Snow} {SL : SnowLaws} (NOISE NULL nowA nowB impl : Z) (seedA seedB kA kB : bytes) (a b : KmNoise) :
  initiate a = true → initiate b = false → party_ok a kA → party_ok b kB → accepts a b → accepts b a → impl = NOISE ∨ impl = NULL →
  ∃ a1 a2 b1 b2 b3 m0 m1 m2 saA saB,
    noise_reset nowA kA seedA a = (a1, inr (Some m0)) ∧ noise_reset nowB kB seedB b = (b1, inr None) ∧
    noise_handle_message NOISE NULL nowB m0 impl b1 = Ret (b2, inr (Some m1)) ∧
    noise_handle_message NOISE NULL nowA m1 impl a1 = Ret (a2, inr (Some m2)) ∧
    noise_handle_message NOISE NULL nowB m2 impl b2 = Ret (b3, inr None) ∧
    n_state a2 = TransportMode saA ∧ n_state b3 = TransportMode saB ∧
    mirrored (if impl =? NOISE then NOISE_PADLEN else 0) saA saB ∧
    send_zpis saA = n_recv_zpis b ∧ recv_zpis saA = n_recv_zpis a ∧ send_hmac_key saA = kB ∧ recv_hmac_key saA = kA ∧
    peer_cert saA = presented a b ∧ peer_cert saB = presented b a.
Proof. apply handshake_run. Qed.

Lemma sample_parties : party_ok sample_adapter_km (sample_key 7) ∧ party_ok sample_node_km (sample_key 8).
Proof.
  assert (∀ x, is_u8 x → length (sample_key x) = 32%nat ∧ Forall is_u8 (sample_key x)) as Hk by (intros; split; [done|by apply list.Forall_replicate]).
  split; split; try done; try (apply Hk; unfold is_u8; lia); try (unfold is_u8; cbn; lia).
  - eexists. split; [reflexivity|vm_compute; discriminate].
  - eexists. split; [reflexivity|vm_compute; discriminate].
  - by intros c [= <-].
Qed.

Lemma handshake_agrees_witness :
  ∃ b1 b3 m0 m1 m2 r saB, noise_handle_message 1 0 5 m0 1 b1 = Ret r ∧ r.2 = inr (Some m1) ∧ noise_handle_message 1 0 5 m2 1 r.1 = Ret (b3, inr None) ∧
    n_state b3 = TransportMode saB ∧ send_zpis saB = mk_zpi_pair 130 3.
Proof.
  destruct sample_parties as [Pa Pb].
  destruct (handshake_agrees 1 0 5 5 1 [] [] (sample_key 7) (sample_key 8) sample_adapter_km sample_node_km eq_refl eq_refl Pa Pb)
    as (a1 & a2 & b1 & b2 & b3 & m0 & m1 & m2 & saA & saB & _ & _ & H1 & _ & H3 & _ & Sb & (Hz1 & Hz2 & _) & _ & Hz & _).
  - intros _. exists (sample_key 2, 9). reflexivity.
  - intros [=].
  - by left.
  - exists b1, b3, m0, m1, m2, (b2, inr (Some m1)), saB. split; [exact H1|]. split; [done|]. split; [exact H3|]. split; [exact Sb|]. rewrite <- Hz2, Hz. reflexivity.
Defined.

(** C9: Authentication.  Whatever messages reach a key manager, in whatever order,
    with ticks and restarts in between, it does not panic, and it enters
    transport mode only on a message in which the peer, under a Noise key that
    the handshake authenticated, sent its parameters: the association has those
    parameters, its certificate is for that key, and if this end insists on
    verification the certificate is signed by its authority. *)
Theorem transport_authenticated {P : Pki} {SN : Snow} {SC : SnowCounts} (NOISE NULL impl now : Z) (m : bytes) (n : KmNoise) :
  impl = NOISE ∨ impl = NULL → noise_run NOISE NULL impl n →
  ∃ n' r, noise_handle_message NOISE NULL now m impl n = Ret (n', r) ∧
    ∀ sa, n_state n' = TransportMode sa →
      n_state n = TransportMode sa ∨
      ∃ hs hs1 payload pk, hs_state n = Some hs ∧ hs_read_message hs m MSG_BUF_SIZE = (hs1, Some payload) ∧ get_remote_static hs1 = Some pk ∧ authenticated n payload pk sa.
Proof.
  intros Hi Hrun. pose proof (run_inv NOISE NULL impl Hi n Hrun) as Hinv. destruct (n_state n) eqn:Es.
  - destruct (noise_handle_message NOISE NULL now m impl n) as [[n' r]|] eqn:E.
    + exists n', r. split; [done|]. intros sa Hsa. right. by apply (handle_step NOISE NULL impl Hi now m n n' r).
    + exfalso. destruct (Hinv Es) as (hs & Hh & _). unfold noise_handle_message in E. rewrite Es, Hh in E. cbv zeta in E.
      destruct (hs_read_message hs m MSG_BUF_SIZE) as [hs1 [payload|]]; [|done]. destruct (msg_carries_zpi_payload _); [|done].
      destruct (get_remote_static hs1) as [pk|]; [|done]. destruct (parse_km_payload _ payload pk) as [n2 [e|[]]]; [done|]. by destruct (_ && _).
  - exists n, (inl KmInvalidState). unfold noise_handle_message. rewrite Es. split; [done|]. intros sa' Hsa'. by left.
  - exists n, (inl KmInvalidState). unfold noise_handle_message. rewrite Es. split; [done|]. intros sa' Hsa'. congruence.
Qed.

(** The adapter's machine after the first message, and the node's answer. *)
Definition sample_answer : bytes := sample_public (sample_key 2) ++ as_bytes keyMsg (mk_key_msg 132 5 (sample_key 8)) ++ as_bytes U16 33 ++ 9 :: sample_key 2.

Lemma transport_authenticated_witness :
  match noise_handle_message 1 0 6 sample_answer 1 (noise_reset 5 (sample_key 7) [] sample_adapter_km).1 with
  | Ret (n', _) => ∃ sa, n_state n' = TransportMode sa ∧ peer_cert sa = Some (Verified (sample_key 2, 9))
  | Panic => False
  end.
Proof.
  set (n := (noise_reset 5 (sample_key 7) [] sample_adapter_km).1).
  destruct (transport_authenticated 1 0 1 6 sample_answer n (or_introl eq_refl)) as (n' & r & E & _).
  { by eapply (run_start 1 0 1 5 (sample_key 7) [] sample_adapter_km). }
  rewrite E. assert (match noise_handle_message 1 0 6 sample_answer 1 n with Ret (n', _) => match n_state n' with TransportMode sa => peer_cert sa | _ => None end | Panic => None end = Some (Verified (sample_key 2, 9))) as Ec by reflexivity.
  rewrite E in Ec. destruct (n_state n') as [|sa|] eqn:Es; [discriminate Ec| |discriminate Ec]. exists sa. split; [reflexivity|exact Ec].
Defined.
