(* ===== verification/Km.v ===== *)
(** The key manager of one link, [src/adapter/ph/src/km.rs]: it runs a state machine and
    says on a channel of signals how that machine fares.  The machine is an interface,
    [KeyManagerStateMachine]; Noise implements it. *)
From S2P Require Import Prelude Zdp NetDefs PacketBuf Transport KmNoise KmSafe.

(** What a call into a machine finds: the clock in milliseconds, and random values. *)
Record World : Type := mk_world { w_now : Z; w_key : bytes; w_seed : bytes }.

Record KmSettings : Type := mk_settings { zdp_km_type : Z; padlen : Z; alignment : Z; tick_interval : Z }.

(** [trait KeyManagerStateMachine], for machines [SM] that see certificates [C]. *)
Class KeyManagerStateMachine (SM C : Type) : Type := {
  get_settings : SM → KmSettings;
  get_state : SM → KmSMState C;
  sm_reset : World → SM → SM * (KmError + option bytes);
  sm_handle_message : World → bytes → Z → SM → outcome (SM * (KmError + option bytes));
  sm_tick : World → SM → SM * (KmError + option bytes);
}.

Definition is_error {C} (s : KmSMState C) : bool := match s with ErrorState => true | _ => false end.

(** What the documentation of the trait asks for: a reset clears the error state, only a
    reset does, and an association that is replaced differs in what [==] compares. *)
Class MachineLaws (SM C : Type) `{KeyManagerStateMachine SM C} : Prop := {
  reset_configures w m m' r : sm_reset w m = (m', inr r) → get_state m' = Configuring;
  message_keeps_error w l k m m' r : sm_handle_message w l k m = Ret (m', r) → is_error (get_state m) = true → is_error (get_state m') = true;
  tick_keeps_error w m m' r : sm_tick w m = (m', r) → is_error (get_state m) = true → is_error (get_state m') = true;
  message_renews w l k m m' r a b : sm_handle_message w l k m = Ret (m', r) → get_state m = TransportMode a → get_state m' = TransportMode b → sa_eqb b a = true → b = a;
  tick_renews w m m' r a b : sm_tick w m = (m', r) → get_state m = TransportMode a → get_state m' = TransportMode b → sa_eqb b a = true → b = a;
}.

Inductive KmSignal (C : Type) : Type :=
| SigReset | SigError | SigSaIdChange (old new : Z) | SigSaEstablished (sa : KmTransportSA C) | SigTermination.
Arguments SigReset {_}.
Arguments SigError {_}.
Arguments SigSaIdChange {_} _ _.
Arguments SigSaEstablished {_} _.
Arguments SigTermination {_}.

(** [KmLinkMsg] on one of the two channels. *)
Inductive KmLinkMsg (C : Type) : Type := LinkSignal (link_id : Z) (sig : KmSignal C) | LinkBuffer (link_id : Z) (msg : bytes).
Arguments LinkSignal {_} _ _.
Arguments LinkBuffer {_} _ _.

(** Whether somebody still receives on the two channels. *)
Record Channels : Type := mk_channels { signals_open : bool; buffers_open : bool }.

(** What wakes the loop of [start]. *)
Inductive KmEvent : Type := EvCancelled | EvMessage (m : bytes) | EvTick.

Section km.
Context {SM C : Type} {KM : KeyManagerStateMachine SM C} (SA_ID_BITS : Z).

Record KmState : Type := mk_km_state {
  statemachine : SM;
  link_id : Z;
  kmsettings : KmSettings;
  km_sa_id : Z;
  ts : KmTransportSA C;
  restart_request : bool;
  error_signaled : bool;
}.

Definition set_machine (s : KmState) (m : SM) : KmState := mk_km_state m (link_id s) (kmsettings s) (km_sa_id s) (ts s) (restart_request s) (error_signaled s).
Definition set_flags (s : KmState) (restart signaled : bool) : KmState := mk_km_state (statemachine s) (link_id s) (kmsettings s) (km_sa_id s) (ts s) restart signaled.
Definition set_sa (s : KmState) (id : Z) (sa : KmTransportSA C) : KmState := mk_km_state (statemachine s) (link_id s) (kmsettings s) id sa (restart_request s) (error_signaled s).
Definition with_sa_id (sa : KmTransportSA C) (id : Z) : KmTransportSA C :=
  mk_sa id (recv_zpis sa) (send_zpis sa) (send_hmac_key sa) (recv_hmac_key sa) (codec sa) (peer_cert sa).

(** [KeyManager::new] *)
Definition km_new (link_id : Z) (m : SM) : KmState := mk_km_state m link_id (get_settings m) 0 sa_default false false.

Definition get_transport_state (s : KmState) : option (KmTransportSA C) :=
  if km_sa_id s =? 0 then None else Some (with_sa_id (ts s) (km_sa_id s)).

Definition restart (s : KmState) : KmState * (KmError + unit) :=
  if is_error (get_state (statemachine s)) then (set_flags s true (error_signaled s), inr tt) else (s, inl KmInvalidState).

(** ** The manager's effects: its state, what it sends, an error that ends it *)

Definition Km (A : Type) : Type := KmState → outcome (KmState * list (KmLinkMsg C) * (KmError + A)).

#[global] Instance km_ret : MRet Km := λ A x s, Ret (s, [], inr x).
#[global] Instance km_bind : MBind Km := λ A B f m s,
  match m s with
  | Ret (s, out, inr x) => match f x s with Ret (s, out', r) => Ret (s, out ++ out', r) | Panic => Panic end
  | Ret (s, out, inl e) => Ret (s, out, inl e)
  | Panic => Panic
  end.

Definition km_raise {A} (e : KmError) : Km A := λ s, Ret (s, [], inl e).
Definition km_get : Km KmState := λ s, Ret (s, [], inr s).
Definition km_put (s : KmState) : Km unit := λ _, Ret (s, [], inr tt).
Definition machine_reset (w : World) : Km (KmError + option bytes) := λ s, let '(m, r) := sm_reset w (statemachine s) in Ret (set_machine s m, [], inr r).
Definition machine_tick (w : World) : Km (KmError + option bytes) := λ s, let '(m, r) := sm_tick w (statemachine s) in Ret (set_machine s m, [], inr r).
Definition machine_message (w : World) (l : bytes) (km_impl : Z) : Km (KmError + option bytes) := λ s,
  match sm_handle_message w l km_impl (statemachine s) with Ret (m, r) => Ret (set_machine s m, [], inr r) | Panic => Panic end.

(** Whether it was sent: a send fails when nobody receives. *)
Definition send_signal (ch : Channels) (sig : KmSignal C) : Km bool := λ s,
  if signals_open ch then Ret (s, [LinkSignal (link_id s) sig], inr true) else Ret (s, [], inr false).
Definition send_buffer (ch : Channels) (msg : bytes) : Km bool := λ s,
  if buffers_open ch then Ret (s, [LinkBuffer (link_id s) msg], inr true) else Ret (s, [], inr false).

Definition or_enqueue_failed (m : Km bool) : Km unit := sent ← m; if (sent : bool) then mret tt else km_raise KmEnqueueFailed.

(** The message a machine answers with, if any. *)
Definition send_response (ch : Channels) (resp : option bytes) : Km unit :=
  match resp with Some r => or_enqueue_failed (send_buffer ch r) | None => mret tt end.

Definition start_state_machine_internal (ch : Channels) (w : World) : Km unit :=
  r ← machine_reset w;
  match r with
  | inl _ => km_raise KmMachineError
  | inr handshake => _ ← send_signal ch SigReset; send_response ch handshake
  end.

Definition tick_statemachine (ch : Channels) (w : World) (cur_state : KmSMState C) : Km unit :=
  s ← km_get;
  did_reset ←
    (if is_error cur_state && restart_request s then
       r ← machine_reset w;
       match r with
       | inl _ => km_raise KmMachineError
       | inr resp =>
           s ← km_get;
           _ ← km_put (set_flags s false (error_signaled s));
           _ ← send_response ch resp;
           _ ← or_enqueue_failed (send_signal ch SigReset);
           mret true
       end
     else mret false);
  if (did_reset : bool) then mret tt
  else
    r ← machine_tick w;
    send_response ch (match r with inr h => h | inl _ => None end).

(** The identifier of the next association. *)
Definition next_sa_id (id : Z) : Z := let id := (id + 1) mod 2 ^ SA_ID_BITS in if id =? 0 then 1 else id.

Definition handle_state_transition (ch : Channels) (prev_state next_state : KmSMState C) : Km unit :=
  s ← km_get;
  _ ← (if is_error prev_state then km_put (set_flags s false false) else mret tt);
  match next_state with
  | TransportMode ts =>
      s ← km_get;
      let prev_id := km_sa_id s in
      let cur_id := next_sa_id prev_id in
      let my_sa := with_sa_id ts cur_id in
      _ ← km_put (set_sa s cur_id my_sa);
      _ ← or_enqueue_failed (send_signal ch (SigSaIdChange prev_id cur_id));
      or_enqueue_failed (send_signal ch (SigSaEstablished my_sa))
  | ErrorState =>
      s ← km_get;
      if error_signaled s then mret tt
      else
        _ ← or_enqueue_failed (send_signal ch SigError);
        s ← km_get;
        km_put (set_flags s (restart_request s) true)
  | Configuring => mret tt
  end.

Definition dispatch_km_message (ch : Channels) (w : World) (km_impl : Z) (inmsg : bytes) : Km unit :=
  r ← machine_message w inmsg km_impl;
  send_response ch (match r with inr h => h | inl _ => None end).

(** One turn of the loop of [start]: whether there is another. *)
Definition loop_turn (ch : Channels) (w : World) (km_impl : Z) (ev : KmEvent) : Km bool :=
  s ← km_get;
  let prev_state := get_state (statemachine s) in
  match ev with
  | EvCancelled => _ ← send_signal ch SigTermination; mret false
  | EvMessage _ | EvTick =>
      _ ← (match ev with EvMessage m => dispatch_km_message ch w km_impl m | _ => tick_statemachine ch w prev_state end);
      s ← km_get;
      let next_state := get_state (statemachine s) in
      _ ← (if km_state_eqb next_state prev_state then mret tt else handle_state_transition ch prev_state next_state);
      mret true
  end.

(** What happens to a manager that runs: turns of its loop, and calls to [restart] from
    another task.  [restart] only sets a flag, under the lock and in the error state, so it
    may as well fall between two turns. *)
Inductive KmInput : Type := InTurn (w : World) (ev : KmEvent) | InRestart.

Fixpoint km_loop (ch : Channels) (km_impl : Z) (ins : list KmInput) : Km unit :=
  match ins with
  | [] => mret tt
  | InRestart :: ins => s ← km_get; _ ← km_put (restart s).1; km_loop ch km_impl ins
  | InTurn w ev :: ins => go_on ← loop_turn ch w km_impl ev; if (go_on : bool) then km_loop ch km_impl ins else mret tt
  end.

(** [KeyManager::start] *)
Definition start (ch : Channels) (w : World) (km_impl : Z) (ins : list KmInput) : Km unit :=
  _ ← start_state_machine_internal ch w; km_loop ch km_impl ins.

(** ** What the signals mean *)

(** What a listener knows of a link. *)
Record View : Type := mk_view { v_sa : option (KmTransportSA C); v_next : option Z; v_error : bool }.
Definition view_new : View := mk_view None None false.
Definition v_id (v : View) : Z := match v_sa v with Some sa => sa_id sa | None => 0 end.

(** The signals a listener can expect, and what they tell. *)
Inductive signal_step : View → KmSignal C → View → Prop :=
| tells_reset sa e : signal_step (mk_view sa None e) SigReset (mk_view sa None false)
| tells_error sa : signal_step (mk_view sa None false) SigError (mk_view sa None true)
| tells_id sa e new : new ≠ 0 → new = next_sa_id (v_id (mk_view sa None e)) →
    signal_step (mk_view sa None e) (SigSaIdChange (v_id (mk_view sa None e)) new) (mk_view sa (Some new) e)
| tells_sa sa sa' new e : sa_id sa' = new → signal_step (mk_view sa (Some new) e) (SigSaEstablished sa') (mk_view (Some sa') None false)
| tells_end v : v_next v = None → signal_step v SigTermination v.

Inductive signal_steps : View → list (KmSignal C) → View → Prop :=
| steps_nil v : signal_steps v [] v
| steps_cons v sig v' l v'' : signal_step v sig v' → signal_steps v' l v'' → signal_steps v (sig :: l) v''.

Definition signals (out : list (KmLinkMsg C)) : list (KmSignal C) := omap (λ m, match m with LinkSignal _ s => Some s | _ => None end) out.

(** The view that is right. *)
Definition view_of (s : KmState) : View := mk_view (get_transport_state s) None (is_error (get_state (statemachine s))).

Lemma steps_app v l v' l' v'' : signal_steps v l v' → signal_steps v' l' v'' → signal_steps v (l ++ l') v''.
Proof. induction 1; [done|]. intros. econstructor; eauto. Qed.

Lemma signals_app l l' : signals (l ++ l') = signals l ++ signals l'.
Proof. unfold signals. apply omap_app. Qed.

(** ** The operations, when they succeed *)

Lemma km_bind_ok {A B} (m : Km A) (f : A → Km B) s s' out y : (m ≫= f) s = Ret (s', out, inr y) →
  ∃ s1 o1 x o2, m s = Ret (s1, o1, inr x) ∧ f x s1 = Ret (s', o2, inr y) ∧ out = o1 ++ o2.
Proof.
  unfold mbind, km_bind. destruct (m s) as [[[s1 o1] [e|x]]|] eqn:E; [done| |done]. destruct (f x s1) as [[[s2 o2] r]|] eqn:E'; [|done].
  intros [= -> <- ->]. by exists s1, o1, x, o2.
Qed.

Lemma send_ok (ch : Channels) m s s' out : or_enqueue_failed m s = Ret (s', out, inr tt) → m s = Ret (s', out, inr true).
Proof.
  unfold or_enqueue_failed. intros (s1 & o1 & [] & o2 & E & E2 & ->)%km_bind_ok; [|done]. injection E2 as -> <-. by rewrite app_nil_r.
Qed.

Lemma send_signal_ok ch sig s s' out : or_enqueue_failed (send_signal ch sig) s = Ret (s', out, inr tt) → s' = s ∧ signals out = [sig].
Proof. intros E%(send_ok ch). unfold send_signal in E. destruct (signals_open ch); [|done]. by injection E as <- <-. Qed.

Lemma send_response_ok ch resp s s' out : send_response ch resp s = Ret (s', out, inr tt) → s' = s ∧ signals out = [].
Proof.
  destruct resp as [r|]; cbn [send_response]; [|by intros [= <- <-]]. intros E%(send_ok ch). unfold send_buffer in E. destruct (buffers_open ch); [|done]. by injection E as <- <-.
Qed.

Lemma dispatch_ok ch w km_impl l s s' out : dispatch_km_message ch w km_impl l s = Ret (s', out, inr tt) →
  ∃ m r, sm_handle_message w l km_impl (statemachine s) = Ret (m, r) ∧ s' = set_machine s m ∧ signals out = [].
Proof.
  unfold dispatch_km_message. intros (s1 & o1 & r & o2 & E & E2 & ->)%km_bind_ok. unfold machine_message in E.
  destruct (sm_handle_message _ _ _ _) as [[m r']|]; [|done]. injection E as <- <- ->. apply send_response_ok in E2 as [-> E2]. exists m, r. split_and!; [done|done|exact E2].
Qed.

Lemma tick_ok ch w cur s s' out : tick_statemachine ch w cur s = Ret (s', out, inr tt) →
  (∃ m h, is_error cur = true ∧ restart_request s = true ∧ sm_reset w (statemachine s) = (m, inr h) ∧ s' = set_flags (set_machine s m) false (error_signaled s) ∧ signals out = [SigReset]) ∨
  (is_error cur && restart_request s = false ∧ ∃ m r, sm_tick w (statemachine s) = (m, r) ∧ s' = set_machine s m ∧ signals out = []).
Proof.
  unfold tick_statemachine. intros (s1 & o1 & x & o2 & E & E2 & ->)%km_bind_ok. injection E as <- <- <-. apply km_bind_ok in E2 as (s1 & o3 & did & o4 & E & E2 & ->).
  destruct (is_error cur && restart_request s) eqn:Ec.
  - left. apply andb_prop in Ec as [? ?]. apply km_bind_ok in E as (s2 & o5 & r & o6 & E & E3 & ->). unfold machine_reset in E. destruct (sm_reset w (statemachine s)) as [m r'] eqn:Er.
    injection E as <- <- ->. destruct r as [e|h]; [done|]. apply km_bind_ok in E3 as (s3 & o7 & x & o8 & E & E3 & ->). injection E as <- <- <-.
    apply km_bind_ok in E3 as (s3 & o7 & x & o9 & E & E3 & ->). injection E as <- <- <-. apply km_bind_ok in E3 as (s3 & o7 & [] & o10 & E & E3 & ->). apply send_response_ok in E as [-> E7].
    apply km_bind_ok in E3 as (s3 & o8 & [] & o11 & E & E3 & ->). apply send_signal_ok in E as [-> E8]. injection E3 as <- <- <-. injection E2 as <- <-.
    exists m, h. split_and!; try done. rewrite !signals_app, E7, E8. done.
  - right. split; [done|]. injection E as <- <- <-. apply km_bind_ok in E2 as (s2 & o5 & r & o6 & E & E3 & ->). unfold machine_tick in E. destruct (sm_tick w (statemachine s)) as [m r'] eqn:Er.
    injection E as <- <- ->. apply send_response_ok in E3 as [-> E6]. exists m, r. split_and!; [done|done|exact E6].
Qed.

(** While a manager runs, what it remembers about errors is what its machine says. *)
Definition km_inv (s : KmState) : Prop := error_signaled s = is_error (get_state (statemachine s)).

Lemma next_sa_id_nonzero id : next_sa_id id ≠ 0.
Proof. unfold next_sa_id. cbv zeta. by destruct (Z.eqb_spec ((id + 1) mod 2 ^ SA_ID_BITS) 0). Qed.

Lemma v_id_view s e : v_id (mk_view (get_transport_state s) None e) = km_sa_id s.
Proof. unfold v_id, get_transport_state. cbn [v_sa]. by destruct (Z.eqb_spec (km_sa_id s) 0) as [->|]. Qed.

(** A transition, seen from behind: the machine has moved on, the rest has not. *)
Lemma transition_ok ch prev s s' out : handle_state_transition ch prev (get_state (statemachine s)) s = Ret (s', out, inr tt) →
  error_signaled s = is_error prev → (is_error prev = true → is_error (get_state (statemachine s)) = false) →
  km_inv s' ∧ statemachine s' = statemachine s ∧
  signal_steps (mk_view (get_transport_state s) None (if get_state (statemachine s) is Configuring then false else is_error prev && negb (is_error (get_state (statemachine s))))) (signals out) (view_of s').
Proof.
  unfold handle_state_transition. intros (s1 & o1 & x & o2 & E & E2 & ->)%km_bind_ok Hs Hp. injection E as <- <- <-. apply km_bind_ok in E2 as (s1 & o1 & x & o3 & E & E2 & ->).
  assert (o1 = [] ∧ s1 = (if is_error prev then set_flags s false false else s)) as [-> ->] by (destruct (is_error prev); by injection E as <- <- <-). clear E x. cbn [app].
  set (s1 := if is_error prev then _ else _) in *.
  assert (error_signaled s1 = false ∧ statemachine s1 = statemachine s ∧ km_sa_id s1 = km_sa_id s ∧ ts s1 = ts s) as (F1 & F2 & F3 & F4)
    by (unfold s1; destruct (is_error prev); [done|by rewrite Hs]).
  unfold view_of, km_inv. destruct (get_state (statemachine s)) as [|sa|] eqn:En.
  - injection E2 as <- <-. rewrite F1, F2, En. split; [done|]. split; [done|]. unfold get_transport_state. rewrite F3, F4. constructor.
  - apply km_bind_ok in E2 as (s2 & o4 & x & o5 & E & E2 & ->). injection E as <- <- <-. apply km_bind_ok in E2 as (s2 & o4 & x & o6 & E & E2 & ->). injection E as <- <- <-.
    apply km_bind_ok in E2 as (s2 & o4 & [] & o7 & E & E2 & ->). apply send_signal_ok in E as [-> E4]. apply send_signal_ok in E2 as [-> E7]. rewrite !signals_app, E4, E7. cbn [app signals omap list_omap].
    change (statemachine (set_sa s1 _ _)) with (statemachine s1). change (error_signaled (set_sa s1 _ _)) with (error_signaled s1). rewrite F1, F2, En. split; [done|]. split; [done|].
    unfold get_transport_state at 2. cbn [km_sa_id set_sa ts]. pose proof (next_sa_id_nonzero (km_sa_id s1)) as Hnz. destruct (Z.eqb_spec (next_sa_id (km_sa_id s1)) 0) as [|_]; [done|].
    rewrite F3 in *. cbn [is_error negb]. apply (steps_cons _ _ (mk_view (get_transport_state s) (Some (next_sa_id (km_sa_id s))) (is_error prev && true))).
    { pose proof (tells_id (get_transport_state s) (is_error prev && true) (next_sa_id (km_sa_id s))) as Ht. rewrite v_id_view in Ht. by apply Ht. }
    econstructor; [by apply tells_sa|]. constructor.
  - apply km_bind_ok in E2 as (s2 & o4 & x & o5 & E & E2 & ->). injection E as <- <- <-. rewrite F1 in E2. apply km_bind_ok in E2 as (s2 & o4 & [] & o6 & E & E2 & ->). apply send_signal_ok in E as [-> E4].
    apply km_bind_ok in E2 as (s2 & o5 & x & o7 & E & E2 & ->). injection E as <- <- <-. injection E2 as <- <-. rewrite !signals_app, E4. cbn [app signals omap list_omap].
    cbn [error_signaled statemachine set_flags]. rewrite F2, En. split; [done|]. split; [done|]. unfold get_transport_state. cbn [km_sa_id ts set_flags]. rewrite F3, F4.
    destruct (is_error prev); [by specialize (Hp eq_refl)|]. econstructor; [apply tells_error|]. constructor.
Qed.

Section tracking.
Context {ML : MachineLaws SM C}.

Lemma view_same s s' : km_sa_id s' = km_sa_id s → ts s' = ts s → get_state (statemachine s') = get_state (statemachine s) → view_of s' = view_of s.
Proof. intros E1 E2 E3. unfold view_of, get_transport_state. by rewrite E1, E2, E3. Qed.

(** A machine that has moved or not: the same state, or a transition that is seen. *)
Lemma state_eqb_same (a b : KmSMState C) : (∀ x y, a = TransportMode x → b = TransportMode y → sa_eqb y x = true → y = x) → km_state_eqb b a = true → b = a.
Proof. intros Hr. destruct a as [|x|], b as [|y|]; try done. cbn. intros E. by rewrite (Hr x y). Qed.

(** The end of a turn in which the machine went from [prev] to where it is without a reset. *)
Lemma moved_tracks ch (prev : KmSMState C) s s' out : error_signaled s = is_error prev →
  (is_error prev = true → is_error (get_state (statemachine s)) = true) →
  (∀ x y, prev = TransportMode x → get_state (statemachine s) = TransportMode y → sa_eqb y x = true → y = x) →
  (if km_state_eqb (get_state (statemachine s)) prev then mret tt else handle_state_transition ch prev (get_state (statemachine s))) s = Ret (s', out, inr tt) →
  km_inv s' ∧ signal_steps (mk_view (get_transport_state s) None (is_error prev)) (signals out) (view_of s').
Proof using.
  intros Hs Hk Hr. destruct (km_state_eqb _ prev) eqn:Ee.
  - apply (state_eqb_same prev) in Ee; [|done]. intros [= <- <-]. unfold km_inv, view_of. rewrite Ee. split; [done|constructor].
  - intros E. assert (is_error prev = false) as Hp.
    { destruct (is_error prev) eqn:Ep; [|done]. specialize (Hk eq_refl). destruct prev; try done. by destruct (get_state (statemachine s)). }
    apply transition_ok in E as (? & _ & Hst); [|done|by rewrite Hp]. rewrite Hp in *. split; [done|]. cbn [andb] in Hst. by destruct (get_state (statemachine s)).
Qed.

(** One turn: whatever wakes the loop, the signals tell what has become of the machine. *)
Lemma turn_tracks ch w km_impl ev s s' out go : loop_turn ch w km_impl ev s = Ret (s', out, inr go) → km_inv s →
  km_inv s' ∧ signal_steps (view_of s) (signals out) (view_of s').
Proof using ML.
  unfold loop_turn. intros (s1 & o1 & x & o2 & E & E2 & ->)%km_bind_ok Hi. injection E as <- <- <-.
  destruct (match ev with EvCancelled => true | _ => false end) eqn:Eev.
  { destruct ev; try done. apply km_bind_ok in E2 as (s1 & o3 & x & o4 & E & E2 & ->). injection E2 as <- <- <-. unfold send_signal in E. rewrite !signals_app.
    destruct (signals_open ch); injection E as <- <- <-; (split; [done|]); cbn; repeat econstructor. }
  assert ((_ ← (match ev with EvMessage m => dispatch_km_message ch w km_impl m | _ => tick_statemachine ch w (get_state (statemachine s)) end);
      s' ← km_get; _ ← (if km_state_eqb (get_state (statemachine s')) (get_state (statemachine s)) then mret tt else handle_state_transition ch (get_state (statemachine s)) (get_state (statemachine s')));
      mret true) s = Ret (s', o2, inr go)) as E by (destruct ev; done). clear E2.
  apply km_bind_ok in E as (s1 & o3 & [] & o4 & Ed & E2 & ->). apply km_bind_ok in E2 as (sx & o5 & x & o6 & E & E2 & ->). injection E as <- <- <-.
  apply km_bind_ok in E2 as (s2 & o5 & [] & o7 & Et & E2 & ->). injection E2 as <- <- <-. rewrite !signals_app. cbn [signals omap list_omap app]. rewrite app_nil_r.
  assert ((∃ m r, ((∃ l k, sm_handle_message w l k (statemachine s) = Ret (m, r)) ∨ sm_tick w (statemachine s) = (m, r)) ∧ s1 = set_machine s m ∧ signals o3 = []) ∨
    (∃ m h, is_error (get_state (statemachine s)) = true ∧ sm_reset w (statemachine s) = (m, inr h) ∧ s1 = set_flags (set_machine s m) false (error_signaled s) ∧ signals o3 = [SigReset])) as Hd.
  { destruct ev as [|l|]; [done| |].
    - apply dispatch_ok in Ed as (m & r & ? & -> & ?). left. eauto 10.
    - apply tick_ok in Ed as [(m & h & ? & _ & ? & -> & ?)|(_ & m & r & ? & -> & ?)]; [right|left]; eauto 10. }
  destruct Hd as [(m & r & Hm & -> & ->)|(m & h & He & Hm & -> & ->)]; cbn [app statemachine set_machine set_flags] in *.
  - eapply (moved_tracks ch (get_state (statemachine s)) (set_machine s m)) in Et as [? Hst]; [done|done| |].
    + cbn [statemachine set_machine]. intros He. destruct Hm as [(l & k & Hm)|Hm]; eauto using message_keeps_error, tick_keeps_error.
    + cbn [statemachine set_machine]. intros x y Hx Hy. destruct Hm as [(l & k & Hm)|Hm]; eauto using message_renews, tick_renews.
  - apply reset_configures in Hm as Hc. rewrite Hc in Et. destruct (get_state (statemachine s)) as [|sa|] eqn:Es; try done. cbn [km_state_eqb] in Et.
    pose proof (transition_ok ch ErrorState (set_flags (set_machine s m) false (error_signaled s)) s2 o5) as Ht. cbn [statemachine set_machine set_flags error_signaled] in Ht. rewrite Hc in Ht.
    destruct (Ht Et) as (? & _ & Hst); [by rewrite Hi, Es|done|]. split; [done|]. eapply steps_cons; [|exact Hst]. unfold view_of. rewrite Es. apply tells_reset.
Qed.

Lemma restart_keeps s : km_inv s → km_inv (restart s).1 ∧ view_of (restart s).1 = view_of s.
Proof. intros Hi. unfold restart. destruct (is_error (get_state (statemachine s))) eqn:E; [|done]. unfold km_inv, view_of in *. cbn. by rewrite E in *. Qed.

Lemma loop_tracks ch km_impl ins s s' out : km_loop ch km_impl ins s = Ret (s', out, inr tt) → km_inv s →
  km_inv s' ∧ signal_steps (view_of s) (signals out) (view_of s').
Proof using ML.
  revert s out. induction ins as [|[w ev|] ins IH]; intros s out; cbn [km_loop].
  - intros [= <- <-] Hi. split; [done|constructor].
  - intros (s1 & o1 & go & o2 & E & E2 & ->)%km_bind_ok Hi. apply turn_tracks in E as [Hi1 Hs1]; [|done]. rewrite signals_app. destruct go.
    + apply IH in E2 as [? ?]; [|done]. eauto using steps_app.
    + injection E2 as <- <-. rewrite app_nil_r. done.
  - intros (s1 & o1 & x & o2 & E & E2 & ->)%km_bind_ok Hi. injection E as <- <- <-. apply km_bind_ok in E2 as (s1 & o1 & x & o3 & E & E2 & ->). injection E as <- <- <-.
    destruct (restart_keeps s Hi) as [Hi1 Hv]. apply IH in E2 as [? Hs]; [|done]. rewrite Hv in Hs. done.
Qed.

Lemma start_tracks ch w km_impl ins (link : Z) m s out : signals_open ch = true → start ch w km_impl ins (km_new link m) = Ret (s, out, inr tt) →
  km_inv s ∧ signal_steps view_new (signals out) (view_of s).
Proof using ML.
  intros Hch. unfold start. intros (s1 & o1 & [] & o2 & E & E2 & ->)%km_bind_ok. unfold start_state_machine_internal in E. apply km_bind_ok in E as (s2 & o3 & r & o4 & E & E3 & ->).
  unfold machine_reset in E. destruct (sm_reset w _) as [m' r'] eqn:Er. injection E as <- <- ->. destruct r as [e|h]; [done|]. apply km_bind_ok in E3 as (s3 & o5 & x & o6 & E & E3 & ->).
  unfold send_signal in E. rewrite Hch in E. injection E as <- <- <-. apply send_response_ok in E3 as [-> E6]. apply reset_configures in Er.
  apply loop_tracks in E2 as [Hi Hs].
  - split; [done|]. rewrite !signals_app, E6. cbn [app signals omap list_omap]. eapply steps_cons; [|exact Hs]. unfold view_of. cbn. rewrite Er. apply tells_reset.
  - unfold km_inv. cbn. by rewrite Er.
Qed.
End tracking.
End km.

Arguments KmState : clear implicits.
Arguments View : clear implicits.

(** ** Noise is such a machine *)

Section noise_machine.
Context {P : Pki} {SN : Snow} (KM_ID_NOISE KM_ID_NULL : Z).

#[global] Instance noise_machine : KeyManagerStateMachine KmNoise PeerCertificate := {|
  get_settings _ := mk_settings KM_ID_NOISE NOISE_PADLEN 0 500;
  get_state := n_state;
  sm_reset w := noise_reset (w_now w) (w_key w) (w_seed w);
  sm_handle_message w := noise_handle_message KM_ID_NOISE KM_ID_NULL (w_now w);
  sm_tick w := noise_tick (w_now w);
|}.

Lemma create_state (n n' : KmNoise) hs hs' r : create_hs_message n hs = (n', hs', r) → n_state n' = n_state n.
Proof.
  unfold create_hs_message. destruct (if msg_carries_zpi_payload (msg_nr n) then _ else _) as [e|payload]; [by intros [= <- <- <-]|].
  destruct (hs_write_message hs payload MSG_BUF_SIZE) as [hs1 [m|]]; by intros [= <- <- <-].
Qed.

Lemma noise_idle_message w l k (n : KmNoise) : n_state n ≠ Configuring → sm_handle_message w l k n = Ret (n, inl KmInvalidState).
Proof. intros H. cbn. unfold noise_handle_message. by destruct (n_state n). Qed.

Lemma noise_idle_tick w (n : KmNoise) : n_state n ≠ Configuring → sm_tick w n = (n, inr None).
Proof. intros H. cbn. unfold noise_tick. by destruct (n_state n). Qed.

#[global] Instance noise_machine_laws : MachineLaws KmNoise PeerCertificate.
Proof.
  split.
  - intros w n n' r. cbn. unfold noise_reset. cbv zeta. set (n0 := mk_noise _ _ _ _ _ _ _ _ _ _ _ _ _). destruct (build_handshake _ _ _) as [hs|]; [|done]. destruct (initiate n0).
    + destruct (create_hs_message n0 hs) as [[n1 hs1] [e|m]] eqn:Ec; [done|]. apply create_state in Ec. intros [= <- <-]. done.
    + by intros [= <- <-].
  - intros w l k n n' r H He. rewrite noise_idle_message in H by (cbn in He; by destruct (n_state n)). by injection H as <- <-.
  - intros w n n' r H He. rewrite noise_idle_tick in H by (cbn in He; by destruct (n_state n)). by injection H as <- <-.
  - intros w l k n n' r a b H Ha Hb _. rewrite noise_idle_message in H by (cbn in Ha; by rewrite Ha). injection H as <- <-. congruence.
  - intros w n n' r a b H Ha Hb _. rewrite noise_idle_tick in H by (cbn in Ha; by rewrite Ha). injection H as <- <-. congruence.
Qed.
End noise_machine.
#[global] Arguments noise_machine {_ _} _ _.

(** ** Claims *)

Lemma step_deterministic {C} bits (v : View C) sig v1 v2 : signal_step bits v sig v1 → signal_step bits v sig v2 → v1 = v2.
Proof. intros H1 H2. inversion H1; subst; inversion H2; by subst. Qed.

Lemma steps_deterministic {C} bits (v : View C) l v1 v2 : signal_steps bits v l v1 → signal_steps bits v l v2 → v1 = v2.
Proof.
  intros H1. revert v2. induction H1 as [v|v sig v' l v'' Hs _ IH]; intros v2 H2; inversion H2; subst; [done|]. apply IH. by rewrite (step_deterministic bits v sig v' v'0).
Qed.

(** C12: The signals of a key manager are the whole truth.  However messages, ticks and
    restarts fall, the signals it sends follow the rules of [signal_step] (an
    error is reported once until the next reset, identifiers of associations
    are never zero and follow one another, each is announced before the
    association that bears it), and whoever follows them knows at the end
    whether the machine has failed and which association is in force, and can
    conclude nothing else. *)
Theorem signals_track_state {SM C : Type} {KM : KeyManagerStateMachine SM C} {ML : MachineLaws SM C} (bits link km_impl : Z) (ch : Channels) (w : World) (m : SM)
    (ins : list KmInput) (s : KmState SM C) (out : list (KmLinkMsg C)) :
  signals_open ch = true → start bits ch w km_impl ins (km_new link m) = Ret (s, out, inr tt) →
  signal_steps bits view_new (signals out) (view_of s) ∧ ∀ v, signal_steps bits view_new (signals out) v → v = view_of s.
Proof. intros Hch E. destruct (start_tracks bits ch w km_impl ins link m s out Hch E) as [_ Hs]. split; [done|]. intros v Hv. by eapply steps_deterministic. Qed.

Definition all_open : Channels := mk_channels true true.
Definition sample_world (now : Z) : World := mk_world now (sample_key 7) [].

(** A forged answer, the restart, and the node's answer. *)
Definition sample_inputs : list KmInput :=
  [InTurn (sample_world 6) (EvMessage [1; 2; 3]); InRestart; InTurn (sample_world 7) EvTick; InTurn (sample_world 8) (EvMessage sample_answer)].

Abbreviation sample_start :=
  (start (KM := noise_machine 1 0) 32 all_open (sample_world 5) 1 sample_inputs (km_new (KM := noise_machine 1 0) 9 sample_adapter_km)).

Lemma signals_track_state_witness :
  match sample_start with
  | Ret (s, out, inr tt) =>
      signal_steps 32 view_new (signals out) (view_of (KM := noise_machine 1 0) s) ∧ is_error (n_state (statemachine s)) = false ∧ km_sa_id s = 1 ∧ length (signals out) = 5%nat
  | _ => False
  end.
Proof.
  assert (match sample_start with Ret (s, out, inr _) => (is_error (n_state (statemachine s)), km_sa_id s, length (signals out)) | _ => (true, 0, 0%nat) end = (false, 1, 5%nat)) as Ec by (vm_compute; reflexivity).
  destruct sample_start as [[[s out] [e|[]]]|] eqn:E; [discriminate Ec| |discriminate Ec].
  injection Ec as E1 E2 E3. split; [|exact (conj E1 (conj E2 E3))]. apply (signals_track_state (KM := noise_machine 1 0) 32 9 1 all_open (sample_world 5) sample_adapter_km sample_inputs s out eq_refl).
  exact E.
Defined.

Lemma noise_turn_idle {P : Pki} {SN : Snow} (NOISE NULL bits : Z) ch w km_impl ev (s : KmState KmNoise PeerCertificate) sa :
  n_state (statemachine s) = TransportMode sa → ev ≠ EvCancelled → loop_turn (KM := noise_machine NOISE NULL) bits ch w km_impl ev s = Ret (s, [], inr true).
Proof.
  intros Hs Hev. assert (n_state (statemachine s) ≠ Configuring) as Hn by (by rewrite Hs). assert (set_machine s (statemachine s) = s) as Em by (by destruct s).
  unfold loop_turn, mbind, km_bind, km_get, dispatch_km_message, tick_statemachine, mbind, km_bind, km_get, machine_message, machine_tick. cbn [app fst snd].
  assert (∀ sa : KmTransportSA PeerCertificate, sa_eqb sa sa = true) as Hr.
  { intros x. unfold sa_eqb, zpi_pair_eqb. rewrite !Z.eqb_refl, !bool_decide_true by done. done. }
  assert (is_error (@get_state _ _ (noise_machine NOISE NULL) (statemachine s)) = false) as He by (cbn; by rewrite Hs).
  destruct ev as [|l|]; [done| |].
  - rewrite (noise_idle_message NOISE NULL w l km_impl (statemachine s) Hn), Em. cbn. rewrite Hs. cbn. by rewrite Hr.
  - rewrite He. cbn [andb mret km_ret]. rewrite (noise_idle_tick NOISE NULL w (statemachine s) Hn), Em. cbn. rewrite Hs. cbn. by rewrite Hr.
Qed.

Definition not_cancelled (i : KmInput) : Prop := match i with InTurn _ EvCancelled => False | _ => True end.

(** An established association is not disturbed.  Once the Noise machine of a link is
    in transport mode, nothing but the end of its manager changes it: whatever
    key management messages arrive on the link, forged or replayed, however
    time passes and whoever asks for a restart, the manager keeps its state,
    sends no message and no signal, and goes on running. *)
Theorem established_undisturbed {P : Pki} {SN : Snow} (NOISE NULL bits km_impl : Z) (ch : Channels) (s : KmState KmNoise PeerCertificate) (sa : KmTransportSA PeerCertificate) (ins : list KmInput) :
  n_state (statemachine s) = TransportMode sa → Forall not_cancelled ins →
  km_loop (KM := noise_machine NOISE NULL) bits ch km_impl ins s = Ret (s, [], inr tt).
Proof.
  intros Hs. induction ins as [|[w ev|] ins IH]; intros Hc; [done| |]; apply list.Forall_cons in Hc as [Hev Hc]; cbn [km_loop]; unfold mbind, km_bind.
  - rewrite (noise_turn_idle NOISE NULL bits ch w km_impl ev s sa Hs) by (by intros ->). by rewrite IH.
  - unfold km_get, km_put. cbn [app]. assert ((restart (KM := noise_machine NOISE NULL) s).1 = s) as -> by (unfold restart; cbn; by rewrite Hs). by rewrite IH.
Qed.

Lemma established_undisturbed_witness :
  match sample_start with
  | Ret (s, _, _) => km_loop (KM := noise_machine 1 0) 32 all_open 1 sample_inputs s = Ret (s, [], inr tt)
  | Panic => False
  end.
Proof.
  assert (match sample_start with Ret (s, _, _) => match n_state (statemachine s) with TransportMode _ => true | _ => false end | Panic => false end = true) as Ec by (vm_compute; reflexivity).
  destruct sample_start as [[[s out] r]|]; [|discriminate Ec]. destruct (n_state (statemachine s)) as [|sa|] eqn:Es; try discriminate Ec.
  apply (established_undisturbed 1 0 32 1 all_open s sa sample_inputs Es). by repeat constructor.
Defined.
