(* ===== verification/KmMux.v ===== *)
(** The key managers of all links and the two workers that serve them,
    [src/adapter/ph/src/km_multiplexor.rs], with what [src/adapter/ph/src/peer_table.rs]
    keeps for them.  A manager is a task of its own; a handle refers to it. *)
From S2P Require Import Prelude Zdp NetDefs PacketBuf Queues Transport KmNoise KmSafe Km.

Record ErrorStatus : Type := mk_error_status { error_count : Z; last_error_t : Z; restart_t : Z }.

Inductive KmMsgProcessingError : Type := LinkUnconfigured | EnqueueFailed.

(** A task is spawned, then runs the loop of [start] until it ends. *)
Inductive Phase : Type := Spawned | Running | Stopped.

(** What another task does. *)
Inductive TurnOf : Type := TurnMessage | TurnTick | TurnCancel.

Section mux.
Context {SM C : Type} {KM : KeyManagerStateMachine SM C} (SA_ID_BITS km_impl km_link_queue_size : Z).

Record KmTask : Type := mk_task { t_state : KmState SM C; t_phase : Phase; t_cancelled : bool; t_rx : Chan bytes }.

(** [PeerKmState], its handle the number of a task. *)
Record PeerKmState : Type := mk_peer_km { handle : option nat; transport_sa : option (KmTransportSA C) }.

(** The peer table as the managers see it, the worker's record of errors, the two channels,
    and the links that were told [LinkEvent::KeyingDone].  The channels are bounded in the
    code, where a manager waits for room in the middle of a turn: that delays what it does
    next, and nothing else. *)
Record Mux : Type := mk_mux {
  peers : gmap Z PeerKmState;
  tasks : list KmTask;
  status : gmap Z ErrorStatus;
  sig_queue : list (Z * KmSignal C);
  buf_queue : list (Z * bytes);
  keyed : list Z;
}.

Definition with_peers (mx : Mux) (p : gmap Z PeerKmState) : Mux := mk_mux p (tasks mx) (status mx) (sig_queue mx) (buf_queue mx) (keyed mx).
Definition with_tasks (mx : Mux) (t : list KmTask) : Mux := mk_mux (peers mx) t (status mx) (sig_queue mx) (buf_queue mx) (keyed mx).
Definition with_status (mx : Mux) (s : gmap Z ErrorStatus) : Mux := mk_mux (peers mx) (tasks mx) s (sig_queue mx) (buf_queue mx) (keyed mx).
Definition with_sigs (mx : Mux) (q : list (Z * KmSignal C)) : Mux := mk_mux (peers mx) (tasks mx) (status mx) q (buf_queue mx) (keyed mx).
Definition with_bufs (mx : Mux) (q : list (Z * bytes)) : Mux := mk_mux (peers mx) (tasks mx) (status mx) (sig_queue mx) q (keyed mx).
Definition with_keyed (mx : Mux) (l : list Z) : Mux := mk_mux (peers mx) (tasks mx) (status mx) (sig_queue mx) (buf_queue mx) l.

(** ** The peer table *)

Definition set_security_association (mx : Mux) (link_id : Z) (sa : KmTransportSA C) : Mux := with_peers mx (alter (λ p, mk_peer_km (handle p) (Some sa)) link_id (peers mx)).
Definition clear_security_association (mx : Mux) (link_id : Z) : Mux := with_peers mx (alter (λ p, mk_peer_km (handle p) None) link_id (peers mx)).
Definition is_security_association_established (mx : Mux) (link_id : Z) : bool :=
  match peers mx !! link_id with Some p => match transport_sa p with Some _ => true | None => false end | None => false end.
Definition set_km_handle (mx : Mux) (link_id : Z) (h : nat) : Mux := with_peers mx (alter (λ p, mk_peer_km (Some h) (transport_sa p)) link_id (peers mx)).

(** [clone_km_manager], [clone_km_tx_chan]: the task behind the handle. *)
Definition km_handle (mx : Mux) (link_id : Z) : option nat := peers mx !! link_id ≫= handle.

Definition remove_km_state (mx : Mux) (link_id : Z) : Mux * option nat :=
  let mx := clear_security_association mx link_id in
  (with_peers mx (alter (λ p, mk_peer_km None (transport_sa p)) link_id (peers mx)), km_handle mx link_id).

(** ** Managers *)

(** [add_noise_link]: the link must be in the table. *)
Definition add_noise_link (mx : Mux) (link_id : Z) (m : SM) : outcome Mux :=
  match peers mx !! link_id with
  | None => Panic
  | Some _ => Ret (set_km_handle (with_tasks mx (tasks mx ++ [mk_task (km_new link_id m) Spawned false (chan_new km_link_queue_size)])) link_id (length (tasks mx)))
  end.

Definition handle_inbound_km_msg (mx : Mux) (from_link : Z) (km_payload : bytes) : Mux * (KmMsgProcessingError + unit) :=
  match km_handle mx from_link ≫= λ id, (λ t, (id, t)) <$> tasks mx !! id with
  | None => (mx, inl LinkUnconfigured)
  | Some (id, t) =>
      match chan_try_send (t_rx t) km_payload with
      | inr rx => (with_tasks mx (<[id := mk_task (t_state t) (t_phase t) (t_cancelled t) rx]> (tasks mx)), inr tt)
      | inl _ => (mx, inl EnqueueFailed)
      end
  end.

(** [drop_link], up to where it waits for the task to end. *)
Definition drop_km_link (mx : Mux) (link_id : Z) : Mux :=
  let mx := clear_security_association mx link_id in
  let '(mx, h) := remove_km_state mx link_id in
  match h with
  | Some id => with_tasks mx (alter (λ t, mk_task (t_state t) (t_phase t) true (t_rx t)) id (tasks mx))
  | None => mx
  end.

Definition sig_msgs (out : list (KmLinkMsg C)) : list (Z * KmSignal C) := omap (λ m, match m with LinkSignal l s => Some (l, s) | _ => None end) out.
Definition buf_msgs (out : list (KmLinkMsg C)) : list (Z * bytes) := omap (λ m, match m with LinkBuffer l b => Some (l, b) | _ => None end) out.

(** A task runs up to where its loop waits again, or to its end, where its receiver is
    dropped. *)
Definition run_task (mx : Mux) (id : nat) (t : KmTask) (m : Km bool) : outcome Mux :=
  match m (t_state t) with
  | Panic => Panic
  | Ret (s, out, r) =>
      let go_on := match r with inr b => b | inl _ => false end in
      let rx := if go_on then t_rx t else mk_chan (chan_cap (t_rx t)) (chan_msgs (t_rx t)) true in
      let mx := with_tasks mx (<[id := mk_task s (if go_on then Running else Stopped) (t_cancelled t) rx]> (tasks mx)) in
      Ret (with_bufs (with_sigs mx (sig_queue mx ++ sig_msgs out)) (buf_queue mx ++ buf_msgs out))
  end.

Definition task_step (mx : Mux) (id : nat) (w : World) (what : TurnOf) : outcome Mux :=
  match tasks mx !! id with
  | None => Ret mx
  | Some t =>
      let turn ev t := run_task mx id t (loop_turn SA_ID_BITS all_open w km_impl ev) in
      match t_phase t, what with
      | Stopped, _ => Ret mx
      | Spawned, _ => run_task mx id t (_ ← start_state_machine_internal all_open w; mret true)
      | Running, TurnTick => turn EvTick t
      | Running, TurnCancel => if t_cancelled t then turn EvCancelled t else Ret mx
      | Running, TurnMessage =>
          match chan_try_recv (t_rx t) with
          | None => Ret mx
          | Some (m, rx) => turn (EvMessage m) (mk_task (t_state t) Running (t_cancelled t) rx)
          end
      end
  end.

(** ** The signal worker *)

(** Whether a link is due for a restart: with the number of errors the wait grows. *)
Definition restart_due (now : Z) (stat : ErrorStatus) : bool :=
  (0 <? error_count stat) && (restart_t stat <=? last_error_t stat) && (1000 * error_count stat <? now - last_error_t stat).

(** What becomes of a link's record, given the manager that was found. *)
Definition check_status (now : Z) (stat : ErrorStatus) (mgr : option (KmState SM C)) : ErrorStatus :=
  if restart_due now stat then
    match mgr with
    | Some s =>
        match (restart s).2 with
        | inr _ => mk_error_status (error_count stat) (last_error_t stat) now
        | inl _ => mk_error_status (error_count stat + 1) (last_error_t stat) (restart_t stat)
        end
    | None => stat
    end
  else stat.

Definition manager_of (mx : Mux) (link_id : Z) : option (KmState SM C) := km_handle mx link_id ≫= λ id, t_state <$> tasks mx !! id.

(** The tasks that are told to restart. *)
Definition due_tasks (now : Z) (mx : Mux) : list nat :=
  omap (λ '(l, stat), if restart_due now stat then km_handle mx l else None) (map_to_list (status mx)).

Definition restart_task (t : KmTask) : KmTask := mk_task (restart (t_state t)).1 (t_phase t) (t_cancelled t) (t_rx t).

(** The branch of [interval.tick()]: over the links, each for itself. *)
Definition worker_tick (now : Z) (mx : Mux) : Mux :=
  with_status (with_tasks mx (imap (λ id t, if bool_decide (id ∈ due_tasks now mx) then restart_task t else t) (tasks mx)))
    (map_imap (λ l stat, Some (check_status now stat (manager_of mx l))) (status mx)).

(** The branch of [sig_queue.recv()]. *)
Definition worker_signal (now : Z) (link_id : Z) (sig : KmSignal C) (mx : Mux) : Mux :=
  match sig with
  | SigSaIdChange old _ => if old =? 0 then with_status mx (delete link_id (status mx)) else mx
  | SigSaEstablished sa =>
      let mx := set_security_association mx link_id sa in
      let mx := with_keyed mx (keyed mx ++ [link_id]) in
      with_status mx (alter (λ s, if error_count s =? 0 then mk_error_status 0 (last_error_t s) (restart_t s) else s) link_id (status mx))
  | SigReset => mx
  | SigError =>
      let stat := default (mk_error_status 0 now now) (status mx !! link_id) in
      with_status mx (<[link_id := mk_error_status (error_count stat + 1) now (restart_t stat)]> (status mx))
  | SigTermination => with_status mx (delete link_id (status mx))
  end.

(** ** All of it *)

Inductive MuxOp : Type :=
| OpPeer (link_id : Z) | OpUnpeer (link_id : Z)
| OpAdd (link_id : Z) (m : SM) | OpDrop (link_id : Z)
| OpInbound (link_id : Z) (payload : bytes)
| OpTask (id : nat) (w : World) (what : TurnOf)
| OpWorkerTick | OpWorkerSignal.

Definition mux_step (now : Z) (op : MuxOp) (mx : Mux) : outcome Mux :=
  match op with
  | OpPeer l => Ret (with_peers mx (<[l := mk_peer_km None None]> (peers mx)))
  | OpUnpeer l => Ret (with_peers mx (delete l (peers mx)))
  | OpAdd l m => add_noise_link mx l m
  | OpDrop l => Ret (drop_km_link mx l)
  | OpInbound l payload => Ret (handle_inbound_km_msg mx l payload).1
  | OpTask id w what => task_step mx id w what
  | OpWorkerTick => Ret (worker_tick now mx)
  | OpWorkerSignal => match sig_queue mx with [] => Ret mx | (l, sig) :: q => Ret (worker_signal now l sig (with_sigs mx q)) end
  end.

Definition mux_new : Mux := mk_mux ∅ [] ∅ [] [] [].

(** ** Associations *)

(** What the peer table holds when the signals of a link have been worked off. *)
Definition fold_sa (sa : option (KmTransportSA C)) (l : list (KmSignal C)) : option (KmTransportSA C) :=
  fold_left (λ sa sig, match sig with SigSaEstablished sa' => Some sa' | _ => sa end) l sa.

Definition sigs (l : Z) (q : list (Z * KmSignal C)) : list (KmSignal C) := omap (λ e, if e.1 =? l then Some e.2 else None) q.

Definition sent_by (l : Z) (m : KmLinkMsg C) : Prop := match m with LinkSignal l' _ | LinkBuffer l' _ => l' = l end.

(** From the state [s] on, [m] announces the associations that it sets. *)
Definition tracks_at {A} (s : KmState SM C) (m : Km A) : Prop := ∀ s' out r, m s = Ret (s', out, r) →
  get_transport_state s' = fold_sa (get_transport_state s) (signals out) ∧ link_id s' = link_id s ∧ Forall (sent_by (link_id s)) out.

Lemma fold_sa_app o l l' : fold_sa o (l ++ l') = fold_sa (fold_sa o l) l'.
Proof. apply fold_left_app. Qed.

Lemma tracks_bind {A B} s (m : Km A) (f : A → Km B) : tracks_at s m → (∀ x s1 out, m s = Ret (s1, out, inr x) → tracks_at s1 (f x)) → tracks_at s (m ≫= f).
Proof.
  intros Hm Hf s' out r. unfold mbind, km_bind. destruct (m s) as [[[s1 o1] [e|x]]|] eqn:E; [|destruct (f x s1) as [[[s2 o2] r2]|] eqn:E2|done].
  - intros [= <- <- <-]. by eapply Hm.
  - intros [= <- <- <-]. destruct (Hm _ _ _ E) as (H1 & H2 & H3). destruct (Hf x s1 o1 eq_refl _ _ _ E2) as (H4 & H5 & H6). rewrite signals_app, fold_sa_app, <- H1. split; [done|].
    split; [congruence|]. apply Forall_app. split; [done|]. by rewrite <- H2.
  - done.
Qed.

Lemma tracks_pure {A} s (m : Km A) s' r : m s = Ret (s', [], r) → km_sa_id s' = km_sa_id s → ts s' = ts s → link_id s' = link_id s → tracks_at s m.
Proof. intros E H1 H2 H3 s2 out r2. rewrite E. intros [= <- <- <-]. unfold get_transport_state. rewrite H1, H2. done. Qed.

Lemma tracks_response s resp : tracks_at s (send_response all_open resp).
Proof. intros s' out r. destruct resp; cbn; intros [= <- <- <-]; (split; [done|]); by repeat constructor. Qed.

Lemma tracks_signal s sig : (∀ sa, sig ≠ SigSaEstablished sa) → tracks_at s (or_enqueue_failed (send_signal all_open sig)).
Proof. intros Hs s' out r. cbn. intros [= <- <- <-]. cbn. split; [destruct sig; try done; by edestruct Hs|]. by repeat constructor. Qed.

Lemma tracks_tick w cur s : tracks_at s (tick_statemachine all_open w cur).
Proof.
  apply tracks_bind; [by eapply tracks_pure|]. intros ? ? ? [= <- <- <-]. apply tracks_bind.
  - destruct (is_error cur && restart_request s); [|by eapply tracks_pure]. apply tracks_bind.
    { intros s' out r. unfold machine_reset. destruct (sm_reset w _). by intros [= <- <- <-]. }
    intros [e|resp] s1 o1 _; [by eapply tracks_pure|]. apply tracks_bind; [by eapply tracks_pure|]. intros ? ? ? [= <- <- <-]. apply tracks_bind; [by eapply tracks_pure|]. intros _ s2 _ _.
    apply tracks_bind; [apply tracks_response|]. intros _ s3 _ _. apply tracks_bind; [by apply tracks_signal|]. intros _ s4 _ _. by eapply tracks_pure.
  - intros [] s1 _ _; [by eapply tracks_pure|]. apply tracks_bind; [|intros; apply tracks_response]. intros s' out r. unfold machine_tick. destruct (sm_tick w _). by intros [= <- <- <-].
Qed.

Lemma tracks_dispatch w m s : tracks_at s (dispatch_km_message all_open w km_impl m).
Proof.
  apply tracks_bind; [|intros; apply tracks_response]. intros s' out r. unfold machine_message. destruct (sm_handle_message _ _ _ _) as [[? ?]|]; [|done]. by intros [= <- <- <-].
Qed.

Lemma tracks_transition prev next s : tracks_at s (handle_state_transition SA_ID_BITS all_open prev next).
Proof.
  apply tracks_bind; [by eapply tracks_pure|]. intros ? ? ? [= <- <- <-]. apply tracks_bind; [destruct (is_error prev); by eapply tracks_pure|]. intros _ s1 _ _.
  destruct next as [|sa|]; [by eapply tracks_pure| |].
  - intros s' out r. cbn. intros [= <- <- <-]. cbn. split; [|by repeat constructor]. unfold get_transport_state. cbn.
    pose proof (next_sa_id_nonzero SA_ID_BITS (km_sa_id s1)). by destruct (Z.eqb_spec (next_sa_id SA_ID_BITS (km_sa_id s1)) 0).
  - apply tracks_bind; [by eapply tracks_pure|]. intros ? ? ? [= <- <- <-]. destruct (error_signaled s1); [by eapply tracks_pure|]. apply tracks_bind; [by apply tracks_signal|]. intros _ s2 _ _.
    apply tracks_bind; [by eapply tracks_pure|]. intros ? ? ? [= <- <- <-]. by eapply tracks_pure.
Qed.

Lemma tracks_turn w ev s : tracks_at s (loop_turn SA_ID_BITS all_open w km_impl ev).
Proof.
  apply tracks_bind; [by eapply tracks_pure|]. intros ? ? ? [= <- <- <-]. cbv zeta.
  assert (∀ m : Km unit, tracks_at s m → tracks_at s (_ ← m; s' ← km_get; _ ← (if km_state_eqb (get_state (statemachine s')) (get_state (statemachine s)) then mret tt
    else handle_state_transition SA_ID_BITS all_open (get_state (statemachine s)) (get_state (statemachine s'))); mret true)) as H.
  { intros m Hm. apply tracks_bind; [done|]. intros _ s1 _ _. apply tracks_bind; [by eapply tracks_pure|]. intros ? ? ? [= <- <- <-]. apply tracks_bind; [|intros; by eapply tracks_pure].
    destruct (km_state_eqb _ _); [by eapply tracks_pure|apply tracks_transition]. }
  destruct ev as [|m|]; [|apply H, tracks_dispatch|apply H, tracks_tick]. intros s' out r. cbn. intros [= <- <- <-]. split; [done|]. by repeat constructor.
Qed.

Lemma tracks_start w s : tracks_at s (_ ← start_state_machine_internal all_open w; mret true).
Proof.
  apply tracks_bind; [|intros; by eapply tracks_pure]. apply tracks_bind. { intros s' out r. unfold machine_reset. destruct (sm_reset w _). by intros [= <- <- <-]. }
  intros [e|h] s1 _ _; [by eapply tracks_pure|]. apply tracks_bind; [|intros; apply tracks_response]. intros s' out r. cbn. intros [= <- <- <-]. split; [done|]. by repeat constructor.
Qed.

Lemma sigs_sent l l' out : Forall (sent_by l') out → sigs l (sig_msgs out) = if l' =? l then signals out else [].
Proof.
  unfold sigs, sig_msgs, signals. induction 1 as [|m out Hm _ IH]; cbn; [by destruct (l' =? l)|]. destruct m as [k s|k b]; cbn in *; subst; [|done].
  rewrite IH. by destruct (l' =? l).
Qed.

Lemma sigs_app l q q' : sigs l (q ++ q') = sigs l q ++ sigs l q'.
Proof. apply omap_app. Qed.

(** ** Errors *)

Abbreviation failed s := (is_error (get_state (statemachine s))).

(** The worker has an error of the link on record that it has not answered yet. *)
Definition armed (o : option ErrorStatus) : bool := match o with Some st => (0 <? error_count st) && (restart_t st <=? last_error_t st) | None => false end.

(** ... when the signals of the link have been worked off. *)
Definition fold_armed (b : bool) (l : list (KmSignal C)) : bool :=
  fold_left (λ b sig, match sig with SigError => true | SigSaIdChange old _ => if old =? 0 then false else b | SigTermination => false | _ => b end) l b.

Lemma fold_armed_app b l l' : fold_armed b (l ++ l') = fold_armed (fold_armed b l) l'.
Proof. apply fold_left_app. Qed.

(** Who follows the signals learns of an error that is not over. *)
Lemma steps_armed bits v l v' b : signal_steps bits v l v' → SigTermination ∉ l → (v_error v = true → v_next v = None → b = true) →
  v_error v' = true → v_next v' = None → fold_armed b l = true.
Proof.
  intros Hs. revert b. induction Hs as [v|v sig v1 l v2 Hs _ IH]; intros b Hl Hb He Hn; [by apply Hb|]. apply not_elem_of_cons in Hl as [Hsig Hl].
  apply IH; [done| |done|done]. inversion Hs; subst; cbn in *; try done; intros; by apply Hb.
Qed.

Lemma transition_restart bits ch prev next (s s' : KmState SM C) out : handle_state_transition bits ch prev next s = Ret (s', out, inr tt) →
  statemachine s' = statemachine s ∧ restart_request s' = (if is_error prev then false else restart_request s) ∧ SigTermination ∉ signals out.
Proof.
  unfold handle_state_transition. intros (s1 & o1 & x & o2 & E & E2 & ->)%km_bind_ok. injection E as <- <- <-. apply km_bind_ok in E2 as (s1 & o1 & x & o3 & E & E2 & ->).
  assert (statemachine s1 = statemachine s ∧ restart_request s1 = (if is_error prev then false else restart_request s) ∧ o1 = []) as (F1 & F2 & ->)
    by (destruct (is_error prev); by injection E as <- <- <-). clear E. cbn [app].
  destruct next as [|sa|].
  - injection E2 as <- <-. split_and!; [done|done|]. apply not_elem_of_nil.
  - apply km_bind_ok in E2 as (s2 & o4 & y & o5 & E & E2 & ->). injection E as <- <- <-. apply km_bind_ok in E2 as (s2 & o4 & y & o6 & E & E2 & ->). injection E as <- <- <-.
    apply km_bind_ok in E2 as (s2 & o4 & [] & o7 & E & E2 & ->). apply send_signal_ok in E as [-> E4]. apply send_signal_ok in E2 as [-> E7]. cbn [app]. rewrite signals_app, E4, E7.
    split_and!; [done|done|]. intros H. repeat (apply elem_of_cons in H as [H|H]; [done|]). by apply not_elem_of_nil in H.
  - apply km_bind_ok in E2 as (s2 & o4 & y & o5 & E & E2 & ->). injection E as <- <- <-. cbn [app]. destruct (error_signaled s1).
    { injection E2 as <- <-. split_and!; [done|done|]. apply not_elem_of_nil. }
    apply km_bind_ok in E2 as (s2 & o4 & [] & o6 & E & E2 & ->). apply send_signal_ok in E as [-> E4]. apply km_bind_ok in E2 as (s2 & o5 & y & o7 & E & E2 & ->). injection E as <- <- <-.
    injection E2 as <- <-. cbn [app]. rewrite app_nil_r, E4. split_and!; [done|done|]. intros H. apply elem_of_cons in H as [H|H]; [done|]. by apply not_elem_of_nil in H.
Qed.

Context {ML : MachineLaws SM C}.

(** A turn that is not the last: what was asked for stays asked for until the machine is out
    of the error. *)
Lemma turn_restart ch w ev (s s' : KmState SM C) out : loop_turn SA_ID_BITS ch w km_impl ev s = Ret (s', out, inr true) → (restart_request s = true → failed s = true) →
  (restart_request s' = true → failed s' = true) ∧ (restart_request s = true → failed s' = true → restart_request s' = true) ∧ SigTermination ∉ signals out.
Proof using ML.
  unfold loop_turn. intros (s1 & o1 & x & o2 & E & E2 & ->)%km_bind_ok Hr. injection E as <- <- <-. destruct ev as [|l|].
  { apply km_bind_ok in E2 as (s1 & o3 & x & o4 & E & E2 & ->). done. }
  all: apply km_bind_ok in E2 as (s1 & o3 & [] & o4 & Ed & E2 & ->); apply km_bind_ok in E2 as (sx & o5 & x & o6 & E & E2 & ->); injection E as <- <- <-;
    apply km_bind_ok in E2 as (s2 & o5 & [] & o7 & Et & E2 & ->); injection E2 as <- <-; cbn [app]; rewrite app_nil_r, signals_app, not_elem_of_app.
  all: assert (∀ m r, ((∃ l k, sm_handle_message w l k (statemachine s) = Ret (m, r)) ∨ sm_tick w (statemachine s) = (m, r)) → s1 = set_machine s m → signals o3 = [] →
      (restart_request s2 = true → failed s2 = true) ∧ (restart_request s = true → failed s2 = true → restart_request s2 = true) ∧ (SigTermination ∉ signals o3) ∧ (SigTermination ∉ signals o5)) as Hkeep.
  1, 3: intros m r Hm Hs1 ->; assert (failed s = true → failed s1 = true) as Hk by (rewrite Hs1; destruct Hm as [(l' & k & Hm)|Hm]; eauto using message_keeps_error, tick_keeps_error);
    assert (restart_request s1 = restart_request s) as Hr1 by (by rewrite Hs1); destruct (km_state_eqb _ _) eqn:Ee;
    [injection Et as <- <-; rewrite Hr1; split_and!; [naive_solver|done|apply not_elem_of_nil|apply not_elem_of_nil]|];
    assert (failed s = false) as Hf by (destruct (get_state (statemachine s)) eqn:Es; try done; specialize (Hk eq_refl); by destruct (get_state (statemachine s1)));
    apply transition_restart in Et as (F1 & F2 & F3); rewrite Hf in *; rewrite F2, Hr1; split_and!; [intros H; by specialize (Hr H)|intros H; by specialize (Hr H)|apply not_elem_of_nil|done].
  - apply dispatch_ok in Ed as (m & r & ? & ? & ?). eapply Hkeep; eauto.
  - apply tick_ok in Ed as [(m & h & He & _ & Hm & Hs1 & Ho)|(_ & m & r & ? & ? & ?)]; [|eapply Hkeep; eauto]. apply reset_configures in Hm as Hc.
    assert (get_state (statemachine s1) = Configuring) as Hc1 by (by rewrite Hs1). rewrite Hc1 in Et. destruct (get_state (statemachine s)) eqn:Es; try done. cbn [km_state_eqb] in Et.
    apply transition_restart in Et as (F1 & F2 & F3). rewrite F1, F2, Hc1, Ho. split_and!; try done. intros H. apply elem_of_cons in H as [H|H]; [done|]. by apply not_elem_of_nil in H.
Qed.

(** ** A link that is set up once and not dropped *)

Record link_ok (l t : Z) (mx : Mux) (i : nat) (tk : KmTask) (p : PeerKmState) : Prop := mk_link_ok {
  lo_peer : peers mx !! l = Some p;
  lo_handle : handle p = Some i;
  lo_task : tasks mx !! i = Some tk;
  lo_link : link_id (t_state tk) = l;
  lo_only : ∀ j tk', tasks mx !! j = Some tk' → link_id (t_state tk') = l → j = i;
  lo_sa : fold_sa (transport_sa p) (sigs l (sig_queue mx)) = get_transport_state (t_state tk);
  lo_times : ∀ st, status mx !! l = Some st → restart_t st <= t ∧ last_error_t st <= t ∧ 0 <= error_count st;
  lo_running : t_phase tk = Running → km_inv (t_state tk) ∧ (restart_request (t_state tk) = true → failed (t_state tk) = true) ∧
    (failed (t_state tk) = true → restart_request (t_state tk) = true ∨ fold_armed (armed (status mx !! l)) (sigs l (sig_queue mx)) = true);
  lo_spawned : t_phase tk = Spawned → failed (t_state tk) = false ∧ restart_request (t_state tk) = false ∧ error_signaled (t_state tk) = false;
}.

Definition link_inv (l t : Z) (mx : Mux) : Prop := ∃ i tk p, link_ok l t mx i tk p.

Lemma link_frame l t t' mx mx' : link_inv l t mx → t <= t' → peers mx' !! l = peers mx !! l → status mx' !! l = status mx !! l → sigs l (sig_queue mx') = sigs l (sig_queue mx) →
  (∀ j tk, tasks mx !! j = Some tk → ∃ tk', tasks mx' !! j = Some tk' ∧ (link_id (t_state tk) = l → t_state tk' = t_state tk ∧ t_phase tk' = t_phase tk)) →
  (∀ j tk', tasks mx' !! j = Some tk' → link_id (t_state tk') = l → ∃ tk, tasks mx !! j = Some tk ∧ link_id (t_state tk) = l) → link_inv l t' mx'.
Proof.
  intros (i & tk & p & [H1 H2 H3 H4 H5 H6 H7 H8 H9]) Ht Ep Es Eq Hfw Hbw. destruct (Hfw i tk H3) as (tk' & H3' & Hsame). destruct (Hsame H4) as [Est Eph].
  exists i, tk', p. split; rewrite ?Ep, ?Es, ?Eq, ?Est, ?Eph; try done.
  - intros j tk2 Hj Hl. destruct (Hbw j tk2 Hj Hl) as (tk3 & ? & ?). by eapply H5.
  - intros st Hst. destruct (H7 st Hst). lia.
Qed.

Definition op_allowed (l : Z) (op : MuxOp) : Prop := match op with OpPeer l' | OpUnpeer l' | OpAdd l' _ | OpDrop l' => l' ≠ l | _ => True end.

Lemma link_add l l' m t t' mx mx' : link_inv l t mx → t <= t' → l' ≠ l → add_noise_link mx l' m = Ret mx' → link_inv l t' mx'.
Proof.
  intros Hi Ht Hl. unfold add_noise_link. destruct (peers mx !! l'); [|done]. intros [= <-]. eapply link_frame; [done|done| | | | |]; cbn; try done.
  - by rewrite lookup_alter_ne.
  - intros j tk Hj. exists tk. split; [|done]. by apply lookup_app_l_Some.
  - intros j tk' Hj Hl'. apply lookup_app_Some in Hj as [Hj|[_ Hj]]; [by eauto|]. apply list_lookup_singleton_Some in Hj as [_ <-]. done.
Qed.

Lemma link_drop l l' t t' mx : link_inv l t mx → t <= t' → l' ≠ l → link_inv l t' (drop_km_link mx l').
Proof.
  intros Hi Ht Hl. unfold drop_km_link, remove_km_state. cbv zeta. cbn [fst snd].
  assert (∀ ts', (∀ j tk, tasks mx !! j = Some tk → ∃ tk', ts' !! j = Some tk' ∧ t_state tk' = t_state tk ∧ t_phase tk' = t_phase tk) →
    (∀ j tk', ts' !! j = Some tk' → ∃ tk, tasks mx !! j = Some tk ∧ t_state tk' = t_state tk) →
    link_inv l t' (with_tasks (with_peers mx (alter (λ p, mk_peer_km None (transport_sa p)) l' (alter (λ p, mk_peer_km (handle p) None) l' (alter (λ p, mk_peer_km (handle p) None) l' (peers mx))))) ts')) as H.
  { intros ts' Hf Hb. eapply link_frame; [done|done| | | | |]; cbn; try done.
    - by rewrite !lookup_alter_ne.
    - intros j tk Hj. destruct (Hf j tk Hj) as (tk' & ? & ?). eauto.
    - intros j tk' Hj Hk. destruct (Hb j tk' Hj) as (tk & ? & E). exists tk. by rewrite <- E. }
  destruct (km_handle _ l') as [id|].
  - apply H.
    + intros j tk Hj. cbn. destruct (decide (j = id)) as [->|Hne]; [rewrite list_lookup_alter_eq, Hj|rewrite list_lookup_alter_ne, Hj by done]; cbn; eauto.
    + intros j tk'. cbn. destruct (decide (j = id)) as [->|Hne]; [rewrite list_lookup_alter_eq|rewrite list_lookup_alter_ne by done]; [|eauto].
      destruct (tasks mx !! id) as [tk|]; [|done]. intros [= <-]. by exists tk.
  - apply (H (tasks mx)); eauto.
Qed.

Lemma link_inbound l l' payload t t' mx : link_inv l t mx → t <= t' → link_inv l t' (handle_inbound_km_msg mx l' payload).1.
Proof.
  intros Hi Ht. assert (link_inv l t' mx) as Hi' by (eapply link_frame; eauto). unfold handle_inbound_km_msg.
  destruct (km_handle mx l') as [id|]; cbn; [|done]. destruct (tasks mx !! id) as [tk|] eqn:Ei; cbn; [|done]. destruct (chan_try_send _ _) as [e|rx]; cbn; [done|].
  assert (id < length (tasks mx))%nat as Hid by (by eapply lookup_lt_Some).
  eapply link_frame; [done|done| | | | |]; cbn; try done.
  - intros j tk' Hj. destruct (decide (j = id)) as [->|Hne]; [rewrite list_lookup_insert_eq by done|rewrite list_lookup_insert_ne by done; eauto]. rewrite Ei in Hj. injection Hj as <-. eauto.
  - intros j tk'. destruct (decide (j = id)) as [->|Hne]; [rewrite list_lookup_insert_eq by done|rewrite list_lookup_insert_ne by done; eauto]. intros [= <-] Hl. eauto.
Qed.

Lemma restart_state (s : KmState SM C) : statemachine (restart s).1 = statemachine s ∧ link_id (restart s).1 = link_id s ∧ get_transport_state (restart s).1 = get_transport_state s ∧
  error_signaled (restart s).1 = error_signaled s ∧ restart_request (restart s).1 = (if failed s then true else restart_request s).
Proof. unfold restart. by destruct (failed s). Qed.

Lemma check_armed now stat mgr : armed (Some stat) = true → (∀ s, mgr = Some s → restart_due now stat = true → failed s = false) → armed (Some (check_status now stat mgr)) = true.
Proof.
  intros Ha Hs. unfold check_status. destruct (restart_due now stat) eqn:Ed; [|done]. destruct mgr as [s|]; [|done]. unfold restart. rewrite (Hs s eq_refl eq_refl). cbn in *.
  apply andb_prop in Ha as [Ha ->]. apply Z.ltb_lt in Ha. destruct (Z.ltb_spec 0 (error_count stat + 1)); [done|lia].
Qed.

Lemma check_unarmed now stat mgr : armed (Some stat) = false → check_status now stat mgr = stat.
Proof. unfold check_status, restart_due. cbn. by intros ->. Qed.

Lemma fold_armed_mono (b c : bool) l : (b = true → c = true) → fold_armed b l = true → fold_armed c l = true.
Proof.
  revert b c. induction l as [|sig l IH]; intros b c H; [done|]. cbn. apply IH. destruct sig as [| |old new| |]; try done. by destruct (old =? 0).
Qed.

Lemma link_worker_tick l t t' mx : link_inv l t mx → t <= t' → link_inv l t' (worker_tick t' mx).
Proof.
  intros (i & tk & p & [H1 H2 H3 H4 H5 H6 H7 H8 H9]) Ht. set (due := bool_decide (i ∈ due_tasks t' mx)).
  exists i, (if due then restart_task tk else tk), p. destruct (restart_state (t_state tk)) as (R1 & R2 & R3 & R4 & R5).
  assert (manager_of mx l = Some (t_state tk)) as Hm by (unfold manager_of, km_handle; rewrite H1; cbn; rewrite H2; cbn; by rewrite H3).
  assert (∀ st, status mx !! l = Some st → restart_due t' st = true → due = true) as Hdue.
  { intros st Hst Hd. unfold due. apply bool_decide_eq_true. unfold due_tasks. apply list_elem_of_omap. exists (l, st). split; [by apply elem_of_map_to_list|]. rewrite Hd. unfold km_handle. rewrite H1. by cbn. }
  split; cbn; try done.
  - rewrite list_lookup_imap, H3. cbn. done.
  - by destruct due; cbn; rewrite ?R2.
  - intros j tk'. rewrite list_lookup_imap. destruct (tasks mx !! j) as [tj|] eqn:Ej; [|done]. cbn. intros [= <-] Hl. apply (H5 j tj Ej). destruct (bool_decide (j ∈ due_tasks t' mx)); cbn in Hl; [|done].
    by destruct (restart_state (t_state tj)) as (_ & <- & _).
  - by destruct due; cbn; rewrite ?R3.
  - intros st. rewrite map_lookup_imap. destruct (status mx !! l) as [st0|] eqn:Es; [|done]. cbn. intros [= <-]. destruct (H7 st0 eq_refl). unfold check_status. destruct (restart_due t' st0); [|lia].
    rewrite Hm. destruct (restart _).2; cbn; lia.
  - intros Hph. assert (t_phase tk = Running) as Hph' by (by destruct due). destruct (H8 Hph') as (I1 & I2 & I3).
    assert (km_inv (t_state (if due then restart_task tk else tk)) ∧ failed (t_state (if due then restart_task tk else tk)) = failed (t_state tk)) as [J1 J2].
    { destruct due; cbn; unfold km_inv; rewrite ?R1, ?R4; done. }
    split; [done|]. rewrite J2. split.
    + destruct due; cbn; [|done]. rewrite R5. by destruct (failed (t_state tk)).
    + intros Hf. destruct due eqn:Edue; cbn; [left; by rewrite R5, Hf|]. destruct (I3 Hf) as [|Ha]; [by left|right]. revert Ha. apply fold_armed_mono. rewrite map_lookup_imap.
      destruct (status mx !! l) as [st|] eqn:Es; [|done]. cbn [mbind option_bind option_map]. intros Ha. apply check_armed; [done|]. intros s _ Hd. by specialize (Hdue st eq_refl Hd).
  - intros Hph. assert (t_phase tk = Spawned) as Hph' by (by destruct due). destruct (H9 Hph') as (F1 & F2 & F3). destruct due; cbn; rewrite ?R1, ?R4, ?R5, ?F1; done.
Qed.

Lemma link_worker_signal l l' sig q t t' mx : link_inv l t mx → t <= t' → sig_queue mx = (l', sig) :: q → link_inv l t' (worker_signal t' l' sig (with_sigs mx q)).
Proof.
  intros Hinv Ht Hq. destruct (Z.eq_dec l' l) as [->|Hne].
  - destruct Hinv as (i & tk & p & [H1 H2 H3 H4 H5 H6 H7 H8 H9]). assert (sigs l (sig_queue mx) = sig :: sigs l q) as Eq by (rewrite Hq; cbn; by rewrite Z.eqb_refl). rewrite Eq in *.
    exists i, tk, (if sig is SigSaEstablished sa then mk_peer_km (handle p) (Some sa) else p).
    assert (∀ st : ErrorStatus, status mx !! l = Some st → restart_t st <= t' ∧ last_error_t st <= t' ∧ 0 <= error_count st) as H7' by (intros st Hst; destruct (H7 st Hst); lia).
    destruct sig as [| |old new|sa|]; cbn [worker_signal] in *.
    + split; cbn; try done.
    + split; cbn; try done.
      * intros st. rewrite lookup_insert_eq. intros [= <-]. cbn. destruct (status mx !! l) as [st|]; cbn; [destruct (H7' st eq_refl)|]; lia.
      * intros Hph. destruct (H8 Hph) as (I1 & I2 & I3). split; [done|]. split; [done|]. intros Hf. destruct (I3 Hf) as [|Ha]; [by left|right]. rewrite lookup_insert_eq. change (fold_armed true (sigs l q) = true) in Ha. revert Ha. apply fold_armed_mono. intros _. cbn.
        destruct (status mx !! l) as [st|]; cbn; [destruct (H7' st eq_refl)|]; apply andb_true_intro; split; try apply Z.ltb_lt; try apply Z.leb_le; lia.
    + destruct (old =? 0) eqn:Eo; split; cbn; try done; rewrite ?lookup_delete_eq; try done.
      * intros Hph. destruct (H8 Hph) as (I1 & I2 & I3). split; [done|]. split; [done|]. intros Hf. destruct (I3 Hf) as [|Ha]; [by left|right]. cbn in Ha. by rewrite Eo in Ha.
      * intros Hph. destruct (H8 Hph) as (I1 & I2 & I3). split; [done|]. split; [done|]. intros Hf. destruct (I3 Hf) as [|Ha]; [by left|right]. cbn in Ha. by rewrite Eo in Ha.
    + split; cbn; try done.
      * by rewrite lookup_alter_eq, H1.
      * intros st. rewrite lookup_alter_eq. destruct (status mx !! l) as [st0|]; [|done]. cbn. intros [= <-]. destruct (H7' st0 eq_refl) as (? & ? & ?). destruct (error_count st0 =? 0); cbn; lia.
      * intros Hph. destruct (H8 Hph) as (I1 & I2 & I3). split; [done|]. split; [done|]. intros Hf. destruct (I3 Hf) as [|Ha]; [by left|right]. rewrite lookup_alter_eq. change (fold_armed (armed (status mx !! l)) (sigs l q) = true) in Ha.
        revert Ha. apply fold_armed_mono.
        destruct (status mx !! l) as [st|]; [|done]. cbn. destruct (Z.eqb_spec (error_count st) 0) as [->|]; done.
    + split; cbn; try done; rewrite ?lookup_delete_eq; try done.
  - assert (sigs l (sig_queue mx) = sigs l q) as Eq. { rewrite Hq. cbn. apply Z.eqb_neq in Hne. by rewrite Hne. }
    eapply link_frame; [done|done| | | | |]; destruct sig as [| |old new|sa|]; cbn; try destruct (old =? 0); cbn; rewrite ?lookup_insert_ne, ?lookup_alter_ne, ?lookup_delete_ne by done; eauto.
Qed.

(** What a task must keep for its link when it goes on. *)
Definition goes_on (ph : Phase) (s s' : KmState SM C) (out : list (KmLinkMsg C)) : Prop :=
  (ph = Running → km_inv s ∧ (restart_request s = true → failed s = true)) → (ph = Spawned → failed s = false ∧ restart_request s = false ∧ error_signaled s = false) →
  km_inv s' ∧ (restart_request s' = true → failed s' = true) ∧
  (failed s' = true → restart_request s' = true ∨ ∀ b, (ph = Running → failed s = true → restart_request s = true ∨ b = true) → fold_armed b (signals out) = true).

Lemma turn_goes_on w ev s s' out : loop_turn SA_ID_BITS all_open w km_impl ev s = Ret (s', out, inr true) → goes_on Running s s' out.
Proof using ML.
  intros E H _. destruct (H eq_refl) as [Hi Hr]. destruct (turn_restart _ _ _ _ _ _ E Hr) as (R1 & R2 & R3). apply (turn_tracks SA_ID_BITS) in E as [Hi' Hst]; [|done].
  split; [done|]. split; [done|]. intros Hf. destruct (restart_request s) eqn:Er; [left; by apply R2|right]. intros b Hb. apply (steps_armed _ _ _ _ b Hst); [done| |done|done].
  intros Hv _. by destruct (Hb eq_refl Hv).
Qed.

Lemma start_goes_on w s s' out : (_ ← start_state_machine_internal all_open w; mret true) s = Ret (s', out, inr true) → goes_on Spawned s s' out.
Proof using ML.
  intros (s1 & o1 & [] & o2 & E & E2 & ->)%km_bind_ok _ H. injection E2 as <- <-. destruct (H eq_refl) as (F1 & F2 & F3). unfold start_state_machine_internal in E.
  apply km_bind_ok in E as (s2 & o3 & r & o4 & E & E3 & ->). unfold machine_reset in E. destruct (sm_reset w _) as [m' r'] eqn:Er. injection E as <- <- ->. destruct r as [e|h]; [done|].
  apply km_bind_ok in E3 as (s3 & o5 & x & o6 & E & E3 & ->). injection E as <- <- <-. apply send_response_ok in E3 as [-> _]. apply reset_configures in Er. unfold km_inv. cbn. rewrite Er, F2, F3. done.
Qed.

Lemma link_run_task l t t' mx id stored tk m mx' : link_inv l t mx → t <= t' → tasks mx !! id = Some stored → t_state tk = t_state stored → tracks_at (t_state tk) m →
  (∀ s out, m (t_state tk) = Ret (s, out, inr true) → goes_on (t_phase stored) (t_state stored) s out) → run_task mx id tk m = Ret mx' → link_inv l t' mx'.
Proof using.
  intros Hinv Ht Hid Est Htr Hgo. unfold run_task. destruct (m (t_state tk)) as [[[s out] r]|] eqn:Em; [|done]. cbv zeta. destruct (Htr _ _ _ Em) as (Hsa & Hlink & Hout). rewrite Est in *.
  set (tk' := mk_task _ _ _ _). intros [= <-]. assert (id < length (tasks mx))%nat as Hlt by (by eapply lookup_lt_Some).
  destruct (Z.eq_dec (link_id (t_state stored)) l) as [Hl|Hl].
  - destruct Hinv as (i & tk0 & p & [H1 H2 H3 H4 H5 H6 H7 H8 H9]). assert (id = i) as -> by (by eapply H5). assert (tk0 = stored) as -> by congruence.
    assert (sigs l (sig_queue mx ++ sig_msgs out) = sigs l (sig_queue mx) ++ signals out) as Eq. { rewrite sigs_app, (sigs_sent l _ _ Hout), Hl. by rewrite Z.eqb_refl. }
    exists i, tk', p. split; cbn [peers tasks status sig_queue buf_queue keyed with_bufs with_sigs with_tasks]; rewrite ?Eq; try done.
    + by apply list_lookup_insert_eq.
    + unfold tk'. cbn. by rewrite Hlink.
    + intros j tk2. destruct (decide (j = i)) as [->|Hne]; [done|]. rewrite list_lookup_insert_ne by done. apply H5.
    + unfold tk'. cbn [t_state]. by rewrite fold_sa_app, H6, Hsa.
    + intros st Hst. destruct (H7 st Hst). lia.
    + intros Hph. destruct r as [e|[]]; try done. destruct (Hgo s out eq_refl) as (J1 & J2 & J3); [intros Hp; by destruct (H8 Hp) as (? & ? & _)|done|]. split; [done|]. split; [done|]. intros Hf.
      destruct (J3 Hf) as [|Hb]; [by left|right]. rewrite fold_armed_app. apply Hb. intros Hp Hfs. by apply (H8 Hp).
    + by destruct r as [e|[]].
  - eapply link_frame; [done|done| | | | |]; cbn [peers tasks status sig_queue buf_queue keyed with_bufs with_sigs with_tasks]; try done.
    + rewrite sigs_app, (sigs_sent l _ _ Hout). apply Z.eqb_neq in Hl. by rewrite Hl, app_nil_r.
    + intros j tk2 Hj. destruct (decide (j = id)) as [->|Hne]; [rewrite list_lookup_insert_eq by done|rewrite list_lookup_insert_ne by done; eauto]. exists tk'. split; [done|]. intros. by simplify_eq.
    + intros j tk2. destruct (decide (j = id)) as [->|Hne]; [rewrite list_lookup_insert_eq by done|rewrite list_lookup_insert_ne by done; eauto]. intros [= <-] Hl2. cbn in Hl2. congruence.
Qed.

Lemma link_task l t t' mx id w what mx' : link_inv l t mx → t <= t' → task_step mx id w what = Ret mx' → link_inv l t' mx'.
Proof using ML.
  intros Hinv Ht. assert (link_inv l t' mx) as Hi' by (eapply link_frame; eauto). unfold task_step. destruct (tasks mx !! id) as [tk|] eqn:Ei; [|by intros [= <-]]. cbv zeta.
  destruct (t_phase tk) eqn:Ep; [| |by intros [= <-]].
  - intros E. eapply link_run_task; [done|done|done|done|apply tracks_start| |done]. rewrite Ep. apply start_goes_on.
  - assert (∀ ev tk', t_state tk' = t_state tk → run_task mx id tk' (loop_turn SA_ID_BITS all_open w km_impl ev) = Ret mx' → link_inv l t' mx') as H.
    { intros ev tk' Hs E. eapply (link_run_task l t t' mx id tk tk'); [done|done|done|done|apply tracks_turn| |done]. rewrite Ep, Hs. apply turn_goes_on. }
    destruct what; [destruct (chan_try_recv _) as [[m rx]|]|..]; try (by intros [= <-]); try (by apply H). destruct (t_cancelled tk); [by apply H|by intros [= <-]].
Qed.

Lemma link_step l t t' op mx mx' : link_inv l t mx → t <= t' → op_allowed l op → mux_step t' op mx = Ret mx' → link_inv l t' mx'.
Proof using ML.
  intros Hi Ht Ha. destruct op as [l'|l'|l' m|l'|l' payload|id w what| |]; cbn in *.
  - intros [= <-]. eapply link_frame; [done|done| | | | |]; cbn; try done; [by rewrite lookup_insert_ne| |]; eauto.
  - intros [= <-]. eapply link_frame; [done|done| | | | |]; cbn; try done; [by rewrite lookup_delete_ne| |]; eauto.
  - by eapply link_add.
  - intros [= <-]. by eapply link_drop.
  - intros [= <-]. by eapply link_inbound.
  - by eapply link_task.
  - intros [= <-]. by eapply link_worker_tick.
  - destruct (sig_queue mx) as [|[l' sig] q] eqn:Eq; intros [= <-]; [by eapply link_frame; eauto|]. by eapply link_worker_signal.
Qed.

(** ** Runs *)

(** A link that has just been entered into the peer table, and the machine for it. *)
Definition fresh_link (l : Z) (m : SM) (mx : Mux) : Prop :=
  peers mx !! l = Some (mk_peer_km None None) ∧ (∀ j tk, tasks mx !! j = Some tk → link_id (t_state tk) ≠ l) ∧ sigs l (sig_queue mx) = [] ∧ status mx !! l = None ∧ is_error (get_state m) = false.

(** Its key management is set up, then anything happens but its end. *)
Inductive mux_run (l : Z) (m : SM) : Z → Mux → Prop :=
| mux_added t mx mx' : fresh_link l m mx → add_noise_link mx l m = Ret mx' → mux_run l m t mx'
| mux_op t t' op mx mx' : mux_run l m t mx → t <= t' → op_allowed l op → mux_step t' op mx = Ret mx' → mux_run l m t' mx'.

Lemma mux_run_inv l m t mx : mux_run l m t mx → link_inv l t mx.
Proof using ML.
  induction 1 as [t mx mx' (F1 & F2 & F3 & F4 & F5) E|t t' op mx mx' _ IH Ht Ha E]; [|by eapply link_step]. unfold add_noise_link in E. rewrite F1 in E. injection E as <-.
  exists (length (tasks mx)), (mk_task (km_new l m) Spawned false (chan_new km_link_queue_size)), (mk_peer_km (Some (length (tasks mx))) None).
  split; cbn [peers tasks status sig_queue with_tasks with_peers set_km_handle]; try done.
  - by rewrite lookup_alter_eq, F1.
  - by rewrite lookup_app_r, Nat.sub_diag by done.
  - intros j tk'. rewrite lookup_app_Some. intros [Hj|[Hj E]] Hl; [by destruct (F2 j tk' Hj)|]. apply list_lookup_singleton_Some in E as [E _]. lia.
  - by rewrite F3.
  - rewrite F4. done.
Qed.

(** The signal worker works off its queue. *)
Fixpoint work_off (now : Z) (n : nat) (mx : Mux) : Mux :=
  match n, sig_queue mx with
  | S n, (l, sig) :: q => work_off now n (worker_signal now l sig (with_sigs mx q))
  | _, _ => mx
  end.

Lemma worker_signal_keeps now l sig mx : tasks (worker_signal now l sig mx) = tasks mx ∧ sig_queue (worker_signal now l sig mx) = sig_queue mx ∧ buf_queue (worker_signal now l sig mx) = buf_queue mx.
Proof. destruct sig as [| |old ?| |]; try done. cbn. by destruct (old =? 0). Qed.

Lemma work_off_run l m t now n mx : mux_run l m t mx → t <= now → ∃ t', t' <= now ∧ mux_run l m t' (work_off now n mx).
Proof.
  revert t mx. induction n as [|n IH]; intros t mx Hr Ht; cbn [work_off]; [by exists t|]. destruct (sig_queue mx) as [|[l' sig] q] eqn:Eq; [by exists t|]. apply (IH now); [|done].
  eapply (mux_op _ _ t now OpWorkerSignal); [done|done|done|]. cbn. by rewrite Eq.
Qed.

Lemma work_off_all now n mx : (length (sig_queue mx) <= n)%nat → sig_queue (work_off now n mx) = [] ∧ tasks (work_off now n mx) = tasks mx ∧ buf_queue (work_off now n mx) = buf_queue mx.
Proof.
  revert mx. induction n as [|n IH]; intros mx Hn; cbn [work_off]; destruct (sig_queue mx) as [|[l' sig] q] eqn:Eq; try (by cbn in Hn; lia); try done.
  destruct (worker_signal_keeps now l' sig (with_sigs mx q)) as (E1 & E2 & E3). destruct (IH (worker_signal now l' sig (with_sigs mx q))) as (F1 & F2 & F3); [rewrite E2; cbn in *; lia|].
  rewrite F1, F2, F3, E1, E3. done.
Qed.

(** A machine in the error state that is told to restart does so at its next tick. *)
Lemma tick_resets w (s : KmState SM C) m h : failed s = true → restart_request s = true → sm_reset w (statemachine s) = (m, inr h) →
  ∃ s' out, loop_turn SA_ID_BITS all_open w km_impl EvTick s = Ret (s', out, inr true) ∧ statemachine s' = m ∧ link_id s' = link_id s ∧
    out = (match h with Some b => [LinkBuffer (link_id s) b] | None => [] end) ++ [LinkSignal (link_id s) SigReset].
Proof using ML.
  intros Hf Hr Hm. apply reset_configures in Hm as Hc. destruct (get_state (statemachine s)) eqn:Es; try done.
  set (out := (match h with Some b => [LinkBuffer (link_id s) b] | None => [] end) ++ [LinkSignal (link_id s) (@SigReset C)]).
  assert (tick_statemachine all_open w ErrorState s = Ret (set_flags (set_machine s m) false (error_signaled s), out, inr tt)) as E1.
  { unfold tick_statemachine, mbind, km_bind, km_get at 1. rewrite Hr. cbn [is_error andb]. unfold machine_reset at 1. rewrite Hm. by destruct h. }
  assert (loop_turn SA_ID_BITS all_open w km_impl EvTick s = Ret (set_flags (set_machine s m) false false, out, inr true)) as E2.
  { unfold loop_turn, mbind at 1 2, km_bind at 1 2, km_get at 1. rewrite Es, E1. unfold mbind, km_bind, km_get. cbn [statemachine set_flags set_machine]. rewrite Hc. cbn [km_state_eqb].
    assert (∀ x : KmState SM C, handle_state_transition SA_ID_BITS all_open ErrorState Configuring x = Ret (set_flags x false false, [], inr tt)) as -> by done.
    cbn. by rewrite app_nil_r. }
  rewrite E2. by eexists _, _.
Qed.
End mux.

(** ** Claims *)

Section claims.
Context {SM C : Type} {KM : KeyManagerStateMachine SM C} {ML : MachineLaws SM C} (bits km_impl qsize : Z).
Abbreviation run := (mux_run bits km_impl qsize).

(** A link of a run and its task, before and after the worker has worked off its queue. *)
Lemma drained l m t now mx : run l m t mx → t <= now → ∃ i tk p, km_handle mx l = Some i ∧ tasks mx !! i = Some tk ∧ link_ok l now (work_off now (length (sig_queue mx)) mx) i tk p.
Proof using ML.
  intros Hr Ht. destruct (work_off_run _ _ _ _ _ _ _ (length (sig_queue mx)) _ Hr Ht) as (t' & Ht' & Hr'). destruct (mux_run_inv bits km_impl qsize l m t mx Hr) as (i & tk & p & Hi). destruct (mux_run_inv bits km_impl qsize l m t' _ Hr') as (i' & tk' & p' & Hi').
  destruct (work_off_all now (length (sig_queue mx)) mx ltac:(done)) as (_ & Et & _).
  assert (i' = i) as ->. { apply (lo_only _ _ _ _ _ _ Hi i' tk'); [rewrite <- Et; by eapply lo_task|by eapply lo_link]. }
  assert (tk' = tk) as ->. { pose proof (lo_task _ _ _ _ _ _ Hi) as E1. pose proof (lo_task _ _ _ _ _ _ Hi') as E2. rewrite Et in E2. congruence. }
  exists i, tk, p'. split; [unfold km_handle; rewrite (lo_peer _ _ _ _ _ _ Hi); apply (lo_handle _ _ _ _ _ _ Hi)|]. split; [by eapply lo_task|].
  destruct Hi' as [H1 H2 H3 H4 H5 H6 H7 H8 H9]. split; try done. intros st Hst. destruct (H7 st Hst). lia.
Qed.

Lemma work_off_sigs now (mx : @Mux SM C) l : sigs l (sig_queue (work_off now (length (sig_queue mx)) mx)) = [].
Proof. by destruct (work_off_all now (length (sig_queue mx)) mx ltac:(done)) as (-> & _ & _). Qed.
End claims.

(** C10: The peer table has the association that was negotiated.  After key management was
    set up on a link, and whatever messages, ticks, restarts and errors follow
    on it and on other links, short of its end: once the signal worker has
    worked off its queue, the association that the fast path finds for the link
    is the one its key manager has established last, under its identifier, or
    none if it has established none. *)
Theorem association_installed {SM C : Type} {KM : KeyManagerStateMachine SM C} {ML : MachineLaws SM C} (bits km_impl qsize l t now : Z) (m : SM) (mx : @Mux SM C) :
  mux_run bits km_impl qsize l m t mx → t <= now →
  ∃ i tk p, km_handle mx l = Some i ∧ tasks mx !! i = Some tk ∧ peers (work_off now (length (sig_queue mx)) mx) !! l = Some p ∧ transport_sa p = get_transport_state (t_state tk).
Proof.
  intros Hr Ht. destruct (drained bits km_impl qsize l m t now mx Hr Ht) as (i & tk & p & Hh & Htk & [H1 H2 H3 H4 H5 H6 H7 H8 H9]). exists i, tk, p. split_and!; try done.
  by rewrite work_off_sigs in H6.
Qed.

(** C11: A failed link comes back.  If the key manager of a link is in the error state,
    then once the worker knows, and as many seconds have passed as there were
    errors, its next check asks for a restart (if that is not asked for yet),
    and the manager's next tick starts a new handshake: the machine is reset,
    the manager goes on, and an initiator's first message is on its way. *)
Theorem failed_link_recovers {SM C : Type} {KM : KeyManagerStateMachine SM C} {ML : MachineLaws SM C} (bits km_impl qsize l t now : Z) (m : SM) (mx : @Mux SM C) :
  mux_run bits km_impl qsize l m t mx → t <= now →
  ∃ i tk, km_handle mx l = Some i ∧ tasks mx !! i = Some tk ∧
    (t_phase tk = Running → is_error (get_state (statemachine (t_state tk))) = true →
     let mx1 := work_off now (length (sig_queue mx)) mx in
     ∀ later w m' h, now + 1000 * (match status mx1 !! l with Some st => error_count st | None => 0 end) < later → sm_reset w (statemachine (t_state tk)) = (m', inr h) →
       ∃ mx2 tk2, task_step bits km_impl (worker_tick later mx1) i w TurnTick = Ret mx2 ∧ tasks mx2 !! i = Some tk2 ∧
         statemachine (t_state tk2) = m' ∧ t_phase tk2 = Running ∧ ∀ b, h = Some b → (l, b) ∈ buf_queue mx2).
Proof.
  intros Hr Ht. destruct (drained bits km_impl qsize l m t now mx Hr Ht) as (i & tk & p & Hh & Htk & [H1 H2 H3 H4 H5 H6 H7 H8 H9]). exists i, tk. split; [done|]. split; [done|].
  intros Hph Hf mx1 later w m' h Hlate Hm. fold mx1 in H1, H3, H7, H8. destruct (H8 Hph) as (_ & _ & Harm). specialize (Harm Hf). unfold mx1 in Harm. rewrite work_off_sigs in Harm. fold mx1 in Harm.
  assert (∃ tk1, tasks (worker_tick later mx1) !! i = Some tk1 ∧ statemachine (t_state tk1) = statemachine (t_state tk) ∧ link_id (t_state tk1) = l ∧ t_phase tk1 = Running ∧ restart_request (t_state tk1) = true)
    as (tk1 & Hi1 & Hsm & Hl1 & Hph1 & Hr1).
  { destruct (restart_state (t_state tk)) as (R1 & R2 & R3 & R4 & R5). rewrite Hf in R5. unfold worker_tick. cbn. rewrite list_lookup_imap, H3. cbn. eexists. split; [done|].
    destruct (bool_decide _) eqn:Ed; cbn; [by rewrite R2|]. split_and!; try done. destruct Harm as [|Ha]; [done|exfalso]. apply bool_decide_eq_false in Ed. apply Ed. unfold due_tasks.
    apply list_elem_of_omap. cbn in Ha. destruct (status mx1 !! l) as [st|] eqn:Es; [|done]. exists (l, st). split; [by apply elem_of_map_to_list|].
    destruct (H7 st eq_refl) as (_ & Hlast & _). unfold restart_due. cbn in Ha. rewrite Ha. destruct (Z.ltb_spec (1000 * error_count st) (later - last_error_t st)); [|lia]. unfold km_handle. rewrite H1. done. }
  rewrite <- Hsm in Hm, Hf. destruct (tick_resets bits km_impl w (t_state tk1) m' h Hf Hr1 Hm) as (s' & out & Et & Hs' & _ & Hout).
  unfold task_step. rewrite Hi1, Hph1. cbv zeta. unfold run_task. rewrite Et. cbv zeta. eexists _, _. split; [reflexivity|]. cbn [tasks with_bufs with_sigs with_tasks buf_queue].
  split; [apply list_lookup_insert_eq; by eapply lookup_lt_Some|]. split; [done|]. split; [done|]. intros b ->. apply elem_of_app. right. rewrite Hout, Hl1. apply list_elem_of_here.
Qed.

(** ** An example, and what is left of a link that is dropped *)

Fixpoint mux_exec {SM C : Type} {KM : KeyManagerStateMachine SM C} (bits km_impl qsize now : Z) (ops : list (@MuxOp SM)) (mx : @Mux SM C) : outcome (@Mux SM C) :=
  match ops with [] => Ret mx | op :: ops => mx' ← mux_step bits km_impl qsize now op mx; mux_exec bits km_impl qsize now ops mx' end.

Lemma exec_run {SM C : Type} {KM : KeyManagerStateMachine SM C} bits km_impl qsize l m now ops (mx mx' : @Mux SM C) :
  mux_run bits km_impl qsize l m now mx → Forall (op_allowed l) ops → mux_exec bits km_impl qsize now ops mx = Ret mx' → mux_run bits km_impl qsize l m now mx'.
Proof.
  intros Hr Ha. revert mx Hr. induction Ha as [|op ops Hop _ IH]; intros mx Hr; cbn [mux_exec]; [by intros [= <-]|]. destruct (mux_step _ _ _ _ _ _) as [mx1|] eqn:E; [|done].
  cbn [mbind outcome_bind]. apply IH. by eapply mux_op.
Qed.

(** A link with the adapter's machine. *)
Definition sample_empty : @Mux KmNoise PeerCertificate := mk_mux {[ 9 := mk_peer_km None None ]} [] ∅ [] [] [].
Abbreviation sample_mux := (mux_exec (KM := noise_machine 1 0) 32 1 4 5).

Definition sample_added : @Mux KmNoise PeerCertificate :=
  mk_mux {[ 9 := mk_peer_km (Some 0%nat) None ]} [mk_task (km_new (KM := noise_machine 1 0) 9 sample_adapter_km) Spawned false (chan_new 4)] ∅ [] [] [].

Lemma sample_added_run : mux_run (KM := noise_machine 1 0) 32 1 4 9 sample_adapter_km 5 sample_added.
Proof.
  apply (mux_added (KM := noise_machine 1 0) 32 1 4 9 sample_adapter_km 5 sample_empty); [|reflexivity].
  split; [done|]. split; [by intros [] tk|]. done.
Qed.

Definition deliver (m : bytes) : list (@MuxOp KmNoise) := [OpInbound 9 m; OpTask 0 (sample_world 6) TurnMessage].
Definition sample_ops (m : bytes) : list (@MuxOp KmNoise) := OpTask 0 (sample_world 5) TurnTick :: deliver m.

Lemma association_installed_witness :
  match sample_mux (sample_ops sample_answer) sample_added with
  | Ret mx => ∃ p sa, peers (work_off 5 (length (sig_queue mx)) mx) !! 9 = Some p ∧ transport_sa p = Some sa ∧ sa_id sa = 1
  | Panic => False
  end.
Proof.
  assert (match sample_mux (sample_ops sample_answer) sample_added with Ret mx => (λ t, sa_id <$> get_transport_state (t_state t)) <$> tasks mx !! 0%nat | Panic => None end = Some (Some 1)) as Ec by (vm_compute; reflexivity).
  destruct (sample_mux (sample_ops sample_answer) sample_added) as [mx|] eqn:E; [|discriminate Ec].
  assert (mux_run (KM := noise_machine 1 0) 32 1 4 9 sample_adapter_km 5 mx) as Hr.
  { apply (exec_run (KM := noise_machine 1 0) 32 1 4 9 sample_adapter_km 5 (sample_ops sample_answer) sample_added mx sample_added_run); [repeat constructor|exact E]. }
  assert (match sample_mux (sample_ops sample_answer) sample_added with Ret mx => km_handle mx 9 | Panic => None end = Some 0%nat) as Eh by (vm_compute; reflexivity). rewrite E in Eh. clear E.
  destruct (association_installed (KM := noise_machine 1 0) 32 1 4 9 5 5 sample_adapter_km mx Hr (Z.le_refl 5)) as (i & tk & p & Hh & Htk & Hp & Hsa).
  assert (i = 0%nat) as -> by congruence. rewrite Htk in Ec. cbn in Ec. destruct (get_transport_state (t_state tk)) as [sa|]; [|discriminate Ec]. injection Ec as Ec. by exists p, sa.
Defined.

Lemma failed_link_recovers_witness :
  match sample_mux (sample_ops [1; 2; 3]) sample_added with
  | Ret mx => ∃ tk, tasks mx !! 0%nat = Some tk ∧ is_error (n_state (statemachine (t_state tk))) = true ∧
      ∃ mx2 tk2, task_step (KM := noise_machine 1 0) 32 1 (worker_tick (KM := noise_machine 1 0) 1006 (work_off 5 (length (sig_queue mx)) mx)) 0 (sample_world 7) TurnTick = Ret mx2 ∧
        tasks mx2 !! 0%nat = Some tk2 ∧ n_state (statemachine (t_state tk2)) = Configuring
  | Panic => False
  end.
Proof.
  assert (match sample_mux (sample_ops [1; 2; 3]) sample_added with
    | Ret mx => ((λ t, (is_error (n_state (statemachine (t_state t))), match t_phase t with Running => true | _ => false end,
        match (noise_reset 7 (sample_key 7) [] (statemachine (t_state t))).2 with inr _ => true | _ => false end)) <$> tasks mx !! 0%nat, km_handle mx 9,
        match status (work_off 5 (length (sig_queue mx)) mx) !! 9 with Some st => error_count st | None => 0 end)
    | Panic => (None, None, 0) end = (Some (true, true, true), Some 0%nat, 1)) as Ec by (vm_compute; reflexivity).
  destruct (sample_mux (sample_ops [1; 2; 3]) sample_added) as [mx|] eqn:E; [|discriminate Ec].
  assert (mux_run (KM := noise_machine 1 0) 32 1 4 9 sample_adapter_km 5 mx) as Hr.
  { apply (exec_run (KM := noise_machine 1 0) 32 1 4 9 sample_adapter_km 5 (sample_ops [1; 2; 3]) sample_added mx sample_added_run); [repeat constructor|exact E]. }
  clear E. injection Ec as E1 E2 E3.
  destruct (failed_link_recovers (KM := noise_machine 1 0) 32 1 4 9 5 5 sample_adapter_km mx Hr (Z.le_refl 5)) as (i & tk & Hh & Htk & Hrec).
  assert (i = 0%nat) as -> by congruence. rewrite Htk in E1. cbn [fmap option_fmap option_map] in E1. injection E1 as F1 F2 F3. exists tk. split; [exact Htk|]. split; [exact F1|].
  destruct (noise_reset 7 (sample_key 7) [] (statemachine (t_state tk))) as [m' [e|h]] eqn:Er; [discriminate F3|].
  destruct (Hrec ltac:(destruct (t_phase tk); [discriminate F2|reflexivity|discriminate F2]) F1 1006 (sample_world 7) m' h ltac:(rewrite E3; lia) Er) as (mx2 & tk2 & G1 & G2 & G3 & _).
  exists mx2, tk2. split; [exact G1|]. split; [exact G2|]. rewrite G3. by apply (reset_configures (H := noise_machine 1 0) (sample_world 7) (statemachine (t_state tk)) m' h).
Defined.

(** The end of a link can come between the signal of an association and the worker: then
    the association of a manager that is gone is in force on a link without one. *)
Theorem dropped_link_keeps_association :
  match sample_mux (sample_ops sample_answer ++ [OpDrop 9; OpTask 0 (sample_world 7) TurnCancel]) sample_added with
  | Ret mx => let mx := work_off 5 (length (sig_queue mx)) mx in km_handle mx 9 = None ∧ is_security_association_established mx 9 = true ∧ t_phase <$> tasks mx !! 0%nat = Some Stopped
  | Panic => False
  end.
Proof. vm_compute. done. Qed.
