(* ===== verification/VsConn.v ===== *)
(** The connection to the visa service, [src/libnode2/src/vsconn.rs]: the loop that serves the
    commands of a node, pings the service and connects again.  The visa service, its
    Cap'n Proto interface and TLS are outside: a remote call is an effect whose answer the
    world chooses, and so are the results of connecting, the commands and the timers. *)
From Stdlib Require Import String.
From S2P Require Import Prelude Zdp.
Open Scope Z_scope.

(** The types of the API, with the fallible conversions of what was read from the wire. *)
Class VsTypes : Type := {
  IpAddr : Type;
  SocketAddrV : Type;
  sock_port : SocketAddrV → Z;
  PublicKey : Type;
  Param : Type;
  param_zpr_addr : IpAddr → Param;
  param_substrate_addr : SocketAddrV → Param;
  param_a2a_dh_pubkey : PublicKey → Param;
  (** capabilities *)
  VSGate : Type;
  VSHandle : Type;
  ApiResponseError : Type;
  ErrReader : Type;
  error_try_from : ErrReader → option ApiResponseError;
  PacketDesc : Type;
  VisaDecision : Type;
  DecisionReader : Type;
  decision_try_from : DecisionReader → option VisaDecision;
  ConnectRequest : Type;
  Connection : Type;
  ConnReader : Type;
  conn_try_from : ConnReader → option Connection;
  DisconnectReason : Type;
  NodeShutdown : DisconnectReason;
  VisaOp : Type;
  OpReader : Type;
  op_try_from : OpReader → option VisaOp;
  Visa : Type;
  VisaReader : Type;
  visa_try_from : VisaReader → option Visa;
  (** [sign_rsa_key] with the node's key *)
  sign_rsa_key : bytes → bytes;
}.

Section vsconn.
Context {VT : VsTypes}.

Inductive VSApiError : Type :=
| ConnClosed | CommandFailed (msg : string) | AuthFailed (msg : string) | IoError | CodedError (e : ApiResponseError) | Capnp | CapnpNotInSchema
| StringConversion | DTError | TLSError (msg : string) | Timeout (name : string) | VsapiTypeError.

(** ** Remote calls *)

(** What a call to the service leads to: no answer in time, an error of the RPC system, or
    an answer. *)
Inductive Rpc (A : Type) : Type := Elapsed | Failed | Answered (a : A).
#[global] Arguments Elapsed {_}.
#[global] Arguments Failed {_}.
#[global] Arguments Answered {_} _.

Definition rpc_with_timeout {A} (name : string) (r : Rpc A) : VSApiError + A :=
  match r with Answered a => inr a | Failed => inl Capnp | Elapsed => inl (Timeout name) end.

(** [result::Which] and [ok_or_error::Which]; [None] where reading fails. *)
Inductive ResultWhich (A : Type) : Type := WhichOk (a : option A) | WhichError (e : option ErrReader).
#[global] Arguments WhichOk {_} _.
#[global] Arguments WhichError {_} _.
Inductive OkOrError : Type := OkWhich | ErrorWhich (e : option ErrReader).

(** [.get()?.get_res()?] and [.which()?] *)
Definition Answer (A : Type) : Type := option (option A).
Definition read_answer {A} (r : Answer A) : VSApiError + A := match r with Some (Some a) => inr a | _ => inl Capnp end.
Definition read_which {A} (r : Answer (option A)) : VSApiError + A :=
  match read_answer r with inl e => inl e | inr None => inl CapnpNotInSchema | inr (Some w) => inr w end.

(** [Err(ApiResponseError::try_from(err_obj?)?.into())] *)
Definition coded_error (e : option ErrReader) : VSApiError :=
  match e with None => Capnp | Some e => match error_try_from e with Some c => CodedError c | None => VsapiTypeError end end.

Definition read_result {A} (r : Answer (option (ResultWhich A))) : VSApiError + A :=
  match read_which r with
  | inl e => inl e
  | inr (WhichOk (Some a)) => inr a
  | inr (WhichOk None) => inl Capnp
  | inr (WhichError e) => inl (coded_error e)
  end.
Definition read_ok (r : Answer (option OkOrError)) : VSApiError + unit :=
  match read_which r with inl e => inl e | inr OkWhich => inr tt | inr (ErrorWhich e) => inl (coded_error e) end.

Inductive ConnectType : Type := Reset | Reconnect.
Record VSConnectRequest : Type := mk_vs_connect { vcr_cn : bytes; vcr_ctype : ConnectType; vcr_params : list Param }.

Inductive ChallengeAlg : Type := RsaSha256Pkcs1v15 | OtherAlg.
(** [get_challenge()?], then [get_bytes()?] and [get_alg()?] *)
Record Challenge : Type := mk_challenge { chal_bytes : option bytes; chal_alg : option ChallengeAlg }.

(** The methods of the service, its gate and its handle, each with the type of its answer. *)
Inductive Call : Type → Type :=
| CallConnect (r : VSConnectRequest) : Call (Answer (option (ResultWhich VSGate)))
| CallChallenge (g : VSGate) : Call (Answer Challenge)
| CallAuthenticate (g : VSGate) (challenge : bytes) (timestamp : Z) (signed : bytes) : Call (Answer (option (ResultWhich VSHandle)))
| CallOpen (r : VSConnectRequest) : Call (Answer (option (ResultWhich VSHandle)))
| CallVisaRequest (h : VSHandle) (pdesc : PacketDesc) : Call (Answer DecisionReader)
| CallAuthorizeConnect (h : VSHandle) (r : ConnectRequest) : Call (Answer (option (ResultWhich ConnReader)))
| CallNotifyDisconnect (h : VSHandle) (zpr_addr : option IpAddr) (reason : DisconnectReason) : Call (Answer (option OkOrError))
| CallRegisterVss (h : VSHandle) (saddr : SocketAddrV) : Call (Answer (option (ResultWhich (list OpReader))))
| CallPing (h : VSHandle) : Call (Answer (option OkOrError))
| CallVisaIds (h : VSHandle) : Call (Answer (option (ResultWhich (list Z))))
| CallVisaByIds (h : VSHandle) (ids : list Z) : Call (Answer (option (ResultWhich (list VisaReader)))).

(** ** Commands, replies, lifecycle *)

Inductive StateFlag : Type := NoState | HasState.
Record NodeConnect : Type := mk_node_connect { zpr_addr : IpAddr; nc_state : StateFlag; a2a_dh_pubkey : PublicKey }.
Definition connect_type (s : StateFlag) : ConnectType := match s with NoState => Reset | HasState => Reconnect end.

Record DisconnectNotice : Type := mk_notice { dn_zpr_addr : option IpAddr; dn_reason : DisconnectReason }.

(** [VS2Command], a reply channel by its number. *)
Inductive VS2Command : Type :=
| Stop (deregister : bool)
| Connect (r : NodeConnect) (tx : nat)
| Open (s : StateFlag) (tx : nat)
| VisaRequestCmd (pdesc : PacketDesc) (tx : nat)
| RegisterVss (saddr : SocketAddrV) (tx : nat)
| AuthorizeConnect (r : ConnectRequest) (tx : nat)
| NotifyDisconnect (r : DisconnectNotice) (tx : nat)
| Ping (tx : nat)
| VisaIdsRequest (tx : nat)
| VisaByIdsRequest (ids : list Z) (tx : nat).

Definition reply_channel (c : VS2Command) : option nat :=
  match c with
  | Stop _ => None
  | Connect _ tx | Open _ tx | VisaRequestCmd _ tx | RegisterVss _ tx | AuthorizeConnect _ tx | NotifyDisconnect _ tx | Ping tx | VisaIdsRequest tx | VisaByIdsRequest _ tx => Some tx
  end.

Inductive VsReply : Type :=
| ReDone (r : VSApiError + unit) | ReDecision (r : VSApiError + VisaDecision) | ReOps (r : VSApiError + list VisaOp)
| ReConnection (r : VSApiError + Connection) | ReIds (r : VSApiError + list Z) | ReVisas (r : VSApiError + list Visa).

Inductive VSConnLifecycleEvent : Type := RunLoopStarts | ConnectedToVsApi (s : StateFlag) | RunLoopExits.

(** What the connection does, in order.  A reply channel that is dropped tells its
    caller [ConnClosed]. *)
Inductive Event : Type :=
| EvCall {A} (c : Call A) (timeout : Z) (r : Rpc A)
| EvClock (now : Z)
| EvReply (tx : nat) (r : VsReply)
| EvDrop (tx : nat)
| EvLife (e : VSConnLifecycleEvent).

(** ** Programs: finitely many calls, readings of the clock and outputs *)

Inductive Prog (A : Type) : Type :=
| Return (a : A)
| Invoke {B} (c : Call B) (timeout : Z) (k : Rpc B → Prog A)
| Clock (k : Z → Prog A)
| Emit (e : Event) (k : Prog A).
#[global] Arguments Return {_} _.
#[global] Arguments Invoke {_ _} _ _ _.
#[global] Arguments Clock {_} _.
#[global] Arguments Emit {_} _ _.

#[global] Instance prog_ret : MRet Prog := @Return.
#[global] Instance prog_bind : MBind Prog := λ A B f, fix go m :=
  match m with Return a => f a | Invoke c t k => Invoke c t (λ r, go (k r)) | Clock k => Clock (λ t, go (k t)) | Emit e k => Emit e (go k) end.

(** [?] *)
Definition and_then {A B} (m : Prog (VSApiError + A)) (f : A → Prog (VSApiError + B)) : Prog (VSApiError + B) :=
  r ← m; match r with inl e => Return (inl e) | inr a => f a end.
Notation "x ←? m ; k" := (and_then m (λ x, k)) (at level 20, m at level 100, k at level 200, right associativity).

(** A call with its timeout, in milliseconds. *)
Definition call {A} (name : string) (timeout : Z) (c : Call A) : Prog (VSApiError + A) := Invoke c timeout (λ r, Return (rpc_with_timeout name r)).
Definition of_result {A} (r : VSApiError + A) : Prog (VSApiError + A) := Return r.
Definition vs_reply (tx : nat) (r : VsReply) : Prog unit := Emit (EvReply tx r) (Return tt).
Definition send_lifecycle_event (e : VSConnLifecycleEvent) : Prog unit := Emit (EvLife e) (Return tt).

Definition VSAPI_PING_INTERVAL : Z := 5000.
Definition VSAPI_MAX_PING_FAILURES : Z := 2.
Definition PING_MIN_TIMEOUT : Z := 1000.
Definition DEFAULT_RPC_TIMEOUT : Z := 10000.
Definition DEFAULT_CONNECT_RPC_TIMEOUT : Z := 30000.

(** The node's name and its substrate address. *)
Context (node_cn : bytes) (substrate_addr : SocketAddrV).

Definition unix_ts : Prog Z := Clock Return.

Definition sign_payload (timestamp : Z) (cn challenge_data : bytes) : bytes := sign_rsa_key (be_put 8 timestamp ++ cn ++ challenge_data).

Definition do_connect (r : NodeConnect) : Prog (VSApiError + VSHandle) :=
  let vs_cr := mk_vs_connect node_cn (connect_type (nc_state r)) [param_zpr_addr (zpr_addr r); param_substrate_addr substrate_addr; param_a2a_dh_pubkey (a2a_dh_pubkey r)] in
  vs_request_response ←? call "connect" DEFAULT_CONNECT_RPC_TIMEOUT (CallConnect vs_cr);
  vs_gate_svc ←? of_result (read_result vs_request_response);
  gate_response ←? call "challenge" DEFAULT_CONNECT_RPC_TIMEOUT (CallChallenge vs_gate_svc);
  challenge ←? of_result (read_answer gate_response);
  chal_data ←? of_result (match chal_bytes challenge with Some b => inr b | None => inl Capnp end);
  timestamp ← unix_ts;
  alg ←? of_result (match chal_alg challenge with Some a => inr a | None => inl CapnpNotInSchema end);
  match alg with
  | OtherAlg => Return (inl (CommandFailed "unsupported challenge alg"))
  | RsaSha256Pkcs1v15 =>
      let signed_payload := sign_payload timestamp node_cn chal_data in
      gate_response ←? call "authenticate" DEFAULT_CONNECT_RPC_TIMEOUT (CallAuthenticate vs_gate_svc chal_data timestamp signed_payload);
      of_result (read_result gate_response)
  end.

Definition do_open (s : StateFlag) : Prog (VSApiError + VSHandle) :=
  let req := mk_vs_connect node_cn (connect_type s) [param_substrate_addr substrate_addr] in
  r ←? call "open" DEFAULT_CONNECT_RPC_TIMEOUT (CallOpen req);
  of_result (read_result r).

Definition vs_typed {A} (o : option A) : VSApiError + A := match o with Some a => inr a | None => inl VsapiTypeError end.

Definition do_visa_request (h : VSHandle) (pdesc : PacketDesc) : Prog (VSApiError + VisaDecision) :=
  r ←? call "visa_request" DEFAULT_RPC_TIMEOUT (CallVisaRequest h pdesc);
  d ←? of_result (read_answer r);
  of_result (vs_typed (decision_try_from d)).

Definition do_authorize_connect (h : VSHandle) (req : ConnectRequest) : Prog (VSApiError + Connection) :=
  r ←? call "authorize_connect" DEFAULT_RPC_TIMEOUT (CallAuthorizeConnect h req);
  conn ←? of_result (read_result r);
  of_result (vs_typed (conn_try_from conn)).

Definition do_notify_disconnect (h : VSHandle) (req : DisconnectNotice) : Prog (VSApiError + unit) :=
  r ←? call "notify_disconnect" DEFAULT_RPC_TIMEOUT (CallNotifyDisconnect h (dn_zpr_addr req) (dn_reason req));
  of_result (read_ok r).

(** [VisaOp::try_from] and [Visa::try_from] over a list, up to the first error. *)
Definition all_typed {A B} (f : A → option B) (l : list A) : VSApiError + list B := vs_typed (mapM f l).

Definition do_register_vss (h : VSHandle) (saddr : SocketAddrV) : Prog (VSApiError + list VisaOp) :=
  r ←? call "register_vss" DEFAULT_RPC_TIMEOUT (CallRegisterVss h saddr);
  ops_list ←? of_result (read_result r);
  of_result (all_typed op_try_from ops_list).

Definition do_ping (h : VSHandle) (with_timeout : Z) : Prog (VSApiError + unit) :=
  r ←? call "ping" with_timeout (CallPing h);
  of_result (read_ok r).

Definition do_visa_ids_request (h : VSHandle) : Prog (VSApiError + list Z) :=
  r ←? call "visa_ids_request" DEFAULT_RPC_TIMEOUT (CallVisaIds h);
  of_result (read_result r).

Definition do_visa_by_ids_request (h : VSHandle) (ids : list Z) : Prog (VSApiError + list Visa) :=
  r ←? call "visa_by_ids_request" DEFAULT_RPC_TIMEOUT (CallVisaByIds h ids);
  visas ←? of_result (read_result r);
  of_result (all_typed visa_try_from visas).

(** [VSCommandState], whose service is that of the connection. *)
Definition VSCommandState : Type := option VSHandle.
Definition is_connected (s : VSCommandState) : bool := match s with Some _ => true | None => false end.

(** The answer to a command that needs the handle. *)
Definition with_handle {A} (s : VSCommandState) (f : VSHandle → Prog (VSApiError + A)) : Prog (VSApiError + A) :=
  match s with Some h => f h | None => Return (inl (CommandFailed "not connected to VS-API")) end.

(** The common end of [Connect] and [Open]. *)
Definition finish_connect (s : VSCommandState) (flag : StateFlag) (tx : nat) (resp : VSApiError + VSHandle) : Prog VSCommandState :=
  match resp with
  | inr h => _ ← send_lifecycle_event (ConnectedToVsApi flag); _ ← vs_reply tx (ReDone (inr tt)); mret (Some h)
  | inl e => _ ← vs_reply tx (ReDone (inl e)); mret s
  end.

Definition handle_command (s : VSCommandState) (cmd : VS2Command) : Prog (VSApiError + VSCommandState) :=
  let answered tx re := _ ← vs_reply tx re; mret (inr s) in
  match cmd with
  | Stop deregister =>
      match s with
      | Some h =>
          if deregister then
            r ←? call "notify_disconnect" DEFAULT_RPC_TIMEOUT (CallNotifyDisconnect h None NodeShutdown);
            w ←? of_result (read_which r);
            match w with OkWhich | ErrorWhich (Some _) => Return (inr s) | ErrorWhich None => Return (inl Capnp) end
          else Return (inr s)
      | None => Return (inr s)
      end
  | Connect req tx =>
      resp ← (if is_connected s then Return (inl (CommandFailed "connect called but already connected to VS-API")) else do_connect req);
      s ← finish_connect s (nc_state req) tx resp; mret (inr s)
  | Open flag tx =>
      resp ← (if is_connected s then Return (inl (CommandFailed "open called but already connected to VS-API")) else do_open flag);
      s ← finish_connect s flag tx resp; mret (inr s)
  | VisaRequestCmd pdesc tx => r ← with_handle s (λ h, do_visa_request h pdesc); answered tx (ReDecision r)
  | RegisterVss saddr tx => r ← with_handle s (λ h, do_register_vss h saddr); answered tx (ReOps r)
  | AuthorizeConnect req tx => r ← with_handle s (λ h, do_authorize_connect h req); answered tx (ReConnection r)
  | NotifyDisconnect req tx => r ← with_handle s (λ h, do_notify_disconnect h req); answered tx (ReDone r)
  | Ping tx => r ← with_handle s (λ h, do_ping h PING_MIN_TIMEOUT); answered tx (ReDone r)
  | VisaIdsRequest tx => r ← with_handle s do_visa_ids_request; answered tx (ReIds r)
  | VisaByIdsRequest ids tx => r ← with_handle s (λ h, do_visa_by_ids_request h ids); answered tx (ReVisas r)
  end.

(** [VSConnHandle::register_vss], up to the command it sends. *)
Definition register_vss (saddr : SocketAddrV) (tx : nat) : VSApiError + VS2Command :=
  if sock_port saddr =? 0 then inl (CommandFailed "cannot register VSS with port 0") else inr (RegisterVss saddr tx).

(** What a method of [VSConnHandle] returns, given the reply or its absence. *)
Definition reply_or_closed (r : option VsReply) (closed : VsReply) : VsReply := default closed r.

(** ** The loops *)

(** Where [run_with_reconnect] waits: in [run] for TCP, for TLS, or in its loop with the
    handle, the failed pings and the time the ping timer was last set to; between two runs;
    or it has returned. *)
Inductive VsPhase : Type :=
| Connecting | TlsConnecting | Looping (s : VSCommandState) (ping_failures next_ping : Z) | Delaying | Returned.

(** What it waits for: a command, [None] when the channel is closed; the results of
    connecting; the ping timer; the reconnect delay. *)
Inductive VsInput : Type := InCmd (c : option VS2Command) | InTcp (ok : bool) | InTls (ok : bool) | InPingTimer | InDelay.

Definition is_stop (c : VS2Command) : bool := match c with Stop _ => true | _ => false end.

(** [drop(other)] *)
Definition drop_command (c : VS2Command) (k : VsPhase) : Prog VsPhase := match reply_channel c with Some tx => Emit (EvDrop tx) (Return k) | None => Return k end.

Definition exits (k : VsPhase) : Prog VsPhase := _ ← send_lifecycle_event RunLoopExits; mret k.

Definition ping_turn (s : VSCommandState) (ping_failures : Z) : Prog VsPhase :=
  match s with
  | None => mret (Looping s 0 VSAPI_PING_INTERVAL)
  | Some h =>
      r ← do_ping h (PING_MIN_TIMEOUT + 1000 * ping_failures);
      match r with
      | inr _ => mret (Looping s 0 VSAPI_PING_INTERVAL)
      | inl _ =>
          let ping_failures := ping_failures + 1 in
          if VSAPI_MAX_PING_FAILURES <=? ping_failures then exits Delaying else mret (Looping s ping_failures 1000)
      end
  end.

(** [run] inside [run_with_reconnect]: [None] for what it does not wait for. *)
Definition vs_step (ph : VsPhase) (i : VsInput) : option (Prog VsPhase) :=
  match ph, i with
  | Connecting, InTcp ok => Some (mret (if ok then TlsConnecting else Delaying))
  | Connecting, InCmd c =>
      Some (match c with
            | None | Some (Stop _) => exits Returned
            | Some other => drop_command other Connecting
            end)
  | TlsConnecting, InTls ok => Some (if ok then _ ← send_lifecycle_event RunLoopStarts; mret (Looping None 0 VSAPI_PING_INTERVAL) else mret Delaying)
  | Looping s f t, InCmd None => Some (exits Returned)
  | Looping s f t, InCmd (Some cmd) =>
      Some (r ← handle_command s cmd;
            match r with
            | inl _ => exits Delaying
            | inr s => if is_stop cmd then exits Returned else mret (Looping s f t)
            end)
  | Looping s f t, InPingTimer => Some (ping_turn s f)
  | Delaying, InCmd c =>
      Some (match c with
            | None | Some (Stop _) => mret Returned
            | Some other => drop_command other Delaying
            end)
  | Delaying, InDelay => Some (mret Connecting)
  | _, _ => None
  end.

(** ** Runs: the world answers the calls as it likes *)

Fixpoint runs {A} (m : Prog A) (tr : list Event) (a : A) : Prop :=
  match m with
  | Return x => tr = [] ∧ a = x
  | Invoke c t k => ∃ r tr', tr = EvCall c t r :: tr' ∧ runs (k r) tr' a
  | Clock k => ∃ now tr', tr = EvClock now :: tr' ∧ runs (k now) tr' a
  | Emit e k => ∃ tr', tr = e :: tr' ∧ runs k tr' a
  end.

Inductive vs_run : VsPhase → list VsInput → list Event → VsPhase → Prop :=
| vs_run_nil ph : vs_run ph [] [] ph
| vs_run_cons ph i p tr ph' ins tr' ph'' : vs_step ph i = Some p → runs p tr ph' → vs_run ph' ins tr' ph'' → vs_run ph (i :: ins) (tr ++ tr') ph''.

Lemma runs_bind {A B} (m : Prog A) (f : A → Prog B) tr b : runs (m ≫= f) tr b → ∃ tr1 a tr2, runs m tr1 a ∧ runs (f a) tr2 b ∧ tr = tr1 ++ tr2.
Proof.
  revert tr. induction m as [a|X c t k IH|k IH|e k IH]; intros tr; cbn.
  - intros H. by exists [], a, tr.
  - intros (r & tr' & -> & H). destruct (IH r tr' H) as (tr1 & a & tr2 & ? & ? & ->). exists (EvCall c t r :: tr1), a, tr2. eauto 10.
  - intros (now & tr' & -> & H). destruct (IH now tr' H) as (tr1 & a & tr2 & ? & ? & ->). exists (EvClock now :: tr1), a, tr2. eauto 10.
  - intros (tr' & -> & H). destruct (IH tr' H) as (tr1 & a & tr2 & ? & ? & ->). exists (e :: tr1), a, tr2. eauto 10.
Qed.

Lemma runs_and_then {A B} (m : Prog (VSApiError + A)) (f : A → Prog (VSApiError + B)) tr b : runs (and_then m f) tr b →
  ∃ tr1 r tr2, runs m tr1 r ∧ tr = tr1 ++ tr2 ∧ match r with inl e => tr2 = [] ∧ b = inl e | inr a => runs (f a) tr2 b end.
Proof. intros (tr1 & r & tr2 & ? & ? & ->)%runs_bind. exists tr1, r, tr2. split_and!; try done. by destruct r. Qed.

(** *** Replies *)

Definition answered (tr : list Event) : list nat := omap (λ e, match e with EvReply tx _ | EvDrop tx => Some tx | _ => None end) tr.

(** A program that answers nobody. *)
Fixpoint silent {A} (m : Prog A) : Prop :=
  match m with
  | Return _ => True
  | Invoke _ _ k => ∀ r, silent (k r)
  | Clock k => ∀ now, silent (k now)
  | Emit e k => match e with EvReply _ _ | EvDrop _ => False | _ => True end ∧ silent k
  end.

Lemma silent_bind {A B} (m : Prog A) (f : A → Prog B) : silent m → (∀ a, silent (f a)) → silent (m ≫= f).
Proof. induction m as [a|X c t k IH|k IH|e k IH]; cbn; intros Hm Hf; [done|intros; by apply IH|intros; by apply IH|]. destruct Hm. split; [done|by apply IH]. Qed.

Lemma silent_and_then {A B} (m : Prog (VSApiError + A)) (f : A → Prog (VSApiError + B)) : silent m → (∀ a, silent (f a)) → silent (and_then m f).
Proof. intros Hm Hf. apply silent_bind; [done|]. by intros [e|a]. Qed.

Lemma silent_answered {A} (m : Prog A) tr a : silent m → runs m tr a → answered tr = [].
Proof.
  revert tr. induction m as [x|X c t k IH|k IH|e k IH]; intros tr Hs; cbn.
  - by intros [-> _].
  - intros (r & tr' & -> & H). exact (IH r tr' (Hs r) H).
  - intros (now & tr' & -> & H). exact (IH now tr' (Hs now) H).
  - intros (tr' & -> & H). destruct Hs as [He Hs]. specialize (IH tr' Hs H). by destruct e.
Qed.

Ltac silent := repeat first [apply silent_and_then|apply silent_bind|done|intros ?|case_match].

Lemma silent_connect r : silent (do_connect r).
Proof. unfold do_connect. cbv zeta. silent. Qed.

Lemma silent_open f : silent (do_open f).
Proof. unfold do_open. cbv zeta. silent. Qed.

Lemma answered_app l l' : answered (l ++ l') = answered l ++ answered l'.
Proof. apply omap_app. Qed.

(** A silent program whose result is sent to [tx]. *)
Lemma answered_reply {A B} (m : Prog A) (re : A → VsReply) (x : A → B) tx tr b :
  silent m → runs (r ← m; _ ← vs_reply tx (re r); mret (x r)) tr b → answered tr = [tx].
Proof.
  intros Hs (tr1 & r & tr2 & H1 & H2 & ->)%runs_bind. rewrite answered_app, (silent_answered m tr1 r Hs H1). cbn in H2. destruct H2 as (tr' & -> & -> & _). done.
Qed.

Lemma answered_finish s flag tx resp tr s' : runs (finish_connect s flag tx resp) tr s' → answered tr = [tx].
Proof. destruct resp as [e|h]; cbn; [by intros (tr' & -> & -> & _)|]. by intros (tr' & -> & tr2 & -> & -> & _). Qed.

Lemma handle_command_answers s cmd tr r : runs (handle_command s cmd) tr r → answered tr = match reply_channel cmd with Some tx => [tx] | None => [] end.
Proof.
  destruct cmd as [d|req tx|f tx|p tx|a tx|req tx|n tx|tx|tx|ids tx]; cbn [handle_command reply_channel].
  - apply silent_answered. destruct s as [h|]; [|done]. destruct d; [|done]. silent.
  - intros (tr1 & resp & tr2 & H1 & H2 & ->)%runs_bind. rewrite answered_app. apply runs_bind in H2 as (tr3 & s' & tr4 & H2 & [-> _] & ->). rewrite app_nil_r, (answered_finish _ _ _ _ _ _ H2).
    apply silent_answered in H1 as ->; [done|]. destruct (is_connected s); [done|apply silent_connect].
  - intros (tr1 & resp & tr2 & H1 & H2 & ->)%runs_bind. rewrite answered_app. apply runs_bind in H2 as (tr3 & s' & tr4 & H2 & [-> _] & ->). rewrite app_nil_r, (answered_finish _ _ _ _ _ _ H2).
    apply silent_answered in H1 as ->; [done|]. destruct (is_connected s); [done|apply silent_open].
  - apply (answered_reply _ ReDecision). destruct s; [|done]. unfold with_handle, do_visa_request. silent.
  - apply (answered_reply _ ReOps). destruct s; [|done]. unfold with_handle, do_register_vss. silent.
  - apply (answered_reply _ ReConnection). destruct s; [|done]. unfold with_handle, do_authorize_connect. silent.
  - apply (answered_reply _ ReDone). destruct s; [|done]. unfold with_handle, do_notify_disconnect. silent.
  - apply (answered_reply _ ReDone). destruct s; [|done]. unfold with_handle, do_ping. silent.
  - apply (answered_reply _ ReIds). destruct s; [|done]. unfold with_handle, do_visa_ids_request. silent.
  - apply (answered_reply _ ReVisas). destruct s; [|done]. unfold with_handle, do_visa_by_ids_request. silent.
Qed.

Definition input_channel (i : VsInput) : option nat := match i with InCmd (Some c) => reply_channel c | _ => None end.

Lemma silent_ping_turn s f : silent (ping_turn s f).
Proof. destruct s as [h|]; [|done]. cbn [ping_turn]. apply silent_bind; [unfold do_ping; silent|]. intros [e|a]; [|done]. cbv zeta. by destruct (_ <=? _). Qed.

Lemma drop_answers c k tr ph : runs (drop_command c k) tr ph → answered tr = match reply_channel c with Some tx => [tx] | None => [] end.
Proof. unfold drop_command. destruct (reply_channel c); cbn; [by intros (tr' & -> & -> & _)|by intros [-> _]]. Qed.

Lemma step_answers ph i p tr ph' : vs_step ph i = Some p → runs p tr ph' → answered tr = match input_channel i with Some tx => [tx] | None => [] end.
Proof.
  assert (∀ k tr ph', runs (exits k) tr ph' → answered tr = []) as Hex by (intros k tr0 ph0; cbn; by intros (tr' & -> & -> & _)).
  destruct ph as [| |s f t| |], i as [c|ok|ok| |]; cbn [vs_step]; intros Hs; try discriminate Hs; try (destruct c as [c|]); apply (inj Some) in Hs; subst p.
  - destruct (is_stop c) eqn:E; [destruct c; try done; apply Hex|]. intros H. assert (runs (drop_command c Connecting) tr ph') as H' by (by destruct c). by apply drop_answers in H'.
  - apply Hex.
  - by intros [-> _].
  - destruct ok; cbn; [by intros (tr' & -> & -> & _)|by intros [-> _]].
  - intros (tr1 & r & tr2 & H1 & H2 & ->)%runs_bind. rewrite answered_app. apply handle_command_answers in H1 as ->. cbn [input_channel].
    assert (answered tr2 = []) as -> by (destruct r as [e|s']; [by eapply Hex|]; destruct (is_stop c); [by eapply Hex|by destruct H2 as [-> _]]). by rewrite app_nil_r.
  - apply Hex.
  - apply silent_answered, silent_ping_turn.
  - destruct (is_stop c) eqn:E; [destruct c; try done; by intros [-> _]|]. intros H. assert (runs (drop_command c Delaying) tr ph') as H' by (by destruct c). by apply drop_answers in H'.
  - by intros [-> _].
  - by intros [-> _].
Qed.

Lemma run_answers ph ins tr ph' : vs_run ph ins tr ph' → answered tr = omap input_channel ins.
Proof.
  induction 1 as [ph|ph i p tr ph1 ins tr' ph2 Hs Hr _ IH]; [done|]. rewrite answered_app, IH, (step_answers _ _ _ _ _ Hs Hr). cbn. by destruct (input_channel i).
Qed.

(** *** Sessions *)

(** What a listener can make of the events: no loop runs, or one does, with the handle it
    uses and the one that the last call was answered with. *)
Inductive Session : Type := Down | Up (h offered : option VSHandle).

Definition handle_of {A} (c : Call A) : option VSHandle :=
  match c with
  | CallVisaRequest h _ | CallAuthorizeConnect h _ | CallNotifyDisconnect h _ _ | CallRegisterVss h _ | CallPing h | CallVisaIds h | CallVisaByIds h _ => Some h
  | _ => None
  end.

Definition handle_in (r : Rpc (Answer (option (ResultWhich VSHandle)))) : option VSHandle :=
  match r with Answered a => match read_result a with inr h => Some h | inl _ => None end | _ => None end.
Definition offered_by {A} (c : Call A) : Rpc A → option VSHandle :=
  match c with CallAuthenticate _ _ _ _ => handle_in | CallOpen _ => handle_in | _ => λ _, None end.

Inductive session_step : Session → Event → Session → Prop :=
| ses_starts : session_step Down (EvLife RunLoopStarts) (Up None None)
| ses_exits s : session_step s (EvLife RunLoopExits) Down
| ses_connected h f : session_step (Up None (Some h)) (EvLife (ConnectedToVsApi f)) (Up (Some h) None)
| ses_ask {A} (c : Call A) t r o : handle_of c = None → session_step (Up None o) (EvCall c t r) (Up None (offered_by c r))
| ses_use {A} (c : Call A) t r h o : handle_of c = Some h → session_step (Up (Some h) o) (EvCall c t r) (Up (Some h) o)
| ses_clock s t : session_step s (EvClock t) s
| ses_reply s tx r : session_step s (EvReply tx r) s
| ses_drop s tx : session_step s (EvDrop tx) s.

Inductive session_steps : Session → list Event → Session → Prop :=
| sess_nil s : session_steps s [] s
| sess_cons s e s1 tr s2 : session_step s e s1 → session_steps s1 tr s2 → session_steps s (e :: tr) s2.

Lemma session_app s tr s1 tr' s2 : session_steps s tr s1 → session_steps s1 tr' s2 → session_steps s (tr ++ tr') s2.
Proof. induction 1; [done|]. intros. econstructor; eauto. Qed.

(** The session that goes with a phase. *)
Definition in_session (ph : VsPhase) (s : Session) : Prop := match ph with Looping h _ _ => ∃ o, s = Up h o | _ => s = Down end.

(** [m] keeps to the protocol: from [P] to [Q]. *)
Definition follows {A} (P : Session → Prop) (m : Prog A) (Q : A → Session → Prop) : Prop :=
  ∀ tr a s, runs m tr a → P s → ∃ s', session_steps s tr s' ∧ Q a s'.

Lemma follows_return {A} (P : Session → Prop) (a : A) (Q : A → Session → Prop) : (∀ s, P s → Q a s) → follows P (Return a) Q.
Proof. intros H tr x s [-> ->] HP. exists s. split; [constructor|by apply H]. Qed.

Lemma follows_bind {A B} P (m : Prog A) (f : A → Prog B) R Q : follows P m R → (∀ a, follows (R a) (f a) Q) → follows P (m ≫= f) Q.
Proof.
  intros Hm Hf tr b s (tr1 & a & tr2 & H1 & H2 & ->)%runs_bind HP. destruct (Hm _ _ _ H1 HP) as (s1 & S1 & HR). destruct (Hf a _ _ _ H2 HR) as (s2 & S2 & HQ). eauto using session_app.
Qed.

Lemma follows_and_then {A B} P (m : Prog (VSApiError + A)) (f : A → Prog (VSApiError + B)) R Q :
  follows P m R → (∀ e s, R (inl e) s → Q (inl e) s) → (∀ a, follows (R (inr a)) (f a) Q) → follows P (and_then m f) Q.
Proof. intros Hm He Hf. eapply follows_bind; [done|]. intros [e|a]; [apply follows_return, He|apply Hf]. Qed.

Lemma follows_emit {A} (P : Session → Prop) e (k : Prog A) (R : Session → Prop) Q : (∀ s, P s → ∃ s', session_step s e s' ∧ R s') → follows R k Q → follows P (Emit e k) Q.
Proof. intros He Hk tr a s (tr' & -> & H) HP. destruct (He s HP) as (s1 & S1 & HR). destruct (Hk _ _ _ H HR) as (s2 & S2 & HQ). exists s2. split; [by econstructor|done]. Qed.

Definition asking (s : Session) : Prop := ∃ o, s = Up None o.
Definition uses_h (h : VSHandle) (s : Session) : Prop := ∃ o, s = Up (Some h) o.

Lemma call_uses {A} name t (c : Call A) h : handle_of c = Some h → follows (uses_h h) (call name t c) (λ _, uses_h h).
Proof. intros Hc tr r s (rp & tr' & -> & -> & ->) [o ->]. exists (Up (Some h) o). split; [|by exists o]. econstructor; [by constructor|constructor]. Qed.

Lemma call_asks {A} name t (c : Call A) : handle_of c = None → follows asking (call name t c) (λ _, asking).
Proof. intros Hc tr r s (rp & tr' & -> & -> & ->) [o ->]. exists (Up None (offered_by c rp)). split; [|by eexists]. econstructor; [by constructor|constructor]. Qed.

(** The call that returns a handle, and what is read from its answer. *)
Definition offers (r : VSApiError + VSHandle) (s : Session) : Prop := ∃ o, s = Up None o ∧ ∀ h, r = inr h → o = Some h.

Lemma call_offers name t (c : Call (Answer (option (ResultWhich VSHandle)))) : handle_of c = None → offered_by c = handle_in →
  follows asking (r ←? call name t c; of_result (read_result r)) offers.
Proof.
  intros Hc Ho tr r s (tr1 & rp & tr2 & (rpc & tr' & -> & -> & ->) & -> & H)%runs_and_then [o ->]. exists (Up None (handle_in rpc)). split.
  - destruct (rpc_with_timeout name rpc) as [e|a]; destruct H as [-> _]; (econstructor; [|constructor]); rewrite <- Ho; by constructor.
  - eexists. split; [done|]. intros h Hr. subst r. destruct rpc as [| |a]; cbn in *; destruct H as [_ H]; try done. by rewrite <- H.
Qed.

Lemma asking_offers (e : VSApiError) s : asking s → offers (inl e) s.
Proof. intros [o ->]. by exists o. Qed.

Lemma connect_follows r : follows asking (do_connect r) offers.
Proof.
  unfold do_connect. cbv zeta. eapply follows_and_then; [by apply call_asks|apply asking_offers|]. intros resp.
  eapply follows_and_then; [by apply (follows_return asking (read_result resp) (λ _, asking))|apply asking_offers|]. intros g.
  eapply follows_and_then; [by apply call_asks|apply asking_offers|]. intros resp2.
  eapply follows_and_then; [by apply (follows_return asking (read_answer resp2) (λ _, asking))|apply asking_offers|]. intros ch.
  eapply follows_and_then; [by apply (follows_return asking _ (λ _, asking))|apply asking_offers|]. intros data.
  eapply follows_bind with (R := λ _, asking).
  { intros tr a s (now & tr' & -> & -> & ->) H. exists s. split; [|done]. econstructor; [constructor|constructor]. }
  intros ts. eapply follows_and_then; [by apply (follows_return asking _ (λ _, asking))|apply asking_offers|]. intros [|]; [|apply follows_return; intros; by apply asking_offers].
  by apply call_offers.
Qed.

Lemma pure_uses {A} h (r : VSApiError + A) : follows (uses_h h) (of_result r) (λ _, uses_h h).
Proof. by apply follows_return. Qed.

Ltac uses := repeat (eapply follows_and_then; [first [apply call_uses; reflexivity|apply pure_uses]|done|]; intros ?); apply pure_uses.

Lemma with_handle_follows {A} s (f : VSHandle → Prog (VSApiError + A)) : (∀ h, s = Some h → follows (uses_h h) (f h) (λ _, uses_h h)) →
  follows (λ x, ∃ o, x = Up s o) (with_handle s f) (λ _ x, ∃ o, x = Up s o).
Proof. intros H. destruct s as [h|]; cbn; [by apply H|by apply follows_return]. Qed.

Lemma reply_follows {A} (m : Prog A) (re : A → VsReply) tx (s : VSCommandState) :
  follows (λ x, ∃ o, x = Up s o) m (λ _ x, ∃ o, x = Up s o) →
  follows (λ x, ∃ o, x = Up s o) (r ← m; _ ← vs_reply tx (re r); mret (@inr VSApiError VSCommandState s))
    (λ r x, match r with inl _ => ∃ o, x = Up s o | inr s' => ∃ o, x = Up s' o end).
Proof.
  intros Hm. eapply follows_bind; [done|]. intros a. apply (follows_emit _ _ _ (λ x, ∃ o, x = Up s o)); [|by apply follows_return]. intros x Hx. exists x. split; [constructor|exact Hx].
Qed.

Lemma finish_follows flag tx r : follows (offers r) (finish_connect None flag tx r) (λ s' x, ∃ o, x = Up s' o).
Proof.
  destruct r as [e|h]; cbn.
  - apply (follows_emit _ _ _ asking); [|by apply follows_return]. intros x (o & -> & _). exists (Up None o). split; [constructor|by exists o].
  - apply (follows_emit _ _ _ (uses_h h)); [|apply (follows_emit _ _ _ (uses_h h)); [|by apply follows_return]].
    + intros x (o & -> & Ho). rewrite (Ho h eq_refl). exists (Up (Some h) None). split; [constructor|by exists None].
    + intros x Hx. exists x. split; [constructor|exact Hx].
Qed.

Lemma refuse_follows (h : VSHandle) flag tx e : follows (uses_h h) (finish_connect (Some h) flag tx (inl e)) (λ s' x, ∃ o, x = Up s' o).
Proof. cbn. apply (follows_emit _ _ _ (uses_h h)); [|by apply follows_return]. intros x Hx. exists x. split; [constructor|exact Hx]. Qed.

Lemma handle_follows s cmd : follows (λ x, ∃ o, x = Up s o) (handle_command s cmd) (λ r x, match r with inl _ => ∃ o, x = Up s o | inr s' => ∃ o, x = Up s' o end).
Proof.
  destruct cmd as [d|req tx|f tx|p tx|a tx|req tx|n tx|tx|tx|ids tx]; cbn [handle_command].
  - destruct s as [h|]; [|by apply follows_return]. destruct d; [|by apply follows_return]. change (λ x, ∃ o, x = Up (Some h) o) with (uses_h h).
    eapply follows_and_then; [by apply call_uses|done|]. intros r. eapply follows_and_then; [by apply (follows_return _ (read_which r) (λ _, uses_h h))|done|]. intros [|[e|]]; by apply follows_return.
  - destruct s as [h|]; cbn [is_connected].
    + eapply follows_bind; [by apply (follows_return _ _ (λ r x, uses_h h x ∧ ∃ e, r = inl e)); intros x Hx; split; [exact Hx|by eexists]|]. intros r.
      intros tr q x Hrun [Hx [e ->]]. revert tr q x Hrun Hx. eapply follows_bind; [apply refuse_follows|]. intros s'. by apply follows_return.
    + eapply follows_bind; [apply connect_follows|]. intros r. eapply follows_bind; [apply finish_follows|]. intros s'. by apply follows_return.
  - destruct s as [h|]; cbn [is_connected].
    + eapply follows_bind; [by apply (follows_return _ _ (λ r x, uses_h h x ∧ ∃ e, r = inl e)); intros x Hx; split; [exact Hx|by eexists]|]. intros r.
      intros tr q x Hrun [Hx [e ->]]. revert tr q x Hrun Hx. eapply follows_bind; [apply refuse_follows|]. intros s'. by apply follows_return.
    + eapply follows_bind; [by apply call_offers|]. intros r. eapply follows_bind; [apply finish_follows|]. intros s'. by apply follows_return.
  - apply (reply_follows _ ReDecision), with_handle_follows. intros h _. unfold do_visa_request. uses.
  - apply (reply_follows _ ReOps), with_handle_follows. intros h _. unfold do_register_vss. uses.
  - apply (reply_follows _ ReConnection), with_handle_follows. intros h _. unfold do_authorize_connect. uses.
  - apply (reply_follows _ ReDone), with_handle_follows. intros h _. unfold do_notify_disconnect. uses.
  - apply (reply_follows _ ReDone), with_handle_follows. intros h _. unfold do_ping. uses.
  - apply (reply_follows _ ReIds), with_handle_follows. intros h _. unfold do_visa_ids_request. uses.
  - apply (reply_follows _ ReVisas), with_handle_follows. intros h _. unfold do_visa_by_ids_request. uses.
Qed.

Lemma exits_follows (P : Session → Prop) ph : in_session ph Down → follows P (exits ph) in_session.
Proof. intros Hd. apply (follows_emit _ _ _ (λ x, x = Down)); [|apply follows_return; by intros x ->]. intros x _. exists Down. split; [constructor|done]. Qed.

Lemma drop_follows c ph : ph = Connecting ∨ ph = Delaying → follows (λ x, x = Down) (drop_command c ph) in_session.
Proof.
  intros Hph. assert (∀ x, x = Down → in_session ph x) as H by (by destruct Hph as [->| ->]). unfold drop_command. destruct (reply_channel c); [|by apply follows_return].
  apply (follows_emit _ _ _ (λ x, x = Down)); [|by apply follows_return]. intros x ->. exists Down. split; [constructor|done].
Qed.

Lemma ping_follows s f : follows (λ x, ∃ o, x = Up s o) (ping_turn s f) in_session.
Proof.
  destruct s as [h|]; cbn [ping_turn]; [|by apply follows_return]. change (λ x, ∃ o, x = Up (Some h) o) with (uses_h h).
  eapply follows_bind with (R := λ _, uses_h h); [unfold do_ping; uses|]. intros [e|[]]; [|by apply follows_return]. cbv zeta. destruct (_ <=? _); [by apply exits_follows|by apply follows_return].
Qed.

Lemma step_follows ph i p : vs_step ph i = Some p → follows (in_session ph) p in_session.
Proof.
  destruct ph as [| |s f t| |], i as [c|ok|ok| |]; cbn [vs_step]; intros Hs; try discriminate Hs; try (destruct c as [c|]); apply (inj Some) in Hs; subst p; cbn [in_session].
  - destruct (is_stop c) eqn:E; [destruct c; try done; by apply exits_follows|]. assert (follows (λ x, x = Down) (drop_command c Connecting) in_session) by (apply drop_follows; by left). by destruct c.
  - by apply exits_follows.
  - by destruct ok; apply follows_return.
  - destruct ok; [|by apply follows_return]. apply (follows_emit _ _ _ asking); [|by apply follows_return]. intros x ->. exists (Up None None). split; [constructor|by exists None].
  - eapply follows_bind; [apply handle_follows|]. intros [e|s']; [by apply exits_follows|]. destruct (is_stop c); [by apply exits_follows|by apply follows_return].
  - by apply exits_follows.
  - apply ping_follows.
  - destruct (is_stop c) eqn:E; [destruct c; try done; by apply follows_return|]. assert (follows (λ x, x = Down) (drop_command c Delaying) in_session) by (apply drop_follows; by right). by destruct c.
  - by apply follows_return.
  - by apply follows_return.
Qed.

Lemma run_follows ph ins tr ph' s : vs_run ph ins tr ph' → in_session ph s → ∃ s', session_steps s tr s' ∧ in_session ph' s'.
Proof.
  intros H. revert s. induction H as [ph|ph i p tr ph1 ins tr' ph2 Hs Hr _ IH]; intros s Hi; [exists s; split; [constructor|done]|].
  destruct (step_follows _ _ _ Hs _ _ _ Hr Hi) as (s1 & S1 & Hi1). destruct (IH s1 Hi1) as (s2 & S2 & Hi2). eauto using session_app.
Qed.
End vsconn.

(** ** Claims *)

(** C20: Commands are answered.  However the visa service, the network and the timers
    behave, over all reconnections: the commands that ask for an answer get
    exactly one each, in the order in which they were taken from the queue; a
    command that is taken while no loop runs is dropped, which tells its caller
    that the connection is closed. *)
Theorem commands_answered_once {VT : VsTypes} (node_cn : bytes) (substrate : SocketAddrV) (ins : list VsInput) (tr : list Event) (ph : VsPhase) :
  vs_run node_cn substrate Connecting ins tr ph → answered tr = omap input_channel ins.
Proof. apply run_answers. Qed.

(** C19: Handles do not survive their connection.  What a node can observe follows the
    rules of [session_step]: a loop starts and exits; while it runs, connect,
    challenge, authenticate and open are called only before it has a handle,
    [ConnectedToVsApi] is announced only on a handle that authenticate or open
    has just returned, once, and every other call is made on that very handle.
    A handle of an earlier connection is never used. *)
Theorem session_protocol {VT : VsTypes} (node_cn : bytes) (substrate : SocketAddrV) (ins : list VsInput) (tr : list Event) (ph : VsPhase) :
  vs_run node_cn substrate Connecting ins tr ph → ∃ s, session_steps Down tr s ∧ in_session ph s.
Proof. intros H. by apply (run_follows node_cn substrate Connecting ins tr ph Down H). Qed.

(** An answer to the notice of a disconnect that is an error to [handle_command]. *)
Definition unreadable {VT : VsTypes} (r : Rpc (Answer (option OkOrError))) : bool :=
  match r with Answered a => match read_which a with inr OkWhich | inr (ErrorWhich (Some _)) => false | _ => true end | _ => true end.

(** Stopping.  [Stop] ends [run_with_reconnect] wherever it is taken, with one
    exception that contradicts its documentation: if it asks to deregister and
    the visa service does not answer the notice, the loop exits with an error
    and the connection is set up again, as if nothing had been asked for.  That
    happens whenever the service is not reachable. *)
Theorem stop_lost_if_service_is {VT : VsTypes} (node_cn : bytes) (substrate : SocketAddrV) (d : bool) :
  (∀ ph p tr ph', vs_step node_cn substrate ph (InCmd (Some (Stop d))) = Some p → runs p tr ph' →
     ph' = Returned ∨
     ph' = Delaying ∧ d = true ∧ ∃ h f t r, ph = Looping (Some h) f t ∧ unreadable r = true ∧
       tr = [EvCall (CallNotifyDisconnect h None NodeShutdown) DEFAULT_RPC_TIMEOUT r; EvLife RunLoopExits]) ∧
  (∀ h f t, vs_run node_cn substrate (Looping (Some h) f t) [InCmd (Some (Stop true)); InDelay]
     [EvCall (CallNotifyDisconnect h None NodeShutdown) DEFAULT_RPC_TIMEOUT Elapsed; EvLife RunLoopExits] Connecting).
Proof.
  split.
  - intros ph p tr ph' Hs. destruct ph as [| |[h|] f t| |]; cbn [vs_step] in Hs; try discriminate Hs; apply (inj Some) in Hs; subst p.
    + intros (tr' & -> & -> & ->). by left.
    + destruct d; cbn [handle_command is_stop].
      * cbn. intros (r & tr' & -> & H). destruct r as [| |a]; cbn in H.
        -- destruct H as (tr2 & -> & -> & ->). right. split_and!; [done|done|]. by eexists _, _, _, Elapsed.
        -- destruct H as (tr2 & -> & -> & ->). right. split_and!; [done|done|]. by eexists _, _, _, Failed.
        -- destruct (read_which a) as [e|[|[e|]]] eqn:E; cbn in H; destruct H as (tr2 & -> & -> & ->); try (by left);
             (right; split_and!; [done|done|]; eexists _, _, _, (Answered a); cbn; by rewrite E).
      * intros (tr' & -> & -> & ->). by left.
    + intros (tr' & -> & -> & ->). by left.
    + intros [-> ->]. by left.
  - intros h f t. eapply (vs_run_cons _ _ _ _ _ [EvCall _ _ _; EvLife _] _ _ []); [done| |].
    + cbn. exists Elapsed, [EvLife RunLoopExits]. split; [done|]. cbn. by eexists.
    + eapply (vs_run_cons _ _ _ _ _ [] _ _ []); [done|by cbn|constructor].
Qed.

(** *** An example *)

#[global] Instance sample_vs : VsTypes := {|
  IpAddr := Z; SocketAddrV := Z; sock_port := id; PublicKey := unit; Param := Z; param_zpr_addr := id; param_substrate_addr := id; param_a2a_dh_pubkey _ := 0;
  VSGate := nat; VSHandle := nat; ApiResponseError := unit; ErrReader := unit; error_try_from := Some; PacketDesc := Z; VisaDecision := bool; DecisionReader := bool; decision_try_from := Some;
  ConnectRequest := unit; Connection := unit; ConnReader := unit; conn_try_from := Some; DisconnectReason := unit; NodeShutdown := tt; VisaOp := Z; OpReader := Z; op_try_from := Some;
  Visa := Z; VisaReader := Z; visa_try_from := Some; sign_rsa_key := id |}.

(** A visa request too early, the connection, a visa. *)
Definition sample_vs_inputs : list VsInput :=
  [InCmd (Some (VisaRequestCmd (VT := sample_vs) 8 0)); InTcp true; InTls true; InCmd (Some (Open HasState 1)); InCmd (Some (VisaRequestCmd 8 2)); InPingTimer].

Definition sample_vs_trace : list Event :=
  [EvDrop 0; EvLife RunLoopStarts; EvCall (CallOpen (mk_vs_connect (VT := sample_vs) [110] Reconnect [5])) 30000 (Answered (Some (Some (Some (WhichOk (Some 7%nat))))));
   EvLife (ConnectedToVsApi HasState); EvReply 1 (ReDone (inr tt)); EvCall (CallVisaRequest (VT := sample_vs) 7%nat 8) 10000 (Answered (Some (Some true))); EvReply 2 (ReDecision (VT := sample_vs) (inr true));
   EvCall (CallPing (VT := sample_vs) 7%nat) 1000 Elapsed].

Lemma sample_vs_run : vs_run (VT := sample_vs) [110] 5 Connecting sample_vs_inputs sample_vs_trace (Looping (Some 7%nat) 1 1000).
Proof.
  eapply (vs_run_cons _ _ _ _ _ [_]); [done|by eexists|]. eapply (vs_run_cons _ _ _ _ _ []); [done|by cbn|]. eapply (vs_run_cons _ _ _ _ _ [_]); [done|by eexists|].
  eapply (vs_run_cons _ _ _ _ _ [_; _; _]); [done| |].
  { eexists (Answered (Some (Some (Some (WhichOk (Some 7%nat)))))), _. split; [done|]. eexists. split; [done|]. by eexists. }
  eapply (vs_run_cons _ _ _ _ _ [_; _]); [done| |]. { eexists (Answered (Some (Some true))), _. split; [done|]. by eexists. }
  eapply (vs_run_cons _ _ _ _ _ [_] _ _ []); [done| |constructor]. by eexists Elapsed, _.
Qed.

Lemma commands_answered_once_witness : answered (VT := sample_vs) sample_vs_trace = [0; 1; 2]%nat ∧ omap (input_channel (VT := sample_vs)) sample_vs_inputs = [0; 1; 2]%nat.
Proof.
  split; [|reflexivity]. exact (commands_answered_once (VT := sample_vs) [110] 5 sample_vs_inputs sample_vs_trace _ sample_vs_run).
Defined.

Lemma session_protocol_witness : ∃ o, session_steps (VT := sample_vs) Down sample_vs_trace (Up (Some 7%nat) o).
Proof. destruct (session_protocol (VT := sample_vs) [110] 5 sample_vs_inputs sample_vs_trace _ sample_vs_run) as (s & Hs & o & ->). by exists o. Defined.

Lemma stop_lost_if_service_is_witness : vs_run (VT := sample_vs) [110] 5 (Looping (Some 7%nat) 1 1000) [InCmd (Some (Stop true)); InDelay]
  [EvCall (CallNotifyDisconnect 7%nat None NodeShutdown) DEFAULT_RPC_TIMEOUT Elapsed; EvLife RunLoopExits] Connecting.
Proof. exact (proj2 (stop_lost_if_service_is (VT := sample_vs) [110] 5 true) 7%nat 1 1000). Defined.
