(* ===== verification/VsWorker.v ===== *)
(** The worker that keeps a node registered with the visa service,
    [src/adapter/ph/src/vs_worker.rs], and how it gets on with the connection of [VsConn]. *)
From Stdlib Require Import String.
From S2P Require Import Prelude Zdp VsConn.
Open Scope Z_scope.

(** [lifecycle_rx.recv()] *)
Inductive LifeRecv : Type := GotEvent (e : VSConnLifecycleEvent) | Lagged | Closed.

(** Where [launch] waits: for a loop to start, for the answer to connect or an event, for the
    deferred connect of the visa service's adapter, for the answers to register and to the
    notice, for its retry; or it has returned. *)
Inductive WPhase : Type := Gated | Attempting | Deferring | Registering | Disconnecting | Sleeping | Ended.

Section worker.
Context {VT : VsTypes} (is_out_of_sync : ApiResponseError → bool) (zpr : IpAddr) (pubkey : PublicKey) (vss_addr : SocketAddrV).

Record VsWorkerState : Type := mk_worker { wk_phase : WPhase; wk_flag : StateFlag; wk_deferred : bool }.
Definition worker_start (deferred : bool) : VsWorkerState := mk_worker Gated NoState deferred.
Definition at_phase (w : VsWorkerState) (ph : WPhase) : VsWorkerState := mk_worker ph (wk_flag w) (wk_deferred w).

Inductive WInput : Type :=
| WLife (r : LifeRecv) | WConnect (r : VSApiError + unit) | WDeferred (ok : bool) | WRegister (r : VSApiError + list VisaOp) | WNotify (r : VSApiError + unit) | WSlept.

Inductive WOutput : Type := OutConnect (r : NodeConnect) | OutDeferred | OutRegister (a : SocketAddrV) | OutNotify | OutDisconnectAdapters | OutVisaOp (op : VisaOp).

(** The top of the inner loop: a connect request is sent. *)
Definition attempt (w : VsWorkerState) : VsWorkerState * list WOutput := (at_phase w Attempting, [OutConnect (mk_node_connect zpr (wk_flag w) pubkey)]).

(** Connected: the deferred connect first, if there is one. *)
Definition connected (w : VsWorkerState) : VsWorkerState * list WOutput :=
  if wk_deferred w then (mk_worker Deferring (wk_flag w) false, [OutDeferred]) else (at_phase w Registering, [OutRegister vss_addr]).

(** [None] for what it does not wait for. *)
Definition worker_step (w : VsWorkerState) (i : WInput) : option (outcome (VsWorkerState * list WOutput)) :=
  match wk_phase w, i with
  | Gated, WLife r =>
      Some (Ret (match r with
                 | GotEvent RunLoopStarts | Closed => attempt w
                 | GotEvent _ | Lagged => (w, [])
                 end))
  | Attempting, WConnect r =>
      Some (Ret (match r with
                 | inr _ => connected w
                 | inl (CodedError e) =>
                     if is_out_of_sync e then (mk_worker Sleeping NoState (wk_deferred w), [OutDisconnectAdapters]) else (at_phase w Sleeping, [])
                 | inl _ => (at_phase w Sleeping, [])
                 end))
  | Attempting, WLife r =>
      Some (Ret (match r with
                 | GotEvent RunLoopExits => (at_phase w Gated, [])
                 | GotEvent RunLoopStarts | Lagged => (at_phase w Sleeping, [])
                 | GotEvent (ConnectedToVsApi _) => connected w
                 | Closed => (at_phase w Ended, [])
                 end))
  | Deferring, WDeferred ok => Some (if ok then Ret (at_phase w Registering, [OutRegister vss_addr]) else Panic)
  | Registering, WRegister r =>
      Some (Ret (match r with
                 | inr ops => (mk_worker Gated HasState (wk_deferred w), OutVisaOp <$> ops)
                 | inl _ => (at_phase w Disconnecting, [OutNotify])
                 end))
  | Disconnecting, WNotify r => Some (match r with inr _ => Ret (at_phase w Sleeping, []) | inl _ => Panic end)
  | Sleeping, WSlept => Some (Ret (attempt w))
  | _, _ => None
  end.

(** ** Worker and connection together *)

(** The lifecycle events of a trace, and its first reply; a reply channel that is dropped
    tells the worker that the connection is closed. *)
Definition lifes (tr : list Event) : list VSConnLifecycleEvent := omap (λ e, match e with EvLife x => Some x | _ => None end) tr.
Definition closed_reply (c : VS2Command) : VsReply := match c with RegisterVss _ _ => ReOps (inl ConnClosed) | _ => ReDone (inl ConnClosed) end.
Fixpoint reply_in (c : VS2Command) (tr : list Event) : option VsReply :=
  match tr with
  | [] => None
  | EvReply _ r :: _ => Some r
  | EvDrop _ :: _ => Some (closed_reply c)
  | _ :: tr => reply_in c tr
  end.

Context (node_cn : bytes) (substrate : SocketAddrV) (link_error : DisconnectReason).
Abbreviation step := (vs_step node_cn substrate).

(** The worker, the connection, the lifecycle events that the worker has not read, the worker's
    commands that the connection has not taken, each with whether the worker still awaits its
    answer, and the answer that it awaits. *)
Record Sys : Type := mk_sys { sw : VsWorkerState; sp : VsPhase; life : list VSConnLifecycleEvent; cmds : list (VS2Command * bool); answer : option VsReply }.

Definition sys_init (deferred : bool) : Sys := mk_sys (worker_start deferred) Connecting [] [] None.

(** What the worker sends with its outputs. *)
Definition post (s : Sys) (o : WOutput) : Sys :=
  let send c := mk_sys (sw s) (sp s) (life s) (cmds s ++ [(c, true)]) (answer s) in
  match o with
  | OutConnect r => send (Connect r 0)
  | OutRegister a => match register_vss a 0 with inr c => send c | inl e => mk_sys (sw s) (sp s) (life s) (cmds s) (Some (ReOps (inl e))) end
  | OutNotify => send (NotifyDisconnect (mk_notice None link_error) 0)
  | _ => s
  end.

(** The worker goes on in [w]: what it awaited it has got, or it gives up waiting. *)
Definition moved (s : Sys) (w : VsWorkerState) (l : list VSConnLifecycleEvent) : Sys := mk_sys w (sp s) l (prod_map id (λ _, false) <$> cmds s) None.

(** The inputs that the worker can get, and the events left unread.  A receiver that lags
    loses events. *)
Inductive takes (s : Sys) : WInput → list VSConnLifecycleEvent → Prop :=
| takes_event e l : life s = e :: l → takes s (WLife (GotEvent e)) l
| takes_lagged n : takes s (WLife Lagged) (drop n (life s))
| takes_closed : sp s = Returned → life s = [] → takes s (WLife Closed) []
| takes_connect r : answer s = Some (ReDone r) → takes s (WConnect r) (life s)
| takes_register r : answer s = Some (ReOps r) → takes s (WRegister r) (life s)
| takes_notify r : answer s = Some (ReDone r) → takes s (WNotify r) (life s)
| takes_deferred ok : takes s (WDeferred ok) (life s)
| takes_slept : takes s WSlept (life s).

(** What is seen of a step. *)
Inductive Label : Type := LOut (o : WOutput) | LLife (e : VSConnLifecycleEvent) | LReply (c : VS2Command) (r : option VsReply).

(** The worker takes an input; the connection takes a command of the worker; or anything else
    that it waits for, commands of others included. *)
Inductive sys_step : Sys → list Label → Sys → Prop :=
| st_worker s i l w out : takes s i l → worker_step (sw s) i = Some (Ret (w, out)) → sys_step s (LOut <$> out) (foldl post (moved s w l) out)
| st_command s c (live : bool) cs p tr ph : cmds s = (c, live) :: cs → step (sp s) (InCmd (Some c)) = Some p → runs p tr ph →
    sys_step s ((LLife <$> lifes tr) ++ [LReply c (reply_in c tr)])
      (mk_sys (sw s) ph (life s ++ lifes tr) cs (if live then reply_in c tr else answer s))
| st_other s i p tr ph : step (sp s) i = Some p → runs p tr ph → sys_step s (LLife <$> lifes tr) (mk_sys (sw s) ph (life s ++ lifes tr) (cmds s) (answer s)).

Inductive sys_steps : Sys → list Label → Sys → Prop :=
| steps_nil s : sys_steps s [] s
| steps_cons s tr s1 tr' s2 : sys_step s tr s1 → sys_steps s1 tr' s2 → sys_steps s (tr ++ tr') s2.

(** *** What the connection does to its handle *)

Definition has_handle (ph : VsPhase) : option VSHandle := match ph with Looping s _ _ => s | _ => None end.

(** A program without lifecycle events. *)
Fixpoint quiet {A} (m : Prog A) : Prop :=
  match m with
  | Return _ => True
  | Invoke _ _ k => ∀ r, quiet (k r)
  | Clock k => ∀ now, quiet (k now)
  | Emit e k => match e with EvLife _ => False | _ => True end ∧ quiet k
  end.

Lemma quiet_bind {A B} (m : Prog A) (f : A → Prog B) : quiet m → (∀ a, quiet (f a)) → quiet (m ≫= f).
Proof. induction m as [a|X c t k IH|k IH|e k IH]; cbn; intros Hm Hf; [done|intros; by apply IH|intros; by apply IH|]. destruct Hm. split; [done|by apply IH]. Qed.

Lemma quiet_and_then {A B} (m : Prog (VSApiError + A)) (f : A → Prog (VSApiError + B)) : quiet m → (∀ a, quiet (f a)) → quiet (and_then m f).
Proof. intros Hm Hf. apply quiet_bind; [done|]. by intros [e|a]. Qed.

Lemma quiet_lifes {A} (m : Prog A) tr a : quiet m → runs m tr a → lifes tr = [].
Proof.
  revert tr. induction m as [x|X c t k IH|k IH|e k IH]; intros tr Hs; cbn.
  - by intros [-> _].
  - intros (r & tr' & -> & H). exact (IH r tr' (Hs r) H).
  - intros (now & tr' & -> & H). exact (IH now tr' (Hs now) H).
  - intros (tr' & -> & H). destruct Hs as [He Hs]. specialize (IH tr' Hs H). by destruct e.
Qed.

Ltac quiet := repeat first [apply quiet_and_then|apply quiet_bind|done|intros ?|case_match].

Lemma lifes_app l l' : lifes (l ++ l') = lifes l ++ lifes l'.
Proof. apply omap_app. Qed.

(** A command that is not a connect, open or stop leaves the handle alone. *)
Lemma answer_quiet {A} (m : Prog A) (re : A → VsReply) (s : VSCommandState) tx tr (b : VSApiError + VSCommandState) :
  quiet m → runs (r ← m; _ ← vs_reply tx (re r); mret (inr s)) tr b → lifes tr = [] ∧ b = inr s.
Proof.
  intros Hq (tr1 & r & tr2 & H1 & H2 & ->)%runs_bind. rewrite lifes_app, (quiet_lifes m tr1 r Hq H1). cbn in H2. by destruct H2 as (tr' & -> & -> & ->).
Qed.

Lemma finish_lifes s flag tx resp tr s' : runs (finish_connect s flag tx resp) tr s' →
  match resp with inr h => lifes tr = [ConnectedToVsApi flag] ∧ s' = Some h | inl _ => lifes tr = [] ∧ s' = s end.
Proof. destruct resp as [e|h]; cbn; [by intros (tr' & -> & -> & ->)|]. by intros (tr' & -> & tr2 & -> & -> & ->). Qed.

(** The end of a connect or open. *)
Lemma connecting_lifes s flag tx (m : Prog (VSApiError + VSHandle)) tr (r : VSApiError + VSCommandState) :
  quiet m → (is_connected s = true → ∃ e, m = Return (inl e)) → runs (resp ← m; s' ← finish_connect s flag tx resp; mret (inr s')) tr r →
  lifes tr = [] ∧ r = inr s ∨ s = None ∧ ∃ h, lifes tr = [ConnectedToVsApi flag] ∧ r = inr (Some h).
Proof.
  intros Hq Hm (tr1 & resp & tr2 & H1 & H2 & ->)%runs_bind. apply runs_bind in H2 as (tr3 & s' & tr4 & H2 & [-> ->] & ->).
  rewrite app_nil_r, lifes_app, (quiet_lifes m tr1 resp Hq H1). apply finish_lifes in H2. destruct resp as [e|h]; [left; by destruct H2 as [-> ->]|].
  destruct s as [h0|]; [|right; destruct H2 as [-> ->]; eauto]. destruct (Hm eq_refl) as [e ->]. by destruct H1.
Qed.

Lemma handle_command_lifes s cmd tr r : runs (handle_command node_cn substrate s cmd) tr r →
  lifes tr = [] ∧ (r = inr s ∨ is_stop cmd = true) ∨ is_stop cmd = false ∧ s = None ∧ ∃ f h, lifes tr = [ConnectedToVsApi f] ∧ r = inr (Some h).
Proof.
  assert (∀ s flag tx (m : Prog (VSApiError + VSHandle)) e0, quiet m →
    runs (resp ← (if is_connected s then Return (inl e0) else m); s' ← finish_connect s flag tx resp; mret (inr s')) tr r →
    lifes tr = [] ∧ r = inr s ∨ s = None ∧ ∃ f h, lifes tr = [ConnectedToVsApi f] ∧ r = inr (Some h)) as Hconn.
  { intros s0 flag tx m e0 Hq H. destruct (connecting_lifes s0 flag tx (if is_connected s0 then Return (inl e0) else m) tr r) as [?|(? & h & ?)]; [|by destruct s0; eauto|done|by left|right; eauto].
    by destruct (is_connected s0). }
  destruct cmd as [d|req tx|f tx|pd tx|a tx|req tx|n tx|tx|tx|ids tx]; cbn [handle_command is_stop].
  - intros H. left. split; [|by right]. eapply quiet_lifes; [|exact H]. destruct s as [h|]; [|done]. destruct d; [|done]. quiet.
  - intros [?|?]%Hconn; [left; naive_solver|right; naive_solver|]. unfold do_connect. cbv zeta. quiet.
  - intros [?|?]%Hconn; [left; naive_solver|right; naive_solver|]. unfold do_open. cbv zeta. quiet.
  - intros H. left. apply (answer_quiet _ ReDecision) in H as [-> ->]; [auto|]. destruct s; [|done]. unfold with_handle, do_visa_request. quiet.
  - intros H. left. apply (answer_quiet _ ReOps) in H as [-> ->]; [auto|]. destruct s; [|done]. unfold with_handle, do_register_vss. quiet.
  - intros H. left. apply (answer_quiet _ ReConnection) in H as [-> ->]; [auto|]. destruct s; [|done]. unfold with_handle, do_authorize_connect. quiet.
  - intros H. left. apply (answer_quiet _ ReDone) in H as [-> ->]; [auto|]. destruct s; [|done]. unfold with_handle, do_notify_disconnect. quiet.
  - intros H. left. apply (answer_quiet _ ReDone) in H as [-> ->]; [auto|]. destruct s; [|done]. unfold with_handle, do_ping. quiet.
  - intros H. left. apply (answer_quiet _ ReIds) in H as [-> ->]; [auto|]. destruct s; [|done]. unfold with_handle, do_visa_ids_request. quiet.
  - intros H. left. apply (answer_quiet _ ReVisas) in H as [-> ->]; [auto|]. destruct s; [|done]. unfold with_handle, do_visa_by_ids_request. quiet.
Qed.

(** The handle changes only with an event: it is there from [ConnectedToVsApi] to [RunLoopExits]. *)
Lemma conn_step ph i p tr ph' : step ph i = Some p → runs p tr ph' →
  lifes tr = [] ∧ has_handle ph' = has_handle ph ∨ lifes tr = [RunLoopStarts] ∧ has_handle ph = None ∨
  (∃ f h, lifes tr = [ConnectedToVsApi f] ∧ has_handle ph' = Some h ∧ has_handle ph = None) ∨ lifes tr = [RunLoopExits].
Proof.
  assert (∀ k tr ph', runs (exits k) tr ph' → lifes tr = [RunLoopExits]) as Hex by (intros k tr0 ph0; cbn; by intros (tr' & -> & -> & _)).
  assert (∀ c k tr ph', runs (drop_command c k) tr ph' → lifes tr = [] ∧ ph' = k) as Hdrop.
  { intros c k tr0 ph0. unfold drop_command. destruct (reply_channel c); cbn; [by intros (tr' & -> & -> & ->)|by intros [-> ->]]. }
  destruct ph as [| |s f t| |], i as [c|ok|ok| |]; cbn [vs_step]; intros Hs; try discriminate Hs; try (destruct c as [c|]); apply (inj Some) in Hs; subst p.
  - destruct c; first [by intros ->%Hex; eauto|intros [-> ->]%Hdrop; by left].
  - intros ->%Hex. eauto.
  - intros [-> ->]. left. by destruct ok.
  - destruct ok; cbn; [intros (tr' & -> & -> & ->); by right; left|by intros [-> ->]; left].
  - intros (tr1 & r & tr2 & H1 & H2 & ->)%runs_bind. rewrite lifes_app. apply handle_command_lifes in H1 as [[-> Hr]|(Hc & -> & fl & h & -> & ->)].
    + destruct r as [e|s']; [apply Hex in H2 as ->; auto|]. destruct (is_stop c); [apply Hex in H2 as ->; auto|]. destruct H2 as [-> ->]. left. split; [done|]. cbn. by destruct Hr as [[= ->]|].
    + rewrite Hc in H2. destruct H2 as [-> ->]. right. right. left. by exists fl, h.
  - intros ->%Hex. auto.
  - destruct s as [h|]; cbn [ping_turn]; [|by intros [-> ->]; left]. intros (tr1 & r & tr2 & H1 & H2 & ->)%runs_bind. rewrite lifes_app.
    apply quiet_lifes in H1 as ->; [|unfold do_ping; quiet]. destruct r as [e|]; [|by destruct H2 as [-> ->]; left]. cbv zeta in H2.
    destruct (_ <=? _); [apply Hex in H2 as ->; auto|by destruct H2 as [-> ->]; left].
  - destruct c; first [by intros [-> ->]; left|intros [-> ->]%Hdrop; by left].
  - intros [-> ->]. by left.
  - intros [-> ->]. by left.
Qed.

(** The answer to a connect when there is a handle. *)
Definition refusal : VsReply := ReDone (inl (CommandFailed "connect called but already connected to VS-API")).

(** A connect that is answered with success leaves a handle; with one, it is refused. *)
Lemma connect_answer ph req tx p tr ph' : step ph (InCmd (Some (Connect req tx))) = Some p → runs p tr ph' →
  (reply_in (Connect req tx) tr = Some (ReDone (inr tt)) → is_Some (has_handle ph')) ∧
  (is_Some (has_handle ph) → reply_in (Connect req tx) tr = Some refusal).
Proof.
  destruct ph as [| |s f t| |]; cbn [vs_step]; intros Hs; try discriminate Hs; apply (inj Some) in Hs; subst p; cbn [drop_command reply_channel].
  - intros (tr' & -> & -> & ->). split; [done|by intros []].
  - intros (tr1 & r & tr2 & H1 & H2 & ->)%runs_bind. cbn [handle_command] in H1. apply runs_bind in H1 as (tr3 & resp & tr4 & H1 & H3 & ->).
    apply runs_bind in H3 as (tr5 & s' & tr6 & H3 & [-> ->] & ->). cbn [is_stop] in H2. destruct H2 as [-> ->]. rewrite !app_nil_r. destruct s as [h|].
    + destruct H1 as [-> ->]. cbn in H3. by destruct H3 as (tr' & -> & -> & ->).
    + split; [|by intros []]. cbn [is_connected] in H1. assert (answered tr3 = []) as Hsil by (eapply silent_answered; [apply silent_connect|exact H1]).
      assert (∀ tr', reply_in (Connect req tx) (tr3 ++ tr') = reply_in (Connect req tx) tr') as ->.
      { intros tr'. clear - Hsil. induction tr3 as [|e tr3 IH]; [done|]. destruct e; try discriminate Hsil; cbn in *; by apply IH. }
      destruct resp as [e|h]; cbn in H3; [by destruct H3 as (tr' & -> & -> & ->)|]. by destruct H3 as (tr' & -> & tr2' & -> & -> & ->).
  - intros (tr' & -> & -> & ->). split; [done|by intros []].
Qed.

(** *** While the worker registers, the connection has its handle *)

Definition exits_unread (s : Sys) : Prop := RunLoopExits ∈ life s.
Definition past_connect (ph : WPhase) : bool := match ph with Deferring | Registering | Disconnecting => true | _ => false end.

Record sys_inv (s : Sys) : Prop := {
  (** an event that says that it is connected and no later one that it is not *)
  si_event l f l' : life s = l ++ ConnectedToVsApi f :: l' → RunLoopExits ∉ l' → is_Some (has_handle (sp s));
  si_answer : wk_phase (sw s) = Attempting → answer s = Some (ReDone (inr tt)) → ~ exits_unread s → is_Some (has_handle (sp s));
  si_past : past_connect (wk_phase (sw s)) = true → ~ exits_unread s → is_Some (has_handle (sp s));
  si_cmds c : wk_phase (sw s) = Attempting → (c, true) ∈ cmds s → ∃ r, c = Connect r 0;
}.

(** The connection moves. *)
Lemma conn_inv s i p tr ph cs ans : sys_inv s → step (sp s) i = Some p → runs p tr ph →
  (∀ c, (c, true) ∈ cs → (c, true) ∈ cmds s) → (ans = Some (ReDone (inr tt)) → wk_phase (sw s) = Attempting → answer s = ans ∨ is_Some (has_handle ph)) →
  sys_inv (mk_sys (sw s) ph (life s ++ lifes tr) cs ans).
Proof.
  intros [H1 H2 H3 H4] Hs Hr Hcs Hans. pose proof (conn_step _ _ _ _ _ Hs Hr) as Hc.
  assert (RunLoopExits ∉ lifes tr → is_Some (has_handle (sp s)) → is_Some (has_handle ph)) as Hkeep.
  { intros Hn Hh. destruct Hc as [[_ ->]|[[_ E]|[(f & h & _ & E & _)|E]]]; [done|by rewrite E in Hh; destruct Hh|by eexists|]. rewrite E in Hn. destruct Hn. left. }
  split; cbn.
  - intros l f l' E Hn. destruct Hc as [[El Eh]|[[El Eh]|[(f0 & h & El & Eh & _)|El]]]; rewrite ?El in *; [| |by eexists|].
    + rewrite app_nil_r in E. rewrite Eh. by eapply H1.
    + destruct (decide (l' = [])) as [->|Hne]; [apply app_inj_tail in E as [_ [=]]|]. destruct (exists_last Hne) as (l2 & x & ->).
      rewrite app_comm_cons, app_assoc in E. apply app_inj_tail in E as [E <-]. apply Hkeep; [by intros [=]%list_elem_of_singleton|].
      eapply H1; [exact E|]. set_solver.
    + destruct (decide (l' = [])) as [->|Hne]; [apply app_inj_tail in E as [_ [=]]|]. destruct (exists_last Hne) as (l2 & x & ->).
      rewrite app_comm_cons, app_assoc in E. apply app_inj_tail in E as [_ <-]. destruct Hn. apply elem_of_app. right. left.
  - intros Hp Ha Hn. unfold exits_unread in Hn. cbn in Hn. rewrite elem_of_app in Hn. destruct (Hans Ha Hp) as [Ha'|]; [|done].
    apply Hkeep; [tauto|]. apply H2; [done|congruence|unfold exits_unread; tauto].
  - intros Hp Hn. unfold exits_unread in Hn. cbn in Hn. rewrite elem_of_app in Hn. apply Hkeep; [tauto|]. apply H3; [done|unfold exits_unread; tauto].
  - intros c Hp Hin. by apply H4, Hcs.
Qed.

Lemma abandoned s c : (c, true) ∈ (prod_map id (λ _ : bool, false) <$> cmds s) → False.
Proof. intros ([c' b] & [=] & _)%list_elem_of_fmap. Qed.

(** The events that are left are the last ones. *)
Lemma takes_suffix s i l : takes s i l → ∃ l0, life s = l0 ++ l.
Proof.
  destruct 1; try (by exists []); [by eexists [e]|]. exists (take n (life s)). by rewrite take_drop.
Qed.

(** The worker moves. *)
Lemma worker_inv s i l w out : sys_inv s → takes s i l → worker_step (sw s) i = Some (Ret (w, out)) → sys_inv (foldl post (moved s w l) out).
Proof.
  intros [H1 H2 H3 H4] Ht Hw. destruct (takes_suffix _ _ _ Ht) as [l0 El].
  assert (∀ l1 f l2, l = l1 ++ ConnectedToVsApi f :: l2 → RunLoopExits ∉ l2 → is_Some (has_handle (sp s))) as HE.
  { intros l1 f l2 E. apply (H1 (l0 ++ l1) f l2). rewrite El, E. by rewrite app_assoc. }
  assert (∀ w', wk_phase w' ≠ Attempting → past_connect (wk_phase w') = false → ∀ out', Forall (λ o, match o with OutVisaOp _ | OutDisconnectAdapters => True | _ => False end) out' →
    sys_inv (foldl post (moved s w' l) out')) as Hidle.
  { intros w' Hp Hp2 out' Hout. assert (foldl post (moved s w' l) out' = moved s w' l) as ->.
    { induction Hout as [|o out' Ho _ IH]; [done|]. cbn. by destruct o. }
    split; cbn; [exact HE|done|by rewrite Hp2|done]. }
  assert (∀ w' o, past_connect (wk_phase w') = true → (RunLoopExits ∉ l → is_Some (has_handle (sp s))) → sys_inv (foldl post (moved s w' l) [o])) as Hpast.
  { intros w' o Hp Hh. assert (wk_phase w' ≠ Attempting) as Hna by (intros E; by rewrite E in Hp).
    destruct o; cbn; unfold register_vss; try destruct (sock_port a =? 0); split; cbn; try exact HE; try done; intros _; apply Hh. }
  assert (∀ w', sys_inv (foldl post (moved s (at_phase w' Attempting) l) [OutConnect (mk_node_connect zpr (wk_flag w') pubkey)])) as Hatt.
  { intros w'. split; cbn; [exact HE|done|done|]. intros c _ [H%abandoned|H]%elem_of_app; [done|]. apply list_elem_of_singleton in H as [= ->]. eauto. }
  assert (∀ w', (RunLoopExits ∉ l → is_Some (has_handle (sp s))) → sys_inv (foldl post (moved s (connected w').1 l) (connected w').2)) as Hconn.
  { intros w' Hh. unfold connected. destruct (wk_deferred w'); by apply Hpast. }
  unfold worker_step in Hw. destruct (wk_phase (sw s)) eqn:Ep, i as [r|r|ok|r|r|]; try discriminate Hw; apply (inj Some) in Hw.
  - destruct r as [[| |]| |]; injection Hw as <- <-; try apply Hatt; apply Hidle; by rewrite ?Ep.
  - destruct r as [[|f|]| |]; [by injection Hw as <- <-; apply Hidle| |by injection Hw as <- <-; apply Hidle..].
    destruct (connected (sw s)) as [w' out'] eqn:Ec. injection Hw as <- <-. specialize (Hconn (sw s)). rewrite Ec in Hconn. apply Hconn.
    inversion Ht as [e l' E| | | | | | |]; subst. by eapply (H1 []).
  - inversion Ht as [| | |r0 Ha| | | |]; subst. destruct r as [e|[]].
    + destruct e; try (injection Hw as <- <-; by apply Hidle). destruct (is_out_of_sync e); injection Hw as <- <-; apply Hidle; by repeat constructor.
    + destruct (connected (sw s)) as [w' out'] eqn:Ec. injection Hw as <- <-. specialize (Hconn (sw s)). rewrite Ec in Hconn. apply Hconn. intros Hn. by apply H2.
  - destruct ok; [|discriminate Hw]. injection Hw as <- <-. inversion Ht; subst. apply Hpast; [done|]. by apply H3.
  - inversion Ht; subst. destruct r as [e|ops]; injection Hw as <- <-; [apply Hpast; [done|]; by apply H3|]. apply Hidle; [done|done|]. by apply Forall_fmap, Forall_true.
  - destruct r as [e|[]]; [discriminate Hw|]. injection Hw as <- <-. by apply Hidle.
  - injection Hw as <- <-. apply Hatt.
Qed.

Lemma joint_step_inv s tr s' : sys_inv s → sys_step s tr s' → sys_inv s'.
Proof.
  intros Hi Hs. destruct Hs as [s i l w out Ht Hw|s c live cs p tr ph Ec Hs Hr|s i p tr ph Hs Hr].
  - by eapply worker_inv.
  - eapply conn_inv; [done|done|done|intros c'; rewrite Ec; by right|]. intros Ha Hp. destruct live; [|by left]. right.
    destruct (si_cmds _ Hi c Hp) as [r ->]; [rewrite Ec; left|]. by eapply connect_answer.
  - eapply conn_inv; [done..|]. by left.
Qed.

Lemma joint_init_inv d : sys_inv (sys_init d).
Proof. split; cbn; try done. intros l f l' E. by destruct l. Qed.

Lemma joint_steps_inv s tr s' : sys_inv s → sys_steps s tr s' → sys_inv s'.
Proof. intros Hi H. induction H; [done|]. eauto using joint_step_inv. Qed.

(** *** After a refusal *)

Definition is_connected_event (e : VSConnLifecycleEvent) : Prop := match e with ConnectedToVsApi _ => True | _ => False end.
#[local] Instance is_connected_event_dec e : Decision (is_connected_event e).
Proof. destruct e; cbn; apply _. Defined.
Definition unread_connected (s : Sys) : nat := length (filter is_connected_event (life s)).

Definition is_register (x : Label) : Prop := match x with LOut (OutRegister _) => True | _ => False end.
#[local] Instance is_register_dec x : Decision (is_register x).
Proof. destruct x as [[]| |]; cbn; apply _. Defined.
Definition registers (tr : list Label) : nat := length (filter is_register tr).

(** The registrations that the worker can still send. *)
Definition chances (s : Sys) : nat := (unread_connected s + match wk_phase (sw s) with Deferring => 1 | _ => 0 end)%nat.

(** The connection has the handle [h], no exit of its loop is unread, and a connect that the
    worker awaits was refused, if it was answered. *)
Record stuck (h : VSHandle) (s : Sys) : Prop := {
  sk_handle : has_handle (sp s) = Some h;
  sk_exits : RunLoopExits ∉ life s;
  sk_answer r : wk_phase (sw s) = Attempting → answer s = Some r → r = refusal;
  sk_cmds c : wk_phase (sw s) = Attempting → (c, true) ∈ cmds s → ∃ r, c = Connect r 0;
}.

Definition retrying (ph : WPhase) : bool := match ph with Disconnecting | Sleeping | Attempting => true | _ => false end.
Definition is_retry (x : Label) : Prop := match x with LOut o => match o with OutConnect _ => True | _ => False end | _ => True end.
(** Every connect is refused. *)
Definition refused (x : Label) : Prop :=
  match x with LReply (Connect _ _) r => r = Some refusal | _ => True end.

Lemma registers_app l l' : registers (l ++ l') = (registers l + registers l')%nat.
Proof. unfold registers. by rewrite list.filter_app, length_app. Qed.
Lemma registers_life l : registers (LLife <$> l) = O.
Proof. unfold registers. induction l as [|x l IH]; [done|exact IH]. Qed.

(** The connection keeps its handle, and says nothing. *)
Lemma stuck_conn h ph i p tr ph' : has_handle ph = Some h → step ph i = Some p → runs p tr ph' → RunLoopExits ∉ lifes tr → lifes tr = [] ∧ has_handle ph' = Some h.
Proof.
  intros Hh Hs Hr Hn. destruct (conn_step _ _ _ _ _ Hs Hr) as [[-> ->]|[[_ E]|[(f & h' & _ & _ & E)|E]]]; [done|congruence..|]. rewrite E in Hn. destruct Hn. left.
Qed.

Lemma chances_suffix s w l0 l : life s = l0 ++ l → wk_phase w ≠ Deferring → (chances (moved s w l) <= chances s)%nat.
Proof.
  intros E Hw. unfold chances, unread_connected. cbn. rewrite E, list.filter_app, length_app. destruct (wk_phase w); try done; lia.
Qed.

Lemma post_keeps s o : sw (post s o) = sw s ∧ sp (post s o) = sp s ∧ life (post s o) = life s.
Proof. destruct o; try done. cbn. unfold register_vss. by destruct (sock_port a =? 0). Qed.

Lemma posts_keep s out : sw (foldl post s out) = sw s ∧ sp (foldl post s out) = sp s ∧ life (foldl post s out) = life s.
Proof. revert s. induction out as [|o out IH]; intros s; [done|]. cbn. destruct (IH (post s o)) as (-> & -> & ->). apply post_keeps. Qed.

Lemma posts_chances s out : chances (foldl post s out) = chances s.
Proof. unfold chances, unread_connected. by destruct (posts_keep s out) as (-> & _ & ->). Qed.

Lemma out_ops ops : registers (LOut <$> (OutVisaOp <$> ops)) = O.
Proof. unfold registers. induction ops as [|x ops IH]; [done|exact IH]. Qed.

(** The worker's moves: a registration costs a chance; without chances it only retries. *)
Lemma stuck_worker h s i l w out : stuck h s → takes s i l → worker_step (sw s) i = Some (Ret (w, out)) →
  (registers (LOut <$> out) + chances (moved s w l) <= chances s)%nat ∧
  (retrying (wk_phase (sw s)) = true → chances s = O → retrying (wk_phase w) = true ∧ Forall is_retry (LOut <$> out)).
Proof.
  intros [Hh Hex Hans _] Ht Hw. destruct (takes_suffix _ _ _ Ht) as [l0 El].
  assert (∀ w', wk_phase w' ≠ Deferring → (chances (moved s w' l) <= chances s)%nat) as Hle by (intros w'; by apply (chances_suffix s w' l0 l)).
  unfold worker_step in Hw. destruct (wk_phase (sw s)) eqn:Ep, i as [r|r|ok|r|r|]; try discriminate Hw; apply (inj Some) in Hw.
  - destruct r as [[| |]| |]; injection Hw as <- <-; (split; [apply Hle; by rewrite ?Ep|done]).
  - destruct r as [[|f|]| |].
    + injection Hw as <- <-. split; [by apply Hle|intros _ _; by split].
    + destruct (connected (sw s)) as [w' out'] eqn:Ec. injection Hw as <- <-. inversion Ht as [e l' E| | | | | | |]; subst.
      assert (chances s = S (length (filter is_connected_event l))) as Hch by (unfold chances, unread_connected; rewrite E, filter_cons_True by done; rewrite Ep; cbn; lia).
      split; [|by rewrite Hch]. unfold connected in Ec. destruct (wk_deferred (sw s)); injection Ec as <- <-; rewrite Hch; unfold chances, unread_connected, registers; cbn; repeat case_decide; cbn; try done; lia.
    + exfalso. inversion Ht as [e l' E| | | | | | |]; subst. apply Hex. rewrite E. left.
    + injection Hw as <- <-. split; [by apply Hle|intros _ _; by split].
    + exfalso. inversion Ht as [| |E1 E2| | | | |]; subst. by rewrite E1 in Hh.
  - inversion Ht as [| | |r0 Ha| | | |]; subst. injection (Hans _ eq_refl Ha) as ->. injection Hw as <- <-. split; [by apply Hle|intros _ _; by split].
  - destruct ok; [|discriminate Hw]. injection Hw as <- <-. inversion Ht; subst. split; [|done]. unfold chances, unread_connected, registers. rewrite Ep. cbn. case_decide; cbn; lia.
  - destruct r as [e|ops]; injection Hw as <- <-; (split; [|done]); [by apply Hle|]. rewrite out_ops. by apply Hle.
  - destruct r as [e|[]]; [discriminate Hw|]. injection Hw as <- <-. split; [by apply Hle|intros _ _; by split].
  - injection Hw as <- <-. split; [by apply Hle|]. intros _ _. split; [done|]. by repeat constructor.
Qed.

(** A worker that goes on leaves the answer open, unless it is not connecting. *)
Lemma stuck_moved h s i l w out : stuck h s → takes s i l → worker_step (sw s) i = Some (Ret (w, out)) → stuck h (foldl post (moved s w l) out).
Proof.
  intros [Hh Hex _ _] Ht Hw. destruct (takes_suffix _ _ _ Ht) as [l0 El]. destruct (posts_keep (moved s w l) out) as (E1 & E2 & E3).
  assert (wk_phase w = Attempting → foldl post (moved s w l) out = moved s w l ∨ ∃ r, foldl post (moved s w l) out = post (moved s w l) (OutConnect r)) as Hout.
  { intros Hp. unfold worker_step, connected in Hw. repeat (case_match; try discriminate Hw); simplify_eq/=; try discriminate Hp; try (by left); eauto. }
  split; rewrite ?E1, ?E2, ?E3; cbn.
  - done.
  - intros Hin. apply Hex. rewrite El. apply elem_of_app. by right.
  - intros r Hp. destruct (Hout Hp) as [->|[r0 ->]]; done.
  - intros c Hp. destruct (Hout Hp) as [->|[r0 ->]]; cbn; [by intros H%abandoned|]. intros [H%abandoned|H]%elem_of_app; [done|]. apply list_elem_of_singleton in H as [= ->]. eauto.
Qed.

Lemma stuck_step h s tr s' : stuck h s → sys_step s tr s' → LLife RunLoopExits ∉ tr →
  stuck h s' ∧ (registers tr + chances s' <= chances s)%nat ∧ Forall refused tr ∧
  (retrying (wk_phase (sw s)) = true → chances s = O → retrying (wk_phase (sw s')) = true ∧ Forall is_retry tr).
Proof.
  intros Hk Hs Hn. destruct Hs as [s i l w out Ht Hw|s c live cs p tr ph Ec Hs Hr|s i p tr ph Hs Hr].
  - split; [by eapply stuck_moved|]. rewrite posts_chances. destruct (posts_keep (moved s w l) out) as (-> & _ & _).
    destruct (stuck_worker _ _ _ _ _ _ Hk Ht Hw) as [Hle Hre]. split; [done|]. split; [|done]. apply list.Forall_forall. by intros x (o & -> & _)%list_elem_of_fmap.
  - assert (RunLoopExits ∉ lifes tr) as Hl.
    { intros Hin. apply Hn, elem_of_app. left. apply list_elem_of_fmap. eauto. }
    destruct (stuck_conn h _ _ _ _ _ (sk_handle _ _ Hk) Hs Hr Hl) as [E Hh]. rewrite E, app_nil_r in *. destruct Hk as [Hk1 Hk2 Hk3 Hk4].
    assert (∀ r, c = Connect r 0 ∨ (∃ tx, c = Connect r tx) → reply_in c tr = Some refusal) as Hrep.
    { intros r Hc. assert (∃ tx, c = Connect r tx) as [tx ->] by (destruct Hc as [->|]; eauto). eapply connect_answer; [done|done|]. rewrite Hk1. by eexists. }
    split; [|split; [|split]].
    + split; cbn; [done|done| |].
      * intros r Hp Ha. destruct live; [|by apply Hk3]. destruct (Hk4 c Hp) as [r0 Hc]; [rewrite Ec; left|]. rewrite (Hrep r0) in Ha by eauto. by injection Ha as <-.
      * intros c' Hp Hin. apply Hk4; [done|]. rewrite Ec. by right.
    + cbn. unfold registers, chances, unread_connected. cbn. case_decide; cbn; [done|lia].
    + constructor; [|constructor]. destruct c; try done. cbn. eapply Hrep; eauto.
    + intros Hp _. cbn. split; [done|]. by repeat constructor.
  - assert (RunLoopExits ∉ lifes tr) as Hl by (intros Hin; apply Hn, list_elem_of_fmap; eauto).
    destruct (stuck_conn h _ _ _ _ _ (sk_handle _ _ Hk) Hs Hr Hl) as [E Hh]. rewrite E, app_nil_r in *. destruct Hk as [Hk1 Hk2 Hk3 Hk4].
    split; [by split|]. split; [done|]. split; [constructor|]. intros Hp _. split; [done|constructor].
Qed.

Lemma stuck_steps h s tr s' : stuck h s → sys_steps s tr s' → LLife RunLoopExits ∉ tr →
  stuck h s' ∧ (registers tr + chances s' <= chances s)%nat ∧ Forall refused tr ∧
  (retrying (wk_phase (sw s)) = true → chances s = O → retrying (wk_phase (sw s')) = true ∧ Forall is_retry tr).
Proof.
  intros Hk H. revert Hk. induction H as [s|s tr s1 tr' s2 Hs _ IH]; intros Hk Hn.
  - split; [done|]. split; [done|]. split; [constructor|]. intros ? _. split; [done|constructor].
  - rewrite not_elem_of_app in Hn. destruct Hn as [Hn1 Hn2]. destruct (stuck_step _ _ _ _ Hk Hs Hn1) as (Hk1 & Hc1 & Hr1 & Hp1).
    destruct (IH Hk1 Hn2) as (Hk2 & Hc2 & Hr2 & Hp2). rewrite registers_app. split; [done|]. split; [lia|]. split; [by apply Forall_app|].
    intros Hre H0. destruct (Hp1 Hre H0) as [Hre1 Hf1]. destruct (Hp2 Hre1) as [Hre2 Hf2]; [lia|]. split; [done|by apply Forall_app].
Qed.
End worker.

(** C40: a refused registration is not tried again.  In any run of worker and connection from their
    start, let the worker read that the visa service refused its registration, with no exit of
    the connection's loop unread.  Then the connection has a handle, and as long as its
    loop does not exit after that (the visa service answers the pings), it keeps the handle: every
    connect that the worker sends is refused as already connected, and the worker registers at
    most once per [ConnectedToVsApi] that was unread at the refusal.  If there was none, it
    never registers: it only repeats its connect. *)
Theorem refused_registration_wedges {VT : VsTypes} (is_out_of_sync : ApiResponseError → bool) (zpr : IpAddr) (pubkey : PublicKey) (vss_addr : SocketAddrV) (node_cn : bytes) (substrate : SocketAddrV)
    (link_error : DisconnectReason) (deferred : bool) (tr tr' : list Label) (s s' : Sys) (l : list VSConnLifecycleEvent) (w : VsWorkerState) (out : list WOutput) (e : VSApiError) :
  sys_steps is_out_of_sync zpr pubkey vss_addr node_cn substrate link_error (sys_init deferred) tr s →
  takes s (WRegister (inl e)) l → worker_step is_out_of_sync zpr pubkey vss_addr (sw s) (WRegister (inl e)) = Some (Ret (w, out)) → RunLoopExits ∉ life s →
  let s1 := foldl (post link_error) (moved s w l) out in
  sys_steps is_out_of_sync zpr pubkey vss_addr node_cn substrate link_error s1 tr' s' → LLife RunLoopExits ∉ tr' →
  out = [OutNotify] ∧ (∃ h f t f' t', sp s = Looping (Some h) f t ∧ sp s' = Looping (Some h) f' t') ∧ Forall refused tr' ∧
  (registers tr' <= unread_connected s)%nat ∧
  (unread_connected s = O → retrying (wk_phase (sw s')) = true ∧ Forall is_retry tr').
Proof.
  intros H Ht Hw Hn s1 H' Hn'. assert (sys_inv s) as Hi by (eapply joint_steps_inv; [apply joint_init_inv|exact H]).
  assert (wk_phase (sw s) = Registering) as Hp by (unfold worker_step in Hw; by destruct (wk_phase (sw s))).
  destruct (si_past _ Hi) as [h Hh]; [by rewrite Hp|done|].
  assert (stuck h s) as Hk by (split; [done|done|by rewrite Hp..]).
  assert (stuck h s1) as Hk1 by (eapply stuck_moved; eassumption).
  assert (registers (LOut <$> out) + chances (moved s w l) <= chances s)%nat as Hc1 by (by eapply stuck_worker).
  unfold worker_step in Hw. rewrite Hp in Hw. injection Hw as <- <-. split; [done|].
  edestruct stuck_steps as (Hk2 & Hc2 & Hr & Hre); [exact Hk1|exact H'|exact Hn'|]. split.
  { destruct (sp s) as [| |a f t| |]; try discriminate Hh. pose proof (sk_handle _ _ Hk2) as Hh2. destruct (sp s') as [| |a' f' t'| |]; try discriminate Hh2.
    cbn in Hh, Hh2. subst. eauto 10. }
  split; [done|]. assert (chances s = unread_connected s) as E by (unfold chances; rewrite Hp; lia). unfold s1 in Hc2, Hre. rewrite posts_chances in Hc2. rewrite posts_chances in Hre. rewrite E in Hc1.
  split; [lia|]. intros H0. apply Hre; [done|lia].
Qed.

(** *** An example *)

Section sample.
#[local] Existing Instance sample_vs.
Abbreviation sample_steps := (sys_steps (VT := sample_vs) (λ _, false) 1 tt 9 [110] 5 tt).

Definition sample_request : NodeConnect := mk_node_connect 1 NoState tt.
Definition sample_refused : Sys := mk_sys (mk_worker Registering NoState false) (Looping (Some 7%nat) 0 5000) [] [] (Some (ReOps (inl (CodedError tt)))).
Definition sample_told : Sys := mk_sys (mk_worker Disconnecting NoState false) (Looping (Some 7%nat) 0 5000) [] [(NotifyDisconnect (mk_notice None tt) 0, true)] None.
Definition sample_retried : Sys := mk_sys (mk_worker Sleeping NoState false) (Looping (Some 7%nat) 0 5000) [] [] None.

Abbreviation sample_at ph := (mk_worker ph NoState false).
Abbreviation sample_loop h := (Looping (VT := sample_vs) h 0 5000).

Lemma sample_next s tr s1 s1' tr' s2 : sys_step (λ _, false) 1 tt 9 [110] 5 tt s tr s1 → s1 = s1' → sample_steps s1' tr' s2 → sample_steps s (tr ++ tr') s2.
Proof. intros H <-. by apply steps_cons. Qed.

(** The connection is set up, the worker connects, and its registration is refused. *)
Lemma sample_refusal : ∃ tr, sample_steps (sys_init false) tr sample_refused.
Proof.
  eexists. eapply (sample_next _ _ _ (mk_sys (sample_at Gated) TlsConnecting [] [] None)); [eapply (st_other _ _ _ _ _ _ _ _ (InTcp true)); [done|by cbn]|done|].
  eapply (sample_next _ _ _ (mk_sys (sample_at Gated) (sample_loop None) [RunLoopStarts] [] None)); [eapply (st_other _ _ _ _ _ _ _ _ (InTls true)); [done|by eexists]|done|].
  eapply (sample_next _ _ _ (mk_sys (sample_at Attempting) (sample_loop None) [] [(Connect sample_request 0, true)] None)); [eapply st_worker; [by apply takes_event|done]|done|].
  eapply (sample_next _ _ _ (mk_sys (sample_at Attempting) (sample_loop (Some 7%nat)) [ConnectedToVsApi NoState] [] (Some (ReDone (inr tt))))).
  { eapply st_command; [done|done|]. eexists (Answered (Some (Some (Some (WhichOk (Some 3%nat)))))), _. split; [done|].
    eexists (Answered (Some (Some (mk_challenge (Some [1]) (Some RsaSha256Pkcs1v15))))), _. split; [done|]. eexists 0, _. split; [done|].
    eexists (Answered (Some (Some (Some (WhichOk (Some 7%nat)))))), _. split; [done|]. eexists. split; [done|]. by eexists. }
  { done. }
  eapply (sample_next _ _ _ (mk_sys (sample_at Registering) (sample_loop (Some 7%nat)) [] [(RegisterVss (VT := sample_vs) 9 0, true)] None)); [eapply st_worker; [by apply takes_event|done]|done|].
  eapply (sample_next _ _ _ sample_refused).
  { eapply st_command; [done|done|]. eexists (Answered (Some (Some (Some (WhichError (VT := sample_vs) (Some tt)))))), _. split; [done|]. by eexists. }
  { done. }
  apply steps_nil.
Qed.

(** The notice is acknowledged, and the worker connects once more, in vain. *)
Lemma sample_retry : ∃ tr, sample_steps sample_told tr sample_retried ∧ (LLife RunLoopExits ∉ tr) ∧ (LReply (Connect sample_request 0) (Some refusal) ∈ tr).
Proof.
  eexists. split.
  - eapply (sample_next _ _ _ (mk_sys (sample_at Disconnecting) (sample_loop (Some 7%nat)) [] [] (Some (ReDone (inr tt)))));
      [eapply st_command; [done|done|]; eexists (Answered (Some (Some (Some OkWhich)))), _; split; [done|]; by eexists|done|].
    eapply (sample_next _ _ _ (mk_sys (sample_at Sleeping) (sample_loop (Some 7%nat)) [] [] None)); [eapply st_worker; [by eapply takes_notify|done]|done|].
    eapply (sample_next _ _ _ (mk_sys (sample_at Attempting) (sample_loop (Some 7%nat)) [] [(Connect sample_request 0, true)] None)); [eapply st_worker; [by apply takes_slept|done]|done|].
    eapply (sample_next _ _ _ (mk_sys (sample_at Attempting) (sample_loop (Some 7%nat)) [] [] (Some refusal))); [eapply st_command; [done|done|by eexists]|done|].
    eapply (sample_next _ _ _ sample_retried); [eapply st_worker; [by eapply takes_connect|done]|done|apply steps_nil].
  - cbn. split; [set_solver|]. set_solver.
Qed.
End sample.

Lemma refused_registration_wedges_witness :
  ∃ tr', sys_steps (VT := sample_vs) (λ _, false) 1 tt 9 [110] 5 tt sample_told tr' sample_retried ∧ LReply (VT := sample_vs) (Connect sample_request 0) (Some refusal) ∈ tr' ∧
    Forall refused tr' ∧ registers tr' = O ∧ Forall is_retry tr'.
Proof.
  destruct sample_refusal as [tr H], sample_retry as (tr' & H' & Hn & Hin). exists tr'. split; [exact H'|]. split; [exact Hin|].
  destruct (refused_registration_wedges (VT := sample_vs) (λ _, false) 1 tt 9 [110] 5 tt false tr tr' sample_refused sample_retried [] (mk_worker Disconnecting NoState false) [OutNotify] (CodedError (VT := sample_vs) tt)
    H ltac:(by apply takes_register) eq_refl ltac:(by apply not_elem_of_nil) H' Hn) as (_ & _ & Hr & Hc & Hre).
  split; [exact Hr|]. split; [apply Nat.le_0_r; exact Hc|]. exact (proj2 (Hre eq_refl)).
Defined.
