(* ===== verification/SendHandles.v ===== *)
(** What [send_*_mgmt] returns, [src/adapter/ph/src/mgmt/core.rs]: handles to a packet that
    waits for room in the window, was sent, was acknowledged or canceled; futures that are
    polled, and whose end cancels or forgets the packet.  The other side of them is the
    sender of [ZdprSender]; [None] stands for a link that is gone. *)
From S2P Require Import Prelude ZdprSender ZdprOrder.

(** [PacketId] *)
Inductive PacketId : Type := PidQueued (id : Z) | PidSent (sn : Z) | PidAcked | PidCanceled.

Inductive MgmtSendError : Type := LinkClosed.
Inductive PacketStatus : Type := StatusAcked | StatusCanceled.

Section handles.
Context {Pkt : Type} `{!SizeOf (UnackedState Pkt)}.
Abbreviation Peer := (option (Sender Pkt)).
Implicit Types (peer : Peer) (pid : PacketId) (cx : Waker).

(** The end of [send_mgmt_helper], with the packet built: what goes out, whether the retry
    timer is started, and the handle. *)
Definition send_packet peer (packet : Pkt) : Peer * list (Z * Pkt) * bool * PacketId :=
  match peer with
  | None => (None, [], false, PidQueued 0)
  | Some s =>
      let old_retry_needed := retry_needed s in
      match enqueue_packet s packet with
      | (s, Sent sn pkt) => (Some s, [(sn, pkt)], negb old_retry_needed, PidSent sn)
      | (s, Queued id) => (Some s, [], false, PidQueued id)
      end
  end.

(** [Sent::is_sent] *)
Definition handle_is_sent peer pid : bool :=
  match pid, peer with PidQueued id, Some s => is_sent s id | _, _ => true end.

Definition update_sent_packet_id (seq_num : option Z) : PacketId := match seq_num with Some sn => PidSent sn | None => PidAcked end.

(** The packet, if it was still queued; wakers are woken. *)
Definition try_cancel_internal peer pid : outcome (Peer * PacketId * option Pkt * list Waker) :=
  match pid, peer with
  | PidQueued id, Some s =>
      r ← cancel_queued_packet s id;
      match r with
      | (s, Some pkt, wk) => Ret (Some s, pid, Some pkt, wk)
      | (s, None, wk) => sn ← lookup_seq_num s id; Ret (Some s, update_sent_packet_id sn, None, wk)
      end
  | _, _ => Ret (peer, pid, None, [])
  end.

(** The sequence number of a cancellation that is sent at once. *)
Definition request_cancel_internal peer pid : outcome (Peer * PacketId * list Waker * option Z) :=
  match pid, peer with
  | PidAcked, _ | PidCanceled, _ | _, None => Ret (peer, pid, [], None)
  | PidQueued _, Some s | PidSent _, Some s =>
      r ← (match pid with PidQueued _ => try_cancel_internal peer pid | _ => Ret (peer, pid, None, []) end);
      match r with
      | (peer, _, Some _, wk) => Ret (peer, PidCanceled, wk, None)
      | (Some s, PidSent sn, None, wk) =>
          c ← cancel_sent_packet s sn;
          Ret (Some c.1, PidSent sn, wk, match c.2 with Some _ => Some sn | None => None end)
      | (_, _, None, _) => Panic
      end
  end.

Definition limit_retries_internal peer pid (retry_limit : Z) : outcome Peer :=
  match pid, peer with
  | PidQueued id, Some s => s ← limit_retries_by_id s id retry_limit; Ret (Some s)
  | PidSent sn, Some s => s ← limit_retries_by_seq_num s sn retry_limit; Ret (Some s)
  | _, _ => Ret peer
  end.

(** [Drop for Sent] *)
Definition sent_drop peer pid : outcome (Peer * list Waker) := r ← try_cancel_internal peer pid; Ret (r.1.1.1, r.2).

(** [Future for Sent]: the handle it resolves to. *)
Definition sent_poll peer cx pid : outcome (Peer * PacketId * Poll (MgmtSendError + PacketId)) :=
  match pid, peer with
  | PidQueued _, None => Ret (peer, pid, Ready (inl LinkClosed))
  | PidQueued id, Some s =>
      r ← poll_send s cx id;
      match r with
      | (s, Pending) => Ret (Some s, pid, Pending)
      | (s, Ready sn) => let pid := update_sent_packet_id sn in Ret (Some s, pid, Ready (inr pid))
      end
  | _, _ => Ret (peer, pid, Ready (inr pid))
  end.

(** [Future for Acked] *)
Definition acked_poll peer cx pid : outcome (Peer * PacketId * Poll (MgmtSendError + unit)) :=
  let wait s sn := r ← poll_ack s cx sn; match r with (s, Pending) => Ret (Some s, PidSent sn, Pending) | (s, Ready _) => Ret (Some s, PidSent sn, Ready (inr tt)) end in
  match pid, peer with
  | PidAcked, _ => Ret (peer, pid, Ready (inr tt))
  | _, None => Ret (peer, pid, Ready (inl LinkClosed))
  | PidQueued id, Some s =>
      r ← poll_send s cx id;
      match r with
      | (s, Pending) => Ret (Some s, pid, Pending)
      | (s, Ready None) => Ret (Some s, pid, Ready (inr tt))
      | (s, Ready (Some sn)) => wait s sn
      end
  | PidSent sn, Some s => wait s sn
  | PidCanceled, Some _ => Panic
  end.

(** [Future for AckedOrCanceled] *)
Definition acked_or_canceled_poll peer cx pid : outcome (Peer * PacketId * Poll (MgmtSendError + PacketStatus)) :=
  let wait s sn :=
    r ← poll_ack s cx sn;
    match r with
    | (s, Pending) => Ret (Some s, PidSent sn, Pending)
    | (s, Ready _) => c ← is_cancel_acked s sn; Ret (Some s, PidSent sn, Ready (inr (if (c : bool) then StatusCanceled else StatusAcked)))
    end in
  match pid, peer with
  | PidAcked, _ => Ret (peer, pid, Ready (inr StatusAcked))
  | PidCanceled, _ => Ret (peer, pid, Ready (inr StatusCanceled))
  | _, None => Ret (peer, pid, Ready (inl LinkClosed))
  | PidQueued id, Some s =>
      r ← poll_send s cx id;
      match r with
      | (s, Pending) => Ret (Some s, pid, Pending)
      | (s, Ready None) => Ret (Some s, pid, Ready (inr StatusAcked))
      | (s, Ready (Some sn)) => wait s sn
      end
  | PidSent sn, Some s => wait s sn
  end.

(** [AckedOrCanceled::forget_internal] *)
Definition forget_internal peer pid : outcome Peer :=
  match pid, peer with PidSent sn, Some s => s ← forget_canceled_packet s sn; Ret (Some s) | _, _ => Ret peer end.

(** [Drop for AckedOrCanceled], then of the [Sent] inside. *)
Definition acked_or_canceled_drop peer pid : outcome (Peer * list Waker) := peer ← forget_internal peer pid; sent_drop peer pid.

(** [enqueue]: of [Sent] and [Acked] it only prevents the drop, of [AckedOrCanceled] it also
    forgets. *)
Definition acked_or_canceled_enqueue peer pid : outcome Peer := forget_internal peer pid.

(** ** Who waits in the queue *)

(** The identifiers of the packets that wait, the first entry's being [base]. *)
Fixpoint wait_ids (base : Z) (b : list (BlockedState Pkt)) : list Z :=
  match b with
  | [] => []
  | Blocked _ _ _ :: b => base :: wait_ids (base + 1) b
  | Canceled :: b => wait_ids (base + 1) b
  end.
Definition queued_ids (Q : Z) (s : Sender Pkt) : list Z := wait_ids (Q - zlen (blocked s) + 1) (blocked s).

Lemma wait_ids_app base b b' : wait_ids base (b ++ b') = wait_ids base b ++ wait_ids (base + zlen b) b'.
Proof.
  revert base. induction b as [|x b IH]; intros base; cbn [wait_ids app]; [by rewrite zlen_nil, Z.add_0_r|].
  rewrite zlen_cons, IH. replace (base + 1 + zlen b) with (base + (zlen b + 1)) by lia. by destruct x.
Qed.

Lemma wait_ids_range base b i : i ∈ wait_ids base b → base <= i < base + zlen b.
Proof.
  revert base. induction b as [|[p w l|] b IH]; intros base; cbn [wait_ids]; [by intros ?%not_elem_of_nil| |]; rewrite zlen_cons; pose proof (zlen_nonneg b) as Hb.
  - intros [->|H]%elem_of_cons; [lia|]. apply IH in H. lia.
  - intros H%IH. lia.
Qed.

Lemma wait_ids_nodup base b : NoDup (wait_ids base b).
Proof.
  revert base. induction b as [|[p w l|] b IH]; intros base; cbn [wait_ids]; [constructor| |apply IH]. constructor; [|apply IH]. intros H%wait_ids_range. lia.
Qed.

Lemma wait_ids_length base b : length (wait_ids base b) = length (filter_map blocked_packet b).
Proof. revert base. induction b as [|[p w l|] b IH]; intros base; cbn; [done| |]; by rewrite IH. Qed.

(** What the front of the queue has lost. *)
Lemma queued_ids_drop Q (s s' : Sender Pkt) n b : (n <= length b)%nat → zlen b = zlen (blocked s) → blocked s' = drop n b →
  queued_ids Q s' = wait_ids (Q - zlen (blocked s) + 1 + Z.of_nat n) (drop n b).
Proof. intros Hn Hl E. unfold queued_ids. rewrite E. f_equal. unfold zlen in *. rewrite length_drop. lia. Qed.

Lemma wait_ids_drop base n b i : (n <= length b)%nat → i ∈ wait_ids (base + Z.of_nat n) (drop n b) → i ∈ wait_ids base b.
Proof.
  intros Hn H. rewrite <- (take_drop n b), wait_ids_app. apply elem_of_app. right. rewrite <- (take_drop n b) in H at 1. unfold zlen. rewrite length_take, Nat.min_l by done. by rewrite take_drop in H.
Qed.

(** Cleaning the front of the queue takes nothing from it that waits. *)
Lemma clean_blocked_ids Q (s : Sender Pkt) i : i ∈ queued_ids Q (clean_blocked_queue s) → i ∈ queued_ids Q s.
Proof.
  unfold clean_blocked_queue. destruct (clean_blocked_loop_spec (blocked s) (sent s)) as (n & -> & _ & Hn & _). intros H.
  rewrite (queued_ids_drop Q s _ n (blocked s)) in H by done. unfold queued_ids. by eapply wait_ids_drop.
Qed.

Lemma wait_ids_cancel base b n i : i ∈ wait_ids base (<[n := Canceled]> b) → i ∈ wait_ids base b ∧ ((n < length b)%nat → i ≠ base + Z.of_nat n).
Proof.
  revert base n. induction b as [|x b IH]; intros base n; [by intros ?%not_elem_of_nil|]. destruct n as [|n]; cbn [insert list_insert wait_ids].
  - intros H. split; [destruct x; [by apply list_elem_of_further|done]|]. intros _ ->. apply wait_ids_range in H. lia.
  - destruct x as [p w l|]; cbn [wait_ids].
    + intros [->|H]%elem_of_cons; [split; [apply list_elem_of_here|lia]|]. apply IH in H as [H1 H2]. split; [by apply list_elem_of_further|]. cbn. intros Hn. specialize (H2 ltac:(lia)). lia.
    + intros H. apply IH in H as [H1 H2]. split; [done|]. cbn. intros Hn. specialize (H2 ltac:(lia)). lia.
Qed.

Lemma wait_ids_drop_inv base n b i : (n <= length b)%nat → base + Z.of_nat n <= i → i ∈ wait_ids base b → i ∈ wait_ids (base + Z.of_nat n) (drop n b).
Proof.
  intros Hn Hi H. rewrite <- (take_drop n b), wait_ids_app in H. unfold zlen in H. rewrite length_take, Nat.min_l in H by done. apply elem_of_app in H as [H|H]; [|done].
  apply wait_ids_range in H. unfold zlen in H. rewrite length_take in H. lia.
Qed.

Lemma wait_ids_keep base b n x i : i ∈ wait_ids base b → i ≠ base + Z.of_nat n → i ∈ wait_ids base (<[n := x]> b).
Proof.
  revert base n. induction b as [|y b IH]; intros base n; [done|]. destruct n as [|n]; cbn [insert list_insert wait_ids].
  - intros H Hi. destruct y as [p w l|], x as [p' w' l'|]; try (apply elem_of_cons in H as [->|H]; [lia|]); first [done|by apply list_elem_of_further].
  - destruct y as [p w l|]; cbn [wait_ids].
    + intros [->|H]%elem_of_cons Hi; [apply list_elem_of_here|]. apply list_elem_of_further, IH; [done|lia].
    + intros H Hi. apply IH; [done|lia].
Qed.

Lemma wait_ids_same base b n x y : b !! n = Some x → (blocked_packet x = None ↔ blocked_packet y = None) → wait_ids base (<[n := y]> b) = wait_ids base b.
Proof.
  revert base n. induction b as [|z b IH]; intros base n; [done|]. destruct n as [|n]; cbn [insert list_insert wait_ids lookup list_lookup].
  - intros [= ->] H. destruct x, y; cbn in H; try done; naive_solver.
  - intros H1 H2. by rewrite (IH _ _ H1 H2).
Qed.

(** The front of the queue is the oldest identifier. *)
Definition queue_base (Q : Z) (s : Sender Pkt) : Z := Q - zlen (blocked s) + 1.

(** What an operation that adds nothing to the queue may do to it: packets leave it only at
    the front, or are canceled. *)
Definition shrinks (Q : Z) (gone : Z → Prop) (s s' : Sender Pkt) : Prop :=
  (∀ j, j ∈ queued_ids Q s' → j ∈ queued_ids Q s ∧ ¬ gone j) ∧ queue_base Q s <= queue_base Q s' ∧
  (∀ j, j ∈ queued_ids Q s → ¬ gone j → queue_base Q s' <= j → j ∈ queued_ids Q s').

Lemma shrinks_same Q s s' : blocked s' = blocked s → shrinks Q (λ _, False) s s'.
Proof. intros E. unfold shrinks, queued_ids, queue_base. rewrite E. split; [naive_solver|]. split; [lia|done]. Qed.

Lemma shrinks_trans Q g (s s1 s2 : Sender Pkt) : shrinks Q g s s1 → shrinks Q (λ _, False) s1 s2 → shrinks Q g s s2.
Proof.
  intros (A1 & A2 & A3) (B1 & B2 & B3). split; [|split; [lia|]].
  - intros j [Hj _]%B1. by apply A1.
  - intros j Hj Hg Hb. apply B3; [|tauto|done]. apply A3; [done|done|lia].
Qed.

Lemma shrinks_drop Q (s s' : Sender Pkt) n b : (n <= length b)%nat → zlen b = zlen (blocked s) → wait_ids (queue_base Q s) b = queued_ids Q s → blocked s' = drop n b → shrinks Q (λ _, False) s s'.
Proof.
  intros Hn Hl Hw E. pose proof (queued_ids_drop Q s s' n b Hn Hl E) as Hq. fold (queue_base Q s) in Hq.
  assert (queue_base Q s' = queue_base Q s + Z.of_nat n) as Hb by (unfold queue_base; rewrite E; unfold zlen in *; rewrite length_drop; lia).
  split; [|split; [lia|]].
  - intros j Hj. split; [|tauto]. rewrite <- Hw. rewrite Hq in Hj. by eapply wait_ids_drop.
  - intros j Hj _ Hle. rewrite Hq. apply wait_ids_drop_inv; [done|lia|by rewrite Hw].
Qed.

Lemma shrinks_clean Q (s : Sender Pkt) : shrinks Q (λ _, False) s (clean_blocked_queue s).
Proof.
  unfold clean_blocked_queue. destruct (clean_blocked_loop_spec (blocked s) (sent s)) as (n & -> & _ & Hn & _). by eapply (shrinks_drop Q s _ n (blocked s)).
Qed.

Lemma cancel_shrinks S Q s i s' p wk : sender_wf S Q s → near i Q → i <= Q → cancel_queued_packet s (wrap64 i) = Ret (s', p, wk) → shrinks Q (λ j, j = i) s s'.
Proof.
  intros Hs Hi Hle. unfold cancel_queued_packet. destruct (queued_window S Q s i Hs Hi) as [Hwin Hoff]. revert Hwin. rewrite Hoff. intros Hwin.
  destruct Hwin as [Hf _ _|Hp _ -> ->|x Hx _ -> -> -> Hix Hl]; simpl; [lia| |].
  - intros [= <- _ _]. split; [|split; [lia|done]]. intros j Hj. split; [done|]. apply wait_ids_range in Hj. lia.
  - set (idx := zlen (blocked s) + (i - Q) - 1) in *. unfold update_at. rewrite Hix. simpl.
    assert (0 <= idx < zlen (blocked s)) as Hidx by (unfold idx; lia). assert (queue_base Q s + Z.of_nat (Z.to_nat idx) = i) as Hpos by (unfold queue_base, idx in *; lia).
    assert (∀ y, blocked_packet y = None → shrinks Q (λ j, j = i) s (set_blocked s (<[Z.to_nat idx := y]> (blocked s)))) as Hset.
    { intros [?|] Hy; [done|]. unfold shrinks, queued_ids, queue_base. cbn. rewrite zlen_insert. fold (queue_base Q s). split; [|split; [lia|]].
      - intros j Hj. apply wait_ids_cancel in Hj as [H1 H2]. split; [done|]. rewrite Hpos in H2. apply H2. unfold zlen in Hidx. lia.
      - intros j Hj Hne _. apply wait_ids_keep; [done|by rewrite Hpos]. }
    destruct x as [q w l|]; simpl; intros [= <- _ _]; [|exact (Hset Canceled eq_refl)]. destruct (idx =? 0); [|exact (Hset Canceled eq_refl)]. eapply shrinks_trans; [exact (Hset Canceled eq_refl)|apply shrinks_clean].
Qed.

(** The calls that neither queue nor cancel queued packets. *)
Definition is_other_call (c : SenderCall Pkt) : bool := match c with CallEnqueue _ | CallCancelQueued _ => false | _ => true end.

Lemma other_shrinks Q s c s' tx : is_other_call c = true → exec s c = Ret (s', tx) → shrinks Q (λ _, False) s s'.
Proof.
  destruct c as [p|k|k|i|k|i n|k n|k| | |n]; cbn [is_other_call]; intros Hc; try discriminate Hc; cbn [exec]; intros H.
  - apply outcome_bind_Ret in H as ([[s1 ?] ?] & E & [= <- _]). apply process_ack_same in E as [E _]. by apply shrinks_same.
  - apply outcome_bind_Ret in H as ([s1 ?] & E & [= <- _]). apply process_canceled_same in E as [E _]. by apply shrinks_same.
  - apply outcome_bind_Ret in H as ([s1 ?] & E & [= <- _]). apply cancel_sent_same in E as [E _]. by apply shrinks_same.
  - apply outcome_bind_Ret in H as (s1 & E & [= <- _]). unfold limit_retries_by_id, assertb in E. destruct (_ <=? 0); [|done]. destruct (_ <=? i64_neg _).
    + apply outcome_bind_Ret in E as ([sn|] & _ & E); [|injection E as <-; by apply shrinks_same]. apply limit_seq_same in E as [E _]. by apply shrinks_same.
    + apply outcome_bind_Ret in E as ([b []] & E & [= <-]). unfold update_at in E. apply outcome_bind_Ret in E as (x & Ex & [= <-]). apply index_Ret in Ex as [_ Ex].
      assert (∀ b', zlen b' = zlen (blocked s) → wait_ids (queue_base Q s) b' = wait_ids (queue_base Q s) (blocked s) → shrinks Q (λ _, False) s (set_blocked s b')) as Hb.
      { intros b' Hl Hw. unfold shrinks, queued_ids, queue_base in *. cbn. rewrite Hl, Hw. split; [naive_solver|]. split; [lia|done]. }
      apply Hb; [by rewrite zlen_insert|]. eapply wait_ids_same; [done|]. by destruct x.
  - apply outcome_bind_Ret in H as (s1 & E & [= <- _]). apply limit_seq_same in E as [E _]. by apply shrinks_same.
  - apply outcome_bind_Ret in H as (s1 & E & [= <- _]). apply forget_same in E as [E _]. by apply shrinks_same.
  - apply outcome_bind_Ret in H as ([[s1 ?] ?] & E & [= <- _]). unfold enqueue_next_blocked_packet, assertb in E. destruct (negb _); [|done].
    destruct (blocked s) as [|[p0 w0 l0|] b] eqn:Hb; [done| |done]. injection E as <- _ _.
    eapply shrinks_trans; [|apply shrinks_clean]. eapply (shrinks_drop Q s _ 1 (blocked s)); [rewrite Hb; cbn; lia|done|done|by rewrite Hb].
  - injection H as <- _. by apply shrinks_same.
  - apply outcome_bind_Ret in H as (s1 & E & [= <- _]). apply adjust_Ret in E as ->. by apply shrinks_same.
Qed.

(** ** The handles of a link *)

Record HandleSys : Type := { hs_sender : Sender Pkt; hs_S : Z; hs_Q : Z; live : gset Z; detached : gset Z }.

(** What the holders of handles do, and everything else that happens to the sender.  [i] is the
    identifier of a packet that was queued when it was handed over, [k] the sequence number in a
    handle that knows it. *)
Inductive HCall : Type :=
| HSend (p : Pkt)
| HDrop (i : Z)
| HEnqueue (i : Z)
| HPollSent (cx : Waker) (i : Z)
| HPollAcked (cx : Waker) (i : Z)
| HPollStatus (cx : Waker) (i : Z)
| HLimit (i n : Z)
| HPollAckedSent (cx : Waker) (k : Z)
| HPollStatusSent (cx : Waker) (k : Z)
| HDropSent (k : Z)
| HLimitSent (k n : Z)
| HCancelSent (k : Z)
| HOther (c : SenderCall Pkt).

Definition still_queued pid : bool := match pid with PidQueued _ => true | _ => false end.

(** After a poll the handle of [i] may have learnt its sequence number. *)
Definition polled (h : HandleSys) (i : Z) (s : Sender Pkt) pid : HandleSys :=
  {| hs_sender := s; hs_S := hs_S h; hs_Q := hs_Q h; live := if still_queued pid then live h else live h ∖ {[i]}; detached := detached h |}.
Definition poll_result {A} (h : HandleSys) (i : Z) (r : Peer * PacketId * Poll A) : outcome HandleSys :=
  match r with (Some s, pid, _) => Ret (polled h i s pid) | _ => Panic end.

Definition with_sender (h : HandleSys) peer : outcome HandleSys :=
  match peer with
  | Some s => Ret {| hs_sender := s; hs_S := hs_S h; hs_Q := hs_Q h; live := live h; detached := detached h |}
  | None => Panic
  end.

Definition hstep (h : HandleSys) (c : HCall) : outcome HandleSys :=
  let s := hs_sender h in
  match c with
  | HSend p =>
      match send_packet (Some s) p with
      | (Some s', _, _, PidQueued _) => Ret {| hs_sender := s'; hs_S := hs_S h; hs_Q := hs_Q h + 1; live := {[hs_Q h + 1]} ∪ live h; detached := detached h |}
      | (Some s', _, _, _) => Ret {| hs_sender := s'; hs_S := hs_S h + 1; hs_Q := hs_Q h; live := live h; detached := detached h |}
      | (None, _, _, _) => Panic
      end
  | HDrop i =>
      r ← sent_drop (Some s) (PidQueued (wrap64 i));
      match r.1 with
      | Some s' => Ret {| hs_sender := s'; hs_S := hs_S h; hs_Q := hs_Q h; live := live h ∖ {[i]}; detached := detached h |}
      | None => Panic
      end
  | HEnqueue i => Ret {| hs_sender := s; hs_S := hs_S h; hs_Q := hs_Q h; live := live h ∖ {[i]}; detached := {[i]} ∪ detached h |}
  | HPollSent cx i => r ← sent_poll (Some s) cx (PidQueued (wrap64 i)); poll_result h i r
  | HPollAcked cx i => r ← acked_poll (Some s) cx (PidQueued (wrap64 i)); poll_result h i r
  | HPollStatus cx i => r ← acked_or_canceled_poll (Some s) cx (PidQueued (wrap64 i)); poll_result h i r
  | HLimit i n => r ← limit_retries_internal (Some s) (PidQueued (wrap64 i)) n; with_sender h r
  | HPollAckedSent cx k => r ← acked_poll (Some s) cx (PidSent (wrap64 k)); with_sender h r.1.1
  | HPollStatusSent cx k => r ← acked_or_canceled_poll (Some s) cx (PidSent (wrap64 k)); with_sender h r.1.1
  | HDropSent k => r ← acked_or_canceled_drop (Some s) (PidSent (wrap64 k)); with_sender h r.1
  | HLimitSent k n => r ← limit_retries_internal (Some s) (PidSent (wrap64 k)) n; with_sender h r
  | HCancelSent k => r ← request_cancel_internal (Some s) (PidSent (wrap64 k)); with_sender h r.1.1.1
  | HOther c => r ← exec s c; Ret {| hs_sender := r.1; hs_S := hs_S h + sends s c; hs_Q := hs_Q h; live := live h; detached := detached h |}
  end.

Definition hok (h : HandleSys) (c : HCall) : Prop :=
  match c with
  | HSend p => call_ok (hs_S h) (hs_Q h) (hs_sender h) (CallEnqueue p)
  | HDrop i | HEnqueue i | HPollSent _ i | HPollAcked _ i | HPollStatus _ i | HLimit i _ => i ∈ live h ∧ near i (hs_Q h)
  | HPollAckedSent _ k | HPollStatusSent _ k | HDropSent k | HLimitSent k _ | HCancelSent k => near k (hs_S h) ∧ k <= hs_S h
  | HOther c => is_other_call c = true ∧ call_ok (hs_S h) (hs_Q h) (hs_sender h) c
  end.

Inductive handles_reach : HandleSys → Prop :=
| handles_new : handles_reach {| hs_sender := sender_new; hs_S := -1; hs_Q := -1; live := ∅; detached := ∅ |}
| handles_call h c h' : handles_reach h → hok h c → hstep h c = Ret h' → handles_reach h'.

(** Every packet that waits has a handle or was let go by its handle, and a handle that is
    not that of a sent packet has its packet in the queue. *)
Record handles_inv (h : HandleSys) : Prop := {
  hi_wf : sender_wf (hs_S h) (hs_Q h) (hs_sender h);
  hi_issued : ∀ i, i ∈ live h → i <= hs_Q h;
  hi_owned : ∀ i, i ∈ queued_ids (hs_Q h) (hs_sender h) → i ∈ live h ∪ detached h;
  hi_queued : ∀ i, i ∈ live h → queue_base (hs_Q h) (hs_sender h) <= i → i ∈ queued_ids (hs_Q h) (hs_sender h) }.

Lemma shrinks_inv h s' S' (l' d' : gset Z) gone :
  handles_inv h → sender_wf S' (hs_Q h) s' → shrinks (hs_Q h) gone (hs_sender h) s' →
  l' ⊆ live h → (∀ i, i ∈ l' → ¬ gone i) → (∀ i, i ∈ live h ∪ detached h → i ∉ l' ∪ d' → gone i ∨ i ∉ queued_ids (hs_Q h) s') →
  handles_inv {| hs_sender := s'; hs_S := S'; hs_Q := hs_Q h; live := l'; detached := d' |}.
Proof.
  intros [Hwf Hiss Hown Hq] Hs' (A1 & A2 & A3) Hl Hg Hlost. split; cbn; [done| | |].
  - intros i Hi. apply Hiss. set_solver.
  - intros i Hi. destruct (decide (i ∈ l' ∪ d')) as [|Hn]; [done|]. destruct (A1 i Hi) as [H1 H2]. destruct (Hlost i (Hown i H1) Hn); [done|contradiction].
  - intros i Hi Hb. apply A3; [|by apply Hg|done]. apply Hq; [set_solver|lia].
Qed.

Lemma elem_wait_ids base b n x : b !! n = Some x → (base + Z.of_nat n ∈ wait_ids base b ↔ blocked_packet x ≠ None).
Proof.
  revert base n. induction b as [|y b IH]; intros base n; [done|]. destruct n as [|n]; cbn [lookup list_lookup].
  - intros [= ->]. rewrite Z.add_0_r. destruct x as [p w l|]; cbn; [split; [done|intros _; apply list_elem_of_here]|]. split; [|done]. intros H%wait_ids_range. lia.
  - intros E. rewrite <- (IH (base + 1) n E). replace (base + 1 + Z.of_nat n) with (base + Z.of_nat (Datatypes.S n)) by lia. destruct y as [p w l|]; cbn [wait_ids]; [|done].
    rewrite elem_of_cons. split; [intros [?|?]; [lia|done]|by right].
Qed.

(** What a queued identifier finds: its packet in the queue, or the packet has left it. *)
Lemma live_window h i : handles_inv h → i ∈ live h → near i (hs_Q h) →
  let s := hs_sender h in let o := seq_offset (wrap64 i) (last_enqueued s) in
  (o <=? 0) = true ∧
  (((i ∉ queued_ids (hs_Q h) s) ∧ (zlen (blocked s) <=? i64_neg o) = true ∧ i <= hs_Q h - zlen (blocked s)) ∨
   ∃ p w l, i ∈ queued_ids (hs_Q h) s ∧ (zlen (blocked s) <=? i64_neg o) = false ∧
     index (blocked s) (offset_idx (zlen (blocked s)) o) = Ret (Blocked p w l)).
Proof.
  intros Hh Hi Hn s o. pose proof (hi_issued _ Hh i Hi) as Hle. destruct (queued_window _ _ _ i (hi_wf _ Hh) Hn) as [Hwin Hoff]. fold s o in Hwin, Hoff.
  assert ((o <=? 0) = true) as H0 by (rewrite Hoff; lia). split; [done|]. destruct Hwin as [Hf|Hp _ H1 H2|x Hx _ H1 H2 Hix Hidx Hl]; [lia| |].
  - left. split; [intros [H _]%wait_ids_range; rewrite Hoff in *; fold s in H; lia|]. split; [done|]. rewrite Hoff in *. lia.
  - right. rewrite Hoff in Hx, Hl. assert (queue_base (hs_Q h) s + Z.of_nat (Z.to_nat (zlen (blocked s) + (i - hs_Q h) - 1)) = i) as Hpos by (unfold queue_base; fold s; lia).
    pose proof (hi_queued _ Hh i Hi ltac:(fold s; unfold queue_base in *; lia)) as Hq. fold s in Hq. pose proof (elem_wait_ids (queue_base (hs_Q h) s) _ _ _ Hl) as Hel. rewrite Hpos in Hel.
    assert (blocked_packet x ≠ None) as Hx' by (apply Hel; exact Hq). destruct x as [p w l|]; [|done]. exists p, w, l. rewrite Hix. done.
Qed.

Lemma drop_live h i : handles_inv h → i ∈ live h → near i (hs_Q h) →
  ∃ s' wk, sent_drop (Some (hs_sender h)) (PidQueued (wrap64 i)) = Ret (Some s', wk) ∧ sender_wf (hs_S h) (hs_Q h) s' ∧ shrinks (hs_Q h) (λ j, j = i) (hs_sender h) s'.
Proof.
  intros Hh Hi Hn. pose proof (hi_wf _ Hh) as Hwf. pose proof (hi_issued _ Hh i Hi) as Hle.
  destruct (cancel_queued_wf _ _ _ i Hwf Hn Hle) as (s' & p & wk & E & Hwf' & _). pose proof (cancel_shrinks _ _ _ _ _ _ _ Hwf Hn Hle E) as Hsh.
  exists s', wk. unfold sent_drop, try_cancel_internal. rewrite E. cbn. destruct p as [p|]; cbn; [done|].
  unfold cancel_queued_packet, update_at in E. destruct (live_window h i Hh Hi Hn) as [H0 [(_ & H1 & Hout)|(q & w & l & _ & H1 & H2)]]; rewrite H0, H1 in E; cbn [assertb] in E; [|rewrite H2 in E; cbn in E; congruence].
  assert (s' = hs_sender h) as -> by congruence. destruct (lookup_seq_num_Ret _ _ _ i Hwf Hn Hout) as (o & -> & _). done.
Qed.

Lemma poll_send_live h i cx : handles_inv h → i ∈ live h → near i (hs_Q h) →
  ∃ s' r, poll_send (hs_sender h) cx (wrap64 i) = Ret (s', r) ∧
    match r with
    | Pending => sender_wf (hs_S h) (hs_Q h) s' ∧ shrinks (hs_Q h) (λ _, False) (hs_sender h) s'
    | Ready sn => s' = hs_sender h ∧ (i ∉ queued_ids (hs_Q h) s') ∧ ∃ o, sn = option_map wrap64 o ∧ ∀ k, o = Some k → near k (hs_S h) ∧ k <= hs_S h
    end.
Proof.
  intros Hh Hi Hn. pose proof (hi_wf _ Hh) as Hwf. unfold poll_send. destruct (live_window h i Hh Hi Hn) as [-> [(Hq & -> & Hout)|(p & w & l & Hq & -> & Hix)]]; cbn [assertb].
  - destruct (lookup_seq_num_Ret _ _ _ i Hwf Hn Hout) as (o & -> & Hk). eexists _, _. split; [done|]. cbn. split; [done|]. split; [done|]. exists o. split; [done|]. intros k Ho.
    specialize (Hk k Ho). pose proof (wf_unacked_len _ _ _ _ Hwf). unfold near, win_base in *. lia.
  - rewrite Hix. cbn. eexists _, _. split; [done|]. cbn. apply index_Ret in Hix as [_ Hix]. split.
    + apply set_blocked_wf; [done|by rewrite zlen_insert|]. pose proof (wf_blocked_head _ _ _ _ Hwf) as Hhd. destruct (blocked (hs_sender h)) as [|y b]; [done|]. by destruct (Z.to_nat _).
    + unfold shrinks, queued_ids, queue_base. cbn. rewrite zlen_insert. erewrite wait_ids_same; [|done|done]. split; [naive_solver|]. split; [lia|done].
Qed.

Lemma poll_ack_sent S Q (s : Sender Pkt) k cx : sender_wf S Q s → near k S → k <= S →
  ∃ s' r, poll_ack s cx (wrap64 k) = Ret (s', r) ∧ sender_wf S Q s' ∧ blocked s' = blocked s ∧
    match r with Ready _ => ∃ b, is_cancel_acked s' (wrap64 k) = Ret b | Pending => True end.
Proof.
  intros Hwf Hk Hle. unfold poll_ack, is_cancel_acked. destruct (sent_window S Q s k Hwf Hk) as [Hwin Hoff]. revert Hwin. rewrite Hoff.
  intros [Hf|Hp Hlt H0 H1|x Hx Hlt H0 H1 Hidx Hix Hl]; [lia|rewrite H0, H1|rewrite H0, H1; cbn [assertb]; rewrite Hidx, Hix]; cbn.
  - eexists _, _. split; [done|]. split_and!; [done|done|]. rewrite Hoff, Hlt, H1. eauto.
  - assert (∀ y, y ≠ Acked → sender_wf S Q (set_unacked s (<[Z.to_nat (zlen (unacked s) + (k - S) - 1) := y]> (unacked s)))) as Hup.
    { intros y Hy. apply set_unacked_wf; [done|by rewrite zlen_insert|]. apply insert_not_acked_head; [apply (wf_unacked_head _ _ _ _ Hwf)|done]. }
    destruct x as [q w l c f|w f| |]; eexists _, _; (split; [done|]); cbn; split_and!; try done; try (apply Hup; done); rewrite Hoff, Hlt, H1, Hidx, Hix; cbn; eauto.
Qed.

(** A poll of a queued handle, whichever future it is. *)
Lemma poll_inv h i s' pid : handles_inv h → sender_wf (hs_S h) (hs_Q h) s' → shrinks (hs_Q h) (λ _, False) (hs_sender h) s' →
  (still_queued pid = false → i ∉ queued_ids (hs_Q h) s') → handles_inv (polled h i s' pid).
Proof.
  intros Hh Hwf Hsh Hq. eapply (shrinks_inv h); [done|done|done| |tauto|].
  - destruct (still_queued pid); set_solver.
  - intros j Hj Hn. right. destruct (still_queued pid); [set_solver|]. destruct (decide (j = i)) as [->|Hne]; [by apply Hq|set_solver].
Qed.

Definition waits_then {A} (f : Sender Pkt → Z → outcome (Peer * PacketId * Poll A)) (n : A) h cx i : outcome (Peer * PacketId * Poll A) :=
  r ← poll_send (hs_sender h) cx (wrap64 i);
  match r with
  | (s, Pending) => Ret (Some s, PidQueued (wrap64 i), Pending)
  | (s, Ready None) => Ret (Some s, PidQueued (wrap64 i), Ready n)
  | (s, Ready (Some sn)) => f s sn
  end.

Lemma waits_then_inv {A} f (n : A) h cx i : handles_inv h → i ∈ live h → near i (hs_Q h) →
  (∀ k, near k (hs_S h) → k <= hs_S h → ∃ s' r, f (hs_sender h) (wrap64 k) = Ret (Some s', PidSent (wrap64 k), r) ∧ sender_wf (hs_S h) (hs_Q h) s' ∧ blocked s' = blocked (hs_sender h)) →
  ∃ h', (r ← waits_then f n h cx i; poll_result h i r) = Ret h' ∧ handles_inv h'.
Proof.
  intros Hh Hi Hn Hf. unfold waits_then. destruct (poll_send_live h i cx Hh Hi Hn) as (s' & [sn|] & -> & Hr); cbn.
  - destruct Hr as (-> & Hq & [k|] & -> & Hk); cbn.
    + destruct (Hk k eq_refl) as [H1 H2]. destruct (Hf k H1 H2) as (s' & r & -> & Hwf & Hb). cbn. eexists. split; [done|]. apply poll_inv; [done|done|by apply shrinks_same|].
      intros _. unfold queued_ids. by rewrite Hb.
    + eexists. split; [done|]. apply poll_inv; [done|apply (hi_wf _ Hh)|by apply shrinks_same|done].
  - destruct Hr as [Hwf Hsh]. eexists. split; [done|]. by apply poll_inv.
Qed.

Lemma acked_poll_inv h cx i : handles_inv h → i ∈ live h → near i (hs_Q h) → ∃ h', hstep h (HPollAcked cx i) = Ret h' ∧ handles_inv h'.
Proof.
  intros Hh Hi Hn. refine (waits_then_inv (λ s sn, r ← poll_ack s cx sn; match r with (s, Pending) => Ret (Some s, PidSent sn, Pending) | (s, Ready _) => Ret (Some s, PidSent sn, Ready (inr tt)) end) _ h cx i Hh Hi Hn _).
  intros k H1 H2. destruct (poll_ack_sent _ _ _ k cx (hi_wf _ Hh) H1 H2) as (s' & [[]|] & -> & Hwf & Hb & _); cbn; eauto.
Qed.

Lemma status_poll_inv h cx i : handles_inv h → i ∈ live h → near i (hs_Q h) → ∃ h', hstep h (HPollStatus cx i) = Ret h' ∧ handles_inv h'.
Proof.
  intros Hh Hi Hn. refine (waits_then_inv (λ s sn, r ← poll_ack s cx sn; match r with (s, Pending) => Ret (Some s, PidSent sn, Pending) | (s, Ready _) => c ← is_cancel_acked s sn; Ret (Some s, PidSent sn, Ready (inr (if (c : bool) then StatusCanceled else StatusAcked))) end) _ h cx i Hh Hi Hn _).
  intros k H1 H2. destruct (poll_ack_sent _ _ _ k cx (hi_wf _ Hh) H1 H2) as (s' & [[]|] & -> & Hwf & Hb & Hc); cbn; [destruct Hc as [b ->]; cbn|]; eauto.
Qed.

Lemma sent_poll_inv h cx i : handles_inv h → i ∈ live h → near i (hs_Q h) → ∃ h', hstep h (HPollSent cx i) = Ret h' ∧ handles_inv h'.
Proof.
  intros Hh Hi Hn. cbn. destruct (poll_send_live h i cx Hh Hi Hn) as (s' & [sn|] & -> & Hr); cbn; eexists; (split; [done|]).
  - destruct Hr as (-> & Hq & _). apply poll_inv; [done|apply (hi_wf _ Hh)|by apply shrinks_same|done].
  - destruct Hr as [Hwf Hsh]. by apply poll_inv.
Qed.

Lemma hsend_inv h p : handles_inv h → hok h (HSend p) → ∃ h', hstep h (HSend p) = Ret h' ∧ handles_inv h'.
Proof.
  intros Hh [Ha Hb]. pose proof (enqueue_packet_wf _ _ _ p (hi_wf _ Hh) Ha Hb) as Hwf. cbn. unfold enqueue_packet in *. destruct (is_blocked _ || _); cbn in *; eexists; (split; [done|]).
  - match type of Hwf with sender_wf _ _ ?x => set (s' := x) in * end. assert (queue_base (hs_Q h + 1) s' = queue_base (hs_Q h) (hs_sender h)) as Hbase by (unfold queue_base; cbn; rewrite zlen_app, zlen_cons, zlen_nil; lia).
    assert (queued_ids (hs_Q h + 1) s' = queued_ids (hs_Q h) (hs_sender h) ++ [hs_Q h + 1]) as Hq.
    { unfold queued_ids. fold (queue_base (hs_Q h + 1) s'). rewrite Hbase. cbn. rewrite wait_ids_app. cbn. do 2 f_equal. unfold queue_base. lia. }
    split; cbn; [done| | |].
    + intros i [->%elem_of_singleton|Hi]%elem_of_union; [lia|]. apply (hi_issued _ Hh) in Hi. lia.
    + intros i. change (i ∈ queued_ids (hs_Q h + 1) s' → i ∈ {[hs_Q h + 1]} ∪ live h ∪ detached h). rewrite Hq. intros [Hi|Hi]%elem_of_app; [apply (hi_owned _ Hh) in Hi; set_solver|set_solver].
    + intros i Hi. change (queue_base (hs_Q h + 1) s' <= i → i ∈ queued_ids (hs_Q h + 1) s'). rewrite Hbase, Hq, elem_of_app. intros Hle. apply elem_of_union in Hi as [->%elem_of_singleton|Hi]; [right; apply list_elem_of_here|left; by apply (hi_queued _ Hh)].
  - eapply (shrinks_inv h _ _ _ _ (λ _, False)); [done|done|by apply shrinks_same|done|tauto|set_solver].
Qed.

(** A call that leaves the queue as it is, or takes from its front. *)
Lemma with_sender_inv h s' : handles_inv h → sender_wf (hs_S h) (hs_Q h) s' → shrinks (hs_Q h) (λ _, False) (hs_sender h) s' →
  ∃ h', with_sender h (Some s') = Ret h' ∧ handles_inv h'.
Proof. intros Hh Hwf Hsh. eexists. split; [done|]. eapply shrinks_inv; [done|done|done|done|tauto|set_solver]. Qed.

Lemma other_call_inv h c s' tx : handles_inv h → is_other_call c = true → call_ok (hs_S h) (hs_Q h) (hs_sender h) c →
  sends (hs_sender h) c = 0 → exec (hs_sender h) c = Ret (s', tx) → ∃ h', with_sender h (Some s') = Ret h' ∧ handles_inv h'.
Proof.
  intros Hh Ho Hok Hz E. destruct (exec_wf _ _ _ _ (hi_wf _ Hh) Hok) as (s1 & tx1 & E1 & Hwf). rewrite E in E1. injection E1 as <- <-.
  assert (queues (hs_sender h) c = 0) as Hq by (by destruct c). rewrite Hz, Hq, !Z.add_0_r in Hwf. apply with_sender_inv; [done|done|by eapply other_shrinks].
Qed.

(** A handle that knows its sequence number. *)
Lemma known_inv h c k : handles_inv h → hok h c → match c with HPollAckedSent _ j | HPollStatusSent _ j | HDropSent j | HLimitSent j _ | HCancelSent j => j = k | _ => False end →
  ∃ h', hstep h c = Ret h' ∧ handles_inv h'.
Proof.
  intros Hh Hc Hk. pose proof (hi_wf _ Hh) as Hwf. destruct c as [| | | | | | |cx j|cx j|j|j n|j|]; try done; subst j; destruct Hc as [Hn Hle].
  - destruct (poll_ack_sent _ _ _ k cx Hwf Hn Hle) as (s' & [[]|] & E & Hwf' & Hb & _); cbn [hstep acked_poll]; rewrite E; apply with_sender_inv; auto using shrinks_same.
  - destruct (poll_ack_sent _ _ _ k cx Hwf Hn Hle) as (s' & [[]|] & E & Hwf' & Hb & Hc'); cbn [hstep acked_or_canceled_poll]; rewrite E; cbn -[with_sender]; [destruct Hc' as [b ->]; cbn -[with_sender]|];
      apply with_sender_inv; auto using shrinks_same.
  - destruct (forget_wf _ _ _ k Hwf Hn) as (s' & E & _). cbn [hstep acked_or_canceled_drop forget_internal]. unfold acked_or_canceled_drop. cbn. rewrite E. cbn.
    eapply (other_call_inv h (CallForget k)); [done|done|done|done|]. cbn. by rewrite E.
  - destruct (limit_by_seq_wf _ _ _ k n Hwf Hn) as (s' & E & _). cbn. rewrite E. cbn.
    eapply (other_call_inv h (CallLimitSeq k n)); [done|done|done|done|]. cbn. by rewrite E.
  - destruct (cancel_sent_cases _ _ _ k Hwf Hn) as (s' & p & E & _). cbn. rewrite E. cbn.
    eapply (other_call_inv h (CallCancelSent k)); [done|done|done|done|]. cbn. by rewrite E.
Qed.

Lemma hstep_inv h c : handles_inv h → hok h c → ∃ h', hstep h c = Ret h' ∧ handles_inv h'.
Proof.
  intros Hh Hc. destruct c as [p|i|i|cx i|cx i|cx i|i n|cx k|cx k|k|k n|k|c]; try (by eapply known_inv); cbn [hok] in Hc.
  - by apply hsend_inv.
  - destruct Hc as [Hi Hn]. cbn [hstep]. destruct (drop_live h i Hh Hi Hn) as (s' & wk & -> & Hwf & Hsh). cbn. eexists. split; [done|].
    eapply shrinks_inv; [done|done|done|set_solver|set_solver|]. intros j Hj Hnj. left. destruct (decide (j = i)) as [->|Hne]; [done|set_solver].
  - eexists. split; [done|]. eapply (shrinks_inv h _ _ _ _ (λ _, False)); [done|apply (hi_wf _ Hh)|by apply shrinks_same|set_solver|tauto|]. intros j Hj Hnj. destruct (decide (j = i)); set_solver.
  - apply sent_poll_inv; [done|apply Hc..].
  - apply acked_poll_inv; [done|apply Hc..].
  - apply status_poll_inv; [done|apply Hc..].
  - destruct Hc as [Hi Hn]. pose proof (hi_issued _ Hh i Hi) as Hle. destruct (limit_by_id_wf _ _ _ i n (hi_wf _ Hh) Hn Hle) as (s' & E & _). cbn. rewrite E. cbn.
    eapply (other_call_inv h (CallLimitId i n)); [done|done|done|done|]. cbn. by rewrite E.
  - destruct Hc as [Ho Hok]. destruct (exec_wf _ _ _ _ (hi_wf _ Hh) Hok) as (s' & tx & E & Hwf). cbn [hstep]. rewrite E. cbn. eexists. split; [done|].
    assert (queues (hs_sender h) c = 0) as Hz by (by destruct c). rewrite Hz, Z.add_0_r in Hwf. eapply shrinks_inv; [done|done|by eapply other_shrinks|done|tauto|set_solver].
Qed.

Lemma handles_reach_inv h : handles_reach h → handles_inv h.
Proof.
  induction 1 as [|h c h' _ IH Hc E]; [|destruct (hstep_inv h c IH Hc) as (h'' & E' & Hi); congruence].
  split; cbn; [apply sender_new_wf|set_solver|intros i Hi; by apply not_elem_of_nil in Hi|set_solver].
Qed.

Lemma waiting_bound h : handles_inv h → (length (waiting (hs_sender h)) <= size (live h ∪ detached h))%nat.
Proof.
  intros Hh. unfold waiting. rewrite <- (wait_ids_length (queue_base (hs_Q h) (hs_sender h))). change (wait_ids _ _) with (queued_ids (hs_Q h) (hs_sender h)).
  rewrite <- (size_list_to_set (C := gset Z)) by apply wait_ids_nodup. apply subseteq_size. intros i Hi%elem_of_list_to_set. by apply (hi_owned _ Hh).
Qed.
Lemma queued_ids_waiting Q (s : Sender Pkt) : queued_ids Q s = (waiting_ids Q s).*1.
Proof.
  unfold queued_ids, waiting_ids. replace (Q - zlen (blocked s) + 1) with (Q + 1 - zlen (blocked s)) by lia. generalize (Q + 1 - zlen (blocked s)) as i.
  induction (blocked s) as [|[p w l|] b IH]; intros i; cbn; [done| |done]. by rewrite IH.
Qed.

(** Dropping a handle takes its packet, and no other, out of the queue. *)
Lemma drop_ids S Q (s : Sender Pkt) i s' wk j : sender_wf S Q s → near i Q → i <= Q → sent_drop (Some s) (PidQueued (wrap64 i)) = Ret (Some s', wk) →
  j ∈ queued_ids Q s' ↔ j ∈ queued_ids Q s ∧ j ≠ i.
Proof.
  intros Hs Hn Hle H. unfold sent_drop, try_cancel_internal in H. apply outcome_bind_Ret in H as ([[[peer pid] p] wk1] & H & [= -> ->]).
  apply outcome_bind_Ret in H as ([[s1 p1] wk2] & E & H). assert (s1 = s') as ->.
  { destruct p1; [by injection H as -> _ _ _|]. by apply outcome_bind_Ret in H as (sn & _ & [= -> _ _ _]). }
  rewrite !queued_ids_waiting, (cancel_queued_ids S Q s i s' p1 wk2 Hs Hn Hle E).
  rewrite !list_elem_of_fmap. setoid_rewrite list_elem_of_filter. naive_solver.
Qed.

(** [request_cancel] on a handle that does not know the sequence number of its packet: it panics
    when the packet has left the queue and its number cannot be found any more. *)
Lemma request_cancel_exact h i : handles_inv h → i ∈ live h → near i (hs_Q h) →
  request_cancel_internal (Some (hs_sender h)) (PidQueued (wrap64 i)) = Panic ↔
  (i ∉ queued_ids (hs_Q h) (hs_sender h)) ∧ lookup_seq_num (hs_sender h) (wrap64 i) = Ret None.
Proof.
  intros Hh Hi Hn. pose proof (hi_wf _ Hh) as Hwf. cbn. unfold cancel_queued_packet.
  destruct (live_window h i Hh Hi Hn) as [-> [(Hq & -> & Hout)|(p & w & l & Hq & -> & Hix)]]; cbn.
  - destruct (lookup_seq_num_Ret _ _ _ i Hwf Hn Hout) as (o & -> & Hk). destruct o as [k|]; cbn; [|done].
    destruct (cancel_sent_cases _ _ _ k Hwf) as (s' & p & -> & _); [|naive_solver].
    specialize (Hk k eq_refl). pose proof (wf_unacked_len _ _ _ _ Hwf). unfold near, win_base in *. lia.
  - unfold update_at. rewrite Hix. cbn. naive_solver.
Qed.

(** ** Cancellations that are acknowledged before their handle is polled *)











End handles.

(** C21: the queue of packets waiting for room in the window is bounded by the handles still
    held for them and those let go with [enqueue()]; sending a packet, polling any of the three
    futures, limiting retries, dropping or letting go of a handle, whether or not it knows the
    sequence number of its packet, does not panic; nor does [request_cancel] on a handle that
    knows it, and on one that does not it panics exactly when the packet has left the queue and
    its number cannot be found any more.  Dropping a handle whose packet was not sent takes
    that packet, and no other, out of the queue.  ([try_cancel] is not included: see
    [try_cancel_then_drop_panics].) *)
Theorem queue_bounded_by_handles {Pkt} `{!SizeOf (UnackedState Pkt)} (h : @HandleSys Pkt) :
  handles_reach h →
  (length (waiting (hs_sender h)) <= size (live h ∪ detached h))%nat ∧
  (∀ c, hok h c → ∃ h', hstep h c = Ret h') ∧
  (∀ i, i ∈ live h → near i (hs_Q h) →
     (request_cancel_internal (Some (hs_sender h)) (PidQueued (wrap64 i)) = Panic ↔
      (i ∉ queued_ids (hs_Q h) (hs_sender h)) ∧ lookup_seq_num (hs_sender h) (wrap64 i) = Ret None)) ∧
  ∀ i, hok h (HDrop i) → ∃ h', hstep h (HDrop i) = Ret h' ∧ hs_Q h' = hs_Q h ∧
    ∀ j, j ∈ queued_ids (hs_Q h) (hs_sender h') ↔ j ∈ queued_ids (hs_Q h) (hs_sender h) ∧ j ≠ i.
Proof.
  intros Hh%handles_reach_inv. split; [by apply waiting_bound|]. split; [intros c Hc; destruct (hstep_inv h c Hh Hc) as (h' & ? & _); eauto|].
  split; [intros i; by apply request_cancel_exact|].
  intros i [Hi Hn]. destruct (drop_live h i Hh Hi Hn) as (s' & wk & E & Hwf & _). cbn [hstep]. rewrite E. cbn. eexists. split; [done|]. split; [done|]. cbn.
  intros j. eapply drop_ids; [apply (hi_wf _ Hh)|done|by apply (hi_issued _ Hh)|done].
Qed.

(** Two packets on a fresh link, the second of which has to wait. *)
Definition two_sent : outcome (@HandleSys nat) :=
  h ← hstep {| hs_sender := sender_new; hs_S := -1; hs_Q := -1; live := ∅; detached := ∅ |} (HSend 10%nat); hstep h (HSend 11%nat).

Lemma queue_bounded_by_handles_witness :
  ∃ h, two_sent = Ret h ∧ (length (waiting (hs_sender h)) <= size (live h ∪ detached h))%nat ∧ waiting (hs_sender h) = [11%nat] ∧
    (∀ c, hok h c → ∃ h', hstep h c = Ret h') ∧
    (∀ i, i ∈ live h → near i (hs_Q h) →
       (request_cancel_internal (Some (hs_sender h)) (PidQueued (wrap64 i)) = Panic ↔
        (i ∉ queued_ids (hs_Q h) (hs_sender h)) ∧ lookup_seq_num (hs_sender h) (wrap64 i) = Ret None)) ∧
    ∀ i, hok h (HDrop i) → ∃ h', hstep h (HDrop i) = Ret h' ∧ hs_Q h' = hs_Q h ∧
      ∀ j, j ∈ queued_ids (hs_Q h) (hs_sender h') ↔ j ∈ queued_ids (hs_Q h) (hs_sender h) ∧ j ≠ i.
Proof.
  eexists. split; [vm_compute; reflexivity|].
  match goal with |- (length (waiting (hs_sender ?h)) <= _)%nat ∧ _ => destruct (queue_bounded_by_handles h) as (H1 & H2 & H3 & H4) end;
    [|split; [exact H1|]; split; [reflexivity|split; [exact H2|split; [exact H3|exact H4]]]].
  eapply (handles_call _ (HSend 11%nat)); [eapply (handles_call _ (HSend 10%nat)); [apply handles_new|split; reflexivity|vm_compute; reflexivity]|split; reflexivity|vm_compute; reflexivity].
Defined.




(** [request_cancel] on the handle of a queued packet that was sent and acknowledged
    meanwhile reaches [unreachable!]. *)
Theorem request_cancel_acked_panics {Pkt} `{!SizeOf (UnackedState Pkt)} (p q : Pkt) :
  ∃ s s' tx id, (let '(peer, _, _, _) := send_packet (Some sender_new) p in send_packet peer q) = (Some s, [], false, PidQueued id) ∧
    run s [CallAck 0; CallNextBlocked; CallAck 1] = Ret (s', tx) ∧ request_cancel_internal (Some s') (PidQueued id) = Panic.
Proof. eexists _, _, _, _. repeat (split; [vm_compute; reflexivity|]). vm_compute. reflexivity. Qed.

(** [try_cancel] of a queued packet behind another queued one succeeds, and the drop of the
    handle, which follows it, panics. *)
Theorem try_cancel_then_drop_panics {Pkt} `{!SizeOf (UnackedState Pkt)} (p q r : Pkt) :
  ∃ s s' id wk, (let '(peer, _, _, _) := send_packet (Some sender_new) p in let '(peer, _, _, _) := send_packet peer q in send_packet peer r) = (Some s, [], false, PidQueued id) ∧
    try_cancel_internal (Some s) (PidQueued id) = Ret (Some s', PidQueued id, Some r, wk) ∧ sent_drop (Some s') (PidQueued id) = Panic.
Proof. eexists _, _, _, _. repeat (split; [vm_compute; reflexivity|]). vm_compute. reflexivity. Qed.
