(* ===== verification/Evidence.v ===== *)
(** Evidence of actors and authentication services, [src/adapter/ph/src/auth.rs]: the challenge
    of a node, the blob that answers it, its decoding and verification, and the client of an
    authentication service.  Base64, JSON, RSA, HTTP and URLs are third-party. *)
From Stdlib Require Import Ascii String.
From S2P Require Import Prelude Zdp NetDefs Transport AddressPool Link Messages.
Open Scope Z_scope.

Definition AUTH_KEY_SIZE_BYTES : Z := 32.
(** A string literal as its bytes. *)
Definition txt (s : string) : bytes := Z.of_N <$> (N_of_ascii <$> list_ascii_of_string s).
#[global] Arguments txt : simpl never.
Definition BLOB_TYPE_SS : bytes := txt "SS".
Definition BLOB_TYPE_AC : bytes := txt "AC".
Definition MAX_BLOB_AGE_SECONDS : Z := 120.

Record ZdpSelfSignedBlob : Type := mk_ss { ss_blob_type : bytes; ss_ts : Z; ss_cn : bytes; ss_challenge : bytes; ss_sig : bytes }.
Record ZdpAuthCodeBlob : Type := mk_ac { ac_blob_type : bytes; ac_code : bytes; ac_pkce : bytes; ac_client_id : bytes; ac_asa : bytes }.
Inductive EvidenceBlob : Type := SelfSigned (b : ZdpSelfSignedBlob) | AuthCode (b : ZdpAuthCodeBlob).

(** [AuthError], without its messages. *)
Inductive AuthFailure : Type :=
| OpenSSLError | AuthIOError | SerializationError | FormatError | DecodeError | InvalidHmac | ChallengeTooOld | OtherAuthError | AuthRejectedError | ServiceError.

(** What the third-party crates do: base64, serde with JSON, [Url::query_pairs], and the RSA
    keys of [zpr_utils]. *)
Class EvidenceLib : Type := {
  b64_encode : bytes → bytes;
  b64_decode : bytes → option bytes;
  ss_to_json : ZdpSelfSignedBlob → bytes;
  ss_from_json : bytes → option ZdpSelfSignedBlob;
  ac_to_json : ZdpAuthCodeBlob → bytes;
  ac_from_json : bytes → option ZdpAuthCodeBlob;
  (** the value of a text, as far as the field [blob_type] goes: not JSON, no such field, not
      a string, a string *)
  json_blob_type : bytes → option (option (option bytes));
  query_pairs : bytes → option (list (bytes * bytes));
  RsaKey : Type;
  load_rsa_key : bytes → option RsaKey;
  sign_rsa_key : RsaKey → bytes → bytes;
}.

(** Decoding undoes encoding, and [serde] reads back what it wrote. *)
Class EvidenceLaws `{EvidenceLib} : Prop := {
  b64_decode_encode l : b64_decode (b64_encode l) = Some l;
  ss_from_to b : ss_from_json (ss_to_json b) = Some b;
  ss_type_to b : json_blob_type (ss_to_json b) = Some (Some (Some (ss_blob_type b)));
  ac_from_to b : ac_from_json (ac_to_json b) = Some b;
  ac_type_to b : json_blob_type (ac_to_json b) = Some (Some (Some (ac_blob_type b)));
}.

Section evidence.
Context {EL : EvidenceLib} {B3 : Blake3}.

(** [ZdpInitAuthenticationPayload::new], with the clock and the random bytes it reads. *)
Definition payload_new (key : bytes) (now : Z) (random : bytes) : ZdpInitAuthenticationPayload :=
  mk_payload random now (blake3_keyed_hash key (random ++ be_put 8 now)).

Definition ac_encode (b : ZdpAuthCodeBlob) : bytes := b64_encode (ac_to_json b).
Definition ss_encode (b : ZdpSelfSignedBlob) : bytes := b64_encode (ss_to_json b).

Definition verify_blob_challenge (b : ZdpSelfSignedBlob) (key : bytes) (now : Z) : AuthFailure + unit :=
  match b64_decode (ss_challenge b) with
  | None => inl DecodeError
  | Some payload_bytes =>
      if negb (length payload_bytes =? size_of zdpInitAuthenticationPayload)%nat then inl FormatError
      else
        let zpayload := from_bytes zdpInitAuthenticationPayload payload_bytes in
        if negb (bool_decide (blake3_keyed_hash key (nonce zpayload ++ be_put 8 (ctime zpayload)) = hmac zpayload)) then inl InvalidHmac
        else if wrap64 (ctime zpayload + MAX_BLOB_AGE_SECONDS) <? now then inl ChallengeTooOld
        else inr tt
  end.

Definition decode_evidence (blob_str : bytes) : AuthFailure + EvidenceBlob :=
  match b64_decode blob_str with
  | None => inl DecodeError
  | Some json_txt =>
      match json_blob_type json_txt with
      | None => inl SerializationError
      | Some None => inl FormatError
      | Some (Some None) => inl FormatError
      | Some (Some (Some t)) =>
          if bool_decide (t = BLOB_TYPE_SS) then match ss_from_json json_txt with Some b => inr (SelfSigned b) | None => inl SerializationError end
          else if bool_decide (t = BLOB_TYPE_AC) then match ac_from_json json_txt with Some b => inr (AuthCode b) | None => inl SerializationError end
          else inl FormatError
      end
  end.

Record RsaBootstrapAuth : Type := mk_bootstrap { bs_pkey : RsaKey; bs_cn : bytes }.

(** [RsaBootstrapAuth::new], with what reading the key file gives. *)
Definition bootstrap_new (cn : bytes) (pemdata : option bytes) : AuthFailure + RsaBootstrapAuth :=
  match pemdata with
  | None => inl AuthIOError
  | Some d => match load_rsa_key d with None => inl OpenSSLError | Some k => inr (mk_bootstrap k cn) end
  end.

(** [RsaBootstrapAuth::authenticate] *)
Definition bootstrap_authenticate (a : RsaBootstrapAuth) (payload : ZdpInitAuthenticationPayload) (ts : Z) : bytes :=
  let challenge := nonce payload ++ be_put 8 (ctime payload) ++ hmac payload in
  let data := be_put 8 ts ++ bs_cn a ++ challenge in
  let signature := sign_rsa_key (bs_pkey a) data in
  ss_encode (mk_ss BLOB_TYPE_SS ts (bs_cn a) (b64_encode challenge) (b64_encode signature)).

(** The check that [ActorAuthorization] makes of a blob against the challenge it sent. *)
Definition challenge_answered (b : EvidenceBlob) (c : ZdpInitAuthenticationPayload) (key : bytes) (now : Z) : bool :=
  match b with
  | SelfSigned ss => bool_decide (ss_challenge ss = b64_encode (as_bytes zdpInitAuthenticationPayload c)) && match verify_blob_challenge ss key now with inr _ => true | inl _ => false end
  | AuthCode _ => true
  end.

(** ** The client of an authentication service *)

(** A response: its status, the nonce of its JSON body, its [Location] as text. *)
Record HttpResponse : Type := mk_response { http_status : Z; json_nonce : option bytes; http_location : option bytes }.
(** The body of the second request. *)
Record AuthReq : Type := mk_auth_req { ar_client_id : bytes; ar_nonce : bytes; ar_payload : bytes }.

Record OAuthRsa : Type := mk_oauth { oa_client_id : bytes; oa_private_key : RsaKey }.

Definition check_auth_status (status : Z) : AuthFailure + unit :=
  if (status =? 401) || (status =? 403) then inl AuthRejectedError
  else if (400 <=? status) && (status <=? 599) then inl OtherAuthError
  else inr tt.

(** The client of the answer, [None] when sending fails. *)
Definition preauthorize (resp : option HttpResponse) : AuthFailure + bytes :=
  match resp with
  | None => inl ServiceError
  | Some resp =>
      match check_auth_status (http_status resp) with
      | inl e => inl e
      | inr _ =>
          match json_nonce resp with
          | None => inl ServiceError
          | Some n => match b64_decode n with None => inl DecodeError | Some b => inr b end
          end
      end
  end.

(** A [HashMap] collected from pairs keeps the last value of a key. *)
Definition param_of (name : bytes) (l : list (bytes * bytes)) : option bytes := option_map snd (head (rev (filter (λ p, p.1 = name) l))).

Definition rejecting_errors : list bytes := [txt "access_denied"; txt "invalid_client"; txt "unauthorized_client"; txt "invalid_grant"].

Definition parse_auth_redirect (location : bytes) : AuthFailure + bytes :=
  match query_pairs location with
  | None => inl FormatError
  | Some params =>
      match param_of (txt "error") params with
      | Some e => inl (if bool_decide (e ∈ rejecting_errors) then AuthRejectedError else OtherAuthError)
      | None =>
          match param_of (txt "code") params with
          | Some (c :: s) => inr (c :: s)
          | _ => inl FormatError
          end
      end
  end.

Definition authorize (a : OAuthRsa) (nonce payload : bytes) (post : AuthReq → option HttpResponse) : AuthFailure + bytes :=
  match post (mk_auth_req (oa_client_id a) (b64_encode nonce) (b64_encode payload)) with
  | None => inl ServiceError
  | Some resp =>
      match check_auth_status (http_status resp) with
      | inl e => inl e
      | inr _ =>
          if negb (http_status resp =? 302) then inl OtherAuthError
          else match http_location resp with None => inl FormatError | Some l => parse_auth_redirect l end
      end
  end.

(** [OAuthRsa::authenticate], with what the service answers to the two requests.  The
    service's certificate is assumed to be readable. *)
Definition oauth_authenticate (a : OAuthRsa) (asa : bytes) (get : option HttpResponse) (post : AuthReq → option HttpResponse) : AuthFailure + ZdpAuthCodeBlob :=
  match preauthorize get with
  | inl e => inl e
  | inr nonce_buf =>
      let signature := sign_rsa_key (oa_private_key a) nonce_buf in
      match authorize a nonce_buf signature post with
      | inl e => inl e
      | inr auth_code => inr (mk_ac BLOB_TYPE_AC auth_code [] (oa_client_id a) asa)
      end
  end.

(** ** Lemmas *)

Lemma payload_bytes (p : ZdpInitAuthenticationPayload) : as_bytes zdpInitAuthenticationPayload p = nonce p ++ be_put 8 (ctime p) ++ hmac p.
Proof. cbn. by rewrite <- app_assoc. Qed.

Context {ELL : EvidenceLaws}.

Lemma b64_inj l l' : b64_encode l = b64_encode l' → l = l'.
Proof using ELL. intros H. apply (f_equal b64_decode) in H. rewrite !b64_decode_encode in H. congruence. Qed.

Lemma decode_ss_encode b : ss_blob_type b = BLOB_TYPE_SS → decode_evidence (ss_encode b) = inr (SelfSigned b).
Proof using ELL. intros H. unfold decode_evidence, ss_encode. rewrite b64_decode_encode, ss_type_to, H, bool_decide_true by done. by rewrite ss_from_to. Qed.

Lemma decode_ac_encode b : ac_blob_type b = BLOB_TYPE_AC → decode_evidence (ac_encode b) = inr (AuthCode b).
Proof using ELL.
  intros H. unfold decode_evidence, ac_encode. rewrite b64_decode_encode, ac_type_to, H. rewrite bool_decide_false by done. rewrite bool_decide_true by done. by rewrite ac_from_to.
Qed.

(** A challenge that was read back as it was sent. *)
Lemma verify_own b c key now : in_range zdpInitAuthenticationPayload c → ss_challenge b = b64_encode (as_bytes zdpInitAuthenticationPayload c) →
  verify_blob_challenge b key now = inr tt ↔ hmac c = blake3_keyed_hash key (nonce c ++ be_put 8 (ctime c)) ∧ now <= wrap64 (ctime c + MAX_BLOB_AGE_SECONDS).
Proof using ELL.
  intros Hc Hb. unfold verify_blob_challenge. rewrite Hb, b64_decode_encode. rewrite (packed_length (c := zdpInitAuthenticationPayload)) by done. rewrite Nat.eqb_refl. cbn [negb].
  rewrite (packed_from_as (c := zdpInitAuthenticationPayload)) by done. case_bool_decide as Hm; cbn [negb]; [|split; [done|]; intros [H _]; by rewrite H in Hm].
  destruct (Z.ltb_spec (wrap64 (ctime c + MAX_BLOB_AGE_SECONDS)) now) as [Hlt|Hge]; [split; [done|]; intros [_ H]; lia|split; [|done]; intros _; by split].
Qed.

(** What the check accepts: an answer to this very challenge, which was made with the key and
    is not too old. *)
Lemma answered_exactly ss c key now : in_range zdpInitAuthenticationPayload c →
  challenge_answered (SelfSigned ss) c key now = true ↔
  ss_challenge ss = b64_encode (as_bytes zdpInitAuthenticationPayload c) ∧ hmac c = blake3_keyed_hash key (nonce c ++ be_put 8 (ctime c)) ∧ now <= wrap64 (ctime c + MAX_BLOB_AGE_SECONDS).
Proof using ELL.
  intros Hc. cbn. rewrite andb_true_iff, bool_decide_eq_true. split.
  - intros [Hb Hv]. split; [done|]. apply (verify_own ss c key now Hc Hb). by destruct (verify_blob_challenge ss key now) as [e|[]].
  - intros (Hb & H). split; [done|]. apply (verify_own ss c key now Hc Hb) in H. by rewrite H.
Qed.
End evidence.

Lemma bootstrap_facts `{EvidenceLaws} {B3 : Blake3} {BL : Blake3Laws} (a : RsaBootstrapAuth) (key random : bytes) (issued ts now : Z) :
  length random = 8%nat → Forall is_u8 random → 0 <= issued < U64_MOD - MAX_BLOB_AGE_SECONDS → Forall is_u8 (blake3_keyed_hash key (random ++ be_put 8 issued)) →
  let c := payload_new key issued random in
  let ss := mk_ss BLOB_TYPE_SS ts (bs_cn a) (b64_encode (as_bytes zdpInitAuthenticationPayload c))
              (b64_encode (sign_rsa_key (bs_pkey a) (be_put 8 ts ++ bs_cn a ++ as_bytes zdpInitAuthenticationPayload c))) in
  decode_evidence (bootstrap_authenticate a c ts) = inr (SelfSigned ss) ∧
  (challenge_answered (SelfSigned ss) c key now = true ↔ now <= issued + MAX_BLOB_AGE_SECONDS) ∧
  ∀ c' key' now', in_range zdpInitAuthenticationPayload c' → c' ≠ c → challenge_answered (SelfSigned ss) c' key' now' = false.
Proof.
  intros Hr1 Hr2 Hi Hh c ss. assert (in_range zdpInitAuthenticationPayload c) as Hc.
  { cbn. split; [split; [by split|unfold MAX_BLOB_AGE_SECONDS in *; lia]|]. split; [apply blake3_keyed_hash_length|done]. }
  split; [|split].
  - unfold bootstrap_authenticate. rewrite <- payload_bytes. by rewrite decode_ss_encode.
  - rewrite answered_exactly by done. cbn. rewrite wrap64_small by (unfold is_u64, MAX_BLOB_AGE_SECONDS in *; lia). intuition.
  - intros c' key' now' Hc' Hne. apply not_true_iff_false. rewrite answered_exactly by done. intros (Hb & _). cbn [ss_challenge ss] in Hb. apply b64_inj in Hb.
    apply Hne. rewrite <- (packed_from_as (c := zdpInitAuthenticationPayload) c'), <- (packed_from_as (c := zdpInitAuthenticationPayload) c) by done. by rewrite Hb.
Qed.

(** C28: evidence of the bootstrap scheme.  The blob with which an adapter answers the challenge of
    a node is decoded by the node to the adapter's name, time and signature over time, name and
    challenge; the node accepts it as the answer to that challenge until 120 seconds after it
    issued the challenge and not later; and it is not accepted as the answer to any other
    challenge, under any key and at any time. *)
Theorem bootstrap_evidence_roundtrip `{EvidenceLaws} {B3 : Blake3} {BL : Blake3Laws} (a : RsaBootstrapAuth) (key random : bytes) (issued ts now : Z) :
  length random = 8%nat → Forall is_u8 random → 0 <= issued < U64_MOD - MAX_BLOB_AGE_SECONDS → Forall is_u8 (blake3_keyed_hash key (random ++ be_put 8 issued)) →
  let c := payload_new key issued random in
  let ss := mk_ss BLOB_TYPE_SS ts (bs_cn a) (b64_encode (as_bytes zdpInitAuthenticationPayload c))
              (b64_encode (sign_rsa_key (bs_pkey a) (be_put 8 ts ++ bs_cn a ++ as_bytes zdpInitAuthenticationPayload c))) in
  decode_evidence (bootstrap_authenticate a c ts) = inr (SelfSigned ss) ∧
  (challenge_answered (SelfSigned ss) c key now = true ↔ now <= issued + MAX_BLOB_AGE_SECONDS) ∧
  ∀ c' key' now', in_range zdpInitAuthenticationPayload c' → c' ≠ c → challenge_answered (SelfSigned ss) c' key' now' = false.
Proof. apply bootstrap_facts. Qed.

(** ** The interface of actor authorization

    [Link] takes from here how challenges are made and evidence is read.  The clock is read
    twice, when the challenge is issued and when the evidence is checked. *)
Definition evidence_api {ND : NetDefs} {EL : EvidenceLib} {B3 : Blake3} (issued now : Z) (request_ok : EvidenceBlob → bool) (unspecified : IpAddress) : AuthApi := {|
  Challenge := ZdpInitAuthenticationPayload;
  AuthBlob := EvidenceBlob;
  challenge_new key r := payload_new key issued (be_put 8 r);
  decode_blob b := match decode_evidence b with inr e => Some e | inl _ => None end;
  self_signed b := match b with SelfSigned _ => true | AuthCode _ => false end;
  challenge_verified b c key := challenge_answered b c key now;
  connect_request_ok := request_ok;
  ip_unspecified := unspecified;
|}.

(** Through the link: an adapter that answers the challenge it got with the bootstrap scheme
    gets as far as the visa service if its answer is checked within 120 seconds, and is
    rejected after that. *)
Theorem bootstrap_reaches_visa_service {ND : NetDefs} `{EvidenceLaws} {B3 : Blake3} {BL : Blake3Laws} issued now request_ok unspecified
    (s : LinkSys (AA := evidence_api issued now request_ok unspecified)) a d k txn addrs r b ts :
  let api := evidence_api issued now request_ok unspecified in
  0 <= issued < U64_MOD - MAX_BLOB_AGE_SECONDS → Forall is_u8 (blake3_keyed_hash (auth_key k) (be_put 8 r ++ be_put 8 issued)) → (∀ e, request_ok e = true) →
  links s !! ac_id d = Some k → require_node_link s d = true → (length addrs <= 1)%nat → ac_state d = AwaitingEvidence → remote_txn d = Some txn →
  challenge d = Some (@challenge_new ND api (auth_key k) r) → is_vs s (ac_id d) = false →
  let d' := with_remote (with_state d Authorizing) (Some txn) None in
  acquire_remote s a d txn addrs (bootstrap_authenticate b (payload_new (auth_key k) issued (be_put 8 r)) ts) =
    if bool_decide (now <= issued + MAX_BLOB_AGE_SECONDS) then (spawn (put_actor s a d') (TAuthorize a (generation d) txn), inr tt)
    else finish_remote (put_actor s a d') a d' (generation d) txn (authentication_status AuthRejected) None.
Proof.
  intros api Hi Hh Hok Hk Hn Ha Hst Ht Hc Hvs d'.
  destruct (bootstrap_facts b (auth_key k) (be_put 8 r) issued ts now) as (E1 & E2 & _); [apply be_put_length|apply be_put_bytes|done|done|].
  unfold acquire_remote. rewrite Hk, Hn. cbn [negb]. rewrite (proj2 (Nat.ltb_ge 1 (length addrs)) Ha). rewrite Hst, Ht, !bool_decide_true by done. cbn [andb negb]. rewrite Hc. cbn [decode_blob evidence_api]. rewrite E1. cbn [self_signed challenge_verified connect_request_ok api evidence_api andb].
  match type of E2 with ?x = true ↔ _ => set (v := x) in * end. rewrite Hok. cbn [negb].
  change (challenge_answered _ _ _ _) with v. change (is_vs (put_actor s a _) (ac_id _)) with (is_vs s (ac_id d)). rewrite Hvs. change (generation (with_remote _ _ _)) with (generation d). fold d'.
  destruct v; [rewrite bool_decide_true by (by apply E2)|rewrite bool_decide_false by (intros Hle; by apply E2 in Hle)]; done.
Qed.

(** ** The request to the visa service, [visa_mgmt.rs] *)

Inductive VsAuthBlob : Type := VsSS (challenge cn : bytes) (timestamp : Z) (signature : bytes) | VsAC (asa_addr code pkce client_id : bytes).
Inductive ClaimKey : Type := ClaimZprAddr | ClaimCn.
Record VsConnectRequest : Type := mk_connect_request { cr_blobs : list VsAuthBlob; cr_claims : list (ClaimKey * bytes); cr_substrate_addr : bytes; cr_a2a_dh_public_key : bytes }.

(** With the addresses' texts: reading a socket address or an address, and writing an
    address. *)
Definition build_connect_request {ND : NetDefs} {EL : EvidenceLib} (parse_socket_ip parse_ip : bytes → option bytes) (unspecified : IpAddress) (addr_text : IpAddress → bytes) (dock_addr : bytes)
    (addr : IpAddress) (blob : EvidenceBlob) (a2a_dh_public_key : option bytes) : option VsConnectRequest :=
  vsapi_blob ← (match blob with
    | SelfSigned ss => challenge ← b64_decode (ss_challenge ss); signature ← b64_decode (ss_sig ss); Some (VsSS challenge (ss_cn ss) (ss_ts ss) signature)
    | AuthCode ac => asa ← (match parse_socket_ip (ac_asa ac) with Some ip => Some ip | None => parse_ip (ac_asa ac) end); Some (VsAC asa (ac_code ac) (ac_pkce ac) (ac_client_id ac))
    end);
  let claims := if bool_decide (addr = unspecified) then [] else [(ClaimZprAddr, addr_text addr)] in
  let claims := match blob with SelfSigned ss => claims ++ [(ClaimCn, ss_cn ss)] | AuthCode _ => claims end in
  Some (mk_connect_request [vsapi_blob] claims dock_addr (default [] a2a_dh_public_key)).

(** What the visa service gets of the evidence of the bootstrap scheme: the challenge as the
    node sent it, the name, the time and the signature over them. *)
Theorem bootstrap_request {ND : NetDefs} `{EvidenceLaws} {B3 : Blake3} parse_socket_ip parse_ip unspecified addr_text dock_addr addr a2a (a : RsaBootstrapAuth) (c : ZdpInitAuthenticationPayload) ts :
  ∃ ss, decode_evidence (bootstrap_authenticate a c ts) = inr (SelfSigned ss) ∧
    let challenge := as_bytes zdpInitAuthenticationPayload c in
    option_map cr_blobs (build_connect_request parse_socket_ip parse_ip unspecified addr_text dock_addr addr (SelfSigned ss) a2a) =
      Some [VsSS challenge (bs_cn a) ts (sign_rsa_key (bs_pkey a) (be_put 8 ts ++ bs_cn a ++ challenge))].
Proof.
  eexists. split; [unfold bootstrap_authenticate; rewrite <- payload_bytes; by apply decode_ss_encode|]. cbv zeta. unfold build_connect_request. cbn [ss_challenge ss_sig ss_cn ss_ts]. by rewrite !b64_decode_encode.
Qed.

(** What the evidence of an authentication service is: the code of a redirect that answers a
    request with the client's name, the service's nonce and the signature over it.  Evidence
    is given up as rejected only on the status 401 or 403, or on a redirect with one of the
    four errors that say so; every other failure may be tried again. *)
Theorem oauth_evidence_sound `{EvidenceLib} (a : OAuthRsa) (asa : bytes) (get : option HttpResponse) (post : AuthReq → option HttpResponse) :
  match oauth_authenticate a asa get post with
  | inr b => ∃ g n nonce r l, get = Some g ∧ json_nonce g = Some n ∧ b64_decode n = Some nonce ∧
      post (mk_auth_req (oa_client_id a) (b64_encode nonce) (b64_encode (sign_rsa_key (oa_private_key a) nonce))) = Some r ∧
      http_status r = 302 ∧ http_location r = Some l ∧ parse_auth_redirect l = inr (ac_code b) ∧ ac_code b ≠ [] ∧ b = mk_ac BLOB_TYPE_AC (ac_code b) [] (oa_client_id a) asa
  | inl AuthRejectedError =>
      (∃ g, get = Some g ∧ (http_status g = 401 ∨ http_status g = 403)) ∨
      (∃ q r, post q = Some r ∧ (http_status r = 401 ∨ http_status r = 403 ∨
         ∃ l params e, http_location r = Some l ∧ query_pairs l = Some params ∧ param_of (txt "error") params = Some e ∧ e ∈ rejecting_errors))
  | inl _ => True
  end.
Proof.
  assert (∀ st, match check_auth_status st with inl AuthRejectedError => st = 401 ∨ st = 403 | _ => True end) as Hst.
  { intros st. unfold check_auth_status. destruct (Z.eqb_spec st 401), (Z.eqb_spec st 403); cbn; auto. by destruct (_ && _). }
  unfold oauth_authenticate, preauthorize. destruct get as [g|]; [|done]. pose proof (Hst (http_status g)) as Hg. destruct (check_auth_status (http_status g)) as [e|]; [destruct e; try done; left; eauto|]. clear Hg.
  destruct (json_nonce g) as [n|] eqn:En; [|done]. destruct (b64_decode n) as [nb|] eqn:Eb; [|done]. unfold authorize. set (q := mk_auth_req _ _ _). destruct (post q) as [r|] eqn:Er; [|done].
  pose proof (Hst (http_status r)) as Hg. destruct (check_auth_status (http_status r)) as [e|]; [destruct e; try done; right; exists q, r; tauto|]. clear Hg.
  destruct (Z.eqb_spec (http_status r) 302) as [Hs|]; cbn; [|done]. destruct (http_location r) as [l|] eqn:El; [|done].
  unfold parse_auth_redirect at 1. destruct (query_pairs l) as [params|] eqn:Eq; [|done]. destruct (param_of (txt "error") params) as [e|] eqn:Ee.
  - case_bool_decide as Hin; [|done]. right. exists q, r. split; [done|]. right. right. by exists l, params, e.
  - destruct (param_of (txt "code") params) as [[|c s]|] eqn:Ec; try done. exists g, n, nb, r, l. cbn [ac_code]. split_and!; try done. unfold parse_auth_redirect. by rewrite Eq, Ee, Ec.
Qed.

(** ** An instance, for examples

    A text is encoded as itself; a blob as its fields, each after its length. *)
Definition put_text (f : bytes) (rest : bytes) : bytes := zlen f :: f ++ rest.
Definition get_text (l : bytes) : option (bytes * bytes) := match l with n :: l => Some (take (Z.to_nat n) l, drop (Z.to_nat n) l) | [] => None end.

Lemma get_put_text f rest : get_text (put_text f rest) = Some (f, rest).
Proof. unfold get_text, put_text, zlen. rewrite Nat2Z.id, take_app_length, drop_app_length. done. Qed.

#[export] Instance sample_evidence : EvidenceLib := {|
  b64_encode := id; b64_decode := Some;
  ss_to_json b := put_text (ss_blob_type b) (ss_ts b :: put_text (ss_cn b) (put_text (ss_challenge b) (put_text (ss_sig b) [])));
  ss_from_json l :=
    '(ty, l) ← get_text l;
    match l with
    | ts :: l => '(cn, l) ← get_text l; '(ch, l) ← get_text l; '(sg, _) ← get_text l; Some (mk_ss ty ts cn ch sg)
    | [] => None
    end;
  ac_to_json b := put_text (ac_blob_type b) (put_text (ac_code b) (put_text (ac_pkce b) (put_text (ac_client_id b) (put_text (ac_asa b) []))));
  ac_from_json l := '(ty, l) ← get_text l; '(c, l) ← get_text l; '(p, l) ← get_text l; '(i, l) ← get_text l; '(a, _) ← get_text l; Some (mk_ac ty c p i a);
  json_blob_type l := match get_text l with Some (t, _) => Some (Some (Some t)) | None => None end;
  query_pairs _ := None; RsaKey := Z; load_rsa_key l := head l; sign_rsa_key k l := k :: l
|}.

#[export] Instance sample_evidence_laws : EvidenceLaws.
Proof.
  split; [done| | | |]; intros [x1 x2 x3 x4 x5]; cbn [ss_from_json ss_to_json ac_from_json ac_to_json json_blob_type sample_evidence ss_blob_type ss_ts ss_cn ss_challenge ss_sig ac_blob_type ac_code ac_pkce ac_client_id ac_asa];
    repeat (rewrite get_put_text; cbn [mbind option_bind]); done.
Qed.

Lemma bootstrap_evidence_roundtrip_witness :
  let a := @mk_bootstrap sample_evidence 7 [110; 49] in let c := payload_new [1; 2] 1000 [1; 2; 3; 4; 5; 6; 7; 8] in
  (∃ ss, decode_evidence (bootstrap_authenticate a c 1005) = inr (SelfSigned ss) ∧ ss_cn ss = [110; 49] ∧
         challenge_answered (SelfSigned ss) c [1; 2] 1120 = true ∧ challenge_answered (SelfSigned ss) (payload_new [1; 2] 1001 [1; 2; 3; 4; 5; 6; 7; 8]) [1; 2] 1120 = false).
Proof.
  destruct (bootstrap_evidence_roundtrip (H := sample_evidence) (B3 := sample_blake3) (@mk_bootstrap sample_evidence 7 [110; 49]) [1; 2] [1; 2; 3; 4; 5; 6; 7; 8] 1000 1005 1120) as (H1 & H2 & H3).
  - reflexivity.
  - repeat constructor; lia.
  - unfold MAX_BLOB_AGE_SECONDS. lia.
  - apply (bool_decide_unpack _). vm_compute. exact I.
  - eexists. split; [exact H1|]. split; [reflexivity|]. split; [apply H2; unfold MAX_BLOB_AGE_SECONDS; lia|]. apply H3; [|intros E; apply (f_equal ctime) in E; discriminate E].
    split; [split; [split; [reflexivity|repeat constructor; lia]|cbn; lia]|]. split; [reflexivity|]. apply (bool_decide_unpack _). vm_compute. exact I.
Defined.
