(* ===== verification/Config.v ===== *)
(** The configuration of a packet handler, [src/adapter/ph/src/config.rs] and
    [main_argparse.rs]: what the command line, the configuration file and the defaults each
    contribute, and the checks of the result; and the log levels of [logging.rs].  Reading the
    command line (clap) and the file (TOML) is third-party, the file system is the world. *)
From Stdlib Require Import Ascii String.
From S2P Require Import Prelude Zdp Utf8 NetDefs Tlv Transport Evidence.
Open Scope Z_scope.

(** ** Paths, by their components *)

Record Path : Type := mk_path { p_abs : bool; p_comps : list bytes }.
#[global] Instance Path_eq_dec : EqDecision Path.
Proof. solve_decision. Defined.

Definition is_relative (p : Path) : bool := negb (p_abs p).
Definition path_empty (p : Path) : bool := negb (p_abs p) && bool_decide (p_comps p = []).
Definition path_join (base p : Path) : Path := if p_abs p then p else mk_path (p_abs base) (p_comps base ++ p_comps p).
Definition path_parent (p : Path) : option Path := match p_comps p with [] => None | l => Some (mk_path (p_abs p) (removelast l)) end.
(** [to_str] succeeds *)
Definition path_is_str (p : Path) : bool := forallb is_str (p_comps p).

(** ** Arguments and errors *)

(** [PhMode] *)
Inductive RunMode : Type := Adapter | Node.
Inductive KmId : Type := KmIdNoise | KmIdNull.

(** The texts are shortened to what the error is about. *)
Inductive ArgsError : Type := Missing (arg : string) | ArgsIOError | ParseError (what : string) | PathError (what : string) | ArgsAuthError (e : AuthFailure).

(** Code that may panic or return an error. *)
Definition Res (A : Type) : Type := outcome (ArgsError + A).
Definition ok {A} (a : A) : Res A := Ret (inr a).
Definition err {A} (e : ArgsError) : Res A := Ret (inl e).
Definition res_bind {A B} (m : Res A) (f : A → Res B) : Res B := match m with Panic => Panic | Ret (inl e) => err e | Ret (inr a) => f a end.
Notation "x ←! m ; k" := (res_bind m (λ x, k)) (at level 20, m at level 100, k at level 200, right associativity).

Record CommonArgs : Type := mk_common {
  a_control_path : option Path;
  a_self_addr : option SocketAddr;
  a_ca_file : option Path;
  a_certificate_file : option Path;
  a_private_key_file : option Path;
  a_noise_private_key : option bytes;
  a_tun_if : option bytes;
  a_zpr_addr : option (list bytes);
  a_logging : list (bytes * bytes);
  a_io_engine : bytes;
  a_km_impl : bytes }.

Inductive Command : Type :=
| CmdAdapter (name : option bytes) (config_file : option Path) (common : CommonArgs) (node_addr : option SocketAddr) (bootstrap_key : option Path)
| CmdNode (config_file : option Path) (auth_private_key : option Path) (advertised : option bytes) (common : CommonArgs).

(** The sections of the file. *)
Record GlobalConfigSection : Type := mk_globals {
  g_control_path : option Path;
  g_self_addr : option SocketAddr;
  g_ca_file : option Path;
  g_certificate_file : option Path;
  g_private_key_file : option Path;
  g_tun_if : option bytes;
  g_zpr_addr : option (list bytes);
  g_logging : option (list (bytes * bytes));
  g_io_engine : option bytes }.
Record AdapterConfigSection : Type := mk_adapter_section { as_name : option bytes; as_node_addr : option SocketAddr; as_bootstrap_key : option Path }.
Record AuthenticationConfigSection : Type := mk_auth_section { bas_key : option Path; au_auth_private_key : option Path }.
Definition NodeConfigSection : Type := option bytes.

(** What the rest of the system is: the file system, the current directory, TOML, X.509, and
    the reading of addresses. *)
Class ConfigWorld `{EvidenceLib} : Type := {
  current_dir : option Path;
  data_home : Path;
  (** [fs::exists], [None] on an error *)
  file_exists : Path → option bool;
  read_file : Path → option bytes;
  toml_adapter : bytes → option (GlobalConfigSection * AdapterConfigSection * option AuthenticationConfigSection);
  toml_node : bytes → option (GlobalConfigSection * option NodeConfigSection * option AuthenticationConfigSection);
  (** [load_cert], then [common_name] *)
  load_cert_cn : Path → option (option bytes);
  load_noise_private_key : Path → option bytes;
  parse_socket_addr : bytes → option SocketAddr;
}.

Section config.
Context {EL : EvidenceLib} {CW : ConfigWorld}.

Record Config : Type := mk_config {
  c_name : bytes;
  c_control_path : Path;
  c_self_addr : SocketAddr;
  c_advertised_substrate_addr : option SocketAddr;
  c_ca_file : option Path;
  c_certificate_file : option Path;
  c_private_key_file : option Path;
  c_private_key_data : option bytes;
  c_auth_private_key : option Path;
  c_tun_if : option bytes;
  c_logging : list (bytes * bytes);
  c_node_addr : option SocketAddr;
  c_zpr_addrs : list bytes;
  c_bootstrap : option RsaBootstrapAuth;
  c_rsaoauth : option OAuthRsa;
  c_bootstrap_key_path : option Path;
  c_bas_key_path : option Path;
  c_batch_io_engine : bytes;
  c_km_impl : KmId }.

Definition set_name (c : Config) (v : bytes) : Config := mk_config v (c_control_path c) (c_self_addr c) (c_advertised_substrate_addr c) (c_ca_file c) (c_certificate_file c) (c_private_key_file c) (c_private_key_data c) (c_auth_private_key c) (c_tun_if c) (c_logging c) (c_node_addr c) (c_zpr_addrs c) (c_bootstrap c) (c_rsaoauth c) (c_bootstrap_key_path c) (c_bas_key_path c) (c_batch_io_engine c) (c_km_impl c).
Definition set_control_path (c : Config) (v : Path) : Config := mk_config (c_name c) v (c_self_addr c) (c_advertised_substrate_addr c) (c_ca_file c) (c_certificate_file c) (c_private_key_file c) (c_private_key_data c) (c_auth_private_key c) (c_tun_if c) (c_logging c) (c_node_addr c) (c_zpr_addrs c) (c_bootstrap c) (c_rsaoauth c) (c_bootstrap_key_path c) (c_bas_key_path c) (c_batch_io_engine c) (c_km_impl c).
Definition set_self_addr (c : Config) (v : SocketAddr) : Config := mk_config (c_name c) (c_control_path c) v (c_advertised_substrate_addr c) (c_ca_file c) (c_certificate_file c) (c_private_key_file c) (c_private_key_data c) (c_auth_private_key c) (c_tun_if c) (c_logging c) (c_node_addr c) (c_zpr_addrs c) (c_bootstrap c) (c_rsaoauth c) (c_bootstrap_key_path c) (c_bas_key_path c) (c_batch_io_engine c) (c_km_impl c).
Definition set_advertised_substrate_addr (c : Config) (v : option SocketAddr) : Config := mk_config (c_name c) (c_control_path c) (c_self_addr c) v (c_ca_file c) (c_certificate_file c) (c_private_key_file c) (c_private_key_data c) (c_auth_private_key c) (c_tun_if c) (c_logging c) (c_node_addr c) (c_zpr_addrs c) (c_bootstrap c) (c_rsaoauth c) (c_bootstrap_key_path c) (c_bas_key_path c) (c_batch_io_engine c) (c_km_impl c).
Definition set_ca_file (c : Config) (v : option Path) : Config := mk_config (c_name c) (c_control_path c) (c_self_addr c) (c_advertised_substrate_addr c) v (c_certificate_file c) (c_private_key_file c) (c_private_key_data c) (c_auth_private_key c) (c_tun_if c) (c_logging c) (c_node_addr c) (c_zpr_addrs c) (c_bootstrap c) (c_rsaoauth c) (c_bootstrap_key_path c) (c_bas_key_path c) (c_batch_io_engine c) (c_km_impl c).
Definition set_certificate_file (c : Config) (v : option Path) : Config := mk_config (c_name c) (c_control_path c) (c_self_addr c) (c_advertised_substrate_addr c) (c_ca_file c) v (c_private_key_file c) (c_private_key_data c) (c_auth_private_key c) (c_tun_if c) (c_logging c) (c_node_addr c) (c_zpr_addrs c) (c_bootstrap c) (c_rsaoauth c) (c_bootstrap_key_path c) (c_bas_key_path c) (c_batch_io_engine c) (c_km_impl c).
Definition set_private_key_file (c : Config) (v : option Path) : Config := mk_config (c_name c) (c_control_path c) (c_self_addr c) (c_advertised_substrate_addr c) (c_ca_file c) (c_certificate_file c) v (c_private_key_data c) (c_auth_private_key c) (c_tun_if c) (c_logging c) (c_node_addr c) (c_zpr_addrs c) (c_bootstrap c) (c_rsaoauth c) (c_bootstrap_key_path c) (c_bas_key_path c) (c_batch_io_engine c) (c_km_impl c).
Definition set_private_key_data (c : Config) (v : option bytes) : Config := mk_config (c_name c) (c_control_path c) (c_self_addr c) (c_advertised_substrate_addr c) (c_ca_file c) (c_certificate_file c) (c_private_key_file c) v (c_auth_private_key c) (c_tun_if c) (c_logging c) (c_node_addr c) (c_zpr_addrs c) (c_bootstrap c) (c_rsaoauth c) (c_bootstrap_key_path c) (c_bas_key_path c) (c_batch_io_engine c) (c_km_impl c).
Definition set_auth_private_key (c : Config) (v : option Path) : Config := mk_config (c_name c) (c_control_path c) (c_self_addr c) (c_advertised_substrate_addr c) (c_ca_file c) (c_certificate_file c) (c_private_key_file c) (c_private_key_data c) v (c_tun_if c) (c_logging c) (c_node_addr c) (c_zpr_addrs c) (c_bootstrap c) (c_rsaoauth c) (c_bootstrap_key_path c) (c_bas_key_path c) (c_batch_io_engine c) (c_km_impl c).
Definition set_tun_if (c : Config) (v : option bytes) : Config := mk_config (c_name c) (c_control_path c) (c_self_addr c) (c_advertised_substrate_addr c) (c_ca_file c) (c_certificate_file c) (c_private_key_file c) (c_private_key_data c) (c_auth_private_key c) v (c_logging c) (c_node_addr c) (c_zpr_addrs c) (c_bootstrap c) (c_rsaoauth c) (c_bootstrap_key_path c) (c_bas_key_path c) (c_batch_io_engine c) (c_km_impl c).
Definition set_logging (c : Config) (v : list (bytes * bytes)) : Config := mk_config (c_name c) (c_control_path c) (c_self_addr c) (c_advertised_substrate_addr c) (c_ca_file c) (c_certificate_file c) (c_private_key_file c) (c_private_key_data c) (c_auth_private_key c) (c_tun_if c) v (c_node_addr c) (c_zpr_addrs c) (c_bootstrap c) (c_rsaoauth c) (c_bootstrap_key_path c) (c_bas_key_path c) (c_batch_io_engine c) (c_km_impl c).
Definition set_node_addr (c : Config) (v : option SocketAddr) : Config := mk_config (c_name c) (c_control_path c) (c_self_addr c) (c_advertised_substrate_addr c) (c_ca_file c) (c_certificate_file c) (c_private_key_file c) (c_private_key_data c) (c_auth_private_key c) (c_tun_if c) (c_logging c) v (c_zpr_addrs c) (c_bootstrap c) (c_rsaoauth c) (c_bootstrap_key_path c) (c_bas_key_path c) (c_batch_io_engine c) (c_km_impl c).
Definition set_zpr_addrs (c : Config) (v : list bytes) : Config := mk_config (c_name c) (c_control_path c) (c_self_addr c) (c_advertised_substrate_addr c) (c_ca_file c) (c_certificate_file c) (c_private_key_file c) (c_private_key_data c) (c_auth_private_key c) (c_tun_if c) (c_logging c) (c_node_addr c) v (c_bootstrap c) (c_rsaoauth c) (c_bootstrap_key_path c) (c_bas_key_path c) (c_batch_io_engine c) (c_km_impl c).
Definition set_bootstrap (c : Config) (v : option RsaBootstrapAuth) : Config := mk_config (c_name c) (c_control_path c) (c_self_addr c) (c_advertised_substrate_addr c) (c_ca_file c) (c_certificate_file c) (c_private_key_file c) (c_private_key_data c) (c_auth_private_key c) (c_tun_if c) (c_logging c) (c_node_addr c) (c_zpr_addrs c) v (c_rsaoauth c) (c_bootstrap_key_path c) (c_bas_key_path c) (c_batch_io_engine c) (c_km_impl c).
Definition set_rsaoauth (c : Config) (v : option OAuthRsa) : Config := mk_config (c_name c) (c_control_path c) (c_self_addr c) (c_advertised_substrate_addr c) (c_ca_file c) (c_certificate_file c) (c_private_key_file c) (c_private_key_data c) (c_auth_private_key c) (c_tun_if c) (c_logging c) (c_node_addr c) (c_zpr_addrs c) (c_bootstrap c) v (c_bootstrap_key_path c) (c_bas_key_path c) (c_batch_io_engine c) (c_km_impl c).
Definition set_bootstrap_key_path (c : Config) (v : option Path) : Config := mk_config (c_name c) (c_control_path c) (c_self_addr c) (c_advertised_substrate_addr c) (c_ca_file c) (c_certificate_file c) (c_private_key_file c) (c_private_key_data c) (c_auth_private_key c) (c_tun_if c) (c_logging c) (c_node_addr c) (c_zpr_addrs c) (c_bootstrap c) (c_rsaoauth c) v (c_bas_key_path c) (c_batch_io_engine c) (c_km_impl c).
Definition set_bas_key_path (c : Config) (v : option Path) : Config := mk_config (c_name c) (c_control_path c) (c_self_addr c) (c_advertised_substrate_addr c) (c_ca_file c) (c_certificate_file c) (c_private_key_file c) (c_private_key_data c) (c_auth_private_key c) (c_tun_if c) (c_logging c) (c_node_addr c) (c_zpr_addrs c) (c_bootstrap c) (c_rsaoauth c) (c_bootstrap_key_path c) v (c_batch_io_engine c) (c_km_impl c).
Definition set_batch_io_engine (c : Config) (v : bytes) : Config := mk_config (c_name c) (c_control_path c) (c_self_addr c) (c_advertised_substrate_addr c) (c_ca_file c) (c_certificate_file c) (c_private_key_file c) (c_private_key_data c) (c_auth_private_key c) (c_tun_if c) (c_logging c) (c_node_addr c) (c_zpr_addrs c) (c_bootstrap c) (c_rsaoauth c) (c_bootstrap_key_path c) (c_bas_key_path c) v (c_km_impl c).
Definition set_km_impl (c : Config) (v : KmId) : Config := mk_config (c_name c) (c_control_path c) (c_self_addr c) (c_advertised_substrate_addr c) (c_ca_file c) (c_certificate_file c) (c_private_key_file c) (c_private_key_data c) (c_auth_private_key c) (c_tun_if c) (c_logging c) (c_node_addr c) (c_zpr_addrs c) (c_bootstrap c) (c_rsaoauth c) (c_bootstrap_key_path c) (c_bas_key_path c) (c_batch_io_engine c) v.

Definition AUTO_ENGINE_NAME : bytes := txt "auto".
Definition NOISE_KEY_LEN : nat := 32.

Definition default_control_path : Path := path_join data_home (mk_path false [txt "control.sock"]).
Definition config_default : Config :=
  mk_config [] default_control_path (SockV4 [0; 0; 0; 0] 0) None None None None None None None [] None [] None None None None AUTO_ENGINE_NAME KmIdNoise.

(** [path::absolute] *)
Definition path_absolute (what : string) (p : Path) : Res Path :=
  let clean p := mk_path (p_abs p) (filter (λ c, c ≠ txt ".") (p_comps p)) in
  if path_empty p then err (PathError what)
  else if p_abs p then ok (clean p)
  else match current_dir with None => err (PathError what) | Some d => ok (path_join d (clean p)) end.

(** [if let Some(v) = v { self.field = v }] *)
Definition overwrite {A} (v : option A) (set : Config → A → Config) (c : Config) : Config := match v with Some v => set c v | None => c end.

Definition set_from_common (c : Config) (common : CommonArgs) : Res Config :=
  c ←! (match a_control_path common with None => ok c | Some p => p ←! path_absolute "control_path" p; ok (set_control_path c p) end);
  let c := overwrite (a_self_addr common) set_self_addr c in
  c ←! (match a_ca_file common with None => ok c | Some p => p ←! path_absolute "ca_file" p; ok (set_ca_file c (Some p)) end);
  c ←! (match a_certificate_file common with None => ok c | Some p => p ←! path_absolute "certificate_file" p; ok (set_certificate_file c (Some p)) end);
  if bool_decide (is_Some (a_private_key_file common)) && bool_decide (is_Some (a_noise_private_key common)) then err (ParseError "private_key_file and noise_private_key cannot be used together")
  else
    let c := match a_noise_private_key common with Some d => set_private_key_data (set_private_key_file c None) (Some d) | None => c end in
    c ←! (match a_private_key_file common with None => ok c | Some p => let c := set_private_key_data c None in p ←! path_absolute "private_key_file" p; ok (set_private_key_file c (Some p)) end);
    let c := overwrite (a_tun_if common) (λ c v, set_tun_if c (Some v)) c in
    let c := overwrite (a_zpr_addr common) (λ c v, set_zpr_addrs c (c_zpr_addrs c ++ v)) c in
    let c := set_logging c (c_logging c ++ a_logging common) in
    let c := set_batch_io_engine c (a_io_engine common) in
    if bool_decide (a_km_impl common = txt "noise") then ok (set_km_impl c KmIdNoise)
    else if bool_decide (a_km_impl common = txt "null") then ok (set_km_impl c KmIdNull)
    else err (ParseError "Unknown key management implementation").

(** A path of the file is taken from the file's directory. *)
Definition resolve (base_dir p : Path) : Path := if is_relative p then path_join base_dir p else p.

Definition set_from_globals (c : Config) (g : GlobalConfigSection) (base_dir : Path) : Config :=
  let c := overwrite (g_control_path g) (λ c p, set_control_path c (resolve base_dir p)) c in
  let c := overwrite (g_self_addr g) set_self_addr c in
  let c := overwrite (g_ca_file g) (λ c p, set_ca_file c (Some (resolve base_dir p))) c in
  let c := overwrite (g_certificate_file g) (λ c p, set_certificate_file c (Some (resolve base_dir p))) c in
  let c := overwrite (g_private_key_file g) (λ c p, set_private_key_file c (Some (resolve base_dir p))) c in
  let c := overwrite (g_tun_if g) (λ c v, set_tun_if c (Some v)) c in
  let c := overwrite (g_zpr_addr g) (λ c v, set_zpr_addrs c (c_zpr_addrs c ++ v)) c in
  let c := overwrite (g_logging g) (λ c v, set_logging c (c_logging c ++ v)) c in
  overwrite (g_io_engine g) set_batch_io_engine c.

Definition set_from_adapter (c : Config) (a : AdapterConfigSection) (base_dir : Path) : Config :=
  let c := overwrite (as_name a) set_name c in
  let c := overwrite (as_node_addr a) (λ c v, set_node_addr c (Some v)) c in
  overwrite (as_bootstrap_key a) (λ c p, set_bootstrap_key_path c (Some (resolve base_dir p))) c.

Definition set_from_authentication (c : Config) (a : option AuthenticationConfigSection) (base_dir : Path) : Config :=
  match a with
  | None => c
  | Some a =>
      let c := overwrite (bas_key a) (λ c p, set_bas_key_path c (Some (resolve base_dir p))) c in
      overwrite (au_auth_private_key a) (λ c p, set_auth_private_key c (Some (resolve base_dir p))) c
  end.

Definition sock_ip (a : SocketAddr) : bytes := match a with SockV4 ip _ | SockV6 ip _ _ _ => ip end.
Definition sock_port_of (a : SocketAddr) : Z := match a with SockV4 _ p | SockV6 _ p _ _ => p end.

Definition resolve_advertised_addr (addr_str : bytes) : Res SocketAddr :=
  match parse_socket_addr addr_str with
  | None => err (ParseError "advertised_substrate_addr is not a literal IP:port")
  | Some a =>
      if forallb (Z.eqb 0) (sock_ip a) then err (ParseError "advertised_substrate_addr is an unspecified address")
      else if sock_port_of a =? 0 then err (ParseError "advertised_substrate_addr has port 0")
      else ok a
  end.

Definition set_advertised (c : Config) (addr_str : bytes) : Res Config := a ←! resolve_advertised_addr addr_str; ok (set_advertised_substrate_addr c (Some a)).

Definition set_from_node (c : Config) (n : option NodeConfigSection) : Res Config :=
  match n with Some (Some addr_str) => set_advertised c addr_str | _ => ok c end.

(** A file that was loaded, with its path. *)
Definition AdapterConfig : Type := Path * (GlobalConfigSection * AdapterConfigSection * option AuthenticationConfigSection).
Definition NodeConfig : Type := Path * (GlobalConfigSection * option NodeConfigSection * option AuthenticationConfigSection).

(** [config_path.parent().unwrap()] *)
Definition base_dir_of (p : Path) : Res Path := match path_parent p with Some d => ok d | None => Panic end.

Definition new_for_adapter (f : option AdapterConfig) (common : CommonArgs) : Res Config :=
  c ←! set_from_common config_default common;
  match f with
  | None => ok c
  | Some (p, (g, a, au)) => base_dir ←! base_dir_of p; ok (set_from_authentication (set_from_adapter (set_from_globals c g base_dir) a base_dir) au base_dir)
  end.

Definition new_for_node (f : option NodeConfig) (auth_private_key : option Path) (common : CommonArgs) : Res Config :=
  c ←! (match auth_private_key with None => ok config_default | Some p => p ←! path_absolute "auth_private_key" p; ok (set_auth_private_key config_default (Some p)) end);
  c ←! set_from_common c common;
  match f with
  | None => ok c
  | Some (p, (g, n, au)) => base_dir ←! base_dir_of p; set_from_node (set_from_authentication (set_from_globals c g base_dir) au base_dir) n
  end.

(** [get_noise_cn], of a certificate and of the configuration *)
Definition cert_noise_cn (f : Path) : Res bytes :=
  match load_cert_cn f with
  | None => err (ParseError "failed to load noise certificate")
  | Some None => err (ParseError "failed to get CN from certificate")
  | Some (Some cn) => ok cn
  end.
Definition get_noise_cn (c : Config) : Res bytes :=
  match c_certificate_file c with
  | None => if bool_decide (c_name c = []) then err (Missing "certificate_file or name") else ok (c_name c)
  | Some f => cert_noise_cn f
  end.

Definition get_noise_private_key_data (c : Config) : Res (option bytes) :=
  match c_private_key_data c with
  | Some b64data =>
      match b64_decode b64data with
      | Some d => if (length d =? NOISE_KEY_LEN)%nat then ok (Some d) else err (ParseError "malformed noise key")
      | None => err (ParseError "failed to decode base64 noise key")
      end
  | None =>
      match c_private_key_file c with
      | Some pkf => match load_noise_private_key pkf with Some k => ok (Some k) | None => err (ParseError "failed to load private key from file") end
      | None => ok None
      end
  end.

Definition finalize (c : Config) : Res Config :=
  c ←! (match c_bootstrap_key_path c with
        | None => ok c
        | Some p => cn ←! get_noise_cn c; match bootstrap_new cn (read_file p) with inl e => err (ArgsAuthError e) | inr b => ok (set_bootstrap c (Some b)) end
        end);
  match c_bas_key_path c with
  | None => ok c
  | Some p =>
      cn ←! get_noise_cn c;
      match read_file p with
      | None => err (PathError "failed to read bas_key file")
      | Some d => if negb (is_str d) then err (PathError "failed to read bas_key file")
                  else match load_rsa_key d with None => err (ParseError "failed to parse bas_key file") | Some k => ok (set_rsaoauth c (Some (mk_oauth cn k))) end
      end
  end.

Definition check_file_exists (desc : string) (p : Path) : Res unit := match file_exists p with Some true => ok tt | _ => err (PathError desc) end.
Definition check_opt (desc : string) (p : option Path) : Res unit := match p with Some p => check_file_exists desc p | None => ok tt end.
Definition is_none {A} (o : option A) : bool := match o with None => true | Some _ => false end.
Definition require (b : bool) (arg : string) : Res unit := if b then ok tt else err (Missing arg).

Definition check_valid (c : Config) (mode : RunMode) : Res unit :=
  _ ←! require (negb (path_empty (c_control_path c))) "control_path";
  _ ←! check_opt "control socket parent directory" (path_parent (c_control_path c));
  _ ←! check_opt "certificate authority file" (c_ca_file c);
  _ ←! check_opt "certificate file" (c_certificate_file c);
  _ ←! (match c_private_key_file c, c_private_key_data c with
        | Some p, _ => if path_is_str p then _ ←! require (negb (path_empty p)) "private_key_file"; check_file_exists "private key file" p else Panic
        | None, Some d => require (negb (bool_decide (d = []))) "private_key_data"
        | None, None => ok tt
        end);
  match mode with
  | Node =>
      _ ←! require (negb (bool_decide (c_zpr_addrs c = []))) "zpr_addr";
      _ ←! require (negb (is_none (c_certificate_file c))) "certificate_file";
      require (negb (is_none (c_private_key_file c) && is_none (c_private_key_data c))) "private_key_file or noise_private_key"
  | Adapter =>
      _ ←! require (negb (is_none (c_node_addr c))) "node_addr";
      _ ←! require (negb (is_none (c_certificate_file c) && bool_decide (c_name c = []))) "name";
      require (negb (is_none (c_private_key_file c) && is_none (c_private_key_data c) && bool_decide (c_name c = []))) "adapter name"
  end.

(** [load_config], with the path it then gets. *)
Definition load_config {A} (toml : bytes → option A) (p : Path) : Res (Path * A) :=
  match read_file p with
  | None => err ArgsIOError
  | Some d =>
      if negb (is_str d) then err ArgsIOError
      else if bool_decide (d = []) then err (ParseError "Empty configuration file")
      else match toml d with None => err (ParseError "Error parsing configuration file") | Some a => p ←! path_absolute "config file" p; ok (p, a) end
  end.
Definition load_optional {A} (toml : bytes → option A) (p : option Path) : Res (option (Path * A)) :=
  match p with None => ok None | Some p => f ←! load_config toml p; ok (Some f) end.

(** The settings of all sources, merged. *)
Definition merge_sources (command : Command) : Res (RunMode * Config) :=
  match command with
  | CmdAdapter name config_file common node_addr bootstrap_key =>
      f ←! load_optional toml_adapter config_file;
      c ←! new_for_adapter f common;
      let c := overwrite name set_name c in
      let c := overwrite node_addr (λ c v, set_node_addr c (Some v)) c in
      c ←! (match bootstrap_key with None => ok c | Some p => p ←! path_absolute "bootstrap key" p; ok (set_bootstrap_key_path c (Some p)) end);
      ok (Adapter, c)
  | CmdNode config_file auth_private_key advertised common =>
      f ←! load_optional toml_node config_file;
      c ←! new_for_node f auth_private_key common;
      c ←! (match advertised with None => ok c | Some a => set_advertised c a end);
      ok (Node, c)
  end.

Definition argparse (command : Command) : Res (RunMode * Config) :=
  r ←! merge_sources command;
  c ←! finalize r.2;
  _ ←! check_valid c r.1;
  ok (r.1, c).

(** ** Where each setting comes from *)

(** A path of the command line, made absolute. *)
Definition absolute_opt (p : option Path) : option Path := p ← p; match path_absolute "" p with Ret (inr q) => Some q | _ => None end.

Lemma res_bind_ok {A B} (m : Res A) (f : A → Res B) b : res_bind m f = ok b → ∃ a, m = ok a ∧ f a = ok b.
Proof. destruct m as [[e|a]|]; [done|eauto|done]. Qed.

Lemma ok_inj {A} (a b : A) : ok a = ok b → a = b.
Proof. by intros [= ->]. Qed.

Lemma absolute_what w w' p q : path_absolute w p = ok q → path_absolute w' p = ok q.
Proof. unfold path_absolute, err, ok. destruct (path_empty p); [done|]. destruct (p_abs p); [done|]. by destruct current_dir. Qed.

Lemma absolute_opt_ok w p q : path_absolute w p = ok q → absolute_opt (Some p) = Some q.
Proof. intros H. cbn. by rewrite (absolute_what w "" p q H). Qed.

(** Writing a field that may be given. *)
Lemma overwrite_eq {A} (v : option A) (set : Config → A → Config) cur c : set c cur = c → overwrite v set c = set c (default cur v).
Proof. by destruct v. Qed.

Lemma overwrite_opt {A} (v : option A) (set : Config → option A → Config) cur c : set c cur = c → overwrite v (λ c v, set c (Some v)) c = set c (v ∪ cur).
Proof. intros H. by destruct v, cur. Qed.

Lemma default_union {A} (d : A) a b : default d (a ∪ b) = default (default d b) a.
Proof. by destruct a, b. Qed.

Lemma overwrite_path (v : option Path) b (set : Config → option Path → Config) cur c : set c cur = c →
  overwrite v (λ c p, set c (Some (resolve b p))) c = set c ((resolve b <$> v) ∪ cur).
Proof. intros H. by destruct v, cur. Qed.

Lemma abs_step w o (set : Config → Path → Config) cur c c' : set c cur = c →
  (match o with None => ok c | Some p => p ←! path_absolute w p; ok (set c p) end) = ok c' → c' = set c (default cur (absolute_opt o)).
Proof. intros Hc. destruct o as [p|]; [|by intros <-%ok_inj]. intros (q & E & <-%ok_inj)%res_bind_ok. by rewrite (absolute_opt_ok w p q E). Qed.

Lemma abs_step_opt w o (set : Config → option Path → Config) cur c c' : set c cur = c →
  (match o with None => ok c | Some p => p ←! path_absolute w p; ok (set c (Some p)) end) = ok c' → c' = set c (absolute_opt o ∪ cur).
Proof. intros Hc. destruct o as [p|]; [|intros <-%ok_inj; by destruct cur]. intros (q & E & <-%ok_inj)%res_bind_ok. rewrite (absolute_opt_ok w p q E). by destruct cur. Qed.

Definition km_of (s : bytes) : option KmId := if bool_decide (s = txt "noise") then Some KmIdNoise else if bool_decide (s = txt "null") then Some KmIdNull else None.

(** What the command line contributes, before the file. *)
Lemma common_eq c common c' : set_from_common c common = ok c' →
  is_none (a_private_key_file common) || is_none (a_noise_private_key common) = true ∧
  ∃ km, km_of (a_km_impl common) = Some km ∧
  c' = mk_config (c_name c) (default (c_control_path c) (absolute_opt (a_control_path common))) (default (c_self_addr c) (a_self_addr common)) (c_advertised_substrate_addr c)
         (absolute_opt (a_ca_file common) ∪ c_ca_file c) (absolute_opt (a_certificate_file common) ∪ c_certificate_file c)
         (match a_noise_private_key common with Some _ => None | None => absolute_opt (a_private_key_file common) ∪ c_private_key_file c end)
         (match a_private_key_file common with Some _ => None | None => a_noise_private_key common ∪ c_private_key_data c end)
         (c_auth_private_key c) (a_tun_if common ∪ c_tun_if c) (c_logging c ++ a_logging common) (c_node_addr c) (c_zpr_addrs c ++ default [] (a_zpr_addr common))
         (c_bootstrap c) (c_rsaoauth c) (c_bootstrap_key_path c) (c_bas_key_path c) (a_io_engine common) km.
Proof.
  destruct c as [x1 x2 x3 x4 x5 x6 x7 x8 x9 x10 x11 x12 x13 x14 x15 x16 x17 x18 x19]. unfold set_from_common.
  intros (c1 & E1 & H)%res_bind_ok. apply (abs_step _ _ _ x2) in E1; [|done]. subst c1. rewrite (overwrite_eq _ _ x3) in H by done. cbv zeta in H.
  apply res_bind_ok in H as (c1 & E1 & H). apply (abs_step_opt _ _ _ x5) in E1; [|done]. subst c1.
  apply res_bind_ok in H as (c1 & E1 & H). apply (abs_step_opt _ _ _ x6) in E1; [|done]. subst c1.
  destruct (bool_decide _ && bool_decide _) eqn:Hkeys; [done|]. cbv zeta in H.
  apply res_bind_ok in H as (c1 & E1 & H). rewrite (overwrite_opt _ _ (c_tun_if c1)) in H by (by destruct c1). cbv zeta in H.
  assert (overwrite (a_zpr_addr common) (λ c v, set_zpr_addrs c (c_zpr_addrs c ++ v)) (set_tun_if c1 (a_tun_if common ∪ c_tun_if c1)) = set_zpr_addrs (set_tun_if c1 (a_tun_if common ∪ c_tun_if c1)) (c_zpr_addrs c1 ++ default [] (a_zpr_addr common))) as Hz
    by (destruct (a_zpr_addr common); cbn; [done|]; by rewrite app_nil_r). rewrite Hz in H. clear Hz.
  assert (∃ km, km_of (a_km_impl common) = Some km ∧ c' = set_km_impl (set_batch_io_engine (set_logging (set_zpr_addrs (set_tun_if c1 (a_tun_if common ∪ c_tun_if c1)) (c_zpr_addrs c1 ++ default [] (a_zpr_addr common))) (c_logging c1 ++ a_logging common)) (a_io_engine common)) km) as (km & Hkm & ->).
  { unfold km_of. destruct (bool_decide (a_km_impl common = txt "noise")); [apply ok_inj in H as <-; eauto|]. destruct (bool_decide (a_km_impl common = txt "null")); [apply ok_inj in H as <-; eauto|done]. }
  clear H. destruct (a_noise_private_key common) as [d|], (a_private_key_file common) as [p|]; cbn in Hkeys; try discriminate Hkeys; (split; [done|]); exists km; (split; [done|]).
  - apply ok_inj in E1 as <-. by destruct x8.
  - apply res_bind_ok in E1 as (q & E1 & <-%ok_inj). rewrite (absolute_opt_ok _ _ _ E1). by destruct x7.
  - apply ok_inj in E1 as <-. cbn. by destruct x7, x8.
Qed.

Lemma overwrite_map {A B} (v : option A) (f : A → B) (set : Config → B → Config) cur c : set c cur = c → overwrite v (λ c p, set c (f p)) c = set c (default cur (f <$> v)).
Proof. by destruct v. Qed.

Lemma overwrite_extend {A} (v : option (list A)) (get : Config → list A) (set : Config → list A → Config) c : set c (get c) = c →
  overwrite v (λ c v, set c (get c ++ v)) c = set c (get c ++ default [] v).
Proof. intros H. destruct v; cbn; [done|]. by rewrite app_nil_r. Qed.

Lemma globals_eq c g b : set_from_globals c g b =
  mk_config (c_name c) (default (c_control_path c) (resolve b <$> g_control_path g)) (default (c_self_addr c) (g_self_addr g)) (c_advertised_substrate_addr c)
    ((resolve b <$> g_ca_file g) ∪ c_ca_file c) ((resolve b <$> g_certificate_file g) ∪ c_certificate_file c) ((resolve b <$> g_private_key_file g) ∪ c_private_key_file c)
    (c_private_key_data c) (c_auth_private_key c) (g_tun_if g ∪ c_tun_if c) (c_logging c ++ default [] (g_logging g)) (c_node_addr c) (c_zpr_addrs c ++ default [] (g_zpr_addr g))
    (c_bootstrap c) (c_rsaoauth c) (c_bootstrap_key_path c) (c_bas_key_path c) (default (c_batch_io_engine c) (g_io_engine g)) (c_km_impl c).
Proof.
  destruct c as [x1 x2 x3 x4 x5 x6 x7 x8 x9 x10 x11 x12 x13 x14 x15 x16 x17 x18 x19]. unfold set_from_globals.
  rewrite (overwrite_map _ _ set_control_path x2), (overwrite_eq _ set_self_addr x3), (overwrite_path _ _ set_ca_file x5), (overwrite_path _ _ set_certificate_file x6), (overwrite_path _ _ set_private_key_file x7), (overwrite_opt _ set_tun_if x10) by done.
  rewrite (overwrite_extend _ c_zpr_addrs set_zpr_addrs), (overwrite_extend _ c_logging set_logging), (overwrite_eq _ set_batch_io_engine x18) by done. done.
Qed.

Lemma adapter_eq c a b : set_from_adapter c a b =
  set_bootstrap_key_path (set_node_addr (set_name c (default (c_name c) (as_name a))) (as_node_addr a ∪ c_node_addr c)) ((resolve b <$> as_bootstrap_key a) ∪ c_bootstrap_key_path c).
Proof.
  destruct c as [x1 x2 x3 x4 x5 x6 x7 x8 x9 x10 x11 x12 x13 x14 x15 x16 x17 x18 x19]. unfold set_from_adapter.
  rewrite (overwrite_eq _ _ x1), (overwrite_opt _ set_node_addr x12), (overwrite_path _ _ set_bootstrap_key_path x16) by done. done.
Qed.

Lemma authentication_eq c au b : set_from_authentication c au b =
  set_auth_private_key (set_bas_key_path c ((resolve b <$> (au ≫= bas_key)) ∪ c_bas_key_path c)) ((resolve b <$> (au ≫= au_auth_private_key)) ∪ c_auth_private_key c).
Proof.
  destruct c as [x1 x2 x3 x4 x5 x6 x7 x8 x9 x10 x11 x12 x13 x14 x15 x16 x17 x18 x19]. destruct au as [au|]; cbn; [|by destruct x9, x17].
  rewrite (overwrite_path _ _ set_bas_key_path x17), (overwrite_path _ _ set_auth_private_key x9) by done. done.
Qed.

Lemma node_eq c n c' : set_from_node c n = ok c' → ∃ a, c' = set_advertised_substrate_addr c a ∧
  match n with Some (Some t) => ∃ x, resolve_advertised_addr t = ok x ∧ a = Some x | _ => a = c_advertised_substrate_addr c end.
Proof.
  destruct n as [[t|]|]; cbn; [|intros <-%ok_inj; exists (c_advertised_substrate_addr c); split; [by destruct c|done]..].
  intros (x & E & <-%ok_inj)%res_bind_ok. eauto.
Qed.

(** [finalize] only adds the authentication objects. *)
Lemma finalize_eq c c' : finalize c = ok c' →
  ∃ b o, c' = set_rsaoauth (set_bootstrap c b) o ∧
    match c_bootstrap_key_path c with None => b = c_bootstrap c | Some p => ∃ cn d k, get_noise_cn c = ok cn ∧ read_file p = Some d ∧ load_rsa_key d = Some k ∧ b = Some (mk_bootstrap k cn) end ∧
    match c_bas_key_path c with None => o = c_rsaoauth c | Some p => ∃ cn d k, get_noise_cn c = ok cn ∧ read_file p = Some d ∧ load_rsa_key d = Some k ∧ o = Some (mk_oauth cn k) end.
Proof.
  unfold finalize. intros (c1 & E1 & H)%res_bind_ok.
  assert (∃ b, c1 = set_bootstrap c b ∧ match c_bootstrap_key_path c with None => b = c_bootstrap c | Some p => ∃ cn d k, get_noise_cn c = ok cn ∧ read_file p = Some d ∧ load_rsa_key d = Some k ∧ b = Some (mk_bootstrap k cn) end) as (b & -> & Hb).
  { destruct (c_bootstrap_key_path c) as [p|]; [|apply ok_inj in E1 as <-; exists (c_bootstrap c); split; [by destruct c|done]].
    apply res_bind_ok in E1 as (cn & Ecn & E1). unfold bootstrap_new in E1. destruct (read_file p) as [d|] eqn:Ed; [|done]. destruct (load_rsa_key d) as [k|] eqn:Ek; [|done].
    apply ok_inj in E1 as <-. eexists. split; [done|]. by exists cn, d, k. }
  exists b. change (get_noise_cn (set_bootstrap c b)) with (get_noise_cn c) in H. change (c_bas_key_path (set_bootstrap c b)) with (c_bas_key_path c) in H.
  destruct (c_bas_key_path c) as [p|]; [|apply ok_inj in H as <-; exists (c_rsaoauth c); split; [by destruct c|done]].
  apply res_bind_ok in H as (cn & Ecn & H). destruct (read_file p) as [d|] eqn:Ed; [|done]. destruct (negb (is_str d)); [done|]. destruct (load_rsa_key d) as [k|] eqn:Ek; [|done].
  apply ok_inj in H as <-. eexists. split; [done|]. split; [done|]. by exists cn, d, k.
Qed.

(** The file as it is used: the directory it is in, and its sections. *)
Definition located {A} (f : option (Path * A)) : option (Path * A) := '(p, x) ← f; d ← path_parent p; Some (d, x).
Definition file_val {G A U B} (f : option (Path * (G * A * U))) (get : G * A * U → option B) : option B := '(d, x) ← located f; get x.
Definition file_path {G A U} (f : option (Path * (G * A * U))) (get : G * A * U → option Path) : option Path := '(d, x) ← located f; resolve d <$> get x.

(** The settings both modes have. *)
Record common_sources {A U} (common : CommonArgs) (f : option (Path * (GlobalConfigSection * A * U))) (c : Config) : Prop := {
  src_control_path : c_control_path c = default default_control_path (file_path f (λ x, g_control_path x.1.1) ∪ absolute_opt (a_control_path common));
  src_self_addr : c_self_addr c = default (SockV4 [0; 0; 0; 0] 0) (file_val f (λ x, g_self_addr x.1.1) ∪ a_self_addr common);
  src_ca_file : c_ca_file c = file_path f (λ x, g_ca_file x.1.1) ∪ absolute_opt (a_ca_file common);
  src_certificate_file : c_certificate_file c = file_path f (λ x, g_certificate_file x.1.1) ∪ absolute_opt (a_certificate_file common);
  src_private_key_file : c_private_key_file c = file_path f (λ x, g_private_key_file x.1.1) ∪ absolute_opt (a_private_key_file common);
  src_private_key_data : c_private_key_data c = a_noise_private_key common;
  src_tun_if : c_tun_if c = file_val f (λ x, g_tun_if x.1.1) ∪ a_tun_if common;
  src_logging : c_logging c = a_logging common ++ default [] (file_val f (λ x, g_logging x.1.1));
  src_zpr_addr : c_zpr_addrs c = default [] (a_zpr_addr common) ++ default [] (file_val f (λ x, g_zpr_addr x.1.1));
  src_io_engine : c_batch_io_engine c = default (a_io_engine common) (file_val f (λ x, g_io_engine x.1.1));
  src_km_impl : Some (c_km_impl c) = km_of (a_km_impl common) }.

Lemma base_parent p b : base_dir_of p = ok b → path_parent p = Some b.
Proof. unfold base_dir_of. destruct (path_parent p) as [d|]; [by intros <-%ok_inj|done]. Qed.

Lemma located_base {A} (p b : Path) (x : A) : base_dir_of p = ok b → located (Some (p, x)) = Some (b, x).
Proof. intros H. cbn. by rewrite (base_parent p b H). Qed.

(** The common settings, from the command line and then from the file. *)
Lemma common_no_file {A U} c common c' : c = config_default ∨ (∃ p, c = set_auth_private_key config_default p) → set_from_common c common = ok c' →
  common_sources (A := A) (U := U) common None c'.
Proof.
  intros Hc H. apply common_eq in H as (Hk & km & Hkm & ->). assert (∀ T (o : option T), o ∪ None = o) as Hu by (by intros T []).
  destruct Hc as [->|[p ->]]; split; cbn; rewrite ?Hu, ?app_nil_r; try done; try (by rewrite (left_id_L None union)); revert Hk;
    destruct (a_noise_private_key common), (a_private_key_file common); cbn; try done; intros _; by rewrite (left_id_L None union).
Qed.

Lemma common_file {A U} common c p b g (a : A) (au : U) c' :
  base_dir_of p = ok b → common_sources (A := A) (U := U) common None c → c' = set_from_globals c g b → common_sources common (Some (p, (g, a, au))) c'.
Proof.
  intros Hb Hc ->. rewrite globals_eq. pose proof (located_base p b (g, a, au) Hb) as Hl. destruct Hc as [H1 H2 H3 H4 H5 H6 H7 H8 H9 H10 H11]. unfold file_path, file_val in *. cbn in H1, H2, H3, H4, H5, H6, H7, H8, H9, H10, H11.
  split; cbn [c_control_path c_self_addr c_ca_file c_certificate_file c_private_key_file c_private_key_data c_tun_if c_logging c_zpr_addrs c_batch_io_engine c_km_impl];
    unfold file_path, file_val; rewrite ?Hl; cbn; rewrite ?H1, ?H2, ?H3, ?H4, ?H5, ?H6, ?H7, ?H8, ?H9, ?H10, ?default_union, ?(left_id_L None union), ?app_nil_r; try done.
Qed.

(** What the other sections and the other arguments change. *)
Lemma sources_ext {A U} common f (c c' : Config) :
  c_control_path c' = c_control_path c → c_self_addr c' = c_self_addr c → c_ca_file c' = c_ca_file c → c_certificate_file c' = c_certificate_file c → c_private_key_file c' = c_private_key_file c →
  c_private_key_data c' = c_private_key_data c → c_tun_if c' = c_tun_if c → c_logging c' = c_logging c → c_zpr_addrs c' = c_zpr_addrs c → c_batch_io_engine c' = c_batch_io_engine c → c_km_impl c' = c_km_impl c →
  common_sources (A := A) (U := U) common f c → common_sources common f c'.
Proof. intros E1 E2 E3 E4 E5 E6 E7 E8 E9 E10 E11 []. split; congruence. Qed.

Definition auth_sources {G A} (f : option (Path * (G * A * option AuthenticationConfigSection))) (cli : option Path) (c : Config) : Prop :=
  c_auth_private_key c = file_path f (λ x, x.2 ≫= au_auth_private_key) ∪ cli ∧ c_bas_key_path c = file_path f (λ x, x.2 ≫= bas_key).

Lemma new_adapter_sources f common c : new_for_adapter f common = ok c →
  common_sources common f c ∧ auth_sources f None c ∧ c_name c = default [] (file_val f (λ x, as_name x.1.2)) ∧ c_node_addr c = file_val f (λ x, as_node_addr x.1.2) ∧
  c_bootstrap_key_path c = file_path f (λ x, as_bootstrap_key x.1.2) ∧ c_advertised_substrate_addr c = None.
Proof.
  unfold new_for_adapter. intros (c0 & E0 & H)%res_bind_ok.
  pose proof (common_no_file (A := AdapterConfigSection) (U := option AuthenticationConfigSection) _ _ _ (or_introl eq_refl) E0) as Hc. apply common_eq in E0 as (_ & km & _ & ->). destruct f as [[p [[g a] au]]|].
  - apply res_bind_ok in H as (b & Eb & <-%ok_inj). rewrite authentication_eq, adapter_eq. split; [eapply sources_ext; [..|eapply (common_file _ _ _ _ _ _ _ _ Eb Hc eq_refl)]; done|].
    rewrite globals_eq. unfold auth_sources, file_val, file_path. cbn. rewrite (base_parent p b Eb). cbn. rewrite ?(right_id_L None union). done.
  - apply ok_inj in H as <-. split; [exact Hc|]. done.
Qed.

Lemma new_node_sources f key common c : new_for_node f key common = ok c →
  common_sources common f c ∧ auth_sources f (absolute_opt key) c ∧ c_name c = [] ∧ c_node_addr c = None ∧ c_bootstrap_key_path c = None ∧
  match file_val f (λ x, x.1.2) with Some (Some t) => ∃ x, resolve_advertised_addr t = ok x ∧ c_advertised_substrate_addr c = Some x | _ => c_advertised_substrate_addr c = None end.
Proof.
  unfold new_for_node. intros (c00 & E00 & H)%res_bind_ok. apply (abs_step_opt _ _ set_auth_private_key None) in E00; [|done]. rewrite (right_id_L None union) in E00. subst c00.
  apply res_bind_ok in H as (c0 & E0 & H).
  pose proof (common_no_file (A := option NodeConfigSection) (U := option AuthenticationConfigSection) _ _ _ (or_intror (ex_intro _ _ eq_refl)) E0) as Hc. apply common_eq in E0 as (_ & km & _ & ->). destruct f as [[p [[g n] au]]|].
  - apply res_bind_ok in H as (b & Eb & H). apply node_eq in H as (x & -> & Hx). rewrite authentication_eq in *. split; [eapply sources_ext; [..|eapply (common_file _ _ _ _ _ _ _ _ Eb Hc eq_refl)]; done|].
    rewrite globals_eq in *. unfold auth_sources, file_val, file_path. cbn in *. rewrite (base_parent p b Eb). cbn. rewrite ?(right_id_L None union). split_and!; try done; by destruct n as [[t|]|].
  - apply ok_inj in H as <-. split; [exact Hc|]. unfold auth_sources, file_val, file_path. cbn. by rewrite (left_id_L None union).
Qed.

(** Where the settings of a mode come from, with the file that was loaded. *)
Definition sources (command : Command) (c : Config) : Prop :=
  match command with
  | CmdAdapter name config_file common node_addr bootstrap_key => ∃ f, load_optional toml_adapter config_file = ok f ∧
      common_sources common f c ∧ auth_sources f None c ∧
      c_name c = default [] (name ∪ file_val f (λ x, as_name x.1.2)) ∧ c_node_addr c = node_addr ∪ file_val f (λ x, as_node_addr x.1.2) ∧
      c_bootstrap_key_path c = absolute_opt bootstrap_key ∪ file_path f (λ x, as_bootstrap_key x.1.2) ∧ c_advertised_substrate_addr c = None
  | CmdNode config_file auth_private_key advertised common => ∃ f, load_optional toml_node config_file = ok f ∧
      common_sources common f c ∧ auth_sources f (absolute_opt auth_private_key) c ∧ c_name c = [] ∧ c_node_addr c = None ∧ c_bootstrap_key_path c = None ∧
      match advertised ∪ (default None (file_val f (λ x, x.1.2))) with
      | Some t => ∃ x, resolve_advertised_addr t = ok x ∧ c_advertised_substrate_addr c = Some x
      | None => c_advertised_substrate_addr c = None
      end
  end.

Definition mode_of (command : Command) : RunMode := match command with CmdAdapter _ _ _ _ _ => Adapter | CmdNode _ _ _ _ => Node end.

Lemma sources_final command c b o : sources command c → sources command (set_rsaoauth (set_bootstrap c b) o).
Proof. destruct command; intros (f & Ef & Hc & H); exists f; (split; [done|]); (split; [eapply sources_ext; [..|exact Hc]; done|exact H]). Qed.

Lemma merge_ok command m c : merge_sources command = ok (m, c) → m = mode_of command ∧ sources command c.
Proof.
  destruct command as [name cf common na bk|cf key adv common]; cbn [merge_sources]; intros E0.
  - apply res_bind_ok in E0 as (f & Ef & E0). apply res_bind_ok in E0 as (c1 & E1 & E0). apply new_adapter_sources in E1 as (Hc & Ha & Hn & Hna & Hbk & Had). cbv zeta in E0.
    apply res_bind_ok in E0 as (c2 & E2 & E0). apply ok_inj in E0. injection E0 as <- <-.
    rewrite (overwrite_eq _ _ (c_name c1)), (overwrite_opt _ set_node_addr (c_node_addr c1)) in E2 by (by destruct c1). apply (abs_step_opt _ _ set_bootstrap_key_path (c_bootstrap_key_path c1)) in E2; [|by destruct c1]. subst c2.
    split; [done|]. exists f. split; [done|]. split; [eapply sources_ext; [..|exact Hc]; done|]. split; [exact Ha|]. cbn. rewrite Hn, Hna, Hbk, default_union. done.
  - apply res_bind_ok in E0 as (f & Ef & E0). apply res_bind_ok in E0 as (c1 & E1 & E0). apply new_node_sources in E1 as (Hc & Ha & Hn & Hna & Hbk & Had).
    apply res_bind_ok in E0 as (c2 & E2 & E0). apply ok_inj in E0. injection E0 as <- <-. split; [done|]. exists f. split; [done|].
    assert (∃ x, c2 = set_advertised_substrate_addr c1 x ∧ match adv ∪ default None (file_val f (λ x, x.1.2)) with Some t => ∃ y, resolve_advertised_addr t = ok y ∧ x = Some y | None => x = None end) as (x & -> & Hx).
    { destruct adv as [t|].
      - apply res_bind_ok in E2 as (y & Ey & <-%ok_inj). exists (Some y). split; [done|]. rewrite union_Some_l. eauto.
      - apply ok_inj in E2 as <-. exists (c_advertised_substrate_addr c1). split; [by destruct c1|]. rewrite (left_id_L None union). by destruct (file_val f (λ x, x.1.2)) as [[t|]|]. }
    split; [eapply sources_ext; [..|exact Hc]; done|]. split; [exact Ha|]. done.
Qed.

Lemma argparse_sources command m c : argparse command = ok (m, c) → m = mode_of command ∧ sources command c ∧ check_valid c m = ok ().
Proof.
  unfold argparse. intros ([m0 c0] & E0 & H)%res_bind_ok. cbn [fst snd] in H. apply res_bind_ok in H as (c1 & E1 & H). apply res_bind_ok in H as ([] & Hv & H). apply ok_inj in H. injection H as -> ->.
  apply finalize_eq in E1 as (b & o & -> & _ & _). apply merge_ok in E0 as [-> Hs]. split; [done|]. split; [by apply sources_final|done].
Qed.

(** ** What is accepted *)

Definition there (p : option Path) : Prop := ∀ f, p = Some f → file_exists f = Some true.

(** What is checked before the packet handler runs: the directory of the control socket and
    the CA, certificate and key files exist, and the settings its mode needs are there.  A
    node's authentication key ([c_auth_private_key]) is not checked: [main] panics later
    if it is missing or cannot be read. *)
Definition usable (c : Config) (m : RunMode) : Prop :=
  path_empty (c_control_path c) = false ∧ there (path_parent (c_control_path c)) ∧ there (c_ca_file c) ∧ there (c_certificate_file c) ∧
  match c_private_key_file c, c_private_key_data c with
  | Some p, _ => path_is_str p = true ∧ path_empty p = false ∧ file_exists p = Some true
  | None, Some d => d ≠ []
  | None, None => True
  end ∧
  match m with
  | Node => c_zpr_addrs c ≠ [] ∧ is_Some (c_certificate_file c) ∧ (is_Some (c_private_key_file c) ∨ is_Some (c_private_key_data c))
  | Adapter => is_Some (c_node_addr c) ∧ (is_Some (c_certificate_file c) ∨ c_name c ≠ []) ∧ (is_Some (c_private_key_file c) ∨ is_Some (c_private_key_data c) ∨ c_name c ≠ [])
  end.

Lemma check_file_ok d p : check_file_exists d p = ok () ↔ file_exists p = Some true.
Proof. unfold check_file_exists. by destruct (file_exists p) as [[]|]. Qed.

Lemma check_opt_ok d p : check_opt d p = ok () ↔ there p.
Proof.
  unfold there. destruct p as [p|]; [|done]. cbn. rewrite check_file_ok. split; [by intros H f [= <-]|auto].
Qed.

Lemma require_ok b a : require b a = ok () ↔ b = true.
Proof. by destruct b. Qed.

Lemma res_seq (r s : Res unit) : res_bind r (λ _, s) = ok () ↔ r = ok () ∧ s = ok ().
Proof. destruct r as [[e|[]]|]; cbn; naive_solver. Qed.

Lemma not_none {A} (o : option A) : is_none o = false ↔ is_Some o.
Proof. destruct o; cbn; split; try done; by intros []. Qed.

Lemma check_valid_iff c m : check_valid c m = ok () ↔ usable c m.
Proof.
  unfold check_valid, usable. rewrite !res_seq, !check_opt_ok, require_ok, negb_true_iff.
  assert (∀ p, (if path_is_str p then res_bind (require (negb (path_empty p)) "private_key_file") (λ _, check_file_exists "private key file" p) else Panic) = ok () ↔
    path_is_str p = true ∧ path_empty p = false ∧ file_exists p = Some true) as Hk.
  { intros p. destruct (path_is_str p); [|naive_solver]. rewrite res_seq, require_ok, negb_true_iff, check_file_ok. tauto. }
  assert (∀ d : bytes, require (negb (bool_decide (d = []))) "private_key_data" = ok () ↔ d ≠ []) as Hd by (intros d; by rewrite require_ok, negb_true_iff, bool_decide_eq_false).
  enough (∀ A A' B B' C D E F : Prop, (A ↔ A') → (B ↔ B') → (C ∧ D ∧ E ∧ F ∧ A ∧ B ↔ C ∧ D ∧ E ∧ F ∧ A' ∧ B')) as Hand; [apply Hand; clear Hand|tauto].
  - destruct (c_private_key_file c) as [p|]; [apply Hk|]. by destruct (c_private_key_data c).
  - destruct m; rewrite !res_seq, !require_ok, !negb_true_iff, ?andb_false_iff, ?not_none, ?bool_decide_eq_false; tauto.
Qed.

(** ** Panics *)

Lemma res_bind_panic {A B} (m : Res A) (f : A → Res B) : res_bind m f = Panic → m = Panic ∨ ∃ a, m = ok a ∧ f a = Panic.
Proof. destruct m as [[e|a]|]; [done|eauto|auto]. Qed.

Lemma absolute_no_panic w p : path_absolute w p ≠ Panic.
Proof. unfold path_absolute, ok, err. destruct (path_empty p); [done|]. destruct (p_abs p); [done|]. by destruct current_dir. Qed.

Ltac no_panic := repeat first
  [ match goal with |- _ ≠ _ => intro end | discriminate
  | match goal with
    | H : res_bind _ _ = Panic |- _ => apply res_bind_panic in H as [H|(? & _ & H)]; cbv zeta beta in H
    | H : path_absolute _ _ = Panic |- _ => by apply absolute_no_panic in H
    | H : (if ?b then _ else _) = Panic |- _ => destruct b
    | H : (match ?o with _ => _ end) = Panic |- _ => destruct o
    end ].

Lemma common_no_panic c common : set_from_common c common ≠ Panic.
Proof. unfold set_from_common. no_panic. Qed.

Lemma advertised_no_panic c t : set_advertised c t ≠ Panic.
Proof. unfold set_advertised, resolve_advertised_addr. no_panic. Qed.

Lemma load_no_panic {A} (toml : bytes → option A) p : load_optional toml p ≠ Panic.
Proof. unfold load_optional, load_config. no_panic. Qed.

Lemma finalize_no_panic c : finalize c ≠ Panic.
Proof. unfold finalize, get_noise_cn, cert_noise_cn. no_panic. Qed.

Lemma base_panic p : base_dir_of p = Panic → path_parent p = None.
Proof. unfold base_dir_of. by destruct (path_parent p). Qed.

(** The path of the configuration file, made absolute. *)
Definition config_path_of (command : Command) : option Path :=
  absolute_opt (match command with CmdAdapter _ f _ _ _ | CmdNode f _ _ _ => f end).

Lemma load_path {A} (toml : bytes → option A) cf p x : load_optional toml cf = ok (Some (p, x)) → absolute_opt cf = Some p.
Proof.
  destruct cf as [q|]; cbn [load_optional]; [|done]. intros ([p' x'] & E & H)%res_bind_ok. apply ok_inj in H. injection H as -> ->. unfold load_config in E.
  destruct (read_file q); [|done]. destruct (negb _); [done|]. destruct (bool_decide _); [done|]. destruct (toml _); [|done]. apply res_bind_ok in E as (p1 & E1 & E). apply ok_inj in E. injection E as -> _. by eapply absolute_opt_ok.
Qed.

Lemma merge_panic command : merge_sources command = Panic → ∃ p, config_path_of command = Some p ∧ path_parent p = None.
Proof.
  destruct command as [name cf common na bk|cf key adv common]; cbn [merge_sources]; intros [H|(f & Ef & H)]%res_bind_panic; try (by apply load_no_panic in H); apply res_bind_panic in H as [H|(c & _ & H)].
  - apply res_bind_panic in H as [H|(c & _ & H)]; [by apply common_no_panic in H|]. destruct f as [[p [[g a] au]]|]; [|done]. apply res_bind_panic in H as [H%base_panic|(? & _ & H)]; [|done]. exists p. split; [by eapply load_path|done].
  - exfalso. no_panic.
  - apply res_bind_panic in H as [H|(c & _ & H)]; [exfalso; no_panic|]. apply res_bind_panic in H as [H|(c' & _ & H)]; [by apply common_no_panic in H|].
    destruct f as [[p [[g n] au]]|]; [|done]. apply res_bind_panic in H as [H%base_panic|(? & _ & H)]; [|exfalso; unfold set_from_node in H; destruct n as [[t|]|]; [by apply advertised_no_panic in H|done..]].
    exists p. split; [by eapply load_path|done].
  - exfalso. apply res_bind_panic in H as [H|(? & _ & H)]; [|done]. destruct adv; [by apply advertised_no_panic in H|done].
Qed.

Lemma check_panic c m : check_valid c m = Panic → ∃ p, c_private_key_file c = Some p ∧ path_is_str p = false.
Proof.
  unfold check_valid, check_opt, check_file_exists, require. intros H. do 4 (apply res_bind_panic in H as [H|(? & _ & H)]; [no_panic|]). apply res_bind_panic in H as [H|(? & _ & H)].
  - destruct (c_private_key_file c) as [p|]; [|no_panic]. exists p. split; [done|]. destruct (path_is_str p); [no_panic|done].
  - destruct m; no_panic.
Qed.

(** Starting panics only on a configuration file without a directory, which cannot be read,
    or on a private key file whose path is not valid UTF-8. *)
Theorem argparse_panics command : argparse command = Panic →
  (∃ p, config_path_of command = Some p ∧ path_parent p = None) ∨ ∃ c p, sources command c ∧ c_private_key_file c = Some p ∧ path_is_str p = false.
Proof.
  unfold argparse. intros [H|([m c] & E & H)]%res_bind_panic; [left; by apply merge_panic|]. cbn [fst snd] in H. apply res_bind_panic in H as [H|(c1 & E1 & H)]; [by apply finalize_no_panic in H|].
  apply res_bind_panic in H as [H|(? & _ & H)]; [|done]. apply merge_ok in E as [-> Hs]. apply finalize_eq in E1 as (b & o & -> & _ & _). apply check_panic in H as (p & Hp & Hn). right. eexists _, p. split; [by apply sources_final|done].
Qed.
End config.

(** C29: where settings come from, as the code has it and against the help, which says that
    the command line overrides the file.  If a packet handler starts at all, only its name,
    node address, bootstrap key and advertised address are those of the command line if given
    there, and otherwise those of the file; its control socket, bind address, CA, certificate and
    key files, TUN interface, I/O engine and a node's authentication key are those of the file
    if given there, whatever the command line says; ZPR addresses and log levels are those of
    the command line followed by those of the file.  Paths of the command line are relative to
    the current directory, those of the file to the file.  Settings are accepted exactly if
    they can be read and are [usable]: the directory of the control socket and the CA,
    certificate and key files exist, and what the mode needs is set; a node's authentication
    key plays no part in that, be it missing or a path to nothing. *)
Theorem config_sources `{EvidenceLib} {CW : ConfigWorld} (command : Command) (m : RunMode) (c : Config) :
  (argparse command = ok (m, c) ↔ ∃ c0, merge_sources command = ok (m, c0) ∧ finalize c0 = ok c ∧ usable c m) ∧
  (argparse command = ok (m, c) → m = mode_of command ∧ sources command c ∧ ∀ key, check_valid (set_auth_private_key c key) m = ok ()).
Proof.
  split.
  - unfold argparse. split.
    + intros ([m0 c0] & E0 & (c1 & E1 & ([] & Hv & [= -> ->])%res_bind_ok)%res_bind_ok)%res_bind_ok. exists c0. cbn in *. by rewrite <- check_valid_iff.
    + intros (c0 & -> & E1 & Hv%check_valid_iff). cbn. rewrite E1. cbn. by rewrite Hv.
  - intros (-> & Hs & Hv%check_valid_iff)%argparse_sources. split; [done|]. split; [done|]. intros key. by apply check_valid_iff.
Qed.

(** The options of the command line that a file overrides, against their documentation. *)
Theorem file_overrides_command_line `{EvidenceLib} {CW : ConfigWorld} name cf common na bk c p g a au b addr tun :
  argparse (CmdAdapter name (Some cf) common na bk) = ok (Adapter, c) →
  load_config toml_adapter cf = ok (p, (g, a, au)) → path_parent p = Some b → g_self_addr g = Some addr → g_tun_if g = Some tun → a_self_addr common ≠ Some addr → a_tun_if common ≠ Some tun →
  c_self_addr c = addr ∧ c_tun_if c = Some tun.
Proof.
  intros (_ & (f & Ef & Hc & _) & _)%argparse_sources Hl Hp Ha Ht _ _. cbn in Ef. rewrite Hl in Ef. apply ok_inj in Ef as <-. destruct Hc as [_ Hs _ _ _ _ Hti _ _ _ _].
  rewrite Hs, Hti. unfold file_val. cbn. rewrite Hp. cbn. rewrite Ha, Ht. by rewrite !union_Some_l.
Qed.

(** ** Log levels, [logging.rs] *)

Inductive Level : Type := LevelError | LevelWarn | LevelInfo | LevelDebug | LevelTrace.

Definition get_level (level : bytes) : Level :=
  if bool_decide (level = txt "DEBUG") then LevelDebug
  else if bool_decide (level = txt "TRACE") then LevelTrace
  else if bool_decide (level = txt "WARN") then LevelWarn
  else if bool_decide (level = txt "OFF") then LevelError
  else if bool_decide (level = txt "ERROR") then LevelError
  else LevelInfo.

(** The default level, and those of targets. *)
Definition create_target_filter (logging_map : gmap bytes bytes) : Level * gmap bytes Level :=
  (match logging_map !! txt "all" with Some v => get_level v | None => LevelInfo end, get_level <$> logging_map).

(** [initialize]: the map it makes of the pairs, and the filter. *)
Definition logging_map_of (l : list (bytes * bytes)) : gmap bytes bytes := foldl (λ m e, <[e.1 := e.2]> m) ∅ l.
Definition initialize_logging (l : list (bytes * bytes)) : Level * gmap bytes Level := create_target_filter (logging_map_of l).

Lemma logging_map_fresh (l : list (bytes * bytes)) (m : gmap bytes bytes) (t : bytes) : t ∉ l.*1 → foldl (λ m e, <[e.1 := e.2]> m) m l !! t = m !! t.
Proof.
  revert m. induction l as [|[k v] l IH]; intros m Ht; [done|]. cbn in *. apply not_elem_of_cons in Ht as [Hne Ht]. rewrite IH by done. by rewrite lookup_insert_ne.
Qed.

(** The last pair of a target decides, and that of "all" sets the default. *)
Theorem last_level_decides (l1 l2 : list (bytes * bytes)) (t v : bytes) :
  t ∉ l2.*1 → let f := initialize_logging (l1 ++ (t, v) :: l2) in f.2 !! t = Some (get_level v) ∧ (t = txt "all" → f.1 = get_level v).
Proof.
  intros Ht f. assert (logging_map_of (l1 ++ (t, v) :: l2) !! t = Some v) as Hm by (unfold logging_map_of; rewrite foldl_app; cbn; rewrite logging_map_fresh by done; by rewrite lookup_insert_eq).
  split; [cbn; by rewrite lookup_fmap, Hm|]. intros ->. cbn. by rewrite Hm.
Qed.

(** The level "OFF" leaves errors on, and a level of a file that is not in capitals, which
    the command line would accept, is taken for "INFO". *)
Theorem off_is_not_off : get_level (txt "OFF") = LevelError ∧ get_level (txt "debug") = LevelInfo ∧ get_level (txt "off") = LevelInfo.
Proof. done. Qed.

(** ** An example *)

(** One file, "a.toml", in the home directory "h", whose name need not be text. *)
Definition home (h : Z) : Path := mk_path true [[h]].
Definition sample_globals : GlobalConfigSection :=
  mk_globals None (Some (SockV4 [10; 0; 0; 1] 5000)) None None (Some (mk_path false [txt "k.pem"])) (Some (txt "tun9")) None None None.

Definition sample_config_world (h : Z) : ConfigWorld := {|
  current_dir := Some (home h); data_home := home h; file_exists _ := Some true; read_file _ := Some [1];
  toml_adapter _ := Some (sample_globals, mk_adapter_section (Some (txt "x")) (Some (SockV4 [10; 0; 0; 2] 5000)) None, None); toml_node _ := None;
  load_cert_cn _ := None; load_noise_private_key _ := None; parse_socket_addr _ := None |}.

Definition sample_args : CommonArgs := mk_common None (Some (SockV4 [10; 0; 0; 9] 7)) None None None None (Some (txt "tun1")) None [] (txt "auto") (txt "noise").
Definition sample_command : Command := CmdAdapter (Some (txt "y")) (Some (mk_path false [txt "a.toml"])) sample_args None None.

Abbreviation sample_start h := (@argparse sample_evidence (sample_config_world h) sample_command).

Lemma config_sources_witness : ∃ c, sample_start 104 = ok (Adapter, c) ∧ c_name c = txt "y" ∧ c_self_addr c = SockV4 [10; 0; 0; 1] 5000 ∧ @usable sample_evidence (sample_config_world 104) c Adapter.
Proof.
  eexists. split; [vm_compute; reflexivity|]. split; [reflexivity|]. split; [reflexivity|].
  match goal with |- usable ?c _ =>
    destruct (proj1 (proj1 (@config_sources sample_evidence (sample_config_world 104) sample_command Adapter c)) ltac:(vm_compute; reflexivity)) as (c0 & _ & _ & H) end.
  exact H.
Defined.

(** A configuration file in a directory whose name is not valid UTF-8 panics the packet
    handler if it names a key file by a relative path. *)
Theorem key_file_path_panics : sample_start 255 = Panic.
Proof. vm_compute. reflexivity. Qed.
