(* ===== verification/PeerTable.v ===== *)
(** The peer table, [src/adapter/ph/src/peer_table.rs], with the ways in which
    [assembly.rs] and [mgmt/dispatch.rs] add and drop peers: a slab of peers, the index of
    their substrate addresses, and the names of special peers.  The link state machine and actor
    of a peer are in [Link], at the peer's link identifier; its other state is a parameter; the
    read side of the slab is the slab (a removal is seen at once). *)
From S2P Require Import Prelude Zdp Dispatch NetDefs Slab Tlv AddressPool Link.

Definition PEER_TABLE_SIZE : Z := 1024.
Definition LINK_ID_UNKNOWN : Z := 0.

Inductive PeerInsertError : Type := TableFull | FailedToStart (e : LinkStateError).

Definition link_range (l : Z) : Prop := 0 < l <= PEER_TABLE_SIZE.

Lemma link_of_key k : 0 <= k < PEER_TABLE_SIZE → link_range (key_stream k) ∧ stream_key (key_stream k) = k.
Proof. unfold link_range, key_stream, stream_key, PEER_TABLE_SIZE. zmod. Qed.

Lemma stream_key_link l l' : link_range l → link_range l' → stream_key l = stream_key l' → l = l'.
Proof. unfold link_range, stream_key, PEER_TABLE_SIZE. zmod. Qed.

Section peer_table.
Context {ND : NetDefs} {AA : AuthApi} `{SL : Slab} {SLL : SlabLaws} {Data ScopedIp : Type} `{EqDecision ScopedIp}.

(** [is_unspecified] of the address's IP. *)
Definition addr_unspecified (a : SocketAddr) : bool := match a with SockV4 ip _ | SockV6 ip _ _ _ => forallb (Z.eqb 0) ip end.
#[local] Instance SocketAddr_dec : EqDecision SocketAddr.
Proof. solve_decision. Defined.

Record PeerEntry : Type := mk_peer { pe_substrate_addr : SocketAddr; pe_interface_addr : ScopedIp; pe_link_type : LinkType; internal_peer_id : option Z; pe_data : Data }.

Record PeerTable : Type := mk_table {
  peer_slab : slab PeerEntry;
  sa_index : list ((SocketAddr * ScopedIp) * Z);
  special_peers : Z }.

Definition peer_key (p : PeerEntry) : SocketAddr * ScopedIp := (pe_substrate_addr p, pe_interface_addr p).

(** The [DashMap]. *)
Definition index_get (m : list ((SocketAddr * ScopedIp) * Z)) (k : SocketAddr * ScopedIp) : option Z := snd <$> find (λ e, bool_decide (e.1 = k)) m.
Definition index_remove (m : list ((SocketAddr * ScopedIp) * Z)) (k : SocketAddr * ScopedIp) : list ((SocketAddr * ScopedIp) * Z) := List.filter (λ e, negb (bool_decide (e.1 = k))) m.
Definition index_insert (m : list ((SocketAddr * ScopedIp) * Z)) (k : SocketAddr * ScopedIp) (v : Z) : list ((SocketAddr * ScopedIp) * Z) := (k, v) :: index_remove m k.

Definition table_new : PeerTable := mk_table (with_fixed_capacity PEER_TABLE_SIZE) [] LINK_ID_UNKNOWN.

Definition table_get (t : PeerTable) (link_id : Z) : option PeerEntry := slab_get (peer_slab t) (stream_key link_id).
Definition table_lookup (t : PeerTable) (sa : SocketAddr) (intf : ScopedIp) : option Z := index_get (sa_index t) (sa, intf).
(** [lookup_special_peer], of the one special name *)
Definition lookup_special_peer (t : PeerTable) : option Z := if special_peers t =? LINK_ID_UNKNOWN then None else Some (special_peers t).

(** [vacant_entry], and the [key] of the entry *)
Definition table_vacant (t : PeerTable) : PeerInsertError + Z := match vacant_key (peer_slab t) with None => inl TableFull | Some k => inr (key_stream k) end.

(** [VacantPeerTableEntry::insert] *)
Definition table_insert (t : PeerTable) (p : PeerEntry) : outcome (PeerTable * Z) :=
  match slab_insert (peer_slab t) p with
  | None => Panic
  | Some (id, s) =>
      let link_id := key_stream id in
      if negb (addr_unspecified (pe_substrate_addr p)) then
        match index_get (sa_index t) (peer_key p) with
        | Some _ => Panic
        | None => Ret (mk_table s (index_insert (sa_index t) (peer_key p) link_id) (special_peers t), link_id)
        end
      else Ret (mk_table s (sa_index t) (special_peers t), link_id)
  end.

Definition table_remove (t : PeerTable) (link_id : Z) : PeerTable :=
  match table_get t link_id with
  | None => t
  | Some p =>
      mk_table (slab_remove (peer_slab t) (stream_key link_id)) (index_remove (sa_index t) (peer_key p))
        (if special_peers t =? link_id then LINK_ID_UNKNOWN else special_peers t)
  end.

(** [PeerTable::assign_special_name]: whether the name was free. *)
Definition table_assign_special (t : PeerTable) (link_id : Z) : PeerTable * bool :=
  if special_peers t =? LINK_ID_UNKNOWN then (mk_table (peer_slab t) (sa_index t) link_id, true) else (t, false).

Context (new_data : Z → LinkType → Data).

(** [PeerState::new_internal_peer] *)
Definition new_internal_peer (intf : ScopedIp) (link_id : Z) (peer_id : option Z) : PeerEntry :=
  mk_peer (SockV6 (replicate 16 0) 0 0 0) intf Internal peer_id (new_data link_id Internal).

(** [entry.key()] on the entry that [vacant_entry().unwrap()] gave. *)
Definition unwrap_vacant (t : PeerTable) : outcome Z := match table_vacant t with inr k => Ret k | inl _ => Panic end.

Definition insert_internal_peer (intf : ScopedIp) (t : PeerTable) : outcome (PeerTable * Z) := k ← unwrap_vacant t; table_insert t (new_internal_peer intf k None).

Definition insert_internal_peer_pair (intf : ScopedIp) (t : PeerTable) : outcome (PeerTable * (Z * Z)) :=
  link_id1 ← unwrap_vacant t;
  let link_id2 := link_id1 + 1 in
  r ← table_insert t (new_internal_peer intf link_id1 (Some link_id2));
  k ← unwrap_vacant r.1;
  assertb (k =? link_id2) (
  r ← table_insert r.1 (new_internal_peer intf link_id2 (Some link_id1));
  Ret (r.1, (link_id1, link_id2))).

(** [Assembly::add_peer], without the workers it starts. *)
Definition table_add_peer (t : PeerTable) (ty : LinkType) (sa : SocketAddr) (intf : ScopedIp) : outcome (PeerTable * (PeerInsertError + Z)) :=
  match table_vacant t with
  | inl e => Ret (t, inl e)
  | inr k => r ← table_insert t (mk_peer sa intf ty None (new_data k ty)); Ret (r.1, inr r.2)
  end.

(** The table with the links of its peers. *)
Record Net : Type := mk_net { net_table : PeerTable; net_links : LinkSys }.

(** The new peer's link state machine and actor; its key is random, its actor is at [a]. *)
Definition new_link (s : LinkSys) (l : Z) (ty : LinkType) (key : bytes) (a : Z) : LinkSys := put_actor (put s l (link_new ty key a)) a (actor_new l ty).

Definition is_tether (ty : LinkType) : bool := match ty with NodeToAdapter | AdapterToNode => true | _ => false end.

(** [Assembly::start_tether]: a peer that cannot start its link stays in the table, and its link
    is closed. *)
Definition start_tether (e : Env) (key : bytes) (a : Z) (n : Net) (sa : SocketAddr) (intf : ScopedIp) (ty : LinkType) : outcome (Net * (PeerInsertError + Z)) :=
  assertb (is_tether ty) (
  r ← table_add_peer (net_table n) ty sa intf;
  match r with
  | (t, inl er) => Ret (mk_net t (net_links n), inl er)
  | (t, inr l) =>
      let s := new_link (net_links n) l ty key a in
      match table_get t l with
      | None => Ret (mk_net t s, inr l)
      | Some _ =>
          r ← process_link_state_event e s l Start;
          match r with
          | (s, inr _) => Ret (mk_net t s, inr l)
          | (s, inl er) =>
              r ← process_link_state_event e s l ErrorEvent;
              match r with (s, inr _) => Ret (mk_net t s, inl (FailedToStart er)) | (_, inl _) => Panic end
          end
      end
  end).

(** The peer that [dispatch_mgmt_packet_with_addr] takes a key management packet to. *)
Definition peer_for_addr (e : Env) (key : bytes) (a : Z) (n : Net) (sa : SocketAddr) (intf : ScopedIp) : outcome (Net * option Z) :=
  match table_lookup (net_table n) sa intf with
  | Some l => Ret (n, Some l)
  | None => r ← start_tether e key a n sa intf NodeToAdapter; Ret (r.1, match r.2 with inr l => Some l | inl _ => None end)
  end.

(** ** The index is exact *)

(** A special name is that of a link in the table, or of one that was [late]: gone when it got
    the name. *)
Record table_wf (late : Z → Prop) (t : PeerTable) : Prop := {
  tw_capacity : capacity (peer_slab t) = PEER_TABLE_SIZE;
  tw_index : ∀ k l, index_get (sa_index t) k = Some l ↔ link_range l ∧ ∃ p, table_get t l = Some p ∧ peer_key p = k ∧ addr_unspecified (pe_substrate_addr p) = false;
  tw_special : special_peers t = LINK_ID_UNKNOWN ∨ link_range (special_peers t) ∧ (is_Some (table_get t (special_peers t)) ∨ late (special_peers t)) }.

Lemma index_get_remove m k k' : index_get (index_remove m k) k' = if decide (k' = k) then None else index_get m k'.
Proof.
  unfold index_get, index_remove. induction m as [|[k0 v0] m IH]; [by destruct (decide _)|]. cbn [List.filter fst]. case_bool_decide as E; cbn [negb].
  - subst k0. rewrite IH. destruct (decide (k' = k)) as [->|Hne]; [done|]. cbn. by rewrite bool_decide_false by congruence.
  - cbn. case_bool_decide as E'; [subst k0; by rewrite decide_False by congruence|exact IH].
Qed.

Lemma index_get_insert m k v k' : index_get (index_insert m k v) k' = if decide (k' = k) then Some v else index_get m k'.
Proof.
  unfold index_insert. unfold index_get at 1. cbn. case_bool_decide as E; [subst; by rewrite decide_True|]. rewrite decide_False by congruence.
  change (index_get (index_remove m k) k' = index_get m k'). rewrite index_get_remove. by rewrite decide_False by congruence.
Qed.

Lemma table_new_wf late : table_wf late table_new.
Proof using SLL.
  split; [apply capacity_new| |by left]. intros k l. split; [done|]. intros (_ & p & H & _). unfold table_get in H. cbn in H. by rewrite slab_get_new in H.
Qed.

(** What an insertion does. *)
Lemma insert_cases late t p : table_wf late t →
  match table_vacant t with
  | inl _ => table_insert t p = Panic
  | inr l => link_range l ∧ table_get t l = None ∧
      (addr_unspecified (pe_substrate_addr p) = false → is_Some (index_get (sa_index t) (peer_key p)) → table_insert t p = Panic) ∧
      (addr_unspecified (pe_substrate_addr p) = true ∨ index_get (sa_index t) (peer_key p) = None →
        ∃ t', table_insert t p = Ret (t', l) ∧ table_wf late t' ∧ special_peers t' = special_peers t ∧ (∀ j, link_range j → table_get t' j = if decide (j = l) then Some p else table_get t j))
  end.
Proof using SLL.
  clear new_data. intros [Hcap Hidx Hsp]. unfold table_vacant, table_insert. pose proof (slab_insert_vacant (peer_slab t) p) as Hins. destruct (vacant_key (peer_slab t)) as [k|] eqn:Ek; [|by rewrite Hins].
  destruct Hins as (s & -> & Hcap' & Hget). apply vacant_key_free in Ek as [Hk Hnone]. rewrite Hcap in Hk. destruct (link_of_key k Hk) as [Hl Hkey]. set (l := key_stream k) in *.
  assert (table_get t l = None) as Hfree by (unfold table_get; by rewrite Hkey).
  assert (∀ i sp j, link_range j → table_get (mk_table s i sp) j = if decide (j = l) then Some p else table_get t j) as Hget'.
  { intros i sp j Hj. unfold table_get. cbn. rewrite Hget. destruct (decide (j = l)) as [->|Hne]; [by rewrite decide_True|]. rewrite decide_False; [done|]. intros E. apply Hne. apply stream_key_link; [done..|]. by rewrite Hkey. }
  assert (∀ i, special_peers t = LINK_ID_UNKNOWN ∨ link_range (special_peers t) ∧ (is_Some (table_get (mk_table s i (special_peers t)) (special_peers t)) ∨ late (special_peers t))) as Hsp'.
  { intros i. destruct Hsp as [?|[Hr [[q Hq]|?]]]; [by left|right|by right; auto]. split; [done|]. left. rewrite Hget' by done. destruct (decide _); [by eexists|by exists q]. }
  split; [done|]. split; [done|]. split.
  - intros Hu [x Hx]. rewrite Hu. cbn. by rewrite Hx.
  - intros Hor. destruct (addr_unspecified (pe_substrate_addr p)) eqn:Hu; cbn [negb].
    + eexists. split; [done|]. split; [|split; [done|by apply Hget']]. split; [cbn; by rewrite Hcap'| |by apply Hsp']. intros k0 l0. cbn [sa_index]. rewrite Hidx. split.
      * intros (Hr & q & Hq & Hk0 & Hu0). split; [done|]. exists q. rewrite Hget' by done. rewrite decide_False by congruence. done.
      * intros (Hr & q & Hq & Hk0 & Hu0). split; [done|]. rewrite Hget' in Hq by done. destruct (decide (l0 = l)); [injection Hq as <-; congruence|by exists q].
    + destruct Hor as [?|Hn]; [done|]. rewrite Hn. eexists. split; [done|]. split; [|split; [done|by apply Hget']]. split; [cbn; by rewrite Hcap'| |by apply Hsp']. intros k0 l0. cbn [sa_index]. rewrite index_get_insert.
      destruct (decide (k0 = peer_key p)) as [->|Hne]; split.
      * intros [= <-]. split; [done|]. exists p. rewrite Hget' by done. by rewrite decide_True.
      * intros (Hr & q & Hq & Hk0 & Hu0). rewrite Hget' in Hq by done. destruct (decide (l0 = l)) as [->|]; [done|].
        assert (index_get (sa_index t) (peer_key p) = Some l0) as Hi by (apply Hidx; split; [done|]; by exists q). congruence.
      * intros (Hr & q & Hq & Hk0 & Hu0)%Hidx. split; [done|]. exists q. rewrite Hget' by done. rewrite decide_False by congruence. done.
      * intros (Hr & q & Hq & Hk0 & Hu0). apply Hidx. split; [done|]. rewrite Hget' in Hq by done. destruct (decide (l0 = l)); [congruence|by exists q].
Qed.

Lemma table_remove_get t l j : link_range l → link_range j → table_get (table_remove t l) j = if decide (j = l) then None else table_get t j.
Proof using SLL.
  clear new_data. intros Hl Hj. unfold table_remove. destruct (table_get t l) as [p|] eqn:E; [|destruct (decide (j = l)) as [->|]; done]. unfold table_get. cbn. rewrite slab_get_remove.
  destruct (decide (j = l)) as [->|Hne]; [by rewrite decide_True|]. rewrite decide_False; [done|]. intros H. apply Hne. by apply stream_key_link.
Qed.

Lemma table_remove_wf late t l : table_wf late t → link_range l → table_wf late (table_remove t l).
Proof using SLL.
  clear new_data. intros Ht Hl. pose proof (λ j, table_remove_get t l j Hl) as Hget. unfold table_remove in *. destruct (table_get t l) as [p|] eqn:E; [|done]. destruct Ht as [Hcap Hidx Hsp]. split.
  - cbn. by rewrite capacity_remove.
  - intros k l0. cbn [sa_index]. rewrite index_get_remove. split.
    + destruct (decide (k = peer_key p)) as [|Hne]; [done|]. intros (Hr & q & Hq & Hk & Hu)%Hidx. split; [done|]. exists q. rewrite Hget by done. rewrite decide_False; [done|]. intros ->. congruence.
    + intros (Hr & q & Hq & Hk & Hu). rewrite Hget in Hq by done. destruct (decide (l0 = l)) as [|Hne]; [done|]. assert (index_get (sa_index t) k = Some l0) as Hi by (apply Hidx; split; [done|by exists q]).
      destruct (decide (k = peer_key p)) as [Hk'|]; [|done]. exfalso. apply Hne. assert (index_get (sa_index t) k = Some l) as Hi'; [|congruence]. apply Hidx. split; [done|]. exists p. split; [done|]. split; [done|].
      unfold peer_key in Hk, Hk'. assert (pe_substrate_addr p = pe_substrate_addr q) as -> by congruence. done.
  - cbn [special_peers]. destruct (Z.eqb_spec (special_peers t) l) as [|Hne]; [by left|]. destruct Hsp as [?|[Hr [[q Hq]|?]]]; [by left|right|by right; auto]. split; [done|]. left. rewrite Hget by done. rewrite decide_False by done. by exists q.
Qed.

Lemma assign_special_wf (late : Z → Prop) t l : table_wf late t → link_range l → is_Some (table_get t l) ∨ late l → table_wf late (table_assign_special t l).1.
Proof using SLL.
  clear new_data. intros Ht Hl Hs. unfold table_assign_special. destruct (special_peers t =? LINK_ID_UNKNOWN); [|done]. destruct Ht as [Hcap Hidx _]. split; [done|exact Hidx|]. right. done.
Qed.

Lemma table_wf_mono (late late' : Z → Prop) t : (∀ l, late l → late' l) → table_wf late t → table_wf late' t.
Proof. clear new_data. intros Hm [H1 H2 H3]. split; [done..|]. destruct H3 as [?|[? [?|?]]]; auto. Qed.

(** Adding a peer keeps the others. *)
Definition keeps (t t' : PeerTable) : Prop := ∀ l p, link_range l → table_get t l = Some p → table_get t' l = Some p.

Lemma add_peer_cases late t ty sa intf : table_wf late t →
  match vacant_key (peer_slab t) with
  | None => table_add_peer t ty sa intf = Ret (t, inl TableFull)
  | Some _ => addr_unspecified sa = true ∨ table_lookup t sa intf = None →
      ∃ t' l, table_add_peer t ty sa intf = Ret (t', inr l) ∧ table_wf late t' ∧ link_range l ∧ table_get t l = None ∧ keeps t t' ∧
        ∃ p, table_get t' l = Some p ∧ peer_key p = (sa, intf) ∧ pe_link_type p = ty
  end.
Proof using SLL.
  intros Ht. unfold table_add_peer. pose proof (λ k, insert_cases late t (mk_peer sa intf ty None (new_data k ty)) Ht) as Hc. unfold table_vacant in *.
  destruct (vacant_key (peer_slab t)) as [k|]; [|done]. intros Hor. destruct (Hc (key_stream k)) as (Hl & Hf & _ & Hok). destruct (Hok Hor) as (t' & -> & Hwf & _ & Hget).
  cbn. eexists _, _. split; [done|]. split; [done|]. split; [done|]. split; [done|]. split.
  - intros l p Hr Hp. rewrite Hget by done. by rewrite decide_False by congruence.
  - eexists. rewrite Hget by done. by rewrite decide_True.
Qed.

Lemma insert_wf late t p r : table_wf late t → table_insert t p = Ret r → table_wf late r.1.
Proof using SLL.
  clear new_data. intros Ht. pose proof (insert_cases late t p Ht) as Hc. destruct (table_vacant t); [by rewrite Hc|]. destruct Hc as (_ & _ & Hno & Hok).
  destruct (addr_unspecified (pe_substrate_addr p)) eqn:Hu; [destruct (Hok (or_introl eq_refl)) as (t' & -> & ? & _); by intros [= <-]|].
  destruct (index_get (sa_index t) (peer_key p)) eqn:Hi; [rewrite Hno by (done || by eexists); done|]. destruct (Hok (or_intror eq_refl)) as (t' & -> & ? & _). by intros [= <-].
Qed.

Lemma add_peer_wf late t ty sa intf r : table_wf late t → table_add_peer t ty sa intf = Ret r → table_wf late r.1.
Proof using SLL.
  intros Ht. unfold table_add_peer. destruct (table_vacant t) as [er|k]; [by intros [= <-]|].
  destruct (table_insert t _) as [r'|] eqn:E; [|done]. cbn. intros [= <-]. by eapply insert_wf.
Qed.

(** The link of a new tether starts: what a started link is. *)
Definition started (s s' : LinkSys) (l : Z) (ty : LinkType) (key : bytes) (a : Z) : Prop :=
  let k := link_new ty key a in
  s' = emit (put (new_link s l ty key a) l (with_fsm k (set_state (with_status (fsm k) Up) Keying))) [StartKeyManagement l].

Lemma tether_starts e s l ty key a : is_tether ty = true → l ≠ 0 →
  ∃ s', process_link_state_event e (new_link s l ty key a) l Start = Ret (ok s') ∧ started s s' l ty key a.
Proof.
  clear new_data. intros Hty Hl. unfold process_link_state_event, new_link. cbn. rewrite lookup_insert_eq. cbn. unfold process_start. rewrite (proj2 (Z.eqb_neq _ _) Hl).
  destruct ty; try discriminate Hty; cbn; eexists; by split.
Qed.

Lemma start_tether_cases late e key a n sa intf ty : table_wf late (net_table n) → is_tether ty = true → addr_unspecified sa = true ∨ table_lookup (net_table n) sa intf = None →
  match vacant_key (peer_slab (net_table n)) with
  | None => start_tether e key a n sa intf ty = Ret (n, inl TableFull)
  | Some _ => ∃ n' l, start_tether e key a n sa intf ty = Ret (n', inr l) ∧ table_wf late (net_table n') ∧ link_range l ∧ table_get (net_table n) l = None ∧
      keeps (net_table n) (net_table n') ∧ started (net_links n) (net_links n') l ty key a ∧
      ∃ p, table_get (net_table n') l = Some p ∧ peer_key p = (sa, intf) ∧ pe_link_type p = ty
  end.
Proof using SLL.
  intros Ht Hty Hor. pose proof (add_peer_cases late (net_table n) ty sa intf Ht) as Hc. unfold start_tether. rewrite Hty. cbn [assertb].
  destruct (vacant_key (peer_slab (net_table n))); [|rewrite Hc; by destruct n]. destruct (Hc Hor) as (t' & l & -> & Hwf & Hl & Hf & Hk & p & Hp & Hpk & Hpt).
  cbn [mbind outcome_bind]. rewrite Hp. destruct (tether_starts e (net_links n) l ty key a Hty) as (s' & -> & Hs); [unfold link_range in Hl; lia|].
  cbn. exists (mk_net t' s'), l. split_and!; try done. by exists p.
Qed.

(** A tether that is started by hand keeps the table in order, whatever its address. *)
Lemma start_tether_wf late e key a n sa intf ty n' r : table_wf late (net_table n) → start_tether e key a n sa intf ty = Ret (n', r) → table_wf late (net_table n').
Proof using SLL.
  intros Ht. unfold start_tether, assertb. destruct (is_tether ty); [|done]. destruct (table_add_peer (net_table n) ty sa intf) as [[t [er|l]]|] eqn:E; [..|done];
    pose proof (add_peer_wf late _ _ _ _ _ Ht E) as Hwf; cbn [mbind outcome_bind]; [by intros [= <- <-]|].
  destruct (table_get t l); [|by intros [= <- <-]]. destruct (process_link_state_event e _ l Start) as [[s [er|]]|]; cbn [mbind outcome_bind]; [|by intros [= <- <-]|done].
  destruct (process_link_state_event e s l ErrorEvent) as [[s' [|]]|]; cbn [mbind outcome_bind]; [done|by intros [= <- <-]|done].
Qed.

(** What becomes of a key management packet from an address. *)
Definition packet_effect (key : bytes) (a : Z) (n n' : Net) (sa : SocketAddr) (intf : ScopedIp) (r : option Z) : Prop :=
  match table_lookup (net_table n) sa intf, vacant_key (peer_slab (net_table n)) with
  | Some l, _ => n' = n ∧ r = Some l
  | None, None => n' = n ∧ r = None
  | None, Some _ => ∃ l p, r = Some l ∧ link_range l ∧ table_get (net_table n) l = None ∧ keeps (net_table n) (net_table n') ∧
      table_get (net_table n') l = Some p ∧ peer_key p = (sa, intf) ∧ pe_link_type p = NodeToAdapter ∧ started (net_links n) (net_links n') l NodeToAdapter key a
  end.

Lemma peer_for_addr_ok late e key a n sa intf : table_wf late (net_table n) →
  ∃ n' r, peer_for_addr e key a n sa intf = Ret (n', r) ∧ table_wf late (net_table n') ∧ packet_effect key a n n' sa intf r.
Proof using SLL.
  intros Ht. unfold peer_for_addr, packet_effect. destruct (table_lookup (net_table n) sa intf) as [l|] eqn:E; [by exists n, (Some l)|].
  pose proof (start_tether_cases late e key a n sa intf NodeToAdapter Ht eq_refl (or_intror E)) as Hc. destruct (vacant_key (peer_slab (net_table n))); [|rewrite Hc; by exists n, None].
  destruct Hc as (n' & l & -> & Hwf & Hl & Hf & Hk & Hs & p & Hp & Hpk & Hpt). exists n', (Some l). split; [done|]. split; [done|]. by exists l, p.
Qed.

(** ** Runs *)

(** The internal links and tethers that are made at startup, a key management packet from
    an address, a link that is closed, a special name that is assigned (whether or not the link is
    still there), and any other change of the links. *)
Inductive TableOp : Type :=
| ToInternal (intf : ScopedIp)
| ToInternalPair (intf : ScopedIp)
| ToTether (e : Env) (key : bytes) (a : Z) (sa : SocketAddr) (intf : ScopedIp) (ty : LinkType)
| ToPacket (e : Env) (key : bytes) (a : Z) (sa : SocketAddr) (intf : ScopedIp)
| ToRemove (l : Z)
| ToSpecial (l : Z)
| ToLinks (s : LinkSys).

Definition table_exec (n : Net) (op : TableOp) : outcome Net :=
  match op with
  | ToInternal intf => r ← insert_internal_peer intf (net_table n); Ret (mk_net r.1 (net_links n))
  | ToInternalPair intf => r ← insert_internal_peer_pair intf (net_table n); Ret (mk_net r.1 (net_links n))
  | ToTether e key a sa intf ty => r ← start_tether e key a n sa intf ty; Ret r.1
  | ToPacket e key a sa intf => r ← peer_for_addr e key a n sa intf; Ret r.1
  | ToRemove l => Ret (mk_net (table_remove (net_table n) l) (remove_peer (net_links n) l))
  | ToSpecial l => Ret (mk_net (table_assign_special (net_table n) l).1 (net_links n))
  | ToLinks s => Ret (mk_net (net_table n) s)
  end.

Fixpoint table_run (n : Net) (ops : list TableOp) : outcome Net :=
  match ops with
  | [] => Ret n
  | op :: ops => n ← table_exec n op; table_run n ops
  end.

Definition net_new (s : LinkSys) : Net := mk_net table_new s.

(** Links are named by identifiers that the table gives out. *)
Definition op_link (op : TableOp) : Prop := match op with ToRemove l | ToSpecial l => link_range l | _ => True end.

(** [main] inserts internal peers and its own tether before anything else runs. *)
Definition at_startup (op : TableOp) : bool := match op with ToInternal _ | ToInternalPair _ | ToTether _ _ _ _ _ _ => true | _ => false end.

(** The link was no longer in the table when it got the name. *)
Definition named_late (s : LinkSys) (ops : list TableOp) (l : Z) : Prop :=
  ∃ pre post n, ops = pre ++ ToSpecial l :: post ∧ table_run (net_new s) pre = Ret n ∧ table_get (net_table n) l = None.

Lemma internal_wf late intf t r : table_wf late t → insert_internal_peer intf t = Ret r → table_wf late r.1.
Proof using SLL.
  intros Ht. unfold insert_internal_peer. destruct (unwrap_vacant t) as [k|]; [|done]. cbn [mbind outcome_bind]. by apply insert_wf.
Qed.

Lemma internal_pair_wf late intf t r : table_wf late t → insert_internal_peer_pair intf t = Ret r → table_wf late r.1.
Proof using SLL.
  intros Ht. unfold insert_internal_peer_pair. destruct (unwrap_vacant t) as [k|]; [|done]. cbn [mbind outcome_bind].
  destruct (table_insert t _) as [r1|] eqn:E1; [|done]. cbn [mbind outcome_bind]. destruct (unwrap_vacant r1.1) as [k'|]; [|done]. cbn [mbind outcome_bind].
  unfold assertb. destruct (k' =? k + 1); [|done]. destruct (table_insert r1.1 _) as [r2|] eqn:E2; [|done]. intros [= <-]. cbn.
  eapply insert_wf; [|exact E2]. by eapply insert_wf.
Qed.

Lemma table_exec_wf (late late' : Z → Prop) n op :
  table_wf late (net_table n) → op_link op → (∀ l, late l → late' l) → (∀ l, op = ToSpecial l → table_get (net_table n) l = None → late' l) →
  match table_exec n op with Ret n' => table_wf late' (net_table n') | Panic => at_startup op = true end.
Proof using SLL.
  intros Ht Hl Hm Hlate. apply (table_wf_mono late late' _ Hm) in Ht. destruct op as [intf|intf|e key a sa intf ty|e key a sa intf|l|l|s]; cbn in *.
  - destruct (insert_internal_peer intf _) as [r|] eqn:E; [|done]. by eapply internal_wf.
  - destruct (insert_internal_peer_pair intf _) as [r|] eqn:E; [|done]. by eapply internal_pair_wf.
  - destruct (start_tether e key a n sa intf ty) as [[n' r]|] eqn:E; [|done]. by eapply start_tether_wf.
  - destruct (peer_for_addr_ok late' e key a n sa intf Ht) as (n' & r & -> & Hwf & _). done.
  - by apply table_remove_wf.
  - apply assign_special_wf; [done..|]. destruct (table_get (net_table n) l) eqn:E; [left; by eexists|right; by apply Hlate].
  - done.
Qed.

Lemma table_run_app n ops ops' : table_run n (ops ++ ops') = (n ← table_run n ops; table_run n ops').
Proof. revert n. induction ops as [|op ops IH]; intros n; cbn; [done|]. destruct (table_exec n op); cbn; [apply IH|done]. Qed.

Lemma table_run_wf s ops : Forall op_link ops →
  match table_run (net_new s) ops with
  | Ret n => table_wf (named_late s ops) (net_table n)
  | Panic => ∃ pre op post, ops = pre ++ op :: post ∧ at_startup op = true ∧ is_ret (table_run (net_new s) pre) = true
  end.
Proof using SLL.
  induction ops as [|op ops IH] using rev_ind; intros Hf; [apply table_new_wf|]. apply Forall_app in Hf as [Hf [Hop _]%Forall_cons_1]. specialize (IH Hf).
  rewrite table_run_app. destruct (table_run (net_new s) ops) as [n|] eqn:Hr; cbn [mbind outcome_bind table_run].
  2: { destruct IH as (pre & o & post & -> & ?). exists pre, o, (post ++ [op]). by rewrite <- app_assoc. }
  pose proof (table_exec_wf (named_late s ops) (named_late s (ops ++ [op])) n op IH Hop) as Hx.
  assert (∀ l, named_late s ops l → named_late s (ops ++ [op]) l) as Hm.
  { intros l (pre & post & n0 & -> & ?). exists pre, (post ++ [op]), n0. by rewrite <- app_assoc. }
  assert (∀ l, op = ToSpecial l → table_get (net_table n) l = None → named_late s (ops ++ [op]) l) as Hn by (intros l -> Hg; by exists ops, [], n).
  specialize (Hx Hm Hn). destruct (table_exec n op) as [n'|]; cbn [mbind outcome_bind]; [done|]. exists ops, op, []. by rewrite Hr.
Qed.
End peer_table.

(** C25: the peer table.  However packets of key management arrive, internal peers and tethers are
    added, links are closed and special names given out: the index of substrate addresses
    finds exactly the peers in the table, a peer with a proper address is the only one with it,
    and the special name is that of a link in the table, or of one that was already gone when it
    was given the name (nothing checks that).  Taking a packet to its peer never panics: it
    goes to the peer of its address; an unknown address is added, as an adapter whose link is
    started and which keeps its slot, without changing another peer; or the packet is dropped
    if the table is full.  Only the insertions of the startup can panic. *)
Theorem peer_table_indexed {ND : NetDefs} {AA : AuthApi} `{SLL : SlabLaws} {Data ScopedIp : Type} `{EqDecision ScopedIp} (new_data : Z → LinkType → Data)
    (s : LinkSys) (ops : list (TableOp (ScopedIp := ScopedIp))) :
  Forall op_link ops →
  match table_run new_data (net_new s) ops with
  | Ret n =>
      let t := net_table n in
      (∀ sa intf l, table_lookup t sa intf = Some l ↔ link_range l ∧ ∃ p, table_get t l = Some p ∧ peer_key p = (sa, intf) ∧ addr_unspecified sa = false) ∧
      (∀ l l' p p', link_range l → link_range l' → table_get t l = Some p → table_get t l' = Some p' → peer_key p = peer_key p' → addr_unspecified (pe_substrate_addr p) = false → l = l') ∧
      (∀ l, lookup_special_peer t = Some l → is_Some (table_get t l) ∨ named_late new_data s ops l) ∧
      ∀ e key a sa intf, ∃ n' r, peer_for_addr new_data e key a n sa intf = Ret (n', r) ∧ packet_effect key a n n' sa intf r
  | Panic => ∃ pre op post, ops = pre ++ op :: post ∧ at_startup op = true ∧ is_ret (table_run new_data (net_new s) pre) = true
  end.
Proof.
  intros Hf. pose proof (table_run_wf new_data s ops Hf) as Hr. destruct (table_run new_data (net_new s) ops) as [n|]; [|done]. cbv zeta. set (t := net_table n) in *. split; [|split; [|split]].
  - intros sa intf l. unfold table_lookup. rewrite (tw_index _ _ Hr). split; intros (Hl & p & Hp & Hk & Hu); (split; [done|]); exists p; (split; [done|]); (split; [done|]); unfold peer_key in Hk; injection Hk as <- _; done.
  - intros l l' p p' Hl Hl' Hp Hp' Hk Hu. assert (index_get (sa_index t) (peer_key p) = Some l) as H1 by (apply (tw_index _ _ Hr); split; [done|by exists p]).
    assert (index_get (sa_index t) (peer_key p) = Some l') as H2; [|congruence]. apply (tw_index _ _ Hr). split; [done|]. exists p'. split; [done|]. split; [done|].
    unfold peer_key in Hk. by assert (pe_substrate_addr p' = pe_substrate_addr p) as -> by congruence.
  - intros l. unfold lookup_special_peer. destruct (Z.eqb_spec (special_peers t) LINK_ID_UNKNOWN) as [|Hne]; [done|]. intros [= <-]. destruct (tw_special _ _ Hr) as [?|[_ ?]]; [contradiction|done].
  - intros e key a sa intf. destruct (peer_for_addr_ok new_data _ e key a n sa intf Hr) as (n' & r & H1 & _ & H2). by exists n', r.
Qed.

#[local] Instance table_auth : @AuthApi sample_net := {| Challenge := Z; AuthBlob := Z; challenge_new _ r := r; decode_blob := head; self_signed _ := true;
  challenge_verified b c _ := b =? c; connect_request_ok _ := true; ip_unspecified := replicate 16 0 |}.

Definition table_env : Env := mk_env 0 0 (Some false) true true.
Definition table_adapter (port : Z) : TableOp (ScopedIp := Z) := ToPacket table_env [] port (SockV4 [10; 0; 0; 7] port) 1.

Definition table_of (ops : list (TableOp (ScopedIp := Z))) : outcome (Net (SL := sample_slab) (Data := unit) (ScopedIp := Z)) :=
  table_run (λ _ _, tt) (net_new (link_sys_new false)) ops.

Definition table_sample : list (TableOp (ScopedIp := Z)) := [ToInternalPair 0; table_adapter 5000; table_adapter 5001; ToSpecial 3; ToRemove 4].

(** Who has the address with the port, who the special name, and whether the link is there. *)
Definition table_facts (ops : list (TableOp (ScopedIp := Z))) (port l : Z) : option (option Z * option Z * bool) :=
  match table_of ops with
  | Ret n => Some (table_lookup (net_table n) (SockV4 [10; 0; 0; 7] port) 1, lookup_special_peer (net_table n), match table_get (net_table n) l with Some _ => true | None => false end)
  | Panic => None
  end.

Lemma peer_table_indexed_witness :
  table_facts table_sample 5000 3 = Some (Some 3, Some 3, true) ∧ table_facts table_sample 5001 4 = Some (None, Some 3, false) ∧
  ∃ n, table_of table_sample = Ret n ∧ ∀ e key a sa intf, ∃ n' r, peer_for_addr (λ _ _, tt) e key a n sa intf = Ret (n', r) ∧ packet_effect key a n n' sa intf r.
Proof.
  split; [vm_compute; reflexivity|]. split; [vm_compute; reflexivity|].
  pose proof (peer_table_indexed (SLL := sample_slab_laws) (λ _ _, tt) (link_sys_new false) table_sample ltac:(repeat constructor; unfold PEER_TABLE_SIZE; lia)) as H.
  assert (is_ret (table_of table_sample) = true) as Hr by (vm_compute; reflexivity). unfold table_of in *.
  destruct (table_run _ _ table_sample) as [n|]; [|discriminate Hr]. exists n. split; [reflexivity|]. apply H.
Defined.

(** a special name that is assigned to a link after the link was removed, as the source's FIXME says it
    can be, stays: the name is then that of no link, no other link can get it, and it becomes that of
    the next peer that gets the slot. *)
Theorem special_name_outlives_link :
  let late := [table_adapter 5000; table_adapter 5001; ToRemove 1; ToSpecial 1; ToSpecial 2] in
  table_facts late 5000 1 = Some (None, Some 1, false) ∧ table_facts (late ++ [table_adapter 5002]) 5002 1 = Some (Some 1, Some 1, true).
Proof. split; vm_compute; reflexivity. Qed.
