(* ===== verification/VssWorker.v ===== *)
(** What the visa service asks of a node, [src/adapter/ph/src/vss_worker.rs]: visas to install
    and revoke, the networks of the address pool, the authentication services.  Its requests
    come from a channel that the RPC server fills, with a reply channel each; the reading of
    network prefixes and the list of services are third-party. *)
From S2P Require Import Prelude Zdp Dispatch TxnMgr Slab NetDefs Tc AdapterTables VisaTable AddressPool Node.

Inductive ParamValue : Type := StrParam (s : bytes) | OtherParam.
(** The name of a parameter, as far as it is known. *)
Inductive ParamName : Type := AAA_PREFIX | OtherName.

Inductive ListProcessingResponse : Type := ListFailed (processed : Z) | ListAck (processed : Z).
(** [ApiResponseError] with the code [ParamError], by its message. *)
Inductive ParamError : Type := MultiplePrefixes | InvalidType | PrefixRejected | InvalidPrefix.

Section vss_worker.
Context {ND : NetDefs} {VA : VsApi} {SL : Slab} {Service Topology : Type} (parse_ipnet : bytes → option (bytes * Z)) (update_services : list Service → list Service → list Service).

Inductive VSSMessage : Type :=
| PushVisaOp (ops : list VisaOp)
| RevokeAuth (addrs : list bytes)
| SetServices (services : list Service)
| Configure (params : list (ParamName * ParamValue))
| SetTopology (links : list Topology).

Inductive VSSResponse : Type := RespList (r : ListProcessingResponse) | RespDone | RespConfigure (r : ParamError + unit).

Record VssState : Type := mk_vss { vss_node : Node; vss_pool : option AddressPool; vss_services : list Service }.

(** The loop over pushed operations: how many were processed, and whether one failed. *)
Fixpoint push_ops (n : Node) (ops : list VisaOp) (processed : Z) : outcome (Node * (Z * bool)) :=
  match ops with
  | [] => Ret (n, (processed, false))
  | op :: ops =>
      r ← process_visaop n op;
      match r with
      | (n, inr _) => push_ops n ops (wrap32 (processed + 1))
      | (n, inl _) => Ret (n, (processed, true))
      end
  end.

(** The loop over parameters: the prefix so far. *)
Fixpoint scan_params (params : list (ParamName * ParamValue)) (aaa_ipnet_str : option bytes) : ParamError + option bytes :=
  match params with
  | [] => inr aaa_ipnet_str
  | (AAA_PREFIX, StrParam s) :: params => match aaa_ipnet_str with Some _ => inl MultiplePrefixes | None => scan_params params (Some s) end
  | (AAA_PREFIX, OtherParam) :: _ => inl InvalidType
  | (OtherName, _) :: params => scan_params params aaa_ipnet_str
  end.

Definition process_configuration (pool : option AddressPool) (params : list (ParamName * ParamValue)) : option AddressPool * (ParamError + unit) :=
  match scan_params params None with
  | inl e => (pool, inl e)
  | inr None => (pool, inr tt)
  | inr (Some net) =>
      match parse_ipnet net with
      | None => (pool, inl InvalidPrefix)
      | Some (addr, prefix_len) => match address_pool_new addr prefix_len with inl _ => (pool, inl PrefixRejected) | inr p => (Some p, inr tt) end
      end
  end.

(** One turn of [launch]. *)
Definition vss_step (s : VssState) (msg : VSSMessage) : outcome (VssState * VSSResponse) :=
  match msg with
  | PushVisaOp ops =>
      r ← push_ops (vss_node s) ops 0;
      Ret (mk_vss r.1 (vss_pool s) (vss_services s), RespList (if (r.2.2 : bool) then ListFailed r.2.1 else ListAck r.2.1))
  | RevokeAuth addrs => Ret (s, RespList (ListAck (wrap32 (zlen addrs))))
  | SetServices services => Ret (mk_vss (vss_node s) (vss_pool s) (update_services (vss_services s) services), RespDone)
  | Configure params => let '(pool, r) := process_configuration (vss_pool s) params in Ret (mk_vss (vss_node s) pool (vss_services s), RespConfigure r)
  | SetTopology _ => Ret (s, RespDone)
  end.

(** ** What is processed *)

(** The first operations, each of which succeeded. *)
Inductive processed_ops : Node → list VisaOp → Node → Prop :=
| processed_nil n : processed_ops n [] n
| processed_cons n op n1 ops n2 u : process_visaop n op = Ret (n1, inr u) → processed_ops n1 ops n2 → processed_ops n (op :: ops) n2.

Lemma push_prefix n ops k0 n' k b : push_ops n ops k0 = Ret (n', (k, b)) → 0 <= k0 → k0 + zlen ops < U32_MOD →
  ∃ n1 rest, processed_ops n (take (Z.to_nat (k - k0)) ops) n1 ∧ k0 <= k <= k0 + zlen ops ∧ drop (Z.to_nat (k - k0)) ops = rest ∧
    if b then ∃ op ops' e, rest = op :: ops' ∧ process_visaop n1 op = Ret (n', inl e) else rest = [] ∧ n' = n1.
Proof.
  revert n k0. induction ops as [|op ops IH]; intros n k0; cbn [push_ops]; intros H Hk Hlen.
  - injection H as <- <- <-. exists n, []. rewrite Z.sub_diag. split; [constructor|]. split; [rewrite zlen_nil; lia|]. split; [done|]. done.
  - apply outcome_bind_Ret in H as ([n1 [e|u]] & E & H).
    + injection H as <- <- <-. exists n, (op :: ops). rewrite Z.sub_diag. split; [constructor|]. split; [pose proof (zlen_nonneg (op :: ops)); lia|]. split; [done|]. by exists op, ops, e.
    + rewrite zlen_cons in Hlen. pose proof (zlen_nonneg ops). assert (wrap32 (k0 + 1) = k0 + 1) as Hw by zmod. rewrite Hw in H. destruct (IH n1 (k0 + 1) H ltac:(lia) ltac:(lia)) as (n2 & rest & Hp & Hle & Hd & Hb).
      exists n2, rest. replace (Z.to_nat (k - k0)) with (S (Z.to_nat (k - (k0 + 1)))) by lia. cbn [take drop]. split; [by econstructor|]. split; [rewrite zlen_cons; lia|]. done.
Qed.
End vss_worker.

(** Pushed operations are applied in order up to the first that fails, and the answer says
    how many were. *)
Theorem push_processed_exactly {ND : NetDefs} {VA : VsApi} {SL : Slab} {Service Topology : Type} parse_ipnet update_services (s s' : VssState (Service := Service)) ops resp :
  zlen ops < U32_MOD → vss_step (Topology := Topology) parse_ipnet update_services s (PushVisaOp ops) = Ret (s', resp) →
  ∃ n k, processed_ops (vss_node s) (take (Z.to_nat k) ops) n ∧
    ((resp = RespList (ListAck k) ∧ k = zlen ops ∧ vss_node s' = n) ∨
     (resp = RespList (ListFailed k) ∧ ∃ op e, ops !! Z.to_nat k = Some op ∧ process_visaop n op = Ret (vss_node s', inl e))).
Proof.
  intros Hlen H. cbn in H. apply outcome_bind_Ret in H as ([n' [k b]] & E & H). injection H as <- <-. destruct (push_prefix _ _ _ _ _ _ E ltac:(lia) ltac:(lia)) as (n & rest & Hp & Hk & Hd & Hb). rewrite Z.sub_0_r in *.
  exists n, k. split; [done|]. cbn. destruct b.
  - right. split; [done|]. destruct Hb as (op & ops' & e & -> & He). exists op, e. split; [|done]. rewrite <- (Nat.add_0_r (Z.to_nat k)), <- lookup_drop, Hd. done.
  - left. destruct Hb as [-> ->]. split; [done|]. split; [|done]. apply (f_equal length) in Hd. rewrite length_drop in Hd. cbn in Hd. unfold zlen in *. lia.
Qed.

(** The node acknowledges the revocation of the authorization of actors, and does nothing. *)
Theorem revoke_auth_only_acknowledged {ND : NetDefs} {VA : VsApi} {SL : Slab} {Service Topology : Type} parse_ipnet update_services (s : VssState (Service := Service)) (addrs : list bytes) :
  zlen addrs < U32_MOD → vss_step (Topology := Topology) parse_ipnet update_services s (RevokeAuth addrs) = Ret (s, RespList (ListAck (zlen addrs))).
Proof. intros H. cbn. pose proof (zlen_nonneg addrs). do 4 f_equal. zmod. Qed.

(** A configuration that is refused leaves the pool as it was; one that is accepted and names
    a prefix replaces the pool by one in which no address is in use. *)
Theorem configure_replaces_pool parse_ipnet pool params :
  match process_configuration parse_ipnet pool params with
  | (pool', inl _) => pool' = pool
  | (pool', inr _) => pool' = pool ∨ ∃ p, pool' = Some p ∧ active p = ∅
  end.
Proof.
  unfold process_configuration. destruct (scan_params params None) as [e|[net|]]; [done| |by left]. destruct (parse_ipnet net) as [[a l]|]; [|done]. unfold address_pool_new. destruct (88 <? l); [done|]. right. by eexists.
Qed.
